(* ===== verification/_CoqProject ===== *)
-Q . S2P
Prelude.v
Crc.v
ProgMem.v
FlashCache.v
BootIface.v
Bootloader.v
BootSafety.v
FlashFs.v
FlashFsSpec.v
Registers.v
RegistersSpec.v
BlTimer.v
TimerIface.v
BitFields.v
Uavcan.v
UavcanSpec.v
AppShared.v
CanUpdate.v
CanUpdateSpec.v
CanBoot.v
CanBootSpec.v
ImageToc.v
BoardMain.v
BootUpload.v
BootWitness.v
Queue.v
SqIface.v
Ppm.v
PpmSpec.v
Hrt.v
HrtSpec.v
WorkQueue.v
Float32.v
Linalg.v
Eso.v
EsoSpec.v
Takeoff.v
RateControl.v
RateControlSpec.v
ControlMath.v
PosControl.v
PosControlSpec.v
PosModule.v
PosModuleSpec.v
LinalgReal.v
ArmKinematics.v
ArmKinematicsSpec.v
AttControl.v
AttControlSpec.v
AttModule.v
RateModule.v
PosParams.v
PosParamsSpec.v
CascadeSpec.v
O1Heap.v
O1HeapBits.v
O1HeapBins.v
O1HeapLayout.v
O1HeapSpec.v
O1HeapClient.v
NavState.v
ArmState.v
Commander.v
CommanderLoop.v
NavStateSpec.v
ArmStateSpec.v
CommanderSpec.v
CommanderClaims.v
Uorb.v
UorbSpec.v
ManualControl.v
ManualControlSpec.v
FailureDetector.v
FailureDetectorSpec.v
RcUpdate.v
RcUpdateSpec.v
LandDetector.v
LandDetectorSpec.v
LandingSpec.v
