(* ===== verification/Prelude.v ===== *)
(** * Verification of the firmware: boot loaders, storage, timers, bus, control and commander

    The repository is a fork of the PX4 flight stack with ESO controllers for an aerial
    manipulator added.  This development models, as Rocq functions, the C code below the
    flight stack (two boot loaders, parameter storage, the IO co-processor's registers, timers
    and queues, checksums, the allocator of the UAVCAN driver), the repository's own control
    cascade in C++ (position, attitude and rate control with extended state observers, arm
    kinematics), and the commander that arms the vehicle and decides what it does when
    something fails; and it proves what makes them correct.

    ** The program's parts and how they interact

    - The serial boot loader (src/platforms/nuttx/src/bootloader/common/bl.c) receives
      commands over a ring buffer, erases, programs and checks the application area and
      starts the application.  It calls the flash helpers of the board port
      (bootloader/stm/stm32_common/main.c), which go through a two-line write cache
      (common/lib/flash_cache.c) to NuttX's program-memory driver.  Secure builds start
      the application through a table of contents (common/image_toc.c, crypto.c).
    - The CAN boot loader (src/platforms/nuttx/src/canbootloader) has software timers
      (sched/timer.c), a UAVCAN transport (protocol/uavcan.c), flash access (fs/flash.c)
      and a main program (uavcan/main.c) that reads the firmware from a file server,
      programs and validates it and starts it.  Node id and bus speed pass between it and
      the application in registers (src/src/drivers/bootloaders/boot_app_shared.c).
    - The parameter flash file system (src/src/lib/parameters/flashparams/flashfs.c) keeps
      the parameters in flash sectors on boards without a file system.
    - The IO co-processor (src/src/modules/px4iofirmware/registers.c) is configured and
      driven by the flight management unit through register pages.
    - The high-resolution timer (src/platforms/nuttx/src/px4/stm/stm32_common/hrt/hrt.c) keeps
      absolute time, calls back at deadlines from a queue of callouts, and decodes the RC
      receiver's pulse train.  POSIX builds replace its interrupt by work queues
      (src/platforms/common/work_queue) on intrusive queues.
    - src/src/lib/systemlib/crc.c has the CRCs these use.
    - The UAVCAN v1 driver takes its memory from an O(1) heap
      (src/src/drivers/uavcan_v1/o1heap).
    - The control cascade: the position module (src/src/modules/eso_pos_control) turns position
      and velocity setpoints into an attitude and a thrust, the attitude module
      (src/src/modules/eso_att_control) into a rate setpoint, the rate module
      (src/src/modules/eso_rate_control) into torques.  They talk through published messages;
      observers in the position and rate loops estimate disturbances, and the arm's joint
      angles change the centre of mass and the inertia they use.
    - Modules talk through the topics of the message bus (src/platforms/common/uORB).
    - The radio input (src/src/modules/rc_update) turns the pulse widths of a receiver into
      sticks and switches.  Manual control (src/src/modules/manual_control) chooses one of the pilot's inputs and
      turns gestures and switches into requests to the commander.
    - The commander (src/src/modules/commander) owns arming, termination, lockdown and the
      flight mode.  Its loop reads sensors, links, battery, geofence and commands; the state
      machines it calls (state_machine_helper.cpp, Arming/ArmStateMachine, Safety.cpp) decide
      on arming and on the navigation state, from which the control mode that switches the
      cascade's loops on and off is derived.  Its failure detector (failure_detector) watches
      attitude, speed controllers and propellers.
    - The land detector (src/src/modules/land_detector) tells the others when the vehicle is on
      the ground, and keeps the flight time.

    ** Which file models which part

    - [Prelude]: machine integers as [Z] with explicit wrap-around, flag words, byte views
      of words, list lemmas, the hint database [px4] and the tactics shared by the files.
    - [Crc]: crc16_*, crc32_signature, crc64_* of crc.c and the table-driven crc32 of bl.c
      with its lazily filled table.
    - [ProgMem]: NuttX's program-memory driver as a class of operations with its documented
      laws, and a simulated flash ([SimFlash]) that satisfies them.
    - [FlashCache]: fc_reset, fc_write, fc_read, fc_flush of flash_cache.c.
    - [BootIface]: what bl.c expects of a board: the class [FlashFuncs], its contract
      [UploadFlash], and the constants [Board].
    - [Bootloader]: bl.c.  A state and error monad; the state [bl] has the ring buffer, the
      millisecond timers, the LED, the bootloader's static variables and the flash; one
      definition per command of the switch, the loop [bl_step] and [bootloader]; the
      interface to the host is a script of polls.
    - [BootSafety]: a Hoare logic for that monad, the write discipline, termination of the
      scans, the ring buffer as a bounded FIFO.
    - [BoardMain]: the flash helpers, chip description, force-pin votes, break detection and
      boot decision of stm32_common/main.c; it discharges [UploadFlash].
    - [BootUpload], [BootWitness]: a whole upload by a host that follows the protocol, and
      the concrete board on which the theorems are instantiated.
    - [ImageToc]: find_toc, verify_app, decrypt_app and the table-of-contents path of
      jump_to_app, over a memory that copying changes.
    - [FlashFs], [FlashFsSpec]: every function of flashfs.c over [ProgMem]; the sectors as
      logs of entries, their invariant and the round trip.
    - [Registers], [RegistersSpec]: the register pages as lists, registers_set,
      registers_set_one, registers_get, pwm_configure_rates, with a trace of effects and a flag
      for an assignment past the end of a page.
    - [BlTimer], [TimerIface]: the timer table and its tick; the class [TimerService] with
      the laws the transport relies on, and the instance that proves them of the timers.
    - [BitFields], [Uavcan], [UavcanSpec]: CAN identifiers and tail bytes as bit fields, the
      transfer table, sending, receiving, and the packed messages of uavcan.c.
    - [AppShared]: boot_app_shared.c.
    - [CanUpdate], [CanUpdateSpec]: flash.c and the update half of canbootloader main.c.
    - [CanBoot], [CanBootSpec]: the first half of that main.c: node status and node info,
      dynamic node id allocation, the wait for an update request and the boot policy; with
      the random numbers of util/random.c.
    - [Queue], [SqIface]: the intrusive queues over a memory of links, and the class [SqQueue]
      with the laws that the timers rely on.
    - [Ppm], [PpmSpec]: the decoder of hrt.c as a state machine on captured edges.
    - [Hrt], [HrtSpec]: the rest of hrt.c: absolute time, the callout queue over [SqQueue],
      the dispatcher, the interrupt, the interface for user space.
    - [WorkQueue]: the two work queues, which differ in their clocks only.
    - [Float32]: single precision as IEEE 754 defines it.  [Linalg], [LinalgReal]: the matrix
      library (src/src/lib/matrix) over a class of scalars, with instances for float, rational
      and real numbers.
    - [Eso], [EsoSpec]: AttitudeESO and PositionESO, and their convergence.
    - [Takeoff]: Hysteresis (src/src/lib/hysteresis) and the takeoff machine.
    - [RateControl], [RateControlSpec], [RateModule]: the rate controller and its module.
    - [ControlMath], [PosControl], [PosControlSpec], [PosModule], [PosModuleSpec], [PosParams],
      [PosParamsSpec]: the position controller, the work item of its module, its parameters.
    - [AttControl], [AttControlSpec], [AttModule]: the attitude controller and its module.
    - [ArmKinematics], [ArmKinematicsSpec]: centre of mass and inertia of the arm.
    - [CascadeSpec]: the three modules in sequence.
    - [O1Heap]: the allocator; [O1HeapBits], [O1HeapBins], [O1HeapLayout]: its sizes, its free
      lists and its chain of fragments; [O1HeapSpec], [O1HeapClient]: its operations and its
      clients.
    - [NavState], [NavStateSpec]: main state, navigation state and failsafe reactions of
      state_machine_helper.cpp on the messages they read and write.
    - [ArmState], [ArmStateSpec]: the arming state machine, preflight and prearm checks, the
      safety button.
    - [Commander]: arming, disarming and the stages of the loop that react to landing, safety,
      kill switch, failure detector, geofence, mission and battery, on a record of the class's
      members.  [CommanderLoop]: commands, requests of the pilot, control mode, and the loop as
      a sequence of events ([step], [runs]; one pass of the code is [cycle]).
      [CommanderSpec]: a table of what an event can touch and the invariant over all runs;
      [CommanderClaims]: the properties of runs.
    - [Uorb], [UorbSpec]: nodes, instances and subscriptions of the message bus, and a topic as a
      list of messages that they refine.
    - [FailureDetector], [FailureDetectorSpec]: the failure detector over that bus, and its way
      to the commander.
    - [ManualControl], [ManualControlSpec]: the selector, the work item with all it publishes,
      and the way of its requests to the commander.
    - [LandDetector], [LandDetectorSpec]: the base class of the land detector over a type class of
      virtual methods ([LandVehicle]), with an instance for each kind of vehicle.
      [LandingSpec]: the detector and the commander together.
    - [RcUpdate], [RcUpdateSpec]: the run of the radio input on one frame of the receiver, and
      the way of a switch to manual control.

    ** What the theorems show

    - Serial boot loader: a host that follows the protocol gets the image stored and the
      protocol's replies ([upload_stores_image]); whatever a host sends, the flash is only
      written inside the application area with the first word held back until the BOOT
      that commits it ([bootloader_write_discipline]); the scans terminate; the ring buffer is a FIFO; the
      boot decision and the break detection meet their specifications; what secure boot
      starts was found in bounds and verified ([jump_to_app_toc_verified]).
    - CAN boot loader: a transfer sent by one node is received by another byte for byte
      among other traffic ([uavcan_tx_rx_roundtrip]), reception stays inside the caller's
      buffer and times out; timers expire on time; an update is safe whatever the server
      answers, but for a division by zero on images below 100 bytes ([can_update_safe]), and
      installs what a server serves ([can_update_installs]);
      the hand-over data round-trips and its corruption is noticed; the node takes only an
      id assigned to its own unique id ([can_alloc_only_own_id]), gets one from a server that
      follows the protocol, and boots an invalid application only if it is given the id zero.
    - Timers: absolute time is exact although the counter has sixteen bits
      ([hrt_time_exact]); the callout queue stays in order under every call
      that does not change a queued entry in place ([hrt_api_keeps_order]), the dispatcher serves all that is due and returns, and the next
      interrupt is set in time; the queues refine lists ([sq_queue_refines]); the decoder
      stays in range and locks onto a pulse train ([ppm_locks]); the worker thread runs what
      is due and sleeps no longer than allowed.
    - Parameter storage: write then read gives the bytes back when the block and its
      padding fit ([flashfs_write_read]); erase empties.
    - IO registers: no access runs past a page and every register keeps its range
      ([registers_invariant]); the termination failsafe latches; a reboot needs the safety.
    - Heap: every execution of a client that follows the protocol is one of an allocator that
      hands out disjoint, aligned memory ([o1heap_refines]); nothing leaks ([o1heap_no_leak]);
      a request is refused only when no fragment is large enough ([o1heap_alloc_complete]).
    - Control: actuator commands are finite and in range for every input
      ([rate_actuators_sane]); limits hold after every cycle; the configuration keeps its
      constraints ([node_config_invariant]); in exact arithmetic the observers converge for
      exactly the bandwidths 0 < w dt < 2 ([att_eso_converges_iff]), the attitude command
      reduces the error, and the inertia can always be inverted.  The kinematics of the arm are
      those of the code, which differ from the simulation model of the same arm.
    - Commander: the arming message agrees with the arming state and a forced disarm always
      works ([commander_can_always_disarm]); arming needs the checks ([arming_needs_checks]); every
      change of mode in flight leads to a mode that can be flown, but for the modes the code
      does not check ([nav_change_supported]); a
      lost link picks the best mode left ([rc_loss_best_mode]); a termination stays
      ([termination_stays]); the control mode is a hierarchy ([control_mode_well_formed]).
    - Message bus: every interleaving of publications and reads is one of a list of messages
      and a position ([uorb_refines]); a reader that keeps up misses nothing
      ([uorb_delivers_all]); an interval limits the rate ([interval_limits_rate]).
    - Failure detector: roll and pitch are flagged exactly after the trigger time
      ([attitude_failure_exact]) and the commander cuts the outputs
      ([attitude_failure_terminates]).
    - Land detector: a landing is reported only after the whole trigger time on the ground
      ([landed_after_trigger_time]) and through its stages ([landed_maybe_landed]); the commander
      disarms a landed vehicle only after its own delay on top ([landing_disarm_delayed]); the stored
      flight time is the one of a log ([flight_time_exact]).
    - From the pilot to the commander: the radio publishes sticks exactly while its signal is good
      ([radio_publishes_exactly]) and reports the kill switch after two frames
      ([radio_kill_requested]); the kill switch disarms the vehicle in time
      unless it is released ([kill_switch_disarms]); a published input is fresh and permitted
      ([published_input_fresh]); its loss is reported ([rc_loss_reported]).
    - Checksums: both CRC-32 routines agree ([bl_crc32_is_crc32_signature]); CRC-32 notices every corruption of up to four
      consecutive bytes, CRC-64 of any one word of the hand-over data.
    - Where the code departs from its comments or its intent, a theorem shows the departure:
      short images on the H7 port, a signature index behind the end of the table, padding
      behind a heap buffer, a bad CRC that hides a sector, rates that reach the timers one
      write late, empty CAN frames, overlong transfers, empty file reads, a follow-up delay
      that overflows its buffer, an assigned node id of zero, a callout that enters its own
      entry, delayed work at the wrap of the 32-bit clock; a failsafe of the position module
      that cuts the thrust, observers that keep a NaN, a stale inertia; a termination lifted by
      the end of another failsafe, a battery warning that blinds the geofence, a rejected
      in-air restore that disables the checks, a failsafe in orbit that lasts one cycle, a kill
      request that another switch overwrites, a kill switch with a negative threshold that is
      never engaged ([inverted_kill_switch_dead]), a subscription that strands and with it the
      check of the propellers ([imbalance_check_goes_blind]), a filter without time, a trigger
      time that runs while nothing is checked.

    ** Bounds and fuel

    Loops of the source that are not structural carry fuel: the scans over the application
    area (one step per word or byte of it, [command_loops_terminate]), the log scans of the
    file system (one step per word of a sector) and the programming loop (every pass but the
    last reads 256 bytes, so size / 256 + 1 passes; [can_update_safe] shows that it is
    enough); the walks over linked queues are bounded by the number of links, the dispatcher
    by the deadlines that have passed ([hrt_invoke_terminates]).  Loops that wait for the
    environment consume its script: polls, events or exchanges.  Unsigned integers are kept at
    their width with [wrap]; flash and pointers are addresses below 2^32; the heap is that of a
    32-bit build.  A float operation of the source is one correctly rounded operation: a target
    that fuses or reorders them (the build passes -freciprocal-math) can differ in the last
    bits, not in the theorems about control flow, NaN and limits.  Theorems on convergence and
    geometry are about exact arithmetic.  One time stands for the calls of the clock within a
    function or stage.

    ** What is a parameter, and what is not modelled

    Parameters: the program-memory driver, the crypto back end of secure boot, NuttX's
    crc32 and malloc for the file system, the PWM driver and the ADC of the IO processor,
    timer callbacks, the hardware answers (mailboxes, frames, polls), the trigonometric
    functions of the C library ([Libm]), and for the commander the results of the single sensor
    checks, the estimates, links and topics its loop reads.  Not modelled: register-level
    drivers and clock set-up, debug output and messages to the user, vendored libraries, and
    the other modules of the flight stack (navigator, estimators, mavlink, logger, ...); of the
    commander the home position, the checks of estimates, links and ESCs, motor tests,
    calibration routines, LEDs and tunes; of the radio input parameters that are set from
    the radio.  Next in line: the rest of the commander, the rest of
    the message bus (callbacks, file descriptors), the serial EEPROM driver and the channel allocation of the PWM
    timers. *)

From stdpp Require Export base numbers list.
From Stdlib Require Export ZArith Lia.

Declare Scope c_scope.
Delimit Scope c_scope with C.

(** ** Machine integers: a [w]-bit unsigned value is a [Z] in [0, 2^w). *)

Local Open Scope Z_scope.

Definition wrap (w z : Z) : Z := z mod 2 ^ w.
Definition fits (w z : Z) : Prop := 0 <= z < 2 ^ w.

Abbreviation u8 := (wrap 8).
Abbreviation u16 := (wrap 16).
Abbreviation u32 := (wrap 32).
Abbreviation u64 := (wrap 64).

Create HintDb px4.

(** C's bitwise tests and updates on flag words. *)
Definition has_all (s m : Z) : bool := Z.land s m =? m.
Definition has_any (s m : Z) : bool := negb (Z.land s m =? 0).
Definition clear_bits (w s m : Z) : Z := Z.land s (wrap w (Z.lnot m)).

Notation "a '|||' b" := (Z.lor a b) (at level 50, left associativity) : c_scope.
Notation "a '&&&' b" := (Z.land a b) (at level 40, left associativity) : c_scope.
Notation "a '^^^' b" := (Z.lxor a b) (at level 45, left associativity) : c_scope.

Section Wrap.
Context (w : Z) (Hw : 0 <= w).

Lemma wrap_fits z : fits w (wrap w z).
Proof. apply Z.mod_pos_bound, Z.pow_pos_nonneg; lia. Qed.

Lemma wrap_small z : fits w z -> wrap w z = z.
Proof. apply Z.mod_small. Qed.

Lemma wrap_wrap z : wrap w (wrap w z) = wrap w z.
Proof. apply wrap_small, wrap_fits. Qed.

Lemma wrap_testbit z i : Z.testbit (wrap w z) i = Z.testbit z i && (i <? w).
Proof.
  unfold wrap. destruct (Z.ltb_spec i w).
  - destruct (Z.neg_nonneg_cases i); [by rewrite !Z.testbit_neg_r by lia|].
    by rewrite Z.mod_pow2_bits_low, andb_true_r by lia.
  - by rewrite Z.mod_pow2_bits_high, andb_false_r by lia.
Qed.

Lemma fits_testbit z : fits w z -> forall i, w <= i -> Z.testbit z i = false.
Proof.
  intros Hz i Hi. rewrite <- (wrap_small z Hz), wrap_testbit.
  replace (i <? w) with false by (symmetry; apply Z.ltb_ge; lia).
  by rewrite andb_false_r.
Qed.

Lemma testbit_fits z : 0 <= z -> (forall i, w <= i -> Z.testbit z i = false) -> fits w z.
Proof.
  intros H0 Hb. replace z with (wrap w z); [apply wrap_fits|].
  apply Z.bits_inj'. intros i Hi. rewrite wrap_testbit.
  destruct (Z.ltb_spec i w); [by rewrite andb_true_r|].
  by rewrite Hb, andb_false_r by lia.
Qed.

Lemma fits_lxor a b : fits w a -> fits w b -> fits w (Z.lxor a b).
Proof.
  intros Ha Hb. apply testbit_fits.
  - apply Z.lxor_nonneg. unfold fits in *; lia.
  - intros i Hi. by rewrite Z.lxor_spec, !fits_testbit.
Qed.

Lemma fits_lor a b : fits w a -> fits w b -> fits w (Z.lor a b).
Proof.
  intros Ha Hb. apply testbit_fits.
  - apply Z.lor_nonneg. unfold fits in *; lia.
  - intros i Hi. by rewrite Z.lor_spec, !fits_testbit.
Qed.

Lemma fits_land_l a b : fits w a -> 0 <= b -> fits w (Z.land a b).
Proof.
  intros Ha Hb. apply testbit_fits.
  - apply Z.land_nonneg. unfold fits in *; lia.
  - intros i Hi. by rewrite Z.land_spec, (fits_testbit a).
Qed.

Lemma fits_shiftr a n : 0 <= n -> fits w a -> fits w (Z.shiftr a n).
Proof.
  intros Hn Ha. apply testbit_fits.
  - apply Z.shiftr_nonneg. unfold fits in *; lia.
  - intros i Hi. rewrite Z.shiftr_spec by lia. apply fits_testbit; [done|lia].
Qed.
End Wrap.

Lemma fits_weaken v w z : 0 <= v <= w -> fits v z -> fits w z.
Proof.
  unfold fits. intros. assert (2 ^ v <= 2 ^ w) by (apply Z.pow_le_mono_r; lia). lia.
Qed.

#[export] Hint Resolve wrap_fits fits_lxor fits_lor fits_land_l fits_shiftr : px4.

(** Decides closed goals [fits w c] and bounds between numerals. *)
Ltac fits_const := unfold fits; vm_compute; split; congruence.

(** A word of 64 bits is its two halves. *)
Lemma u64_halves c : fits 64 c -> Z.lor (Z.shiftl (u32 (Z.shiftr c 32)) 32) (u32 c) = c.
Proof.
  intros Hc. apply Z.bits_inj'. intros i Hi. rewrite Z.lor_spec, Z.shiftl_spec, !wrap_testbit by lia.
  destruct (Z.ltb_spec i 32).
  - rewrite (Z.testbit_neg_r _ (i - 32)) by lia. by rewrite andb_true_r.
  - rewrite Z.shiftr_spec, Z.sub_add, andb_false_r, orb_false_r by lia.
    destruct (Z.ltb_spec (i - 32) 32); [by rewrite andb_true_r|].
    rewrite andb_false_r. symmetry. apply (fits_testbit 64); [lia|done|lia].
Qed.

Lemma has_all_spec s m :
  has_all s m = true <-> forall i, 0 <= i -> Z.testbit m i = true -> Z.testbit s i = true.
Proof.
  unfold has_all. rewrite Z.eqb_eq. split.
  - intros H i _ Hm. rewrite <- H, Z.land_spec in Hm. by apply andb_true_iff in Hm as [? _].
  - intros H. apply Z.bits_inj'. intros i Hi. rewrite Z.land_spec.
    specialize (H i Hi). destruct (Z.testbit m i); [rewrite H by done|]; by rewrite ?andb_false_r.
Qed.

(** ** Little-endian byte views of words *)

Fixpoint le_bytes (n : nat) (z : Z) : list Z :=
  match n with
  | O => []
  | S n => z mod 256 :: le_bytes n (z / 256)
  end.

Fixpoint le_value (bs : list Z) : Z :=
  match bs with
  | [] => 0
  | b :: bs => b + 256 * le_value bs
  end.

Definition is_byte (b : Z) : Prop := fits 8 b.

Lemma le_bytes_length n z : length (le_bytes n z) = n.
Proof. revert z. induction n; intros; simpl; auto. Qed.

Lemma le_bytes_byte n z : Forall is_byte (le_bytes n z).
Proof.
  revert z. induction n; intros; simpl; constructor; auto.
  unfold is_byte, fits. change (2 ^ 8) with 256. apply Z.mod_pos_bound. lia.
Qed.

Lemma le_value_bytes n z : fits (8 * Z.of_nat n) z -> le_value (le_bytes n z) = z.
Proof.
  revert z. induction n as [|n IH]; intros z Hz; simpl.
  - unfold fits in Hz. simpl in Hz. lia.
  - rewrite IH.
    + pose proof (Z.div_mod z 256). lia.
    + unfold fits in *. replace (8 * Z.of_nat (S n)) with (8 + 8 * Z.of_nat n) in Hz by lia.
      rewrite Z.pow_add_r in Hz by lia. change (2 ^ 8) with 256 in Hz.
      split; [apply Z.div_pos; lia|]. apply Z.div_lt_upper_bound; lia.
Qed.

Lemma le_value_fits bs : Forall is_byte bs -> fits (8 * Z.of_nat (length bs)) (le_value bs).
Proof.
  induction 1 as [|b bs Hb _ IH]; [by unfold fits; simpl|].
  unfold is_byte, fits in *. cbn [le_value length].
  replace (8 * Z.of_nat (S (length bs))) with (8 + 8 * Z.of_nat (length bs)) by lia.
  rewrite Z.pow_add_r by lia. change (2 ^ 8) with 256 in *. nia.
Qed.

Lemma le_bytes_value bs : Forall is_byte bs -> le_bytes (length bs) (le_value bs) = bs.
Proof.
  induction 1 as [|b bs Hb _ IH]; [done|].
  unfold is_byte, fits in Hb. change (2 ^ 8) with 256 in Hb. cbn [le_value length le_bytes].
  rewrite (Z.mul_comm 256), Z_mod_plus_full, Z.mod_small by lia.
  rewrite Z.div_add, Z.div_small by lia. rewrite Z.add_0_l, IH. done.
Qed.

(** ** Lists *)

Lemma nth_map_seq {A} (f : nat -> A) n i d : (i < n)%nat -> nth i (map f (seq 0 n)) d = f i.
Proof.
  intros Hi. rewrite (nth_indep _ d (f 0%nat)) by (rewrite length_map, length_seq; lia).
  by rewrite map_nth, seq_nth.
Qed.

Section FoldLeft.
Context {A B : Type} (P : A -> Prop) (Q : B -> Prop).

Lemma fold_left_cons (f : A -> B -> A) b bs a : fold_left f (b :: bs) a = fold_left f bs (f a b).
Proof. done. Qed.

Lemma fold_left_inv (f : A -> B -> A) bs a :
  (forall a b, P a -> Q b -> P (f a b)) -> P a -> Forall Q bs -> P (fold_left f bs a).
Proof. intros Hf Ha Hbs. revert a Ha. induction Hbs; intros; simpl; auto. Qed.

Lemma fold_left_inj (f : A -> B -> A) bs a a' :
  (forall a b, P a -> Q b -> P (f a b)) ->
  (forall a a' b, P a -> P a' -> Q b -> f a b = f a' b -> a = a') ->
  P a -> P a' -> Forall Q bs -> fold_left f bs a = fold_left f bs a' -> a = a'.
Proof.
  intros Hf Hinj Ha Ha' Hbs. revert a a' Ha Ha'.
  induction Hbs as [|b bs Hb _ IH]; intros; simpl in *; eauto.
Qed.

Lemma fold_left_ext_inv (f g : A -> B -> A) bs a :
  (forall a b, P a -> Q b -> P (g a b)) ->
  (forall a b, P a -> Q b -> f a b = g a b) ->
  P a -> Forall Q bs -> fold_left f bs a = fold_left g bs a.
Proof.
  intros Hg Hfg Ha Hbs. revert a Ha.
  induction Hbs as [|b bs Hb _ IH]; intros; simpl; [done|]. rewrite Hfg; auto.
Qed.
End FoldLeft.

(** [zat l i] reads a list at a [Z] index, with C's "zero" for indices the code never uses. *)
Definition zat (l : list Z) (i : Z) : Z := nth (Z.to_nat i) l 0.

Lemma zat_app_l l l' i : 0 <= i < Z.of_nat (length l) -> zat (l ++ l') i = zat l i.
Proof. intros. unfold zat. apply app_nth1. lia. Qed.

Lemma zat_app_r l l' i : Z.of_nat (length l) <= i ->
  zat (l ++ l') i = zat l' (i - Z.of_nat (length l)).
Proof. intros. unfold zat. rewrite app_nth2 by lia. f_equal. lia. Qed.

Lemma zat_map_seq f n i : 0 <= i < Z.of_nat n -> zat (map f (seq 0 n)) i = f (Z.to_nat i).
Proof. intros. apply nth_map_seq. lia. Qed.

Lemma zat_insert (l : list Z) i j v : (i < length l)%nat -> 0 <= j ->
  zat (<[i := v]> l) j = if j =? Z.of_nat i then v else zat l j.
Proof.
  intros Hi Hj. unfold zat. rewrite !nth_lookup, list_lookup_insert.
  destruct (Z.eqb_spec j (Z.of_nat i)) as [->|Hne].
  - rewrite Nat2Z.id, decide_True by lia. done.
  - rewrite decide_False by lia. done.
Qed.

(** A word array as the bytes it occupies in memory. *)
Definition words_bytes (ws : list Z) : list Z := concat (map (le_bytes 4) ws).

Lemma words_bytes_cons w ws : words_bytes (w :: ws) = le_bytes 4 w ++ words_bytes ws.
Proof. done. Qed.

Lemma words_bytes_length ws : length (words_bytes ws) = (4 * length ws)%nat.
Proof.
  induction ws as [|w ws IH]; [done|]. unfold words_bytes in *. cbn [map concat length].
  rewrite length_app, IH, le_bytes_length. lia.
Qed.

Lemma words_bytes_at ws j r : 0 <= j < Z.of_nat (length ws) -> 0 <= r < 4 ->
  zat (words_bytes ws) (4 * j + r) = zat (le_bytes 4 (zat ws j)) r.
Proof.
  revert j. induction ws as [|w ws IH]; intros j Hj Hr; [simpl in Hj; lia|].
  unfold words_bytes in *. cbn [map concat length] in *.
  destruct (decide (j = 0)) as [->|Hne].
  - rewrite zat_app_l by (rewrite le_bytes_length; lia). f_equal; lia.
  - rewrite zat_app_r by (rewrite le_bytes_length; lia).
    rewrite le_bytes_length.
    replace (4 * j + r - Z.of_nat 4) with (4 * (j - 1) + r) by lia.
    rewrite IH by lia. unfold zat at 2 4. replace (Z.to_nat j) with (S (Z.to_nat (j - 1))) by lia.
    done.
Qed.

(** The word at index [i] of an image followed by erased flash. *)
Definition image (ws : list Z) (i : Z) : Z :=
  if i <? Z.of_nat (length ws) then zat ws i else 0xffffffff.

Lemma image_snoc ws w i : 0 <= i ->
  image (ws ++ [w]) i = if i =? Z.of_nat (length ws) then w else image ws i.
Proof.
  intros Hi. unfold image. rewrite length_app. cbn [length].
  destruct (Z.eqb_spec i (Z.of_nat (length ws))) as [->|Hne].
  - rewrite (proj2 (Z.ltb_lt _ _)) by lia. rewrite zat_app_r by lia.
    by rewrite Z.sub_diag.
  - destruct (Z.ltb_spec i (Z.of_nat (length ws))).
    + rewrite (proj2 (Z.ltb_lt _ _)) by lia. by rewrite zat_app_l by lia.
    + by rewrite (proj2 (Z.ltb_ge _ _)) by lia.
Qed.

Lemma image_fits ws i : Forall (fits 32) ws -> 0 <= i -> fits 32 (image ws i).
Proof.
  intros Hws Hi. unfold image. destruct (Z.ltb_spec i (Z.of_nat (length ws))); [|fits_const].
  rewrite Forall_forall in Hws. apply Hws, list_elem_of_In, nth_In. lia.
Qed.

Lemma image_cons w0 ws i : ws <> [] -> 0 <= i ->
  image (w0 :: tl ws) i = if i =? 0 then w0 else image ws i.
Proof.
  intros Hne Hi. destruct ws as [|x ws]; [done|]. unfold image. cbn [tl length].
  destruct (Z.eqb_spec i 0) as [->|Hi0]; [done|].
  destruct (Z.ltb_spec i (Z.of_nat (S (length ws)))); [|done].
  unfold zat. replace (Z.to_nat i) with (S (Z.to_nat (i - 1))) by lia. done.
Qed.

Lemma zat_ext (l l' : list Z) : length l = length l' ->
  (forall i, 0 <= i < Z.of_nat (length l) -> zat l i = zat l' i) -> l = l'.
Proof.
  intros Hl Hz. apply (nth_ext l l' 0 0); [done|]. intros n Hn.
  specialize (Hz (Z.of_nat n) ltac:(lia)). unfold zat in Hz. by rewrite Nat2Z.id in Hz.
Qed.

(** Reading a word back out of a byte buffer. *)
Lemma words_bytes_word ws rest j : (j < length ws)%nat ->
  take 4 (drop (4 * j) (words_bytes ws ++ rest)) = le_bytes 4 (zat ws (Z.of_nat j)).
Proof.
  revert j. induction ws as [|w ws IH]; intros j Hj; [simpl in Hj; lia|].
  change (words_bytes (w :: ws)) with (le_bytes 4 w ++ words_bytes ws). rewrite <- app_assoc.
  destruct j as [|j].
  - change (4 * 0)%nat with 0%nat. rewrite drop_0.
    by rewrite take_app_length' by (by rewrite le_bytes_length).
  - replace (4 * S j)%nat with (4 + 4 * j)%nat by lia.
    rewrite <- drop_drop, drop_app_length' by (by rewrite le_bytes_length).
    rewrite IH by (cbn in Hj; lia). unfold zat. by rewrite !Nat2Z.id.
Qed.
