(* ===== verification/Crc.v ===== *)
(** * Cyclic redundancy checks

    The bitwise CRCs of src/src/lib/systemlib/crc.c and the table-driven CRC-32
    of the bootloader (src/platforms/nuttx/src/bootloader/common/bl.c). *)

From S2P Require Import Prelude.

Local Open Scope Z_scope.

Module Crc.

(** ** crc.c *)

Definition crc16_poly : Z := 0x1021.

(** One round of the loop of [crc16_add]. *)
Definition crc16_round (crc : Z) : Z :=
  if has_any crc (Z.shiftl 1 15)
  then u16 (Z.lxor (Z.shiftl crc 1) crc16_poly)
  else u16 (Z.shiftl crc 1).

Definition crc16_add (crc value : Z) : Z :=
  Nat.iter 8 crc16_round (Z.lxor crc (u16 (Z.shiftl value 8))).

Definition CRC16_OUTPUT_XOR : Z := 0.

Definition crc16_signature (initial : Z) (bytes : list Z) : Z :=
  Z.lxor (fold_left crc16_add bytes initial) CRC16_OUTPUT_XOR.

Definition crc32_poly : Z := 0xedb88320.

(** One round of the inner loop of [crc32_signature]:
    [xor = -(acc & 1); acc >>= 1; acc ^= poly & xor]. *)
Definition crc32_round (acc : Z) : Z :=
  let xor := u32 (- Z.land acc 1) in
  Z.lxor (Z.shiftr acc 1) (Z.land crc32_poly xor).

Definition crc32_add (acc b : Z) : Z := Nat.iter 8 crc32_round (Z.lxor acc b).

Definition crc32_signature (acc : Z) (bytes : list Z) : Z := fold_left crc32_add bytes acc.

Definition crc64_poly : Z := 0x42F0E1EBA9EA3693.

Definition crc64_round (crc : Z) : Z :=
  if has_any crc (Z.shiftl 1 63)
  then Z.lxor (u64 (Z.shiftl crc 1)) crc64_poly
  else u64 (Z.shiftl crc 1).

Definition crc64_add_byte (crc byte : Z) : Z :=
  Nat.iter 8 crc64_round (Z.lxor crc (u64 (Z.shiftl byte 56))).

Definition crc64_add_word (crc value : Z) : Z :=
  fold_left crc64_add_byte (le_bytes 4 value) crc.

(** ** bl.c: the bootloader's table-driven CRC-32 *)

(** The rounds that compute one table entry: [if (c & 1) c = poly ^ (c >> 1) else c >>= 1]. *)
Definition crctab_round (c : Z) : Z :=
  if has_any c 1 then Z.lxor crc32_poly (Z.shiftr c 1) else Z.shiftr c 1.

Definition crctab_entry (i : nat) : Z := Nat.iter 8 crctab_round (Z.of_nat i).

Definition crctab_gen : list Z := map crctab_entry (seq 0 256).

Definition crctab_zero : list Z := replicate 256 0.

Definition tab_at (tab : list Z) (i : Z) : Z := nth (Z.to_nat i) tab 0.

Definition tab_add (tab : list Z) (state b : Z) : Z :=
  Z.lxor (tab_at tab (Z.land (Z.lxor state b) 0xff)) (Z.shiftr state 8).

(** [crc32] keeps the table in a static array it fills on the first call. *)
Definition crc32 (tab : list Z) (src : list Z) (state : Z) : Z * list Z :=
  let tab := if tab_at tab 1 =? 0 then crctab_gen else tab in
  (fold_left (tab_add tab) src state, tab).


Arguments crc32_add : simpl never.
Arguments crc64_add_byte : simpl never.
Arguments crc16_add : simpl never.
Arguments tab_add : simpl never.

(** ** CRC-16 stays within sixteen bits *)

Lemma crc16_round_fits crc : fits 16 (crc16_round crc).
Proof. unfold crc16_round. destruct (has_any _ _); apply wrap_fits; lia. Qed.

Lemma crc16_add_fits crc b : fits 16 (crc16_add crc b).
Proof. apply crc16_round_fits. Qed.

Lemma crc16_signature_fits initial bs : fits 16 initial -> fits 16 (crc16_signature initial bs).
Proof.
  intros Hi. unfold crc16_signature, CRC16_OUTPUT_XOR. rewrite Z.lxor_0_r.
  revert initial Hi. induction bs as [|b bs IH]; intros; [done|]. cbn [fold_left].
  apply IH, crc16_add_fits.
Qed.

(** ** The round as a shift register: linearity, range, injectivity *)

Lemma land_1_odd x : Z.land x 1 = Z.b2z (Z.odd x).
Proof. change 1 with (Z.ones 1). rewrite Z.land_ones by lia. apply Zmod_odd. Qed.

Lemma crc32_round_alt x :
  crc32_round x = Z.lxor (Z.shiftr x 1) (if Z.odd x then crc32_poly else 0).
Proof.
  unfold crc32_round. rewrite land_1_odd. by destruct (Z.odd x).
Qed.

(** Both spellings of the round agree: the mask of [crc32_signature] and the
    branch of the table generator. *)
Lemma crctab_round_eq x : crctab_round x = crc32_round x.
Proof.
  rewrite crc32_round_alt. unfold crctab_round, has_any. rewrite land_1_odd.
  destruct (Z.odd x); simpl; [apply Z.lxor_comm|by rewrite Z.lxor_0_r].
Qed.

Lemma odd_lxor a b : Z.odd (Z.lxor a b) = xorb (Z.odd a) (Z.odd b).
Proof. by rewrite <- !Z.bit0_odd, Z.lxor_spec. Qed.

Lemma odd_shiftl_pos h n : 0 < n -> Z.odd (Z.shiftl h n) = false.
Proof. intros. rewrite <- Z.bit0_odd, Z.shiftl_spec by lia. apply Z.testbit_neg_r. lia. Qed.

Lemma crc32_round_shift l h n : 0 <= n ->
  crc32_round (Z.lxor l (Z.shiftl h (n + 1))) = Z.lxor (crc32_round l) (Z.shiftl h n).
Proof.
  intros Hn. rewrite !crc32_round_alt, odd_lxor, odd_shiftl_pos, xorb_false_r by lia.
  rewrite Z.shiftr_lxor, (Z.shiftr_shiftl_l h (n + 1) 1) by lia.
  replace (n + 1 - 1) with n by lia.
  rewrite !Z.lxor_assoc. f_equal. apply Z.lxor_comm.
Qed.

Lemma crc32_rounds_shift k l h n :
  Nat.iter k crc32_round (Z.lxor l (Z.shiftl h (Z.of_nat (k + n))))
  = Z.lxor (Nat.iter k crc32_round l) (Z.shiftl h (Z.of_nat n)).
Proof.
  revert n. induction k as [|k IH]; intros n; [done|].
  change (Nat.iter (S k) crc32_round ?x) with (crc32_round (Nat.iter k crc32_round x)).
  replace (S k + n)%nat with (k + S n)%nat by lia. rewrite IH.
  replace (Z.of_nat (S n)) with (Z.of_nat n + 1) by lia. apply crc32_round_shift. lia.
Qed.

Lemma crc32_round_fits x : fits 32 x -> fits 32 (crc32_round x).
Proof.
  intros. rewrite crc32_round_alt. apply fits_lxor; [lia|apply fits_shiftr; [lia|lia|done]|].
  destruct (Z.odd x); fits_const.
Qed.

Lemma crc32_rounds_fits k x : fits 32 x -> fits 32 (Nat.iter k crc32_round x).
Proof. intros. induction k; simpl; auto using crc32_round_fits. Qed.

Lemma crc32_add_fits acc b : fits 32 acc -> is_byte b -> fits 32 (crc32_add acc b).
Proof.
  intros. apply crc32_rounds_fits, fits_lxor; [lia|done|].
  apply (fits_weaken 8); [lia|done].
Qed.

Lemma crc32_signature_fits bs acc :
  fits 32 acc -> Forall is_byte bs -> fits 32 (crc32_signature acc bs).
Proof. apply fold_left_inv, crc32_add_fits. Qed.

(** The polynomial has its top bit set, so a round can be undone: bit 31 of the
    result tells whether the bit shifted out was set. *)
Lemma crc32_round_inj x y :
  fits 32 x -> fits 32 y -> crc32_round x = crc32_round y -> x = y.
Proof.
  intros Hx Hy. rewrite !crc32_round_alt. intros E.
  assert (Hodd : Z.odd x = Z.odd y).
  { assert (Hb : forall z, fits 32 z -> Z.testbit (Z.lxor (Z.shiftr z 1)
        (if Z.odd z then crc32_poly else 0)) 31 = Z.odd z).
    { intros z Hz. rewrite Z.lxor_spec, Z.shiftr_spec by lia.
      rewrite (fits_testbit 32) by (done || lia). by destruct (Z.odd z). }
    by rewrite <- (Hb x), <- (Hb y), E. }
  rewrite Hodd in E.
  assert (Es : Z.shiftr x 1 = Z.shiftr y 1).
  { apply (f_equal (fun t => Z.lxor t (if Z.odd y then crc32_poly else 0))) in E.
    by rewrite !Z.lxor_assoc, Z.lxor_nilpotent, !Z.lxor_0_r in E. }
  rewrite !Z.shiftr_div_pow2 in Es by lia. change (2 ^ 1) with 2 in Es.
  pose proof (Zmod_odd x). pose proof (Zmod_odd y). rewrite Hodd in *.
  rewrite (Z.div_mod x 2), (Z.div_mod y 2) by lia. lia.
Qed.

Lemma crc32_rounds_inj k x y : fits 32 x -> fits 32 y ->
  Nat.iter k crc32_round x = Nat.iter k crc32_round y -> x = y.
Proof.
  intros Hx Hy. induction k as [|k IH]; [done|].
  intros E. apply IH, crc32_round_inj; auto using crc32_rounds_fits.
Qed.

Lemma lxor_cancel_r a b c : Z.lxor a c = Z.lxor b c -> a = b.
Proof.
  intros E. apply (f_equal (fun t => Z.lxor t c)) in E.
  by rewrite !Z.lxor_assoc, Z.lxor_nilpotent, !Z.lxor_0_r in E.
Qed.

Lemma lxor_cancel_l a b c : Z.lxor c a = Z.lxor c b -> a = b.
Proof. rewrite !(Z.lxor_comm c). apply lxor_cancel_r. Qed.

Lemma crc32_add_inj x y b : fits 32 x -> fits 32 y -> is_byte b ->
  crc32_add x b = crc32_add y b -> x = y.
Proof.
  intros Hx Hy Hb. assert (fits 32 b) by (apply (fits_weaken 8); [lia|done]).
  unfold crc32_add. generalize 8%nat. intros k E%crc32_rounds_inj;
    [by eapply lxor_cancel_r| |]; apply fits_lxor; auto; lia.
Qed.

(** Feeding bytes is injective in the accumulator. *)
Lemma crc32_signature_inj bs x y : fits 32 x -> fits 32 y -> Forall is_byte bs ->
  crc32_signature x bs = crc32_signature y bs -> x = y.
Proof.
  intros. eapply (fold_left_inj (fits 32) is_byte crc32_add bs);
    eauto using crc32_add_fits, crc32_add_inj.
Qed.

Lemma crc32_signature_cons acc b bs :
  crc32_signature acc (b :: bs) = crc32_signature (crc32_add acc b) bs.
Proof. apply fold_left_cons. Qed.

Lemma crc32_signature_app acc xs ys :
  crc32_signature acc (xs ++ ys) = crc32_signature (crc32_signature acc xs) ys.
Proof. apply fold_left_app. Qed.

(** Feeding at most four bytes is one xor with their little-endian value
    followed by eight rounds per byte. *)
Lemma shiftl_add_lxor b v : is_byte b -> b + 256 * v = Z.lxor b (Z.shiftl v 8).
Proof.
  intros Hb. replace (256 * v) with (Z.shiftl v 8) by (rewrite Z.shiftl_mul_pow2; lia).
  apply Z.add_nocarry_lxor. apply Z.bits_inj'. intros i Hi.
  rewrite Z.land_spec, Z.bits_0. destruct (Z.ltb_spec i 8).
  - rewrite Z.shiftl_spec, (Z.testbit_neg_r v) by lia. by rewrite andb_false_r.
  - by rewrite (fits_testbit 8 ltac:(lia) b Hb).
Qed.

Lemma crc32_signature_word acc bs : Forall is_byte bs ->
  crc32_signature acc bs
  = Nat.iter (8 * length bs) crc32_round (Z.lxor acc (le_value bs)).
Proof.
  intros Hbs. revert acc.
  induction Hbs as [|b bs Hb _ IH]; intros acc; [by rewrite Z.lxor_0_r|].
  rewrite crc32_signature_cons, IH. cbn [length le_value]. rewrite shiftl_add_lxor by done.
  replace (8 * S (length bs))%nat with (8 * length bs + 8)%nat by lia.
  rewrite Nat.iter_add. f_equal. rewrite <- Z.lxor_assoc.
  pose proof (crc32_rounds_shift 8 (Z.lxor acc b) (le_value bs) 0) as E.
  change (Z.of_nat 0) with 0 in E. rewrite Z.shiftl_0_r in E. symmetry. apply E.
Qed.

Lemma tab_at_gen i : 0 <= i < 256 -> tab_at crctab_gen i = Nat.iter 8 crc32_round i.
Proof.
  intros Hi. unfold tab_at, crctab_gen. rewrite nth_map_seq by lia.
  unfold crctab_entry. rewrite Z2Nat.id by lia.
  generalize 8%nat as k. intros k. induction k as [|k IH]; [done|].
  change (Nat.iter (S k) ?g i) with (g (Nat.iter k g i)). by rewrite IH, crctab_round_eq.
Qed.

(** The table lookup performs eight rounds at once. *)
Lemma tab_add_eq tab acc b :
  tab = crctab_gen -> fits 32 acc -> is_byte b -> tab_add tab acc b = crc32_add acc b.
Proof.
  intros -> Ha Hb. unfold tab_add, crc32_add.
  set (x := Z.lxor acc b).
  assert (Hlow : 0 <= Z.land x 255 < 256).
  { change 255 with (Z.ones 8). rewrite Z.land_ones by lia. apply Z.mod_pos_bound. lia. }
  assert (Hx : x = Z.lxor (Z.land x 255) (Z.shiftl (Z.shiftr x 8) (Z.of_nat (8 + 0)))).
  { apply Z.bits_inj'. intros i Hi. change 255 with (Z.ones 8).
    rewrite Z.lxor_spec, Z.land_spec, Z.shiftl_spec by lia. change (Z.of_nat (8 + 0)) with 8.
    destruct (Z.ltb_spec i 8).
    - rewrite Z.ones_spec_low, (Z.testbit_neg_r _ (i - 8)) by lia.
      by rewrite andb_true_r, xorb_false_r.
    - rewrite Z.ones_spec_high, Z.shiftr_spec, andb_false_r by lia.
      replace (i - 8 + 8) with i by lia. by destruct (Z.testbit x i). }
  assert (Hsh : Z.shiftr acc 8 = Z.shiftr x 8).
  { unfold x. rewrite Z.shiftr_lxor, (Z.shiftr_div_pow2 b 8) by lia.
    unfold is_byte, fits in Hb. rewrite (Z.div_small b) by lia. by rewrite Z.lxor_0_r. }
  rewrite Hx at 2. rewrite crc32_rounds_shift, Z.shiftl_0_r, Hsh. f_equal.
  apply tab_at_gen, Hlow.
Qed.

(** The states the static table can be in: not generated yet, or generated. *)
Definition tab_ok (tab : list Z) : Prop := tab = crctab_zero \/ tab = crctab_gen.

Lemma crc32_table tab src state :
  tab_ok tab -> fits 32 state -> Forall is_byte src ->
  crc32 tab src state = (crc32_signature state src, crctab_gen).
Proof.
  intros Htab Hst Hsrc. unfold crc32.
  assert (E : (if tab_at tab 1 =? 0 then crctab_gen else tab) = crctab_gen)
    by (destruct Htab as [->| ->]; vm_compute; done).
  rewrite E. f_equal. clear E Htab.
  apply (fold_left_ext_inv (fits 32) is_byte); auto using crc32_add_fits, tab_add_eq.
Qed.

(** C36 (equivalence). For any bytes and any 32-bit start value the table-driven [crc32] of
    the bootloader (bl.c), whether its static table is still zero or already generated,
    returns exactly the bitwise [crc32_signature] of crc.c, a 32-bit number, and leaves the
    table generated. *)
Theorem bl_crc32_is_crc32_signature tab src state :
  tab_ok tab -> fits 32 state -> Forall is_byte src ->
  crc32 tab src state = (crc32_signature state src, crctab_gen) /\
  fits 32 (fst (crc32 tab src state)).
Proof.
  intros. rewrite crc32_table by done. split; [done|]. by apply crc32_signature_fits.
Qed.

Lemma bl_crc32_is_crc32_signature_witness :
  fst (crc32 crctab_zero [0x31; 0x32; 0x33] 0xffffffff) =
  crc32_signature 0xffffffff [0x31; 0x32; 0x33].
Proof.
  rewrite (proj1 (bl_crc32_is_crc32_signature crctab_zero [0x31; 0x32; 0x33] 0xffffffff
    ltac:(left; reflexivity) ltac:(fits_const) ltac:(repeat (constructor; [fits_const|]); constructor))).
  reflexivity.
Defined.

(** Error detection: two messages that differ only inside a window
    of at most four consecutive bytes never have the same CRC-32, so a corrupted
    word of an uploaded image or of a stored record is always noticed. *)
Theorem crc32_detects_word_corruption acc pre bad good post :
  fits 32 acc -> Forall is_byte pre -> Forall is_byte post ->
  Forall is_byte bad -> Forall is_byte good ->
  (length good <= 4)%nat -> length bad = length good -> bad <> good ->
  crc32_signature acc (pre ++ bad ++ post) <> crc32_signature acc (pre ++ good ++ post).
Proof.
  intros Ha Hpre Hpost Hbad Hgood Hlen Hll Hne E. apply Hne.
  rewrite !crc32_signature_app in E.
  apply crc32_signature_inj in E; auto using crc32_signature_fits.
  set (x := crc32_signature acc pre) in *.
  assert (Hx : fits 32 x) by (by apply crc32_signature_fits).
  assert (Hv : forall l, Forall is_byte l -> length l = length good -> fits 32 (le_value l)).
  { intros l Hl El. apply (fits_weaken (8 * Z.of_nat (length l))); [lia|by apply le_value_fits]. }
  rewrite !crc32_signature_word, Hll in E by done.
  apply crc32_rounds_inj in E; [|apply fits_lxor; auto; lia..].
  apply lxor_cancel_l in E.
  rewrite <- (le_bytes_value bad), <- (le_bytes_value good), Hll by done. by rewrite E.
Qed.

Lemma crc32_detects_word_corruption_witness :
  crc32_signature 0 [1; 2; 3; 4; 5; 6] <> crc32_signature 0 [1; 2; 3; 4; 7; 6].
Proof.
  apply (crc32_detects_word_corruption 0 [1; 2; 3; 4] [5] [7] [6]);
    first [fits_const | discriminate | reflexivity | simpl; lia
          | repeat (constructor; [fits_const|]); constructor].
Defined.

End Crc.
