(* ===== verification/ProgMem.v ===== *)
(** * Program memory

    The interface of NuttX's program-memory driver (nuttx/progmem.h), which the
    bootloader and the parameter flash file system write through.  The driver is
    not part of the repository: it is the class [ProgMem], and what its header
    documents is the class [ProgMemLaws].  Flash is memory mapped, so the state of
    the driver gives the byte at every address. *)

From S2P Require Import Prelude.

Local Open Scope Z_scope.

Class ProgMem (M : Type) := {
  pm_byte : M -> Z -> Z;                     (* the mapped byte at an address *)
  up_progmem_write : Z -> list Z -> M -> Z * M;
  up_progmem_eraseblock : Z -> M -> Z * M;
  up_progmem_ispageerased : Z -> M -> Z;
  up_progmem_getaddress : Z -> Z;            (* first address of a block *)
  up_progmem_pagesize : Z -> Z;              (* bytes of a block *)
  up_progmem_getpage : Z -> Z;               (* block of an address, or negative *)
}.

(** [*(uint32_t * )a] and [*(uint16_t * )a] on a little-endian target. *)
Definition pm_half {M} `{ProgMem M} (m : M) (a : Z) : Z :=
  le_value [pm_byte m a; pm_byte m (a + 1)].

Definition pm_word {M} `{ProgMem M} (m : M) (a : Z) : Z :=
  le_value [pm_byte m a; pm_byte m (a + 1); pm_byte m (a + 2); pm_byte m (a + 3)].

Definition in_range (a len x : Z) : bool := (a <=? x) && (x <? a + len).

Definition erased {M} `{ProgMem M} (m : M) (a len : Z) : Prop :=
  forall x, a <= x < a + len -> pm_byte m x = 0xff.

Lemma in_rangeP a len x : in_range a len x = true <-> a <= x < a + len.
Proof. unfold in_range. rewrite andb_true_iff, Z.leb_le, Z.ltb_lt. done. Qed.

(** Flash occupies [pm_base, pm_base + pm_size). *)
Class ProgMemLaws (M : Type) `{ProgMem M} := {
  pm_base : Z;
  pm_size : Z;
  pm_byte_range : forall m a, is_byte (pm_byte m a);
  (** Programming an erased range of the flash succeeds and changes nothing else. *)
  pm_write_erased : forall m a bs,
    pm_base <= a -> a + Z.of_nat (length bs) <= pm_base + pm_size ->
    Forall is_byte bs -> erased m a (Z.of_nat (length bs)) ->
    exists m', up_progmem_write a bs m = (Z.of_nat (length bs), m') /\
      forall x, pm_byte m' x =
        if in_range a (Z.of_nat (length bs)) x then zat bs (x - a) else pm_byte m x;
  (** Bits can always be programmed to zero. *)
  pm_write_zero : forall m a bs,
    pm_base <= a -> a + Z.of_nat (length bs) <= pm_base + pm_size ->
    Forall (eq 0) bs ->
    exists m', up_progmem_write a bs m = (Z.of_nat (length bs), m') /\
      forall x, pm_byte m' x = if in_range a (Z.of_nat (length bs)) x then 0 else pm_byte m x;
  (** Erasing a block of the flash sets all its bytes and changes nothing else. *)
  pm_erase_ok : forall m b,
    pm_base <= up_progmem_getaddress b ->
    up_progmem_getaddress b + up_progmem_pagesize b <= pm_base + pm_size ->
    exists m', up_progmem_eraseblock b m = (up_progmem_pagesize b, m') /\
      forall x, pm_byte m' x =
        if in_range (up_progmem_getaddress b) (up_progmem_pagesize b) x
        then 0xff else pm_byte m x;
  (** The blank check counts the bytes that are not erased. *)
  pm_ispageerased_ok : forall m b,
    up_progmem_ispageerased b m = 0 ->
    erased m (up_progmem_getaddress b) (up_progmem_pagesize b);
}.

Section Words.
Context {M : Type} {PM : ProgMem M} {PL : ProgMemLaws M}.

Lemma pm_word_fits m a : fits 32 (pm_word m a).
Proof. apply (le_value_fits [_; _; _; _]). repeat constructor; apply pm_byte_range. Qed.

Lemma erased_word m a len x :
  erased m a len -> a <= x -> x + 4 <= a + len -> pm_word m x = 0xffffffff.
Proof. intros He ? ?. unfold pm_word. by rewrite !He by lia. Qed.

Lemma word_erased m x : pm_word m x = 0xffffffff -> erased m x 4.
Proof.
  intros Hw. unfold pm_word in Hw. cbn [le_value] in Hw.
  pose proof (pm_byte_range m x). pose proof (pm_byte_range m (x + 1)).
  pose proof (pm_byte_range m (x + 2)). pose proof (pm_byte_range m (x + 3)).
  unfold is_byte, fits in *. change (2 ^ 8) with 256 in *. intros y Hy.
  assert (y = x \/ y = x + 1 \/ y = x + 2 \/ y = x + 3) as [->|[->|[->| ->]]] by lia; lia.
Qed.

(** Programming words into an erased range, seen word-wise. *)
Lemma pm_write_words m a ws :
  pm_base <= a -> a + 4 * Z.of_nat (length ws) <= pm_base + pm_size ->
  Forall (fits 32) ws -> erased m a (4 * Z.of_nat (length ws)) ->
  exists m', up_progmem_write a (words_bytes ws) m = (4 * Z.of_nat (length ws), m') /\
    (forall j, 0 <= j < Z.of_nat (length ws) -> pm_word m' (a + 4 * j) = zat ws j) /\
    (forall x, x + 4 <= a \/ a + 4 * Z.of_nat (length ws) <= x -> pm_word m' x = pm_word m x).
Proof.
  intros Hlo Hhi Hws He.
  assert (Hlen : Z.of_nat (length (words_bytes ws)) = 4 * Z.of_nat (length ws))
    by (rewrite words_bytes_length; lia).
  destruct (pm_write_erased m a (words_bytes ws)) as (m' & Hw & Hb); rewrite ?Hlen; try done.
  { unfold words_bytes. apply Forall_concat, Forall_map, Forall_true. intros. apply le_bytes_byte. }
  rewrite Hlen in *. exists m'. split; [done|]. split.
  - intros j Hj. unfold pm_word.
    assert (Hr : forall r, 0 <= r < 4 ->
      pm_byte m' (a + 4 * j + r) = zat (le_bytes 4 (zat ws j)) r).
    { intros r Hr. rewrite Hb. unfold in_range.
      rewrite (proj2 (Z.leb_le _ _)), (proj2 (Z.ltb_lt _ _)) by lia. cbn [andb].
      rewrite <- words_bytes_at by lia. f_equal. lia. }
    rewrite <- (Z.add_0_r (a + 4 * j)) at 1. rewrite !Hr by lia.
    change [zat ?l 0; zat ?l 1; zat ?l 2; zat ?l 3] with l.
    apply (le_value_bytes 4). rewrite Forall_forall in Hws. apply Hws.
    unfold zat. apply list_elem_of_In, nth_In. lia.
  - intros x Hx. unfold pm_word. rewrite !Hb. unfold in_range.
    rewrite !(proj2 (andb_false_iff _ _)); [done|..];
      (destruct Hx; [left; apply Z.leb_gt|right; apply Z.ltb_ge]; lia).
Qed.
End Words.

(** ** A concrete driver, for witnesses: an array of bytes in equal blocks. *)
Module SimFlash.
Record geometry := { g_base : Z; g_blocks : nat; g_block : nat }.

Definition mem (g : geometry) : Type := list Z.

Section Sim.
Context (g : geometry).

Definition sim_size : Z := Z.of_nat (g_blocks g * g_block g).
Definition sim_addr (b : Z) : Z := g_base g + b * Z.of_nat (g_block g).

Definition sim_byte (m : mem g) (a : Z) : Z :=
  if in_range (g_base g) sim_size a then u8 (zat m (a - g_base g)) else 0xff.

Definition sim_make (f : Z -> Z) : mem g :=
  map (fun i => f (g_base g + Z.of_nat i)) (seq 0 (g_blocks g * g_block g)).

Definition sim_ok (a len : Z) : bool :=
  (g_base g <=? a) && (a + len <=? g_base g + sim_size).

(** Programming clears bits: the stored byte is the conjunction. *)
Definition sim_write (a : Z) (bs : list Z) (m : mem g) : Z * mem g :=
  let len := Z.of_nat (length bs) in
  if sim_ok a len
  then (len, sim_make (fun x =>
               if in_range a len x then u8 (Z.land (sim_byte m x) (zat bs (x - a)))
               else sim_byte m x))
  else (-14, m).

Definition sim_erase (b : Z) (m : mem g) : Z * mem g :=
  if sim_ok (sim_addr b) (Z.of_nat (g_block g))
  then (Z.of_nat (g_block g), sim_make (fun x =>
          if in_range (sim_addr b) (Z.of_nat (g_block g)) x then 0xff else sim_byte m x))
  else (-14, m).

Definition sim_dirty (b : Z) (m : mem g) : Z :=
  Z.of_nat (length (List.filter (fun i => negb (sim_byte m (sim_addr b + Z.of_nat i) =? 0xff))
                      (seq 0 (g_block g)))).

#[export] Instance sim_progmem : ProgMem (mem g) := {|
  pm_byte := sim_byte;
  up_progmem_write := sim_write;
  up_progmem_eraseblock := sim_erase;
  up_progmem_ispageerased := sim_dirty;
  up_progmem_getaddress := sim_addr;
  up_progmem_pagesize := fun _ => Z.of_nat (g_block g);
  up_progmem_getpage := fun a =>
    if in_range (g_base g) sim_size a then (a - g_base g) / Z.of_nat (g_block g) else -14;
|}.

Lemma sim_byte_range m a : is_byte (sim_byte m a).
Proof. unfold sim_byte. destruct (in_range _ _ _); [apply wrap_fits; lia|fits_const]. Qed.

Lemma sim_byte_make f a :
  (forall x, is_byte (f x)) -> (in_range (g_base g) sim_size a = false -> f a = 0xff) ->
  sim_byte (sim_make f) a = f a.
Proof.
  intros Hf Hout. unfold sim_byte. destruct (in_range _ _ a) eqn:Ha; [|by rewrite Hout].
  apply in_rangeP in Ha. unfold sim_size in Ha. unfold sim_make.
  rewrite zat_map_seq by lia. rewrite wrap_small; [f_equal; lia|apply Hf].
Qed.

(** The byte map after programming: inside the flash, bits are cleared. *)
Lemma sim_write_byte m a bs m' len :
  sim_write a bs m = (len, m') -> sim_ok a (Z.of_nat (length bs)) = true ->
  len = Z.of_nat (length bs) /\
  forall x, sim_byte m' x = if in_range a len x
    then u8 (Z.land (sim_byte m x) (zat bs (x - a))) else sim_byte m x.
Proof.
  unfold sim_write. intros Hw Hok. rewrite Hok in Hw. injection Hw as <- <-. split; [done|].
  intros x. rewrite sim_byte_make; [done|..].
  - intros y. destruct (in_range _ _ y); [apply wrap_fits; lia|apply sim_byte_range].
  - intros Hx. unfold sim_ok in Hok.
    apply andb_true_iff in Hok as [H1%Z.leb_le H2%Z.leb_le].
    rewrite (proj1 (not_true_iff_false (in_range a _ x))).
    + unfold sim_byte. by rewrite Hx.
    + rewrite in_rangeP. intros ?. rewrite (proj2 (in_rangeP _ _ _)) in Hx by lia. done.
Qed.

Lemma sim_ok_intro a len :
  g_base g <= a -> a + len <= g_base g + sim_size -> sim_ok a len = true.
Proof. intros. unfold sim_ok. by rewrite (proj2 (Z.leb_le _ _)), (proj2 (Z.leb_le _ _)). Qed.

Lemma sim_filter_nil (f : nat -> bool) l :
  length (List.filter f l) = 0%nat -> forall i, In i l -> f i = false.
Proof.
  intros Hl i Hi. destruct (f i) eqn:E; [|done]. exfalso.
  assert (In i (List.filter f l)) as HI by (by apply filter_In).
  by destruct (List.filter f l).
Qed.

#[export, refine] Instance sim_laws : ProgMemLaws (mem g) := {|
  pm_base := g_base g; pm_size := sim_size |}.
Proof.
  - apply sim_byte_range.
  - intros m a bs Hlo Hhi Hbs He. cbn [up_progmem_write sim_progmem].
    destruct (sim_write a bs m) as [len m'] eqn:Hw.
    apply sim_write_byte in Hw as [-> Hx]; [|by apply sim_ok_intro].
    exists m'. split; [done|]. intros x. cbn [pm_byte sim_progmem]. rewrite Hx.
    destruct (in_range _ _ x) eqn:Hr; [|done]. apply in_rangeP in Hr.
    rewrite (He x Hr : sim_byte m x = 0xff).
    assert (Hb : is_byte (zat bs (x - a))).
    { rewrite Forall_forall in Hbs. apply Hbs. apply list_elem_of_In, nth_In. lia. }
    rewrite Z.land_comm. change 255 with (Z.ones 8).
    rewrite Z.land_ones by lia. fold (wrap 8 (zat bs (x - a))).
    by rewrite wrap_wrap, wrap_small.
  - intros m a bs Hlo Hhi Hbs. cbn [up_progmem_write sim_progmem].
    destruct (sim_write a bs m) as [len m'] eqn:Hw.
    apply sim_write_byte in Hw as [-> Hx]; [|by apply sim_ok_intro].
    exists m'. split; [done|]. intros x. cbn [pm_byte sim_progmem]. rewrite Hx.
    destruct (in_range _ _ x) eqn:Hr; [|done]. apply in_rangeP in Hr.
    assert (Hb : 0 = zat bs (x - a)).
    { rewrite Forall_forall in Hbs. apply Hbs. apply list_elem_of_In, nth_In. lia. }
    rewrite <- Hb, Z.land_0_r. done.
  - cbn. intros m b Hlo Hhi. unfold sim_erase. rewrite sim_ok_intro by done.
    eexists. split; [done|]. intros x. rewrite sim_byte_make; [done|..].
    + intros y. destruct (in_range _ _ y); [fits_const|apply sim_byte_range].
    + intros Hx. destruct (in_range (sim_addr b) _ x); [done|]. unfold sim_byte. by rewrite Hx.
  - cbn. intros m b Hd x Hx. unfold sim_dirty in Hd.
    assert (Hl := sim_filter_nil _ _ (Nat2Z.inj _ 0 Hd) (Z.to_nat (x - sim_addr b))).
    cbv beta in Hl. rewrite in_seq in Hl. specialize (Hl ltac:(lia)) as Hf.
    apply negb_false_iff, Z.eqb_eq in Hf. rewrite <- Hf. cbn. f_equal. lia.
Defined.
End Sim.
End SimFlash.
