(* ===== verification/FlashCache.v ===== *)
(** * The bootloader's flash cache

    src/platforms/nuttx/src/bootloader/common/lib/flash_cache.c: two cache lines
    of eight words that turn the bootloader's word writes into the 256-bit block
    writes the STM32H7 flash controller needs.  Line 0 holds the first eight words
    of the application until the first word is written for real; line 1 streams
    the rest. *)

From S2P Require Import Prelude ProgMem.

Local Open Scope Z_scope.

Module FlashCache.

Definition FC_NUMBER_WORDS : Z := 8.
Definition FC_LAST_WORD : Z := FC_NUMBER_WORDS - 1.
Definition FC_CLEAN : Z := 0xffffffff.

Record flash_cache_line_t := Line {
  fl_index : Z;              (* index of the last word written, or FC_CLEAN *)
  fl_start_address : Z;      (* cache tag *)
  fl_words : list Z;
}.

(** sizeof(flash_cache[0].words), the address mask and the word index of an address. *)
Definition FC_LINE_BYTES : Z := 4 * FC_NUMBER_WORDS.
Definition FC_ADDRESS_MASK (a : Z) : Z := Z.land a (u32 (Z.lnot (FC_LINE_BYTES - 1))).
Definition FC_ADDR2INDX (a : Z) : Z := (a / 4) mod FC_NUMBER_WORDS.

(** [memset(fcl, 0xff, sizeof( *fcl))]. *)
Definition fcl_reset : flash_cache_line_t := Line FC_CLEAN 0xffffffff (replicate 8 0xffffffff).

Definition fc_is_dirty (fl : flash_cache_line_t) : bool := negb (fl_index fl =? FC_CLEAN).

Section Cache.
Context {M : Type} {PM : ProgMem M}.

(** The static array [flash_cache[FC_NUMBER_LINES]] and the memory behind it. *)
Record fc_state := FC {
  fc_line0 : flash_cache_line_t;
  fc_line1 : flash_cache_line_t;
  fc_mem : M;
}.

Inductive line_id := L0 | L1.

Definition fc_line (s : fc_state) (l : line_id) : flash_cache_line_t :=
  match l with L0 => fc_line0 s | L1 => fc_line1 s end.

Definition fc_set (s : fc_state) (l : line_id) (v : flash_cache_line_t) : fc_state :=
  match l with
  | L0 => FC v (fc_line1 s) (fc_mem s)
  | L1 => FC (fc_line0 s) v (fc_mem s)
  end.

Definition fc_reset (app : Z) (s : fc_state) : fc_state :=
  FC (Line FC_CLEAN app (fl_words fcl_reset)) fcl_reset (fc_mem s).

(** The first line whose tag matches, as the loop over [w] finds it. *)
Definition fc_line_select (s : fc_state) (address : Z) : option line_id :=
  if fl_start_address (fc_line0 s) =? FC_ADDRESS_MASK address then Some L0
  else if fl_start_address (fc_line1 s) =? FC_ADDRESS_MASK address then Some L1
  else None.

(** [arch_flash_write] of main.c is a call of [up_progmem_write]. *)
Definition arch_flash_write (address : Z) (words : list Z) (m : M) : Z * M :=
  up_progmem_write address (words_bytes words) m.

(** Returns 0 when the whole line was written, what the driver returned otherwise. *)
Definition fc_flush (s : fc_state) (l : line_id) : Z * fc_state :=
  let fl := fc_line s l in
  let '(rv, m) := arch_flash_write (fl_start_address fl) (fl_words fl) (fc_mem s) in
  (if rv =? FC_LINE_BYTES then 0 else rv, FC (fc_line0 s) (fc_line1 s) m).

Definition fc_write (address word : Z) (s : fc_state) : Z * fc_state :=
  let index := FC_ADDR2INDX address in
  let '(fc, s) :=
    match fc_line_select s address with
    | Some l => (Some l, s)
    | None =>
      if index =? 0
      then (Some L1, fc_set s L1 (Line (fl_index (fc_line1 s)) address (fl_words (fc_line1 s))))
      else (None, s)
    end in
  match fc with
  | None => (0, s)
  | Some l =>
    let fl := fc_line s l in
    let s := fc_set s l (Line (fl_index fl) (fl_start_address fl)
                              (<[Z.to_nat index := word]> (fl_words fl))) in
    match l with
    | L0 =>
      (* are we back writing the first word? *)
      if (index =? 0) && (fl_index fl =? 7) then
        let '(rv, s) := if fc_is_dirty (fc_line1 s) then fc_flush s L1 else (0, s) in
        if negb (rv =? 0) then (-1, fc_set s L1 fcl_reset)
        else
          let '(rv, s) := fc_flush s L0 in
          (rv, fc_set s L0 fcl_reset)
      else (0, fc_set s L0 (Line index (fl_start_address (fc_line0 s)) (fl_words (fc_line0 s))))
    | L1 => (0, fc_set s L1 (Line index (fl_start_address (fc_line1 s)) (fl_words (fc_line1 s))))
    end
  end.

Definition fc_read (address : Z) (s : fc_state) : Z * fc_state :=
  match fc_line_select s address with
  | None => (pm_word (fc_mem s) address, s)
  | Some l =>
    let index := FC_ADDR2INDX address in
    let rv := zat (fl_words (fc_line s l)) index in
    match l with
    | L0 => (rv, s)
    | L1 =>
      if index =? FC_LAST_WORD then
        let '(e, s) := fc_flush s L1 in
        if negb (e =? 0) then (Z.lxor rv 0xffffffff, s) else (rv, fc_set s L1 fcl_reset)
      else (rv, s)
    end
  end.

End Cache.

Arguments fc_state : clear implicits.

(** ** An upload session

    [session s ws open] is the invariant of the cache while the bootloader uploads:
    the words [ws] have been programmed in order from the start of the application
    area, the first one still held back as 0xffffffff.  Line 0 keeps the first
    eight words, line 1 the current partial line; everything before the partial
    line is in flash.  [open = false] once a read of the last word of a partial
    line has flushed it. *)
Section Session.
Context {M : Type} {PM : ProgMem M} {PL : ProgMemLaws M}.
Variables (app fw : Z).
Hypothesis app_aligned : app mod 32 = 0.
Hypothesis fw_aligned : fw mod 32 = 0.
Hypothesis app_low : 0 <= app.
Hypothesis app_high : app + fw <= 2 ^ 32 - 32.
Hypothesis app_flash : pm_base <= app /\ app + fw <= pm_base + pm_size.

(** The eight words of line [k]. *)
Definition img_line (ws : list Z) (k : Z) : list Z :=
  map (fun j => image ws (8 * k + Z.of_nat j)) (seq 0 8).

Definition line0_of (ws : list Z) : flash_cache_line_t :=
  Line (if (length ws =? 0)%nat then FC_CLEAN else Z.min (Z.of_nat (length ws) - 1) 7)
       app (img_line ws 0).

(** The number of whole lines, and whether a partial line is pending. *)
Definition full (ws : list Z) : Z := Z.of_nat (length ws) / 8.
Definition pending (ws : list Z) : bool :=
  (8 <? Z.of_nat (length ws)) && negb (Z.of_nat (length ws) mod 8 =? 0).

Definition line1_of (ws : list Z) (op : bool) : flash_cache_line_t :=
  if op && pending ws
  then Line (Z.of_nat (length ws) mod 8 - 1) (app + 32 * full ws) (img_line ws (full ws))
  else fcl_reset.

(** How many words are in flash (beyond the first line, which is held back). *)
Definition flashed (ws : list Z) (op : bool) : Z :=
  if op && pending ws then 8 * full ws else Z.of_nat (length ws).

Definition mem_holds (m : M) (ws : list Z) (n : Z) : Prop :=
  forall i, 0 <= i < fw / 4 ->
    pm_word m (app + 4 * i) = if (8 <=? i) && (i <? n) then image ws i else 0xffffffff.

Definition session (s : fc_state M) (ws : list Z) (op : bool) : Prop :=
  fc_line0 s = line0_of ws /\ fc_line1 s = line1_of ws op /\
  Forall (fits 32) ws /\ 4 * Z.of_nat (length ws) <= fw /\
  (ws <> [] -> zat ws 0 = 0xffffffff) /\
  mem_holds (fc_mem s) ws (flashed ws op).

(** *** Addresses *)

Lemma mask_line a : fits 32 a -> FC_ADDRESS_MASK a = a - a mod 32.
Proof.
  intros Ha. unfold FC_ADDRESS_MASK, FC_LINE_BYTES, FC_NUMBER_WORDS.
  replace (Z.land a (u32 (Z.lnot (4 * 8 - 1)))) with (Z.ldiff a (Z.ones 5)).
  - rewrite Z.ldiff_ones_r, Z.shiftl_mul_pow2, Z.shiftr_div_pow2 by lia.
    change (2 ^ 5) with 32. pose proof (Z.div_mod a 32). lia.
  - apply Z.bits_inj'. intros i Hi. rewrite Z.ldiff_spec, Z.land_spec, wrap_testbit by lia.
    rewrite Z.lnot_spec by lia. change (4 * 8 - 1) with (Z.ones 5).
    destruct (Z.ltb_spec i 32); [by rewrite andb_true_r|].
    by rewrite (fits_testbit 32 ltac:(lia) a Ha).
Qed.

Lemma addr_fits i : 0 <= i < fw / 4 -> fits 32 (app + 4 * i).
Proof. intros. unfold fits. pose proof (Z.div_mod fw 4). pose proof (Z.mod_pos_bound fw 4). lia. Qed.

Lemma addr_mask i : 0 <= i < fw / 4 -> FC_ADDRESS_MASK (app + 4 * i) = app + 32 * (i / 8).
Proof.
  intros Hi. rewrite mask_line by (by apply addr_fits).
  Z.div_mod_to_equations. lia.
Qed.

Lemma addr_index i : 0 <= i -> FC_ADDR2INDX (app + 4 * i) = i mod 8.
Proof.
  intros Hi. unfold FC_ADDR2INDX, FC_NUMBER_WORDS.
  Z.div_mod_to_equations. lia.
Qed.

(** *** Images and lines *)

Lemma img_line_at ws k j : 0 <= j < 8 -> zat (img_line ws k) j = image ws (8 * k + j).
Proof. intros. unfold img_line. rewrite zat_map_seq by lia. f_equal. lia. Qed.

Lemma img_line_length ws k : length (img_line ws k) = 8%nat.
Proof. unfold img_line. by rewrite length_map, length_seq. Qed.

Lemma img_line_fits ws k : Forall (fits 32) ws -> 0 <= k -> Forall (fits 32) (img_line ws k).
Proof.
  intros. unfold img_line. apply Forall_map, Forall_true. intros j. apply image_fits; [done|lia].
Qed.

Lemma img_line_ext ws ws' k k' :
  (forall j, 0 <= j < 8 -> image ws (8 * k + j) = image ws' (8 * k' + j)) ->
  img_line ws k = img_line ws' k'.
Proof.
  intros Hj. apply zat_ext; [by rewrite !img_line_length|].
  rewrite img_line_length. intros i Hi. rewrite !img_line_at by lia. apply Hj. lia.
Qed.

(** Storing the next word at its index extends the line's image. *)
Lemma img_line_insert ws w k i :
  Z.of_nat (length ws) = 8 * k + i -> 0 <= k -> 0 <= i < 8 ->
  <[Z.to_nat i := w]> (img_line ws k) = img_line (ws ++ [w]) k.
Proof.
  intros Hn Hk Hi. apply zat_ext; rewrite length_insert, !img_line_length; [done|].
  intros j Hj. rewrite zat_insert by (rewrite ?img_line_length; lia).
  rewrite !img_line_at, image_snoc by lia. rewrite Z2Nat.id by lia.
  destruct (Z.eqb_spec j i), (Z.eqb_spec (8 * k + j) (Z.of_nat (length ws))); congruence || lia.
Qed.

Lemma img_line_nil k : 0 <= k -> img_line [] k = fl_words fcl_reset.
Proof.
  intros. apply zat_ext; [by rewrite img_line_length|]. rewrite img_line_length.
  intros i Hi. rewrite img_line_at by lia. unfold image. cbn [length].
  rewrite (proj2 (Z.ltb_ge _ _)) by lia. unfold zat, fcl_reset. cbn [fl_words].
  by rewrite nth_lookup, lookup_replicate_2 by lia.
Qed.

(** *** The flash behind the cache *)

(** Flushing an image line into erased flash programs exactly that line. *)
Lemma flush_line m ws k :
  Forall (fits 32) ws -> 0 <= k -> 8 * k + 8 <= fw / 4 ->
  (forall i, 8 * k <= i < 8 * k + 8 -> pm_word m (app + 4 * i) = 0xffffffff) ->
  exists m', arch_flash_write (app + 32 * k) (img_line ws k) m = (FC_LINE_BYTES, m') /\
    forall i, 0 <= i < fw / 4 ->
      pm_word m' (app + 4 * i) = if i / 8 =? k then image ws i else pm_word m (app + 4 * i).
Proof.
  intros Hws Hk Hfit Her.
  assert (Hlim : app + 32 * k + 32 <= app + fw) by (Z.div_mod_to_equations; lia).
  destruct (pm_write_words m (app + 32 * k) (img_line ws k)) as (m' & Hw & Hin & Hout);
    rewrite ?img_line_length; [lia|lia|by apply img_line_fits|..].
  { intros x Hx. pose (i := (x - app) / 4).
    apply (word_erased m (app + 4 * i)); [|unfold i; Z.div_mod_to_equations; lia].
    apply Her. unfold i. Z.div_mod_to_equations. lia. }
  rewrite img_line_length in *. exists m'. split; [exact Hw|]. intros i Hi.
  destruct (Z.eqb_spec (i / 8) k) as [<-|Hne].
  - specialize (Hin (i mod 8) ltac:(Z.div_mod_to_equations; lia)).
    rewrite img_line_at in Hin by (Z.div_mod_to_equations; lia).
    replace (8 * (i / 8) + i mod 8) with i in Hin by (Z.div_mod_to_equations; lia).
    rewrite <- Hin. f_equal. Z.div_mod_to_equations. lia.
  - apply Hout. Z.div_mod_to_equations. lia.
Qed.

Lemma mem_holds_beyond m ws n n' :
  Z.of_nat (length ws) <= n -> Z.of_nat (length ws) <= n' -> mem_holds m ws n -> mem_holds m ws n'.
Proof.
  intros Hn Hn' Hm i Hi. rewrite (Hm i Hi). unfold image.
  destruct (Z.leb_spec 8 i), (Z.ltb_spec i n), (Z.ltb_spec i n'),
    (Z.ltb_spec i (Z.of_nat (length ws))); simpl; lia.
Qed.

Lemma mem_holds_ext m ws ws' n :
  (forall i, 0 <= i < n -> image ws i = image ws' i) -> mem_holds m ws n -> mem_holds m ws' n.
Proof.
  intros He Hm i Hi. rewrite (Hm i Hi).
  destruct (Z.leb_spec 8 i), (Z.ltb_spec i n); simpl; [apply He; lia|done..].
Qed.

(** Flushing the line after the flashed prefix extends the prefix by a line. *)
Lemma mem_holds_flush m ws k :
  Forall (fits 32) ws -> 1 <= k -> 8 * k + 8 <= fw / 4 -> mem_holds m ws (8 * k) ->
  exists m', arch_flash_write (app + 32 * k) (img_line ws k) m = (FC_LINE_BYTES, m') /\
    mem_holds m' ws (8 * k + 8).
Proof.
  intros Hws Hk Hfit Hm.
  destruct (flush_line m ws k) as (m' & Hw & Hm'); [done|lia|done|..].
  { intros i Hi. rewrite Hm by lia. by rewrite (proj2 (Z.ltb_ge _ _)), andb_false_r by lia. }
  exists m'. split; [done|]. intros i Hi. rewrite Hm', Hm by done.
  destruct (Z.eqb_spec (i / 8) k), (Z.leb_spec 8 i), (Z.ltb_spec i (8 * k)),
    (Z.ltb_spec i (8 * k + 8)); simpl; Z.div_mod_to_equations; lia.
Qed.

(** *** Operations in a session *)

Lemma pending_spec ws : pending ws = true <->
  8 < Z.of_nat (length ws) /\ Z.of_nat (length ws) mod 8 <> 0.
Proof. unfold pending. rewrite andb_true_iff, Z.ltb_lt, negb_true_iff, Z.eqb_neq. done. Qed.

Lemma line1_tag ws op s : session s ws op ->
  fl_start_address (fc_line1 s) = if op && pending ws then app + 32 * full ws else 0xffffffff.
Proof. intros (_ & -> & _). unfold line1_of. by destruct (op && pending ws). Qed.

Lemma session_select s ws op i : session s ws op -> 0 <= i < fw / 4 ->
  fc_line_select s (app + 4 * i) =
    if i <? 8 then Some L0
    else if op && pending ws && (i / 8 =? full ws) then Some L1 else None.
Proof.
  intros Hs Hi. unfold fc_line_select. rewrite (line1_tag ws op s Hs).
  destruct Hs as (-> & _ & _ & _). cbn [line0_of fl_start_address].
  rewrite addr_mask by done.
  destruct (Z.ltb_spec i 8).
  - rewrite Z.div_small by lia. by rewrite Z.mul_0_r, Z.add_0_r, Z.eqb_refl.
  - rewrite (proj2 (Z.eqb_neq _ _)) by (Z.div_mod_to_equations; lia).
    destruct (op && pending ws); cbn [andb].
    + destruct (Z.eqb_spec (i / 8) (full ws)) as [->|]; [by rewrite Z.eqb_refl|].
      by rewrite (proj2 (Z.eqb_neq _ _)) by lia.
    + rewrite (proj2 (Z.eqb_neq _ _)); [done|]. Z.div_mod_to_equations. lia.
Qed.

(** The pending line is flushed when its last word is read back. *)
Lemma session_flush s ws : session s ws true -> pending ws = true ->
  exists m', fc_flush s L1 = (0, FC (fc_line0 s) (fc_line1 s) m') /\
    session (FC (fc_line0 s) fcl_reset m') ws false /\
    mem_holds m' ws (Z.of_nat (length ws)).
Proof.
  intros (H0 & H1 & Hf & Hlen & Hw0 & Hm) Hp. unfold flashed, line1_of in *. rewrite Hp in *.
  cbn [andb] in *. apply pending_spec in Hp as Hp'.
  destruct (mem_holds_flush (fc_mem s) ws (full ws)) as (m' & Hw & Hm'); unfold full in *;
    try (Z.div_mod_to_equations; lia); [done|done|].
  assert (Hm2 : mem_holds m' ws (Z.of_nat (length ws))).
  { eapply mem_holds_beyond; [..|exact Hm']; Z.div_mod_to_equations; lia. }
  exists m'. split; [|split; [|done]].
  - unfold fc_flush, fc_line. rewrite H1. cbn [fl_start_address fl_words].
    by rewrite Hw, Z.eqb_refl.
  - repeat split; try done.
Qed.

(** Reading any word of the application area returns the image. *)
Lemma session_read s ws op i : session s ws op -> 0 <= i < fw / 4 ->
  exists s' op', fc_read (app + 4 * i) s = (image ws i, s') /\ session s' ws op' /\
    (i mod 8 <> 7 \/ pending ws = false -> op' = op).
Proof.
  intros Hs Hi. unfold fc_read. rewrite (session_select s ws op i Hs Hi).
  destruct (Z.ltb_spec i 8) as [Hlt|Hge].
  - exists s, op. split; [|done]. cbn [fc_line]. destruct Hs as (-> & _). cbn [line0_of fl_words].
    rewrite addr_index, img_line_at by (Z.div_mod_to_equations; lia).
    repeat f_equal. Z.div_mod_to_equations. lia.
  - destruct (op && pending ws && (i / 8 =? full ws)) eqn:E.
    + apply andb_true_iff in E as [[-> Hp]%andb_true_iff Hk%Z.eqb_eq].
      rewrite addr_index by lia. cbn [fc_line].
      assert (Hz : zat (fl_words (fc_line1 s)) (i mod 8) = image ws i).
      { destruct Hs as (_ & -> & _). unfold line1_of. rewrite Hp. cbn [andb fl_words].
        rewrite img_line_at by (Z.div_mod_to_equations; lia). f_equal.
        rewrite <- Hk. Z.div_mod_to_equations. lia. }
      rewrite Hz. destruct (Z.eqb_spec (i mod 8) FC_LAST_WORD).
      * destruct (session_flush s ws Hs Hp) as (m' & -> & Hs' & _).
        exists (FC (fc_line0 s) fcl_reset m'), false. split; [reflexivity|]. split; [done|].
        intros [?|?]; [|congruence]. unfold FC_LAST_WORD, FC_NUMBER_WORDS in *. lia.
      * exists s, true. done.
    + exists s, op. split; [|done]. f_equal. destruct Hs as (_ & _ & _ & _ & _ & Hm).
      rewrite (Hm i Hi). rewrite (proj2 (Z.leb_le _ _)) by lia. cbn [andb].
      unfold flashed, image, full in *. destruct (op && pending ws) eqn:Ep;
        [|by destruct (i <? Z.of_nat (length ws))].
      cbn [andb] in E. apply Z.eqb_neq in E.
      apply andb_true_iff in Ep as [_ Hp%pending_spec].
      destruct (Z.ltb_spec i (8 * (Z.of_nat (length ws) / 8))),
        (Z.ltb_spec i (Z.of_nat (length ws))); try done; Z.div_mod_to_equations; lia.
Qed.

Lemma snoc_length ws (w : Z) : Z.of_nat (length (ws ++ [w])) = Z.of_nat (length ws) + 1.
Proof. rewrite length_app. simpl. lia. Qed.

Lemma snoc_head ws w : (ws <> [] -> zat ws 0 = 0xffffffff) -> (ws = [] -> w = 0xffffffff) ->
  ws ++ [w] <> [] -> zat (ws ++ [w]) 0 = 0xffffffff.
Proof. intros H1 H2 _. destruct ws; [by apply H2|]. by apply H1. Qed.

(** Programming the next word while the first line fills up. *)
Lemma session_write_line0 s ws w :
  session s ws true -> Z.of_nat (length ws) < 8 -> 4 * Z.of_nat (length ws) < fw ->
  fits 32 w -> (ws = [] -> w = 0xffffffff) ->
  exists s', fc_write (app + 4 * Z.of_nat (length ws)) w s = (0, s') /\
    session s' (ws ++ [w]) true.
Proof.
  intros Hs Hlt Hfw Hw Hw0.
  assert (Hi : 0 <= Z.of_nat (length ws) < fw / 4) by (Z.div_mod_to_equations; lia).
  unfold fc_write. rewrite (session_select s ws true _ Hs Hi), addr_index by lia.
  rewrite (proj2 (Z.ltb_lt _ 8)) by lia. rewrite Z.mod_small by lia.
  destruct Hs as (E0 & E1 & Hf & Hlen & Hz & Hm). cbn [fc_line fc_set fc_line0 fc_line1 fc_mem].
  rewrite E0. cbn [line0_of fl_index fl_words fl_start_address].
  assert (Hc : (Z.of_nat (length ws) =? 0) &&
     ((if (length ws =? 0)%nat then FC_CLEAN else Z.min (Z.of_nat (length ws) - 1) 7) =? 7) = false).
  { destruct (Z.eqb_spec (Z.of_nat (length ws)) 0) as [Hn|]; [|done].
    by rewrite (proj2 (Nat.eqb_eq _ _)) by lia. }
  rewrite Hc. eexists. split; [done|].
  assert (Hp : forall v, Z.of_nat (length v) <= 8 -> pending v = false).
  { intros v Hv. unfold pending. by rewrite (proj2 (Z.ltb_ge _ _)) by lia. }
  assert (Hp1 : pending (ws ++ [w]) = false) by (apply Hp; rewrite snoc_length; lia).
  repeat split; cbn [fc_line0 fc_line1 fc_mem].
  - unfold line0_of. rewrite (img_line_insert ws w 0) by lia.
    rewrite (proj2 (Nat.eqb_neq _ _)) by (rewrite length_app; simpl; lia).
    f_equal. rewrite snoc_length. lia.
  - rewrite E1. unfold line1_of. by rewrite Hp1, Hp by lia.
  - apply Forall_app. auto.
  - rewrite snoc_length. Z.div_mod_to_equations. lia.
  - by apply snoc_head.
  - unfold flashed in *. rewrite Hp1. rewrite Hp in Hm by lia. cbn [andb] in *.
    intros i Hj. rewrite (Hm i Hj), snoc_length.
    destruct (Z.leb_spec 8 i); [|done]. cbn [andb].
    by rewrite !(proj2 (Z.ltb_ge _ _)) by lia.
Qed.

(** The state of the streaming line right after a write into it. *)
Lemma session_write_line1 s ws w :
  session s ws true -> 8 <= Z.of_nat (length ws) -> 4 * Z.of_nat (length ws) < fw ->
  fc_write (app + 4 * Z.of_nat (length ws)) w s =
    (0, FC (fc_line0 s) (Line (Z.of_nat (length ws) mod 8) (app + 32 * full ws)
                              (img_line (ws ++ [w]) (full ws))) (fc_mem s)).
Proof.
  intros Hs Hge Hfw.
  assert (Hi : 0 <= Z.of_nat (length ws) < fw / 4) by (Z.div_mod_to_equations; lia).
  unfold fc_write. rewrite (session_select s ws true _ Hs Hi), addr_index by lia.
  rewrite (proj2 (Z.ltb_ge _ 8)) by lia. destruct Hs as (E0 & E1 & _). unfold full.
  rewrite Z.eqb_refl, andb_true_r. cbn [andb].
  assert (Hn := Z.div_mod (Z.of_nat (length ws)) 8 ltac:(lia)).
  assert (Hb := Z.mod_pos_bound (Z.of_nat (length ws)) 8 ltac:(lia)).
  destruct (pending ws) eqn:Hp.
  - cbn [fc_line fc_set fc_line0 fc_line1 fc_mem fl_index fl_words fl_start_address].
    rewrite E1. unfold line1_of, full. rewrite Hp. cbn [andb fl_index fl_words fl_start_address].
    by rewrite (img_line_insert ws w) by lia.
  - assert (Hm0 : Z.of_nat (length ws) mod 8 = 0).
    { destruct (decide (Z.of_nat (length ws) mod 8 = 0)); [done|].
      assert (pending ws = true) by (apply pending_spec; split; [|done]; Z.div_mod_to_equations; lia).
      congruence. }
    rewrite Hm0. cbn [Z.eqb].
    cbn [fc_line fc_set fc_line0 fc_line1 fc_mem fl_index fl_words fl_start_address].
    rewrite E1. unfold line1_of. rewrite Hp. cbn [andb].
    rewrite <- (img_line_nil (full ws)) by (unfold full; Z.div_mod_to_equations; lia).
    assert (El : img_line [] (full ws) = img_line ws (full ws)).
    { apply img_line_ext. intros j Hj. unfold image, full. cbn [length].
      by rewrite !(proj2 (Z.ltb_ge _ _)) by (Z.div_mod_to_equations; lia). }
    unfold full in *. rewrite El, (img_line_insert ws w) by lia.
    replace (4 * Z.of_nat (length ws)) with (32 * (Z.of_nat (length ws) / 8)) by lia. done.
Qed.

Lemma line0_of_snoc ws w : 8 <= Z.of_nat (length ws) -> line0_of (ws ++ [w]) = line0_of ws.
Proof.
  intros Hge. unfold line0_of. rewrite !(proj2 (Nat.eqb_neq _ _)), snoc_length by
    (rewrite ?length_app; simpl; lia).
  f_equal; [lia|]. apply img_line_ext. intros j Hj. rewrite image_snoc by lia.
  by rewrite (proj2 (Z.eqb_neq _ _)) by lia.
Qed.

Lemma mem_holds_snoc m ws w n :
  n <= Z.of_nat (length ws) -> mem_holds m ws n -> mem_holds m (ws ++ [w]) n.
Proof.
  intros Hn. apply mem_holds_ext. intros i Hi. rewrite image_snoc by lia.
  by rewrite (proj2 (Z.eqb_neq _ _)) by lia.
Qed.

Lemma not_pending_full ws : 8 <= Z.of_nat (length ws) -> pending ws = false ->
  Z.of_nat (length ws) = 8 * full ws.
Proof.
  intros Hge Hp. destruct (decide (Z.of_nat (length ws) mod 8 = 0)).
  - unfold full. Z.div_mod_to_equations. lia.
  - assert (pending ws = true); [|congruence].
    apply pending_spec. split; [Z.div_mod_to_equations; lia|done].
Qed.

(** Everything before the line being filled is in flash. *)
Lemma session_prefix s ws : session s ws true -> 8 <= Z.of_nat (length ws) ->
  mem_holds (fc_mem s) ws (8 * full ws).
Proof.
  intros (_ & _ & _ & _ & _ & Hm) Hge. unfold flashed in Hm. cbn [andb] in Hm.
  destruct (pending ws) eqn:Hp; [done|]. by rewrite <- not_pending_full.
Qed.

(** A write that does not complete a line keeps the session open. *)
Lemma session_fill s ws w : session s ws true -> 8 <= Z.of_nat (length ws) ->
  4 * Z.of_nat (length ws) < fw -> fits 32 w -> Z.of_nat (length ws) mod 8 <> 7 ->
  (ws = [] -> w = 0xffffffff) ->
  session (FC (fc_line0 s) (Line (Z.of_nat (length ws) mod 8) (app + 32 * full ws)
                                 (img_line (ws ++ [w]) (full ws))) (fc_mem s))
          (ws ++ [w]) true.
Proof.
  intros Hs Hge Hfw Hw H7 Hw0. pose proof (session_prefix s ws Hs Hge) as Hm.
  destruct Hs as (E0 & E1 & Hf & Hlen & Hz & _).
  assert (Hp : pending (ws ++ [w]) = true).
  { apply pending_spec. rewrite snoc_length. split; [lia|]. Z.div_mod_to_equations. lia. }
  assert (Hfull : full (ws ++ [w]) = full ws).
  { unfold full. rewrite snoc_length. Z.div_mod_to_equations. lia. }
  repeat split; cbn [fc_line0 fc_line1 fc_mem].
  - by rewrite line0_of_snoc.
  - unfold line1_of. rewrite Hp, Hfull. cbn [andb]. f_equal.
    rewrite snoc_length. Z.div_mod_to_equations. lia.
  - apply Forall_app. auto.
  - rewrite snoc_length. Z.div_mod_to_equations. lia.
  - by apply snoc_head.
  - unfold flashed. rewrite Hp, Hfull. cbn [andb]. apply mem_holds_snoc; [|done].
    unfold full. Z.div_mod_to_equations. lia.
Qed.

(** A word written at the end of the image, then read back for verification. *)
Lemma session_prog s ws w :
  session s ws true -> 4 * Z.of_nat (length ws) < fw -> fits 32 w ->
  (ws = [] -> w = 0xffffffff) ->
  exists s', fc_read (app + 4 * Z.of_nat (length ws))
               (snd (fc_write (app + 4 * Z.of_nat (length ws)) w s)) = (w, s') /\
    session s' (ws ++ [w]) true.
Proof.
  intros Hs Hfw Hw Hw0. set (n := Z.of_nat (length ws)) in *.
  assert (Hi : 0 <= n < fw / 4) by (unfold n in *; Z.div_mod_to_equations; lia).
  assert (Hw' : image (ws ++ [w]) n = w) by (rewrite image_snoc by lia; by rewrite Z.eqb_refl).
  destruct (decide (n mod 8 = 7 /\ 8 <= n)) as [[H7 Hge]|H7].
  - (* the write completes a line: the read-back flushes it *)
    pose proof (session_write_line1 s ws w Hs Hge Hfw) as Hwr. fold n in Hwr. rewrite Hwr.
    cbn [snd].
    assert (Hk : n = 8 * full ws + 7) by (unfold full, n in *; Z.div_mod_to_equations; lia).
    destruct (mem_holds_flush (fc_mem s) (ws ++ [w]) (full ws)) as (m' & Hfl & Hm');
      [apply Forall_app; split; [apply Hs|auto]|lia|unfold n in *; Z.div_mod_to_equations; lia|..].
    { apply mem_holds_snoc; [lia|]. by apply session_prefix. }
    unfold fc_read, fc_line_select. cbn [fc_line0 fc_line1].
    rewrite addr_mask, addr_index by lia. destruct Hs as (E0 & E1 & Hf & Hlen & Hz & Hm).
    rewrite E0. cbn [line0_of fl_start_address].
    rewrite (proj2 (Z.eqb_neq app _)) by (unfold n in *; Z.div_mod_to_equations; lia).
    replace (n / 8) with (full ws) by (unfold full, n; done).
    rewrite Z.eqb_refl. cbn [fc_line fc_line1 fl_words].
    rewrite img_line_at by (Z.div_mod_to_equations; lia).
    replace (8 * full ws + n mod 8) with n by lia. rewrite Hw', H7. change (7 =? FC_LAST_WORD) with true.
    unfold fc_flush. cbn [fc_line fc_line1 fl_start_address fl_words fc_mem]. rewrite Hfl.
    rewrite Z.eqb_refl. cbn [negb Z.eqb]. eexists. split; [reflexivity|].
    assert (Hp : pending (ws ++ [w]) = false).
    { unfold pending. rewrite snoc_length. fold n. rewrite Hk.
      replace (8 * full ws + 7 + 1) with ((full ws + 1) * 8) by lia.
      rewrite Z_mod_mult. by rewrite andb_false_r. }
    repeat split; cbn [fc_set fc_line0 fc_line1 fc_mem].
    + symmetry. by rewrite line0_of_snoc.
    + unfold line1_of. by rewrite Hp.
    + apply Forall_app. auto.
    + rewrite snoc_length. unfold n in *. Z.div_mod_to_equations. lia.
    + by apply snoc_head.
    + unfold flashed. rewrite Hp. cbn [andb]. rewrite snoc_length. fold n.
      by replace (n + 1) with (8 * full ws + 8) by lia.
  - assert (exists s1, snd (fc_write (app + 4 * n) w s) = s1 /\ session s1 (ws ++ [w]) true)
      as (s1 & -> & Hs1).
    { destruct (decide (n < 8)) as [Hlt|Hge].
      - destruct (session_write_line0 s ws w) as (s' & E & ?); try done. fold n in E.
        exists s'. by rewrite E.
      - pose proof (session_write_line1 s ws w Hs ltac:(lia) Hfw) as Hwr. fold n in Hwr.
        rewrite Hwr. eexists. split; [reflexivity|]. apply session_fill; auto; [lia|].
        intros ?. apply H7. split; [done|lia]. }
    destruct (session_read s1 (ws ++ [w]) true n Hs1 Hi) as (s2 & op' & E & Hs2 & Hop).
    rewrite E, Hw'. exists s2. split; [done|]. rewrite <- Hop; [done|].
    destruct (decide (n mod 8 = 7)) as [H7'|]; [right|by left].
    unfold pending. rewrite snoc_length. fold n.
    by rewrite (proj2 (Z.ltb_ge _ _)) by (Z.div_mod_to_equations; lia).
Qed.

(** *** Committing the image *)

Lemma session_dirty s ws op : session s ws op ->
  fc_is_dirty (fc_line1 s) = op && pending ws.
Proof.
  intros (_ & -> & _). unfold line1_of, fc_is_dirty.
  destruct (op && pending ws) eqn:E; [|done]. apply andb_true_iff in E as [_ Hp%pending_spec].
  cbn [fl_index]. apply negb_true_iff, Z.eqb_neq. unfold FC_CLEAN.
  pose proof (Z.mod_pos_bound (Z.of_nat (length ws)) 8). lia.
Qed.

(** Flushing what is pending leaves everything after the first line in flash. *)
Lemma session_drain s ws op : session s ws op -> 8 <= Z.of_nat (length ws) ->
  exists m', (if fc_is_dirty (fc_line1 s) then fc_flush s L1 else (0, s))
               = (0, FC (fc_line0 s) (fc_line1 s) m') /\
    mem_holds m' ws (Z.of_nat (length ws)).
Proof.
  intros Hs Hge. rewrite (session_dirty s ws op Hs).
  destruct (op && pending ws) eqn:E.
  - apply andb_true_iff in E as [-> Hp].
    destruct (session_flush s ws Hs Hp) as (m' & -> & _ & Hm). by exists m'.
  - exists (fc_mem s). split; [by destruct s|].
    destruct Hs as (_ & _ & _ & _ & _ & Hm). unfold flashed in Hm. by rewrite E in Hm.
Qed.

(** Writing the real first word at the end of an upload of at least eight words
    flushes both lines, and reading it back now reads the flash itself. *)
Lemma session_commit s ws op w0 :
  session s ws op -> 8 <= Z.of_nat (length ws) -> fits 32 w0 ->
  exists s', fc_read app (snd (fc_write app w0 s)) = (w0, s') /\
    (forall i, 0 <= i < fw / 4 ->
       pm_word (fc_mem s') (app + 4 * i) = image (w0 :: tl ws) i).
Proof.
  intros Hs Hge Hw. assert (Hfw : 8 <= fw / 4).
  { destruct Hs as (_ & _ & _ & Hlen & _). Z.div_mod_to_equations. lia. }
  assert (Hne : ws <> []) by (destruct ws; [simpl in Hge; lia|done]).
  pose proof (addr_mask 0 ltac:(lia)) as Hmk. pose proof (addr_index 0 ltac:(lia)) as Hix.
  pose proof (session_select s ws op 0 Hs ltac:(lia)) as Hsel.
  rewrite Z.mul_0_r, Z.add_0_r in *. change (0 mod 8) with 0 in Hix.
  destruct (session_drain s ws op Hs Hge) as (m1 & Hdr & Hm1).
  pose proof (line1_tag ws op s Hs) as Htag.
  destruct Hs as (E0 & E1 & Hf & Hlen & Hz & _).
  assert (Hsplit : img_line (w0 :: tl ws) 0 = <[Z.to_nat 0 := w0]> (img_line ws 0)).
  { apply zat_ext; rewrite ?length_insert, !img_line_length; [done|]. intros j Hj.
    rewrite zat_insert, !img_line_at, image_cons by (rewrite ?img_line_length; done || lia).
    done. }
  assert (Hnew : Forall (fits 32) (w0 :: tl ws)) by (destruct Hf; by constructor).
  destruct (flush_line m1 (w0 :: tl ws) 0) as (m2 & Hw2 & Hm2); [done|lia|lia|..].
  { intros i Hi. rewrite Hm1 by lia. by rewrite (proj2 (Z.leb_gt 8 i)) by lia. }
  rewrite Z.mul_0_r, Z.add_0_r in Hw2.
  (* the write *)
  assert (Hwr : snd (fc_write app w0 s) = FC fcl_reset (fc_line1 s) m2).
  { unfold fc_write. rewrite Hsel, Hix. cbn [Z.ltb Z.compare fc_line].
    rewrite E0. cbn [line0_of fl_index fl_words fl_start_address fc_set].
    rewrite (proj2 (Nat.eqb_neq _ _)) by lia.
    replace (Z.min _ 7) with 7 by lia. cbn [Z.eqb Pos.eqb andb fc_line1].
    destruct (fc_is_dirty (fc_line1 s)) eqn:Ed.
    - unfold fc_flush in Hdr |- *. cbn [fc_line fc_line0 fc_line1 fc_mem] in Hdr |- *.
      destruct (arch_flash_write _ _ (fc_mem s)) as [rv m]. injection Hdr as Hrv <-.
      rewrite Hrv. cbn [Z.eqb negb fc_line fc_line0 fc_mem fl_start_address fl_words].
      rewrite <- Hsplit, Hw2. done.
    - injection Hdr as Hdr. cbn [Z.eqb negb]. unfold fc_flush.
      cbn [fc_line fc_line0 fc_line1 fc_mem fl_start_address fl_words].
      rewrite <- Hsplit. replace (fc_mem s) with m1 by (by rewrite Hdr). by rewrite Hw2. }
  assert (Himg : forall i, 0 <= i < fw / 4 -> pm_word m2 (app + 4 * i) = image (w0 :: tl ws) i).
  { intros i Hi. rewrite Hm2 by done. destruct (Z.eqb_spec (i / 8) 0) as [|Hi8]; [done|].
    rewrite Hm1 by done. rewrite image_cons by (done || lia).
    rewrite (proj2 (Z.eqb_neq i 0)) by (Z.div_mod_to_equations; lia).
    rewrite (proj2 (Z.leb_le 8 i)) by (Z.div_mod_to_equations; lia). unfold image.
    by destruct (i <? Z.of_nat (length ws)). }
  (* the read-back misses both lines *)
  rewrite Hwr. unfold fc_read, fc_line_select. cbn [fc_line0 fc_line1 fl_start_address fcl_reset].
  rewrite Hmk, Htag. change (0 / 8) with 0. rewrite Z.mul_0_r, Z.add_0_r.
  rewrite (proj2 (Z.eqb_neq 0xffffffff app)) by lia.
  rewrite (proj2 (Z.eqb_neq _ app)).
  - exists (FC fcl_reset (fc_line1 s) m2). split; [|exact Himg]. f_equal. specialize (Himg 0 ltac:(lia)).
    rewrite Z.mul_0_r, Z.add_0_r in Himg. cbn [fc_mem]. by rewrite Himg.
  - destruct (op && pending ws) eqn:E; [|lia].
    apply andb_true_iff in E as [_ Hp%pending_spec]. unfold full. Z.div_mod_to_equations. lia.
Qed.

(** An erased application area with a reset cache is an empty session. *)
Lemma session_start s : 0 <= fw -> erased (fc_mem s) app fw -> session (fc_reset app s) [] true.
Proof.
  intros Hfw He. repeat split; try done.
  intros i Hi. cbn [fc_reset fc_mem].
  rewrite (erased_word _ app fw) by (try done; Z.div_mod_to_equations; lia).
  unfold image. cbn [length]. rewrite (proj2 (Z.ltb_ge i (Z.of_nat 0))) by lia.
  by destruct ((8 <=? i) && _).
Qed.

(** With fewer than eight words uploaded, the first word is accepted by the
    read-back but stays in the cache: the flash is not touched. *)
Lemma session_commit_short s ws op w0 :
  session s ws op -> 0 < Z.of_nat (length ws) < 8 ->
  exists s', fc_read app (snd (fc_write app w0 s)) = (w0, s') /\ fc_mem s' = fc_mem s.
Proof.
  intros Hs Hn. assert (Hfw : 0 < fw / 4).
  { destruct Hs as (_ & _ & _ & Hlen & _). Z.div_mod_to_equations. lia. }
  pose proof (addr_mask 0 ltac:(lia)) as Hmk. pose proof (addr_index 0 ltac:(lia)) as Hix.
  pose proof (session_select s ws op 0 Hs ltac:(lia)) as Hsel.
  rewrite Z.mul_0_r, Z.add_0_r in *. change (0 mod 8) with 0 in Hix. change (0 / 8) with 0 in Hmk.
  destruct Hs as (E0 & _). unfold fc_write. rewrite Hsel, Hix. cbn [Z.ltb Z.compare fc_line].
  rewrite E0. cbn [line0_of fl_index fl_words fl_start_address fc_set fc_line0 fc_line1].
  rewrite (proj2 (Nat.eqb_neq _ _)) by lia.
  rewrite (proj2 (Z.eqb_neq (Z.min _ 7) 7)) by lia. cbn [Z.eqb andb snd].
  unfold fc_read, fc_line_select. cbn [fc_line0 fc_line1 fl_start_address].
  rewrite Hmk, Z.mul_0_r, Z.add_0_r, Z.eqb_refl, Hix. cbn [fc_line fc_line0 fl_words].
  by eexists.
Qed.

End Session.
End FlashCache.
