(* ===== verification/BootIface.v ===== *)
(** * What the bootloader protocol expects of a board

    bl.h declares the flash helpers and the board data that every board port
    provides ([flash_func_*], [arch_flash_*], [get_mcu_*], [board_info]).
    [FlashFuncs] is that set of functions over an abstract device state,
    [UploadFlash] is what the upload protocol needs of them, and [Board] holds the
    constants a port takes from its hw_config.h. *)

From S2P Require Import Prelude.

Local Open Scope Z_scope.

(** Constants of a board's hw_config.h (and [board_info], fixed by [board_init]). *)
Class Board := {
  APP_LOAD_ADDRESS : Z;
  BOARD_TYPE : Z;
  board_rev : Z;
  fw_size : Z;                              (* board_info.fw_size *)
  BOOT_DELAY_ADDRESS : Z;
  ARCH_SN_MAX_LENGTH : Z;
  BOARD_FLASH_SECTORS : Z;
  BOARD_FIRST_FLASH_SECTOR_TO_ERASE : Z;
  BOOTLOADER_DELAY : Z;
  BOOT_DEVICES_SELECTION : Z;
  BOOT_DEVICES_FILTER_ONUSB : Z;
}.

Class FlashFuncs (F : Type) := {
  flash_func_sector_size : Z -> Z;
  flash_func_erase_sector : Z -> F -> F;
  flash_func_write_word : Z -> Z -> F -> F;
  flash_func_read_word : Z -> F -> Z * F;   (* a read may flush a cache line *)
  flash_func_read_otp : Z -> F -> Z;
  flash_func_read_sn : Z -> F -> Z;
  arch_flash_lock : F -> F;
  arch_flash_unlock : F -> F;
  get_mcu_id : F -> Z;
  get_mcu_desc : Z -> F -> list Z;          (* the bytes written to the buffer *)
}.

(** The erase loop of PROTO_CHIP_ERASE: sectors 0, 1, ... while their size is not 0. *)
Fixpoint erase_sectors {F} `{FlashFuncs F} (fuel : nat) (i : Z) (f : F) : F :=
  match fuel with
  | O => f
  | S fuel =>
    if flash_func_sector_size i =? 0 then f
    else erase_sectors fuel (i + 1) (flash_func_erase_sector i f)
  end.

(** The sector table of a port ends after [BOARD_FLASH_SECTORS], so this fuel lets the
    loop run into the first sector of size 0. *)
Definition erase_fuel `{Board} : nat := Z.to_nat (BOARD_FLASH_SECTORS + 2).

(** The contract of the flash functions during an upload.  [uf_session f ws op]: the
    words [ws] have been programmed in order since the last erase, the first as
    0xffffffff; [op] allows programming to go on.  [uf_min] is the smallest number
    of words for which committing the first word reaches the flash. *)
Class UploadFlash (F : Type) `{Board} `{FlashFuncs F} := {
  uf_min : nat;
  uf_session : F -> list Z -> bool -> Prop;
  uf_stored : F -> Z -> Z;                  (* the flash itself, by word index *)
  uf_sector_end : 0 <= BOARD_FLASH_SECTORS /\
    flash_func_sector_size (BOARD_FLASH_SECTORS + 1) = 0;
  uf_erase : forall f,
    uf_session (erase_sectors erase_fuel 0 (arch_flash_unlock f)) [] true;
  uf_read : forall f ws op i, uf_session f ws op -> 0 <= i -> 4 * i < fw_size ->
    exists f' op', flash_func_read_word (4 * i) f = (image ws i, f') /\
      uf_session f' ws op' /\ (ws = [] -> op' = op);
  uf_prog : forall f ws w, uf_session f ws true -> 4 * Z.of_nat (length ws) < fw_size ->
    fits 32 w -> (ws = [] -> w = 0xffffffff) ->
    exists f', flash_func_read_word (4 * Z.of_nat (length ws))
                 (flash_func_write_word (4 * Z.of_nat (length ws)) w f) = (w, f') /\
      uf_session f' (ws ++ [w]) true;
  uf_commit : forall f ws op w, uf_session f ws op -> (uf_min <= length ws)%nat -> fits 32 w ->
    exists f', flash_func_read_word 0 (flash_func_write_word 0 w f) = (w, f') /\
      forall i, 0 <= i -> 4 * i < fw_size -> uf_stored f' i = image (w :: tl ws) i;
}.
