(* ===== verification/Bootloader.v ===== *)
(** * The bootloader protocol

    src/platforms/nuttx/src/bootloader/common/bl.c: the serial protocol through
    which firmware is uploaded, its receive ring buffer, its millisecond timers and
    the decision to jump to the application. *)

From S2P Require Import Prelude Crc BootIface.

Local Open Scope Z_scope.

(** ** The receive ring buffer ([buf_put], [buf_get]) *)
Module RingBuf.
Record ring := Ring { head : Z; tail : Z; rx_buf : list Z }.

Definition RX_SIZE : Z := 256.

Definition buf_put (b : Z) (r : ring) : ring :=
  let next := (head r + 1) mod RX_SIZE in
  if negb (next =? tail r)
  then Ring next (tail r) (<[Z.to_nat (head r) := b]> (rx_buf r))
  else r.

Definition buf_get (r : ring) : Z * ring :=
  if negb (tail r =? head r)
  then (zat (rx_buf r) (tail r), Ring (head r) ((tail r + 1) mod RX_SIZE) (rx_buf r))
  else (-1, r).

Definition ring_empty : ring := Ring 0 0 (replicate 256 0).
End RingBuf.

(** ** The command interpreter *)
Module Bl.

Definition PROTO_INSYNC : Z := 0x12.
Definition PROTO_EOC : Z := 0x20.
Definition PROTO_OK : Z := 0x10.
Definition PROTO_FAILED : Z := 0x11.
Definition PROTO_INVALID : Z := 0x13.
Definition PROTO_GET_SYNC : Z := 0x21.
Definition PROTO_GET_DEVICE : Z := 0x22.
Definition PROTO_CHIP_ERASE : Z := 0x23.
Definition PROTO_PROG_MULTI : Z := 0x27.
Definition PROTO_GET_CRC : Z := 0x29.
Definition PROTO_GET_OTP : Z := 0x2a.
Definition PROTO_GET_SN : Z := 0x2b.
Definition PROTO_GET_CHIP : Z := 0x2c.
Definition PROTO_SET_DELAY : Z := 0x2d.
Definition PROTO_GET_CHIP_DES : Z := 0x2e.
Definition PROTO_BOOT : Z := 0x30.
Definition PROTO_DEBUG : Z := 0x31.

Definition BL_PROTOCOL_VERSION : Z := 5.
Definition PROTO_DEVICE_BL_REV : Z := 1.
Definition PROTO_DEVICE_BOARD_ID : Z := 2.
Definition PROTO_DEVICE_BOARD_REV : Z := 3.
Definition PROTO_DEVICE_FW_SIZE : Z := 4.
Definition PROTO_DEVICE_VEC_AREA : Z := 5.

Definition STATE_PROTO_GET_SYNC : Z := 0x1.
Definition STATE_PROTO_GET_DEVICE : Z := 0x2.
Definition STATE_PROTO_CHIP_ERASE : Z := 0x4.
Definition STATE_PROTO_PROG_MULTI : Z := 0x8.
Definition STATE_PROTO_GET_CRC : Z := 0x10.
Definition STATE_PROTO_GET_SN : Z := 0x40.
Definition STATE_PROTO_GET_CHIP : Z := 0x80.
Definition STATE_PROTO_GET_CHIP_DES : Z := 0x100.
Definition STATE_ALLOWS_ERASE : Z := Z.lor STATE_PROTO_GET_SYNC STATE_PROTO_GET_DEVICE.
Definition STATE_ALLOWS_REBOOT : Z :=
  Z.lor (Z.lor STATE_ALLOWS_ERASE STATE_PROTO_PROG_MULTI) STATE_PROTO_GET_CRC.

Definition BOOT_DELAY_SIGNATURE1 : Z := 0x92c2ecff.
Definition BOOT_DELAY_SIGNATURE2 : Z := 0xc5057d5d.
Definition BOOT_DELAY_MAX : Z := 30.
Definition MAX_DES_LENGTH : Z := 20.

(** bl.h's [enum { NONE, USART, USB }]. *)
Definition NONE : Z := 0.
Definition USART : Z := 1.
Definition USB : Z := 2.

Definition TIMER_BL_WAIT : nat := 0.
Definition TIMER_CIN : nat := 1.
Definition TIMER_LED : nat := 2.
Definition TIMER_DELAY : nat := 3.

Definition USB0_DEV : Z := 0x01.
Definition SERIAL0_DEV : Z := 0x02.

Inductive led_state := LED_BLINK | LED_ON | LED_OFF.

(** One iteration of the polling loop of [cin_wait]: what the two ports return to
    it (a byte, or -1) and how many millisecond ticks the interrupt fires. *)
Record poll := Poll { p_usb : Z; p_uart : Z; p_ticks : nat }.

(** The static data of bl.c, the locals of [bootloader], the device and the two
    sides of the serial ports: the polls still to come and the bytes sent, each
    with the port it was sent on. *)
Record bl (F : Type) := mkBl {
  bl_type : Z;
  last_input : Z;
  timer : list Z;
  _led_state : led_state;
  led_bootloader : bool;
  led_activity : bool;
  cin_count : Z;
  crctab : list Z;
  flash_buffer : list Z;
  bl_state : Z;
  address : Z;
  first_word : Z;
  timeout : Z;
  flash : F;
  input : list poll;
  output : list (Z * Z);
}.

Arguments mkBl {F}.
Arguments bl_type {F} _.
Arguments last_input {F} _.
Arguments timer {F} _.
Arguments _led_state {F} _.
Arguments led_bootloader {F} _.
Arguments led_activity {F} _.
Arguments cin_count {F} _.
Arguments crctab {F} _.
Arguments flash_buffer {F} _.
Arguments bl_state {F} _.
Arguments address {F} _.
Arguments first_word {F} _.
Arguments timeout {F} _.
Arguments flash {F} _.
Arguments input {F} _.
Arguments output {F} _.

(** Assignments to one variable. *)
Definition set_bl_type {F} (v : Z) (s : bl F) : bl F :=
  mkBl v (last_input s) (timer s) (_led_state s) (led_bootloader s) (led_activity s)
       (cin_count s) (crctab s) (flash_buffer s) (bl_state s) (address s) (first_word s)
       (timeout s) (flash s) (input s) (output s).
Definition set_last_input {F} (v : Z) (s : bl F) : bl F :=
  mkBl (bl_type s) v (timer s) (_led_state s) (led_bootloader s) (led_activity s) (cin_count s)
       (crctab s) (flash_buffer s) (bl_state s) (address s) (first_word s) (timeout s)
       (flash s) (input s) (output s).
Definition set_timer {F} (v : list Z) (s : bl F) : bl F :=
  mkBl (bl_type s) (last_input s) v (_led_state s) (led_bootloader s) (led_activity s)
       (cin_count s) (crctab s) (flash_buffer s) (bl_state s) (address s) (first_word s)
       (timeout s) (flash s) (input s) (output s).
Definition set_led_state {F} (v : led_state) (s : bl F) : bl F :=
  mkBl (bl_type s) (last_input s) (timer s) v (led_bootloader s) (led_activity s) (cin_count s)
       (crctab s) (flash_buffer s) (bl_state s) (address s) (first_word s) (timeout s)
       (flash s) (input s) (output s).
Definition set_led_bootloader {F} (v : bool) (s : bl F) : bl F :=
  mkBl (bl_type s) (last_input s) (timer s) (_led_state s) v (led_activity s) (cin_count s)
       (crctab s) (flash_buffer s) (bl_state s) (address s) (first_word s) (timeout s)
       (flash s) (input s) (output s).
Definition set_led_activity {F} (v : bool) (s : bl F) : bl F :=
  mkBl (bl_type s) (last_input s) (timer s) (_led_state s) (led_bootloader s) v (cin_count s)
       (crctab s) (flash_buffer s) (bl_state s) (address s) (first_word s) (timeout s)
       (flash s) (input s) (output s).
Definition set_cin_count {F} (v : Z) (s : bl F) : bl F :=
  mkBl (bl_type s) (last_input s) (timer s) (_led_state s) (led_bootloader s) (led_activity s)
       v (crctab s) (flash_buffer s) (bl_state s) (address s) (first_word s) (timeout s)
       (flash s) (input s) (output s).
Definition set_crctab {F} (v : list Z) (s : bl F) : bl F :=
  mkBl (bl_type s) (last_input s) (timer s) (_led_state s) (led_bootloader s) (led_activity s)
       (cin_count s) v (flash_buffer s) (bl_state s) (address s) (first_word s) (timeout s)
       (flash s) (input s) (output s).
Definition set_flash_buffer {F} (v : list Z) (s : bl F) : bl F :=
  mkBl (bl_type s) (last_input s) (timer s) (_led_state s) (led_bootloader s) (led_activity s)
       (cin_count s) (crctab s) v (bl_state s) (address s) (first_word s) (timeout s) (flash s)
       (input s) (output s).
Definition set_bl_state {F} (v : Z) (s : bl F) : bl F :=
  mkBl (bl_type s) (last_input s) (timer s) (_led_state s) (led_bootloader s) (led_activity s)
       (cin_count s) (crctab s) (flash_buffer s) v (address s) (first_word s) (timeout s)
       (flash s) (input s) (output s).
Definition set_address {F} (v : Z) (s : bl F) : bl F :=
  mkBl (bl_type s) (last_input s) (timer s) (_led_state s) (led_bootloader s) (led_activity s)
       (cin_count s) (crctab s) (flash_buffer s) (bl_state s) v (first_word s) (timeout s)
       (flash s) (input s) (output s).
Definition set_first_word {F} (v : Z) (s : bl F) : bl F :=
  mkBl (bl_type s) (last_input s) (timer s) (_led_state s) (led_bootloader s) (led_activity s)
       (cin_count s) (crctab s) (flash_buffer s) (bl_state s) (address s) v (timeout s)
       (flash s) (input s) (output s).
Definition set_timeout {F} (v : Z) (s : bl F) : bl F :=
  mkBl (bl_type s) (last_input s) (timer s) (_led_state s) (led_bootloader s) (led_activity s)
       (cin_count s) (crctab s) (flash_buffer s) (bl_state s) (address s) (first_word s) v
       (flash s) (input s) (output s).
Definition set_flash {F} (v : F) (s : bl F) : bl F :=
  mkBl (bl_type s) (last_input s) (timer s) (_led_state s) (led_bootloader s) (led_activity s)
       (cin_count s) (crctab s) (flash_buffer s) (bl_state s) (address s) (first_word s)
       (timeout s) v (input s) (output s).
Definition set_input {F} (v : list poll) (s : bl F) : bl F :=
  mkBl (bl_type s) (last_input s) (timer s) (_led_state s) (led_bootloader s) (led_activity s)
       (cin_count s) (crctab s) (flash_buffer s) (bl_state s) (address s) (first_word s)
       (timeout s) (flash s) v (output s).
Definition set_output {F} (v : list (Z * Z)) (s : bl F) : bl F :=
  mkBl (bl_type s) (last_input s) (timer s) (_led_state s) (led_bootloader s) (led_activity s)
       (cin_count s) (crctab s) (flash_buffer s) (bl_state s) (address s) (first_word s)
       (timeout s) (flash s) (input s) v.

(** *** The command monad

    A handler either completes, or leaves through one of the labels of
    [bootloader]: [cmd_bad], [cmd_fail]; [Stalled] means the script of polls is
    used up while the code is waiting for input, [NoFuel] that a loop over the
    flash was cut short (shown not to happen in [fuel_enough]). *)
Inductive exc := CmdBad | CmdFail | Stalled | NoFuel.

Definition M (F A : Type) : Type := bl F -> (exc + A) * bl F.

#[export] Instance M_ret F : MRet (M F) := fun A a s => (inr a, s).
#[export] Instance M_bind F : MBind (M F) := fun A B k m s =>
  match m s with
  | (inr a, s') => k a s'
  | (inl e, s') => (inl e, s')
  end.

Definition throw {F A} (e : exc) : M F A := fun s => (inl e, s).
Definition modify {F} (f : bl F -> bl F) : M F unit := fun s => (inr tt, f s).
Definition gets {F A} (f : bl F -> A) : M F A := fun s => (inr (f s), s).

(** [if (c) { goto l; }] *)
Definition goto_if {F} (e : exc) (c : bool) : M F unit := if c then throw e else mret tt.

(** *** Timers and LEDs *)

Definition timer_at {F} (s : bl F) (i : nat) : Z := nth i (timer s) 0.
Definition set_timer_at {F} (i : nat) (v : Z) (s : bl F) : bl F :=
  set_timer (<[i := v]> (timer s)) s.

Definition sys_tick_handler {F} (s : bl F) : bl F :=
  let s := set_timer (map (fun t => if t >? 0 then t - 1 else t) (timer s)) s in
  match _led_state s with
  | LED_BLINK =>
    if timer_at s TIMER_LED =? 0
    then set_timer_at TIMER_LED 50 (set_led_bootloader (negb (led_bootloader s)) s)
    else s
  | _ => s
  end.

(** [delay] spins until the tick has counted TIMER_DELAY down: [msec] ticks. *)
Definition delay {F} (msec : nat) (s : bl F) : bl F :=
  Nat.iter msec sys_tick_handler (set_timer_at TIMER_DELAY (Z.of_nat msec) s).

Definition led_set {F} (state : led_state) (s : bl F) : bl F :=
  let s := set_led_state state s in
  match state with
  | LED_OFF => set_led_bootloader false s
  | LED_ON => set_led_bootloader true s
  | LED_BLINK => set_timer_at TIMER_LED 0 s
  end.

Section Commands.
Context {F : Type} {BD : Board} {FF : FlashFuncs F}.
Variable board_get_devices : Z.

(** *** Serial input and output *)

Definition cin (devices : Z) (p : poll) (s : bl F) : Z * bl F :=
  if ((bl_type s =? NONE) || (bl_type s =? USB)) && has_any devices USB0_DEV && (0 <=? p_usb p)
  then (p_usb p, set_last_input USB s)
  else if ((bl_type s =? NONE) || (bl_type s =? USART)) && has_any devices SERIAL0_DEV
          && (0 <=? p_uart p)
  then (p_uart p, set_last_input USART s)
  else (-1, s).

(** Bytes go out on the port the bootloader has settled on; before that they are dropped. *)
Definition cout (bs : list Z) (s : bl F) : bl F :=
  if (bl_type s =? USB) || (bl_type s =? USART)
  then set_output (output s ++ map (fun b => (bl_type s, b)) bs) s
  else s.

Definition sync_response : bl F -> bl F := cout [PROTO_INSYNC; PROTO_OK].
Definition invalid_response : bl F -> bl F := cout [PROTO_INSYNC; PROTO_INVALID].
Definition failure_response : bl F -> bl F := cout [PROTO_INSYNC; PROTO_FAILED].

(** The polling loop of [cin_wait]; the ticks of a poll fire before the timer test. *)
Fixpoint cin_loop (ps : list poll) (s : bl F) : (exc + Z) * bl F :=
  match ps with
  | [] => (inl Stalled, set_input [] s)
  | p :: ps =>
    let '(c, s) := cin board_get_devices p s in
    let s := Nat.iter (p_ticks p) sys_tick_handler s in
    if 0 <=? c then (inr c, set_input ps (set_cin_count (u32 (cin_count s + 1)) s))
    else if timer_at s TIMER_CIN >? 0 then cin_loop ps s
    else (inr c, set_input ps s)
  end.

Definition cin_wait (timeout : Z) : M F Z := fun s =>
  cin_loop (input s) (set_timer_at TIMER_CIN timeout s).

Definition wait_for_eoc (timeout : Z) : M F bool :=
  c ← cin_wait timeout; mret (c =? PROTO_EOC).

Definition expect_eoc (timeout : Z) : M F unit :=
  ok ← wait_for_eoc timeout; goto_if CmdBad (negb ok).

Definition cout_word (val : Z) : bl F -> bl F := cout (le_bytes 4 val).

(** The bytes of a word, least significant first; [None] when one of them times out. *)
Fixpoint cin_bytes (n : nat) (timeout : Z) : M F (option (list Z)) :=
  match n with
  | O => mret (Some [])
  | S n =>
    c ← cin_wait timeout;
    if c <? 0 then mret None
    else r ← cin_bytes n timeout; mret (cons (Z.land c 0xff) <$> r)
  end.

Definition cin_word (timeout : Z) : M F (option Z) :=
  r ← cin_bytes 4 timeout; mret (le_value <$> r).

(** *** Flash access *)

Definition read_word (a : Z) : M F Z := fun s =>
  let '(w, f) := flash_func_read_word a (flash s) in (inr w, set_flash f s).

Definition write_word (a w : Z) : M F unit :=
  modify (fun s => set_flash (flash_func_write_word a w (flash s)) s).

Definition SET_BL_STATE (m : Z) : bl F -> bl F := fun s => set_bl_state (Z.lor (bl_state s) m) s.

Definition crc32_word (w : Z) (sum : Z) : M F Z := fun s =>
  let '(sum, tab) := Crc.crc32 (crctab s) (le_bytes 4 w) sum in (inr sum, set_crctab tab s).

(** How a handler that does not jump to a label ends: [break] (a sync response
    follows), [continue] (unknown command) or [return]. *)
Inductive outcome := Break | Continue | Return.

(** *** The handlers, one per case of the switch *)

Definition cmd_get_sync : M F outcome :=
  expect_eoc 2 ;; modify (SET_BL_STATE STATE_PROTO_GET_SYNC) ;; mret Break.

(** PROTO_DEVICE_VEC_AREA: [for (p = 7; p <= 10; p++)]. *)
Fixpoint cout_vectors (ps : list Z) : M F unit :=
  match ps with
  | [] => mret tt
  | p :: ps => w ← read_word (p * 4); modify (cout_word w) ;; cout_vectors ps
  end.

Definition cmd_get_device : M F outcome :=
  arg ← cin_wait 1000;
  goto_if CmdBad (arg <? 0) ;;
  expect_eoc 2 ;;
  (if arg =? PROTO_DEVICE_BL_REV then modify (cout_word BL_PROTOCOL_VERSION)
   else if arg =? PROTO_DEVICE_BOARD_ID then modify (cout_word BOARD_TYPE)
   else if arg =? PROTO_DEVICE_BOARD_REV then modify (cout_word board_rev)
   else if arg =? PROTO_DEVICE_FW_SIZE then modify (cout_word fw_size)
   else if arg =? PROTO_DEVICE_VEC_AREA then cout_vectors [7; 8; 9; 10]
   else throw CmdBad) ;;
  modify (SET_BL_STATE STATE_PROTO_GET_DEVICE) ;; mret Break.

(** Iterations of a loop over the application area in steps of one word. *)
Definition fw_fuel : nat := Z.to_nat (fw_size / 4 + 2).

(** [for (address = 0; address < fw_size; address += 4) if (read != blank) goto cmd_fail]. *)
Fixpoint verify_erase (fuel : nat) : M F unit :=
  match fuel with
  | O => throw NoFuel
  | S fuel =>
    a ← gets address;
    if a <? fw_size then
      w ← read_word a;
      goto_if CmdFail (negb (w =? 0xffffffff)) ;;
      modify (set_address (u32 (a + 4))) ;; verify_erase fuel
    else mret tt
  end.

Definition cmd_chip_erase : M F outcome :=
  expect_eoc 2 ;;
  st ← gets bl_state;
  goto_if CmdBad (negb (has_all st STATE_ALLOWS_ERASE)) ;;
  modify (led_set LED_ON) ;;
  modify (fun s => set_flash (arch_flash_unlock (flash s)) s) ;;
  modify (fun s => set_flash (erase_sectors erase_fuel 0 (flash s)) s) ;;
  modify (led_set LED_OFF) ;;
  modify (set_address 0) ;;
  verify_erase fw_fuel ;;
  modify (set_address 0) ;;
  modify (SET_BL_STATE STATE_PROTO_CHIP_ERASE) ;;
  modify (led_set LED_BLINK) ;; mret Break.

(** [for (i = 0; i < arg; i++) { c = cin_wait(1000); ...; flash_buffer.c[i] = c; }] *)
Fixpoint fill_buffer (n : nat) (i : nat) : M F unit :=
  match n with
  | O => mret tt
  | S n =>
    c ← cin_wait 1000;
    goto_if CmdBad (c <? 0) ;;
    modify (fun s => set_flash_buffer (<[i := u8 c]> (flash_buffer s)) s) ;;
    fill_buffer n (S i)
  end.

(** [flash_buffer.w[i]] and its assignment, through the union with the bytes. *)
Definition buffer_word (s : bl F) (i : nat) : Z :=
  le_value (take 4 (drop (4 * i) (flash_buffer s))).

Definition set_buffer_word0 (w : Z) (s : bl F) : bl F :=
  set_flash_buffer (le_bytes 4 w ++ drop 4 (flash_buffer s)) s.

(** [for (i = 0; i < arg; i++) { write; read back; address += 4; }] *)
Fixpoint program_words (n : nat) (i : nat) : M F unit :=
  match n with
  | O => mret tt
  | S n =>
    a ← gets address;
    w ← gets (fun s => buffer_word s i);
    write_word a w ;;
    r ← read_word a;
    goto_if CmdFail (negb (r =? w)) ;;
    modify (set_address (u32 (a + 4))) ;;
    program_words n (S i)
  end.

Definition cmd_prog_multi : M F outcome :=
  arg ← cin_wait 50;
  goto_if CmdBad (arg <? 0) ;;
  goto_if CmdBad (negb (Z.rem arg 4 =? 0)) ;;
  a ← gets address;
  goto_if CmdBad (u32 (a + arg) >? fw_size) ;;
  goto_if CmdBad (arg >? 256) ;;
  fill_buffer (Z.to_nat arg) 0 ;;
  expect_eoc 200 ;;
  (if a =? 0 then
     (* the first word is kept back until everything else is done *)
     w ← gets (fun s => buffer_word s 0);
     modify (set_first_word w) ;;
     modify (set_buffer_word0 0xffffffff)
   else mret tt) ;;
  program_words (Z.to_nat (arg / 4)) 0 ;;
  modify (SET_BL_STATE STATE_PROTO_PROG_MULTI) ;; mret Break.

(** [for (p = 0; p < fw_size; p += 4)], the deferred first word standing in for word 0. *)
Fixpoint crc_loop (fuel : nat) (p sum : Z) : M F Z :=
  match fuel with
  | O => throw NoFuel
  | S fuel =>
    if p <? fw_size then
      fw ← gets first_word;
      bytes ← (if (p =? 0) && negb (fw =? 0xffffffff) then mret fw else read_word p);
      sum ← crc32_word bytes sum;
      crc_loop fuel (u32 (p + 4)) sum
    else mret sum
  end.

Definition cmd_get_crc : M F outcome :=
  expect_eoc 2 ;;
  sum ← crc_loop fw_fuel 0 0;
  modify (cout_word sum) ;;
  modify (SET_BL_STATE STATE_PROTO_GET_CRC) ;; mret Break.

Definition expect_word (timeout : Z) : M F Z :=
  r ← cin_word timeout;
  match r with Some w => mret w | None => throw CmdBad end.

Definition cmd_get_otp : M F outcome :=
  index ← expect_word 100;
  expect_eoc 2 ;;
  modify (fun s => cout_word (flash_func_read_otp index (flash s)) s) ;; mret Break.

Definition cmd_get_sn : M F outcome :=
  index ← expect_word 100;
  expect_eoc 2 ;;
  goto_if CmdBad (negb (index mod 4 =? 0) || (index >? u32 (ARCH_SN_MAX_LENGTH - 4))) ;;
  modify (fun s => cout_word (flash_func_read_sn index (flash s)) s) ;;
  modify (SET_BL_STATE STATE_PROTO_GET_SN) ;; mret Break.

Definition cmd_get_chip : M F outcome :=
  expect_eoc 2 ;;
  modify (fun s => cout_word (get_mcu_id (flash s)) s) ;;
  modify (SET_BL_STATE STATE_PROTO_GET_CHIP) ;; mret Break.

Definition cmd_get_chip_des : M F outcome :=
  expect_eoc 2 ;;
  buffer ← gets (fun s => get_mcu_desc MAX_DES_LENGTH (flash s));
  modify (cout_word (Z.of_nat (length buffer))) ;;
  modify (cout buffer) ;;
  modify (SET_BL_STATE STATE_PROTO_GET_CHIP_DES) ;; mret Break.

Definition cmd_set_delay : M F outcome :=
  v ← cin_wait 100;
  goto_if CmdBad (v <? 0) ;;
  let boot_delay := Z.land v 0xff in
  goto_if CmdBad (boot_delay >? BOOT_DELAY_MAX) ;;
  expect_eoc 2 ;;
  sig1 ← read_word BOOT_DELAY_ADDRESS;
  sig2 ← read_word (BOOT_DELAY_ADDRESS + 4);
  goto_if CmdBad (negb (sig1 =? BOOT_DELAY_SIGNATURE1) || negb (sig2 =? BOOT_DELAY_SIGNATURE2)) ;;
  let value := Z.lor (Z.land BOOT_DELAY_SIGNATURE1 0xffffff00) boot_delay in
  write_word BOOT_DELAY_ADDRESS value ;;
  r ← read_word BOOT_DELAY_ADDRESS;
  goto_if CmdFail (negb (r =? value)) ;; mret Break.

Definition cmd_boot : M F outcome :=
  expect_eoc 1000 ;;
  fw ← gets first_word;
  st ← gets bl_state;
  goto_if CmdBad (negb (fw =? 0xffffffff) && negb (has_all st STATE_ALLOWS_REBOOT)) ;;
  (if negb (fw =? 0xffffffff) then
     write_word 0 fw ;;
     r ← read_word 0;
     goto_if CmdFail (negb (r =? fw)) ;;
     modify (set_first_word 0xffffffff)
   else mret tt) ;;
  modify sync_response ;;
  modify (delay 100) ;; mret Return.

Definition command (c : Z) : M F outcome :=
  if c =? PROTO_GET_SYNC then cmd_get_sync
  else if c =? PROTO_GET_DEVICE then cmd_get_device
  else if c =? PROTO_CHIP_ERASE then cmd_chip_erase
  else if c =? PROTO_PROG_MULTI then cmd_prog_multi
  else if c =? PROTO_GET_CRC then cmd_get_crc
  else if c =? PROTO_GET_OTP then cmd_get_otp
  else if c =? PROTO_GET_SN then cmd_get_sn
  else if c =? PROTO_GET_CHIP then cmd_get_chip
  else if c =? PROTO_GET_CHIP_DES then cmd_get_chip_des
  else if c =? PROTO_SET_DELAY then cmd_set_delay
  else if c =? PROTO_BOOT then cmd_boot
  else if c =? PROTO_DEBUG then mret Break
  else mret Continue.

(** *** The main loop *)

Inductive step_result := Next (s : bl F) | Returned (s : bl F) | Waiting (s : bl F).

(** [do { if (timeout && !timer[TIMER_BL_WAIT]) return; c = cin_wait(0); } while (c < 0)];
    every pass uses up at least one poll. *)
Fixpoint wait_command (fuel : nat) (s : bl F) : step_result + Z * bl F :=
  match fuel with
  | O => inl (Waiting s)
  | S fuel =>
    if negb (timeout s =? 0) && (timer_at s TIMER_BL_WAIT =? 0) then inl (Returned s)
    else
      match cin_wait 0 s with
      | (inr c, s) => if c <? 0 then wait_command fuel s else inr (c, s)
      | (inl _, s) => inl (Waiting s)
      end
  end.

(** The end of the loop body: the code after the switch and the labels. *)
Definition finish (r : (exc + outcome) * bl F) : step_result :=
  match r with
  | (inr Break, s) =>
    let s := set_timeout 0 s in
    let s := if bl_type s =? NONE then set_bl_type (last_input s) s else s in
    Next (sync_response s)
  | (inr Continue, s) => Next s
  | (inr Return, s) => Returned s
  | (inl CmdBad, s) => Next (set_bl_state 0 (invalid_response s))
  | (inl CmdFail, s) => Next (failure_response s)
  | (inl Stalled, s) | (inl NoFuel, s) => Waiting s
  end.

(** One pass of [while (true)]. *)
Definition bl_step (s : bl F) : step_result :=
  let s := set_led_activity false s in
  match wait_command (S (length (input s))) s with
  | inl r => r
  | inr (c, s) => finish (command c (set_led_activity true s))
  end.

(** Every pass uses up input, so the length of the script bounds the passes. *)
Fixpoint bl_loop (fuel : nat) (s : bl F) : step_result :=
  match fuel with
  | O => Waiting s
  | S fuel => match bl_step s with Next s => bl_loop fuel s | r => r end
  end.

Definition bl_start (timeout : Z) (s : bl F) : bl F :=
  let s := set_bl_type NONE s in
  let s := set_bl_state 0 s in
  let s := set_address fw_size s in
  let s := set_first_word 0xffffffff s in
  let s := set_timeout timeout s in
  let s := if negb (timeout =? 0) then set_timer_at TIMER_BL_WAIT timeout s else s in
  led_set LED_BLINK s.

Definition bootloader (timeout : Z) (s : bl F) : step_result :=
  let s := bl_start timeout s in bl_loop (S (length (input s))) s.

(** *** jump_to_app (boards without a table of contents)

    [Some (vec_base, app_base)] when the application is started. *)
Definition jump_to_app (load : Z -> Z) : option (Z * Z) :=
  let app_base := APP_LOAD_ADDRESS in
  let vec_base := app_base in
  if load app_base =? 0xffffffff then None
  else if load (app_base + 4) <? APP_LOAD_ADDRESS then None
  else if load (app_base + 4) >=? u32 (APP_LOAD_ADDRESS + fw_size) then None
  else Some (vec_base, app_base).

End Commands.
End Bl.
