(* ===== verification/BootSafety.v ===== *)
(** * Safety of the bootloader protocol

    A Hoare logic for the command monad of [Bootloader], the write discipline of the
    commands (nothing outside the application area, the first word held back until
    the host has synchronised, identified the board, programmed and checked the
    image), termination of the loops, and the FIFO behaviour of the ring buffer. *)

From S2P Require Import Prelude Crc BootIface Bootloader.

Local Open Scope Z_scope.

(** ** The receive ring buffer is a FIFO of capacity 255 *)
Module RingBufSpec.
Import RingBuf.

Definition ring_ok (r : ring) : Prop :=
  0 <= head r < RX_SIZE /\ 0 <= tail r < RX_SIZE /\ length (rx_buf r) = 256%nat.

Definition ring_len (r : ring) : Z := (head r - tail r) mod RX_SIZE.

(** The bytes between tail and head, oldest first. *)
Definition contents (r : ring) : list Z :=
  map (fun k => zat (rx_buf r) ((tail r + Z.of_nat k) mod RX_SIZE))
      (seq 0 (Z.to_nat (ring_len r))).

Lemma ring_len_bound r : 0 <= ring_len r < RX_SIZE.
Proof. apply Z.mod_pos_bound. done. Qed.

Lemma contents_length r : Z.of_nat (length (contents r)) = ring_len r.
Proof. unfold contents. rewrite length_map, length_seq. pose proof (ring_len_bound r). lia. Qed.

Lemma ring_len_put h t : 0 <= h < 256 -> 0 <= t < 256 -> (h + 1) mod 256 <> t ->
  ((h + 1) mod 256 - t) mod 256 = (h - t) mod 256 + 1.
Proof. intros. Z.div_mod_to_equations. lia. Qed.

Lemma ring_len_full h t : 0 <= h < 256 -> 0 <= t < 256 ->
  (h + 1) mod 256 = t <-> (h - t) mod 256 = 255.
Proof. intros. Z.div_mod_to_equations. lia. Qed.

Lemma contents_put r b : ring_ok r -> (head r + 1) mod RX_SIZE <> tail r ->
  contents (buf_put b r) = contents r ++ [b].
Proof.
  intros (Hh & Ht & Hl) Hne. unfold buf_put. rewrite (proj2 (Z.eqb_neq _ _)) by done. cbn [negb].
  pose proof (ring_len_bound r) as Hb. unfold contents, ring_len in *. cbn [head tail rx_buf].
  rewrite ring_len_put by done. unfold RX_SIZE in *.
  replace (Z.to_nat ((head r - tail r) mod 256 + 1))
    with (Z.to_nat ((head r - tail r) mod 256) + 1)%nat by lia.
  rewrite seq_app, map_app. cbn [seq map]. f_equal.
  - apply map_ext_in. intros k Hk%in_seq. rewrite zat_insert by (Z.div_mod_to_equations; lia).
    rewrite (proj2 (Z.eqb_neq _ _)); [done|]. rewrite Z2Nat.id by lia.
    Z.div_mod_to_equations. lia.
  - f_equal. rewrite zat_insert by (Z.div_mod_to_equations; lia).
    rewrite (proj2 (Z.eqb_eq _ _)); [done|]. rewrite Z2Nat.id by lia.
    Z.div_mod_to_equations. lia.
Qed.

Lemma contents_get r : ring_ok r -> tail r <> head r ->
  contents r = fst (buf_get r) :: contents (snd (buf_get r)).
Proof.
  intros (Hh & Ht & Hl) Hne. unfold buf_get. rewrite (proj2 (Z.eqb_neq _ _)) by done.
  cbn [negb fst snd]. unfold contents, ring_len, RX_SIZE in *. cbn [head tail rx_buf].
  replace (Z.to_nat ((head r - tail r) mod 256))
    with (S (Z.to_nat ((head r - (tail r + 1) mod 256) mod 256)))
    by (Z.div_mod_to_equations; lia).
  cbn [seq map]. f_equal; [f_equal; Z.div_mod_to_equations; lia|].
  rewrite <- seq_shift, map_map. apply map_ext. intros k. f_equal.
  Z.div_mod_to_equations. lia.
Qed.

Lemma buf_put_ok r b : ring_ok r -> ring_ok (buf_put b r).
Proof.
  intros Hr. unfold buf_put. destruct (negb _); [|done]. destruct Hr as (Hh & Ht & Hl).
  split; [by apply Z.mod_pos_bound|]. split; [done|]. cbn [rx_buf]. by rewrite length_insert.
Qed.

Lemma buf_get_ok r : ring_ok r -> ring_ok (snd (buf_get r)).
Proof.
  intros Hr. unfold buf_get. destruct (negb _); [|done]. destruct Hr as (Hh & Ht & Hl).
  split; [done|]. split; [by apply Z.mod_pos_bound|done].
Qed.

(** The receive ring buffer refines a FIFO of capacity 255:
    [buf_put] appends a byte, or drops it when 255 bytes are waiting; [buf_get]
    removes the oldest byte, or returns -1 when none is waiting; both keep the
    indices inside the buffer. *)
Theorem ring_buffer_fifo r b : ring_ok r ->
  ring_ok (buf_put b r) /\ ring_ok (snd (buf_get r)) /\
  contents (buf_put b r) =
    (if (length (contents r) <? 255)%nat then contents r ++ [b] else contents r) /\
  (fst (buf_get r), contents (snd (buf_get r))) =
    match contents r with [] => (-1, []) | c :: cs => (c, cs) end.
Proof.
  intros Hr. pose proof Hr as (Hh & Ht & Hl). pose proof (contents_length r) as Hlen.
  pose proof (ring_len_full (head r) (tail r) Hh Ht) as Hfull.
  split; [by apply buf_put_ok|]. split; [by apply buf_get_ok|]. split.
  - destruct (decide ((head r + 1) mod RX_SIZE = tail r)) as [Hf|Hf].
    + rewrite (proj2 (Nat.ltb_ge _ _)); [unfold buf_put; by rewrite Hf, Z.eqb_refl|].
      apply Hfull in Hf. unfold ring_len, RX_SIZE in Hlen. lia.
    + assert (Hlt : (length (contents r) < 255)%nat).
      { pose proof (ring_len_bound r). unfold ring_len, RX_SIZE in *.
        assert ((head r - tail r) mod 256 <> 255) by (intros E; by apply Hf, Hfull). lia. }
      rewrite (proj2 (Nat.ltb_lt _ _)) by done. by apply contents_put.
  - destruct (decide (tail r = head r)) as [He|He].
    + assert (contents r = []) as Hc.
      { apply length_zero_iff_nil. unfold ring_len in Hlen. rewrite He, Z.sub_diag in Hlen.
        rewrite Z.mod_0_l in Hlen by done. lia. }
      unfold buf_get. rewrite He, Z.eqb_refl. cbn [negb fst snd]. by rewrite Hc.
    + rewrite (contents_get r Hr He). by destruct (buf_get r).
Qed.

Lemma ring_buffer_fifo_witness :
  contents (buf_put 7 ring_empty) = [7] /\
  fst (buf_get (buf_put 7 ring_empty)) = 7.
Proof.
  assert (H0 : ring_ok ring_empty) by (repeat split; vm_compute; congruence).
  destruct (ring_buffer_fifo ring_empty 7 H0) as (H1 & _ & Hc & _).
  destruct (ring_buffer_fifo (buf_put 7 ring_empty) 8 H1) as (_ & _ & _ & Hg).
  assert (H7 : contents (buf_put 7 ring_empty) = [7]) by (rewrite Hc; reflexivity).
  rewrite H7 in Hg. split; [exact H7|exact (f_equal fst Hg)].
Defined.
End RingBufSpec.

(** ** A Hoare logic for the command monad *)
Module BlLogic.
Import Bl.

Section Logic.
Context {F : Type}.

(** From [P], [m] ends normally in [Q] or through a label in [E]. *)
Definition hoare {A} (P : bl F -> Prop) (m : M F A)
    (Q : A -> bl F -> Prop) (E : exc -> bl F -> Prop) : Prop :=
  forall s, P s -> match m s with (inr a, s') => Q a s' | (inl e, s') => E e s' end.

Lemma hoare_ret {A} (a : A) (P : bl F -> Prop) Q E :
  (forall s, P s -> Q a s) -> hoare P (mret a) Q E.
Proof. intros H s Hs. by apply H. Qed.

Lemma hoare_throw {A} e (P : bl F -> Prop) (Q : A -> bl F -> Prop) (E : exc -> bl F -> Prop) :
  (forall s, P s -> E e s) -> hoare P (throw e) Q E.
Proof. intros H s Hs. by apply H. Qed.

Lemma hoare_bind {A B} (m : M F A) (k : A -> M F B) P R Q E :
  hoare P m R E -> (forall a, hoare (R a) (k a) Q E) -> hoare P (m ≫= k) Q E.
Proof.
  intros Hm Hk s Hs. unfold mbind, M_bind. specialize (Hm s Hs).
  destruct (m s) as [[e|a] s']; [done|]. by apply Hk.
Qed.

Lemma hoare_bind_inv {A B} (m : M F A) (k : A -> M F B) (I : bl F -> Prop) Q E :
  hoare I m (fun _ => I) E -> (forall a, hoare I (k a) Q E) -> hoare I (m ≫= k) Q E.
Proof. apply hoare_bind. Qed.

Lemma hoare_bind_val {A B} (m : M F A) (k : A -> M F B) b P (R : bl F -> Prop) Q E :
  hoare P m (fun c s => c = b /\ R s) E -> hoare R (k b) Q E -> hoare P (m ≫= k) Q E.
Proof.
  intros Hm Hk. eapply hoare_bind; [exact Hm|]. intros c s [-> Hs]. by apply Hk.
Qed.

Lemma hoare_modify f (P : bl F -> Prop) (Q : unit -> bl F -> Prop) E :
  (forall s, P s -> Q tt (f s)) -> hoare P (modify f) Q E.
Proof. intros H s Hs. by apply H. Qed.

Lemma hoare_gets {A} (f : bl F -> A) (P : bl F -> Prop) Q E :
  (forall s, P s -> Q (f s) s) -> hoare P (gets f) Q E.
Proof. intros H s Hs. by apply H. Qed.

Lemma hoare_goto_if e c (P : bl F -> Prop) (Q : unit -> bl F -> Prop) (E : exc -> bl F -> Prop) :
  (c = true -> forall s, P s -> E e s) -> (c = false -> forall s, P s -> Q tt s) ->
  hoare P (goto_if e c) Q E.
Proof. intros H1 H2. destruct c; intros s Hs; [by apply H1|by apply H2]. Qed.

Lemma hoare_pre {A} (m : M F A) (P P' : bl F -> Prop) Q E :
  hoare P m Q E -> (forall s, P' s -> P s) -> hoare P' m Q E.
Proof. intros H HP s Hs. by apply H, HP. Qed.

Lemma hoare_post {A} (m : M F A) P (Q Q' : A -> bl F -> Prop) E :
  hoare P m Q E -> (forall a s, Q a s -> Q' a s) -> hoare P m Q' E.
Proof.
  intros H HQ s Hs. specialize (H s Hs). destruct (m s) as [[e|a] s']; auto.
Qed.
Lemma hoare_and {A} (m : M F A) P1 P2 (Q1 Q2 : A -> bl F -> Prop) (E1 E2 : exc -> bl F -> Prop) :
  hoare P1 m Q1 E1 -> hoare P2 m Q2 E2 ->
  hoare (fun s => P1 s /\ P2 s) m (fun a s => Q1 a s /\ Q2 a s) (fun e s => E1 e s /\ E2 e s).
Proof.
  intros H1 H2 s [Hs1 Hs2]. specialize (H1 s Hs1). specialize (H2 s Hs2).
  by destruct (m s) as [[e|a] s'].
Qed.

Lemma hoare_exc {A} (m : M F A) P Q (E E' : exc -> bl F -> Prop) :
  hoare P m Q E -> (forall e s, E e s -> E' e s) -> hoare P m Q E'.
Proof.
  intros H HE s Hs. specialize (H s Hs). destruct (m s) as [[e|a] s']; auto.
Qed.
End Logic.

(** The part of the state that serial input and output leave alone. *)
Definition core {F} (s : bl F) : Z * Z * Z * list Z * F :=
  (bl_state s, address s, first_word s, flash_buffer s, flash s).

Section Frame.
Context {F : Type} {BD : Board} {FF : FlashFuncs F} (devices : Z).

Lemma core_tick n (s : bl F) : core (Nat.iter n sys_tick_handler s) = core s.
Proof.
  induction n as [|n IH]; [done|]. change (Nat.iter (S n) ?f s) with (f (Nat.iter n f s)).
  rewrite <- IH. generalize (Nat.iter n sys_tick_handler s). intros t.
  unfold sys_tick_handler. cbv zeta.
  destruct (_led_state _); [destruct (_ =? 0)|..]; done.
Qed.

Lemma core_cin p (s : bl F) : core (snd (cin devices p s)) = core s.
Proof. unfold cin. by repeat case_match. Qed.

Lemma core_cin_loop ps (s : bl F) : core (snd (cin_loop devices ps s)) = core s.
Proof.
  revert s. induction ps as [|p ps IH]; intros s; [done|]. cbn [cin_loop].
  pose proof (core_cin p s) as Hc. destruct (cin devices p s) as [c s1]. cbn [snd] in Hc.
  rewrite <- Hc, <- (core_tick (p_ticks p) s1).
  generalize (Nat.iter (p_ticks p) sys_tick_handler s1). intros s2.
  destruct (0 <=? c); [done|]. destruct (_ >? 0); [apply IH|done].
Qed.

Lemma core_cin_wait t (s : bl F) : core (snd (cin_wait devices t s)) = core s.
Proof. unfold cin_wait. by rewrite core_cin_loop. Qed.

Lemma cin_wait_err t (s : bl F) e s' : cin_wait devices t s = (inl e, s') -> e = Stalled.
Proof.
  unfold cin_wait. generalize (input s). intros ps. revert s'.
  generalize (set_timer_at TIMER_CIN t s). clear s. induction ps as [|p ps IH]; intros s s';
    cbn [cin_loop]; [congruence|].
  destruct (cin devices p s) as [c s1]. destruct (0 <=? c); [congruence|].
  destruct (_ >? 0); [apply IH|congruence].
Qed.

Lemma core_cout bs (s : bl F) : core (cout bs s) = core s.
Proof. unfold cout. by destruct (_ || _). Qed.

Lemma core_led st (s : bl F) : core (led_set st s) = core s.
Proof. by destruct st. Qed.

Lemma core_delay n (s : bl F) : core (delay n s) = core s.
Proof. unfold delay. by rewrite core_tick. Qed.

Context (I : bl F -> Prop) (E : exc -> bl F -> Prop).
Hypothesis I_frame : forall s s', core s = core s' -> I s -> I s'.
Hypothesis I_bad : forall s, I s -> E CmdBad s.
Hypothesis I_stall : forall s, I s -> E Stalled s.

Lemma hoare_cin_wait t : hoare I (cin_wait devices t) (fun _ => I) E.
Proof.
  intros s Hs. pose proof (core_cin_wait t s) as Hc. pose proof (cin_wait_err t s) as He.
  destruct (cin_wait devices t s) as [[e|a] s'].
  - rewrite (He e s') by done. eapply I_stall, I_frame; [|exact Hs]. done.
  - by eapply I_frame; [|exact Hs].
Qed.

Lemma hoare_expect_eoc t : hoare I (expect_eoc devices t) (fun _ => I) E.
Proof.
  unfold expect_eoc, wait_for_eoc. apply hoare_bind_inv.
  - apply hoare_bind_inv; [apply hoare_cin_wait|]. intros c. by apply hoare_ret.
  - intros ok. apply hoare_goto_if; auto.
Qed.

Lemma hoare_frame_modify f : (forall s, core (f s) = core s) ->
  hoare I (modify f) (fun _ => I) E.
Proof. intros Hf. apply hoare_modify. intros s. by apply I_frame. Qed.

Lemma hoare_cin_bytes n t : hoare I (cin_bytes devices n t) (fun _ => I) E.
Proof.
  induction n as [|n IH]; cbn [cin_bytes]; [by apply hoare_ret|].
  eapply hoare_bind; [apply hoare_cin_wait|]. intros c.
  destruct (c <? 0); [by apply hoare_ret|].
  eapply hoare_bind; [apply IH|]. intros r. by apply hoare_ret.
Qed.

Lemma hoare_expect_word t : hoare I (expect_word devices t) (fun _ => I) E.
Proof.
  unfold expect_word, cin_word. apply hoare_bind_inv.
  - apply hoare_bind_inv; [apply hoare_cin_bytes|]. intros r. by apply hoare_ret.
  - intros [w|]; [by apply hoare_ret|by apply hoare_throw].
Qed.
End Frame.
End BlLogic.

(** ** The write discipline *)
Module BlSafety.
Import Bl BlLogic.

Section Safety.
Context {F : Type} {BD : Board} {FF : FlashFuncs F} (devices : Z).

(** [board_info.fw_size] is a multiple of the word size and far from 2^32. *)
Definition fw_ok : Prop := 0 <= fw_size /\ fw_size mod 4 = 0 /\ fw_size + 260 <= 2 ^ 32.

(** The boot-delay signature of a board lies in its application area, past the first word. *)
Definition delay_ok : Prop :=
  0 < BOOT_DELAY_ADDRESS /\ BOOT_DELAY_ADDRESS mod 4 = 0 /\ BOOT_DELAY_ADDRESS + 8 <= fw_size.

(** The words a command other than an accepted BOOT may program: inside the
    application area, and the first word only as 0xffffffff. *)
Definition legal_write (a w : Z) : Prop :=
  0 <= a /\ a mod 4 = 0 /\ a + 4 <= fw_size /\ (a = 0 -> w = 0xffffffff).

(** A property of the device that reads, erasing the sectors of the application area
    and legal writes preserve. *)
Record closed (P : F -> Prop) : Prop := {
  closed_read : forall a f, P f -> P (snd (flash_func_read_word a f));
  closed_unlock : forall f, P f -> P (arch_flash_unlock f);
  closed_erase : forall i f, 0 <= i -> flash_func_sector_size i <> 0 ->
    P f -> P (flash_func_erase_sector i f);
  closed_write : forall a w f, legal_write a w -> P f -> P (flash_func_write_word a w f);
}.

Context (Hfw : fw_ok) (P : F -> Prop) (HP : closed P).
Context (HPdelay : forall w f, P f -> P (flash_func_write_word BOOT_DELAY_ADDRESS w f)).

Definition addr_ok (a : Z) : Prop := 0 <= a <= fw_size /\ a mod 4 = 0.

Definition safe (s : bl F) : Prop :=
  addr_ok (address s) /\ length (flash_buffer s) = 256%nat /\ P (flash s).

Definition safe_exc (e : exc) (s : bl F) : Prop := safe s /\ e <> NoFuel.

Lemma safe_frame s s' : core s = core s' -> safe s -> safe s'.
Proof. unfold core, safe. intros E. injection E as _ E1 _ E2 E3. by rewrite E1, E2, E3. Qed.

Lemma safe_stop e s : e <> NoFuel -> safe s -> safe_exc e s.
Proof. done. Qed.

Hint Resolve safe_frame safe_stop : px4.

Abbreviation keeps m := (hoare safe m (fun _ => safe) safe_exc).

Lemma keeps_cin_wait t : keeps (cin_wait devices t).
Proof. apply hoare_cin_wait; [exact safe_frame|intros; by apply safe_stop]. Qed.

Lemma keeps_eoc t : keeps (expect_eoc devices t).
Proof. apply hoare_expect_eoc; [exact safe_frame|intros; by apply safe_stop..]. Qed.

Lemma keeps_word t : keeps (expect_word devices t).
Proof. apply hoare_expect_word; [exact safe_frame|intros; by apply safe_stop..]. Qed.

Lemma keeps_modify f : (forall s, core (f s) = core s) -> keeps (modify f).
Proof. apply hoare_frame_modify. exact safe_frame. Qed.

Lemma keeps_goto e c : e <> NoFuel -> keeps (goto_if e c).
Proof. intros. by apply hoare_goto_if. Qed.

Lemma keeps_bits m : keeps (modify (SET_BL_STATE m)).
Proof. by apply hoare_modify. Qed.

Lemma keeps_flash g : (forall f, P f -> P (g f)) ->
  keeps (modify (fun s => set_flash (g (flash s)) s)).
Proof.
  intros Hg. apply hoare_modify. intros s (Ha & Hb & Hp).
  split; [exact Ha|]. split; [exact Hb|]. by apply Hg.
Qed.

Lemma keeps_read a : keeps (read_word a).
Proof.
  intros s (Ha & Hb & Hp). unfold read_word.
  pose proof (closed_read P HP a (flash s) Hp). by destruct (flash_func_read_word a (flash s)).
Qed.

Lemma keeps_gets {A} (f : bl F -> A) : keeps (gets f).
Proof. by apply hoare_gets. Qed.

Lemma erase_sectors_closed fuel i f : 0 <= i -> P f -> P (erase_sectors fuel i f).
Proof.
  revert i f. induction fuel as [|fuel IH]; intros i f Hi Hf; [done|]. cbn [erase_sectors].
  destruct (Z.eqb_spec (flash_func_sector_size i) 0); [done|].
  apply IH; [lia|]. by apply (closed_erase P HP).
Qed.

Lemma keeps_ret {A} (a : A) : keeps (mret a).
Proof. by apply hoare_ret. Qed.

Lemma keeps_throw {A} e : e <> NoFuel -> hoare safe (throw (A := A) e) (fun _ => safe) safe_exc.
Proof. intros. by apply hoare_throw. Qed.
(** Walks down a handler whose statements keep [safe]. *)
Ltac keeps_step :=
  first
    [ apply keeps_ret | apply keeps_cin_wait | apply keeps_eoc | apply keeps_word
    | apply keeps_bits | apply keeps_read | apply keeps_gets
    | apply keeps_goto; discriminate | apply keeps_throw; discriminate
    | apply keeps_modify; intros ?; first [apply core_cout | apply core_led | apply core_delay]
    | apply hoare_bind_inv; [|intros ?] ].
Ltac keeps_tac := repeat keeps_step.

(** *** Loops over the application area *)

Lemma u32_next a : addr_ok a -> u32 (a + 4) = a + 4.
Proof. intros [? _]. apply wrap_small. unfold fits. destruct Hfw as (? & ? & ?). lia. Qed.

Lemma addr_next a : addr_ok a -> a < fw_size -> addr_ok (a + 4).
Proof.
  intros [Ha Hm] Hlt. destruct Hfw as (Hf0 & Hf4 & _). split; [|Z.div_mod_to_equations; lia].
  Z.div_mod_to_equations. lia.
Qed.

Lemma keeps_verify_erase fuel :
  hoare (fun s => safe s /\ fw_size - address s < 4 * Z.of_nat fuel)
    (verify_erase fuel) (fun _ => safe) safe_exc.
Proof.
  induction fuel as [|fuel IH]; cbn [verify_erase].
  - apply hoare_throw. intros s [[[? _] _] ?]. lia.
  - apply hoare_bind with
      (fun a s => safe s /\ address s = a /\ fw_size - a < 4 * Z.of_nat (S fuel)).
    { apply hoare_gets. intros s [? ?]. auto. }
    intros a. destruct (Z.ltb_spec a fw_size); [|by apply hoare_ret; intros s (? & _)].
    intros s (Hs & <- & Hlt). pose proof Hs as (Ha & _).
    assert (keeps (read_word (address s))) as Hr by apply keeps_read.
    unfold mbind, M_bind. specialize (Hr s Hs).
    assert (Hadr : address (snd (read_word (address s) s)) = address s)
      by (unfold read_word; by destruct (flash_func_read_word _ _)).
    destruct (read_word (address s) s) as [[e|w] s1] eqn:Er; [done|]. cbn [snd] in Hadr.
    unfold goto_if. destruct (negb _); cbn [throw mret M_ret]; [by apply safe_stop|].
    cbn [modify]. rewrite u32_next by done. apply IH. split.
    + destruct Hr as (_ & Hb & Hp). split; [|done]. by apply addr_next.
    + cbn [set_address address]. lia.
Qed.

Lemma keeps_crc_loop fuel p sum : addr_ok p -> fw_size - p < 4 * Z.of_nat fuel ->
  hoare safe (crc_loop fuel p sum) (fun _ => safe) safe_exc.
Proof.
  revert p sum. induction fuel as [|fuel IH]; intros p sum Hp Hlt; cbn [crc_loop];
    [destruct Hp as [? _]; lia|].
  destruct (Z.ltb_spec p fw_size); [|by apply keeps_ret].
  apply hoare_bind_inv; [apply keeps_gets|]. intros fw.
  apply hoare_bind_inv; [destruct (_ && _); [apply keeps_ret|apply keeps_read]|]. intros w.
  apply hoare_bind_inv; [|intros sum'; rewrite u32_next by done; apply IH; [by apply addr_next|lia]].
  intros s Hs. unfold crc32_word. destruct (Crc.crc32 _ _ _) as [sum' tab].
  exact Hs.
Qed.

Lemma fw_fuel_enough : fw_size < 4 * Z.of_nat fw_fuel.
Proof. destruct Hfw as (? & _). unfold fw_fuel. Z.div_mod_to_equations. lia. Qed.

(** *** Programming *)

Lemma keeps_fill_buffer n i : keeps (fill_buffer devices n i).
Proof.
  revert i. induction n as [|n IH]; intros i; cbn [fill_buffer]; keeps_tac; [|apply IH].
  apply hoare_modify. intros s (Ha & Hb & Hp). split; [done|]. split; [|done].
  cbn [set_flash_buffer flash_buffer]. by rewrite length_insert.
Qed.

(** Word 0 is only ever programmed as 0xffffffff. *)
Definition word0_blank (i : nat) (s : bl F) : Prop :=
  address s = 0 -> i = 0%nat /\ buffer_word s 0 = 0xffffffff.

Lemma keeps_program_words n i :
  hoare (fun s => safe s /\ address s + 4 * Z.of_nat n <= fw_size /\ word0_blank i s)
    (program_words n i) (fun _ => safe) safe_exc.
Proof.
  revert i. induction n as [|n IH]; intros i; cbn [program_words].
  - apply hoare_ret. by intros s (? & _).
  - intros s (Hs & Hlim & H0). pose proof Hs as (Ha & Hb & Hp).
    unfold mbind, M_bind, gets, write_word, read_word, modify.
    cbn [set_flash flash address flash_buffer].
    assert (Hw : P (flash_func_write_word (address s) (buffer_word s i) (flash s))).
    { apply (closed_write P HP); [|done]. destruct Ha as [? ?].
      split; [lia|]. split; [done|]. split; [lia|]. intros E. by destruct (H0 E) as [-> ?]. }
    pose proof (closed_read P HP (address s) _ Hw) as Hr.
    destruct (flash_func_read_word _ _) as [r f']. cbn [snd] in Hr.
    unfold goto_if. destruct (negb _); cbn [throw mret M_ret].
    + by apply safe_stop.
    + rewrite u32_next by done. apply IH. cbn [set_address set_flash address].
      split; [|split; [lia|]].
      * split; [|done]. apply addr_next; [done|lia].
      * unfold word0_blank. cbn [set_address set_flash address]. destruct Ha. lia.
Qed.

Definition at_addr (a : Z) (s : bl F) : Prop := address s = a.

(** The programming address does not move while the data comes in. *)
Lemma address_fill_buffer a n i :
  hoare (at_addr a) (fill_buffer devices n i) (fun _ => at_addr a)
    (fun _ _ => True).
Proof.
  revert i. induction n as [|n IH]; intros i; cbn [fill_buffer]; [by apply hoare_ret|].
  apply hoare_bind_inv.
  { apply hoare_cin_wait; try done. intros s s' E. unfold core, at_addr in *. congruence. }
  intros c. apply hoare_bind_inv; [by apply hoare_goto_if|]. intros ?.
  apply hoare_bind_inv; [by apply hoare_modify|]. intros ?. apply IH.
Qed.

Lemma address_eoc a t :
  hoare (at_addr a) (expect_eoc devices t) (fun _ => at_addr a)
    (fun _ _ => True).
Proof. apply hoare_expect_eoc; try done. intros s s' E. unfold core, at_addr in *. congruence. Qed.

Lemma hoare_with_address {A} a (m : M F A) :
  keeps m -> hoare (at_addr a) m (fun _ => at_addr a) (fun _ _ => True) ->
  hoare (fun s => safe s /\ at_addr a s) m (fun _ s => safe s /\ at_addr a s) safe_exc.
Proof.
  intros H1 H2. eapply hoare_exc; [apply (hoare_and _ _ _ _ _ _ _ H1 H2)|].
  by intros e s [? _].
Qed.

Lemma buffer_word0_set w (s : bl F) : fits 32 w -> buffer_word (set_buffer_word0 w s) 0 = w.
Proof.
  intros Hw. unfold buffer_word, set_buffer_word0. cbn [set_flash_buffer flash_buffer].
  change (4 * 0)%nat with 0%nat. rewrite drop_0, take_app_length' by (by rewrite le_bytes_length).
  by apply (le_value_bytes 4).
Qed.

Lemma keeps_prog_multi : keeps (cmd_prog_multi devices).
Proof.
  unfold cmd_prog_multi. keeps_step; [apply keeps_cin_wait|].
  rename a into arg.
  apply hoare_bind with (fun _ s => safe s /\ 0 <= arg).
  { apply hoare_goto_if; [by intros; apply safe_stop|]. intros E%Z.ltb_ge. auto. }
  intros _. apply hoare_bind with (fun _ s => safe s /\ 0 <= arg /\ arg mod 4 = 0).
  { apply hoare_goto_if; [by intros ? s [? _]; apply safe_stop|].
    intros E%negb_false_iff%Z.eqb_eq s [? ?]. rewrite Z.rem_mod_nonneg in E by lia. auto. }
  intros _. apply hoare_bind with (fun a s => (safe s /\ address s = a) /\ 0 <= arg /\ arg mod 4 = 0).
  { apply hoare_gets. intros s (? & ? & ?). auto. }
  intros a. apply hoare_bind with (fun _ s => (safe s /\ address s = a) /\ 0 <= arg /\ arg mod 4 = 0
      /\ u32 (a + arg) <= fw_size).
  { apply hoare_goto_if; [by intros ? s [[? _] _]; apply safe_stop|].
    intros E s (? & ? & ?). do 3 (split; [done|]). rewrite Z.gtb_ltb, Z.ltb_ge in E. done. }
  intros _. apply hoare_bind with (fun _ s => (safe s /\ address s = a) /\ 0 <= arg /\ arg mod 4 = 0
      /\ a + arg <= fw_size).
  { apply hoare_goto_if; [by intros ? s [[? _] _]; apply safe_stop|].
    rewrite Z.gtb_ltb, Z.ltb_ge.
    intros E s ((Hs & Ha) & H1 & H2 & H3). do 3 (split; [done|]).
    rewrite wrap_small in H3; [done|]. destruct Hs as [[? _] _]. destruct Hfw as (? & ? & ?).
    unfold fits. lia. }
  intros _. intros s ((Hs & Ha) & H1 & H2 & H3). revert s Hs Ha.
  enough (hoare (fun s => safe s /\ address s = a)
    (fill_buffer devices (Z.to_nat arg) 0 ;; expect_eoc devices 200 ;;
     (if a =? 0 then
        w ← gets (fun s => buffer_word s 0);
        modify (set_first_word w) ;; modify (set_buffer_word0 0xffffffff)
      else mret tt) ;;
     program_words (Z.to_nat (arg / 4)) 0 ;;
     modify (SET_BL_STATE STATE_PROTO_PROG_MULTI) ;; mret Break) (fun _ => safe) safe_exc) as Hh
    by (intros s Hs Ha; by apply Hh).
  apply hoare_bind_inv;
    [apply hoare_with_address; [apply keeps_fill_buffer|apply address_fill_buffer]|]. intros _.
  apply hoare_bind_inv; [apply hoare_with_address; [apply keeps_eoc|apply address_eoc]|]. intros _.
  apply hoare_bind with (fun _ s => safe s /\ address s = a /\ word0_blank 0 s).
  { destruct (Z.eqb_spec a 0) as [->|Hne].
    - intros s [(Ha0 & Hb & Hp) Ha]. unfold mbind, M_bind, gets, modify. cbv beta.
      split; [split; [done|split; [|done]]|split; [done|]].
      + cbn [set_buffer_word0 set_flash_buffer flash_buffer set_first_word].
        rewrite length_app, le_bytes_length, length_drop, Hb. done.
      + intros _. split; [done|]. by rewrite buffer_word0_set by fits_const.
    - apply hoare_ret. intros s [? Ha]. do 2 (split; [done|]). unfold word0_blank. lia. }
  intros _. eapply hoare_bind; [|intros; keeps_tac].
  eapply hoare_pre; [apply keeps_program_words|]. intros s (Hs & Ha & H0).
  split; [done|]. split; [|done]. rewrite Ha. Z.div_mod_to_equations. lia.
Qed.

Lemma keeps_set_address0 :
  hoare safe (modify (set_address 0)) (fun _ s => safe s /\ address s = 0) safe_exc.
Proof.
  apply hoare_modify. intros s (_ & Hb & Hp). destruct Hfw as (? & _).
  split; [|done]. split; [|done]. split; [cbn; lia|done].
Qed.

Lemma keeps_chip_erase : keeps (cmd_chip_erase devices).
Proof.
  unfold cmd_chip_erase. do 4 (apply hoare_bind_inv; [solve [keeps_tac]|intros ?]).
  apply hoare_bind_inv; [apply keeps_flash, (closed_unlock P HP)|intros ?].
  apply hoare_bind_inv; [apply (keeps_flash (erase_sectors erase_fuel 0));
    intros; by apply erase_sectors_closed|intros ?].
  apply hoare_bind_inv; [solve [keeps_tac]|intros ?].
  eapply hoare_bind; [apply keeps_set_address0|]. intros ?.
  eapply hoare_bind; [eapply hoare_pre; [apply keeps_verify_erase|]|].
  - intros s [? ->]. split; [done|]. pose proof fw_fuel_enough. lia.
  - intros ?. eapply hoare_bind; [apply keeps_set_address0|]. intros ?.
    eapply hoare_pre; [|by intros s [? _]]. keeps_tac.
Qed.

(** Every command but BOOT keeps the device property. *)
Lemma keeps_command c : c <> PROTO_BOOT -> keeps (command devices c).
Proof.
  intros Hc. unfold command.
  repeat match goal with |- hoare _ (if ?b then _ else _) _ _ => destruct b eqn:? end;
    try apply keeps_ret.
  - unfold cmd_get_sync. keeps_tac.
  - unfold cmd_get_device. keeps_tac.
    repeat match goal with |- hoare _ (if ?b then _ else _) _ _ => destruct b end; keeps_tac.
  - apply keeps_chip_erase.
  - apply keeps_prog_multi.
  - unfold cmd_get_crc. keeps_tac. apply keeps_crc_loop.
    + destruct Hfw as (? & _). split; [lia|done].
    + pose proof fw_fuel_enough. lia.
  - unfold cmd_get_otp. keeps_tac.
  - unfold cmd_get_sn. keeps_tac.
  - unfold cmd_get_chip. keeps_tac.
  - unfold cmd_get_chip_des. keeps_tac.
  - unfold cmd_set_delay. keeps_tac.
    apply (keeps_flash (flash_func_write_word BOOT_DELAY_ADDRESS _)).
    apply HPdelay.
  - match goal with Hb : (c =? PROTO_BOOT) = true |- _ => by apply Z.eqb_eq in Hb end.
Qed.

(** *** BOOT and the main loop *)

(** The state in which BOOT programs the first word: one was uploaded, and the
    host has done all of SYNC, DEVICE, PROG_MULTI and CRC since its last bad command. *)
Definition commit_ready (s : bl F) : bool :=
  negb (first_word s =? 0xffffffff) && has_all (bl_state s) STATE_ALLOWS_REBOOT.

(** The pass of the main loop from [s] commits the image: its command is BOOT, the
    end-of-command byte follows, and the state allows it.  It is the pass in which
    [cmd_boot] programs the first word. *)
Definition commit_pass (s : bl F) : bool :=
  let s := set_led_activity false s in
  match wait_command devices (S (length (input s))) s with
  | inl _ => false
  | inr (c, s) =>
    (c =? PROTO_BOOT) &&
    match expect_eoc devices 1000 (set_led_activity true s) with
    | (inr _, s) => commit_ready s
    | (inl _, _) => false
    end
  end.

Lemma boot_not_committing s : safe s ->
  match expect_eoc devices 1000 s with (inr _, s) => commit_ready s | (inl _, _) => false end = false ->
  match cmd_boot devices s with (inr _, s') => safe s' | (inl e, s') => safe_exc e s' end.
Proof.
  intros Hs. pose proof (keeps_eoc 1000 s Hs) as Hk. unfold cmd_boot. unfold mbind at 1, M_bind at 1.
  destruct (expect_eoc devices 1000 s) as [[e|u] s1]; [done|]. unfold commit_ready. intros Hc.
  unfold mbind, M_bind, gets. cbv beta.
  destruct (Z.eqb_spec (first_word s1) 0xffffffff) as [Hf|Hf]; cbn [negb andb goto_if mret M_ret] in *.
  - assert (keeps (modify sync_response ;; modify (delay 100) ;; mret Return)) as Hb by keeps_tac.
    exact (Hb s1 Hk).
  - rewrite Hc. by apply safe_stop.
Qed.

Lemma wait_command_core fuel (s : bl F) :
  match wait_command devices fuel s with
  | inr (_, s') | inl (Returned s') | inl (Waiting s') => core s' = core s
  | inl (Next _) => False
  end.
Proof.
  revert s. induction fuel as [|fuel IH]; intros s; [done|]. cbn [wait_command].
  destruct (_ && _); [done|]. pose proof (core_cin_wait devices 0 s) as Hc.
  destruct (cin_wait devices 0 s) as [[e|c] s1]; cbn [snd] in Hc; [done|].
  destruct (c <? 0); [|done]. specialize (IH s1). rewrite Hc in IH. done.
Qed.

Definition result_state (r : step_result) : bl F :=
  match r with Next s | Returned s | Waiting s => s end.

Lemma safe_cout bs s : safe s -> safe (cout bs s).
Proof. apply safe_frame. by rewrite core_cout. Qed.

Lemma finish_safe (r : (exc + outcome) * bl F) :
  match r with (inr _, s') => safe s' | (inl e, s') => safe_exc e s' end ->
  safe (result_state (finish r)).
Proof.
  destruct r as [[e|o] s']; intros Hm.
  - destruct Hm as [Hm _]. destruct e; cbn [finish result_state]; try done.
    + exact (safe_cout [PROTO_INSYNC; PROTO_INVALID] s' Hm).
    + exact (safe_cout [PROTO_INSYNC; PROTO_FAILED] s' Hm).
  - destruct o; cbn [finish result_state]; try done. apply safe_cout.
    by destruct (bl_type _ =? NONE).
Qed.

Lemma bl_step_safe s : safe s -> commit_pass s = false -> safe (result_state (bl_step devices s)).
Proof.
  intros Hs. unfold commit_pass, bl_step. cbv zeta.
  pose proof (wait_command_core (S (length (input (set_led_activity false s))))
    (set_led_activity false s)) as Hw.
  destruct (wait_command _ _ _) as [[s'|s'|s']|[c s']]; intros Hc; cbn [result_state].
  - done.
  - by eapply safe_frame; [|exact Hs].
  - by eapply safe_frame; [|exact Hs].
  - assert (Hi : safe (set_led_activity true s')) by (by eapply safe_frame; [|exact Hs]).
    apply finish_safe. destruct (Z.eqb_spec c PROTO_BOOT) as [->|Hn].
    + by apply boot_not_committing.
    + exact (keeps_command c Hn _ Hi).
Qed.

(** Runs of the main loop in which no pass commits an image. *)
Inductive idle_run : bl F -> bl F -> Prop :=
| idle_run_refl s : idle_run s s
| idle_run_step s s1 s2 : idle_run s s1 -> commit_pass s1 = false ->
    result_state (bl_step devices s1) = s2 -> idle_run s s2.

Lemma idle_run_safe s s' : idle_run s s' -> safe s -> safe s'.
Proof.
  induction 1 as [|s s1 s2 _ IH Hc <-]; [done|]. intros Hs. apply bl_step_safe; auto.
Qed.

Lemma safe_start t s :
  length (flash_buffer s) = 256%nat -> P (flash s) -> safe (bl_start t s).
Proof.
  intros Hb Hp. destruct Hfw as (? & ? & _). unfold bl_start.
  set (s1 := if negb (t =? 0) then _ else _).
  assert (core s1 = core (set_first_word 0xffffffff (set_address fw_size (set_bl_state 0 s))))
    as Hc by (subst s1; by destruct (negb (t =? 0))).
  apply (safe_frame (set_first_word 0xffffffff (set_address fw_size (set_bl_state 0 s))));
    [by rewrite core_led, Hc|].
  split; [|done]. split; [cbn; lia|done].
Qed.

End Safety.

Section Properties.
Context {F : Type} {BD : Board} {FF : FlashFuncs F}.

Lemma boot_fuel devices :
  hoare (F := F) (fun _ => True) (cmd_boot devices) (fun _ _ => True) (fun e _ => e <> NoFuel).
Proof.
  unfold cmd_boot. apply hoare_bind_inv; [by apply hoare_expect_eoc|intros ?].
  apply hoare_bind_inv; [by apply hoare_gets|intros fw].
  apply hoare_bind_inv; [by apply hoare_gets|intros st].
  apply hoare_bind_inv; [by apply hoare_goto_if|intros ?].
  apply hoare_bind_inv; [|intros ?; by intros].
  destruct (negb (fw =? 0xffffffff)); [|by apply hoare_ret].
  apply hoare_bind_inv; [by apply hoare_modify|intros ?].
  apply hoare_bind_inv; [intros s _; unfold read_word; by destruct (flash_func_read_word _ _)|intros r].
  apply hoare_bind_inv; [by apply hoare_goto_if|intros ?]. by apply hoare_modify.
Qed.

(** C2 (safety). Write discipline of the bootloader: on a board whose boot-delay
    signature lies in the application area past the first word, from the moment
    [bootloader] starts and through every pass of its main loop other than one that
    commits (a BOOT with its end-of-command byte, an uploaded first word, and SYNC,
    DEVICE, PROG_MULTI and CRC all seen), whatever the host sends and also between the
    CRC and the commit, the flash is only ever read, erased in the sectors of the
    area, or programmed at aligned addresses of the application area, its first word
    with nothing but 0xffffffff.  So every property of the flash that these operations
    preserve holds throughout, and the programming address stays a multiple of four
    within the area. *)
Theorem bootloader_write_discipline devices (P : F -> Prop) t s s' :
  fw_ok -> delay_ok -> closed P -> length (flash_buffer s) = 256%nat -> P (flash s) ->
  idle_run devices (bl_start t s) s' ->
  P (flash s') /\ addr_ok (address s').
Proof.
  intros Hfw Hd HP Hb Hp Hr.
  assert (HPd : forall w f, P f -> P (flash_func_write_word BOOT_DELAY_ADDRESS w f)).
  { intros w f. destruct Hd as (? & ? & ?). apply (closed_write P HP). unfold legal_write. lia. }
  destruct (idle_run_safe devices Hfw P HP HPd _ _ Hr) as (Ha & _ & Hp'); [by apply safe_start|done].
Qed.

(** The loops of the commands terminate: whatever command the
    host sends and in whatever state, the scans over the application area end
    within their bound, so a handler ends normally, through a label, or waiting
    for input. *)
Theorem command_loops_terminate devices (s : bl F) c :
  fw_ok -> addr_ok (address s) -> length (flash_buffer s) = 256%nat ->
  fst (command devices c s) <> inl NoFuel.
Proof.
  intros Hfw Ha Hb E.
  assert (Hc : closed (fun _ : F => True)) by (by constructor).
  assert (Hs : safe (fun _ : F => True) s) by done.
  destruct (decide (c = PROTO_BOOT)) as [->|Hn].
  - pose proof (boot_fuel devices s I) as He.
    change (command devices PROTO_BOOT s) with (cmd_boot devices s) in E.
    by destruct (cmd_boot devices s) as [[e|o] s1]; cbn [fst] in E; simplify_eq.
  - pose proof (keeps_command devices Hfw _ Hc (fun _ _ H => H) c Hn s Hs) as He.
    destruct (command devices c s) as [[e|o] s1]; cbn [fst] in E; [|done].
    destruct He. congruence.
Qed.
End Properties.
End BlSafety.
