(* ===== verification/FlashFs.v ===== *)
(** * The parameter flash file system

    src/src/lib/parameters/flashparams/flashfs.c: a log of tagged, CRC-protected
    entries in one or more flash sectors, through which the parameters are saved
    on boards without a file system.  Flash is the memory-mapped program memory of
    [ProgMem]; pointers into it are addresses. *)

From S2P Require Import Prelude Crc ProgMem.

Local Open Scope Z_scope.

Module FlashFs.

Definition ENOENT : Z := 2.
Definition ENXIO : Z := 6.
Definition ENOMEM : Z := 12.
Definition ENOSPC : Z := 28.

(** [flash_config_t] and [flash_flags_t]. *)
Definition MagicSig : Z := 0xaa553cc3.
Definition BlankSig : Z := 0xffffffff.
Definition SizeMask : Z := 0x0003.
Definition MaskEntry : Z := Z.lnot SizeMask.
Definition BlankEntry : Z := u16 BlankSig.
Definition ValidEntry : Z := Z.land 0xa5ac (Z.lnot SizeMask).
Definition ErasedEntry : Z := 0x0000.

(** [sizeof(flash_entry_header_t)] and the offsets of its packed fields. *)
Definition sizeof_header : Z := 16.
Definition off_flag : Z := 4.
Definition off_crc : Z := 6.
Definition off_size : Z := 10.
Definition off_token : Z := 12.

Record sector_descriptor_t := Sector { page : Z; size : Z; address : Z }.

(** 'p', 'a', 'r', 'm' as a little-endian word. *)
Definition parameters_token : Z := 0x6d726170.

Section Fs.
Context {M : Type} {PM : ProgMem M}.

(** NuttX's [crc32(src, len)] (crc32.h). *)
Variable crc32 : list Z -> Z.

(** The static data of flashfs.c, with the flash behind it. *)
Record fs := Fs {
  fs_mem : M;
  sector_map : option (list sector_descriptor_t);   (* the array up to its null entry *)
  working_buffer : option (list Z);
  working_buffer_size : Z;
  working_buffer_static : bool;
  last_erased : Z;
}.

Definition set_mem (m : M) (s : fs) : fs :=
  Fs m (sector_map s) (working_buffer s) (working_buffer_size s) (working_buffer_static s)
     (last_erased s).

(** *** Headers and their helpers, by address *)

Definition pm_bytes (m : M) (a : Z) (n : nat) : list Z :=
  map (fun i => pm_byte m (a + Z.of_nat i)) (seq 0 n).

Definition h_flag (m : M) (pf : Z) : Z := pm_half m (pf + off_flag).
Definition h_crc (m : M) (pf : Z) : Z := pm_word m (pf + off_crc).
Definition h_size (m : M) (pf : Z) : Z := pm_half m (pf + off_size).
Definition h_token (m : M) (pf : Z) : Z := pm_word m (pf + off_token).

Definition blank_flash (m : M) (pf : Z) : bool := pm_word m pf =? BlankSig.

(** [while (new_size-- && rv) if (!blank_flash(pm++)) rv = false;] *)
Fixpoint blank_words (n : nat) (m : M) (pm : Z) : bool :=
  match n with
  | O => true
  | S n => if blank_flash m pm then blank_words n m (pm + 4) else false
  end.

Definition blank_check (m : M) (pf new_size : Z) : bool :=
  blank_words (Z.to_nat (new_size / 4)) m pf.

Definition valid_magic (m : M) (pm : Z) : bool := pm_word m pm =? MagicSig.
Definition blank_magic (m : M) (pm : Z) : bool := pm_word m pm =? BlankSig.
Definition erased_entry (m : M) (pf : Z) : bool := Z.land (h_flag m pf) MaskEntry =? ErasedEntry.
Definition blank_entry (m : M) (pf : Z) : bool :=
  (pm_word m pf =? BlankSig) && (h_flag m pf =? BlankEntry).
Definition valid_entry (m : M) (pf : Z) : bool := Z.land (h_flag m pf) MaskEntry =? ValidEntry.
Definition entry_size_adjust (m : M) (pf : Z) : Z := Z.land (h_flag m pf) SizeMask.
Definition next_entry (m : M) (pf : Z) : Z := pf + h_size m pf.
Definition entry_data (pf : Z) : Z := pf + sizeof_header.
Definition entry_data_length (m : M) (pf : Z) : Z :=
  u16 (h_size m pf - (sizeof_header + entry_size_adjust m pf)).
Definition entry_crc_start (pf : Z) : Z := pf + off_size.
Definition entry_crc_length (m : M) (pf : Z) : Z := u16 (h_size m pf - off_size).

(** [pf->crc == crc32(entry_crc_start(pf), entry_crc_length(pf))] *)
Definition crc_ok (m : M) (pf : Z) : bool :=
  h_crc m pf =? crc32 (pm_bytes m (entry_crc_start pf) (Z.to_nat (entry_crc_length m pf))).

(** *** Searching *)

(** How the scan of one sector ends.  The loops only stop at the last word of the sector, so
    entry sizes that lead past it make them run on through memory.  When the sizes are
    positive multiples of a word, a scan has ended or gone astray within [scan_fuel] steps,
    which is [OutOfFuel]; a header with a correct CRC and another size may count as astray too. *)
Inductive scan := Found (pf : Z) | NextSector | OutOfFuel.

(** The last word of a sector, where the scans stop. *)
Definition sector_last (s : sector_descriptor_t) : Z := address s + (size s / 4 - 1) * 4.

(** The body of the loop of [find_entry], from the label [cont].  A header whose CRC
    fails ends the body, so the search goes on in the next sector. *)
Fixpoint scan_entry (fuel : nat) (m : M) (token pmagic pe : Z) : scan :=
  match fuel with
  | O => OutOfFuel
  | S fuel =>
    if negb (pmagic =? pe) && negb (valid_magic m pmagic)
    then scan_entry fuel m token (pmagic + 4) pe
    else if pmagic =? pe then NextSector
    else if crc_ok m pmagic then
      if valid_entry m pmagic && (h_token m pmagic =? token) then Found pmagic
      else
        let pf := next_entry m pmagic in
        if blank_entry m pf then NextSector else scan_entry fuel m token pf pe
    else NextSector
  end.

Definition scan_fuel (s : sector_descriptor_t) : nat := Z.to_nat (size s / 4 + 1).

(** The entry, if there is one; [None] when the scan of a sector goes astray. *)
Fixpoint find_entry_in (secs : list sector_descriptor_t) (m : M) (token : Z) : option (option Z) :=
  match secs with
  | [] => Some None
  | s :: secs =>
    match scan_entry (scan_fuel s) m token (address s) (sector_last s) with
    | Found pf => Some (Some pf)
    | NextSector => find_entry_in secs m token
    | OutOfFuel => None
    end
  end.

(** The [do ... while (++pmagic != pe)] of [find_free]. *)
Fixpoint scan_free (fuel : nat) (m : M) (required pmagic pe : Z) : scan :=
  match fuel with
  | O => OutOfFuel
  | S fuel =>
    let pmagic :=
      if valid_magic m pmagic
      then if crc_ok m pmagic then next_entry m pmagic else pmagic + 4
      else pmagic in
    if blank_magic m pmagic && (blank_entry m pmagic && blank_check m pmagic required)
    then Found pmagic
    else
      let pmagic := pmagic + 4 in
      if negb (pmagic =? pe) then scan_free fuel m required pmagic pe else NextSector
  end.

Fixpoint find_free_in (secs : list sector_descriptor_t) (m : M) (required : Z) : option (option Z) :=
  match secs with
  | [] => Some None
  | s :: secs =>
    match scan_free (scan_fuel s) m required (address s) (sector_last s) with
    | Found pf => Some (Some pf)
    | NextSector => find_free_in secs m required
    | OutOfFuel => None
    end
  end.

(** Sectors are named by their index in the map. *)
Definition get_next_sector_descriptor (secs : list sector_descriptor_t) (s : nat) : nat :=
  if (S s <? length secs)%nat then S s else 0.

Fixpoint get_sector_info (secs : list sector_descriptor_t) (pc : Z) (s : nat) : option nat :=
  match secs with
  | [] => None
  | sm :: secs =>
    if (address sm <=? pc) && (pc <=? address sm + size sm - 1) then Some s
    else get_sector_info secs pc (S s)
  end.

(** *** Erasing *)

Definition erase_sector (sm : sector_descriptor_t) (pf : Z) (s : fs) : Z * fs :=
  let block := up_progmem_getpage pf in
  if (0 <? block) && (block =? page sm) then
    let '(sz, m) := up_progmem_eraseblock block (fs_mem s) in
    (if (sz <? 0) || negb (sz =? size sm) then sz else 0,
     Fs m (sector_map s) (working_buffer s) (working_buffer_size s) (working_buffer_static s)
        (page sm))
  else (0, s).

Definition erase_entry (pf : Z) (m : M) : Z * M :=
  up_progmem_write (pf + off_flag) (le_bytes 2 ErasedEntry) m.

(** [Some] of the sector that has to be left, [None] when the new size fits; the outer
    option is [None] where the code dereferences the null pointer of a failed lookup. *)
Definition check_free_space_in_sector (secs : list sector_descriptor_t) (m : M) (pf new_size : Z) :
    option (option nat) :=
  match get_sector_info secs pf 0 with
  | None => None
  | Some i =>
    match secs !! i with
    | None => None
    | Some sm =>
      let pnext_end := (if valid_magic m pf then next_entry m pf else pf) + new_size in
      if (address sm <=? pnext_end) && (pnext_end <=? address sm + size sm - 1)
      then Some None else Some (Some i)
    end
  end.

(** *** The interface *)

(** Result and, on success, the address and length of the data; [None] when the search goes
    astray. *)
Definition parameter_flashfs_read (token : Z) (s : fs) : option (Z * option (Z * Z)) :=
  match sector_map s with
  | None => Some (- ENXIO, None)
  | Some secs =>
    match find_entry_in secs (fs_mem s) token with
    | None => None
    | Some None => Some (- ENOENT, None)
    | Some (Some pf) =>
      let rv := entry_data_length (fs_mem s) pf in Some (rv, Some (entry_data pf, rv))
    end
  end.

(** The padding that makes an entry a multiple of a word. *)
Definition size_adjust_of (buf_size : Z) : Z :=
  let total_size := buf_size + sizeof_header in
  Z.land (total_size + 3) (Z.lnot 3) - total_size.

Definition total_size_of (buf_size : Z) : Z :=
  buf_size + sizeof_header + size_adjust_of buf_size.

(** Where the new entry goes: the address, or the error that is returned; [None] is a
    null dereference or a search that goes astray. *)
Definition place_entry (secs : list sector_descriptor_t) (token total_size : Z) (s : fs) :
    option ((Z + Z) * fs) :=
  match find_entry_in secs (fs_mem s) token with
  | None => None
  | Some None =>
    match find_free_in secs (fs_mem s) (u16 total_size) with
    | None => None
    | Some None => Some (inl (- ENOSPC), s)
    | Some (Some pf) => Some (inr pf, s)
    end
  | Some (Some pf) =>
    match check_free_space_in_sector secs (fs_mem s) pf total_size with
    | None => None
    | Some None =>
      let '(rv, m) := erase_entry pf (fs_mem s) in
      if rv <? 0 then Some (inl rv, set_mem m s)
      else Some (inr (next_entry m pf), set_mem m s)
    | Some (Some cur) =>
      match secs !! get_next_sector_descriptor secs cur with
      | None => None
      | Some sm =>
        if size sm <? total_size then Some (inl (- ENOSPC), s)
        else
          let '(rv, m) := erase_entry pf (fs_mem s) in
          if rv <? 0 then Some (inl rv, set_mem m s)
          else
            let s := set_mem m s in
            let pf := address sm in
            if negb (blank_check m pf total_size)
            then Some (inr pf, snd (erase_sector sm pf s))
            else Some (inr pf, s)
      end
    end
  end.

(** The header and padding composed around the data in the working buffer. *)
Definition header_bytes (token flag crc sz : Z) : list Z :=
  le_bytes 4 MagicSig ++ le_bytes 2 flag ++ le_bytes 4 crc ++ le_bytes 2 sz ++ le_bytes 4 token.

Definition padded (data : list Z) : list Z :=
  data ++ replicate (Z.to_nat (size_adjust_of (Z.of_nat (length data)))) (u8 BlankSig).

Definition crc_region (token sz : Z) (body : list Z) : list Z :=
  le_bytes 2 sz ++ le_bytes 4 token ++ body.

Definition entry_bytes (token flag : Z) (body : list Z) : list Z :=
  let sz := u16 (sizeof_header + Z.of_nat (length body)) in
  header_bytes token flag (crc32 (take (Z.to_nat (u16 (sz - off_size))) (crc_region token sz body))) sz
  ++ body.

(** [parameter_flashfs_write] of the first [buf_size] bytes behind the header space of the
    working buffer.  [None] is undefined behaviour: a null dereference, a search that goes
    astray, or the padding loop storing behind the end of the buffer. *)
Definition parameter_flashfs_write (token buf_size : Z) (s : fs) : option (Z * fs) :=
  match sector_map s with
  | None => Some (- ENXIO, s)
  | Some secs =>
    let size_adjust := size_adjust_of buf_size in
    let total_size := total_size_of buf_size in
    match place_entry secs token total_size s with
    | None => None
    | Some (inl e, s) => Some (e, s)
    | Some (inr pf, s) =>
      match working_buffer s with
      | None => None
      | Some buffer =>
        if Z.of_nat (length buffer) <? sizeof_header + buf_size + size_adjust then None
        else
          let data := take (Z.to_nat buf_size) (drop (Z.to_nat sizeof_header) buffer) in
          let entry := entry_bytes token (u16 (ValidEntry + size_adjust)) (padded data) in
          let buffer := entry ++ drop (length entry) buffer in
          let '(rv, m) :=
            up_progmem_write pf (take (Z.to_nat (u16 total_size)) buffer) (fs_mem s) in
          let system_bytes := sizeof_header + size_adjust in
          Some (if system_bytes <=? rv then rv - system_bytes else rv,
                Fs m (sector_map s) (Some buffer) (working_buffer_size s)
                   (working_buffer_static s) (last_erased s))
      end
    end
  end.

(** Result and size of the space for user data; [heap] says whether malloc succeeds. *)
Definition parameter_flashfs_alloc (heap : bool) (buf_size : Z) (s : fs) : Z * Z * fs :=
  match sector_map s with
  | None => (- ENXIO, buf_size, s)
  | Some _ =>
    let s :=
      if negb (working_buffer_static s) then
        let sz := u16 (buf_size + sizeof_header) in
        Fs (fs_mem s) (sector_map s)
           (if heap then Some (replicate (Z.to_nat sz) 0) else None) sz
           (working_buffer_static s) (last_erased s)
      else s in
    match working_buffer s with
    | None => (- ENOMEM, buf_size,
        Fs (fs_mem s) (sector_map s) None 0 (working_buffer_static s) (last_erased s))
    | Some _ =>
      (0, working_buffer_size s - sizeof_header,
       Fs (fs_mem s) (sector_map s)
          (Some (replicate (Z.to_nat (working_buffer_size s)) 0xff)) (working_buffer_size s)
          (working_buffer_static s) (last_erased s))
    end
  end.

Definition parameter_flashfs_free (s : fs) : fs :=
  if negb (working_buffer_static s) && match working_buffer s with Some _ => true | _ => false end
  then Fs (fs_mem s) (sector_map s) None 0 (working_buffer_static s) (last_erased s)
  else s.

(** The loop of [parameter_flashfs_erase]. *)
Fixpoint erase_loop (secs : list sector_descriptor_t) (rv : Z) (s : fs) : Z * fs :=
  match secs with
  | [] => (rv, s)
  | sm :: secs =>
    let '(sz, s) := erase_sector sm (address sm) s in
    if negb (sz =? 0) then (sz, s) else erase_loop secs (rv + size sm) s
  end.

Definition parameter_flashfs_erase (s : fs) : Z * fs :=
  match sector_map s with
  | None => (- ENXIO, s)
  | Some secs => erase_loop secs 0 s
  end.

(** Callers pass an array of sectors; [None], a null map, is scanned as an empty one.  The
    outer option is [None] when a search goes astray. *)
Definition parameter_flashfs_init (fconfig : option (list sector_descriptor_t))
    (buffer : option (list Z)) (sz : Z) (s : fs) : option (Z * fs) :=
  let is_static := match buffer with Some _ => true | None => false end in
  let sz := if is_static then sz else 0 in
  let s := Fs (fs_mem s) fconfig buffer sz is_static (-1) in
  let secs := default [] fconfig in
  match find_entry_in secs (fs_mem s) parameters_token with
  | None => None
  | Some (Some _) => Some (0, s)
  | Some None =>
    match find_free_in secs (fs_mem s) (u16 (total_size_of sz)) with
    | None => None
    | Some (Some _) => Some (0, s)
    | Some None => Some (parameter_flashfs_erase s)
    end
  end.

End Fs.

Arguments fs : clear implicits.

End FlashFs.
