(* ===== verification/FlashFsSpec.v ===== *)
(** * The parameter flash file system stores what was written last

    The log invariant of the sectors, the searches on logs, and the round trip of
    [parameter_flashfs_write] and [parameter_flashfs_read]. *)

From S2P Require Import Prelude Crc ProgMem FlashFs.

Local Open Scope Z_scope.

Module FlashFsSpec.
Import FlashFs.

Section Bytes.
Context {M : Type} {PM : ProgMem M} {PL : ProgMemLaws M}.

Lemma pm_bytes_length (m : M) a n : length (pm_bytes m a n) = n.
Proof. unfold pm_bytes. by rewrite length_map, length_seq. Qed.

Lemma pm_bytes_S (m : M) a n : pm_bytes m a (S n) = pm_byte m a :: pm_bytes m (a + 1) n.
Proof.
  unfold pm_bytes. cbn [seq map]. f_equal; [f_equal; lia|].
  rewrite <- seq_shift, map_map. apply map_ext. intros i. f_equal. lia.
Qed.

Lemma pm_bytes_app (m : M) a n1 n2 :
  pm_bytes m a (n1 + n2) = pm_bytes m a n1 ++ pm_bytes m (a + Z.of_nat n1) n2.
Proof.
  revert a. induction n1 as [|n1 IH]; intros a.
  - cbn [Nat.add app]. by rewrite Z.add_0_r.
  - cbn [Nat.add]. rewrite !pm_bytes_S, IH. cbn [app]. do 3 f_equal. lia.
Qed.

Lemma pm_bytes_ext (m m' : M) a n :
  (forall x, a <= x < a + Z.of_nat n -> pm_byte m' x = pm_byte m x) ->
  pm_bytes m' a n = pm_bytes m a n.
Proof. intros He. apply map_ext_in. intros i Hi%in_seq. apply He. lia. Qed.

Lemma pm_word_bytes (m : M) a : pm_word m a = le_value (pm_bytes m a 4).
Proof. rewrite !pm_bytes_S. unfold pm_word. by rewrite <- !Z.add_assoc. Qed.

Lemma pm_half_bytes (m : M) a : pm_half m a = le_value (pm_bytes m a 2).
Proof. by rewrite !pm_bytes_S. Qed.

Lemma pm_word_ext (m m' : M) a :
  (forall x, a <= x < a + 4 -> pm_byte m' x = pm_byte m x) -> pm_word m' a = pm_word m a.
Proof. intros He. by rewrite !pm_word_bytes, (pm_bytes_ext m m'). Qed.

Lemma pm_half_ext (m m' : M) a :
  (forall x, a <= x < a + 2 -> pm_byte m' x = pm_byte m x) -> pm_half m' a = pm_half m a.
Proof. intros He. by rewrite !pm_half_bytes, (pm_bytes_ext m m'). Qed.

(** The bytes of a write that succeeded, seen as a list. *)
Lemma pm_bytes_written (m' : M) a bs :
  (forall x, in_range a (Z.of_nat (length bs)) x = true -> pm_byte m' x = zat bs (x - a)) ->
  pm_bytes m' a (length bs) = bs.
Proof.
  intros Hb. apply zat_ext; rewrite pm_bytes_length; [done|]. intros i Hi.
  unfold pm_bytes. rewrite zat_map_seq by done. rewrite Hb by (apply in_rangeP; lia). f_equal. lia.
Qed.

Lemma pm_bytes_prefix (m : M) a xs ys : pm_bytes m a (length (xs ++ ys)) = xs ++ ys ->
  pm_bytes m a (length xs) = xs /\ pm_bytes m (a + Z.of_nat (length xs)) (length ys) = ys.
Proof.
  rewrite length_app, pm_bytes_app. intros E. apply app_inj_1 in E; [done|].
  by rewrite pm_bytes_length.
Qed.

Lemma erased_bytes_word (m : M) a len x :
  erased m a len -> a <= x -> x + 4 <= a + len -> pm_word m x = BlankSig.
Proof. apply erased_word. Qed.

Lemma blank_words_erased n (m : M) a : erased m a (4 * Z.of_nat n) -> blank_words n m a = true.
Proof.
  revert a. induction n as [|n IH]; intros a He; [done|]. cbn [blank_words]. unfold blank_flash.
  rewrite (erased_word m a (4 * Z.of_nat (S n)) a He), Z.eqb_refl by lia.
  apply IH. intros x Hx. apply He. lia.
Qed.
End Bytes.

Lemma land_low2 x : Z.land x 3 = x mod 4.
Proof. change 3 with (Z.ones 2). by rewrite Z.land_ones. Qed.

Lemma land_mask2 x : Z.land x (Z.lnot 3) = x - x mod 4.
Proof.
  change 3 with (Z.ones 2). rewrite <- Z.ldiff_land, Z.ldiff_ones_r by lia.
  rewrite Z.shiftl_mul_pow2, Z.shiftr_div_pow2 by lia. change (2 ^ 2) with 4.
  pose proof (Z.div_mod x 4). lia.
Qed.

(** Padding: fewer than four bytes, and the total is a multiple of four. *)
Lemma size_adjust_spec n : 0 <= n ->
  0 <= size_adjust_of n < 4 /\ total_size_of n mod 4 = 0 /\
  total_size_of n = n + 16 + size_adjust_of n.
Proof.
  intros Hn. unfold total_size_of, size_adjust_of, sizeof_header. rewrite land_mask2.
  split; [|split]; Z.div_mod_to_equations; lia.
Qed.

Section Spec.
Context {M : Type} {PM : ProgMem M} {PL : ProgMemLaws M}.
Variable crc32 : list Z -> Z.
Hypothesis crc32_range : forall bs, fits 32 (crc32 bs).

(** *** Entries and logs *)

(** An entry of a log: its flag, its token, and its data with the padding. *)
Record entry := Ent { e_flag : Z; e_token : Z; e_body : list Z }.

Definition e_size (e : entry) : Z := 16 + Z.of_nat (length (e_body e)).

Record entry_at (m : M) (a : Z) (e : entry) : Prop := {
  en_magic : pm_word m a = MagicSig;
  en_flag : h_flag m a = e_flag e;
  en_crc : h_crc m a = crc32 (pm_bytes m (a + off_size) (Z.to_nat (e_size e - off_size)));
  en_size : h_size m a = e_size e;
  en_token : h_token m a = e_token e;
  en_body : pm_bytes m (a + sizeof_header) (length (e_body e)) = e_body e;
  en_fits : e_size e < 2 ^ 16;
  en_align : e_size e mod 4 = 0;
}.

Lemma entry_crc_ok m a e : entry_at m a e -> crc_ok crc32 m a = true.
Proof.
  intros He. destruct He. unfold crc_ok, entry_crc_start, entry_crc_length.
  rewrite en_size0, wrap_small by (unfold fits, e_size, off_size in *; lia).
  rewrite en_crc0. apply Z.eqb_refl.
Qed.

Lemma entry_frame m m' a e :
  (forall x, a <= x < a + e_size e -> pm_byte m' x = pm_byte m x) ->
  entry_at m a e -> entry_at m' a e.
Proof.
  intros Hx He. destruct He. unfold h_flag, h_crc, h_size, h_token, off_flag, off_crc, off_size,
    off_token, sizeof_header, e_size in *.
  constructor; unfold h_flag, h_crc, h_size, h_token, off_flag, off_crc, off_size, off_token,
    sizeof_header, e_size; try done.
  - rewrite (pm_word_ext m); [done|]. intros; apply Hx; lia.
  - rewrite (pm_half_ext m); [done|]. intros; apply Hx; lia.
  - rewrite (pm_word_ext m), (pm_bytes_ext m); [done|..]; intros; apply Hx; lia.
  - rewrite (pm_half_ext m); [done|]. intros; apply Hx; lia.
  - rewrite (pm_word_ext m); [done|]. intros; apply Hx; lia.
  - rewrite (pm_bytes_ext m); [done|]. intros; apply Hx; lia.
Qed.

(** Programming the flag to zero keeps the entry, now erased. *)
Lemma entry_erased m m' a e :
  (forall x, pm_byte m' x = if in_range (a + off_flag) 2 x then 0 else pm_byte m x) ->
  entry_at m a e -> entry_at m' a (Ent ErasedEntry (e_token e) (e_body e)).
Proof.
  intros Hx He. destruct He. unfold h_flag, h_crc, h_size, h_token, off_flag, off_crc, off_size,
    off_token, sizeof_header, e_size in *.
  assert (Hout : forall x, x < a + 4 \/ a + 6 <= x -> pm_byte m' x = pm_byte m x).
  { intros x Hr. rewrite Hx. destruct (in_range _ _ x) eqn:E; [|done].
    apply in_rangeP in E. lia. }
  constructor; unfold h_flag, h_crc, h_size, h_token, off_flag, off_crc, off_size, off_token,
    sizeof_header, e_size; cbn [e_flag e_token e_body]; try done.
  - rewrite (pm_word_ext m); [done|]. intros; apply Hout; lia.
  - rewrite pm_half_bytes, !pm_bytes_S, !Hx.
    rewrite !(proj2 (in_rangeP _ _ _)) by lia. done.
  - rewrite (pm_word_ext m), (pm_bytes_ext m); [done|..]; intros; apply Hout; lia.
  - rewrite (pm_half_ext m); [done|]. intros; apply Hout; lia.
  - rewrite (pm_word_ext m); [done|]. intros; apply Hout; lia.
  - rewrite (pm_bytes_ext m); [done|]. intros; apply Hout; lia.
Qed.

Lemma header_length token flag crc sz : length (header_bytes token flag crc sz) = 16%nat.
Proof. unfold header_bytes. by rewrite !length_app, !le_bytes_length. Qed.

(** Bytes written as [entry_bytes] are an entry. *)
Lemma entry_written m a token flag body :
  fits 32 token -> fits 16 flag -> 16 + Z.of_nat (length body) < 2 ^ 16 ->
  (16 + Z.of_nat (length body)) mod 4 = 0 ->
  pm_bytes m a (length (entry_bytes crc32 token flag body)) = entry_bytes crc32 token flag body ->
  entry_at m a (Ent flag token body).
Proof.
  intros Ht Hf Hlen Hmod Hm. unfold entry_bytes, header_bytes, crc_region in Hm.
  unfold sizeof_header, off_size in Hm.
  set (sz := 16 + Z.of_nat (length body)) in *.
  assert (Hs : u16 sz = sz) by (apply wrap_small; unfold fits; lia). rewrite Hs in Hm.
  rewrite (wrap_small 16 (sz - 10)) in Hm by (unfold fits; lia).
  set (region := le_bytes 2 sz ++ le_bytes 4 token ++ body) in *.
  assert (Hreg : length region = Z.to_nat (sz - 10)).
  { subst region. rewrite !length_app, !le_bytes_length. lia. }
  rewrite (take_ge region) in Hm by lia. rewrite <- !app_assoc in Hm.
  apply pm_bytes_prefix in Hm as [H1 Hm]. rewrite le_bytes_length in H1, Hm.
  apply pm_bytes_prefix in Hm as [H2 Hm]. rewrite le_bytes_length in H2, Hm.
  apply pm_bytes_prefix in Hm as [H3 Hm]. rewrite le_bytes_length in H3, Hm.
  fold region in Hm. pose proof Hm as Hcrc.
  apply pm_bytes_prefix in Hm as [H4 Hm]. rewrite le_bytes_length in H4, Hm.
  apply pm_bytes_prefix in Hm as [H5 H6]. rewrite le_bytes_length in H5, H6.
  change (Z.of_nat 4) with 4 in *. change (Z.of_nat 2) with 2 in *.
  replace (a + 4 + 2) with (a + 6) in * by lia. replace (a + 6 + 4) with (a + 10) in * by lia.
  replace (a + 10 + 2) with (a + 12) in * by lia. replace (a + 12 + 4) with (a + 16) in * by lia.
  constructor; unfold h_flag, h_crc, h_size, h_token, off_flag, off_crc, off_size, off_token,
    sizeof_header; cbn [e_flag e_token e_body]; unfold e_size; cbn [e_body]; fold sz; try done.
  - rewrite pm_word_bytes, H1. by apply (le_value_bytes 4).
  - rewrite pm_half_bytes, H2. by apply (le_value_bytes 2).
  - rewrite pm_word_bytes, H3, <- Hreg, Hcrc. apply (le_value_bytes 4), crc32_range.
  - rewrite pm_half_bytes, H4. apply (le_value_bytes 2). unfold fits. cbn. lia.
  - rewrite pm_word_bytes, H5. by apply (le_value_bytes 4).
Qed.

(** Entries one after the other from [a] to [b]. *)
Inductive log (m : M) : Z -> list entry -> Z -> Prop :=
| log_nil a : log m a [] a
| log_cons a e es b : entry_at m a e -> log m (a + e_size e) es b -> log m a (e :: es) b.

Lemma e_size_min e : 16 <= e_size e.
Proof. unfold e_size. lia. Qed.

Lemma log_bounds m a es b : log m a es b ->
  a + 16 * Z.of_nat (length es) <= b /\ (b - a) mod 4 = 0.
Proof.
  induction 1 as [a|a e es b He _ [IH1 IH2]]; [split; [simpl; lia|by rewrite Z.sub_diag]|].
  pose proof (e_size_min e). pose proof (en_align _ _ _ He). cbn [length].
  split; [lia|]. replace (b - a) with (e_size e + (b - (a + e_size e))) by lia.
  rewrite Z.add_mod by lia. by rewrite H0, IH2.
Qed.

Lemma log_app m a es1 es2 c b : log m a es1 c -> log m c es2 b -> log m a (es1 ++ es2) b.
Proof. induction 1; [done|]. intros. constructor; auto. Qed.

Lemma log_app_inv m es1 : forall a es2 b, log m a (es1 ++ es2) b ->
  exists c, log m a es1 c /\ log m c es2 b.
Proof.
  induction es1 as [|e es1 IH]; intros a es2 b Hl; [exists a; split; [constructor|done]|].
  inversion Hl; subst. destruct (IH _ _ _ ltac:(eassumption)) as (c & ? & ?).
  exists c. split; [by constructor|done].
Qed.

Lemma log_frame m m' a es b : (forall x, a <= x < b -> pm_byte m' x = pm_byte m x) ->
  log m a es b -> log m' a es b.
Proof.
  intros Hx Hl. revert Hx. induction Hl as [a|a e es b He Hl IH]; intros Hx; [constructor|].
  pose proof (log_bounds _ _ _ _ Hl). pose proof (e_size_min e).
  constructor; [eapply entry_frame; [|exact He]; intros; apply Hx; lia|].
  apply IH. intros. apply Hx. lia.
Qed.

(** *** Searching a log *)

Definition wanted (tok : Z) (e : entry) : bool :=
  (Z.land (e_flag e) MaskEntry =? ValidEntry) && (e_token e =? tok).

Lemma magic_not_blank m a : pm_word m a = MagicSig -> blank_entry m a = false.
Proof. intros E. unfold blank_entry. by rewrite E. Qed.

Lemma scan_at_entry fuel m tok a pe e : entry_at m a e -> a <> pe -> wanted tok e = false ->
  scan_entry crc32 (S fuel) m tok a pe =
    if blank_entry m (a + e_size e) then NextSector
    else scan_entry crc32 fuel m tok (a + e_size e) pe.
Proof.
  intros He Hpe Hw. cbn [scan_entry]. unfold valid_magic. rewrite (en_magic _ _ _ He).
  rewrite (proj2 (Z.eqb_neq a pe)) by done. rewrite (entry_crc_ok _ _ _ He).
  unfold valid_entry. rewrite (en_flag _ _ _ He), (en_token _ _ _ He).
  unfold wanted in Hw. unfold next_entry. by rewrite Hw, (en_size _ _ _ He).
Qed.

Lemma scan_entry_none fuel m tok : forall a es b pe, log m a es b ->
  Forall (fun e => wanted tok e = false) es -> b <= pe -> (pe - a) mod 4 = 0 ->
  erased m b (pe + 4 - b) -> pe - a < 4 * Z.of_nat fuel ->
  scan_entry crc32 fuel m tok a pe = NextSector.
Proof.
  induction fuel as [|fuel IH]; intros a es b pe Hl Hw Hb Hmod Her Hf.
  { apply log_bounds in Hl. lia. }
  pose proof (log_bounds _ _ _ _ Hl) as [Hlb _].
  destruct Hl as [a|a e es b He Hl].
  - cbn [scan_entry]. destruct (Z.eqb_spec a pe) as [|Hne]; [done|].
    unfold valid_magic. rewrite (erased_word m a (pe + 4 - a)) by (done || lia).
    change (0xffffffff =? MagicSig) with false. cbn [negb andb].
    apply (IH (a + 4) [] (a + 4)); [constructor|constructor| |..|lia].
    + Z.div_mod_to_equations. lia.
    + Z.div_mod_to_equations. lia.
    + intros x Hx. apply Her. lia.
  - apply Forall_cons in Hw as [Hw Hws]. pose proof (log_bounds _ _ _ _ Hl).
    pose proof (e_size_min e). pose proof (en_align _ _ _ He).
    rewrite (scan_at_entry _ _ _ _ _ e) by (done || lia).
    destruct (blank_entry _ _); [done|].
    apply (IH _ es b); try done; [|lia].
    replace (pe - (a + e_size e)) with ((pe - a) - e_size e) by lia.
    rewrite Zminus_mod, Hmod. by rewrite H1.
Qed.

Lemma scan_entry_found fuel m tok : forall a es c pe e, log m a es c ->
  Forall (fun e => wanted tok e = false) es -> entry_at m c e -> wanted tok e = true ->
  c < pe -> c - a < 4 * Z.of_nat fuel ->
  scan_entry crc32 fuel m tok a pe = Found c.
Proof.
  induction fuel as [|fuel IH]; intros a es c pe e Hl Hw He Hwe Hc Hf.
  { apply log_bounds in Hl. lia. }
  pose proof (log_bounds _ _ _ _ Hl) as [Hlb _].
  destruct Hl as [a|a e1 es c He1 Hl].
  - cbn [scan_entry]. unfold valid_magic. rewrite (en_magic _ _ _ He).
    rewrite (proj2 (Z.eqb_neq a pe)) by lia. rewrite (entry_crc_ok _ _ _ He).
    unfold valid_entry. rewrite (en_flag _ _ _ He), (en_token _ _ _ He).
    unfold wanted in Hwe. by rewrite Hwe.
  - apply Forall_cons in Hw as [Hw Hws]. pose proof (log_bounds _ _ _ _ Hl).
    pose proof (e_size_min e1).
    rewrite (scan_at_entry _ _ _ _ _ e1) by (done || lia).
    rewrite magic_not_blank.
    + apply (IH _ es c pe e); try done. lia.
    + destruct Hl as [?|? ? ? ? He2 _]; [apply (en_magic _ _ _ He)|apply (en_magic _ _ _ He2)].
Qed.

(** *** Sectors *)

(** What the sector map and the driver agree on. *)
Record sector_ok (s : sector_descriptor_t) : Prop := {
  so_page : 0 < page s;
  so_getpage : up_progmem_getpage (address s) = page s;
  so_addr : up_progmem_getaddress (page s) = address s;
  so_pagesize : up_progmem_pagesize (page s) = size s;
  so_size : 0 < size s /\ size s mod 4 = 0;
  so_flash : pm_base <= address s /\ address s + size s <= pm_base + pm_size;
}.

Definition dead (e : entry) : Prop := e_flag e = ErasedEntry.

Lemma dead_unwanted tok es : Forall dead es -> Forall (fun e => wanted tok e = false) es.
Proof. intros H. eapply Forall_impl; [exact H|]. intros e He. unfold wanted. by rewrite He. Qed.

Record sector_log (m : M) (s : sector_descriptor_t) (es : list entry) (b : Z) : Prop := {
  sl_log : log m (address s) es b;
  sl_room : b + 4 <= address s + size s;
  sl_blank : erased m b (address s + size s - b);
}.

Definition sector_dead (m : M) (s : sector_descriptor_t) : Prop :=
  exists es b, sector_log m s es b /\ Forall dead es.

Definition data_entry (tok : Z) (data : list Z) : entry :=
  Ent (u16 (ValidEntry + size_adjust_of (Z.of_nat (length data)))) tok (padded data).

(** The data is the last entry of the sector's log, the others are erased. *)
Definition sector_holds (m : M) (s : sector_descriptor_t) (tok : Z) (data : list Z) : Prop :=
  exists es b, sector_log m s (es ++ [data_entry tok data]) b /\ Forall dead es.

Lemma sector_log_frame m m' s es b :
  (forall x, address s <= x < address s + size s -> pm_byte m' x = pm_byte m x) ->
  sector_log m s es b -> sector_log m' s es b.
Proof.
  intros Hx Hl. destruct Hl. pose proof (log_bounds _ _ _ _ sl_log0). constructor; [|done|].
  - eapply log_frame; [|done]. intros. apply Hx. lia.
  - intros x Hr. rewrite Hx by lia. apply sl_blank0. lia.
Qed.

Lemma sector_last_eq s : sector_ok s -> sector_last s = address s + size s - 4.
Proof. intros Hs. destruct (so_size _ Hs). unfold sector_last. Z.div_mod_to_equations. lia. Qed.

Lemma scan_fuel_enough s : sector_ok s -> size s < 4 * Z.of_nat (scan_fuel s).
Proof. intros Hs. destruct (so_size _ Hs). unfold scan_fuel. Z.div_mod_to_equations. lia. Qed.

Lemma scan_dead_sector m s tok : sector_ok s -> sector_dead m s ->
  scan_entry crc32 (scan_fuel s) m tok (address s) (sector_last s) = NextSector.
Proof.
  intros Hs (es & b & Hl & Hd). destruct Hl. rewrite sector_last_eq by done.
  pose proof (scan_fuel_enough _ Hs). destruct (so_size _ Hs) as [? Hmod].
  apply (scan_entry_none _ _ _ _ es b); [done|by apply dead_unwanted|lia| | |lia].
  - replace (address s + size s - 4 - address s) with (size s + (-1) * 4) by lia.
    by rewrite Z.mod_add.
  - intros x Hx. apply sl_blank0. lia.
Qed.

(** The address of the entry that a sector holds. *)
Lemma scan_holding_sector m s tok data : sector_ok s -> sector_holds m s tok data ->
  exists es c, log m (address s) es c /\ Forall dead es /\
    entry_at m c (data_entry tok data) /\
    sector_log m s (es ++ [data_entry tok data]) (c + e_size (data_entry tok data)) /\
    scan_entry crc32 (scan_fuel s) m tok (address s) (sector_last s) = Found c.
Proof.
  intros Hs (es & b & Hl & Hd). pose proof Hl as Hl0. destruct Hl.
  destruct (log_app_inv _ _ _ _ _ sl_log0) as (c & Hl1 & Hl2).
  inversion Hl2 as [|? ? ? ? He Hnil]; subst. inversion Hnil; subst.
  exists es, c. split; [done|]. split; [done|]. split; [done|]. split; [done|].
  pose proof (e_size_min (data_entry tok data)). pose proof (scan_fuel_enough _ Hs).
  pose proof (log_bounds _ _ _ _ Hl1).
  apply (scan_entry_found _ _ _ _ es c _ (data_entry tok data)); try done.
  - by apply dead_unwanted.
  - unfold wanted, data_entry. cbn [e_flag e_token]. rewrite Z.eqb_refl, andb_true_r.
    destruct (size_adjust_spec (Z.of_nat (length data)) ltac:(lia)) as [Hadj _].
    assert (size_adjust_of (Z.of_nat (length data)) = 0 \/ size_adjust_of (Z.of_nat (length data)) = 1 \/
      size_adjust_of (Z.of_nat (length data)) = 2 \/ size_adjust_of (Z.of_nat (length data)) = 3)
      as [->|[->|[->| ->]]] by lia; done.
  - rewrite sector_last_eq by done. lia.
  - lia.
Qed.

(** *** The whole file system *)

Record map_ok (secs : list sector_descriptor_t) : Prop := {
  mo_some : secs <> [];
  mo_sectors : forall i s, secs !! i = Some s -> sector_ok s;
  mo_disjoint : forall i j s t, secs !! i = Some s -> secs !! j = Some t -> i <> j ->
    address s + size s <= address t \/ address t + size t <= address s;
}.

Definition others_dead (m : M) (secs : list sector_descriptor_t) (i : nat) : Prop :=
  forall j t, secs !! j = Some t -> j <> i -> sector_dead m t.

(** What the file system holds for a token: nothing yet, all sectors blank, or the data. *)
Definition fs_holds (m : M) (secs : list sector_descriptor_t) (tok : Z) (c : option (list Z)) :
    Prop :=
  match c with
  | None => forall i s, secs !! i = Some s -> erased m (address s) (size s)
  | Some data => exists i s, secs !! i = Some s /\ sector_holds m s tok data /\ others_dead m secs i
  end.

Context (secs : list sector_descriptor_t) (Hmap : map_ok secs).

Lemma blank_sector_dead m s : sector_ok s -> erased m (address s) (size s) -> sector_dead m s.
Proof.
  intros Hs He. destruct (so_size _ Hs). exists [], (address s). split; [|constructor].
  constructor; [constructor| |].
  - Z.div_mod_to_equations. lia.
  - intros x Hx. apply He. lia.
Qed.

Lemma find_entry_dead m tok ss :
  (forall i s, ss !! i = Some s -> sector_ok s /\ sector_dead m s) ->
  find_entry_in crc32 ss m tok = Some None.
Proof.
  induction ss as [|s ss IH]; intros Hss; [done|]. cbn [find_entry_in].
  destruct (Hss 0%nat s eq_refl). rewrite scan_dead_sector by done.
  apply IH. intros i t Hi. by apply (Hss (S i)).
Qed.

Lemma find_entry_holds m tok data : forall ss i s,
  (forall j t, ss !! j = Some t -> sector_ok t /\ (j <> i -> sector_dead m t)) ->
  ss !! i = Some s -> sector_holds m s tok data ->
  exists es c, find_entry_in crc32 ss m tok = Some (Some c) /\
    log m (address s) es c /\ Forall dead es /\ entry_at m c (data_entry tok data) /\
    sector_log m s (es ++ [data_entry tok data]) (c + e_size (data_entry tok data)).
Proof.
  induction ss as [|t ss IH]; intros i s Hss Hi Hh; [done|]. cbn [find_entry_in].
  destruct i as [|i].
  - injection Hi as ->. destruct (Hss 0%nat s eq_refl) as [Hok _].
    destruct (scan_holding_sector m s tok data Hok Hh) as (es & c & ? & ? & ? & ? & ->).
    by exists es, c.
  - destruct (Hss 0%nat t eq_refl) as [Hok Hd]. rewrite scan_dead_sector by (done || by apply Hd).
    apply (IH i); try done. intros j u Hj. destruct (Hss (S j) u Hj) as [? Hdd].
    split; [done|]. intros. apply Hdd. lia.
Qed.

Lemma get_sector_info_at pc : forall ss k i s, ss !! i = Some s ->
  address s <= pc < address s + size s ->
  (forall j t, ss !! j = Some t -> j <> i ->
     address s + size s <= address t \/ address t + size t <= address s) ->
  get_sector_info ss pc k = Some (k + i)%nat.
Proof.
  induction ss as [|t ss IH]; intros k i s Hi Hr Hdis; [done|]. cbn [get_sector_info].
  destruct i as [|i].
  - injection Hi as ->. rewrite (proj2 (Z.leb_le _ _)), (proj2 (Z.leb_le _ _)) by lia.
    cbn [andb]. f_equal. lia.
  - assert ((address t <=? pc) && (pc <=? address t + size t - 1) = false) as ->.
    { apply andb_false_iff. rewrite !Z.leb_gt. specialize (Hdis 0%nat t eq_refl ltac:(lia)). lia. }
    rewrite (IH (S k) i s Hi Hr); [f_equal; lia|]. intros j u Hj Hne. apply (Hdis (S j) u Hj). lia.
Qed.

(** A change inside one sector keeps the others. *)
Lemma dead_frame m m' i s lo n :
  secs !! i = Some s -> address s <= lo -> lo + n <= address s + size s ->
  (forall x, in_range lo n x = false -> pm_byte m' x = pm_byte m x) ->
  others_dead m secs i -> others_dead m' secs i.
Proof.
  intros Hi Hlo Hhi Hx Hd j t Hj Hne. destruct (Hd j t Hj Hne) as (es & b & Hl & Hes).
  exists es, b. split; [|done]. eapply sector_log_frame; [|done]. intros x Hr. apply Hx.
  apply not_true_iff_false. rewrite in_rangeP. intros ?.
  destruct (mo_disjoint _ Hmap i j s t Hi Hj ltac:(done)); lia.
Qed.

(** Erasing the current entry leaves a dead sector, its log one entry longer. *)
Lemma erase_current m tok data i s es c :
  secs !! i = Some s -> log m (address s) es c -> Forall dead es ->
  entry_at m c (data_entry tok data) ->
  sector_log m s (es ++ [data_entry tok data]) (c + e_size (data_entry tok data)) ->
  others_dead m secs i ->
  exists m' es', erase_entry c m = (2, m') /\ Forall dead es' /\ es' <> [] /\
    next_entry m' c = c + e_size (data_entry tok data) /\
    sector_log m' s es' (c + e_size (data_entry tok data)) /\ others_dead m' secs i.
Proof.
  intros Hi Hlog Hdead Hent Hl Hoth. pose proof (mo_sectors _ Hmap _ _ Hi) as Hok.
  pose proof (log_bounds _ _ _ _ Hlog). pose proof (e_size_min (data_entry tok data)).
  destruct Hl as [_ Hroom Hblank]. destruct (so_flash _ Hok).
  destruct (pm_write_zero m (c + off_flag) (le_bytes 2 ErasedEntry)) as (m' & Hw & Hb);
    [unfold off_flag; lia|rewrite le_bytes_length; unfold off_flag; lia|by repeat constructor|].
  rewrite le_bytes_length in Hw, Hb. change (Z.of_nat 2) with 2 in *.
  pose proof (entry_erased m m' c _ Hb Hent) as He'.
  set (e' := Ent _ _ _) in He'.
  assert (Hsz : e_size e' = e_size (data_entry tok data)) by done.
  exists m', (es ++ [e']). split; [exact Hw|].
  split; [apply Forall_app; split; [done|by repeat constructor]|].
  split; [by destruct es|]. split; [unfold next_entry; by rewrite (en_size _ _ _ He')|]. split.
  - constructor; [|done|].
    + eapply log_app; [|apply log_cons; [exact He'|]; rewrite Hsz; constructor].
      eapply log_frame; [|exact Hlog]. intros x Hx. rewrite Hb.
      destruct (in_range _ _ x) eqn:E; [apply in_rangeP in E; unfold off_flag in E; lia|done].
    + intros x Hx. rewrite Hb.
      destruct (in_range _ _ x) eqn:E; [apply in_rangeP in E; unfold off_flag in E; lia|].
      by apply Hblank.
  - eapply (dead_frame m m' i s (c + off_flag) 2); try done; [unfold off_flag; lia..|].
    intros x Hx. by rewrite Hb, Hx.
Qed.

(** Where a new entry of [total] bytes may be programmed. *)
Definition ready (m : M) (total pf : Z) : Prop :=
  exists i s es, secs !! i = Some s /\ Forall dead es /\ log m (address s) es pf /\
    pf + total + 4 <= address s + size s /\
    erased m pf (address s + size s - pf) /\ others_dead m secs i.

(** The next sector, blank or erased on the way, is ready at its start. *)
Lemma next_sector_ready (st : fs M) j t total : secs !! j = Some t ->
  (forall k u, secs !! k = Some u -> sector_dead (fs_mem st) u) ->
  16 <= total -> total + 4 <= size t ->
  let st' := if negb (blank_check (fs_mem st) (address t) total)
             then snd (erase_sector t (address t) st) else st in
  ready (fs_mem st') total (address t) /\ sector_map st' = sector_map st /\
  working_buffer st' = working_buffer st.
Proof.
  intros Hj Hdead Htot Hfit. pose proof (mo_sectors _ Hmap _ _ Hj) as Hok.
  assert (Hready : forall m, erased m (address t) (size t) -> others_dead m secs j ->
    ready m total (address t)).
  { intros m He Ho. exists j, t, []. split; [done|]. split; [done|].
    split; [constructor|]. split; [lia|]. split; [intros x Hx; apply He; lia|done]. }
  destruct (blank_check _ _ _) eqn:Hbc; cbn [negb]; cbv zeta.
  - split; [|done]. apply Hready; [|by intros k u Hk _; apply (Hdead k)].
    destruct (Hdead j t Hj) as (es & b & Hl & _). destruct Hl as [Hlog _ Hbl].
    destruct Hlog as [|a e es b He _]; [intros x Hx; apply Hbl; lia|].
    exfalso. unfold blank_check in Hbc.
    destruct (Z.to_nat (total / 4)) as [|n] eqn:En; [Z.div_mod_to_equations; lia|].
    cbn [blank_words] in Hbc. unfold blank_flash in Hbc. by rewrite (en_magic _ _ _ He) in Hbc.
  - unfold erase_sector. rewrite (so_getpage _ Hok), Z.eqb_refl.
    rewrite (proj2 (Z.ltb_lt 0 _)) by apply (so_page _ Hok). cbn [andb].
    destruct (so_flash _ Hok). rewrite <- (so_addr _ Hok), <- (so_pagesize _ Hok) in *.
    destruct (pm_erase_ok (fs_mem st) (page t)) as (m' & Hm & Hb); [lia..|].
    rewrite Hm. cbn [snd fs_mem sector_map working_buffer]. split; [|done].
    rewrite (so_addr _ Hok), (so_pagesize _ Hok) in *. apply Hready.
    + intros x Hx. rewrite Hb. by rewrite (proj2 (in_rangeP _ _ _)).
    + eapply (dead_frame (fs_mem st) m' j t (address t) (size t)); try done; try lia.
      * intros x Hx. by rewrite Hb, Hx.
      * intros k u Hk _. by apply (Hdead k).
Qed.

(** On a blank file system the first sector is taken. *)
Lemma find_free_blank m total : (forall i s, secs !! i = Some s -> erased m (address s) (size s)) ->
  16 <= total < 2 ^ 16 -> Forall (fun s => total + 4 <= size s) secs ->
  exists s, secs !! 0%nat = Some s /\ find_free_in crc32 secs m (u16 total) = Some (Some (address s)).
Proof.
  intros Hbl Htot Hfit. rewrite wrap_small by (unfold fits; lia).
  pose proof (mo_some _ Hmap). destruct secs as [|s ss] eqn:Es; [done|].
  exists s. split; [done|]. apply Forall_cons in Hfit as [Hfit _].
  specialize (Hbl 0%nat s eq_refl).
  assert (Hw : pm_word m (address s) = BlankSig) by (apply (erased_word m (address s) (size s)); [done|lia|lia]).
  cbn [find_free_in]. destruct (scan_fuel s) as [|fuel] eqn:Ef.
  { unfold scan_fuel in Ef. Z.div_mod_to_equations. lia. }
  cbn [scan_free]. unfold valid_magic, blank_magic, blank_entry. rewrite Hw.
  change (BlankSig =? MagicSig) with false. cbn iota. rewrite Hw, Z.eqb_refl.
  assert (h_flag m (address s) = BlankEntry) as ->.
  { unfold h_flag, pm_half, off_flag. by rewrite !Hbl by lia. }
  change (BlankEntry =? BlankEntry) with true.
  unfold blank_check. rewrite blank_words_erased; [done|].
  intros x Hx. apply Hbl. Z.div_mod_to_equations. lia.
Qed.

Lemma all_dead m i s : secs !! i = Some s -> sector_dead m s -> others_dead m secs i ->
  forall k u, secs !! k = Some u -> sector_dead m u.
Proof.
  intros Hi Hs Ho k u Hk. destruct (decide (k = i)) as [->|Hne]; [|by apply (Ho k)].
  by simplify_eq.
Qed.

Lemma next_sector_lookup i s : secs !! i = Some s ->
  exists t, secs !! get_next_sector_descriptor secs i = Some t.
Proof.
  intros Hi. unfold get_next_sector_descriptor. apply lookup_lt_Some in Hi.
  destruct (Nat.ltb_spec (S i) (length secs)); apply lookup_lt_is_Some; lia.
Qed.

(** Whatever the file system holds, a place for the new entry is found. *)
Lemma place_entry_ready (st : fs M) tok c total :
  fs_holds (fs_mem st) secs tok c -> 16 <= total < 2 ^ 16 -> total mod 4 = 0 ->
  Forall (fun s => total + 4 <= size s) secs ->
  exists pf st', place_entry crc32 secs tok total st = Some (inr pf, st') /\
    ready (fs_mem st') total pf /\ sector_map st' = sector_map st /\
    working_buffer st' = working_buffer st.
Proof.
  intros Hh Htot Hmod Hfit. unfold place_entry.
  assert (Hfit' : forall i s, secs !! i = Some s -> total + 4 <= size s).
  { intros i s Hi. rewrite Forall_lookup in Hfit. by apply (Hfit i). }
  destruct c as [data|]; cbn [fs_holds] in Hh.
  - destruct Hh as (i & s & Hi & Hs & Ho). pose proof (mo_sectors _ Hmap _ _ Hi) as Hok.
    destruct (find_entry_holds (fs_mem st) tok data secs i s) as (es & c & -> & Hlog & Hd & He & Hsl);
      [|done..|].
    { intros j t Hj. split; [by apply (mo_sectors _ Hmap j)|]. by apply Ho. }
    destruct (erase_current _ _ _ _ _ _ _ Hi Hlog Hd He Hsl Ho)
      as (m' & es' & Her & Hd' & Hne & Hnext & Hsl' & Ho').
    pose proof (log_bounds _ _ _ _ Hlog) as [Hc1 Hc2]. pose proof (e_size_min (data_entry tok data)).
    assert (Hinfo : get_sector_info secs c 0 = Some i).
    { apply (get_sector_info_at c secs 0 i s Hi).
      - destruct Hsl. lia.
      - intros j t Hj Hji. apply (mo_disjoint _ Hmap i j); [done..|by apply not_eq_sym]. }
    unfold check_free_space_in_sector. rewrite Hinfo, Hi.
    unfold valid_magic, next_entry at 1 2. rewrite (en_magic _ _ _ He), (en_size _ _ _ He), Z.eqb_refl.
    set (b := c + e_size (data_entry tok data)) in *.
    destruct (_ && _) eqn:Hfree; cbn iota; rewrite Her; change (2 <? 0) with false; cbn iota.
    + apply andb_true_iff in Hfree as [_ Hfree%Z.leb_le].
      exists (next_entry m' c), (set_mem m' st). split; [done|]. rewrite Hnext. split; [|done].
      cbn [set_mem fs_mem]. destruct Hsl' as [Hl' _ Hb']. exists i, s, es'.
      split; [done|]. split; [done|]. split; [done|]. split; [|done].
      pose proof (log_bounds _ _ _ _ Hl'). destruct (so_size _ Hok).
      Z.div_mod_to_equations. lia.
    + destruct (next_sector_lookup i s Hi) as (t & Ht). rewrite Ht.
      rewrite (proj2 (Z.ltb_ge _ _)) by (specialize (Hfit' _ _ Ht); lia).
      assert (Hall : forall k u, secs !! k = Some u -> sector_dead (fs_mem (set_mem m' st)) u).
      { apply (all_dead m' i s Hi); [by exists es', b|done]. }
      destruct (next_sector_ready (set_mem m' st) _ t total Ht Hall) as (Hr & Hm & Hb);
        [lia|by apply (Hfit' _ _ Ht)|].
      cbn [set_mem fs_mem] in Hr, Hm, Hb |- *.
      destruct (negb _); eexists _, _; by split.
  - rewrite find_entry_dead.
    + destruct (find_free_blank (fs_mem st) total Hh Htot Hfit) as (s & Hs & ->).
      exists (address s), st. split; [done|]. split; [|done].
      exists 0%nat, s, []. split; [done|]. split; [done|]. split; [constructor|].
      split; [specialize (Hfit' _ _ Hs); lia|]. split; [intros x Hx; apply (Hh _ _ Hs); lia|].
      intros j t Hj _. apply blank_sector_dead; [by apply (mo_sectors _ Hmap j)|by apply (Hh j)].
    + intros i s Hi. pose proof (mo_sectors _ Hmap _ _ Hi). split; [done|].
      apply blank_sector_dead; [done|by apply (Hh i)].
Qed.

Lemma padded_length data :
  Z.of_nat (length (padded data)) =
    Z.of_nat (length data) + size_adjust_of (Z.of_nat (length data)).
Proof.
  destruct (size_adjust_spec (Z.of_nat (length data)) ltac:(lia)) as [? _].
  unfold padded. rewrite length_app, length_replicate. lia.
Qed.

Lemma entry_bytes_length tok flag body :
  Z.of_nat (length (entry_bytes crc32 tok flag body)) = 16 + Z.of_nat (length body).
Proof. unfold entry_bytes. rewrite length_app, header_length. lia. Qed.

Lemma entry_bytes_byte tok flag body :
  Forall is_byte body -> Forall is_byte (entry_bytes crc32 tok flag body).
Proof.
  intros Hb. unfold entry_bytes, header_bytes.
  repeat (apply Forall_app; split); try done; apply le_bytes_byte.
Qed.

Lemma padded_byte data : Forall is_byte data -> Forall is_byte (padded data).
Proof.
  intros Hd. unfold padded. apply Forall_app. split; [done|]. apply Forall_replicate. fits_const.
Qed.

(** Programming the entry at a ready place makes it the current one. *)
Lemma ready_write m tok data pf (n := Z.of_nat (length data))
    (bs := entry_bytes crc32 tok (u16 (ValidEntry + size_adjust_of n)) (padded data)) :
  ready m (total_size_of n) pf -> total_size_of n < 2 ^ 16 -> fits 32 tok -> Forall is_byte data ->
  exists m', up_progmem_write pf bs m = (total_size_of n, m') /\
    fs_holds m' secs tok (Some data).
Proof.
  intros (i & s & es & Hi & Hd & Hlog & Hroom & Hbl & Ho) Hmax Htok Hdata.
  destruct (size_adjust_spec n ltac:(lia)) as (Hadj & Hmod & Htot).
  pose proof (padded_length data) as Hpl. fold n in Hpl.
  assert (Hlen : Z.of_nat (length bs) = total_size_of n).
  { subst bs. rewrite entry_bytes_length, Hpl. lia. }
  pose proof (mo_sectors _ Hmap _ _ Hi) as Hok. destruct (so_flash _ Hok).
  pose proof (log_bounds _ _ _ _ Hlog).
  destruct (pm_write_erased m pf bs) as (m' & Hw & Hb).
  { lia. } { lia. } { by apply entry_bytes_byte, padded_byte. }
  { intros x Hx. apply Hbl. lia. }
  exists m'. rewrite <- Hlen. split; [done|].
  assert (He : entry_at m' pf (data_entry tok data)).
  { apply entry_written; [done|apply wrap_fits; lia|lia| |].
    - rewrite Hpl. replace (16 + (n + size_adjust_of n)) with (total_size_of n) by lia. done.
    - apply pm_bytes_written. intros x Hx. fold n bs in Hx |- *. by rewrite Hb, Hx. }
  assert (Hes : e_size (data_entry tok data) = total_size_of n)
    by (unfold e_size, data_entry; cbn [e_body]; lia).
  exists i, s. split; [done|]. split.
  - exists es, (pf + total_size_of n). split; [|done]. constructor; [|lia|].
    + eapply log_app; [|apply log_cons; [exact He|]; rewrite Hes; constructor].
      eapply log_frame; [|exact Hlog]. intros x Hx. rewrite Hb.
      destruct (in_range _ _ x) eqn:E; [apply in_rangeP in E; lia|done].
    + intros x Hx. rewrite Hb.
      destruct (in_range _ _ x) eqn:E; [apply in_rangeP in E; lia|]. apply Hbl. lia.
  - eapply (dead_frame m m' i s pf (Z.of_nat (length bs))); try done; try lia.
    intros x Hx. by rewrite Hb, Hx.
Qed.

(** Reading finds the data. *)
Lemma fs_read (st : fs M) tok data : sector_map st = Some secs ->
  fs_holds (fs_mem st) secs tok (Some data) ->
  exists a, parameter_flashfs_read crc32 tok st =
      Some (Z.of_nat (length data), Some (a, Z.of_nat (length data))) /\
    pm_bytes (fs_mem st) a (length data) = data.
Proof.
  intros Hsm (i & s & Hi & Hs & Ho). unfold parameter_flashfs_read. rewrite Hsm.
  destruct (find_entry_holds (fs_mem st) tok data secs i s) as (es & c & -> & _ & _ & He & _);
    [|done..|].
  { intros j t Hj. split; [by apply (mo_sectors _ Hmap j)|]. by apply Ho. }
  set (n := Z.of_nat (length data)). pose proof (padded_length data) as Hpl. fold n in Hpl.
  destruct (size_adjust_spec n ltac:(lia)) as (Hadj & Hmod & Htot).
  assert (Hlen : entry_data_length (fs_mem st) c = n).
  { unfold entry_data_length, entry_size_adjust. rewrite (en_size _ _ _ He), (en_flag _ _ _ He).
    unfold data_entry, e_size. cbn [e_flag e_body]. fold n.
    unfold SizeMask. rewrite land_low2.
    replace (u16 (ValidEntry + size_adjust_of n) mod 4) with (size_adjust_of n).
    - pose proof (en_fits _ _ _ He) as Hf. unfold e_size, data_entry in Hf. cbn [e_body] in Hf.
      rewrite Hpl in *. unfold sizeof_header. rewrite wrap_small; [lia|unfold fits; lia].
    - assert (size_adjust_of n = 0 \/ size_adjust_of n = 1 \/ size_adjust_of n = 2 \/
        size_adjust_of n = 3) as [->|[->|[->| ->]]] by lia; done. }
  exists (entry_data c). rewrite Hlen. split; [done|].
  pose proof (en_body _ _ _ He) as Hb. cbn [data_entry e_body] in Hb.
  unfold padded in Hb. by apply pm_bytes_prefix in Hb as [Hb _].
Qed.

Lemma fs_write (st : fs M) tok c data buffer (n := Z.of_nat (length data)) :
  sector_map st = Some secs -> fs_holds (fs_mem st) secs tok c ->
  working_buffer st = Some buffer -> take (length data) (drop 16 buffer) = data ->
  16 + n + size_adjust_of n <= Z.of_nat (length buffer) ->
  total_size_of n < 2 ^ 16 -> Forall (fun s => total_size_of n + 4 <= size s) secs ->
  fits 32 tok -> Forall is_byte data ->
  exists st', parameter_flashfs_write crc32 tok n st = Some (n, st') /\
    sector_map st' = Some secs /\ fs_holds (fs_mem st') secs tok (Some data).
Proof.
  intros Hsm Hh Hbuf Htake Hcap Hmax Hfit Htok Hdata.
  destruct (size_adjust_spec n ltac:(lia)) as (Hadj & Hmod & Htot).
  destruct (place_entry_ready st tok c (total_size_of n) Hh ltac:(lia) Hmod Hfit)
    as (pf & st' & Hp & Hr & Hsm' & Hb').
  destruct (ready_write _ _ _ _ Hr Hmax Htok Hdata) as (m' & Hw & Hh'). fold n in Hw.
  unfold parameter_flashfs_write. rewrite Hsm, Hp, Hb', Hbuf. unfold sizeof_header.
  rewrite (proj2 (Z.ltb_ge _ _)) by lia.
  replace (Z.to_nat n) with (length data) by (subst n; lia).
  change (Z.to_nat 16) with 16%nat. rewrite Htake.
  set (bs := entry_bytes _ _ _ _) in *.
  assert (Hlen : Z.of_nat (length bs) = total_size_of n).
  { subst bs. rewrite entry_bytes_length, padded_length. fold n. lia. }
  rewrite wrap_small by (unfold fits; lia).
  rewrite take_app_length' by lia. rewrite Hw.
  rewrite (proj2 (Z.leb_le _ _)) by lia.
  eexists. split; [f_equal; f_equal; lia|]. cbn [sector_map fs_mem]. by rewrite Hsm'.
Qed.

(** *** Erasing everything *)

Lemma erase_sector_blank (st : fs M) s : sector_ok s ->
  exists m', erase_sector s (address s) st =
      (0, Fs m' (sector_map st) (working_buffer st) (working_buffer_size st)
             (working_buffer_static st) (page s)) /\
    forall x, pm_byte m' x = if in_range (address s) (size s) x then 0xff else pm_byte (fs_mem st) x.
Proof.
  intros Hok. unfold erase_sector. rewrite (so_getpage _ Hok), Z.eqb_refl.
  rewrite (proj2 (Z.ltb_lt 0 _)) by apply (so_page _ Hok). cbn [andb].
  pose proof (so_flash _ Hok) as [Hlo Hhi].
  destruct (pm_erase_ok (fs_mem st) (page s)) as (m' & Hm & Hb);
    [rewrite (so_addr _ Hok); lia|rewrite (so_addr _ Hok), (so_pagesize _ Hok); lia|].
  rewrite (so_addr _ Hok), (so_pagesize _ Hok) in *. rewrite Hm. exists m'. split; [|done].
  destruct (so_size _ Hok). rewrite Z.eqb_refl, (proj2 (Z.ltb_ge _ _)) by lia. done.
Qed.

Lemma erase_loop_blank ss : forall rv (st : fs M), (forall s, In s ss -> sector_ok s) ->
  exists st', erase_loop ss rv st = (rv + fold_right Z.add 0 (map size ss), st') /\
    sector_map st' = sector_map st /\
    forall x, pm_byte (fs_mem st') x =
      if existsb (fun s => in_range (address s) (size s) x) ss then 0xff else pm_byte (fs_mem st) x.
Proof.
  induction ss as [|s ss IH]; intros rv st Hok.
  { exists st. split; [simpl; f_equal; lia|done]. }
  cbn [erase_loop]. destruct (erase_sector_blank st s) as (m' & -> & Hb); [apply Hok; by left|].
  change (negb (0 =? 0)) with false. cbn iota. set (st1 := Fs _ _ _ _ _ _).
  destruct (IH (rv + size s) st1) as (st' & -> & Hsm & Hx); [intros; apply Hok; by right|].
  exists st'. split; [f_equal; cbn [map fold_right]; lia|]. split; [done|].
  intros x. rewrite Hx. cbn [existsb]. subst st1. cbn [fs_mem]. rewrite Hb.
  destruct (existsb _ ss); [by rewrite orb_true_r|]. by rewrite orb_false_r.
Qed.

Lemma fs_erase (st : fs M) tok : sector_map st = Some secs ->
  exists st', parameter_flashfs_erase st = (fold_right Z.add 0 (map size secs), st') /\
    sector_map st' = Some secs /\ fs_holds (fs_mem st') secs tok None.
Proof.
  intros Hsm. unfold parameter_flashfs_erase. rewrite Hsm.
  destruct (erase_loop_blank secs 0 st) as (st' & -> & Hsm' & Hx).
  { intros s Hs. apply list_elem_of_In, list_elem_of_lookup in Hs as [i Hi].
    by apply (mo_sectors _ Hmap i). }
  exists st'. split; [by rewrite Z.add_0_l|]. split; [by rewrite Hsm'|].
  intros i s Hi x Hr. rewrite Hx.
  replace (existsb _ secs) with true; [done|]. symmetry. apply existsb_exists. exists s.
  split; [apply list_elem_of_In, list_elem_of_lookup; by exists i|by apply in_rangeP].
Qed.

(** C12 (roundtrip). Saving parameters works and keeps the file system sound: whether
    the sectors are blank or hold an earlier version, [parameter_flashfs_write] of a block
    in the working buffer returns its length, the sectors are again logs with exactly that
    block current (the old version erased, a full sector left for the next, a used one
    erased first), and [parameter_flashfs_read] returns the address of the same bytes.  The
    buffer must have room for the header, the block and its padding to a multiple of four,
    which a buffer from the heap has only for such lengths; the whole entry must be
    shorter than 64 KiB and fit in every sector. *)
Theorem flashfs_write_read (st : fs M) tok c data buffer (n := Z.of_nat (length data)) :
  sector_map st = Some secs -> fs_holds (fs_mem st) secs tok c ->
  working_buffer st = Some buffer -> take (length data) (drop 16 buffer) = data ->
  16 + n + size_adjust_of n <= Z.of_nat (length buffer) ->
  total_size_of n < 2 ^ 16 -> Forall (fun s => total_size_of n + 4 <= size s) secs ->
  fits 32 tok -> Forall is_byte data ->
  exists st' a, parameter_flashfs_write crc32 tok n st = Some (n, st') /\
    fs_holds (fs_mem st') secs tok (Some data) /\
    parameter_flashfs_read crc32 tok st' = Some (n, Some (a, n)) /\
    pm_bytes (fs_mem st') a (length data) = data.
Proof.
  intros. destruct (fs_write st tok c data buffer) as (st' & Hw & Hsm & Hh); [done..|].
  destruct (fs_read st' tok data Hsm Hh) as (a & Hr & Hb). by exists st', a.
Qed.

(** Erasing the file system returns the number of bytes of all its
    sectors, leaves every sector blank whatever was in flash, and a read then finds
    no parameters. *)
Theorem flashfs_erase_empties (st : fs M) tok : sector_map st = Some secs ->
  exists st', parameter_flashfs_erase st = (fold_right Z.add 0 (map size secs), st') /\
    fs_holds (fs_mem st') secs tok None /\
    parameter_flashfs_read crc32 tok st' = Some (- ENOENT, None).
Proof.
  intros Hsm. destruct (fs_erase st tok Hsm) as (st' & He & Hsm' & Hh).
  exists st'. split; [done|]. split; [done|]. unfold parameter_flashfs_read. rewrite Hsm'.
  rewrite find_entry_dead; [done|]. intros i s Hi. pose proof (mo_sectors _ Hmap _ _ Hi).
  split; [done|]. apply blank_sector_dead; [done|by apply (Hh i)].
Qed.

(** With the buffer from the heap, saving a block whose length is not a
    multiple of four runs past the buffer: [parameter_flashfs_alloc] grants exactly the
    requested length, and [parameter_flashfs_write] of that many bytes then stores its
    padding behind the end of the allocation. *)
Theorem flashfs_padding_overruns_heap (st : fs M) tok c n :
  sector_map st = Some secs -> fs_holds (fs_mem st) secs tok c ->
  working_buffer_static st = false -> 0 <= n -> n mod 4 <> 0 ->
  total_size_of n < 2 ^ 16 -> Forall (fun s => total_size_of n + 4 <= size s) secs ->
  exists st', parameter_flashfs_alloc true n st = (0, n, st') /\
    parameter_flashfs_write crc32 tok n st' = None.
Proof.
  intros Hsm Hh Hst Hn Hmod4 Hmax Hfit.
  destruct (size_adjust_spec n Hn) as (Hadj & Hmod & Htot).
  unfold parameter_flashfs_alloc. rewrite Hsm, Hst. cbn [negb working_buffer working_buffer_size].
  unfold sizeof_header. rewrite (wrap_small 16 (n + 16)) by (unfold fits; lia).
  eexists. split; [f_equal; f_equal; lia|]. set (st' := Fs _ _ _ _ _ _).
  destruct (place_entry_ready st' tok c (total_size_of n) Hh ltac:(lia) Hmod Hfit)
    as (pf & st2 & Hp & _ & Hsm' & Hb').
  unfold parameter_flashfs_write.
  replace (sector_map st') with (Some secs) by (subst st'; cbn; congruence). rewrite Hp, Hb'.
  cbn [st' working_buffer]. rewrite length_replicate.
  rewrite (proj2 (Z.ltb_lt _ _)); [done|]. unfold sizeof_header.
  assert (size_adjust_of n <> 0) by (intros E; apply Hmod4; Z.div_mod_to_equations; lia). lia.
Qed.

(** An entry whose CRC fails hides everything behind it in its sector: with a
    corrupt header at the start of its only sector the file system reads as empty,
    intact later entries included. *)
Theorem flashfs_bad_crc_hides_sector (st : fs M) tok s :
  sector_map st = Some [s] -> sector_ok s -> 4 < size s ->
  valid_magic (fs_mem st) (address s) = true -> crc_ok crc32 (fs_mem st) (address s) = false ->
  parameter_flashfs_read crc32 tok st = Some (- ENOENT, None).
Proof.
  intros Hsm Hok Hsz Hmg Hcrc. unfold parameter_flashfs_read. rewrite Hsm.
  pose proof (scan_fuel_enough s Hok). cbn [find_entry_in].
  destruct (scan_fuel s) as [|fuel]; [lia|]. cbn [scan_entry].
  rewrite Hmg, Hcrc, sector_last_eq, (proj2 (Z.eqb_neq _ _)) by (done || lia). done.
Qed.

End Spec.

(** ** A small flash, for the witnesses *)
Section Demo.
Import SimFlash.

Definition demo_geometry : geometry := {| g_base := 0x08000000; g_blocks := 3; g_block := 64 |}.
Abbreviation demo_mem := (mem demo_geometry).

Definition demo_map : list sector_descriptor_t :=
  [Sector 1 64 0x08000040; Sector 2 64 0x08000080].

Definition demo_crc (bs : list Z) : Z := u32 (Crc.crc32_signature 0 bs).

Lemma demo_crc_range bs : fits 32 (demo_crc bs).
Proof. apply wrap_fits. lia. Qed.

Lemma demo_sector_ok s : In s demo_map -> sector_ok (M := demo_mem) s.
Proof. intros [<-|[<-|[]]]; by constructor. Qed.

Lemma demo_map_ok : map_ok (M := demo_mem) demo_map.
Proof.
  constructor; [done|..].
  - intros i s Hi. apply demo_sector_ok, list_elem_of_In, list_elem_of_lookup. by exists i.
  - intros [|[|i]] [|[|j]] s t Hi Hj Hne; try done; injection Hi as <-; injection Hj as <-;
      cbn; lia.
Qed.

(** Blank sectors behind a first block of zeros. *)
Definition demo_flash : demo_mem := replicate 64 0 ++ replicate 128 0xff.

Definition demo_fs (buffer : option (list Z)) (m : demo_mem) : fs demo_mem :=
  Fs m (Some demo_map) buffer 40 (match buffer with Some _ => true | None => false end) (-1).

Lemma demo_blank : fs_holds demo_crc demo_flash demo_map parameters_token None.
Proof.
  intros i s Hi x Hx.
  assert (Hr : 0x08000040 <= x < 0x080000c0).
  { destruct i as [|[|i]]; try done; injection Hi as <-; cbn in Hx; lia. }
  cbn [pm_byte sim_progmem]. unfold sim_byte.
  change (g_base demo_geometry) with 0x08000000. change (sim_size demo_geometry) with 192.
  rewrite (proj2 (in_rangeP _ _ _)) by lia.
  unfold demo_flash. rewrite zat_app_r by (rewrite length_replicate; lia). rewrite length_replicate.
  unfold zat. rewrite nth_lookup, lookup_replicate_2 by lia. done.
Qed.

Definition demo_data : list Z := [1; 2; 3; 4; 5].
Definition demo_buffer : list Z := replicate 16 0xff ++ demo_data ++ replicate 19 0xff.

Lemma flashfs_write_read_witness :
  exists st' a,
    parameter_flashfs_write demo_crc parameters_token 5 (demo_fs (Some demo_buffer) demo_flash)
      = Some (5, st') /\
    fs_holds demo_crc (fs_mem st') demo_map parameters_token (Some demo_data) /\
    parameter_flashfs_read demo_crc parameters_token st' = Some (5, Some (a, 5)) /\
    pm_bytes (fs_mem st') a 5 = demo_data.
Proof.
  apply (flashfs_write_read demo_crc demo_crc_range demo_map demo_map_ok
    (demo_fs (Some demo_buffer) demo_flash) parameters_token None demo_data demo_buffer);
    [done|exact demo_blank|done|done|done|done| |fits_const|].
  - by repeat constructor.
  - repeat (apply List.Forall_cons; [fits_const|]). apply List.Forall_nil.
Defined.

Lemma flashfs_erase_empties_witness :
  exists st', parameter_flashfs_erase (demo_fs None (replicate 192 0)) = (128, st') /\
    fs_holds demo_crc (fs_mem st') demo_map parameters_token None /\
    parameter_flashfs_read demo_crc parameters_token st' = Some (- ENOENT, None).
Proof.
  exact (flashfs_erase_empties demo_crc demo_map demo_map_ok (demo_fs None (replicate 192 0))
    parameters_token eq_refl).
Defined.

Lemma flashfs_padding_overruns_heap_witness :
  exists st', parameter_flashfs_alloc true 5 (demo_fs None demo_flash) = (0, 5, st') /\
    parameter_flashfs_write demo_crc parameters_token 5 st' = None.
Proof.
  apply (flashfs_padding_overruns_heap demo_crc demo_map demo_map_ok (demo_fs None demo_flash)
    parameters_token None 5); [done|exact demo_blank|done|lia|done|done|].
  by repeat constructor.
Defined.

(** A corrupt entry of 20 bytes in front of an intact one. *)
Definition demo_corrupt : demo_mem :=
  replicate 64 0 ++
  header_bytes parameters_token ValidEntry 0 20 ++ [1; 2; 3; 4] ++
  entry_bytes demo_crc parameters_token ValidEntry [5; 6; 7; 8] ++ replicate 88 0xff.

Definition demo_corrupt_fs : fs demo_mem :=
  Fs demo_corrupt (Some [Sector 1 64 0x08000040]) None 0 false (-1).

Lemma flashfs_bad_crc_hides_sector_witness :
  parameter_flashfs_read demo_crc parameters_token demo_corrupt_fs = Some (- ENOENT, None) /\
  crc_ok demo_crc demo_corrupt (0x08000040 + 20) = true.
Proof.
  split; [|vm_compute; reflexivity].
  apply (flashfs_bad_crc_hides_sector demo_crc demo_corrupt_fs parameters_token
    (Sector 1 64 0x08000040)); [done|by apply demo_sector_ok; left|done|
    vm_compute; reflexivity|vm_compute; reflexivity].
Defined.

End Demo.
End FlashFsSpec.
