(* ===== verification/Registers.v ===== *)
(** * The PX4IO register interface

    src/src/modules/px4iofirmware/registers.c: the register pages through which the
    flight management unit configures and drives the IO co-processor, with
    [registers_set], [registers_get] and [pwm_configure_rates].  What the code does
    to hardware and to other modules is a trace of effects, an assignment past the end
    of a page sets a flag of the model; the timers' rate groups
    and the results of the PWM driver and the ADC are parameters. *)

From S2P Require Import Prelude.

Local Open Scope Z_scope.

Module Registers.

Definition PX4IO_SERVO_COUNT : Z := 8.
Definition PX4IO_CONTROL_CHANNELS : Z := 8.
Definition PX4IO_RC_INPUT_CHANNELS : Z := 18.
Definition PWM_LOWEST_MIN : Z := 90.
Definition PWM_HIGHEST_MAX : Z := 2500.
Definition PWM_IGNORE_THIS_CHANNEL : Z := 0xffff.

(** Pages (protocol.h). *)
Definition PX4IO_PAGE_CONFIG : Z := 0.
Definition PX4IO_PAGE_STATUS : Z := 1.
Definition PX4IO_PAGE_SERVOS : Z := 3.
Definition PX4IO_PAGE_RAW_RC_INPUT : Z := 4.
Definition PX4IO_PAGE_RAW_ADC_INPUT : Z := 6.
Definition PX4IO_PAGE_PWM_INFO : Z := 7.
Definition PX4IO_PAGE_SETUP : Z := 50.
Definition PX4IO_PAGE_DIRECT_PWM : Z := 54.
Definition PX4IO_PAGE_FAILSAFE_PWM : Z := 55.
Definition PX4IO_PAGE_DISARMED_PWM : Z := 109.
Definition PX4IO_PAGE_TEST : Z := 127.

(** Registers of the status page and their bits. *)
Definition PX4IO_P_STATUS_FLAGS : nat := 2.
Definition PX4IO_P_STATUS_ALARMS : nat := 3.
Definition PX4IO_P_STATUS_VSERVO : nat := 6.
Definition PX4IO_P_STATUS_VRSSI : nat := 7.
Definition PX4IO_P_STATUS_FLAGS_RAW_PWM : Z := 0x40.
Definition PX4IO_P_STATUS_FLAGS_ARM_SYNC : Z := 0x80.
Definition PX4IO_P_STATUS_FLAGS_INIT_OK : Z := 0x100.
Definition PX4IO_P_STATUS_FLAGS_SAFETY_OFF : Z := 0x400.
Definition PX4IO_P_STATUS_ALARMS_PWM_ERROR : Z := 0x2.

(** Registers of the setup page. *)
Definition PX4IO_P_SETUP_FEATURES : Z := 0.
Definition PX4IO_P_SETUP_ARMING : Z := 1.
Definition PX4IO_P_SETUP_PWM_RATES : Z := 2.
Definition PX4IO_P_SETUP_PWM_DEFAULTRATE : Z := 3.
Definition PX4IO_P_SETUP_PWM_ALTRATE : Z := 4.
Definition PX4IO_P_SETUP_DSM : Z := 6.
Definition PX4IO_P_SETUP_SET_DEBUG : Z := 9.
Definition PX4IO_P_SETUP_REBOOT_BL : Z := 10.
Definition PX4IO_P_SETUP_FORCE_SAFETY_OFF : Z := 12.
Definition PX4IO_P_SETUP_FORCE_SAFETY_ON : Z := 14.
Definition PX4IO_P_SETUP_SBUS_RATE : Z := 16.
Definition PX4IO_P_SETUP_THERMAL : Z := 17.
Definition PX4IO_P_SETUP_ENABLE_FLIGHTTERMINATION : Z := 18.
Definition PX4IO_P_SETUP_PWM_RATE_GROUP0 : Z := 19.
Definition PX4IO_P_SETUP_PWM_RATE_GROUP3 : Z := 22.
Definition PX4IO_P_TEST_LED : Z := 0.

Definition FEATURES_SBUS1_OUT : Z := 0x1.
Definition FEATURES_SBUS2_OUT : Z := 0x2.
Definition FEATURES_ADC_RSSI : Z := 0x4.
Definition PX4IO_P_SETUP_FEATURES_VALID : Z := 0x7.
Definition ARMING_IO_ARM_OK : Z := 0x1.
Definition ARMING_FMU_ARMED : Z := 0x2.
Definition ARMING_FMU_PREARMED : Z := 0x4.
Definition ARMING_FAILSAFE_CUSTOM : Z := 0x8.
Definition ARMING_LOCKDOWN : Z := 0x10.
Definition ARMING_FORCE_FAILSAFE : Z := 0x20.
Definition ARMING_TERMINATION_FAILSAFE : Z := 0x40.
Definition PX4IO_P_SETUP_ARMING_VALID : Z := 0x7f.
Definition PX4IO_P_SETUP_RATES_VALID : Z := Z.shiftl 1 PX4IO_SERVO_COUNT - 1.
Definition PX4IO_REBOOT_BL_MAGIC : Z := 14662.
Definition PX4IO_FORCE_SAFETY_MAGIC : Z := 22027.
Definition PX4IO_THERMAL_IGNORE : Z := 0xffff.

(** What a register access does outside the register file, oldest first. *)
Inductive effect :=
| FmuDataReceived                          (* system_state.fmu_data_received_time = now *)
| PwmUpdate (mask : Z)                     (* up_pwm_update *)
| SetRate (group rate : Z)                 (* up_pwm_servo_set_rate_group_update *)
| EnableSbusOut (on : bool)
| ScheduleReboot (delay : Z)
| DsmBind (cmd pulses : Z)
| SbusRate (hz : Z)
| LedAmber (on : bool).

Record io := IO {
  r_page_status : list Z;
  r_page_servos : list Z;
  r_page_raw_rc_input : list Z;
  r_page_scratch : list Z;
  r_page_direct_pwm : list Z;
  r_page_setup : list Z;
  r_page_servo_failsafe : list Z;
  r_page_servo_disarmed : list Z;
  last_page : Z;
  last_offset : Z;
  effects : list effect;
  wild_write : bool;   (* an assignment has run past the end of a page *)
}.

(** The initial values of the pages. *)
Definition r_page_config : list Z := [5; 2; 3; 64; 8; 8; 18; 2].

Definition setup_init : list Z :=
  [FEATURES_ADC_RSSI; 0; 0; 50; 200; 10000; 0; 0; 0; 0; 0; 0; 0; 0; 0; 0; 72;
   PX4IO_THERMAL_IGNORE; 0; 0; 0; 0; 0].

Definition io_init : io :=
  IO (replicate 8 0) (replicate 8 0) (replicate 25 0) (replicate 32 0) (replicate 8 0) setup_init
     (replicate 8 0) (replicate 8 0) 0 0 [] false.

(** Assignments.  C does not check the index of an array: an assignment outside the page
    leaves the page alone here and is remembered in [wild_write]. *)
Definition outside (i : Z) (page : list Z) : bool :=
  (i <? 0) || (Z.of_nat (length page) <=? i).

Definition set_status (i : nat) (v : Z) (s : io) : io :=
  IO (<[i := v]> (r_page_status s)) (r_page_servos s) (r_page_raw_rc_input s) (r_page_scratch s)
     (r_page_direct_pwm s) (r_page_setup s) (r_page_servo_failsafe s) (r_page_servo_disarmed s)
     (last_page s) (last_offset s) (effects s)
     (wild_write s || outside (Z.of_nat i) (r_page_status s)).
Definition set_setup (i : Z) (v : Z) (s : io) : io :=
  IO (r_page_status s) (r_page_servos s) (r_page_raw_rc_input s) (r_page_scratch s)
     (r_page_direct_pwm s) (<[Z.to_nat i := v]> (r_page_setup s)) (r_page_servo_failsafe s)
     (r_page_servo_disarmed s) (last_page s) (last_offset s) (effects s)
     (wild_write s || outside i (r_page_setup s)).
Definition set_direct (i : Z) (v : Z) (s : io) : io :=
  IO (r_page_status s) (r_page_servos s) (r_page_raw_rc_input s) (r_page_scratch s)
     (<[Z.to_nat i := v]> (r_page_direct_pwm s)) (r_page_setup s) (r_page_servo_failsafe s)
     (r_page_servo_disarmed s) (last_page s) (last_offset s) (effects s)
     (wild_write s || outside i (r_page_direct_pwm s)).
Definition set_failsafe (i : Z) (v : Z) (s : io) : io :=
  IO (r_page_status s) (r_page_servos s) (r_page_raw_rc_input s) (r_page_scratch s)
     (r_page_direct_pwm s) (r_page_setup s) (<[Z.to_nat i := v]> (r_page_servo_failsafe s))
     (r_page_servo_disarmed s) (last_page s) (last_offset s) (effects s)
     (wild_write s || outside i (r_page_servo_failsafe s)).
Definition set_disarmed (i : Z) (v : Z) (s : io) : io :=
  IO (r_page_status s) (r_page_servos s) (r_page_raw_rc_input s) (r_page_scratch s)
     (r_page_direct_pwm s) (r_page_setup s) (r_page_servo_failsafe s)
     (<[Z.to_nat i := v]> (r_page_servo_disarmed s)) (last_page s) (last_offset s) (effects s)
     (wild_write s || outside i (r_page_servo_disarmed s)).
Definition set_scratch (v : list Z) (s : io) : io :=
  IO (r_page_status s) (r_page_servos s) (r_page_raw_rc_input s) v
     (r_page_direct_pwm s) (r_page_setup s) (r_page_servo_failsafe s)
     (r_page_servo_disarmed s) (last_page s) (last_offset s) (effects s) (wild_write s).
Definition set_last (p o : Z) (s : io) : io :=
  IO (r_page_status s) (r_page_servos s) (r_page_raw_rc_input s) (r_page_scratch s)
     (r_page_direct_pwm s) (r_page_setup s) (r_page_servo_failsafe s)
     (r_page_servo_disarmed s) p o (effects s) (wild_write s).
Definition emit (e : effect) (s : io) : io :=
  IO (r_page_status s) (r_page_servos s) (r_page_raw_rc_input s) (r_page_scratch s)
     (r_page_direct_pwm s) (r_page_setup s) (r_page_servo_failsafe s)
     (r_page_servo_disarmed s) (last_page s) (last_offset s) (effects s ++ [e]) (wild_write s).

Definition r_status_flags (s : io) : Z := nth PX4IO_P_STATUS_FLAGS (r_page_status s) 0.
Definition r_status_alarms (s : io) : Z := nth PX4IO_P_STATUS_ALARMS (r_page_status s) 0.
Definition setup_reg (i : Z) (s : io) : Z := zat (r_page_setup s) i.
Definition r_setup_arming : io -> Z := setup_reg PX4IO_P_SETUP_ARMING.
Definition r_setup_pwm_rates : io -> Z := setup_reg PX4IO_P_SETUP_PWM_RATES.
Definition r_setup_pwm_defaultrate : io -> Z := setup_reg PX4IO_P_SETUP_PWM_DEFAULTRATE.
Definition r_setup_pwm_altrate : io -> Z := setup_reg PX4IO_P_SETUP_PWM_ALTRATE.

Definition raise_alarm (s : io) : io :=
  set_status PX4IO_P_STATUS_ALARMS (Z.lor (r_status_alarms s) PX4IO_P_STATUS_ALARMS_PWM_ERROR) s.

(** [if (value < 25) value = 25; if (value > 400) value = 400;] *)
Definition clamp_rate (v : Z) : Z :=
  let v := if v <? 25 then 25 else v in if v >? 400 then 400 else v.
Definition clamp_altrate (v : Z) : Z := if negb (v =? 0) then clamp_rate v else v.

Section Driver.
Variable up_pwm_servo_get_rate_group : Z -> Z.
Variable up_pwm_servo_set_rate_group_update : Z -> Z -> bool.   (* true: OK *)
Variable adc_measure_vservo adc_measure_rssi : Z.

Definition groups : list Z := map Z.of_nat (seq 0 8).

(** Pass 0 finds a group that is neither all default nor all alternative. *)
Definition illegal_map (rate_map : Z) : bool :=
  existsb (fun g =>
    let mask := up_pwm_servo_get_rate_group g in
    let alt := Z.land rate_map mask in
    negb (mask =? 0) && negb (alt =? 0) && negb (alt =? mask)) groups.

(** One group of pass 1; the rates come from the registers, not from the arguments. *)
Definition set_group (rate_map : Z) (s : io) (g : Z) : io :=
  let mask := up_pwm_servo_get_rate_group g in
  if mask =? 0 then s
  else
    let rate := if negb (Z.land rate_map mask =? 0)
                then r_setup_pwm_altrate s else r_setup_pwm_defaultrate s in
    let s := emit (SetRate g rate) s in
    if up_pwm_servo_set_rate_group_update g rate then s else raise_alarm s.

Definition pwm_configure_rates (rate_map defaultrate altrate : Z) (s : io) : io :=
  if illegal_map rate_map then raise_alarm s
  else
    let s := fold_left (set_group rate_map) groups s in
    let s := set_setup PX4IO_P_SETUP_PWM_RATES rate_map s in
    let s := set_setup PX4IO_P_SETUP_PWM_DEFAULTRATE defaultrate s in
    set_setup PX4IO_P_SETUP_PWM_ALTRATE altrate s.

(** [PX4IO_P_SETUP_FEATURES] with S.Bus output compiled in. *)
Definition set_features (value : Z) (s : io) : io :=
  let value := Z.land value PX4IO_P_SETUP_FEATURES_VALID in
  let s := emit (EnableSbusOut (has_any value (Z.lor FEATURES_SBUS1_OUT FEATURES_SBUS2_OUT))) s in
  let value := if has_any value FEATURES_SBUS1_OUT
    then clear_bits 16 value (Z.lor FEATURES_ADC_RSSI FEATURES_SBUS2_OUT) else value in
  let value := if has_any value FEATURES_SBUS2_OUT
    then clear_bits 16 value (Z.lor FEATURES_ADC_RSSI FEATURES_SBUS1_OUT) else value in
  let value := if has_any value FEATURES_ADC_RSSI
    then clear_bits 16 value (Z.lor FEATURES_SBUS1_OUT FEATURES_SBUS2_OUT) else value in
  set_setup PX4IO_P_SETUP_FEATURES value s.

Definition set_arming (value : Z) (s : io) : io :=
  let value := Z.land value PX4IO_P_SETUP_ARMING_VALID in
  let value := Z.lor value (Z.land (r_setup_arming s) ARMING_TERMINATION_FAILSAFE) in
  let value :=
    if has_any (r_setup_arming s) ARMING_TERMINATION_FAILSAFE
    then Z.lor value (Z.land (r_setup_arming s) ARMING_FORCE_FAILSAFE) else value in
  set_setup PX4IO_P_SETUP_ARMING value s.

(** The setup page: the result of the C function (0 or -1) and the new state. *)
Definition set_one_setup (offset value : Z) (s : io) : Z * io :=
  if offset =? PX4IO_P_SETUP_FEATURES then (0, set_features value s)
  else if offset =? PX4IO_P_SETUP_ARMING then (0, set_arming value s)
  else if offset =? PX4IO_P_SETUP_PWM_RATES then
    (0, pwm_configure_rates (Z.land value PX4IO_P_SETUP_RATES_VALID)
          (r_setup_pwm_defaultrate s) (r_setup_pwm_altrate s) s)
  else if offset =? PX4IO_P_SETUP_PWM_DEFAULTRATE then
    (0, pwm_configure_rates (r_setup_pwm_rates s) (clamp_rate value) (r_setup_pwm_altrate s) s)
  else if offset =? PX4IO_P_SETUP_PWM_ALTRATE then
    (0, pwm_configure_rates (r_setup_pwm_rates s) (r_setup_pwm_defaultrate s)
          (clamp_altrate value) s)
  else if offset =? PX4IO_P_SETUP_SET_DEBUG then (0, set_setup PX4IO_P_SETUP_SET_DEBUG value s)
  else if offset =? PX4IO_P_SETUP_REBOOT_BL then
    if has_any (r_status_flags s) PX4IO_P_STATUS_FLAGS_SAFETY_OFF then (0, s)
    else if negb (value =? PX4IO_REBOOT_BL_MAGIC) then (0, s)
    else (0, emit (ScheduleReboot 100000) s)
  else if offset =? PX4IO_P_SETUP_DSM then
    (0, emit (DsmBind (Z.land value 0x0f) (Z.land (Z.shiftr value 4) 0xF)) s)
  else if offset =? PX4IO_P_SETUP_FORCE_SAFETY_ON then
    if value =? PX4IO_FORCE_SAFETY_MAGIC
    then (0, set_status PX4IO_P_STATUS_FLAGS
               (clear_bits 16 (r_status_flags s) PX4IO_P_STATUS_FLAGS_SAFETY_OFF) s)
    else (-1, s)
  else if offset =? PX4IO_P_SETUP_FORCE_SAFETY_OFF then
    if value =? PX4IO_FORCE_SAFETY_MAGIC
    then (0, set_status PX4IO_P_STATUS_FLAGS
               (Z.lor (r_status_flags s) PX4IO_P_STATUS_FLAGS_SAFETY_OFF) s)
    else (-1, s)
  else if offset =? PX4IO_P_SETUP_SBUS_RATE then
    (0, emit (SbusRate value) (set_setup offset value s))
  else if (offset =? PX4IO_P_SETUP_THERMAL) || (offset =? PX4IO_P_SETUP_ENABLE_FLIGHTTERMINATION)
  then (0, set_setup offset value s)
  else if (PX4IO_P_SETUP_PWM_RATE_GROUP0 <=? offset) && (offset <=? PX4IO_P_SETUP_PWM_RATE_GROUP3)
  then
    let value := clamp_altrate value in
    let g := offset - PX4IO_P_SETUP_PWM_RATE_GROUP0 in
    let s := emit (SetRate g value) s in
    if up_pwm_servo_set_rate_group_update g value
    then (0, set_setup offset value s) else (0, raise_alarm s)
  else (-1, s).

Definition registers_set_one (page offset value : Z) (s : io) : Z * io :=
  if page =? PX4IO_PAGE_STATUS then
    if offset =? Z.of_nat PX4IO_P_STATUS_ALARMS then
      (0, set_status PX4IO_P_STATUS_ALARMS (clear_bits 16 (r_status_alarms s) value) s)
    else if offset =? Z.of_nat PX4IO_P_STATUS_FLAGS then
      (0, if negb (has_any (r_status_flags s) PX4IO_P_STATUS_FLAGS_ARM_SYNC)
          then set_status PX4IO_P_STATUS_FLAGS value s else s)
    else (0, s)
  else if page =? PX4IO_PAGE_SETUP then set_one_setup offset value s
  else if page =? PX4IO_PAGE_TEST then
    (0, if offset =? PX4IO_P_TEST_LED then emit (LedAmber (has_any value 1)) s else s)
  else (-1, s).

(** The copy loops of the PWM pages, by the values still to come. *)
Fixpoint copy_direct (values : list Z) (offset : Z) (s : io) : io :=
  match values with
  | [] => s
  | v :: values =>
    if offset <? PX4IO_CONTROL_CHANNELS
    then copy_direct values (offset + 1)
           (if negb (v =? PWM_IGNORE_THIS_CHANNEL) then set_direct offset v s else s)
    else s
  end.

Definition clamp_pwm (v : Z) : Z :=
  if v <? PWM_LOWEST_MIN then PWM_LOWEST_MIN
  else if v >? PWM_HIGHEST_MAX then PWM_HIGHEST_MAX else v.

Fixpoint copy_failsafe (values : list Z) (offset : Z) (s : io) : io :=
  match values with
  | [] => s
  | v :: values =>
    if offset <? PX4IO_SERVO_COUNT then
      let s := if v =? 0 then s else set_failsafe offset (clamp_pwm v) s in
      copy_failsafe values (offset + 1)
        (set_setup PX4IO_P_SETUP_ARMING (Z.lor (r_setup_arming s) ARMING_FAILSAFE_CUSTOM) s)
    else s
  end.

Fixpoint copy_disarmed (values : list Z) (offset : Z) (s : io) : io :=
  match values with
  | [] => s
  | v :: values =>
    if offset <? PX4IO_SERVO_COUNT
    then copy_disarmed values (offset + 1)
           (set_disarmed offset (if v =? 0 then 0 else clamp_pwm v) s)
    else s
  end.

(** The loop over single registers; the offset is a uint8_t. *)
Fixpoint set_each (page offset : Z) (values : list Z) (s : io) : Z * io :=
  match values with
  | [] => (0, s)
  | v :: values =>
    let '(r, s) := registers_set_one page offset v s in
    if negb (r =? 0) then (-1, s) else set_each page (u8 (offset + 1)) values s
  end.

Definition registers_set (page offset : Z) (values : list Z) (s : io) : Z * io :=
  if page =? PX4IO_PAGE_DIRECT_PWM then
    let s := copy_direct values offset s in
    let s := emit FmuDataReceived s in
    let s := set_status PX4IO_P_STATUS_FLAGS
               (Z.lor (r_status_flags s) PX4IO_P_STATUS_FLAGS_RAW_PWM) s in
    (0, emit (PwmUpdate 0xff) s)
  else if page =? PX4IO_PAGE_FAILSAFE_PWM then (0, copy_failsafe values offset s)
  else if page =? PX4IO_PAGE_DISARMED_PWM then
    let s := copy_disarmed values offset s in
    (0, set_status PX4IO_P_STATUS_FLAGS
          (Z.lor (r_status_flags s) PX4IO_P_STATUS_FLAGS_INIT_OK) s)
  else
    let num_values := Z.of_nat (length values) in
    let num_values := if offset + num_values >? 255 then 255 - offset else num_values in
    set_each page offset (take (Z.to_nat num_values) values) s.

(** The page selected by a read, after the pages built at read time are refreshed. *)
Definition select_page (page : Z) (s : io) : option (list Z) * io :=
  if page =? PX4IO_PAGE_STATUS then
    let s := if negb (adc_measure_vservo =? 0xffff)
      then set_status PX4IO_P_STATUS_VSERVO (u16 (u32 (adc_measure_vservo * 9900) / 4096)) s else s in
    let s := if negb (adc_measure_rssi =? 0xffff)
      then set_status PX4IO_P_STATUS_VRSSI (u16 (u32 (adc_measure_rssi * 3300) / 4096)) s else s in
    (Some (r_page_status s), s)
  else if page =? PX4IO_PAGE_RAW_ADC_INPUT then
    let scratch := <[1%nat := u16 adc_measure_rssi]>
                     (<[0%nat := u16 adc_measure_vservo]> (replicate 32 0)) in
    (Some scratch, set_scratch scratch s)
  else if page =? PX4IO_PAGE_PWM_INFO then
    let scratch := map (fun g => u16 (up_pwm_servo_get_rate_group g)) groups ++ replicate 24 0 in
    (Some scratch, set_scratch scratch s)
  else if page =? PX4IO_PAGE_CONFIG then (Some r_page_config, s)
  else if page =? PX4IO_PAGE_SERVOS then (Some (r_page_servos s), s)
  else if page =? PX4IO_PAGE_RAW_RC_INPUT then (Some (r_page_raw_rc_input s), s)
  else if page =? PX4IO_PAGE_SETUP then (Some (r_page_setup s), s)
  else if page =? PX4IO_PAGE_DIRECT_PWM then (Some (r_page_direct_pwm s), s)
  else if page =? PX4IO_PAGE_FAILSAFE_PWM then (Some (r_page_servo_failsafe s), s)
  else if page =? PX4IO_PAGE_DISARMED_PWM then (Some (r_page_servo_disarmed s), s)
  else (None, s).

(** [Some] of the registers from the offset on, or [None] for the result -1. *)
Definition registers_get (page offset : Z) (s : io) : option (list Z) * io :=
  match select_page page s with
  | (None, s) => (None, s)
  | (Some values, s) =>
    let s := set_last page offset s in
    if Z.of_nat (length values) <=? offset then (None, s)
    else (Some (drop (Z.to_nat offset) values), s)
  end.

End Driver.
End Registers.
