(* ===== verification/RegistersSpec.v ===== *)
(** * Invariants and safety of the PX4IO registers

    Every page keeps its size and every register its range under any sequence of writes,
    the termination failsafe latches, a reboot needs the safety switch, and what
    [pwm_configure_rates] and the direct PWM page do. *)

From S2P Require Import Prelude Registers.

Local Open Scope Z_scope.

Module RegistersSpec.
Import Registers.

(** ** The register invariant *)

Definition rate_ok (v : Z) : Prop := 25 <= v <= 400.
Definition altrate_ok (v : Z) : Prop := v = 0 \/ rate_ok v.
Definition pwm_ok (v : Z) : Prop := v = 0 \/ PWM_LOWEST_MIN <= v <= PWM_HIGHEST_MAX.

(** What each setup register may hold: at most one of the exclusive features, only
    defined arming bits, a rate map of eight channels, and rates in range. *)
Definition setup_ok (i : nat) (v : Z) : Prop :=
  fits 16 v /\
  (i = 0%nat -> v = 0 \/ v = FEATURES_SBUS1_OUT \/ v = FEATURES_SBUS2_OUT \/ v = FEATURES_ADC_RSSI) /\
  (i = 1%nat -> fits 7 v) /\ (i = 2%nat -> fits 8 v) /\ (i = 3%nat -> rate_ok v) /\
  (i = 4%nat \/ (19 <= i <= 22)%nat -> altrate_ok v).

(** The sizes are those of the C arrays; no assignment ran past the end of one. *)
Record io_ok (s : io) : Prop := {
  ok_status : length (r_page_status s) = 8%nat /\ Forall (fits 16) (r_page_status s);
  ok_servos : length (r_page_servos s) = 8%nat /\ Forall (fits 16) (r_page_servos s);
  ok_rc : length (r_page_raw_rc_input s) = 25%nat /\ Forall (fits 16) (r_page_raw_rc_input s);
  ok_scratch : length (r_page_scratch s) = 32%nat /\ Forall (fits 16) (r_page_scratch s);
  ok_setup : length (r_page_setup s) = 23%nat /\
    forall i v, r_page_setup s !! i = Some v -> setup_ok i v;
  ok_direct : length (r_page_direct_pwm s) = 8%nat /\ Forall (fits 16) (r_page_direct_pwm s);
  ok_failsafe : length (r_page_servo_failsafe s) = 8%nat /\ Forall pwm_ok (r_page_servo_failsafe s);
  ok_disarmed : length (r_page_servo_disarmed s) = 8%nat /\ Forall pwm_ok (r_page_servo_disarmed s);
  ok_inside : wild_write s = false;
}.

(** Decide [setup_ok] at a register given by its number. *)
Ltac setup_cases :=
  try match goal with |- setup_ok (Z.to_nat ?c) _ =>
    let n := eval vm_compute in (Z.to_nat c) in change (Z.to_nat c) with n end;
  unfold setup_ok, altrate_ok, rate_ok; split_and!; intros;
  try (exfalso; lia); try done.

(** A setup register given by its name lies in the page. *)
Ltac setup_index := vm_compute; (split; congruence || lia).

Lemma io_init_ok : io_ok io_init.
Proof.
  constructor; [..|done]; (split; [done|]); try (apply Forall_replicate; by left || fits_const).
  intros i v Hi. cbn [io_init r_page_setup] in Hi.
  do 23 (destruct i as [|i]; [injection Hi as <-; setup_cases; by unfold rate_ok, fits; lia || auto|]).
  done.
Qed.

Lemma stays_inside w i l n : w = false -> length l = n -> 0 <= i < Z.of_nat n ->
  w || outside i l = false.
Proof.
  intros -> <- Hi. unfold outside. cbn [orb].
  by rewrite (proj2 (Z.ltb_ge i 0)), (proj2 (Z.leb_gt _ i)) by lia.
Qed.

(** An assignment inside one page leaves the others alone. *)
Ltac set_page_ok :=
  intros Hi Hv Hs; destruct Hs; constructor; try done; cbn;
  [match goal with H : _ /\ _ |- _ => rewrite length_insert; split; [apply H|by apply Forall_insert; [apply H|]] end
  |match goal with H : length ?l = _ /\ _ |- _ || outside _ ?l = _ =>
     apply (stays_inside _ _ _ _ ltac:(done) (proj1 H)); lia end].

Lemma set_status_ok i v s : (i < 8)%nat -> fits 16 v -> io_ok s -> io_ok (set_status i v s).
Proof. set_page_ok. Qed.

Lemma set_setup_ok i v s : 0 <= i < 23 -> setup_ok (Z.to_nat i) v -> io_ok s ->
  io_ok (set_setup i v s).
Proof.
  intros Hi Hv Hs. destruct Hs as [? ? ? ? [Hl Hf] ? ? ? ?]. constructor; try done; cbn.
  - rewrite length_insert. split; [done|]. intros j w Hj.
    apply list_lookup_insert_Some in Hj as [(<- & <- & _)|[_ Hj]]; [done|by apply Hf].
  - by apply (stays_inside _ _ _ 23).
Qed.

Lemma set_direct_ok i v s : 0 <= i < 8 -> fits 16 v -> io_ok s -> io_ok (set_direct i v s).
Proof. set_page_ok. Qed.

Lemma set_failsafe_ok i v s : 0 <= i < 8 -> pwm_ok v -> io_ok s -> io_ok (set_failsafe i v s).
Proof. set_page_ok. Qed.

Lemma set_disarmed_ok i v s : 0 <= i < 8 -> pwm_ok v -> io_ok s -> io_ok (set_disarmed i v s).
Proof. set_page_ok. Qed.

Lemma set_scratch_ok v s : length v = 32%nat -> Forall (fits 16) v -> io_ok s ->
  io_ok (set_scratch v s).
Proof. intros Hl Hv Hs. by destruct Hs. Qed.

Lemma set_last_ok p o s : io_ok s -> io_ok (set_last p o s).
Proof. intros Hs. by destruct Hs. Qed.

Lemma emit_ok e s : io_ok s -> io_ok (emit e s).
Proof. intros Hs. by destruct Hs. Qed.

Lemma setup_reg_ok i s : io_ok s -> 0 <= i < 23 -> setup_ok (Z.to_nat i) (setup_reg i s).
Proof.
  intros Hs Hi. destruct (ok_setup _ Hs) as [Hl Hf]. apply Hf. unfold setup_reg, zat.
  rewrite nth_lookup. destruct (lookup_lt_is_Some_2 (r_page_setup s) (Z.to_nat i)) as [v Hv]; [lia|].
  by rewrite Hv.
Qed.

Lemma status_nth_fits i s : io_ok s -> fits 16 (nth i (r_page_status s) 0).
Proof.
  intros Hs. destruct (ok_status _ Hs) as [_ Hf]. rewrite nth_lookup.
  destruct (r_page_status s !! i) as [v|] eqn:E; [by rewrite Forall_lookup in Hf; apply (Hf i)|fits_const].
Qed.

Lemma clear_bits_fits v m : fits 16 v -> fits 16 (clear_bits 16 v m).
Proof.
  intros Hv. apply fits_land_l; [lia|done|]. destruct (wrap_fits 16 ltac:(lia) (Z.lnot m)). done.
Qed.

Lemma flags_or_fits s m : io_ok s -> fits 16 m -> fits 16 (Z.lor (r_status_flags s) m).
Proof. intros Hs Hm. apply fits_lor; [lia|by apply status_nth_fits|done]. Qed.

Lemma raise_alarm_ok s : io_ok s -> io_ok (raise_alarm s).
Proof.
  intros Hs. apply set_status_ok; [vm_compute; lia| |done]. apply fits_lor; [lia|by apply status_nth_fits|fits_const].
Qed.

Lemma clamp_rate_ok v : rate_ok (clamp_rate v).
Proof.
  unfold rate_ok, clamp_rate. destruct (Z.ltb_spec v 25); [done|].
  destruct (Z.gtb_spec v 400); lia.
Qed.

Lemma clamp_altrate_ok v : altrate_ok (clamp_altrate v).
Proof.
  unfold clamp_altrate. destruct (Z.eqb_spec v 0); [by left|right; apply clamp_rate_ok].
Qed.

Lemma clamp_pwm_ok v : pwm_ok (clamp_pwm v).
Proof.
  right. unfold clamp_pwm. unfold PWM_LOWEST_MIN, PWM_HIGHEST_MAX.
  destruct (Z.ltb_spec v 90); [lia|]. destruct (Z.gtb_spec v 2500); lia.
Qed.

Lemma rate_fits v : altrate_ok v -> fits 16 v.
Proof. unfold altrate_ok, rate_ok, fits. lia. Qed.

Lemma setup_plain_ok i v : (5 <= i < 19)%nat -> fits 16 v -> setup_ok i v.
Proof. intros. setup_cases. Qed.

Lemma setup_group_ok i v : (19 <= i <= 22)%nat -> altrate_ok v -> setup_ok i v.
Proof. intros Hi Hv. pose proof (rate_fits _ Hv). setup_cases. Qed.

Section Inv.
Variable rate_group : Z -> Z.
Variable set_rate : Z -> Z -> bool.

Lemma set_group_ok m s g : io_ok s -> io_ok (set_group rate_group set_rate m s g).
Proof.
  intros Hs. unfold set_group. destruct (_ =? 0); [done|].
  destruct (set_rate _ _); [by apply emit_ok|by apply raise_alarm_ok, emit_ok].
Qed.

Lemma configure_rates_ok m d a s : io_ok s -> fits 8 m -> rate_ok d -> altrate_ok a ->
  io_ok (pwm_configure_rates rate_group set_rate m d a s).
Proof.
  intros Hs Hm Hd Ha. unfold pwm_configure_rates. destruct (illegal_map _ _); [by apply raise_alarm_ok|].
  assert (Hf : io_ok (fold_left (set_group rate_group set_rate m) groups s)).
  { generalize groups. intros gs. revert s Hs. induction gs; intros; [done|]. cbn.
    by apply IHgs, set_group_ok. }
  assert (fits 16 m) by (by apply (fits_weaken 8)).
  assert (fits 16 a) by (by apply rate_fits).
  assert (fits 16 d) by (apply rate_fits; by right).
  apply set_setup_ok; [setup_index|setup_cases|]. apply set_setup_ok; [setup_index|setup_cases|].
  apply set_setup_ok; [setup_index|setup_cases|done].
Qed.

Lemma land7_cases v : let x := Z.land v 7 in
  x = 0 \/ x = 1 \/ x = 2 \/ x = 3 \/ x = 4 \/ x = 5 \/ x = 6 \/ x = 7.
Proof. cbv zeta. change 7 with (Z.ones 3) at 1 2 3 4 5 6 7 8. rewrite Z.land_ones by lia.
  pose proof (Z.mod_pos_bound v (2 ^ 3)). lia. Qed.

Lemma set_features_ok v s : io_ok s -> io_ok (set_features v s).
Proof.
  intros Hs. unfold set_features, PX4IO_P_SETUP_FEATURES_VALID.
  destruct (land7_cases v) as [E|[E|[E|[E|[E|[E|[E|E]]]]]]]; rewrite E;
    (apply set_setup_ok; [setup_index| |by apply emit_ok]); vm_compute; split_and!; intros; try done; lia || tauto.
Qed.

Lemma arming_fits s : io_ok s -> fits 7 (r_setup_arming s).
Proof. intros Hs. by apply (setup_reg_ok 1 s Hs). Qed.

Lemma arming_setup_ok v : fits 7 v -> setup_ok 1 v.
Proof. intros Hv. setup_cases. by apply (fits_weaken 7). Qed.

Lemma set_arming_ok v s : io_ok s -> io_ok (set_arming v s).
Proof.
  intros Hs. pose proof (arming_fits _ Hs) as Ha. unfold set_arming.
  assert (H0 : fits 7 (Z.land v PX4IO_P_SETUP_ARMING_VALID)).
  { change PX4IO_P_SETUP_ARMING_VALID with (Z.ones 7). rewrite Z.land_ones by lia.
    apply (wrap_fits 7). lia. }
  apply set_setup_ok; [setup_index| |done]. apply arming_setup_ok.
  destruct (has_any _ _); repeat (apply fits_lor; [lia| |]); try done;
    (apply fits_land_l; [lia|done|done]).
Qed.

Lemma set_one_ok page offset v s : io_ok s -> fits 16 v -> 0 <= offset < 256 ->
  io_ok (snd (registers_set_one rate_group set_rate page offset v s)).
Proof.
  intros Hs Hv Ho. unfold registers_set_one, set_one_setup.
  pose proof (setup_reg_ok 2 s Hs ltac:(lia)) as (_ & _ & _ & H2 & _).
  pose proof (setup_reg_ok 3 s Hs ltac:(lia)) as (_ & _ & _ & _ & H3 & _).
  pose proof (setup_reg_ok 4 s Hs ltac:(lia)) as (_ & _ & _ & _ & _ & H4).
  specialize (H2 eq_refl). specialize (H3 eq_refl). specialize (H4 (or_introl eq_refl)).
  repeat match goal with
  | |- io_ok (snd (if ?b then _ else _)) => destruct b eqn:?
  | |- io_ok (snd (_, _)) => cbn [snd]
  | |- io_ok (if ?b then _ else _) => destruct b eqn:?
  | |- io_ok (snd (let _ := _ in _)) => cbv zeta
  end; try done; try apply emit_ok; try apply set_features_ok; try apply set_arming_ok;
  try apply raise_alarm_ok; try apply emit_ok; try done.
  - apply set_status_ok; [vm_compute; lia|by apply clear_bits_fits, status_nth_fits|done].
  - apply set_status_ok; [vm_compute; lia|done|done].
  - apply configure_rates_ok; try done. change PX4IO_P_SETUP_RATES_VALID with (Z.ones 8).
    rewrite Z.land_ones by lia. apply (wrap_fits 8). lia.
  - apply configure_rates_ok; try done. apply clamp_rate_ok.
  - apply configure_rates_ok; try done. apply clamp_altrate_ok.
  - apply set_setup_ok; [setup_index|setup_cases|done].
  - apply set_status_ok; [vm_compute; lia|by apply clear_bits_fits, status_nth_fits|done].
  - apply set_status_ok; [vm_compute; lia|by apply flags_or_fits; [|fits_const]|done].
  - match goal with H : (offset =? PX4IO_P_SETUP_SBUS_RATE) = true |- _ =>
      apply Z.eqb_eq in H; rewrite H end.
    apply set_setup_ok; [setup_index| |done]. apply setup_plain_ok; [vm_compute; lia|done].
  - match goal with H : (offset =? PX4IO_P_SETUP_THERMAL) || _ = true |- _ =>
      apply orb_true_iff in H; rewrite !Z.eqb_eq in H; destruct H as [-> | ->] end;
    (apply set_setup_ok; [setup_index| |done]; apply setup_plain_ok; [vm_compute; lia|done]).
  - assert (Hg : 19 <= offset <= 22).
    { match goal with H : (PX4IO_P_SETUP_PWM_RATE_GROUP0 <=? offset) && _ = true |- _ =>
        apply andb_true_iff in H; rewrite !Z.leb_le in H; exact H end. }
    apply set_setup_ok; [lia| |by apply emit_ok]. clear -Hg.
    apply setup_group_ok; [lia|apply clamp_altrate_ok].
Qed.

Lemma set_each_ok page vs : forall offset s, io_ok s -> Forall (fits 16) vs -> 0 <= offset < 256 ->
  io_ok (snd (set_each rate_group set_rate page offset vs s)).
Proof.
  induction vs as [|v vs IH]; intros offset s Hs Hv Ho; [done|]. cbn [set_each].
  apply Forall_cons in Hv as [Hv Hvs].
  pose proof (set_one_ok page offset v s Hs Hv Ho) as H1.
  destruct (registers_set_one _ _ page offset v s) as [r s1]. cbn [snd] in H1.
  destruct (negb _); [done|]. apply IH; try done. apply (wrap_fits 8). lia.
Qed.

Lemma copy_direct_ok vs : forall offset s, 0 <= offset -> io_ok s -> Forall (fits 16) vs ->
  io_ok (copy_direct vs offset s).
Proof.
  induction vs as [|v vs IH]; intros offset s Ho Hs Hv; [done|]. cbn [copy_direct].
  apply Forall_cons in Hv as [Hv Hvs]. destruct (Z.ltb_spec offset PX4IO_CONTROL_CHANNELS) as [Hlt|]; [|done].
  apply IH; [lia| |done]. destruct (negb _); [by apply set_direct_ok|done].
Qed.

Lemma arming_or_ok s m : io_ok s -> fits 7 m ->
  io_ok (set_setup PX4IO_P_SETUP_ARMING (Z.lor (r_setup_arming s) m) s).
Proof.
  intros Hs Hm. apply set_setup_ok; [setup_index| |done]. apply arming_setup_ok, fits_lor; [lia| |done].
  by apply arming_fits.
Qed.

Lemma copy_failsafe_ok vs : forall offset s, 0 <= offset -> io_ok s ->
  io_ok (copy_failsafe vs offset s).
Proof.
  induction vs as [|v vs IH]; intros offset s Ho Hs; [done|]. cbn [copy_failsafe].
  destruct (Z.ltb_spec offset PX4IO_SERVO_COUNT) as [Hlt|]; [|done].
  apply IH, arming_or_ok; [lia| |fits_const].
  destruct (v =? 0); [done|]. apply set_failsafe_ok; [done|apply clamp_pwm_ok|done].
Qed.

Lemma copy_disarmed_ok vs : forall offset s, 0 <= offset -> io_ok s ->
  io_ok (copy_disarmed vs offset s).
Proof.
  induction vs as [|v vs IH]; intros offset s Ho Hs; [done|]. cbn [copy_disarmed].
  destruct (Z.ltb_spec offset PX4IO_SERVO_COUNT) as [Hlt|]; [|done].
  apply IH, set_disarmed_ok; [lia|done| |done].
  destruct (v =? 0); [by left|apply clamp_pwm_ok].
Qed.

Lemma registers_set_ok page offset vs s : io_ok s -> Forall (fits 16) vs -> 0 <= offset < 256 ->
  io_ok (snd (registers_set rate_group set_rate page offset vs s)).
Proof.
  intros Hs Hv Ho. unfold registers_set.
  destruct (page =? PX4IO_PAGE_DIRECT_PWM).
  { assert (io_ok (emit FmuDataReceived (copy_direct vs offset s))).
    { apply emit_ok, copy_direct_ok; [lia|done|done]. }
    apply emit_ok, set_status_ok; [vm_compute; lia|by apply flags_or_fits; [|fits_const]|done]. }
  destruct (page =? PX4IO_PAGE_FAILSAFE_PWM); [apply copy_failsafe_ok; [lia|done]|].
  destruct (page =? PX4IO_PAGE_DISARMED_PWM).
  { assert (io_ok (copy_disarmed vs offset s)) by (apply copy_disarmed_ok; [lia|done]).
    apply set_status_ok; [vm_compute; lia|by apply flags_or_fits; [|fits_const]|done]. }
  apply set_each_ok; [done| |done]. by apply Forall_take.
Qed.

(** A write request of the FMU: page, offset, values. *)
Record request := Req { rq_page : Z; rq_offset : Z; rq_values : list Z }.

Definition request_ok (r : request) : Prop :=
  0 <= rq_offset r < 256 /\ Forall (fits 16) (rq_values r).

Definition serve (s : io) (r : request) : io :=
  snd (registers_set rate_group set_rate (rq_page r) (rq_offset r) (rq_values r) s).

(** An access of the FMU: a write, or a read while the converter measures the given
    voltages. *)
Inductive access :=
| Write (r : request)
| Read (page offset vservo rssi : Z).

Definition access_ok (a : access) : Prop :=
  match a with Write r => request_ok r | Read _ offset _ _ => 0 <= offset < 256 end.

Definition serve_access (s : io) (a : access) : io :=
  match a with
  | Write r => serve s r
  | Read page offset av ar => snd (registers_get rate_group av ar page offset s)
  end.

Lemma u16_fits v : fits 16 (u16 v).
Proof. apply (wrap_fits 16). lia. Qed.

Lemma select_page_ok av ar page s : io_ok s -> io_ok (snd (select_page rate_group av ar page s)).
Proof.
  intros Hs. unfold select_page.
  repeat match goal with
  | |- io_ok (snd (if ?b then _ else _)) => destruct b
  | |- io_ok (snd (let _ := _ in _)) => cbv zeta
  | |- io_ok (snd (_, _)) => cbn [snd]
  | |- io_ok (if ?b then _ else _) => destruct b
  | |- io_ok (set_status _ _ _) => apply set_status_ok; [vm_compute; lia|apply u16_fits|]
  end; try done.
  - apply set_scratch_ok; [by rewrite !length_insert| |done].
    repeat (apply Forall_insert; [|apply u16_fits]). apply Forall_replicate. fits_const.
  - apply set_scratch_ok; [done| |done]. apply Forall_app. split.
    + apply Forall_fmap, Forall_forall. intros g _. apply u16_fits.
    + apply Forall_replicate. fits_const.
Qed.

Lemma registers_get_ok av ar page offset s : io_ok s ->
  io_ok (snd (registers_get rate_group av ar page offset s)).
Proof.
  intros Hs. pose proof (select_page_ok av ar page s Hs) as H1. unfold registers_get.
  destruct (select_page rate_group av ar page s) as [[l|] s1]; [|done]. cbn [snd] in H1.
  destruct (_ <=? _); by apply set_last_ok.
Qed.

(** C33 (invariant). Register file: whatever the FMU writes or reads, with any page, any
    8-bit offset and any number of 16-bit values, starting from the power-on values, no
    assignment runs past the end of a page and all eight pages keep their sizes; the
    failsafe and disarmed outputs are off or within the PWM limits, the rates within 25
    to 400 Hz (or 0 for oneshot), the rate map covers only the eight channels, only
    defined arming bits are set, at most one of the exclusive features is on, and every
    other register holds 16 bits. *)
Theorem registers_invariant accesses : Forall access_ok accesses ->
  io_ok (fold_left serve_access accesses io_init).
Proof.
  intros Ha. apply (fold_left_inv io_ok access_ok); [|apply io_init_ok|done].
  intros s1 [r|page offset av ar] H1 H2; [destruct H2; by apply registers_set_ok|].
  by apply registers_get_ok.
Qed.

End Inv.

(** The failsafe values run past the last channel, and the alternative rate is below
    the lowest one. *)
Lemma registers_invariant_witness :
  io_ok (fold_left (serve_access (fun _ => 0) (fun _ _ => true))
    [Write (Req PX4IO_PAGE_FAILSAFE_PWM 6 [50; 9000; 1500]);
     Write (Req PX4IO_PAGE_SETUP 2 [0xff; 10; 3]);
     Read PX4IO_PAGE_STATUS 0 1000 0xffff] io_init).
Proof.
  apply registers_invariant.
  do 2 (apply List.Forall_cons; [split; [cbn; lia|cbn; repeat (apply List.Forall_cons; [fits_const|]);
    apply List.Forall_nil]|]).
  apply List.Forall_cons; [cbn; lia|apply List.Forall_nil].
Defined.

(** ** The failsafe latch *)
Section Latch.
Variable rate_group : Z -> Z.
Variable set_rate : Z -> Z -> bool.

Definition latched (m : Z) (s : io) : Prop :=
  length (r_page_setup s) = 23%nat /\ has_all (r_setup_arming s) m = true.

(** The arming register is untouched. *)
Definition same_arming (s s' : io) : Prop :=
  length (r_page_setup s') = length (r_page_setup s) /\ r_setup_arming s' = r_setup_arming s.

Lemma same_arming_refl s : same_arming s s.
Proof. done. Qed.

Lemma same_arming_trans s1 s2 s3 : same_arming s1 s2 -> same_arming s2 s3 -> same_arming s1 s3.
Proof. unfold same_arming. intros [-> ->] [-> ->]. done. Qed.

Lemma same_set_setup i v s : 0 <= i -> i <> 1 -> same_arming s (set_setup i v s).
Proof.
  intros Hi Hne. split; cbn; [by rewrite length_insert|].
  unfold r_setup_arming, setup_reg, zat. cbn [set_setup r_page_setup].
  rewrite !nth_lookup, list_lookup_insert_ne; [done|]. unfold PX4IO_P_SETUP_ARMING. lia.
Qed.

Lemma same_latched m s s' : same_arming s s' -> latched m s -> latched m s'.
Proof. unfold latched. by intros [-> ->]. Qed.

Lemma latched_set_arming m v s : length (r_page_setup s) = 23%nat -> has_all v m = true ->
  latched m (set_setup PX4IO_P_SETUP_ARMING v s).
Proof.
  intros Hl Hv. split; cbn; [by rewrite length_insert|].
  unfold r_setup_arming, setup_reg, zat. cbn [set_setup r_page_setup].
  by rewrite nth_lookup, list_lookup_insert_eq by (rewrite Hl; vm_compute; lia).
Qed.

Lemma same_set_group m s g : same_arming s (set_group rate_group set_rate m s g).
Proof. unfold set_group. destruct (_ =? 0); [done|]. by destruct (set_rate _ _). Qed.

Lemma same_set_groups m gs : forall s,
  same_arming s (fold_left (set_group rate_group set_rate m) gs s).
Proof.
  induction gs as [|g gs IH]; intros s; [done|]. cbn [fold_left].
  eapply same_arming_trans; [apply same_set_group|apply IH].
Qed.

Lemma same_configure m d a s :
  same_arming s (pwm_configure_rates rate_group set_rate m d a s).
Proof.
  unfold pwm_configure_rates. destruct (illegal_map _ _); [done|].
  eapply same_arming_trans; [apply (same_set_groups m groups)|].
  eapply same_arming_trans; [|by apply same_set_setup].
  eapply same_arming_trans; [|by apply same_set_setup]. by apply same_set_setup.
Qed.

Lemma same_set_one page offset v s : 0 <= offset -> offset <> PX4IO_P_SETUP_ARMING ->
  same_arming s (snd (registers_set_one rate_group set_rate page offset v s)).
Proof.
  intros Ho Hne. unfold registers_set_one, set_one_setup.
  rewrite (proj2 (Z.eqb_neq offset PX4IO_P_SETUP_ARMING)) by done.
  assert (Hset : forall w t, same_arming t (set_setup offset w t)) by (intros; by apply same_set_setup).
  repeat match goal with
  | |- same_arming _ (snd (if ?b then _ else _)) => destruct b
  | |- same_arming _ (snd (_, _)) => cbn [snd]
  | |- same_arming _ (if ?b then _ else _) => destruct b
  end; try done; try apply same_configure; try apply Hset.
  - exact (same_set_setup 0 _ (emit _ s) (Z.le_refl 0) ltac:(done)).
  - by apply same_set_setup.
  - exact (Hset _ (emit _ s)).
Qed.

(** Masks of latched bits: the termination bit, alone or with the force-failsafe bit. *)
Definition latch_mask (m : Z) : Prop :=
  m = ARMING_TERMINATION_FAILSAFE \/
  m = Z.lor ARMING_TERMINATION_FAILSAFE ARMING_FORCE_FAILSAFE.

Lemma has_all_lor_l a b m : has_all a m = true -> has_all (Z.lor a b) m = true.
Proof. rewrite !has_all_spec. intros H i Hi Hm. by rewrite Z.lor_spec, (H i Hi Hm). Qed.

Lemma latched_arming m v s : latch_mask m -> latched m s -> latched m (set_arming v s).
Proof.
  intros Hm [Hl Hh]. apply latched_set_arming; [done|].
  rewrite has_all_spec in Hh.
  assert (Ht : Z.testbit (r_setup_arming s) 6 = true) by (apply Hh; [lia|by destruct Hm as [-> | ->]]).
  assert (has_any (r_setup_arming s) ARMING_TERMINATION_FAILSAFE = true) as ->.
  { unfold has_any. apply negb_true_iff, Z.eqb_neq. intros E.
    apply (f_equal (fun z => Z.testbit z 6)) in E. rewrite Z.land_spec, Ht in E. done. }
  apply has_all_spec. intros i Hi Hb. specialize (Hh i Hi Hb).
  rewrite !Z.lor_spec, !Z.land_spec, Hh.
  assert (i = 6 \/ i = 5) as [-> | ->]; [|by rewrite !orb_true_r..].
  destruct Hm as [-> | ->].
  - left. change ARMING_TERMINATION_FAILSAFE with (2 ^ 6) in Hb.
    rewrite Z.pow2_bits_eqb in Hb by lia. apply Z.eqb_eq in Hb. lia.
  - change ARMING_TERMINATION_FAILSAFE with (2 ^ 6) in Hb. change ARMING_FORCE_FAILSAFE with (2 ^ 5) in Hb.
    rewrite Z.lor_spec, !Z.pow2_bits_eqb, orb_true_iff, !Z.eqb_eq in Hb by lia. lia.
Qed.

Lemma latched_set_one m page offset v s : latch_mask m -> 0 <= offset -> latched m s ->
  latched m (snd (registers_set_one rate_group set_rate page offset v s)).
Proof.
  intros Hm Ho Hs. destruct (decide (offset = PX4IO_P_SETUP_ARMING)) as [->|Hne].
  - unfold registers_set_one. destruct (page =? PX4IO_PAGE_STATUS); [done|].
    destruct (page =? PX4IO_PAGE_SETUP); [by apply latched_arming|].
    by destruct (page =? PX4IO_PAGE_TEST).
  - eapply same_latched; [|exact Hs]. by apply same_set_one.
Qed.

Lemma latched_set_each m page vs : latch_mask m -> forall offset s, 0 <= offset -> latched m s ->
  latched m (snd (set_each rate_group set_rate page offset vs s)).
Proof.
  intros Hm. induction vs as [|v vs IH]; intros offset s Ho Hs; [done|]. cbn [set_each].
  pose proof (latched_set_one m page offset v s Hm Ho Hs) as H1.
  destruct (registers_set_one _ _ page offset v s) as [r s1]. cbn [snd] in H1.
  destruct (negb _); [done|]. apply IH; [|done]. apply (wrap_fits 8). lia.
Qed.

Lemma same_copy_direct vs : forall offset s, same_arming s (copy_direct vs offset s).
Proof.
  induction vs as [|v vs IH]; intros offset s; [done|]. cbn [copy_direct].
  destruct (_ <? _); [|done]. eapply same_arming_trans; [|apply IH]. by destruct (negb _).
Qed.

Lemma same_copy_disarmed vs : forall offset s, same_arming s (copy_disarmed vs offset s).
Proof.
  induction vs as [|v vs IH]; intros offset s; [done|]. cbn [copy_disarmed].
  destruct (_ <? _); [|done]. by eapply same_arming_trans; [|apply IH].
Qed.

Lemma latched_copy_failsafe m vs : forall offset s, latched m s ->
  latched m (copy_failsafe vs offset s).
Proof.
  induction vs as [|v vs IH]; intros offset s Hs; [done|]. cbn [copy_failsafe].
  destruct (_ <? _); [|done]. apply IH.
  assert (Hs1 : latched m (if v =? 0 then s else set_failsafe offset (clamp_pwm v) s))
    by (by destruct (v =? 0)).
  destruct Hs1 as [Hl Hh]. apply latched_set_arming; [done|by apply has_all_lor_l].
Qed.

Lemma latched_serve m s r : latch_mask m -> request_ok r -> latched m s ->
  latched m (serve rate_group set_rate s r).
Proof.
  intros Hm [Ho _] Hs. unfold serve, registers_set.
  destruct (rq_page r =? PX4IO_PAGE_DIRECT_PWM).
  { eapply same_latched; [|exact Hs]. exact (same_copy_direct (rq_values r) (rq_offset r) s). }
  destruct (rq_page r =? PX4IO_PAGE_FAILSAFE_PWM); [by apply latched_copy_failsafe|].
  destruct (rq_page r =? PX4IO_PAGE_DISARMED_PWM).
  { eapply same_latched; [|exact Hs]. exact (same_copy_disarmed (rq_values r) (rq_offset r) s). }
  apply latched_set_each; [done|lia|done].
Qed.

(** Flight termination latches: once the FMU has set the termination
    failsafe, with or without forcing the failsafe outputs, no sequence of register
    writes takes either bit back. *)
Theorem termination_latches m s rs : latch_mask m -> Forall request_ok rs -> latched m s ->
  latched m (fold_left (serve rate_group set_rate) rs s).
Proof.
  intros Hm Hrs Hs. apply (fold_left_inv (latched m) request_ok); [|done|done].
  intros s1 r H1 Hr. by apply latched_serve.
Qed.

(** *** Rates and reboot *)

Lemma emitted_set_group m s g :
  effects (set_group rate_group set_rate m s g) = effects s ++
    (if rate_group g =? 0 then []
     else [SetRate g (if Z.land m (rate_group g) =? 0
                      then r_setup_pwm_defaultrate s else r_setup_pwm_altrate s)]).
Proof.
  unfold set_group. destruct (rate_group g =? 0); [by rewrite app_nil_r|].
  destruct (Z.land _ _ =? 0); cbn [negb]; by destruct (set_rate _ _).
Qed.

Lemma setup_set_group m s g :
  r_page_setup (set_group rate_group set_rate m s g) = r_page_setup s.
Proof. unfold set_group. destruct (_ =? 0); [done|]. by destruct (set_rate _ _). Qed.

(** The driver calls of pass 1, with the rates found in the registers. *)
Definition rate_calls (m d a : Z) (gs : list Z) : list effect :=
  flat_map (fun g => if rate_group g =? 0 then []
    else [SetRate g (if Z.land m (rate_group g) =? 0 then d else a)]) gs.

Lemma emitted_set_groups m gs : forall s,
  let s' := fold_left (set_group rate_group set_rate m) gs s in
  effects s' = effects s ++
    rate_calls m (r_setup_pwm_defaultrate s) (r_setup_pwm_altrate s) gs /\
  r_page_setup s' = r_page_setup s.
Proof.
  induction gs as [|g gs IH]; intros s; [by rewrite app_nil_r|]. cbn [fold_left].
  destruct (IH (set_group rate_group set_rate m s g)) as [He Hs].
  cbv zeta. rewrite He, Hs, emitted_set_group, setup_set_group. split; [|done].
  unfold r_setup_pwm_defaultrate, r_setup_pwm_altrate, setup_reg. rewrite setup_set_group.
  by rewrite <- app_assoc.
Qed.

(** Changing the PWM rates is all or nothing: a map that splits a
    timer group raises the PWM alarm and changes neither a register nor a timer; a
    legal map stores the three registers and programs every timer group once, but
    with the rates the registers held before the change, not with the new ones. *)
Theorem configure_rates_spec m d a s : length (r_page_setup s) = 23%nat ->
  let s' := pwm_configure_rates rate_group set_rate m d a s in
  if illegal_map rate_group m then
    r_page_setup s' = r_page_setup s /\ effects s' = effects s /\ s' = raise_alarm s
  else
    (r_setup_pwm_rates s' = m /\ r_setup_pwm_defaultrate s' = d /\ r_setup_pwm_altrate s' = a) /\
    effects s' = effects s ++
      rate_calls m (r_setup_pwm_defaultrate s) (r_setup_pwm_altrate s) groups.
Proof.
  intros Hl. unfold pwm_configure_rates. destruct (illegal_map rate_group m); [done|].
  pose proof (emitted_set_groups m groups s) as He. cbv zeta in He |- *.
  revert He. generalize (fold_left (set_group rate_group set_rate m) groups s). intros s1 [He Hs].
  split; [|exact He].
  unfold r_setup_pwm_rates, r_setup_pwm_defaultrate, r_setup_pwm_altrate, setup_reg.
  cbn [set_setup r_page_setup]. rewrite Hs.
  rewrite !zat_insert by (rewrite ?length_insert, ?Hl; vm_compute; congruence || lia). done.
Qed.

Definition reboot_scheduled (d : Z) (s : io) : Prop := In (ScheduleReboot d) (effects s).

(** A reboot into the bootloader is only ever scheduled by the magic value on
    its register while the safety is on. *)
Theorem reboot_needs_safety page offset v s d :
  reboot_scheduled d (snd (registers_set_one rate_group set_rate page offset v s)) ->
  reboot_scheduled d s \/
  (page = PX4IO_PAGE_SETUP /\ offset = PX4IO_P_SETUP_REBOOT_BL /\ v = PX4IO_REBOOT_BL_MAGIC /\
   has_any (r_status_flags s) PX4IO_P_STATUS_FLAGS_SAFETY_OFF = false).
Proof.
  unfold reboot_scheduled.
  assert (Hcfg : forall m df a,
    In (ScheduleReboot d) (effects (pwm_configure_rates rate_group set_rate m df a s)) ->
    In (ScheduleReboot d) (effects s)).
  { intros m df a. unfold pwm_configure_rates. destruct (illegal_map _ _); [done|].
    pose proof (emitted_set_groups m groups s) as He. cbv zeta in He. revert He.
    generalize (fold_left (set_group rate_group set_rate m) groups s). intros s1 [He _].
    cbn [set_setup effects]. rewrite He, in_app_iff. intros [|Hin]; [done|]. exfalso.
    unfold rate_calls in Hin. apply in_flat_map in Hin as (g & _ & Hg).
    destruct (rate_group g =? 0); [done|]. by destruct Hg. }
  unfold registers_set_one, set_one_setup.
  repeat match goal with
  | |- context [snd (if ?b then _ else _)] => destruct b eqn:?
  | |- context [snd (_, _)] => cbn [snd]
  | |- context [effects (if ?b then _ else _)] => destruct b eqn:?
  end; try (by left); try (intros Hin; left; by apply (Hcfg _ _ _ Hin));
  cbn [set_features set_arming set_setup set_status raise_alarm emit effects];
  rewrite ?in_app_iff; intros Hin; try (left; by destruct Hin as [|[|[]]]).
  destruct Hin as [|_]; [by left|]. right. rewrite !Z.eqb_eq in *.
  by rewrite negb_false_iff, Z.eqb_eq in *.
Qed.

End Latch.

(** ** Reading registers *)

(** The value a write leaves in a channel that held [old]. *)
Definition written (v old : Z) : Z := if v =? PWM_IGNORE_THIS_CHANNEL then old else v.

Lemma copy_direct_spec vs : forall o s, 0 <= o -> o + Z.of_nat (length vs) <= 8 ->
  length (r_page_direct_pwm s) = 8%nat ->
  length (r_page_direct_pwm (copy_direct vs o s)) = 8%nat /\
  forall j, 0 <= j -> zat (r_page_direct_pwm (copy_direct vs o s)) j =
    if (o <=? j) && (j <? o + Z.of_nat (length vs))
    then written (zat vs (j - o)) (zat (r_page_direct_pwm s) j) else zat (r_page_direct_pwm s) j.
Proof.
  induction vs as [|v vs IH]; intros o s Ho Hn Hl.
  { split; [done|]. intros j Hj. cbn [copy_direct length].
    destruct (Z.leb_spec o j); [|done]. by rewrite (proj2 (Z.ltb_ge _ _)) by (simpl; lia). }
  cbn [length] in Hn. cbn [copy_direct]. unfold PX4IO_CONTROL_CHANNELS.
  rewrite (proj2 (Z.ltb_lt o 8)) by lia. set (s1 := if negb _ then _ else s).
  assert (Hl1 : length (r_page_direct_pwm s1) = 8%nat).
  { subst s1. destruct (negb _); [|done]. cbn. by rewrite length_insert. }
  assert (Hz : forall j, 0 <= j -> zat (r_page_direct_pwm s1) j =
    if j =? o then written v (zat (r_page_direct_pwm s) j) else zat (r_page_direct_pwm s) j).
  { intros j Hj. subst s1. unfold written. destruct (v =? PWM_IGNORE_THIS_CHANNEL); cbn [negb].
    - by destruct (j =? o).
    - cbn [set_direct r_page_direct_pwm]. by rewrite zat_insert, Z2Nat.id by lia. }
  destruct (IH (o + 1) s1 ltac:(lia) ltac:(lia) Hl1) as [Hl2 Hr]. split; [done|].
  intros j Hj. rewrite Hr, Hz by done. cbn [length].
  destruct (Z.eqb_spec j o) as [->|Hne].
  - rewrite (proj2 (Z.leb_gt (o + 1) o)), (proj2 (Z.leb_le o o)),
      (proj2 (Z.ltb_lt o (o + Z.of_nat (S (length vs))))) by lia.
    by rewrite Z.sub_diag.
  - replace (o + Z.of_nat (S (length vs))) with (o + 1 + Z.of_nat (length vs)) by lia.
    destruct (Z.leb_spec o j), (Z.leb_spec (o + 1) j); try lia; [|done].
    destruct (Z.ltb_spec j (o + 1 + Z.of_nat (length vs))); [|done]. cbn [andb].
    unfold zat at 3. replace (Z.to_nat (j - o)) with (S (Z.to_nat (j - (o + 1)))) by lia. done.
Qed.

(** Reading back what was written: values sent to the direct PWM page from
    an offset on appear at their channels when the page is read, except that the
    ignore mark leaves a channel as it was. *)
Theorem direct_pwm_readback rg sr av ar offset vs s :
  0 <= offset -> offset + Z.of_nat (length vs) <= 8 -> length (r_page_direct_pwm s) = 8%nat ->
  (0 < length vs)%nat ->
  exists s1 s2 out,
    registers_set rg sr PX4IO_PAGE_DIRECT_PWM offset vs s = (0, s1) /\
    registers_get rg av ar PX4IO_PAGE_DIRECT_PWM offset s1 = (Some out, s2) /\
    forall i, (i < length vs)%nat ->
      nth i out 0 = written (nth i vs 0) (zat (r_page_direct_pwm s) (offset + Z.of_nat i)).
Proof.
  intros Ho Hn Hl Hpos. destruct (copy_direct_spec vs offset s Ho Hn Hl) as [Hl1 Hz].
  unfold registers_set. change (PX4IO_PAGE_DIRECT_PWM =? PX4IO_PAGE_DIRECT_PWM) with true. cbn iota.
  revert Hl1 Hz. generalize (copy_direct vs offset s). intros s1 Hl1 Hz.
  eexists _, _, _. split; [done|]. unfold registers_get.
  change (select_page rg av ar PX4IO_PAGE_DIRECT_PWM ?t) with (Some (r_page_direct_pwm t), t).
  cbn [emit set_status r_page_direct_pwm]. rewrite Hl1.
  rewrite (proj2 (Z.leb_gt (Z.of_nat 8) offset)) by lia. split; [done|].
  intros i Hi. rewrite nth_lookup, lookup_drop, <- nth_lookup.
  specialize (Hz (offset + Z.of_nat i) ltac:(lia)).
  rewrite (proj2 (Z.leb_le _ _)), (proj2 (Z.ltb_lt _ _)) in Hz by lia. cbn [andb] in Hz.
  unfold zat in Hz at 1. replace (Z.to_nat (offset + Z.of_nat i)) with (Z.to_nat offset + i)%nat in Hz by lia.
  rewrite Hz. unfold zat at 1. by replace (Z.to_nat (offset + Z.of_nat i - offset)) with i by lia.
Qed.

Lemma direct_pwm_readback_witness :
  exists s1 s2 out,
    registers_set (fun _ => 0) (fun _ _ => true) PX4IO_PAGE_DIRECT_PWM 2 [1500; 0xffff] io_init = (0, s1) /\
    registers_get (fun _ => 0) 0 0 PX4IO_PAGE_DIRECT_PWM 2 s1 = (Some out, s2) /\
    forall i, (i < 2)%nat ->
      nth i out 0 = written (nth i [1500; 0xffff] 0) (zat (r_page_direct_pwm io_init) (2 + Z.of_nat i)).
Proof.
  apply (direct_pwm_readback (fun _ => 0) (fun _ _ => true) 0 0 2 [1500; 0xffff] io_init);
    [lia|cbn; lia|done|cbn; lia].
Defined.

Definition latched_state : io :=
  set_setup PX4IO_P_SETUP_ARMING (Z.lor ARMING_TERMINATION_FAILSAFE ARMING_FORCE_FAILSAFE) io_init.

Lemma termination_latches_witness :
  latched (Z.lor ARMING_TERMINATION_FAILSAFE ARMING_FORCE_FAILSAFE)
    (fold_left (serve (fun _ => 0) (fun _ _ => true)) [Req PX4IO_PAGE_SETUP 1 [0]] latched_state).
Proof.
  apply termination_latches; [by right| |done].
  apply List.Forall_cons; [|apply List.Forall_nil]. split; [cbn; lia|].
  apply List.Forall_cons; [fits_const|apply List.Forall_nil].
Defined.

Lemma configure_rates_spec_witness :
  let s' := pwm_configure_rates (fun _ => 0xff) (fun _ _ => true) 0xff 50 400 io_init in
  (r_setup_pwm_rates s' = 0xff /\ r_setup_pwm_defaultrate s' = 50 /\ r_setup_pwm_altrate s' = 400) /\
  effects s' = effects io_init ++ rate_calls (fun _ => 0xff) 0xff 50 200 groups.
Proof.
  exact (configure_rates_spec (fun _ => 0xff) (fun _ _ => true) 0xff 50 400 io_init eq_refl).
Defined.

Lemma reboot_needs_safety_witness :
  reboot_scheduled 100000 io_init \/
  (PX4IO_PAGE_SETUP = PX4IO_PAGE_SETUP /\ PX4IO_P_SETUP_REBOOT_BL = PX4IO_P_SETUP_REBOOT_BL /\
   PX4IO_REBOOT_BL_MAGIC = PX4IO_REBOOT_BL_MAGIC /\
   has_any (r_status_flags io_init) PX4IO_P_STATUS_FLAGS_SAFETY_OFF = false).
Proof.
  apply (reboot_needs_safety (fun _ => 0) (fun _ _ => true) PX4IO_PAGE_SETUP
    PX4IO_P_SETUP_REBOOT_BL PX4IO_REBOOT_BL_MAGIC io_init 100000). by left.
Defined.

End RegistersSpec.
