(* ===== verification/BlTimer.v ===== *)
(** * The software timers of the CAN bootloader

    src/platforms/nuttx/src/canbootloader/sched/timer.c: a fixed table of one-shot,
    repeating and timeout timers that the system tick counts down, with callbacks.
    A callback is client code: a parameter that may change the table, and every call
    is recorded in a trace. *)

From S2P Require Import Prelude.

Local Open Scope Z_scope.

Module BlTimer.

(** [bl_timer_modes_t] and [bl_timer_ctl_t]. *)
Definition OneShot : Z := 1.
Definition Repeating : Z := 2.
Definition Timeout : Z := 3.
Definition modeMsk : Z := 0x3.
Definition running : Z := 0x40.
Definition inuse : Z := 0x80.

Record bl_timer_cb_t := Cb { context : Z; cb : Z }.   (* [cb = 0] is the null pointer *)

Definition null_cb : bl_timer_cb_t := Cb 0 0.

Record bl_timer_t := Timer {
  usr : bl_timer_cb_t;
  count : Z;
  reload : Z;
  ctl : Z;
}.

(** [memset(&timers[t], 0, sizeof(timers[t]))] *)
Definition zero_timer : bl_timer_t := Timer null_cb 0 0 0.

Definition set_count (v : Z) (x : bl_timer_t) : bl_timer_t := Timer (usr x) v (reload x) (ctl x).
Definition set_ctl (v : Z) (x : bl_timer_t) : bl_timer_t := Timer (usr x) (count x) (reload x) v.

(** The static data, and the callbacks made so far. *)
Record sched := Sched {
  sys_tic : Z;
  timers : list bl_timer_t;
  calls : list (nat * bl_timer_cb_t);
}.

Definition set_timers (ts : list bl_timer_t) (s : sched) : sched :=
  Sched (sys_tic s) ts (calls s).

Section Tick.
Variable OPT_BL_NUMBER_TIMERS : nat.
Variable ms_elapsed : Z.            (* CONFIG_USEC_PER_TICK / 1000 *)
Variable client : nat -> bl_timer_cb_t -> list bl_timer_t -> list bl_timer_t.

Definition timer_tic (s : sched) : Z := sys_tic s.

(** [if (user.cb) user.cb(t, user.context);] *)
Definition callback (t : nat) (u : bl_timer_cb_t) (s : sched) : sched :=
  if cb u =? 0 then s else Sched (sys_tic s) (client t u (timers s)) (calls s ++ [(t, u)]).

(** One iteration of the loop over the table. *)
Definition process_timer (s : sched) (t : nat) : sched :=
  match timers s !! t with
  | None => s
  | Some x =>
    if has_all (ctl x) (Z.lor inuse running) then
      if negb (count x =? 0) then
        if count x >? ms_elapsed then
          set_timers (<[t := set_count (u32 (count x - ms_elapsed)) x]> (timers s)) s
        else
          let s := set_timers (<[t := set_count 0 x]> (timers s)) s in
          let mode := Z.land (ctl x) (Z.lnot (Z.lor inuse running)) in
          if mode =? OneShot then
            callback t (usr x) (set_timers (<[t := zero_timer]> (timers s)) s)
          else if mode =? Repeating then
            callback t (usr x) (set_timers (<[t := set_count (reload x) x]> (timers s)) s)
          else if mode =? Timeout then callback t (usr x) s
          else s
      else s
    else s
  end.

(** From the highest timer to the lowest. *)
Definition timer_ids : list nat := rev (seq 0 OPT_BL_NUMBER_TIMERS).

Definition nxsched_process_timer (s : sched) : sched :=
  fold_left process_timer timer_ids (Sched (u32 (sys_tic s + 1)) (timers s) (calls s)).

(** The scan of [timer_allocate]; a [bl_timer_id] is a uint8_t, so falling off the end of
    the table leaves 255. *)
Fixpoint allocate_scan (ts : list nat) (tab : list bl_timer_t) : Z :=
  match ts with
  | [] => 255
  | t :: ts =>
    match tab !! t with
    | Some x => if Z.land (ctl x) inuse =? 0 then Z.of_nat t else allocate_scan ts tab
    | None => 255
    end
  end.

Definition timer_allocate (mode msfromnow : Z) (fc : option bl_timer_cb_t) (s : sched) : Z * sched :=
  let t := allocate_scan timer_ids (timers s) in
  if t =? 255 then (t, s)
  else (t, set_timers (<[Z.to_nat t :=
              Timer (default null_cb fc) msfromnow msfromnow
                    (Z.lor (Z.land mode (Z.lor modeMsk running)) inuse)]> (timers s)) s).

Definition timer_update (f : bl_timer_t -> bl_timer_t) (id : nat) (s : sched) : sched :=
  set_timers (alter f id (timers s)) s.

Definition timer_free : nat -> sched -> sched := timer_update (fun _ => zero_timer).
Definition timer_start : nat -> sched -> sched :=
  timer_update (fun x => Timer (usr x) (reload x) (reload x) (Z.lor (ctl x) running)).
Definition timer_stop : nat -> sched -> sched :=
  timer_update (fun x => set_ctl (Z.land (ctl x) (Z.lnot running)) x).
Definition timer_restart (id : nat) (ms : Z) : sched -> sched :=
  timer_update (fun x => Timer (usr x) ms ms (Z.lor (ctl x) running)) id.

Definition timer_expired (id : nat) (s : sched) : bool :=
  match timers s !! id with
  | Some x => has_any (ctl x) running && (count x =? 0)
  | None => false
  end.

(** [timer_ref] is the address of the counter; reading through it: *)
Definition timer_ref_expired (id : nat) (s : sched) : bool :=
  match timers s !! id with Some x => count x =? 0 | None => false end.

Definition timer_init (s : sched) : sched :=
  Sched 0 (replicate OPT_BL_NUMBER_TIMERS zero_timer) (calls s).

End Tick.

(** ** Expiry times *)
Section Spec.
Variable N : nat.
Variable e : Z.
Variable client : nat -> bl_timer_cb_t -> list bl_timer_t -> list bl_timer_t.
Hypothesis e_pos : 0 < e.

Abbreviation tick := (nxsched_process_timer N e client).
Abbreviation step := (process_timer e client).

(** Callbacks leave timer [t] alone. *)
Definition leaves (t : nat) : Prop := forall i u ts, client i u ts !! t = ts !! t.

(** What a tick does to one timer, and whether its callback is due. *)
Definition tick_one (x : bl_timer_t) : bl_timer_t * bool :=
  if has_all (ctl x) (Z.lor inuse running) && negb (count x =? 0) then
    if count x >? e then (set_count (u32 (count x - e)) x, false)
    else
      let mode := Z.land (ctl x) (Z.lnot (Z.lor inuse running)) in
      if mode =? OneShot then (zero_timer, true)
      else if mode =? Repeating then (set_count (reload x) x, true)
      else if mode =? Timeout then (set_count 0 x, true)
      else (set_count 0 x, false)
  else (x, false).

(** Callbacks of timer [t] in the trace. *)
Definition fired (t : nat) (s : sched) : list (nat * bl_timer_cb_t) :=
  List.filter (fun c => (fst c =? t)%nat) (calls s).

Lemma fired_callback_ne t t' u s : t' <> t -> leaves t ->
  timers (callback client t' u s) !! t = timers s !! t /\
  fired t (callback client t' u s) = fired t s.
Proof.
  intros Hne Hc. unfold callback. destruct (cb u =? 0); [done|]. cbn. split; [apply Hc|].
  unfold fired. cbn. rewrite List.filter_app. cbn. rewrite (proj2 (Nat.eqb_neq _ _)) by done.
  apply app_nil_r.
Qed.

Lemma step_other t t' s : t' <> t -> leaves t ->
  timers (step s t') !! t = timers s !! t /\ fired t (step s t') = fired t s.
Proof.
  intros Hne Hc. unfold process_timer. destruct (timers s !! t') as [x|]; [|done].
  destruct (has_all _ _); [|done]. destruct (negb _); [|done].
  assert (Hset : forall y tr, timers (set_timers (<[t' := y]> tr) s) !! t = tr !! t)
    by (intros; cbn; by apply list_lookup_insert_ne).
  destruct (_ >? _); [by rewrite Hset|]. cbv zeta.
  repeat case_match; try (split; [|done]); try (by rewrite Hset);
  match goal with |- context [callback client t' ?u ?s1] =>
    destruct (fired_callback_ne t t' u s1 Hne Hc) as [-> ->] end;
  (split; [|done]); cbn [set_timers timers]; by rewrite !list_lookup_insert_ne by done.
Qed.

Lemma step_same t s x : timers s !! t = Some x -> leaves t ->
  timers (step s t) !! t = Some (fst (tick_one x)) /\
  fired t (step s t) = fired t s ++
    (if snd (tick_one x) && negb (cb (usr x) =? 0) then [(t, usr x)] else []).
Proof.
  intros Hx Hc. unfold process_timer, tick_one. rewrite Hx.
  assert (Hlt : (t < length (timers s))%nat) by (by eapply lookup_lt_Some).
  assert (Hcall : forall y s1, timers s1 !! t = Some y ->
    timers (callback client t (usr x) s1) !! t = Some y /\
    fired t (callback client t (usr x) s1) = fired t s1 ++
      (if negb (cb (usr x) =? 0) then [(t, usr x)] else [])).
  { intros y s1 Hy. unfold callback. destruct (cb (usr x) =? 0); cbn [negb]; [by rewrite app_nil_r|].
    cbn [timers]. rewrite Hc. split; [done|]. unfold fired. cbn [calls].
    rewrite List.filter_app. cbn. by rewrite Nat.eqb_refl. }
  destruct (has_all _ _); cbn [andb fst snd]; [|by rewrite app_nil_r].
  destruct (negb (count x =? 0)); cbn [fst snd andb]; [|by rewrite app_nil_r].
  destruct (_ >? _); cbn [fst snd andb].
  { rewrite app_nil_r. split; [|done]. cbn. by apply list_lookup_insert_eq. }
  cbv zeta.
  assert (Hins : forall y, timers (set_timers (<[t:=y]> (timers
    (set_timers (<[t:=set_count 0 x]> (timers s)) s))) (set_timers (<[t:=set_count 0 x]> (timers s)) s)) !! t
    = Some y).
  { intros y. cbn. apply list_lookup_insert_eq. by rewrite length_insert. }
  destruct (_ =? OneShot); cbn [fst snd andb]; [exact (Hcall zero_timer _ (Hins _))|].
  destruct (_ =? Repeating); cbn [fst snd andb]; [exact (Hcall (set_count (reload x) x) _ (Hins _))|].
  assert (H0 : timers (set_timers (<[t:=set_count 0 x]> (timers s)) s) !! t = Some (set_count 0 x))
    by (cbn; by apply list_lookup_insert_eq).
  destruct (_ =? Timeout); cbn [fst snd andb]; [exact (Hcall _ _ H0)|]. by rewrite app_nil_r.
Qed.

Lemma steps_other t ids : forall s, ~ In t ids -> leaves t ->
  timers (fold_left step ids s) !! t = timers s !! t /\ fired t (fold_left step ids s) = fired t s.
Proof.
  induction ids as [|i ids IH]; intros s Hn Hc; [done|]. cbn [fold_left].
  destruct (step_other t i s) as [H1 H2]; [intros ->; apply Hn; by left|done|].
  destruct (IH (step s i)) as [-> ->]; [intros ?; apply Hn; by right|done|]. done.
Qed.

(** A tick, seen from one timer. *)
Lemma tick_timer t s x : (t < N)%nat -> timers s !! t = Some x -> leaves t ->
  timers (tick s) !! t = Some (fst (tick_one x)) /\
  fired t (tick s) = fired t s ++
    (if snd (tick_one x) && negb (cb (usr x) =? 0) then [(t, usr x)] else []).
Proof.
  intros Ht Hx Hc. unfold nxsched_process_timer.
  set (s0 := Sched _ _ _). change (timers s) with (timers s0) in Hx. change (fired t s) with (fired t s0).
  assert (Hin : In t (timer_ids N)) by (unfold timer_ids; rewrite <- in_rev; apply in_seq; lia).
  assert (Hnd : List.NoDup (timer_ids N)) by (apply List.NoDup_rev, seq_NoDup).
  apply in_split in Hin as (l1 & l2 & Hl). rewrite Hl in *.
  apply NoDup_remove_2 in Hnd. rewrite in_app_iff in Hnd.
  rewrite fold_left_app. cbn [fold_left].
  destruct (steps_other t l1 s0) as [Ha Hb]; [tauto|done|].
  destruct (step_same t (fold_left step l1 s0) x) as [Hc1 Hd1]; [by rewrite Ha|done|].
  destruct (steps_other t l2 (step (fold_left step l1 s0) t)) as [-> ->]; [tauto|done|].
  by rewrite Hc1, Hd1, Hb.
Qed.

Fixpoint ticks (n : nat) (s : sched) : sched :=
  match n with O => s | S n => tick (ticks n s) end.

(** A started timer of mode [m] that will run for [c] more milliseconds. *)
Definition started (m c : Z) (x : bl_timer_t) : Prop :=
  ctl x = Z.lor m (Z.lor inuse running) /\ count x = c.

Lemma started_ctl m x : m = OneShot \/ m = Repeating \/ m = Timeout ->
  ctl x = Z.lor m (Z.lor inuse running) ->
  has_all (ctl x) (Z.lor inuse running) = true /\
  Z.land (ctl x) (Z.lnot (Z.lor inuse running)) = m /\ has_any (ctl x) running = true.
Proof. intros [-> | [-> | ->]] ->; done. Qed.

(** Before it expires a timer just counts down. *)
Lemma count_down m t x n : forall s, m = OneShot \/ m = Repeating \/ m = Timeout -> leaves t ->
  (t < N)%nat -> timers s !! t = Some x -> started m (count x) x -> fits 32 (count x) ->
  Z.of_nat n * e < count x ->
  timers (ticks n s) !! t = Some (set_count (count x - Z.of_nat n * e) x) /\
  fired t (ticks n s) = fired t s.
Proof.
  intros s Hm Hc Ht Hx [Hctl _] Hf Hlt. induction n as [|n IH].
  { cbn [ticks]. rewrite Hx. split; [|done]. destruct x. unfold set_count. cbn. do 2 f_equal. lia. }
  destruct IH as [IH1 IH2]; [lia|]. cbn [ticks].
  destruct (tick_timer t _ _ Ht IH1 Hc) as [-> ->].
  destruct (started_ctl m x Hm Hctl) as (Hrun & _ & _).
  unfold tick_one. cbn [set_count ctl count]. rewrite Hrun.
  rewrite (proj2 (Z.eqb_neq _ _)) by nia. cbn [negb andb].
  rewrite (proj2 (Z.gtb_lt _ _)) by nia. cbn [fst snd andb].
  unfold fits in Hf. rewrite wrap_small by (unfold fits; nia).
  rewrite app_nil_r. split; [|done]. unfold set_count. cbn [usr reload ctl]. do 2 f_equal. nia.
Qed.

(** The number of ticks after which [ms] milliseconds are over. *)
Definition periods (ms : Z) : Z := (ms + e - 1) / e.

Lemma periods_spec ms n : 0 < ms -> periods ms <= n <-> ms <= n * e.
Proof.
  intros Hms. unfold periods. split; intros H.
  - pose proof (Z.mul_div_le (ms + e - 1) e e_pos).
    pose proof (Z.mul_succ_div_gt (ms + e - 1) e e_pos). nia.
  - apply Z.lt_succ_r, Z.div_lt_upper_bound; nia.
Qed.

Lemma periods_pos ms : 0 < ms -> 1 <= periods ms.
Proof. intros. unfold periods. apply Z.div_le_lower_bound; lia. Qed.

(** The tick at which the countdown ends. *)
Lemma expiry m t x s : m = OneShot \/ m = Repeating \/ m = Timeout -> leaves t ->
  (t < N)%nat -> timers s !! t = Some x -> started m (count x) x -> fits 32 (count x) ->
  0 < count x ->
  let n := Z.to_nat (periods (count x)) in
  timers (ticks n s) !! t = Some (if m =? OneShot then zero_timer
    else if m =? Repeating then set_count (reload x) x else set_count 0 x) /\
  fired t (ticks n s) = fired t s ++ (if cb (usr x) =? 0 then [] else [(t, usr x)]).
Proof.
  intros Hm Hc Ht Hx Hst Hf Hpos n. subst n.
  pose proof (periods_pos (count x) Hpos).
  pose proof (proj1 (periods_spec (count x) (periods (count x)) Hpos) ltac:(lia)) as Hge.
  assert (Hlt : (periods (count x) - 1) * e < count x).
  { apply Z.nle_gt. intros Hle. apply periods_spec in Hle; lia. }
  replace (Z.to_nat (periods (count x))) with (S (Z.to_nat (periods (count x) - 1))) by lia.
  cbn [ticks].
  destruct (count_down m t x (Z.to_nat (periods (count x) - 1)) s) as [H1 H2];
    [done..|rewrite Z2Nat.id by lia; lia|].
  rewrite Z2Nat.id in H1 by lia.
  destruct (tick_timer t _ _ Ht H1 Hc) as [-> ->]. rewrite H2.
  destruct Hst as [Hctl _]. destruct (started_ctl m x Hm Hctl) as (Hrun & Hmode & _).
  unfold tick_one. cbn [set_count ctl count usr reload]. rewrite Hrun.
  rewrite (proj2 (Z.eqb_neq _ _)) by lia. cbn [negb andb].
  rewrite Z.gtb_ltb, (proj2 (Z.ltb_ge _ _)) by nia. rewrite Hmode.
  destruct Hm as [-> | [-> | ->]]; cbn [Z.eqb Pos.eqb OneShot Repeating Timeout fst snd andb];
    (split; [done|]); by destruct (cb (usr x) =? 0).
Qed.

Lemma ticks_add n k s : ticks (n + k) s = ticks n (ticks k s).
Proof. induction n as [|n IH]; [done|]. cbn [Nat.add ticks]. by rewrite IH. Qed.

(** A timer that is stopped, free or expired stays as it is. *)
Lemma rest_ticks t x n s : leaves t -> (t < N)%nat -> timers s !! t = Some x ->
  has_all (ctl x) (Z.lor inuse running) = false \/ count x = 0 ->
  timers (ticks n s) !! t = Some x /\ fired t (ticks n s) = fired t s.
Proof.
  intros Hc Ht Hx Hr. induction n as [|n [IH1 IH2]]; [done|]. cbn [ticks].
  destruct (tick_timer t _ _ Ht IH1 Hc) as [-> ->].
  assert (tick_one x = (x, false)) as ->.
  { unfold tick_one. destruct Hr as [-> | ->]; [done|]. by rewrite andb_false_r. }
  cbn [fst snd andb]. by rewrite app_nil_r.
Qed.

(** A timeout timer expires exactly on time: [n] ticks after it was
    started for [ms] milliseconds [timer_expired] holds if and only if [n] tick
    lengths cover [ms], and by then its callback has been made exactly once (if it
    has one) and before that not at all. *)
Theorem timeout_expires_on_time t x n s :
  leaves t -> (t < N)%nat -> timers s !! t = Some x -> started Timeout (count x) x ->
  0 < count x < 2 ^ 32 ->
  timer_expired t (ticks n s) = (count x <=? Z.of_nat n * e) /\
  fired t (ticks n s) = fired t s ++
    (if (count x <=? Z.of_nat n * e) && negb (cb (usr x) =? 0) then [(t, usr x)] else []).
Proof.
  intros Hc Ht Hx Hst Hms. unfold timer_expired.
  destruct (started_ctl Timeout x ltac:(auto) (proj1 Hst)) as (_ & _ & Hrun).
  destruct (Z.leb_spec (count x) (Z.of_nat n * e)) as [Hle|Hlt].
  - apply periods_spec in Hle; [|lia]. pose proof (periods_pos (count x) ltac:(lia)).
    replace n with ((n - Z.to_nat (periods (count x))) + Z.to_nat (periods (count x)))%nat by lia.
    rewrite ticks_add.
    destruct (expiry Timeout t x s) as [H1 H2]; [by auto|done..|unfold fits; lia|lia|].
    cbv zeta in H1, H2. cbn [Z.eqb Pos.eqb Timeout OneShot Repeating] in H1.
    destruct (rest_ticks t (set_count 0 x) (n - Z.to_nat (periods (count x)))
      (ticks (Z.to_nat (periods (count x))) s)) as [-> ->]; [done..|by right|].
    rewrite H2. cbn [set_count ctl count andb]. rewrite Hrun. split; [done|].
    by destruct (cb (usr x) =? 0).
  - destruct (count_down Timeout t x n s) as [-> ->]; [by auto|done..|unfold fits; lia|done|].
    cbn [set_count ctl count andb]. rewrite Hrun, app_nil_r. split; [|done].
    apply Z.eqb_neq. lia.
Qed.

(** A one-shot timer makes its callback exactly once, at the first tick
    that covers its time, and is free for allocation from then on. *)
Theorem oneshot_fires_once t x n s :
  leaves t -> (t < N)%nat -> timers s !! t = Some x -> started OneShot (count x) x ->
  0 < count x < 2 ^ 32 ->
  timers (ticks n s) !! t =
    Some (if count x <=? Z.of_nat n * e then zero_timer
          else set_count (count x - Z.of_nat n * e) x) /\
  fired t (ticks n s) = fired t s ++
    (if (count x <=? Z.of_nat n * e) && negb (cb (usr x) =? 0) then [(t, usr x)] else []).
Proof.
  intros Hc Ht Hx Hst Hms.
  destruct (Z.leb_spec (count x) (Z.of_nat n * e)) as [Hle|Hlt].
  - apply periods_spec in Hle; [|lia]. pose proof (periods_pos (count x) ltac:(lia)).
    replace n with ((n - Z.to_nat (periods (count x))) + Z.to_nat (periods (count x)))%nat by lia.
    rewrite ticks_add.
    destruct (expiry OneShot t x s) as [H1 H2]; [by auto|done..|unfold fits; lia|lia|].
    cbv zeta in H1, H2. cbn [Z.eqb Pos.eqb OneShot] in H1.
    destruct (rest_ticks t zero_timer (n - Z.to_nat (periods (count x)))
      (ticks (Z.to_nat (periods (count x))) s)) as [-> ->]; [done..|by right|].
    rewrite H2. split; [done|]. cbn [andb]. by destruct (cb (usr x) =? 0).
  - destruct (count_down OneShot t x n s) as [-> ->]; [by auto|done..|unfold fits; lia|done|].
    cbn [andb]. by rewrite app_nil_r.
Qed.

(** A repeating timer keeps its period: after [k] periods of its reload
    time, a period being the number of ticks that covers it, exactly [k] callbacks
    have been made and the timer is about to run a full period again. *)
Theorem repeating_fires_every_period t x k s :
  leaves t -> (t < N)%nat -> timers s !! t = Some x -> started Repeating (count x) x ->
  count x = reload x -> 0 < reload x < 2 ^ 32 -> cb (usr x) <> 0 ->
  timers (ticks (k * Z.to_nat (periods (reload x))) s) !! t = Some x /\
  fired t (ticks (k * Z.to_nat (periods (reload x))) s) = fired t s ++ repeat (t, usr x) k.
Proof.
  intros Hc Ht Hx Hst Heq Hms Hcb.
  assert (Hback : set_count (reload x) x = x) by (rewrite <- Heq; by destruct x).
  induction k as [|k [IH1 IH2]]; [by rewrite app_nil_r|].
  cbn [Nat.mul]. rewrite ticks_add.
  destruct (expiry Repeating t x (ticks (k * Z.to_nat (periods (reload x))) s)) as [H1 H2];
    [by auto|done..|unfold fits; lia|lia|].
  rewrite Heq in H1, H2. cbv zeta in H1, H2. cbn [Z.eqb Pos.eqb Repeating OneShot] in H1.
  rewrite H1, H2, Hback, IH2, (proj2 (Z.eqb_neq _ _)) by done. split; [done|].
  by rewrite <- app_assoc, <- repeat_cons.
Qed.

(** *** Allocation *)

Lemma allocate_scan_spec tab : forall n, (n <= length tab)%nat ->
  let t := allocate_scan (rev (seq 0 n)) tab in
  (t = 255 /\ forall i x, (i < n)%nat -> tab !! i = Some x -> Z.land (ctl x) inuse <> 0) \/
  (exists i x, t = Z.of_nat i /\ (i < n)%nat /\ tab !! i = Some x /\ Z.land (ctl x) inuse = 0 /\
     forall j y, (i < j < n)%nat -> tab !! j = Some y -> Z.land (ctl y) inuse <> 0).
Proof.
  induction n as [|n IH]; intros Hn; [left; split; [done|lia]|].
  rewrite seq_S, rev_app_distr. cbn [rev app allocate_scan Nat.add].
  destruct (lookup_lt_is_Some_2 tab n) as [x Hx]; [lia|]. rewrite Hx.
  destruct (Z.eqb_spec (Z.land (ctl x) inuse) 0) as [Hz|Hz].
  - right. exists n, x. split; [done|]. split; [lia|]. split; [done|]. split; [done|]. lia.
  - destruct (IH ltac:(lia)) as [[-> Hall]|(i & y & -> & Hi & Hy & Hf & Hall)].
    + left. split; [done|]. intros i y Hi Hy.
      destruct (decide (i = n)) as [->|]; [by simplify_eq|apply (Hall i y); [lia|done]].
    + right. exists i, y. split; [done|]. split; [lia|]. split; [done|]. split; [done|].
      intros j z Hj Hz'. destruct (decide (j = n)) as [->|]; [by simplify_eq|].
      apply (Hall j z); [lia|done].
Qed.

(** Allocation: [timer_allocate] hands out the free timer that a tick
    serves first, sets it up with the given time, mode and callback and touches no
    other; when no timer is free it returns 255 and changes nothing. *)
Theorem timer_allocate_spec mode ms fc s :
  length (timers s) = N -> (N <= 127)%nat ->
  let '(t, s') := timer_allocate N mode ms fc s in
  (t = 255 /\ s' = s /\
     forall i x, timers s !! i = Some x -> Z.land (ctl x) inuse <> 0) \/
  (exists i x, t = Z.of_nat i /\ timers s !! i = Some x /\ Z.land (ctl x) inuse = 0 /\
     (forall j y, (i < j)%nat -> timers s !! j = Some y -> Z.land (ctl y) inuse <> 0) /\
     timers s' !! i = Some (Timer (default null_cb fc) ms ms
                              (Z.lor (Z.land mode (Z.lor modeMsk running)) inuse)) /\
     forall j, j <> i -> timers s' !! j = timers s !! j).
Proof.
  intros Hl HN. unfold timer_allocate, timer_ids.
  destruct (allocate_scan_spec (timers s) N ltac:(lia)) as [[-> Hall]|(i & x & -> & Hi & Hx & Hf & Hall)].
  - left. split; [done|]. split; [done|]. intros i x Hx. apply (Hall i x); [|done].
    rewrite <- Hl. by eapply lookup_lt_Some.
  - rewrite (proj2 (Z.eqb_neq (Z.of_nat i) 255)) by lia. right. exists i, x.
    split; [done|]. split; [done|]. split; [done|]. rewrite Nat2Z.id. split; [|split].
    + intros j y Hj Hy. apply (Hall j y); [|done]. split; [done|].
      rewrite <- Hl. by eapply lookup_lt_Some.
    + cbn. apply list_lookup_insert_eq. lia.
    + intros j Hj. cbn. by apply list_lookup_insert_ne, not_eq_sym.
Qed.

End Spec.

(** ** Witnesses: two timers and a ten-millisecond tick *)

Definition demo_client (i : nat) (u : bl_timer_cb_t) (ts : list bl_timer_t) : list bl_timer_t := ts.

Definition demo_timer (mode : Z) : bl_timer_t :=
  Timer (Cb 0 0x1000) 25 25 (Z.lor mode (Z.lor inuse running)).

Definition demo_sched (mode : Z) : sched := Sched 0 [zero_timer; demo_timer mode] [].

Lemma timeout_expires_on_time_witness :
  timer_expired 1 (ticks 2 10 demo_client 3 (demo_sched Timeout)) = true /\
  fired 1 (ticks 2 10 demo_client 3 (demo_sched Timeout)) = [(1%nat, Cb 0 0x1000)].
Proof.
  apply (timeout_expires_on_time 2 10 demo_client ltac:(lia) 1 (demo_timer Timeout) 3
    (demo_sched Timeout)); [done|lia|done|done|done].
Defined.

Lemma oneshot_fires_once_witness :
  timers (ticks 2 10 demo_client 3 (demo_sched OneShot)) !! 1%nat = Some zero_timer /\
  fired 1 (ticks 2 10 demo_client 3 (demo_sched OneShot)) = [(1%nat, Cb 0 0x1000)].
Proof.
  apply (oneshot_fires_once 2 10 demo_client ltac:(lia) 1 (demo_timer OneShot) 3
    (demo_sched OneShot)); [done|lia|done|done|done].
Defined.

Lemma repeating_fires_every_period_witness :
  timers (ticks 2 10 demo_client 12 (demo_sched Repeating)) !! 1%nat = Some (demo_timer Repeating) /\
  fired 1 (ticks 2 10 demo_client 12 (demo_sched Repeating)) = repeat (1%nat, Cb 0 0x1000) 4.
Proof.
  apply (repeating_fires_every_period 2 10 demo_client ltac:(lia) 1 (demo_timer Repeating) 4
    (demo_sched Repeating)); [done|lia|done|done|done|done|done].
Defined.

Lemma timer_allocate_spec_witness :
  let '(t, s') := timer_allocate 2 (Z.lor Timeout running) 100 None (demo_sched Timeout) in
  (t = 255 /\ s' = demo_sched Timeout /\
     forall i x, timers (demo_sched Timeout) !! i = Some x -> Z.land (ctl x) inuse <> 0) \/
  (exists i x, t = Z.of_nat i /\ timers (demo_sched Timeout) !! i = Some x /\
     Z.land (ctl x) inuse = 0 /\
     (forall j y, (i < j)%nat -> timers (demo_sched Timeout) !! j = Some y ->
        Z.land (ctl y) inuse <> 0) /\
     timers s' !! i = Some (Timer (default null_cb None) 100 100
                              (Z.lor (Z.land (Z.lor Timeout running) (Z.lor modeMsk running)) inuse)) /\
     forall j, j <> i -> timers s' !! j = timers (demo_sched Timeout) !! j).
Proof. exact (timer_allocate_spec 2 (Z.lor Timeout running) 100 None (demo_sched Timeout) eq_refl ltac:(lia)). Defined.

End BlTimer.
