(* ===== verification/TimerIface.v ===== *)
(** * What the CAN bootloader's protocol code needs of its timers

    The interface between src/platforms/nuttx/src/canbootloader/protocol/uavcan.c and
    sched/timer.c: a client allocates a timeout timer, restarts it, asks whether it
    has expired and frees it, while system ticks pass.  [TimerLaws] is the promise
    the client's theorems rest on; the timers of [BlTimer] keep it. *)

From S2P Require Import Prelude BlTimer.

Local Open Scope Z_scope.

Class TimerService (S : Type) := {
  svc_allocate : Z -> S -> Z * S;      (* [timer_allocate(modeTimeout | modeStarted, ms, 0)] *)
  svc_restart : Z -> Z -> S -> S;      (* [timer_restart(id, ms)] *)
  svc_expired : Z -> S -> bool;        (* [timer_expired(id)] *)
  svc_free : Z -> S -> S;              (* [timer_free(id)] *)
  svc_ticks : nat -> S -> S;           (* system ticks pass *)
}.

Class TimerLaws (S : Type) (svc : TimerService S) := {
  tick_ms : Z;
  tick_pos : 0 < tick_ms;
  (* a timer can be had *)
  available : S -> Prop;
  (* the timer runs, and expires when the given milliseconds have passed *)
  armed : Z -> Z -> S -> Prop;
  allocate_armed : forall ms s, available s -> 0 < ms < 2 ^ 32 ->
    armed (fst (svc_allocate ms s)) ms (snd (svc_allocate ms s));
  restart_armed : forall id ms c s, armed id c s -> 0 < ms < 2 ^ 32 ->
    armed id ms (svc_restart id ms s);
  ticks_armed : forall id c n s, armed id c s -> Z.of_nat n * tick_ms < c ->
    armed id (c - Z.of_nat n * tick_ms) (svc_ticks n s);
  armed_running : forall id c s, armed id c s -> svc_expired id s = false;
  armed_expires : forall id c n s, armed id c s -> c <= Z.of_nat n * tick_ms ->
    svc_expired id (svc_ticks n s) = true;
  ticks_split : forall n k s, svc_ticks (n + k) s = svc_ticks n (svc_ticks k s);
}.

Module BlTimerService.
Section Service.
Variable N : nat.
Variable e : Z.
Variable client : nat -> BlTimer.bl_timer_cb_t -> list BlTimer.bl_timer_t -> list BlTimer.bl_timer_t.

#[export] Instance bl_timers : TimerService BlTimer.sched := {
  svc_allocate ms s :=
    BlTimer.timer_allocate N (Z.lor BlTimer.Timeout BlTimer.running) ms None s;
  svc_restart id := BlTimer.timer_restart (Z.to_nat id);
  svc_expired id := BlTimer.timer_expired (Z.to_nat id);
  svc_free id := BlTimer.timer_free (Z.to_nat id);
  svc_ticks := BlTimer.ticks N e client;
}.

Hypothesis e_pos : 0 < e.
Hypothesis N_small : (N <= 127)%nat.
Hypothesis client_leaves : forall t, BlTimer.leaves client t.

Definition has_free (s : BlTimer.sched) : Prop :=
  length (BlTimer.timers s) = N /\
  exists i x, BlTimer.timers s !! i = Some x /\ Z.land (BlTimer.ctl x) BlTimer.inuse = 0.

Definition runs (id c : Z) (s : BlTimer.sched) : Prop :=
  0 < c < 2 ^ 32 /\ (Z.to_nat id < N)%nat /\
  exists x, BlTimer.timers s !! Z.to_nat id = Some x /\ BlTimer.started BlTimer.Timeout c x.

Lemma allocate_runs ms s : has_free s -> 0 < ms < 2 ^ 32 ->
  runs (fst (svc_allocate ms s)) ms (snd (svc_allocate ms s)).
Proof using N_small.
  intros [Hl (i0 & x0 & Hx0 & Hz0)] Hms. cbn [svc_allocate bl_timers].
  unfold BlTimer.timer_allocate, BlTimer.timer_ids.
  destruct (BlTimer.allocate_scan_spec (BlTimer.timers s) N ltac:(lia))
    as [[-> Hall]|(i & x & -> & Hi & Hx & Hf & Hall)].
  - exfalso. apply (Hall i0 x0); [|done|done]. rewrite <- Hl. by eapply lookup_lt_Some.
  - rewrite (proj2 (Z.eqb_neq (Z.of_nat i) 255)) by lia. cbn [fst snd].
    split; [done|]. rewrite Nat2Z.id. split; [done|]. eexists. split; [cbn; apply list_lookup_insert_eq; lia|].
    by split.
Qed.

Lemma restart_runs id ms c s : runs id c s -> 0 < ms < 2 ^ 32 -> runs id ms (svc_restart id ms s).
Proof.
  intros (_ & Hid & x & Hx & Hctl & _) Hms. split; [done|]. split; [done|].
  cbn [svc_restart bl_timers]. unfold BlTimer.timer_restart, BlTimer.timer_update. cbn.
  eexists. split; [by rewrite list_lookup_alter_eq, Hx|]. split; [|done].
  cbn. by rewrite Hctl.
Qed.

Lemma ticks_runs id c n s : runs id c s -> Z.of_nat n * e < c ->
  runs id (c - Z.of_nat n * e) (svc_ticks n s).
Proof using e_pos client_leaves.
  clear N_small.
  intros (Hc & Hid & x & Hx & Hctl & <-) Hlt. split; [lia|]. split; [done|].
  destruct (BlTimer.count_down N e client e_pos BlTimer.Timeout (Z.to_nat id) x n s) as [H _];
    [by auto|done..|unfold fits; lia|done|].
  eexists. split; [exact H|]. by split.
Qed.

Lemma runs_running id c s : runs id c s -> svc_expired id s = false.
Proof.
  intros (Hc & Hid & x & Hx & Hctl & <-). cbn [svc_expired bl_timers].
  unfold BlTimer.timer_expired. rewrite Hx, Hctl. apply andb_false_intro2, Z.eqb_neq. lia.
Qed.

Lemma runs_expires id c n s : runs id c s -> c <= Z.of_nat n * e ->
  svc_expired id (svc_ticks n s) = true.
Proof using e_pos client_leaves.
  clear N_small.
  intros (Hc & Hid & x & Hx & Hctl & <-) Hle. cbn [svc_expired svc_ticks bl_timers].
  apply BlTimer.periods_spec in Hle; [|done|lia].
  pose proof (BlTimer.periods_pos e e_pos (BlTimer.count x) ltac:(lia)).
  set (k := Z.to_nat (BlTimer.periods e (BlTimer.count x))) in *.
  replace n with ((n - k) + k)%nat by lia. rewrite BlTimer.ticks_add.
  destruct (BlTimer.expiry N e client e_pos BlTimer.Timeout (Z.to_nat id) x s) as [H1 _];
    [by auto|done..|unfold fits; lia|lia|].
  destruct (BlTimer.rest_ticks N e client (Z.to_nat id) (BlTimer.set_count 0 x) (n - k)
    (BlTimer.ticks N e client k s)) as [H2 _]; [done|done|exact H1|by right|].
  unfold BlTimer.timer_expired. rewrite H2. cbn [BlTimer.set_count BlTimer.ctl BlTimer.count]. by rewrite Hctl.
Qed.

#[export] Instance bl_timers_laws : TimerLaws BlTimer.sched bl_timers := {
  tick_ms := e;
  tick_pos := e_pos;
  available := has_free;
  armed := runs;
  allocate_armed := allocate_runs;
  restart_armed := restart_runs;
  ticks_armed := ticks_runs;
  armed_running := runs_running;
  armed_expires := runs_expires;
  ticks_split := BlTimer.ticks_add N e client;
}.

End Service.
End BlTimerService.
