(* ===== verification/BitFields.v ===== *)
(** * Bit fields

    The macros of src/platforms/nuttx/src/canbootloader/include/bitminip.h and the C
    bit fields laid over a word: reading, writing and comparing under a mask. *)

From S2P Require Import Prelude.

Local Open Scope Z_scope.

Module BitFields.

(** A field of a word: its lowest bit and its length in bits. *)
Record field := Field { lsb_pos : Z; bits : Z }.

Definition BIT_MASK (length : Z) : Z := Z.shiftl 1 length - 1.

Definition BITFEILD_MASK (f : field) : Z := Z.shiftl (BIT_MASK (bits f)) (lsb_pos f).

(** [BITFEILD_GET], which is also what reading a C bit field does. *)
Definition BITFEILD_GET (f : field) (y : Z) : Z := Z.land (Z.shiftr y (lsb_pos f)) (BIT_MASK (bits f)).

(** Assigning to a C bit field keeps the low bits of the value. *)
Definition field_set (f : field) (v y : Z) : Z :=
  Z.lor (Z.ldiff y (BITFEILD_MASK f)) (Z.shiftl (Z.land v (BIT_MASK (bits f))) (lsb_pos f)).

Definition wf (f : field) : Prop := 0 <= lsb_pos f /\ 0 < bits f.
Definition disjoint (f g : field) : Prop :=
  lsb_pos f + bits f <= lsb_pos g \/ lsb_pos g + bits g <= lsb_pos f.

(** Two words agree on the bits of a mask. *)
Definition agree (m a b : Z) : bool := Z.land (Z.lxor a b) m =? 0.

Arguments BITFEILD_MASK : simpl never.
Arguments BITFEILD_GET : simpl never.
Arguments field_set : simpl never.

Lemma BIT_MASK_ones n : BIT_MASK n = Z.ones n.
Proof. unfold BIT_MASK, Z.ones. lia. Qed.

Lemma mask_bit f i : wf f -> 0 <= i ->
  Z.testbit (BITFEILD_MASK f) i = (lsb_pos f <=? i) && (i <? lsb_pos f + bits f).
Proof.
  intros [Hp Hb] Hi. unfold BITFEILD_MASK. rewrite BIT_MASK_ones, Z.shiftl_spec by lia.
  destruct (Z.leb_spec (lsb_pos f) i); cbn [andb].
  - rewrite Z.testbit_ones_nonneg by lia.
    destruct (Z.ltb_spec i (lsb_pos f + bits f)); [apply Z.ltb_lt|apply Z.ltb_ge]; lia.
  - apply Z.testbit_neg_r. lia.
Qed.

Lemma get_bit f y i : wf f -> 0 <= i ->
  Z.testbit (BITFEILD_GET f y) i = Z.testbit y (i + lsb_pos f) && (i <? bits f).
Proof.
  intros [Hp Hb] Hi. unfold BITFEILD_GET.
  by rewrite BIT_MASK_ones, Z.land_spec, Z.shiftr_spec, Z.testbit_ones_nonneg by lia.
Qed.

Lemma set_bit f v y i : wf f -> 0 <= i ->
  Z.testbit (field_set f v y) i =
    if (lsb_pos f <=? i) && (i <? lsb_pos f + bits f) then Z.testbit v (i - lsb_pos f)
    else Z.testbit y i.
Proof.
  intros Hf Hi. pose proof Hf as [Hp Hb]. unfold field_set.
  rewrite Z.lor_spec, Z.ldiff_spec, mask_bit, Z.shiftl_spec, BIT_MASK_ones by done.
  destruct (Z.leb_spec (lsb_pos f) i); cbn [andb negb].
  - rewrite Z.land_spec, Z.testbit_ones_nonneg by lia.
    destruct (Z.ltb_spec i (lsb_pos f + bits f)), (Z.ltb_spec (i - lsb_pos f) (bits f)); try lia;
      cbn [negb]; by rewrite ?andb_true_r, ?andb_false_r, ?orb_false_r.
  - rewrite (Z.testbit_neg_r _ (i - lsb_pos f)) by lia. by rewrite andb_true_r, orb_false_r.
Qed.

Lemma get_range f y : wf f -> fits (bits f) (BITFEILD_GET f y).
Proof.
  intros [Hp Hb]. unfold BITFEILD_GET. rewrite BIT_MASK_ones, Z.land_ones by lia.
  apply Z.mod_pos_bound, Z.pow_pos_nonneg; lia.
Qed.

Lemma get_set_same f v y : wf f -> BITFEILD_GET f (field_set f v y) = wrap (bits f) v.
Proof.
  intros Hf. pose proof Hf as [Hp Hb]. apply Z.bits_inj'. intros i Hi.
  rewrite get_bit, set_bit, wrap_testbit by (done || lia).
  destruct (Z.ltb_spec i (bits f)); [|by rewrite !andb_false_r].
  rewrite (proj2 (Z.leb_le _ _)), (proj2 (Z.ltb_lt _ _)) by lia. cbn [andb].
  do 2 f_equal. lia.
Qed.

Lemma get_set_other f g v y : wf f -> wf g -> disjoint f g ->
  BITFEILD_GET f (field_set g v y) = BITFEILD_GET f y.
Proof.
  intros Hf Hg Hd. pose proof Hf as [Hp Hb]. apply Z.bits_inj'. intros i Hi.
  rewrite !get_bit, set_bit by (done || lia).
  destruct (Z.ltb_spec i (bits f)); [|by rewrite !andb_false_r].
  destruct (Z.leb_spec (lsb_pos g) (i + lsb_pos f)), (Z.ltb_spec (i + lsb_pos f) (lsb_pos g + bits g));
    cbn [andb]; try done. unfold disjoint in Hd. lia.
Qed.

Lemma get_lor f a b : BITFEILD_GET f (Z.lor a b) = Z.lor (BITFEILD_GET f a) (BITFEILD_GET f b).
Proof. unfold BITFEILD_GET. by rewrite Z.shiftr_lor, Z.land_lor_distr_l. Qed.

Lemma get_land f a b : BITFEILD_GET f (Z.land a b) = Z.land (BITFEILD_GET f a) (BITFEILD_GET f b).
Proof.
  apply Z.bits_inj'. intros i Hi. unfold BITFEILD_GET.
  rewrite Z.shiftr_land, !Z.land_spec.
  destruct (Z.testbit (Z.shiftr a _) i), (Z.testbit (Z.shiftr b _) i), (Z.testbit (BIT_MASK _) i); done.
Qed.

Lemma get_fits f x : wf f -> lsb_pos f + bits f <= 32 -> fits 32 (BITFEILD_GET f x).
Proof. intros Hf Hle. apply (fits_weaken (bits f)); [destruct Hf; lia|by apply get_range]. Qed.

(** Comparing under the mask of a field compares the field. *)
Lemma agree_field f a b : wf f ->
  agree (BITFEILD_MASK f) a b = (BITFEILD_GET f a =? BITFEILD_GET f b).
Proof.
  intros Hf. pose proof Hf as [Hp Hb]. apply eq_bool_prop_intro.
  unfold agree. rewrite !Is_true_true, !Z.eqb_eq. split; intros H; apply Z.bits_inj'; intros i Hi.
  - rewrite !get_bit by done. destruct (Z.ltb_spec i (bits f)); [|by rewrite !andb_false_r].
    rewrite !andb_true_r. apply (f_equal (fun z => Z.testbit z (i + lsb_pos f))) in H.
    rewrite Z.land_spec, Z.lxor_spec, mask_bit, Z.bits_0 in H by (done || lia).
    rewrite (proj2 (Z.leb_le _ _)), (proj2 (Z.ltb_lt _ _)), !andb_true_r in H by lia.
    by apply xorb_eq.
  - rewrite Z.bits_0, Z.land_spec, Z.lxor_spec, mask_bit by done.
    destruct (Z.leb_spec (lsb_pos f) i), (Z.ltb_spec i (lsb_pos f + bits f));
      rewrite ?andb_false_r; try done.
    apply (f_equal (fun z => Z.testbit z (i - lsb_pos f))) in H. rewrite !get_bit in H by (done || lia).
    rewrite Z.sub_add, (proj2 (Z.ltb_lt _ _)), !andb_true_r in H by lia.
    by rewrite H, xorb_nilpotent.
Qed.

Lemma agree_lor m n a b : agree (Z.lor m n) a b = agree m a b && agree n a b.
Proof.
  unfold agree. rewrite Z.land_lor_distr_r. apply eq_bool_prop_intro.
  rewrite Is_true_true, Is_true_true, andb_true_iff, !Z.eqb_eq. apply Z.lor_eq_0_iff.
Qed.

(** A word that fits in the fields of a layout is determined by them. *)
Lemma agree_self m a : agree m a a = true.
Proof. unfold agree. by rewrite Z.lxor_nilpotent. Qed.

End BitFields.
