(* ===== verification/Uavcan.v ===== *)
(** * The CAN bootloader's UAVCAN transport

    src/platforms/nuttx/src/canbootloader/protocol/uavcan.c: how a transfer is cut into
    CAN frames and put together again.  A CAN identifier and a tail byte are words with
    bit fields; the mailboxes of the CAN controller, the frames it receives and the
    passing of time are the environment: an argument that tells which waits for a
    mailbox succeed, and a list of events that the receive loop meets. *)

From S2P Require Import Prelude BitFields Crc TimerIface.
Export BitFields.

Local Open Scope Z_scope.

Module Uavcan.

(** ** Layouts: uavcan_can_id_defs.h and can.h *)

Definition UavCanMessagePriority := Field 24 5.
Definition UavCanMessageTypeID := Field 8 16.
Definition UavCanMessageServiceNotMessage := Field 7 1.
Definition UavCanMessageSourceNodeID := Field 0 7.
Definition UavCanAnonMessageDiscriminator := Field 10 14.
Definition UavCanAnonMessageTypeID := Field 8 2.
Definition UavCanAnonMessageServiceNotMessage := Field 7 1.
Definition UavCanServiceTypeID := Field 16 8.
Definition UavCanServiceRequestNotResponse := Field 15 1.
Definition UavCanServiceDestinationNodeID := Field 8 7.
Definition UavCanServiceServiceNotMessage := Field 7 1.
Definition UavCanStartOfTransfer := Field 7 1.
Definition UavCanEndOfTransfer := Field 6 1.
Definition UavCanToggle := Field 5 1.
Definition UavCanTransferID := Field 0 5.

Definition CanPayloadLength : Z := 8.
Definition MaxUserPayloadLength : Z := CanPayloadLength - 1.
Definition SingleFrameTailInit : Z :=
  Z.lor (BITFEILD_MASK UavCanStartOfTransfer) (BITFEILD_MASK UavCanEndOfTransfer).
Definition MultiFrameTailInit : Z := BITFEILD_MASK UavCanStartOfTransfer.
Definition BadTailState : Z :=
  Z.lor (BITFEILD_MASK UavCanStartOfTransfer) (BITFEILD_MASK UavCanToggle).

Definition PayloadOffsetCRClsb : Z := 0.
Definition PayloadOffsetCRCmsb : Z := 1.
Definition PayloadOffsetCRCdata : Z := 2.
Definition ANY_NODE_ID : Z := 0.
Definition UavcanPriorityMin : Z := 31.
Definition PriorityAllocation : Z := UavcanPriorityMin - 1.
Definition MAX_LENGTH_OF_UNIQUE_ID_IN_REQUEST : Z := 6.

Definition UavcanOk : Z := 0.
Definition UavcanBootTimeout : Z := 1.
Definition UavcanError : Z := 3.
Definition CAN_OK : Z := 0.
Definition CAN_ERROR : Z := 2.

Definition Fifo0 : Z := 0.
Definition Fifo1 : Z := 1.
Definition FifoNone : Z := 3.
Definition MailBox0 : Z := 0.
Definition MailBox1 : Z := 1.

Record uavcan_protocol_t := Protocol { id : Z; tail : Z }.

Definition set_id (f : field) (v : Z) (p : uavcan_protocol_t) : uavcan_protocol_t :=
  Protocol (field_set f v (id p)) (tail p).
Definition set_tail (f : field) (v : Z) (p : uavcan_protocol_t) : uavcan_protocol_t :=
  Protocol (id p) (field_set f v (tail p)).
Definition source_node_id (p : uavcan_protocol_t) : Z := BITFEILD_GET UavCanMessageSourceNodeID (id p).
Definition service_not_message (x : Z) : bool := negb (BITFEILD_GET UavCanMessageServiceNotMessage x =? 0).
Definition transfer_id (p : uavcan_protocol_t) : Z := BITFEILD_GET UavCanTransferID (tail p).
Definition toggle (p : uavcan_protocol_t) : Z := BITFEILD_GET UavCanToggle (tail p).
Definition eot (p : uavcan_protocol_t) : bool := negb (BITFEILD_GET UavCanEndOfTransfer (tail p) =? 0).
Definition sot (p : uavcan_protocol_t) : bool := negb (BITFEILD_GET UavCanStartOfTransfer (tail p) =? 0).

(** ** The table of transfers: uavcan_dsdl_defs.h *)

Record dsdl_t := Dsdl {
  prototype : Z;
  signature_crc16 : Z;
  intail : Z;
  outtail : Z;
  mailbox : Z;
  fifo : Z;
}.

Definition UAVCAN_DSDL_MESG_DEF (dtid signature mailbox fifo inbound outbound : Z) : dsdl_t :=
  Dsdl (field_set UavCanMessageTypeID dtid 0) signature inbound outbound mailbox fifo.

Definition service_prototype (dtid request : Z) : Z :=
  field_set UavCanServiceTypeID dtid
    (field_set UavCanServiceRequestNotResponse request
       (field_set UavCanServiceServiceNotMessage 1 0)).

Definition UAVCAN_DSDL_SREQ_DEF (dtid signature mailbox fifo inbound outbound : Z) : dsdl_t :=
  Dsdl (service_prototype dtid 1) signature inbound outbound mailbox fifo.

Definition UAVCAN_DSDL_SRSP_DEF (dtid signature mailbox fifo inbound outbound : Z) : dsdl_t :=
  Dsdl (service_prototype dtid 0) signature inbound outbound mailbox fifo.

(** [uavcan_dsdl_t]: three components (Path, SoftwareVersion, HardwareVersion), the mark
    [SizeDSDLComponents], then the transfers. *)
Definition SizeDSDLComponents : nat := 3.
Definition DSDLMsgAllocation : nat := 4.
Definition DSDLMsgNodeStatus : nat := 5.
Definition DSDLReqGetNodeInfo : nat := 6.
Definition DSDLRspGetNodeInfo : nat := 7.
Definition DSDLReqBeginFirmwareUpdate : nat := 8.
Definition DSDLRspBeginFirmwareUpdate : nat := 9.
Definition DSDLReqGetInfo : nat := 10.
Definition DSDLRspGetInfo : nat := 11.
Definition DSDLReqRead : nat := 12.
Definition DSDLRspRead : nat := 13.
Definition DSDLMsgLogMessage : nat := 14.
Definition SizeDSDL : nat := 15.

Definition getDSDLOffset (full : nat) : nat := full - (SizeDSDLComponents + 1).

Definition NA : Z := 0.

Definition zero_dsdl : dsdl_t := Dsdl 0 0 0 0 0 0.

(** The array has [SizeDSDL - SizeDSDLComponents + 1] elements, two more than the
    initialiser names. *)
Definition dsdl_table : list dsdl_t :=
  [UAVCAN_DSDL_MESG_DEF 1 0xf258 MailBox0 Fifo0 MultiFrameTailInit SingleFrameTailInit;
   UAVCAN_DSDL_MESG_DEF 341 0xbe5f MailBox1 FifoNone SingleFrameTailInit SingleFrameTailInit;
   UAVCAN_DSDL_SREQ_DEF 1 0xd9a7 MailBox1 Fifo1 SingleFrameTailInit MultiFrameTailInit;
   UAVCAN_DSDL_SRSP_DEF 1 0xd9a7 MailBox1 Fifo1 SingleFrameTailInit MultiFrameTailInit;
   UAVCAN_DSDL_SREQ_DEF 40 0x729e MailBox0 Fifo0 MultiFrameTailInit SingleFrameTailInit;
   UAVCAN_DSDL_SRSP_DEF 40 0x729e MailBox0 Fifo0 MultiFrameTailInit SingleFrameTailInit;
   UAVCAN_DSDL_SREQ_DEF 45 0x14b9 MailBox0 Fifo0 SingleFrameTailInit MultiFrameTailInit;
   UAVCAN_DSDL_SRSP_DEF 45 0x14b9 MailBox0 Fifo0 SingleFrameTailInit MultiFrameTailInit;
   UAVCAN_DSDL_SREQ_DEF 48 0x2f12 MailBox0 Fifo0 SingleFrameTailInit MultiFrameTailInit;
   UAVCAN_DSDL_SRSP_DEF 48 0x2f12 MailBox0 Fifo0 SingleFrameTailInit MultiFrameTailInit;
   UAVCAN_DSDL_MESG_DEF 16383 0x4570 MailBox0 Fifo0 NA SingleFrameTailInit;
   zero_dsdl; zero_dsdl].

Definition dsdl_at (dsdl : nat) : dsdl_t := nth (getDSDLOffset dsdl) dsdl_table zero_dsdl.

(** ** The node's globals and the protocol of a transfer *)

Record node := Node {
  g_uavcan_priority : Z;
  g_this_node_id : Z;
  g_server_node_id : Z;
}.

Definition node_init : node := Node PriorityAllocation 0 0.

Inductive uavcan_transfer_stage_t := Initialization | OnStartOfTransfer.

Definition uavcan_init_comapare_masks (stage : uavcan_transfer_stage_t)
    (protocol masks : uavcan_protocol_t) : uavcan_protocol_t :=
  match stage with
  | OnStartOfTransfer =>
      Protocol (Z.lor (id masks) (BITFEILD_MASK UavCanMessageSourceNodeID))
               (Z.lor (tail masks) (BITFEILD_MASK UavCanTransferID))
  | Initialization =>
      Protocol
        (if service_not_message (id protocol) then
           let m := Z.lor (Z.lor (Z.lor (BITFEILD_MASK UavCanServiceTypeID)
                                        (BITFEILD_MASK UavCanServiceRequestNotResponse))
                                 (BITFEILD_MASK UavCanServiceDestinationNodeID))
                          (BITFEILD_MASK UavCanServiceServiceNotMessage) in
           if negb (source_node_id protocol =? ANY_NODE_ID)
           then Z.lor m (BITFEILD_MASK UavCanMessageSourceNodeID) else m
         else if source_node_id protocol =? ANY_NODE_ID then
           Z.lor (BITFEILD_MASK UavCanMessageTypeID) (BITFEILD_MASK UavCanAnonMessageServiceNotMessage)
         else
           Z.lor (Z.lor (BITFEILD_MASK UavCanMessageTypeID)
                        (BITFEILD_MASK UavCanMessageServiceNotMessage))
                 (BITFEILD_MASK UavCanMessageSourceNodeID))
        (Z.lor (BITFEILD_MASK UavCanToggle) (BITFEILD_MASK UavCanStartOfTransfer))
  end.

Definition load_dsdl_protocol (g : node) (dsdl : nat) (rx_not_tx : bool)
    (protocol : uavcan_protocol_t) (that_node_id : Z) : dsdl_t * uavcan_protocol_t :=
  let pdsdl := dsdl_at dsdl in
  let p := Protocol (field_set UavCanMessagePriority (g_uavcan_priority g) (prototype pdsdl))
                    (Z.land (tail protocol) (BITFEILD_MASK UavCanTransferID)) in
  (pdsdl,
   if rx_not_tx then
     let p := Protocol (id p) (Z.lor (tail p) (intail pdsdl)) in
     if service_not_message (prototype pdsdl) then
       set_id UavCanMessageSourceNodeID that_node_id
         (set_id UavCanServiceDestinationNodeID (g_this_node_id g) p)
     else p
   else
     let p := set_id UavCanMessageSourceNodeID (g_this_node_id g)
                (Protocol (id p) (Z.lor (tail p) (outtail pdsdl))) in
     if service_not_message (prototype pdsdl) then
       set_id UavCanServiceDestinationNodeID that_node_id p
     else p).

(** ** Sending *)

(** A frame on the bus: the identifier and as many bytes as its length code says. *)
Record can_frame := Frame { message_id : Z; dlc : Z; message : list Z }.

(** The controller: what has been handed to it, and the mailboxes that were cancelled. *)
Record bus := Bus { sent : list can_frame; cancelled : list Z }.

Section Send.
(** Whether the wait for the mailbox before the [n]-th frame ends in time. *)
Variable mailbox_free : nat -> bool.

Definition can_tx (ident : Z) (data : list Z) (mbx : Z) (b : bus) : Z * bus :=
  if mailbox_free (length (sent b)) then
    (CAN_OK, Bus (sent b ++ [Frame ident (Z.land (Z.of_nat (length data)) 0xf) data]) (cancelled b))
  else (CAN_ERROR, b).

Definition can_cancel_on_error (mbx : Z) (b : bus) : bus := Bus (sent b) (cancelled b ++ [mbx]).

(** [frame_data] holds the bytes before the tail byte. *)
Definition uavcan_tx (protocol : uavcan_protocol_t) (frame_data : list Z) (mbx : Z) (b : bus) : Z * bus :=
  can_tx (id protocol) (frame_data ++ [tail protocol]) mbx b.

(** The loop of [uavcan_tx_dsdl]: [payload] are the bytes collected for the next frame. *)
Fixpoint tx_bytes (mbx : Z) (transfer payload : list Z) (protocol : uavcan_protocol_t) (b : bus)
    : Z * uavcan_protocol_t * bus :=
  match transfer with
  | [] => (UavcanOk, protocol, b)
  | x :: rest =>
      let payload := payload ++ [x] in
      let protocol := set_tail UavCanEndOfTransfer (match rest with [] => 1 | _ => 0 end) protocol in
      if (Z.of_nat (length payload) =? MaxUserPayloadLength) || eot protocol then
        let '(rv, b) := uavcan_tx protocol payload mbx b in
        if negb (rv =? UavcanOk) then (rv, protocol, b)
        else
          let protocol := set_tail UavCanToggle (Z.lxor (toggle protocol) 1) protocol in
          let protocol := set_tail UavCanStartOfTransfer 0 protocol in
          tx_bytes mbx rest [] protocol b
      else tx_bytes mbx rest payload protocol b
  end.

Definition uavcan_tx_dsdl (g : node) (dsdl : nat) (protocol : uavcan_protocol_t) (transfer : list Z)
    (b : bus) : Z * uavcan_protocol_t * bus :=
  let '(pdsdl, protocol) := load_dsdl_protocol g dsdl false protocol (source_node_id protocol) in
  let payload :=
    if Z.of_nat (length transfer) >? MaxUserPayloadLength then
      let transfer_crc := Crc.crc16_signature (signature_crc16 pdsdl) transfer in
      [u8 transfer_crc; u8 (Z.shiftr transfer_crc 8)]
    else [] in
  tx_bytes (mailbox pdsdl) transfer payload protocol b.

(** *** The log and the allocation message; their transfer ids are static *)

Definition LogMessagelevel := Field 5 3.
Definition LogMessagesource_length := Field 0 5.
Definition debug_log_source : list Z := [0x42; 0x6f; 0x6f; 0x74].   (* "Boot" *)

Definition uavcan_pack (f : field) (d : Z) : Z := Z.land (Z.shiftl d (lsb_pos f)) (BITFEILD_MASK f).

Definition uavcan_pack_LogMessage (level : Z) (source text : list Z) : list Z :=
  u8 (Z.lor (uavcan_pack LogMessagelevel level)
            (uavcan_pack LogMessagesource_length (Z.of_nat (length source)))) :: source ++ text.

(** [tid] is the static [transfer_id]; [protocol] is the uninitialised local. *)
Definition uavcan_tx_log_message (g : node) (tid : Z) (protocol : uavcan_protocol_t)
    (level stage status : Z) (b : bus) : Z * bus :=
  let protocol := set_tail UavCanTransferID tid protocol in
  let '(pdsdl, protocol) := load_dsdl_protocol g DSDLMsgLogMessage false protocol 0 in
  let '(_, b) := uavcan_tx protocol (uavcan_pack_LogMessage level debug_log_source [stage; status])
                   (mailbox pdsdl) b in
  (u8 (tid + 1), b).

Definition Allocationnode_id := Field 1 7.
Definition Allocationfirst_part_of_unique_id := Field 0 1.

Definition uavcan_tx_allocation_message (g : node) (tid : Z) (protocol : uavcan_protocol_t)
    (requested_node_id : Z) (unique_id : list Z) (unique_id_offset random : Z) (b : bus) : Z * bus :=
  let protocol := set_tail UavCanTransferID tid protocol in
  let '(pdsdl, protocol) := load_dsdl_protocol g DSDLMsgAllocation false protocol 0 in
  let protocol := set_id UavCanAnonMessageDiscriminator random protocol in
  let remaining := u32 (Z.of_nat (length unique_id) - unique_id_offset) in
  let max_copy := if MAX_LENGTH_OF_UNIQUE_ID_IN_REQUEST >? remaining then remaining
                  else MAX_LENGTH_OF_UNIQUE_ID_IN_REQUEST in
  let first := Z.lor (uavcan_pack Allocationnode_id requested_node_id)
                 (if unique_id_offset =? 0 then BITFEILD_MASK Allocationfirst_part_of_unique_id else 0) in
  let payload := u8 first ::
    map (fun i => zat unique_id (unique_id_offset + Z.of_nat i)) (seq 0 (Z.to_nat max_copy)) in
  let '(_, b) := uavcan_tx protocol payload (mailbox pdsdl) b in
  (u8 (tid + 1), can_cancel_on_error (mailbox pdsdl) b).

End Send.

(** The packed GetNodeInfo response: the structure is a run of bytes with the certificate
    after [FixedSizeGetNodeInfo] bytes and the name behind room for 255 of them. *)
Definition FixedSizeGetNodeInfo : Z := 41.

Definition uavcan_pack_GetNodeInfo_response (response name : list Z)
    (certificate_of_authenticity_length name_length : Z) : list Z * Z :=
  let contiguous_length := FixedSizeGetNodeInfo + certificate_of_authenticity_length in
  (take (Z.to_nat contiguous_length) response ++ take (Z.to_nat name_length) name ++
     drop (Z.to_nat (contiguous_length + name_length)) response,
   contiguous_length + name_length).

(** ** Receiving *)

Definition uavcan_make_uint16 (d0 d1 : Z) : Z := u16 (Z.lor (Z.shiftl d1 8) d0).

(** The local [uint8_t payload[CanPayloadLength]] of the receive loop: reads within the
    frame give its bytes, other reads give [stray]: the rest of the buffer, or what lies
    around it on the stack. *)
Definition byte_at (stray : Z -> Z) (payload : list Z) (i : Z) : Z :=
  if (0 <=? i) && (i <? Z.of_nat (length payload)) then zat payload i else stray i.

(** [memcpy(&transfer[at], src, length src)] *)
Definition memcpy_at (at_ : Z) (src dst : list Z) : list Z :=
  take (Z.to_nat at_) dst ++ src ++ drop (Z.to_nat at_ + length src) dst.

(** One pass of the receive loop: ticks that pass before the poll, the frame that the
    fifo holds, and ticks that pass before the timer is asked. *)
Record event := Event { before : nat; arrival : option can_frame; after : nat }.

Record rx_state := Rx {
  protocol : uavcan_protocol_t;
  masks : uavcan_protocol_t;
  transfer_crc : Z;
  total_rx : Z;
  transfer : list Z;
}.

Inductive frame_result :=
  | Continue (st : rx_state)
  | Break (st : rx_state)
  | Fault.                            (* a copy outside the caller's buffer *)

Inductive rx_outcome {T : Type} :=
  | Returned (rv : Z) (p : uavcan_protocol_t) (transfer : list Z) (length : Z) (timers : T)
  | Waiting (timers : T)              (* the events are used up and the loop still runs *)
  | Crashed.
Arguments rx_outcome : clear implicits.

Section Receive.
Context {T : Type} {svc : TimerService T}.
Variable stray : Z -> Z.

(** [uavcan_rx] on a frame: the tail byte is taken off the length, a [size_t]. *)
Definition uavcan_rx (f : can_frame) : uavcan_protocol_t * Z :=
  let length := u32 (dlc f - 1) in
  (Protocol (message_id f) (byte_at stray (message f) length), length).

(** The negation of the condition under which a frame is skipped. *)
Definition accepted (st : rx_state) (rx : uavcan_protocol_t) : bool :=
  negb (BadTailState =? Z.land (tail rx) BadTailState) &&
  agree (id (masks st)) (id rx) (id (protocol st)) &&
  agree (tail (masks st)) (tail rx) (tail (protocol st)).

Definition start_of_transfer (st : rx_state) (rx : uavcan_protocol_t) (payload : list Z) (rx_length : Z)
    : rx_state * Z * Z :=
  let p := set_tail UavCanStartOfTransfer 0 (protocol st) in
  let p := set_id UavCanMessageSourceNodeID (source_node_id rx) p in
  let p := set_tail UavCanTransferID (transfer_id rx) p in
  let ms := uavcan_init_comapare_masks OnStartOfTransfer p (masks st) in
  if negb (eot rx) then
    (Rx p ms (uavcan_make_uint16 (byte_at stray payload PayloadOffsetCRClsb)
                                 (byte_at stray payload PayloadOffsetCRCmsb)) 0 (transfer st),
     PayloadOffsetCRCdata, u32 (rx_length - PayloadOffsetCRCdata))
  else (Rx p ms (transfer_crc st) 0 (transfer st), 0, rx_length).

(** Copying the payload, the toggle, and the end of the transfer. *)
Definition copy_payload (capacity : Z) (st : rx_state) (rx : uavcan_protocol_t) (payload : list Z)
    (payload_index rx_length : Z) : frame_result :=
  let finish (st : rx_state) :=
    let p := set_tail UavCanToggle (Z.lxor (toggle (protocol st)) 1) (protocol st) in
    let st := Rx p (masks st) (transfer_crc st) (total_rx st) (transfer st) in
    if eot rx then Break st else Continue st in
  if u32 (total_rx st + rx_length) <=? capacity then
    if total_rx st + rx_length >? Z.of_nat (length (transfer st)) then Fault
    else
      let src := map (fun i => byte_at stray payload (payload_index + Z.of_nat i))
                     (seq 0 (Z.to_nat rx_length)) in
      finish (Rx (protocol st) (masks st) (transfer_crc st) (u32 (total_rx st + rx_length))
                 (memcpy_at (total_rx st) src (transfer st)))
  else finish st.

Definition process_frame (capacity : Z) (st : rx_state) (rx : uavcan_protocol_t) (payload : list Z)
    (rx_length : Z) : frame_result :=
  let '(st, payload_index, rx_length) :=
    if sot rx then start_of_transfer st rx payload rx_length else (st, 0, rx_length) in
  if (transfer_id rx >? transfer_id (protocol st)) || (total_rx st >=? capacity) then
    let ms := uavcan_init_comapare_masks Initialization (protocol st) (masks st) in
    let p := set_tail UavCanToggle 0 (set_tail UavCanStartOfTransfer 1 (protocol st)) in
    copy_payload capacity (Rx p ms (transfer_crc st) (total_rx st) (transfer st)) rx payload
      payload_index rx_length
  else if transfer_id rx <? transfer_id (protocol st) then Continue st
  else copy_payload capacity st rx payload payload_index rx_length.

(** The value [uavcan_rx_dsdl] returns when the loop was left with the frame [rx]. *)
Definition rx_verdict (pdsdl : dsdl_t) (st : rx_state) (rx : uavcan_protocol_t) : Z :=
  if sot rx || (transfer_crc st =?
       Crc.crc16_signature (signature_crc16 pdsdl) (take (Z.to_nat (total_rx st)) (transfer st)))
  then UavcanOk else UavcanError.

Fixpoint rx_loop (pdsdl : dsdl_t) (timer timeout_ms capacity : Z) (es : list event) (st : rx_state)
    (tm : T) : rx_outcome T :=
  match es with
  | [] => Waiting tm
  | e :: es =>
      let tm := svc_ticks (before e) tm in
      let next (st : rx_state) (tm : T) :=
        let tm := svc_ticks (after e) tm in
        if svc_expired timer tm
        then Returned UavcanError (protocol st) (transfer st) capacity (svc_free timer tm)
        else rx_loop pdsdl timer timeout_ms capacity es st tm in
      match arrival e with
      | None => next st tm
      | Some f =>
          let '(rx, rx_length) := uavcan_rx f in
          if accepted st rx then
            let tm := svc_restart timer timeout_ms tm in
            match process_frame capacity st rx (message f) rx_length with
            | Fault => Crashed
            | Continue st => next st tm
            | Break st =>
                Returned (rx_verdict pdsdl st rx) (protocol st) (transfer st) (total_rx st)
                         (svc_free timer tm)
            end
          else next st tm
      end
  end.

Definition uavcan_rx_dsdl (g : node) (dsdl : nat) (p : uavcan_protocol_t) (buffer : list Z)
    (capacity timeout_ms : Z) (es : list event) (tm : T) : rx_outcome T :=
  let '(pdsdl, p) := load_dsdl_protocol g dsdl true p (source_node_id p) in
  let '(timer, tm) := svc_allocate timeout_ms tm in
  let ms := uavcan_init_comapare_masks Initialization p (Protocol 0 0) in
  rx_loop pdsdl timer timeout_ms capacity es (Rx p ms 0 0 buffer) tm.

End Receive.

End Uavcan.
