(* ===== verification/UavcanSpec.v ===== *)
(** * Theorems about the UAVCAN transport of the CAN bootloader

    What one node sends another receives: the frames of [uavcan_tx_dsdl], seen by
    [uavcan_rx_dsdl] among other traffic and within the timeout, give back the transfer.
    Reception ends: without matching frames it times out, and it never writes outside
    the caller's buffer as long as frames have a tail byte. *)

From S2P Require Import Prelude BitFields Crc BlTimer TimerIface Uavcan.

Local Open Scope Z_scope.

Module UavcanSpec.
Import Uavcan.

(** ** Field algebra on the words of the protocol *)

Ltac wf_field := unfold wf, disjoint; cbn; lia.

(** Reads through writes of fields. *)
Ltac fields :=
  repeat first
    [ rewrite get_set_same by wf_field
    | rewrite get_set_other by wf_field ].

Definition tail_is (tid tog e s : Z) (x : Z) : Prop :=
  BITFEILD_GET UavCanTransferID x = tid /\ BITFEILD_GET UavCanToggle x = tog /\
  BITFEILD_GET UavCanEndOfTransfer x = e /\ BITFEILD_GET UavCanStartOfTransfer x = s.

Lemma bad_tail x :
  (BadTailState =? Z.land x BadTailState) =
  (BITFEILD_GET UavCanStartOfTransfer x =? 1) && (BITFEILD_GET UavCanToggle x =? 1).
Proof.
  transitivity (agree BadTailState x BadTailState).
  - unfold agree. assert (Z.land (Z.lxor x BadTailState) BadTailState =
      Z.lxor (Z.land x BadTailState) BadTailState) as ->.
    { apply Z.bits_inj'. intros i Hi. rewrite Z.land_spec, !Z.lxor_spec, Z.land_spec.
      by destruct (Z.testbit x i), (Z.testbit BadTailState i). }
    apply eq_bool_prop_intro. rewrite !Is_true_true, !Z.eqb_eq. split; [intros <-|intros H].
    + apply Z.lxor_nilpotent.
    + symmetry. by apply Z.lxor_eq.
  - unfold BadTailState at 1. rewrite agree_lor, !agree_field by wf_field. done.
Qed.

Lemma bit_range f x : wf f -> bits f = 1 -> BITFEILD_GET f x = 0 \/ BITFEILD_GET f x = 1.
Proof.
  intros Hf Hb. pose proof (get_range f x Hf) as H. rewrite Hb in H. unfold fits in H. lia.
Qed.

Lemma agree_trans m a b c : agree m b c = true -> agree m a b = agree m a c.
Proof.
  unfold agree. intros H%Z.eqb_eq.
  assert (Z.land (Z.lxor a b) m = Z.land (Z.lxor a c) m) as ->; [|done].
  apply Z.bits_inj'. intros i Hi. apply (f_equal (fun z => Z.testbit z i)) in H.
  rewrite Z.land_spec, Z.lxor_spec, Z.bits_0 in H. rewrite !Z.land_spec, !Z.lxor_spec.
  by destruct (Z.testbit a i), (Z.testbit b i), (Z.testbit c i), (Z.testbit m i).
Qed.

Lemma agree_sym m a b : agree m a b = agree m b a.
Proof. unfold agree. by rewrite Z.lxor_comm. Qed.

(** Taking a field over from the other word keeps the agreement. *)
Lemma agree_set m f a b : wf f -> 0 <= m -> agree m a b = true ->
  agree m a (field_set f (BITFEILD_GET f a) b) = true.
Proof.
  intros Hf Hm. unfold agree. rewrite !Z.eqb_eq. intros H. apply Z.bits_inj'. intros i Hi.
  apply (f_equal (fun z => Z.testbit z i)) in H.
  rewrite Z.land_spec, Z.lxor_spec, Z.bits_0 in H. rewrite Z.land_spec, Z.lxor_spec, Z.bits_0, set_bit by done.
  destruct (Z.leb_spec (lsb_pos f) i), (Z.ltb_spec i (lsb_pos f + bits f)); cbn [andb]; try done.
  rewrite get_bit by (done || lia). rewrite Z.sub_add, (proj2 (Z.ltb_lt _ _)) by lia.
  by rewrite andb_true_r, xorb_nilpotent.
Qed.

Lemma make_uint16_bytes c : fits 16 c -> uavcan_make_uint16 (u8 c) (u8 (Z.shiftr c 8)) = c.
Proof.
  intros Hc. unfold uavcan_make_uint16. apply Z.bits_inj'. intros i Hi.
  rewrite wrap_testbit, Z.lor_spec, Z.shiftl_spec, !wrap_testbit by lia.
  destruct (Z.ltb_spec i 16); [|by rewrite andb_false_r, (fits_testbit 16 ltac:(lia) c Hc) by lia].
  rewrite andb_true_r. destruct (Z.ltb_spec i 8).
  - rewrite (Z.testbit_neg_r _ (i - 8)) by lia. by rewrite andb_true_r.
  - rewrite Z.shiftr_spec by lia. rewrite andb_false_r, orb_false_r.
    rewrite Z.sub_add, (proj2 (Z.ltb_lt _ _)), andb_true_r by lia. done.
Qed.

(** ** The frames of a transfer *)

(** [stream ident tid tog s w fs]: the frames [fs] carry the bytes [w] under the identifier
    [ident], seven to a frame, each with a tail byte that counts the toggle up from [tog]
    and marks the start ([s]) and the end. *)
Inductive stream (ident tid : Z) : Z -> Z -> list Z -> list can_frame -> Prop :=
  | stream_last tog s c tl :
      (0 < length c <= 7)%nat -> tail_is tid tog 1 s tl ->
      stream ident tid tog s c [Frame ident (Z.of_nat (length c) + 1) (c ++ [tl])]
  | stream_more tog s c w tl fs :
      length c = 7%nat -> w <> [] -> tail_is tid tog 0 s tl ->
      stream ident tid (1 - tog) 0 w fs ->
      stream ident tid tog s (c ++ w) (Frame ident 8 (c ++ [tl]) :: fs).

Lemma flip_bit b : b = 0 \/ b = 1 -> wrap 1 (Z.lxor b 1) = 1 - b.
Proof. by intros [-> | ->]. Qed.

(** Sending, when every wait for a mailbox succeeds. *)
Lemma tx_bytes_stream mailbox_free mbx tid : (forall n, mailbox_free n = true) ->
  forall bs payload p b tog e s, bs <> [] -> (length payload < 7)%nat ->
  tail_is tid tog e s (tail p) ->
  exists fs, stream (id p) tid tog s (payload ++ bs) fs /\
    let '(rv, p', b') := tx_bytes mailbox_free mbx bs payload p b in
    rv = UavcanOk /\ id p' = id p /\ b' = Bus (sent b ++ fs) (cancelled b).
Proof.
  intros Hfree. induction bs as [|x rest IH]; intros payload p b tog e s Hne Hlen Htail; [done|].
  clear Hne. destruct Htail as (Ht & Hg & _ & Hs).
  assert (Hbit : tog = 0 \/ tog = 1) by (rewrite <- Hg; apply bit_range; [wf_field|done]).
  cbn [tx_bytes]. set (p1 := set_tail UavCanEndOfTransfer _ p).
  assert (Hp1 : tail_is tid tog (match rest with [] => 1 | _ => 0 end) s (tail p1)).
  { subst p1. unfold tail_is, set_tail. cbn [tail]. fields. by destruct rest. }
  assert (He : eot p1 = match rest with [] => true | _ => false end).
  { unfold eot. destruct Hp1 as (_ & _ & -> & _). by destruct rest. }
  rewrite He, length_app. cbn [length]. unfold MaxUserPayloadLength, CanPayloadLength.
  unfold uavcan_tx, can_tx. rewrite Hfree. cbn [negb Z.eqb UavcanOk CAN_OK].
  assert (Hdlc : Z.land (Z.of_nat (length ((payload ++ [x]) ++ [tail p1]))) 0xf =
                 Z.of_nat (length (payload ++ [x])) + 1).
  { rewrite !length_app. cbn [length]. change 0xf with (Z.ones 4).
    rewrite Z.land_ones, Z.mod_small by lia. lia. }
  rewrite Hdlc. destruct rest as [|y rest].
  - rewrite orb_true_r. cbn [tx_bytes].
    eexists. split; [|by split_and!].
    apply stream_last; [rewrite length_app; cbn; lia|done].
  - rewrite orb_false_r. replace (payload ++ x :: y :: rest) with ((payload ++ [x]) ++ y :: rest)
      by (by rewrite <- app_assoc).
    destruct (Z.eqb_spec (Z.of_nat (length payload + 1)) (8 - 1)) as [Hfull|Hfull].
    + set (p2 := set_tail UavCanStartOfTransfer 0 _).
      assert (Hp2 : tail_is tid (1 - tog) 0 0 (tail p2)).
      { destruct Hp1 as (H1 & H2 & H3 & H4). subst p2. unfold tail_is, set_tail, toggle. cbn [tail].
        fields. cbn [bits UavCanToggle UavCanStartOfTransfer]. rewrite H2, flip_bit by done. by split_and!. }
      destruct (IH [] p2 (Bus (sent b ++ [Frame (id p1) (Z.of_nat (length (payload ++ [x])) + 1)
        ((payload ++ [x]) ++ [tail p1])]) (cancelled b)) _ _ _ ltac:(done) ltac:(cbn; lia) Hp2)
        as (fs & Hst & Hrun).
      exists (Frame (id p) 8 ((payload ++ [x]) ++ [tail p1]) :: fs). split.
      * apply stream_more; [rewrite length_app; cbn; lia|done|done|exact Hst].
      * destruct (tx_bytes _ _ _ _ _ _) as [[rv p'] b']. destruct Hrun as (-> & -> & ->).
        split_and!; [done|done|]. cbn [sent cancelled]. rewrite <- app_assoc.
        assert (Z.of_nat (length (payload ++ [x])) + 1 = 8) as -> by (rewrite length_app; cbn; lia).
        done.
    + destruct (IH (payload ++ [x]) p1 b _ _ _ ltac:(done) ltac:(rewrite length_app; cbn; lia) Hp1)
        as (fs & Hst & Hrun).
      exists fs. split; [exact Hst|exact Hrun].
Qed.

(** ** Receiving *)

Section Receive.
Context {T : Type} {svc : TimerService T} {laws : TimerLaws T svc}.
Variable stray : Z -> Z.

(** Traffic that the identifier filter [m] at [i] keeps out. *)
Definition quiet (m i : Z) (e : event) : Prop :=
  match arrival e with None => True | Some f => agree m (message_id f) i = false end.

(** [delivery m i ms c fs es]: the events [es] bring the frames [fs] in order, with other
    traffic between them; [c] milliseconds are left at the start and [ms] after each frame,
    and the time never runs out. *)
Inductive delivery (m i ms : Z) : Z -> list can_frame -> list event -> Prop :=
  | delivery_quiet c fs e es :
      quiet m i e -> Z.of_nat (before e + after e) * tick_ms < c ->
      delivery m i ms (c - Z.of_nat (before e + after e) * tick_ms) fs es ->
      delivery m i ms c fs (e :: es)
  | delivery_frame c f fs e es :
      arrival e = Some f -> Z.of_nat (before e) * tick_ms < c -> Z.of_nat (after e) * tick_ms < ms ->
      delivery m i ms (ms - Z.of_nat (after e) * tick_ms) fs es ->
      delivery m i ms c (f :: fs) (e :: es)
  | delivery_end c f e es :
      arrival e = Some f -> Z.of_nat (before e) * tick_ms < c ->
      delivery m i ms c [f] (e :: es).

(** The loop between frames. *)
Lemma rx_loop_quiet pdsdl timer ms cap e es st tm m i c :
  quiet m i e -> (forall f, agree m (message_id f) i = false ->
                    agree (id (masks st)) (message_id f) (id (protocol st)) = false) ->
  armed timer c tm -> Z.of_nat (before e + after e) * tick_ms < c ->
  exists tm', armed timer (c - Z.of_nat (before e + after e) * tick_ms) tm' /\
    rx_loop stray pdsdl timer ms cap (e :: es) st tm = rx_loop stray pdsdl timer ms cap es st tm'.
Proof.
  intros Hq Hm Ha Hlt.
  exists (svc_ticks (before e + after e) tm).
  assert (Ha' := ticks_armed _ _ _ _ Ha Hlt). split; [done|].
  assert (Hrun := armed_running _ _ _ Ha'). rewrite Nat.add_comm in Hrun |- *.
  rewrite ticks_split in Hrun |- *. cbn [rx_loop]. unfold quiet in Hq.
  destruct (arrival e) as [f|]; [|by rewrite Hrun].
  cbn [uavcan_rx]. unfold accepted. cbn [id]. rewrite Hm by done.
  rewrite andb_false_r. cbn [andb]. by rewrite Hrun.
Qed.

(** An accepted frame that leaves the loop running, and one that ends it. *)
Lemma rx_loop_frame pdsdl timer ms cap e es st st' tm f c :
  arrival e = Some f -> armed timer c tm -> 0 < ms < 2 ^ 32 ->
  Z.of_nat (before e) * tick_ms < c -> Z.of_nat (after e) * tick_ms < ms ->
  accepted st (fst (uavcan_rx stray f)) = true ->
  process_frame stray cap st (fst (uavcan_rx stray f)) (message f) (snd (uavcan_rx stray f)) = Continue st' ->
  exists tm', armed timer (ms - Z.of_nat (after e) * tick_ms) tm' /\
    rx_loop stray pdsdl timer ms cap (e :: es) st tm = rx_loop stray pdsdl timer ms cap es st' tm'.
Proof.
  intros Hf Ha Hms Hb Haf Hacc Hproc. cbn [rx_loop]. rewrite Hf.
  destruct (uavcan_rx stray f) as [rx len]. cbn [fst snd] in *. rewrite Hacc, Hproc.
  assert (H1 := ticks_armed _ _ _ _ Ha Hb). assert (H2 := restart_armed _ ms _ _ H1 Hms).
  assert (H3 := ticks_armed _ _ _ _ H2 Haf). eexists. split; [exact H3|].
  by rewrite (armed_running _ _ _ H3).
Qed.

Lemma rx_loop_break pdsdl timer ms cap e es st st' tm f :
  arrival e = Some f -> accepted st (fst (uavcan_rx stray f)) = true ->
  process_frame stray cap st (fst (uavcan_rx stray f)) (message f) (snd (uavcan_rx stray f)) = Break st' ->
  exists tm', rx_loop stray pdsdl timer ms cap (e :: es) st tm =
    Returned (rx_verdict pdsdl st' (fst (uavcan_rx stray f))) (protocol st') (transfer st') (total_rx st') tm'.
Proof.
  intros Hf Hacc Hproc. cbn [rx_loop]. rewrite Hf.
  destruct (uavcan_rx stray f) as [rx len]. cbn [fst snd] in *. rewrite Hacc, Hproc. by eexists.
Qed.

(** What [uavcan_rx] makes of a frame with a tail byte. *)
Lemma uavcan_rx_frame ident c tl : (length c <= 7)%nat ->
  uavcan_rx stray (Frame ident (Z.of_nat (length c) + 1) (c ++ [tl])) =
    (Protocol ident tl, Z.of_nat (length c)).
Proof.
  intros Hc. unfold uavcan_rx. cbn [dlc message_id message].
  rewrite wrap_small by (unfold fits; change (2 ^ 32) with 4294967296; lia).
  replace (Z.of_nat (length c) + 1 - 1) with (Z.of_nat (length c)) by lia.
  unfold byte_at. rewrite length_app. cbn [length].
  rewrite (proj2 (Z.leb_le _ _)), (proj2 (Z.ltb_lt _ _)) by lia. cbn [andb].
  by rewrite zat_app_r, Z.sub_diag by lia.
Qed.

Lemma byte_at_in pl i : 0 <= i < Z.of_nat (length pl) -> byte_at stray pl i = zat pl i.
Proof. intros. unfold byte_at. by rewrite (proj2 (Z.leb_le _ _)), (proj2 (Z.ltb_lt _ _)) by lia. Qed.

(** The bytes copied out of a frame. *)
Lemma copied_bytes c tl k : (k <= length c)%nat ->
  map (fun j => byte_at stray (c ++ [tl]) (Z.of_nat k + Z.of_nat j)) (seq 0 (length c - k)) = drop k c.
Proof.
  intros Hk. apply zat_ext; [by rewrite length_map, length_seq, length_drop|].
  rewrite length_map, length_seq. intros i Hi. rewrite zat_map_seq by lia.
  rewrite byte_at_in by (rewrite length_app; cbn; lia). rewrite zat_app_l by lia.
  unfold zat. rewrite !nth_lookup, lookup_drop. do 2 f_equal. lia.
Qed.

Lemma memcpy_at_take n src dst : 0 <= n -> n + Z.of_nat (length src) <= Z.of_nat (length dst) ->
  take (Z.to_nat (n + Z.of_nat (length src))) (memcpy_at n src dst) = take (Z.to_nat n) dst ++ src.
Proof.
  intros Hn Hl. unfold memcpy_at. rewrite app_assoc.
  rewrite take_app_length'; [done|]. rewrite length_app, length_take. lia.
Qed.

Lemma memcpy_at_length n src dst : 0 <= n -> n + Z.of_nat (length src) <= Z.of_nat (length dst) ->
  length (memcpy_at n src dst) = length dst.
Proof.
  intros Hn Hl. unfold memcpy_at. rewrite !length_app, length_take, length_drop. lia.
Qed.

Lemma memcpy_at_drop n src dst k : 0 <= n -> n + Z.of_nat (length src) <= Z.of_nat (length dst) ->
  n + Z.of_nat (length src) <= k -> drop (Z.to_nat k) (memcpy_at n src dst) = drop (Z.to_nat k) dst.
Proof.
  intros Hn Hl Hk. unfold memcpy_at. rewrite app_assoc.
  assert (Hlen : length (take (Z.to_nat n) dst ++ src) = Z.to_nat (n + Z.of_nat (length src)))
    by (rewrite length_app, length_take; lia).
  rewrite drop_app_ge by lia. rewrite Hlen, drop_drop. f_equal. lia.
Qed.

(** The state after the bytes [d] of a frame were taken over. *)
Definition advance (st : rx_state) (d : list Z) : rx_state :=
  Rx (set_tail UavCanToggle (Z.lxor (toggle (protocol st)) 1) (protocol st)) (masks st)
     (transfer_crc st) (total_rx st + Z.of_nat (length d)) (memcpy_at (total_rx st) d (transfer st)).

Definition room (cap : Z) (st : rx_state) : Prop :=
  0 <= total_rx st /\ cap <= Z.of_nat (length (transfer st)) /\ cap < 2 ^ 32.

Lemma copy_payload_fits cap st rx c tl k : room cap st -> (k <= length c)%nat ->
  total_rx st + Z.of_nat (length c - k) <= cap ->
  copy_payload stray cap st rx (c ++ [tl]) (Z.of_nat k) (Z.of_nat (length c - k)) =
    if eot rx then Break (advance st (drop k c)) else Continue (advance st (drop k c)).
Proof.
  intros (H0 & Hcap & Hmax) Hk Hle. unfold copy_payload.
  rewrite wrap_small by (unfold fits; lia). rewrite (proj2 (Z.leb_le _ _)) by lia.
  rewrite Z.gtb_ltb, (proj2 (Z.ltb_ge _ _)) by lia. rewrite Nat2Z.id, copied_bytes by done.
  unfold advance. rewrite length_drop. done.
Qed.

Lemma process_middle cap st rx pl len :
  sot rx = false -> transfer_id rx = transfer_id (protocol st) -> total_rx st < cap ->
  process_frame stray cap st rx pl len = copy_payload stray cap st rx pl 0 len.
Proof.
  intros Hs Ht Hc. unfold process_frame. rewrite Hs, Ht, Z.gtb_ltb, Z.ltb_irrefl, Z.geb_leb.
  rewrite (proj2 (Z.leb_gt _ _)) by lia. done.
Qed.

(** The receiver has seen the start of the transfer [tid] under [ident] and expects the
    toggle [tog]. *)
Record in_transfer (ident tid tog : Z) (st : rx_state) : Prop := {
  it_tid : BITFEILD_GET UavCanTransferID (tail (protocol st)) = tid;
  it_tog : BITFEILD_GET UavCanToggle (tail (protocol st)) = tog;
  it_sot : BITFEILD_GET UavCanStartOfTransfer (tail (protocol st)) = 0;
  it_masks : tail (masks st) = Z.lor (Z.lor (BITFEILD_MASK UavCanToggle)
               (BITFEILD_MASK UavCanStartOfTransfer)) (BITFEILD_MASK UavCanTransferID);
  it_id : agree (id (masks st)) ident (id (protocol st)) = true;
}.

Lemma accept_middle ident tid tog e tl st : in_transfer ident tid tog st ->
  tail_is tid tog e 0 tl -> accepted st (Protocol ident tl) = true.
Proof.
  intros [H1 H2 H3 H4 H5] (T1 & T2 & T3 & T4). unfold accepted. cbn [tail id].
  rewrite bad_tail, H5, H4, !agree_lor, !agree_field, H1, H2, H3, T1, T2, T4 by wf_field.
  by rewrite !Z.eqb_refl.
Qed.

Lemma advance_in_transfer ident tid tog st d :
  in_transfer ident tid tog st -> in_transfer ident tid (1 - tog) (advance st d).
Proof.
  intros [H1 H2 H3 H4 H5]. split; cbn [advance protocol masks set_tail tail id]; try done; fields; try done.
  unfold toggle. rewrite H2. apply flip_bit. rewrite <- H2. apply bit_range; [wf_field|done].
Qed.

Lemma advance_room cap st d : room cap st -> total_rx st + Z.of_nat (length d) <= cap ->
  room cap (advance st d).
Proof.
  intros (H0 & Hcap & Hmax) Hle. unfold room, advance. cbn [total_rx transfer].
  rewrite memcpy_at_length by lia. lia.
Qed.

(** What has been received so far. *)
Definition received (st : rx_state) : list Z := take (Z.to_nat (total_rx st)) (transfer st).

Lemma received_advance cap st d : room cap st -> total_rx st + Z.of_nat (length d) <= cap ->
  received (advance st d) = received st ++ d.
Proof.
  intros (H0 & Hcap & Hmax) Hle. unfold received, advance. cbn [total_rx transfer].
  apply memcpy_at_take; lia.
Qed.

Lemma tail_flags tid tog e s x : tail_is tid tog e s x ->
  sot (Protocol 0 x) = negb (s =? 0) /\ eot (Protocol 0 x) = negb (e =? 0).
Proof. intros (_ & _ & He & Hs). unfold sot, eot. cbn [tail]. by rewrite He, Hs. Qed.

(** A frame in the middle or at the end of the transfer. *)
Lemma middle_frame cap st ident tid tog e tl c :
  in_transfer ident tid tog st -> room cap st -> (0 < length c <= 7)%nat ->
  total_rx st + Z.of_nat (length c) <= cap -> tail_is tid tog e 0 tl ->
  let f := Frame ident (Z.of_nat (length c) + 1) (c ++ [tl]) in
  accepted st (fst (uavcan_rx stray f)) = true /\
  sot (fst (uavcan_rx stray f)) = false /\
  process_frame stray cap st (fst (uavcan_rx stray f)) (message f) (snd (uavcan_rx stray f)) =
    if e =? 0 then Continue (advance st c) else Break (advance st c).
Proof.
  intros Hin Hroom Hc Hfit Htl f. subst f. rewrite uavcan_rx_frame by lia. cbn [fst snd message].
  destruct (tail_flags _ _ _ _ _ Htl) as [Hs He]. change (sot (Protocol 0 tl)) with (sot (Protocol ident tl)) in Hs.
  change (eot (Protocol 0 tl)) with (eot (Protocol ident tl)) in He.
  split; [by eapply accept_middle|]. split; [done|].
  rewrite process_middle; [|done| |lia].
  - pose proof (copy_payload_fits cap st (Protocol ident tl) c tl 0 Hroom ltac:(lia)) as Hcp.
    rewrite Nat.sub_0_r in Hcp. change (Z.of_nat 0) with 0 in Hcp. rewrite Hcp by lia.
    rewrite drop_0, He. by destruct (e =? 0).
  - destruct Htl as (Ht & _). unfold transfer_id. cbn [tail]. by rewrite Ht, (it_tid _ _ _ _ Hin).
Qed.

(** What a completed reception hands back. *)
Definition handed_back (pdsdl : dsdl_t) (cap : Z) (st : rx_state) (tid : Z) (w : list Z)
    (o : rx_outcome T) : Prop :=
  exists st' tm', o =
      Returned (if transfer_crc st =? Crc.crc16_signature (signature_crc16 pdsdl) (received st ++ w)
                then UavcanOk else UavcanError)
               (protocol st') (transfer st') (total_rx st + Z.of_nat (length w)) tm' /\
    id (protocol st') = id (protocol st) /\ transfer_id (protocol st') = tid /\
    take (Z.to_nat (total_rx st + Z.of_nat (length w))) (transfer st') = received st ++ w /\
    drop (Z.to_nat cap) (transfer st') = drop (Z.to_nat cap) (transfer st).

Lemma advance_drop cap st d : room cap st -> total_rx st + Z.of_nat (length d) <= cap ->
  drop (Z.to_nat cap) (transfer (advance st d)) = drop (Z.to_nat cap) (transfer st).
Proof. intros (H0 & Hcap & Hmax) Hle. apply memcpy_at_drop; lia. Qed.

Lemma handed_back_advance pdsdl cap st tid c w o : room cap st ->
  total_rx st + Z.of_nat (length (c ++ w)) <= cap ->
  handed_back pdsdl cap (advance st c) tid w o -> handed_back pdsdl cap st tid (c ++ w) o.
Proof.
  intros Hroom Hfit (st' & tm' & -> & Hid & Ht & Htake & Hdrop).
  rewrite length_app in Hfit. assert (Hc : total_rx st + Z.of_nat (length c) <= cap) by lia.
  rewrite (received_advance cap) in * by done. rewrite <- app_assoc in *.
  rewrite (advance_drop cap) in Hdrop by done. cbn [advance transfer_crc total_rx protocol] in *.
  replace (total_rx st + Z.of_nat (length c) + Z.of_nat (length w)) with
    (total_rx st + Z.of_nat (length (c ++ w))) in * by (rewrite length_app; lia).
  by exists st', tm'.
Qed.

Lemma rx_last pdsdl timer ms cap ident tid tog tl c e es st tm :
  arrival e = Some (Frame ident (Z.of_nat (length c) + 1) (c ++ [tl])) ->
  in_transfer ident tid tog st -> room cap st -> (0 < length c <= 7)%nat ->
  total_rx st + Z.of_nat (length c) <= cap -> tail_is tid tog 1 0 tl ->
  handed_back pdsdl cap st tid c (rx_loop stray pdsdl timer ms cap (e :: es) st tm).
Proof.
  intros Hf Hin Hroom Hc Hfit Htl.
  destruct (middle_frame cap st ident tid tog 1 tl c Hin Hroom Hc Hfit Htl) as (Hacc & Hs & Hp).
  destruct (rx_loop_break pdsdl timer ms cap e es st _ tm _ Hf Hacc Hp) as (tm' & ->).
  exists (advance st c), tm'. unfold rx_verdict. rewrite Hs. cbn [orb].
  change (take (Z.to_nat (total_rx (advance st c))) (transfer (advance st c))) with (received (advance st c)).
  rewrite (received_advance cap) by done. split; [done|]. split; [done|]. split; [|split].
  - exact (it_tid _ _ _ _ (advance_in_transfer _ _ _ _ c Hin)).
  - exact (received_advance cap st c Hroom Hfit).
  - by apply advance_drop.
Qed.

(** The rest of a transfer. *)
Lemma rx_rest pdsdl timer ms cap m i ident tid : 0 < ms < 2 ^ 32 -> forall c fs es,
  delivery m i ms c fs es -> forall tog w st tm, stream ident tid tog 0 w fs ->
  in_transfer ident tid tog st -> room cap st -> total_rx st + Z.of_nat (length w) <= cap ->
  (forall f, agree m (message_id f) i = false ->
     agree (id (masks st)) (message_id f) (id (protocol st)) = false) ->
  armed timer c tm ->
  handed_back pdsdl cap st tid w (rx_loop stray pdsdl timer ms cap es st tm).
Proof.
  intros Hms c fs es Hd. induction Hd as
    [c fs e es Hq Hlt Hd IH|c f fs e es Hf Hb Ha Hd IH|c f e es Hf Hb];
    intros tog w st tm Hst Hin Hroom Hfit Hkeep Harm.
  - destruct (rx_loop_quiet pdsdl timer ms cap e es st tm m i c Hq Hkeep Harm Hlt) as (tm' & Ha' & ->).
    exact (IH tog w st tm' Hst Hin Hroom Hfit Hkeep Ha').
  - inversion Hst as [? ? d tl Hc Htl|? ? d v tl ? Hc Hv Htl Hrest]; subst.
    { by eapply rx_last. }
    assert (Hd7 : total_rx st + Z.of_nat (length d) <= cap) by (rewrite length_app in Hfit; lia).
    destruct (middle_frame cap st ident tid tog 0 tl d Hin Hroom ltac:(lia) Hd7 Htl) as (Hacc & _ & Hp).
    rewrite Hc in Hacc, Hp.
    destruct (rx_loop_frame pdsdl timer ms cap e es st _ tm _ c Hf Harm Hms Hb Ha Hacc Hp) as (tm' & Ha' & ->).
    apply handed_back_advance; [done..|].
    apply (IH (1 - tog)); [done|by apply advance_in_transfer|by apply advance_room| |exact Hkeep|done].
    cbn [advance total_rx]. rewrite length_app in Hfit. lia.
  - inversion Hst as [? ? d tl Hc Htl|? ? d v tl ? Hc Hv Htl Hrest]; subst.
    { by eapply rx_last. }
    inversion Hrest.
Qed.

(** *** The first frame *)

(** The receiver waits for the start of a transfer that [ident] may announce. *)
Record awaiting (ident : Z) (st : rx_state) : Prop := {
  aw_tog : BITFEILD_GET UavCanToggle (tail (protocol st)) = 0;
  aw_sot : BITFEILD_GET UavCanStartOfTransfer (tail (protocol st)) = 1;
  aw_masks : tail (masks st) = Z.lor (BITFEILD_MASK UavCanToggle) (BITFEILD_MASK UavCanStartOfTransfer);
  aw_mask0 : 0 <= id (masks st);
  aw_id : agree (id (masks st)) ident (id (protocol st)) = true;
}.

Lemma accept_first ident tid e tl st : awaiting ident st -> tail_is tid 0 e 1 tl ->
  accepted st (Protocol ident tl) = true.
Proof.
  intros [H1 H2 H3 H4 H5] (T1 & T2 & T3 & T4). unfold accepted. cbn [tail id].
  rewrite bad_tail, H5, H3, !agree_lor, !agree_field, H1, H2, T2, T4 by wf_field. done.
Qed.

(** The state once the start has been seen. *)
Definition begun (st : rx_state) (ident tid crc : Z) : rx_state :=
  let p := set_tail UavCanStartOfTransfer 0 (protocol st) in
  let p := set_id UavCanMessageSourceNodeID (BITFEILD_GET UavCanMessageSourceNodeID ident) p in
  let p := set_tail UavCanTransferID tid p in
  Rx p (uavcan_init_comapare_masks OnStartOfTransfer p (masks st)) crc 0 (transfer st).

Lemma begun_in_transfer st ident tid tog e s tl crc : awaiting ident st -> tail_is tid tog e s tl ->
  in_transfer ident tid 0 (begun st ident tid crc).
Proof.
  intros [H1 H2 H3 H4 H5] (T1 & _ & _ & _).
  split; cbn [begun protocol masks set_tail set_id tail id uavcan_init_comapare_masks].
  - fields. rewrite <- T1. apply wrap_small, get_range. wf_field.
  - by fields.
  - by fields.
  - by rewrite H3.
  - rewrite agree_lor, agree_field by wf_field. rewrite agree_set by (done || wf_field). cbn [andb].
    apply Z.eqb_eq. fields. symmetry. apply wrap_small, get_range. wf_field.
Qed.

Lemma begun_keeps st ident tid crc x : awaiting ident st ->
  agree (id (masks st)) x (id (protocol st)) = false ->
  agree (id (masks (begun st ident tid crc))) x (id (protocol (begun st ident tid crc))) = false.
Proof.
  intros [_ _ _ H4 H5] Hx. cbn [begun protocol masks set_tail set_id id uavcan_init_comapare_masks].
  rewrite agree_lor. apply andb_false_intro1. rewrite <- Hx. apply agree_trans.
  rewrite <- (agree_trans _ _ ident) by done. rewrite agree_sym. by apply agree_set; [wf_field| |].
Qed.

Lemma begun_source st ident tid crc :
  source_node_id (protocol (begun st ident tid crc)) = BITFEILD_GET UavCanMessageSourceNodeID ident.
Proof.
  unfold source_node_id. cbn [begun protocol set_tail set_id id]. fields.
  apply wrap_small, get_range. wf_field.
Qed.

Lemma process_first cap st ident tid e tl pl len : awaiting ident st -> 0 < cap ->
  tail_is tid 0 e 1 tl ->
  process_frame stray cap st (Protocol ident tl) pl len =
    if e =? 0 then
      copy_payload stray cap (begun st ident tid
          (uavcan_make_uint16 (byte_at stray pl PayloadOffsetCRClsb) (byte_at stray pl PayloadOffsetCRCmsb)))
        (Protocol ident tl) pl PayloadOffsetCRCdata (u32 (len - PayloadOffsetCRCdata))
    else copy_payload stray cap (begun st ident tid (transfer_crc st)) (Protocol ident tl) pl 0 len.
Proof.
  intros Haw Hcap Htl.
  assert (Hstart : start_of_transfer stray st (Protocol ident tl) pl len =
    if e =? 0 then (begun st ident tid
        (uavcan_make_uint16 (byte_at stray pl PayloadOffsetCRClsb) (byte_at stray pl PayloadOffsetCRCmsb)),
        PayloadOffsetCRCdata, u32 (len - PayloadOffsetCRCdata))
    else (begun st ident tid (transfer_crc st), 0, len)).
  { destruct Htl as (<- & _ & He & _). unfold start_of_transfer, eot. cbn [tail]. rewrite He.
    by destruct (e =? 0). }
  unfold process_frame. rewrite Hstart. unfold sot. cbn [tail].
  rewrite (proj2 (proj2 (proj2 Htl))). cbn [negb Z.eqb].
  assert (Ht : forall crc, transfer_id (Protocol ident tl) = transfer_id (protocol (begun st ident tid crc))).
  { intros crc. unfold transfer_id at 2.
    rewrite (it_tid _ _ _ _ (begun_in_transfer st ident tid _ _ _ _ crc Haw Htl)). apply Htl. }
  destruct (e =? 0); rewrite <- Ht, Z.gtb_ltb, Z.ltb_irrefl, Z.geb_leb; cbn [begun total_rx orb];
    by rewrite (proj2 (Z.leb_gt _ _)) by lia.
Qed.

(** A transfer in one frame. *)
Lemma first_single cap st ident tid tl c : awaiting ident st -> room cap st ->
  (0 < length c <= 7)%nat -> Z.of_nat (length c) <= cap -> tail_is tid 0 1 1 tl ->
  process_frame stray cap st (Protocol ident tl) (c ++ [tl]) (Z.of_nat (length c)) =
    Break (advance (begun st ident tid (transfer_crc st)) c).
Proof.
  intros Haw (_ & Hcap & Hmax) Hc Hfit Htl. rewrite (process_first cap st ident tid 1) by (done || lia).
  cbn [Z.eqb]. pose proof (copy_payload_fits cap (begun st ident tid (transfer_crc st))
    (Protocol ident tl) c tl 0) as Hcp.
  rewrite Nat.sub_0_r, drop_0 in Hcp. change (Z.of_nat 0) with 0 in Hcp.
  rewrite Hcp; [|split; cbn; lia|lia|cbn; lia].
  unfold eot. cbn [tail]. by rewrite (proj1 (proj2 (proj2 Htl))).
Qed.

(** The first of several frames. *)
Lemma first_of_many cap st ident tid tl b0 b1 d : awaiting ident st -> room cap st ->
  (length d = 5)%nat -> 5 <= cap -> tail_is tid 0 0 1 tl ->
  process_frame stray cap st (Protocol ident tl) ((b0 :: b1 :: d) ++ [tl]) 7 =
    Continue (advance (begun st ident tid (uavcan_make_uint16 b0 b1)) d).
Proof.
  intros Haw (_ & Hcap & Hmax) Hd Hfit Htl. rewrite (process_first cap st ident tid 0) by (done || lia).
  cbn [Z.eqb]. pose proof (copy_payload_fits cap (begun st ident tid (uavcan_make_uint16 b0 b1))
    (Protocol ident tl) (b0 :: b1 :: d) tl 2) as Hcp.
  cbn [length drop] in Hcp. rewrite Hd in Hcp. change (Z.of_nat (7 - 2)) with (u32 (7 - PayloadOffsetCRCdata)) in Hcp.
  rewrite !byte_at_in by (unfold PayloadOffsetCRClsb, PayloadOffsetCRCmsb; cbn; lia). change (Z.of_nat 2) with PayloadOffsetCRCdata in Hcp.
  change (zat _ PayloadOffsetCRClsb) with b0. change (zat _ PayloadOffsetCRCmsb) with b1.
  rewrite Hcp; [|split; cbn; lia|lia|change (u32 (7 - PayloadOffsetCRCdata)) with 5; cbn; lia].
  unfold eot. cbn [tail]. by rewrite (proj1 (proj2 (proj2 Htl))).
Qed.

(** The bytes of a transfer as they are sent. *)
Definition wire (pdsdl : dsdl_t) (tr : list Z) : list Z :=
  if Z.of_nat (length tr) >? MaxUserPayloadLength then
    let crc := Crc.crc16_signature (signature_crc16 pdsdl) tr in u8 crc :: u8 (Z.shiftr crc 8) :: tr
  else tr.

Definition sender (ident : Z) : Z := BITFEILD_GET UavCanMessageSourceNodeID ident.

(** A successful reception of [tr] from the node [src]. *)
Definition delivered (cap : Z) (buffer : list Z) (src tid : Z) (tr : list Z) (o : rx_outcome T) : Prop :=
  exists p' buffer' tm', o = Returned UavcanOk p' buffer' (Z.of_nat (length tr)) tm' /\
    source_node_id p' = src /\ transfer_id p' = tid /\
    take (length tr) buffer' = tr /\ drop (Z.to_nat cap) buffer' = drop (Z.to_nat cap) buffer.

Lemma rx_single pdsdl timer ms cap ident tid tl c e es st tm :
  arrival e = Some (Frame ident (Z.of_nat (length c) + 1) (c ++ [tl])) ->
  awaiting ident st -> room cap st -> (0 < length c <= 7)%nat -> Z.of_nat (length c) <= cap ->
  tail_is tid 0 1 1 tl ->
  delivered cap (transfer st) (sender ident) tid c (rx_loop stray pdsdl timer ms cap (e :: es) st tm).
Proof.
  intros Hf Haw Hroom Hc Hfit Htl.
  set (s1 := begun st ident tid (transfer_crc st)).
  assert (Hr1 : room cap s1) by (destruct Hroom as (? & ? & ?); split; cbn; lia).
  pose proof (first_single cap st ident tid tl c Haw Hroom Hc Hfit Htl) as Hp.
  assert (Hrx : uavcan_rx stray (Frame ident (Z.of_nat (length c) + 1) (c ++ [tl])) =
    (Protocol ident tl, Z.of_nat (length c))) by (apply uavcan_rx_frame; lia).
  destruct (rx_loop_break pdsdl timer ms cap e es st (advance s1 c) tm _ Hf) as (tm' & ->);
    [rewrite Hrx; by eapply accept_first|by rewrite Hrx|].
  rewrite Hrx. cbn [fst]. unfold rx_verdict, sot. cbn [tail].
  rewrite (proj2 (proj2 (proj2 Htl))). cbn [negb Z.eqb orb].
  eexists _, _, tm'. split; [done|]. split; [exact (begun_source st ident tid (transfer_crc st))|].
  split; [exact (it_tid _ _ _ _ (advance_in_transfer _ _ _ _ c (begun_in_transfer _ _ _ _ _ _ _ _ Haw Htl)))|].
  split; [|exact (advance_drop cap s1 c Hr1 ltac:(cbn; lia))].
  pose proof (received_advance cap s1 c Hr1 ltac:(cbn; lia)) as Hrec. unfold received in Hrec at 1.
  cbn [total_rx advance s1 begun] in Hrec. rewrite Z.add_0_l, Nat2Z.id in Hrec. exact Hrec.
Qed.

(** From the state after the first of several frames to the whole transfer. *)
Lemma delivered_many pdsdl cap st ident tid tr o : fits 16 (signature_crc16 pdsdl) ->
  let crc := Crc.crc16_signature (signature_crc16 pdsdl) tr in
  handed_back pdsdl cap (begun st ident tid (uavcan_make_uint16 (u8 crc) (u8 (Z.shiftr crc 8)))) tid tr o ->
  delivered cap (transfer st) (sender ident) tid tr o.
Proof.
  intros Hsig crc (st' & tm' & -> & Hid & Ht & Htake & Hdrop).
  rewrite make_uint16_bytes in * by (by apply Crc.crc16_signature_fits).
  exists (protocol st'), (transfer st'), tm'.
  unfold received in *. cbn [begun total_rx transfer_crc Z.to_nat take] in *.
  rewrite take_0 in *. cbn [app] in *. fold crc. rewrite Z.eqb_refl, Z.add_0_l in *.
  split; [done|]. split.
  - unfold sender. rewrite <- (begun_source st ident tid crc). unfold source_node_id. f_equal. exact Hid.
  - split; [done|]. split; [by rewrite Nat2Z.id in Htake|exact Hdrop].
Qed.

Lemma rx_many pdsdl timer ms cap ident tid tr b0 b1 d v tl c e es fs st tm :
  fits 16 (signature_crc16 pdsdl) -> 0 < ms < 2 ^ 32 -> Z.of_nat (length tr) <= cap ->
  wire pdsdl tr = b0 :: b1 :: d ++ v -> length d = 5%nat -> v <> [] ->
  arrival e = Some (Frame ident 8 ((b0 :: b1 :: d) ++ [tl])) -> Z.of_nat (before e) * tick_ms < c ->
  Z.of_nat (after e) * tick_ms < ms -> tail_is tid 0 0 1 tl -> stream ident tid 1 0 v fs ->
  delivery (id (masks st)) (id (protocol st)) ms (ms - Z.of_nat (after e) * tick_ms) fs es ->
  awaiting ident st -> room cap st -> armed timer c tm ->
  delivered cap (transfer st) (sender ident) tid tr (rx_loop stray pdsdl timer ms cap (e :: es) st tm).
Proof.
  intros Hsig Hms Hfit Hw Hd Hv Hf Hb Ha Htl Hst Hdel Haw Hroom Harm.
  unfold wire in Hw. rewrite Z.gtb_ltb in Hw. unfold MaxUserPayloadLength, CanPayloadLength in Hw.
  destruct (Z.ltb_spec (8 - 1) (Z.of_nat (length tr))) as [Hlong|Hshort].
  2:{ rewrite Hw in Hshort. cbn [length] in Hshort. rewrite length_app, Hd in Hshort.
      destruct v; [done|]. cbn [length] in Hshort. lia. }
  cbv zeta in Hw. injection Hw as <- <- ->.
  rewrite length_app in Hfit. set (crc := Crc.crc16_signature _ _) in *.
  set (s1 := begun st ident tid (uavcan_make_uint16 (u8 crc) (u8 (Z.shiftr crc 8)))).
  assert (Hr1 : room cap s1) by (destruct Hroom as (? & ? & ?); split; cbn; lia).
  pose proof (uavcan_rx_frame ident (u8 crc :: u8 (Z.shiftr crc 8) :: d) tl) as Hrx.
  cbn [length] in Hrx. rewrite Hd in Hrx. specialize (Hrx ltac:(lia)).
  change (Z.of_nat 7 + 1) with 8 in Hrx. change (Z.of_nat 7) with 7 in Hrx.
  destruct (rx_loop_frame pdsdl timer ms cap e es st (advance s1 d) tm _ c Hf Harm Hms Hb Ha)
    as (tm' & Ha' & ->).
  - rewrite Hrx. by eapply accept_first.
  - rewrite Hrx. apply first_of_many; (done || lia).
  - apply (delivered_many pdsdl); [done|]. fold crc. fold s1.
    apply handed_back_advance; [done|rewrite length_app; cbn; lia|].
    apply (rx_rest pdsdl timer ms cap (id (masks st)) (id (protocol st)) ident tid Hms _ _ _ Hdel 1);
      [done| | |cbn; lia| |done].
    + apply (advance_in_transfer ident tid 0). by eapply begun_in_transfer.
    + apply advance_room; [done|cbn; lia].
    + intros f Hx. exact (begun_keeps st ident tid _ _ Haw Hx).
Qed.

(** Reception of a whole transfer, other traffic before it included. *)
Lemma rx_whole pdsdl timer ms cap ident tid tr st : fits 16 (signature_crc16 pdsdl) ->
  0 < ms < 2 ^ 32 -> Z.of_nat (length tr) <= cap -> awaiting ident st -> room cap st ->
  forall c fs es, delivery (id (masks st)) (id (protocol st)) ms c fs es -> forall tm,
  stream ident tid 0 1 (wire pdsdl tr) fs -> armed timer c tm ->
  delivered cap (transfer st) (sender ident) tid tr (rx_loop stray pdsdl timer ms cap es st tm).
Proof.
  intros Hsig Hms Hfit Haw Hroom.
  assert (Hlast : forall e es tm c tl, arrival e = Some (Frame ident (Z.of_nat (length c) + 1) (c ++ [tl])) ->
    c = wire pdsdl tr -> (0 < length c <= 7)%nat -> tail_is tid 0 1 1 tl ->
    delivered cap (transfer st) (sender ident) tid tr (rx_loop stray pdsdl timer ms cap (e :: es) st tm)).
  { intros e es tm c tl Hf Hc Hl Htl. unfold wire in Hc.
    destruct (Z.gtb_spec (Z.of_nat (length tr)) MaxUserPayloadLength) as [Hlong|_].
    - subst c. unfold MaxUserPayloadLength, CanPayloadLength in Hlong. cbn [length] in Hl. lia.
    - subst c. by apply (rx_single pdsdl timer ms cap ident tid tl). }
  intros c fs es Hd. induction Hd as
    [c fs e es Hq Hlt Hd IH|c f fs e es Hf Hb Ha Hd _|c f e es Hf Hb]; intros tm Hst Harm.
  - destruct (rx_loop_quiet pdsdl timer ms cap e es st tm _ _ c Hq ltac:(auto) Harm Hlt) as (tm' & Ha' & ->).
    by apply IH.
  - inversion Hst as [? ? d tl Hc Htl|? ? d v tl ? Hc Hv Htl Hrest Hdv]; subst.
    { by eapply Hlast. }
    destruct d as [|b0 [|b1 d]]; try done. injection Hc as Hc.
    eapply (rx_many pdsdl timer ms cap ident tid tr b0 b1 d v tl c e es fs st tm); done.
  - inversion Hst as [? ? d tl Hc Htl|? ? d v tl ? Hc Hv Htl Hrest]; subst.
    { by eapply Hlast. }
    inversion Hrest.
Qed.

(** *** From sender to receiver *)

(** The state in which [uavcan_rx_dsdl] enters its loop. *)
Definition rx_start (g : node) (dsdl : nat) (p : uavcan_protocol_t) (buffer : list Z) : rx_state :=
  let p := snd (load_dsdl_protocol g dsdl true p (source_node_id p)) in
  Rx p (uavcan_init_comapare_masks Initialization p (Protocol 0 0)) 0 0 buffer.

Definition transfers : list nat :=
  [DSDLMsgAllocation; DSDLMsgNodeStatus; DSDLReqGetNodeInfo; DSDLRspGetNodeInfo;
   DSDLReqBeginFirmwareUpdate; DSDLRspBeginFirmwareUpdate; DSDLReqGetInfo; DSDLRspGetInfo;
   DSDLReqRead; DSDLRspRead].

Definition is_service (dsdl : nat) : bool := service_not_message (prototype (dsdl_at dsdl)).

Ltac each_transfer H :=
  unfold transfers in H; cbn [In] in H; destruct_or? H; try contradiction H; subst.

Lemma land_tid x : BITFEILD_GET UavCanTransferID (Z.land x (BITFEILD_MASK UavCanTransferID)) =
  BITFEILD_GET UavCanTransferID x.
Proof.
  rewrite get_land. change (BITFEILD_GET _ (BITFEILD_MASK _)) with (Z.ones 5).
  rewrite Z.land_ones by lia. apply (wrap_small 5), get_range. wf_field.
Qed.

Lemma land_tid_other f x : BITFEILD_GET f (BITFEILD_MASK UavCanTransferID) = 0 ->
  BITFEILD_GET f (Z.land x (BITFEILD_MASK UavCanTransferID)) = 0.
Proof. intros H. by rewrite get_land, H, Z.land_0_r. Qed.

Lemma load_tail g dsdl dir p that : In dsdl transfers ->
  exists e, tail_is (transfer_id p) 0 e 1 (tail (snd (load_dsdl_protocol g dsdl dir p that))).
Proof.
  intros Hin. assert (Ht : exists tl, (tl = SingleFrameTailInit \/ tl = MultiFrameTailInit) /\
    tail (snd (load_dsdl_protocol g dsdl dir p that)) =
      Z.lor (Z.land (tail p) (BITFEILD_MASK UavCanTransferID)) tl).
  { each_transfer Hin; destruct dir; eexists; (split; [|reflexivity]); auto. }
  destruct Ht as (tl & Htl & ->). exists (BITFEILD_GET UavCanEndOfTransfer tl).
  unfold tail_is. rewrite !get_lor, land_tid, !land_tid_other by done.
  destruct Htl as [-> | ->]; cbv [transfer_id]; rewrite Z.lor_0_r; done.
Qed.

Lemma load_signature dsdl : In dsdl transfers -> fits 16 (signature_crc16 (dsdl_at dsdl)).
Proof. intros Hin. each_transfer Hin; fits_const. Qed.

Lemma load_source g dsdl p that : fits 7 (g_this_node_id g) ->
  sender (id (snd (load_dsdl_protocol g dsdl false p that))) = g_this_node_id g.
Proof.
  intros Hf. unfold load_dsdl_protocol, sender. cbn [snd].
  destruct (service_not_message _); cbn [set_id id]; fields; by apply wrap_small.
Qed.

(** The nodes address each other: the sender of a service transfer names the receiver, who
    expects it from that sender or from anyone. *)
Definition addressed (dsdl : nat) (ga gb : node) (pa pb : uavcan_protocol_t) : Prop :=
  fits 7 (g_this_node_id ga) /\ fits 7 (g_this_node_id gb) /\
  (is_service dsdl = true -> source_node_id pa = g_this_node_id gb /\
     (source_node_id pb = ANY_NODE_ID \/ source_node_id pb = g_this_node_id ga)).

Lemma prototype_source dsdl : BITFEILD_GET UavCanMessageSourceNodeID (prototype (dsdl_at dsdl)) = 0.
Proof.
  unfold dsdl_at. generalize (getDSDLOffset dsdl). intros n.
  do 14 (destruct n as [|n]; [done|]). done.
Qed.

Lemma set_source v p : source_node_id (set_id UavCanMessageSourceNodeID v p) = wrap 7 v.
Proof. unfold source_node_id. cbn [set_id id]. by fields. Qed.

Lemma ids_agree ga gb dsdl pa pb buffer : addressed dsdl ga gb pa pb ->
  let st := rx_start gb dsdl pb buffer in
  0 <= id (masks st) /\
  agree (id (masks st)) (id (snd (load_dsdl_protocol ga dsdl false pa (source_node_id pa))))
        (id (protocol st)) = true.
Proof.
  intros (Ha & Hb & Hadr) st. subst st. unfold is_service in Hadr.
  cbn [rx_start masks protocol uavcan_init_comapare_masks id].
  unfold load_dsdl_protocol. cbn [snd].
  destruct (service_not_message (prototype (dsdl_at dsdl))) eqn:Hsvc; cbn [set_id id tail].
  - destruct (Hadr eq_refl) as [Hpa Hpb].
    assert (Hs : forall a b c, service_not_message (field_set UavCanMessageSourceNodeID a
      (field_set UavCanServiceDestinationNodeID b (field_set UavCanMessagePriority c
        (prototype (dsdl_at dsdl))))) = true).
    { intros a b c. unfold service_not_message in *. by fields. }
    rewrite Hs, set_source.
    assert (Hpr : fits 7 (source_node_id pb)) by (apply get_range; wf_field).
    rewrite (wrap_small 7 (source_node_id pb)) by done.
    destruct (Z.eqb_spec (source_node_id pb) ANY_NODE_ID) as [Hany|Hany]; cbn [negb].
    all: split; [done|]; rewrite !agree_lor, !agree_field by wf_field; fields.
    all: rewrite Hpa, !Z.eqb_refl; cbn [andb]; try done.
    destruct Hpb as [Hpb|Hpb]; [done|]. rewrite Hpb. by rewrite Z.eqb_refl.
  - assert (Hs : service_not_message (field_set UavCanMessagePriority (g_uavcan_priority gb)
      (prototype (dsdl_at dsdl))) = false).
    { unfold service_not_message in *. by fields. }
    rewrite Hs. unfold source_node_id. cbn [id]. fields. rewrite prototype_source. cbn [Z.eqb ANY_NODE_ID].
    split; [done|]. rewrite !agree_lor, !agree_field by wf_field. fields.
    by rewrite !Z.eqb_refl.
Qed.

Lemma rx_start_awaiting ga gb dsdl pa pb buffer : In dsdl transfers -> addressed dsdl ga gb pa pb ->
  awaiting (id (snd (load_dsdl_protocol ga dsdl false pa (source_node_id pa)))) (rx_start gb dsdl pb buffer).
Proof.
  intros Hin Hadr. destruct (ids_agree ga gb dsdl pa pb buffer Hadr) as [H0 Hag].
  destruct (load_tail gb dsdl true pb (source_node_id pb) Hin) as (e & _ & Htog & _ & Hsot).
  by split.
Qed.

(** C10 (roundtrip). What one node sends with [uavcan_tx_dsdl], another that expects the
    same transfer receives with [uavcan_rx_dsdl]: if the waits for the mailbox succeed, the
    transfer (of one or of many frames) goes out in frames that, arriving in order with any
    other traffic between them and without a silence as long as the timeout, make the
    receiver return [UavcanOk] with exactly the bytes sent, the sender's node id and its
    transfer id, and with nothing stored beyond the capacity given. *)
Theorem uavcan_tx_rx_roundtrip mailbox_free ga gb dsdl pa pb tr b buffer cap ms tm :
  (forall n, mailbox_free n = true) -> In dsdl transfers -> addressed dsdl ga gb pa pb ->
  tr <> [] -> Z.of_nat (length tr) <= cap <= Z.of_nat (length buffer) -> cap < 2 ^ 32 ->
  0 < ms < 2 ^ 32 -> available tm ->
  let '(rv, _, b') := uavcan_tx_dsdl mailbox_free ga dsdl pa tr b in
  let st := rx_start gb dsdl pb buffer in
  rv = UavcanOk /\ exists fs, sent b' = sent b ++ fs /\ forall es,
    delivery (id (masks st)) (id (protocol st)) ms ms fs es ->
    delivered cap buffer (g_this_node_id ga) (transfer_id pa) tr
      (uavcan_rx_dsdl stray gb dsdl pb buffer cap ms es tm).
Proof.
  intros Hfree Hin Hadr Hne Hcap Hmax Hms Hav.
  set (ptx := snd (load_dsdl_protocol ga dsdl false pa (source_node_id pa))).
  destruct (load_tail ga dsdl false pa (source_node_id pa) Hin) as (e & Htl). fold ptx in Htl.
  unfold uavcan_tx_dsdl. rewrite (surjective_pairing (load_dsdl_protocol ga dsdl false _ _)). fold ptx.
  change (fst (load_dsdl_protocol ga dsdl false pa (source_node_id pa))) with (dsdl_at dsdl).
  set (pre := if _ >? _ then _ else _).
  assert (Hpre : (length pre < 7)%nat) by (subst pre; destruct (_ >? _); cbn; lia).
  assert (Hwire : pre ++ tr = wire (dsdl_at dsdl) tr) by (subst pre; unfold wire; by destruct (_ >? _)).
  destruct (tx_bytes_stream mailbox_free (mailbox (dsdl_at dsdl)) (transfer_id pa) Hfree tr pre ptx b
    0 e 1 Hne Hpre Htl) as (fs & Hst & Hrun).
  destruct (tx_bytes _ _ _ _ _ _) as [[rv p'] b']. destruct Hrun as (-> & _ & ->).
  split; [done|]. exists fs. split; [done|]. intros es Hdel.
  rewrite <- (load_source ga dsdl pa (source_node_id pa)) by apply Hadr. fold ptx.
  unfold uavcan_rx_dsdl. rewrite (surjective_pairing (load_dsdl_protocol gb dsdl true _ _)).
  rewrite (surjective_pairing (svc_allocate ms tm)).
  apply (rx_whole (dsdl_at dsdl) (fst (svc_allocate ms tm)) ms cap (id ptx) (transfer_id pa) tr
    (rx_start gb dsdl pb buffer)) with (c := ms) (fs := fs);
    [by apply load_signature|done|lia|by apply rx_start_awaiting|by split; cbn; lia|exact Hdel|
     by rewrite <- Hwire|by apply allocate_armed].
Qed.

(** *** Memory safety *)

(** What the loop has done to the caller's [buffer] so far. *)
Definition confined (cap : Z) (buffer : list Z) (st : rx_state) : Prop :=
  0 <= total_rx st <= cap /\ length (transfer st) = length buffer /\
  drop (Z.to_nat cap) (transfer st) = drop (Z.to_nat cap) buffer.

Definition confined_result (cap : Z) (buffer : list Z) (r : frame_result) : Prop :=
  match r with Continue st | Break st => confined cap buffer st | Fault => False end.

Lemma copy_payload_confined cap buffer st rx pl k len :
  cap <= Z.of_nat (length buffer) -> cap + 8 < 2 ^ 32 -> confined cap buffer st ->
  0 <= len < 2 ^ 32 -> len <= 8 \/ total_rx st = 0 ->
  confined_result cap buffer (copy_payload stray cap st rx pl k len).
Proof.
  intros Hcap Hmax (Ht & Hl & Hd) Hlen Hsmall. unfold copy_payload.
  rewrite wrap_small by (unfold fits; lia).
  destruct (Z.leb_spec (total_rx st + len) cap) as [Hle|Hgt].
  - rewrite Z.gtb_ltb, (proj2 (Z.ltb_ge _ _)) by lia.
    set (src := map _ _). assert (Hsrc : Z.of_nat (length src) = len)
      by (subst src; rewrite length_map, length_seq; lia).
    assert (Hc : confined cap buffer (Rx (protocol st) (masks st) (transfer_crc st)
      (total_rx st + len) (memcpy_at (total_rx st) src (transfer st)))).
    { unfold confined. cbn [total_rx transfer]. rewrite memcpy_at_length, memcpy_at_drop by lia.
      split; [lia|done]. }
    by destruct (eot rx).
  - by destruct (eot rx).
Qed.

Lemma process_frame_confined cap buffer st rx pl len :
  0 <= cap <= Z.of_nat (length buffer) -> cap + 8 < 2 ^ 32 -> confined cap buffer st -> 0 <= len <= 7 ->
  confined_result cap buffer (process_frame stray cap st rx pl len).
Proof.
  intros Hcap Hmax Hc Hlen. unfold process_frame.
  assert (H0 : exists st' k n, (if sot rx then start_of_transfer stray st rx pl len else (st, 0, len))
      = (st', k, n) /\ confined cap buffer st' /\ 0 <= n < 2 ^ 32 /\ (n <= 8 \/ total_rx st' = 0)).
  { destruct (sot rx); [|exists st, 0, len; split; [done|]; split; [done|lia]].
    unfold start_of_transfer. destruct Hc as (Ht & Hl & Hd).
    destruct (negb (eot rx)); eexists _, _, _; (split; [reflexivity|]);
      (split; [split; cbn; [lia|done]|]); (split; [|by right]); [|lia].
    apply (wrap_fits 32). lia. }
  destruct H0 as (st' & k & n & -> & Hc' & Hn & Hsm).
  destruct (_ || _); [|destruct (_ <? _); [done|]]; apply copy_payload_confined; (done || lia).
Qed.

(** Every frame has at least its tail byte and at most eight bytes. *)
Definition well_sized (e : event) : Prop :=
  match arrival e with None => True | Some f => 1 <= dlc f <= 8 end.

Lemma rx_loop_confined pdsdl timer ms cap buffer :
  0 <= cap <= Z.of_nat (length buffer) -> cap + 8 < 2 ^ 32 -> forall es st tm,
  Forall well_sized es -> confined cap buffer st ->
  match rx_loop stray pdsdl timer ms cap es st tm with
  | Returned _ _ buffer' n _ => length buffer' = length buffer /\ 0 <= n <= cap /\
      drop (Z.to_nat cap) buffer' = drop (Z.to_nat cap) buffer
  | Waiting _ => True
  | Crashed => False
  end.
Proof.
  intros Hcap Hmax es. induction es as [|e es IH]; intros st tm Hes Hc; [done|].
  apply Forall_cons in Hes as [He Hes]. cbn [rx_loop].
  assert (Hnext : forall st' tm', confined cap buffer st' ->
    match (if svc_expired timer tm'
           then Returned UavcanError (protocol st') (transfer st') cap (svc_free timer tm')
           else rx_loop stray pdsdl timer ms cap es st' tm') with
    | Returned _ _ buffer' n _ => length buffer' = length buffer /\ 0 <= n <= cap /\
        drop (Z.to_nat cap) buffer' = drop (Z.to_nat cap) buffer
    | Waiting _ => True
    | Crashed => False
    end).
  { intros st' tm' Hc'. destruct (svc_expired timer tm'); [|by apply IH].
    destruct Hc' as (_ & Hl & Hd). split; [done|]. split; [lia|done]. }
  unfold well_sized in He. destruct (arrival e) as [f|]; [|by apply Hnext].
  cbn [uavcan_rx]. destruct (accepted _ _); [|by apply Hnext].
  set (rx := Protocol _ _).
  pose proof (process_frame_confined cap buffer st rx (message f) (u32 (dlc f - 1)) Hcap Hmax Hc) as Hp.
  destruct (process_frame _ _ _ _ _ _) as [st'|st'|]; cbn [confined_result] in Hp.
  - apply Hnext, Hp. rewrite wrap_small; [lia|unfold fits; lia].
  - destruct Hp as (Ht & Hl & Hd); [rewrite wrap_small; [lia|unfold fits; lia]|done].
  - apply Hp. rewrite wrap_small; [lia|unfold fits; lia].
Qed.

(** The receive buffer: whatever the bus carries, as long as every frame has its
    tail byte (one to eight bytes), [uavcan_rx_dsdl] copies only inside the capacity the
    caller gave, returns at most that many bytes and leaves the rest of the buffer as it was. *)
Theorem uavcan_rx_memory_safe g dsdl p buffer cap ms es tm :
  0 <= cap <= Z.of_nat (length buffer) -> cap + 8 < 2 ^ 32 -> Forall well_sized es ->
  match uavcan_rx_dsdl stray g dsdl p buffer cap ms es tm with
  | Returned _ _ buffer' n _ => length buffer' = length buffer /\ 0 <= n <= cap /\
      drop (Z.to_nat cap) buffer' = drop (Z.to_nat cap) buffer
  | Waiting _ => True
  | Crashed => False
  end.
Proof.
  intros Hcap Hmax Hes. unfold uavcan_rx_dsdl.
  destruct (load_dsdl_protocol _ _ _ _ _) as [pdsdl p']. destruct (svc_allocate ms tm) as [timer tm'].
  apply rx_loop_confined; [done..|]. split; cbn; [lia|done].
Qed.

(** A frame without data breaks this: in the middle of a transfer, a frame of
    length zero with a matching identifier makes the length wrap below zero and its tail is
    read from before the buffer; if that stray byte looks like the expected tail, almost 4 GiB
    are copied over the caller's buffer and beyond. *)
Theorem uavcan_rx_empty_frame_overruns pdsdl timer ms cap ident tid tog e ev es st tm bytes :
  in_transfer ident tid tog st -> room cap st -> 0 < total_rx st < cap ->
  Z.of_nat (length (transfer st)) < 2 ^ 31 ->
  arrival ev = Some (Frame ident 0 bytes) -> (length bytes <= 8)%nat ->
  tail_is tid tog e 0 (stray (2 ^ 32 - 1)) ->
  rx_loop stray pdsdl timer ms cap (ev :: es) st tm = Crashed.
Proof.
  intros Hin (H0 & Hcap & Hmax) Ht Hlen Hev Hb Htl. cbn [rx_loop]. rewrite Hev. cbn [uavcan_rx dlc message_id message].
  change (u32 (0 - 1)) with (2 ^ 32 - 1).
  assert (byte_at stray bytes (2 ^ 32 - 1) = stray (2 ^ 32 - 1)) as ->.
  { unfold byte_at. by rewrite (proj2 (Z.ltb_ge _ _)), andb_false_r by lia. }
  rewrite (accept_middle ident tid tog e) by done.
  rewrite process_middle; [|unfold sot; cbn [tail]; by rewrite (proj2 (proj2 (proj2 Htl)))| |lia].
  - unfold copy_payload.
    assert (u32 (total_rx st + (2 ^ 32 - 1)) = total_rx st - 1) as ->.
    { unfold wrap. replace (total_rx st + (2 ^ 32 - 1)) with (total_rx st - 1 + 1 * 2 ^ 32) by lia.
      rewrite Z_mod_plus_full. apply Z.mod_small. lia. }
    rewrite (proj2 (Z.leb_le _ _)) by lia. by rewrite Z.gtb_ltb, (proj2 (Z.ltb_lt _ _)) by lia.
  - unfold transfer_id. cbn [tail]. by rewrite (proj1 Htl), (it_tid _ _ _ _ Hin).
Qed.

(** *** Timeouts *)

Definition duration (es : list event) : Z :=
  fold_right (fun e d => Z.of_nat (before e + after e) * tick_ms + d) 0 es.

Definition ignored (st : rx_state) (e : event) : Prop :=
  match arrival e with None => True | Some f => accepted st (fst (uavcan_rx stray f)) = false end.

Lemma duration_nonneg es : 0 <= duration es.
Proof. induction es as [|e es IH]; cbn [duration fold_right]; [lia|]. pose proof tick_pos. fold (duration es). nia. Qed.

(** While nothing is accepted the loop only waits for the timer. *)
Lemma rx_loop_ignored pdsdl timer ms cap st es : Forall (ignored st) es -> forall c tm,
  armed timer c tm -> 0 < c ->
  exists tm', rx_loop stray pdsdl timer ms cap es st tm =
    if c <=? duration es then Returned UavcanError (protocol st) (transfer st) cap tm' else Waiting tm'.
Proof.
  induction 1 as [|e es He _ IH]; intros c tm Harm Hc.
  { exists tm. cbn [duration fold_right]. by rewrite (proj2 (Z.leb_gt _ _)) by lia. }
  assert (Hstep : rx_loop stray pdsdl timer ms cap (e :: es) st tm =
    let tm := svc_ticks (after e) (svc_ticks (before e) tm) in
    if svc_expired timer tm
    then Returned UavcanError (protocol st) (transfer st) cap (svc_free timer tm)
    else rx_loop stray pdsdl timer ms cap es st tm).
  { unfold ignored in He. cbn [rx_loop]. destruct (arrival e) as [f|]; [|done].
    destruct (uavcan_rx stray f) as [rx len]. cbn [fst] in He. by rewrite He. }
  rewrite Hstep. cbv zeta. rewrite <- ticks_split, (Nat.add_comm (after e)).
  cbn [duration fold_right]. fold (duration es). pose proof (duration_nonneg es).
  destruct (Z.lt_ge_cases (Z.of_nat (before e + after e) * tick_ms) c) as [Hlt|Hge].
  - assert (Ha := ticks_armed _ _ _ _ Harm Hlt). rewrite (armed_running _ _ _ Ha).
    destruct (IH _ _ Ha ltac:(lia)) as (tm' & ->). exists tm'.
    destruct (Z.leb_spec (c - Z.of_nat (before e + after e) * tick_ms) (duration es)),
      (Z.leb_spec c (Z.of_nat (before e + after e) * tick_ms + duration es)); done || lia.
  - rewrite (armed_expires _ _ _ _ Harm Hge). rewrite (proj2 (Z.leb_le c _)) by lia. by eexists.
Qed.

(** Reception ends: if no frame passes the identifier filter,
    [uavcan_rx_dsdl] returns [UavcanError] as soon as the timeout has passed, not before, and
    the caller's buffer and length are as they were. *)
Theorem uavcan_rx_times_out g dsdl p buffer cap ms es tm :
  let st := rx_start g dsdl p buffer in
  available tm -> 0 < ms < 2 ^ 32 -> Forall (quiet (id (masks st)) (id (protocol st))) es ->
  exists tm', uavcan_rx_dsdl stray g dsdl p buffer cap ms es tm =
    if ms <=? duration es then Returned UavcanError (protocol st) buffer cap tm' else Waiting tm'.
Proof.
  intros st Hav Hms Hq. unfold uavcan_rx_dsdl.
  rewrite (surjective_pairing (load_dsdl_protocol g dsdl true _ _)).
  rewrite (surjective_pairing (svc_allocate ms tm)).
  apply (rx_loop_ignored _ _ ms cap st es) with (c := ms); [|by apply allocate_armed|lia].
  eapply Forall_impl; [exact Hq|]. intros e He. unfold quiet, ignored in *.
  destruct (arrival e) as [f|]; [|done]. cbn [uavcan_rx fst]. unfold accepted. cbn [id].
  rewrite He. by rewrite andb_false_r.
Qed.

(** *** A transfer that is too long *)

(** A receiver that expects a start of transfer with the toggle set hears nothing. *)
Lemma stalled st rx : tail (masks st) = Z.lor (BITFEILD_MASK UavCanToggle) (BITFEILD_MASK UavCanStartOfTransfer) ->
  BITFEILD_GET UavCanToggle (tail (protocol st)) = 1 ->
  BITFEILD_GET UavCanStartOfTransfer (tail (protocol st)) = 1 -> accepted st rx = false.
Proof.
  intros Hm Hg Hs. unfold accepted. rewrite bad_tail, Hm, agree_lor, !agree_field, Hg, Hs by wf_field.
  destruct (BITFEILD_GET UavCanStartOfTransfer (tail rx) =? 1), (BITFEILD_GET UavCanToggle (tail rx) =? 1);
    cbn [andb negb]; by rewrite ?andb_false_r.
Qed.

Lemma process_overrun cap st ident tid tog tl c : in_transfer ident tid tog st -> room cap st ->
  total_rx st = cap -> (0 < length c <= 7)%nat -> cap + 8 < 2 ^ 32 -> tail_is tid tog 0 0 tl ->
  exists st', process_frame stray cap st (Protocol ident tl) (c ++ [tl]) (Z.of_nat (length c)) = Continue st' /\
    transfer st' = transfer st /\ forall rx, accepted st' rx = false.
Proof.
  intros Hin (H0 & Hcap & Hmax) Ht Hc H8 (T1 & T2 & T3 & T4).
  unfold process_frame, sot. cbn [tail]. rewrite T4. cbn [negb Z.eqb].
  rewrite (Z.geb_leb (total_rx st)), (proj2 (Z.leb_le cap (total_rx st))), orb_true_r by lia.
  unfold copy_payload. cbn [total_rx transfer]. rewrite wrap_small by (unfold fits; lia).
  rewrite (proj2 (Z.leb_gt _ _)) by lia. unfold eot. cbn [tail]. rewrite T3. cbn [negb Z.eqb].
  eexists. split; [done|]. split; [done|]. intros rx. apply stalled; cbn [masks protocol uavcan_init_comapare_masks tail set_tail].
  - done.
  - fields. unfold toggle. cbn [set_tail tail]. by fields.
  - by fields.
Qed.

(** After an overlong transfer the receiver is deaf: when the buffer is exactly
    full and one more frame of the transfer comes that is not its last, the code means to wait
    for a new start of transfer but leaves the expected toggle at one; such a tail byte is
    always refused, so nothing is accepted any more, a complete new transfer included, until
    the timeout ends the reception with an error. *)
Theorem uavcan_rx_overrun_stalls pdsdl timer ms cap ident tid tog tl d c ev es st tm :
  in_transfer ident tid tog st -> room cap st -> total_rx st = cap -> cap + 8 < 2 ^ 32 ->
  (0 < length d <= 7)%nat -> tail_is tid tog 0 0 tl ->
  arrival ev = Some (Frame ident (Z.of_nat (length d) + 1) (d ++ [tl])) ->
  armed timer c tm -> 0 < ms < 2 ^ 32 ->
  Z.of_nat (before ev) * tick_ms < c -> Z.of_nat (after ev) * tick_ms < ms ->
  exists p' tm', rx_loop stray pdsdl timer ms cap (ev :: es) st tm =
    if ms <=? Z.of_nat (after ev) * tick_ms + duration es
    then Returned UavcanError p' (transfer st) cap tm' else Waiting tm'.
Proof.
  intros Hin Hroom Ht H8 Hd Htl Hev Harm Hms Hb Ha.
  destruct (process_overrun cap st ident tid tog tl d Hin Hroom Ht Hd H8 Htl) as (st' & Hp & Htr & Hdeaf).
  pose proof (uavcan_rx_frame ident d tl ltac:(lia)) as Hrx.
  destruct (rx_loop_frame pdsdl timer ms cap ev es st st' tm _ c Hev Harm Hms Hb Ha) as (tm1 & Ha1 & ->);
    [rewrite Hrx; by eapply accept_middle|by rewrite Hrx|].
  assert (Hig : Forall (ignored st') es).
  { apply Forall_forall. intros e _. unfold ignored. by destruct (arrival e). }
  destruct (rx_loop_ignored pdsdl timer ms cap st' es Hig _ _ Ha1 ltac:(lia)) as (tm' & ->).
  exists (protocol st'), tm'. rewrite Htr.
  destruct (Z.leb_spec (ms - Z.of_nat (after ev) * tick_ms) (duration es)),
    (Z.leb_spec ms (Z.of_nat (after ev) * tick_ms + duration es)); done || lia.
Qed.

End Receive.

(** ** Witnesses: node 5 answers node 9's read request; a ten-millisecond tick *)

Definition demo_service : TimerService BlTimer.sched := BlTimerService.bl_timers 2 10 BlTimer.demo_client.

Definition demo_laws : TimerLaws BlTimer.sched demo_service :=
  BlTimerService.bl_timers_laws 2 10 BlTimer.demo_client ltac:(done) ltac:(lia)
    (fun _ _ _ _ => eq_refl).

#[local] Existing Instance demo_service.
#[local] Existing Instance demo_laws.

Definition demo_timers : BlTimer.sched := BlTimer.Sched 0 [BlTimer.zero_timer; BlTimer.zero_timer] [].
Definition demo_ga : node := Node 16 5 0.
Definition demo_gb : node := Node 16 9 5.
Definition demo_pa : uavcan_protocol_t := Protocol 9 3.
Definition demo_pb : uavcan_protocol_t := Protocol 5 0.
Definition demo_data : list Z := map Z.of_nat (seq 100 20).
Definition demo_buffer : list Z := replicate 32 0.
Definition demo_stray : Z -> Z := fun _ => 0x23.

Definition demo_frames : list can_frame := Eval vm_compute in
  sent (snd (uavcan_tx_dsdl (fun _ => true) demo_ga DSDLRspRead demo_pa demo_data (Bus [] []))).

Lemma demo_sent :
  sent (snd (uavcan_tx_dsdl (fun _ => true) demo_ga DSDLRspRead demo_pa demo_data (Bus [] []))) = demo_frames.
Proof. vm_compute. reflexivity. Qed.

(** A status message of another node in between. *)
Definition demo_noise : can_frame := Frame 0x10015507 8 [0; 0; 0; 0; 0; 0; 0; 0xc0].

Definition demo_events : list event :=
  Event 2 None 1 :: Event 0 (Some demo_noise) 1 :: map (fun f => Event 1 (Some f) 2) demo_frames.

Lemma demo_available : available demo_timers.
Proof. split; [done|]. by exists 0%nat, BlTimer.zero_timer. Qed.

Lemma demo_delivery : let st := rx_start demo_gb DSDLRspRead demo_pb demo_buffer in
  delivery (id (masks st)) (id (protocol st)) 100 100 demo_frames demo_events.
Proof.
  cbv zeta. apply delivery_quiet; [done|done|]. apply delivery_quiet; [vm_compute; done|done|].
  apply delivery_frame; [reflexivity|done|done|]. apply delivery_frame; [reflexivity|done|done|].
  apply delivery_frame; [reflexivity|done|done|]. apply delivery_end; [reflexivity|done].
Qed.

Lemma uavcan_tx_rx_roundtrip_witness :
  delivered 32 demo_buffer 5 3 demo_data
    (uavcan_rx_dsdl demo_stray demo_gb DSDLRspRead demo_pb demo_buffer 32 100 demo_events demo_timers).
Proof.
  pose proof (uavcan_tx_rx_roundtrip demo_stray (fun _ => true) demo_ga demo_gb DSDLRspRead demo_pa demo_pb
    demo_data (Bus [] []) demo_buffer 32 100 demo_timers ltac:(done)
    ltac:(cbn; tauto) ltac:(split; [fits_const|split; [fits_const|intros _; split; [reflexivity|by right]]])
    ltac:(done) ltac:(cbn; lia) ltac:(done) ltac:(done) demo_available) as H.
  rewrite (surjective_pairing (uavcan_tx_dsdl _ _ _ _ _ _)),
    (surjective_pairing (fst (uavcan_tx_dsdl _ _ _ _ _ _))) in H.
  destruct H as [_ (fs & Hfs & H)]. apply H. rewrite demo_sent in Hfs. change (demo_frames = fs) in Hfs. rewrite <- Hfs.
  exact demo_delivery.
Defined.

Lemma uavcan_rx_memory_safe_witness :
  match uavcan_rx_dsdl demo_stray demo_gb DSDLRspRead demo_pb demo_buffer 12 100 demo_events demo_timers with
  | Returned _ _ buffer' n _ => length buffer' = length demo_buffer /\ 0 <= n <= 12 /\
      drop (Z.to_nat 12) buffer' = drop (Z.to_nat 12) demo_buffer
  | Waiting _ => True
  | Crashed => False
  end.
Proof.
  apply (uavcan_rx_memory_safe demo_stray demo_gb DSDLRspRead demo_pb demo_buffer 12 100 demo_events demo_timers);
    [cbn; lia|done|].
  repeat (apply List.Forall_cons; [vm_compute; split; congruence || exact I|]). apply List.Forall_nil.
Defined.

(** The receiver after the first frame, with five bytes received. *)
Definition demo_ident : Z := Eval vm_compute in message_id (nth 0 demo_frames (Frame 0 0 [])).

Definition demo_mid : rx_state := Eval vm_compute in
  advance (begun (rx_start demo_gb DSDLRspRead demo_pb demo_buffer) demo_ident 3 0) [1; 2; 3; 4; 5].

Lemma demo_mid_in_transfer : in_transfer demo_ident 3 1 demo_mid.
Proof. split; vm_compute; reflexivity. Qed.

Lemma uavcan_rx_empty_frame_overruns_witness :
  rx_loop demo_stray (dsdl_at DSDLRspRead) 1 100 32 [Event 0 (Some (Frame demo_ident 0 [])) 0] demo_mid
    demo_timers = Crashed.
Proof.
  apply (uavcan_rx_empty_frame_overruns demo_stray (dsdl_at DSDLRspRead) 1 100 32 demo_ident 3 1 0
    (Event 0 (Some (Frame demo_ident 0 [])) 0) [] demo_mid demo_timers []);
    [exact demo_mid_in_transfer|done|done|done|done|cbn; lia|vm_compute; done].
Defined.

Lemma uavcan_rx_times_out_witness :
  exists tm', uavcan_rx_dsdl demo_stray demo_gb DSDLRspRead demo_pb demo_buffer 32 100
      [Event 2 (Some demo_noise) 3; Event 4 None 1] demo_timers =
    Returned UavcanError (protocol (rx_start demo_gb DSDLRspRead demo_pb demo_buffer)) demo_buffer 32 tm'.
Proof.
  apply (uavcan_rx_times_out demo_stray demo_gb DSDLRspRead demo_pb demo_buffer 32 100
    [Event 2 (Some demo_noise) 3; Event 4 None 1] demo_timers demo_available ltac:(done)).
  apply List.Forall_cons; [vm_compute; done|]. apply List.Forall_cons; [exact I|apply List.Forall_nil].
Defined.

Definition demo_armed : BlTimer.sched := snd (svc_allocate 100 demo_timers).

Lemma uavcan_rx_overrun_stalls_witness :
  exists p' tm', rx_loop demo_stray (dsdl_at DSDLRspRead) 1 100 5
      (Event 1 (Some (Frame demo_ident 8 [1; 2; 3; 4; 5; 6; 7; 0x23])) 2 ::
       demo_events ++ [Event 5 None 4]) demo_mid demo_armed =
    Returned UavcanError p' (transfer demo_mid) 5 tm'.
Proof.
  assert (Ha : armed 1 100 demo_armed) by exact (allocate_armed 100 demo_timers demo_available ltac:(done)).
  exact (uavcan_rx_overrun_stalls demo_stray (dsdl_at DSDLRspRead) 1 100 5 demo_ident 3 1 0x23
    [1; 2; 3; 4; 5; 6; 7] 100 (Event 1 (Some (Frame demo_ident 8 [1; 2; 3; 4; 5; 6; 7; 0x23])) 2)
    (demo_events ++ [Event 5 None 4]) demo_mid demo_armed demo_mid_in_transfer
    ltac:(done) ltac:(done) ltac:(done) ltac:(cbn; lia) ltac:(vm_compute; done) ltac:(reflexivity)
    Ha ltac:(done) ltac:(done) ltac:(done)).
Defined.

End UavcanSpec.
