(* ===== verification/AppShared.v ===== *)
(** * The data shared between bootloader and application

    src/src/drivers/bootloaders/boot_app_shared.c: node id and bus speed are handed over
    a reset in five registers (of the CAN filters), guarded by a role signature and a
    CRC-64. *)

From S2P Require Import Prelude Crc.

Local Open Scope Z_scope.

Module AppShared.

Definition BOOTLOADER_COMMON_APP_SIGNATURE : Z := 0xB0A04150.
Definition BOOTLOADER_COMMON_BOOTLOADER_SIGNATURE : Z := 0xB0A0424C.
Definition CRC64_INITIAL : Z := 0xFFFFFFFFFFFFFFFF.
Definition CRC64_OUTPUT_XOR : Z := 0xFFFFFFFFFFFFFFFF.
Definition OK : Z := 0.
Definition EBADR : Z := 53.

Inductive eRole_t := Invalid | App | BootLoader.

Record bootloader_app_shared_t := Shared {
  crc : Z;                            (* the 64-bit view of the union *)
  signature : Z;
  bus_speed : Z;
  node_id : Z;
}.

(** The registers: signature, bus speed, node id and the two halves of the CRC. *)
Record regs := Regs {
  signature_LOC : Z;
  bus_speed_LOC : Z;
  node_id_LOC : Z;
  crc_LoLOC : Z;
  crc_HiLOC : Z;
}.

Definition read (r : regs) : bootloader_app_shared_t :=
  Shared (Z.lor (Z.shiftl (crc_HiLOC r) 32) (crc_LoLOC r))
         (signature_LOC r) (bus_speed_LOC r) (node_id_LOC r).

Definition write (s : bootloader_app_shared_t) : regs :=
  Regs (signature s) (bus_speed s) (node_id s) (u32 (crc s)) (u32 (Z.shiftr (crc s) 32)).

Definition calulate_signature (s : bootloader_app_shared_t) : Z :=
  let c := Crc.crc64_add_word CRC64_INITIAL (signature s) in
  let c := Crc.crc64_add_word c (bus_speed s) in
  let c := Crc.crc64_add_word c (node_id s) in
  Z.lxor c CRC64_OUTPUT_XOR.

Definition role_signature (role : eRole_t) : Z :=
  match role with App => BOOTLOADER_COMMON_APP_SIGNATURE | _ => BOOTLOADER_COMMON_BOOTLOADER_SIGNATURE end.

Definition bootloader_app_shared_init (role : eRole_t) : bootloader_app_shared_t :=
  match role with
  | Invalid => Shared 0 0 0 0
  | _ => Shared 0 (role_signature role) 0 0
  end.

(** The status and what [*shared] holds afterwards. *)
Definition bootloader_app_shared_read (shared : bootloader_app_shared_t) (role : eRole_t) (r : regs)
    : Z * bootloader_app_shared_t :=
  let working := read r in
  if (signature working =? role_signature role) && (crc working =? calulate_signature working)
  then (OK, working) else (- EBADR, shared).

Definition bootloader_app_shared_write (shared : bootloader_app_shared_t) (role : eRole_t) : regs :=
  let working := Shared (crc shared) (role_signature role) (bus_speed shared) (node_id shared) in
  write (Shared (calulate_signature working) (signature working) (bus_speed working) (node_id working)).

Definition bootloader_app_shared_invalidate : regs := write (bootloader_app_shared_init Invalid).

(** ** CRC-64 as an injective shift register *)

Arguments Crc.crc64_poly : simpl never.

Lemma msb_test x : has_any x (Z.shiftl 1 63) = Z.testbit x 63.
Proof.
  unfold has_any. rewrite Z.shiftl_1_l. destruct (Z.testbit x 63) eqn:Hb.
  - apply negb_true_iff, Z.eqb_neq. intros H. apply (f_equal (fun z => Z.testbit z 63)) in H.
    by rewrite Z.land_spec, Hb, Z.pow2_bits_true in H by lia.
  - apply negb_false_iff, Z.eqb_eq, Z.bits_inj'. intros i Hi.
    rewrite Z.land_spec, Z.pow2_bits_eqb, Z.bits_0 by lia.
    destruct (Z.eqb_spec 63 i) as [<-|]; [by rewrite Hb|by rewrite andb_false_r].
Qed.

Lemma crc64_round_alt x :
  Crc.crc64_round x = Z.lxor (u64 (Z.shiftl x 1)) (if Z.testbit x 63 then Crc.crc64_poly else 0).
Proof.
  unfold Crc.crc64_round. rewrite msb_test. destruct (Z.testbit x 63); [done|by rewrite Z.lxor_0_r].
Qed.

Lemma crc64_round_fits x : fits 64 (Crc.crc64_round x).
Proof.
  rewrite crc64_round_alt. apply fits_lxor; [lia|apply wrap_fits; lia|].
  destruct (Z.testbit x 63); fits_const.
Qed.

Lemma crc64_round_inj x y : fits 64 x -> fits 64 y ->
  Crc.crc64_round x = Crc.crc64_round y -> x = y.
Proof.
  intros Hx Hy. rewrite !crc64_round_alt. intros H.
  assert (Hb : Z.testbit x 63 = Z.testbit y 63).
  { apply (f_equal (fun z => Z.testbit z 0)) in H.
    rewrite !Z.lxor_spec, !wrap_testbit, !Z.shiftl_spec in H by lia.
    rewrite (Z.testbit_neg_r x), (Z.testbit_neg_r y) in H by lia.
    by destruct (Z.testbit x 63), (Z.testbit y 63). }
  rewrite Hb in H. apply Crc.lxor_cancel_r in H. apply Z.bits_inj'. intros i Hi.
  destruct (Z.lt_ge_cases i 63).
  - apply (f_equal (fun z => Z.testbit z (i + 1))) in H.
    rewrite !wrap_testbit, !Z.shiftl_spec, Z.add_simpl_r in H by lia.
    by rewrite (proj2 (Z.ltb_lt _ _)), !andb_true_r in H by lia.
  - destruct (decide (i = 63)) as [->|]; [done|]. by rewrite !(fits_testbit 64) by (done || lia).
Qed.

(** What is below the top bit moves through the round untouched. *)
Lemma crc64_round_low l h : fits 63 h ->
  Crc.crc64_round (Z.lxor l h) = Z.lxor (Crc.crc64_round l) (Z.shiftl h 1).
Proof.
  intros Hh. rewrite !crc64_round_alt, Z.lxor_spec, (fits_testbit 63 ltac:(lia) h Hh 63), xorb_false_r by lia.
  rewrite Z.lxor_assoc, (Z.lxor_comm _ (Z.shiftl h 1)), <- Z.lxor_assoc. f_equal.
  apply Z.bits_inj'. intros i Hi. rewrite Z.lxor_spec, !wrap_testbit, !Z.shiftl_spec, Z.lxor_spec by lia.
  destruct (Z.ltb_spec i 64); [by rewrite !andb_true_r|]. rewrite !andb_false_r.
  by rewrite (fits_testbit 63 ltac:(lia) h Hh) by lia.
Qed.

Lemma fits_shiftl w n h : 0 <= w -> 0 <= n -> fits w h -> fits (w + n) (Z.shiftl h n).
Proof.
  unfold fits. intros Hw Hn Hh. rewrite Z.shiftl_mul_pow2, Z.pow_add_r by lia.
  pose proof (Z.pow_pos_nonneg 2 n). nia.
Qed.

Lemma crc64_rounds_low k l h : Z.of_nat k <= 63 -> fits (64 - Z.of_nat k) h ->
  Nat.iter k Crc.crc64_round (Z.lxor l h) = Z.lxor (Nat.iter k Crc.crc64_round l) (Z.shiftl h (Z.of_nat k)).
Proof.
  induction k as [|k IH]; intros Hk Hh; [by rewrite Z.shiftl_0_r|].
  cbn [Nat.iter]. rewrite !Nat.iter_succ. rewrite IH; [|lia|apply (fits_weaken (64 - Z.of_nat (S k))); [lia|done]].
  rewrite crc64_round_low; [|].
  - rewrite Z.shiftl_shiftl by lia. do 2 f_equal. lia.
  - replace 63 with (64 - Z.of_nat (S k) + Z.of_nat k) by lia. apply fits_shiftl; [lia|lia|done].
Qed.

Lemma crc64_rounds_fits k x : fits 64 x -> fits 64 (Nat.iter k Crc.crc64_round x).
Proof. intros Hx. destruct k; [done|]. apply crc64_round_fits. Qed.

Lemma crc64_rounds_inj k x y : fits 64 x -> fits 64 y ->
  Nat.iter k Crc.crc64_round x = Nat.iter k Crc.crc64_round y -> x = y.
Proof.
  intros Hx Hy. induction k as [|k IH]; [done|]. cbn [Nat.iter]. intros H.
  apply IH. apply crc64_round_inj; [by apply crc64_rounds_fits..|exact H].
Qed.

(** Up to eight bytes as they enter the register from the top. *)
Fixpoint from_top (k : Z) (bs : list Z) : Z :=
  match bs with [] => 0 | b :: bs => Z.lxor (Z.shiftl b k) (from_top (k - 8) bs) end.

Lemma from_top_fits bs : forall k, Forall is_byte bs -> 8 * Z.of_nat (length bs) <= k + 8 ->
  fits (k + 8) (from_top k bs).
Proof.
  induction bs as [|b bs IH]; intros k Hbs Hk.
  - cbn. unfold fits. split; [lia|]. apply Z.pow_pos_nonneg; cbn in Hk; lia.
  - apply Forall_cons in Hbs as [Hb Hbs]. cbn [length] in Hk. cbn [from_top]. apply fits_lxor; [lia| |].
    + rewrite (Z.add_comm k). apply fits_shiftl; [lia|lia|exact Hb].
    + apply (fits_weaken (k - 8 + 8)); [lia|]. apply IH; [done|lia].
Qed.

Lemma from_top_shift bs : forall k, 8 * Z.of_nat (length bs) <= k + 8 ->
  Z.shiftl (from_top k bs) 8 = from_top (k + 8) bs.
Proof.
  induction bs as [|b bs IH]; intros k Hk; [done|]. cbn [length from_top] in *.
  rewrite Z.shiftl_lxor, Z.shiftl_shiftl, IH by lia. do 3 f_equal. lia.
Qed.

Lemma from_top_inj bs : forall k cs, length bs = length cs -> Forall is_byte bs -> Forall is_byte cs ->
  8 * Z.of_nat (length bs) <= k + 8 -> from_top k bs = from_top k cs -> bs = cs.
Proof.
  induction bs as [|b bs IH]; intros k [|c cs] Hl Hbs Hcs Hk H; try done.
  apply Forall_cons in Hbs as [Hb Hbs]. apply Forall_cons in Hcs as [Hc Hcs].
  cbn [length from_top] in *.
  assert (Hhi : forall x r, fits k r -> Z.shiftr (Z.lxor (Z.shiftl x k) r) k = x).
  { intros x r Hr. rewrite Z.shiftr_lxor, Z.shiftr_shiftl_l, Z.sub_diag, Z.shiftl_0_r by lia.
    unfold fits in Hr. rewrite (Z.shiftr_div_pow2 r), Z.div_small by lia. apply Z.lxor_0_r. }
  assert (Hr : fits k (from_top (k - 8) bs)).
  { replace k with (k - 8 + 8) at 1 by lia. apply from_top_fits; [done|lia]. }
  assert (Hr' : fits k (from_top (k - 8) cs)).
  { replace k with (k - 8 + 8) at 1 by lia. apply from_top_fits; [done|lia]. }
  assert (b = c) as <- by (rewrite <- (Hhi b _ Hr), H; by apply Hhi).
  f_equal. apply (IH (k - 8)); [lia|done..|lia|]. by apply Crc.lxor_cancel_l in H.
Qed.

Lemma crc64_bytes bs : forall x, (length bs <= 8)%nat -> Forall is_byte bs ->
  fold_left Crc.crc64_add_byte bs x = Nat.iter (8 * length bs) Crc.crc64_round (Z.lxor x (from_top 56 bs)).
Proof.
  induction bs as [|b bs IH]; intros x Hl Hbs; [by rewrite Z.lxor_0_r|].
  apply Forall_cons in Hbs as [Hb Hbs]. cbn [length] in Hl. cbn [fold_left]. rewrite IH by (done || lia).
  unfold Crc.crc64_add_byte at 1.
  assert (u64 (Z.shiftl b 56) = Z.shiftl b 56) as ->.
  { apply wrap_small. apply (fits_shiftl 8 56); [lia|lia|exact Hb]. }
  replace (8 * length (b :: bs))%nat with (8 * length bs + 8)%nat by (cbn; lia).
  rewrite Nat.iter_add. f_equal.
  cbn [from_top]. rewrite <- Z.lxor_assoc.
  rewrite (crc64_rounds_low 8 (Z.lxor x (Z.shiftl b 56)) (from_top (56 - 8) bs)); [|lia|].
  - f_equal. symmetry. apply from_top_shift. lia.
  - apply (from_top_fits bs 48); [done|lia].
Qed.

Lemma crc64_word_fits x w : fits 64 (Crc.crc64_add_word x w).
Proof. unfold Crc.crc64_add_word. cbn [le_bytes fold_left]. apply crc64_round_fits. Qed.

(** The register tells two starting values apart, and two words. *)
Lemma crc64_word_inj_l x y w : fits 64 x -> fits 64 y ->
  Crc.crc64_add_word x w = Crc.crc64_add_word y w -> x = y.
Proof.
  intros Hx Hy. unfold Crc.crc64_add_word.
  rewrite !crc64_bytes by (rewrite ?le_bytes_length; (lia || apply le_bytes_byte)). intros H.
  assert (Ht : fits 64 (from_top 56 (le_bytes 4 w))).
  { apply (from_top_fits _ 56); [apply le_bytes_byte|rewrite le_bytes_length; lia]. }
  apply crc64_rounds_inj in H; [|apply fits_lxor; (done || lia)..]. by apply Crc.lxor_cancel_r in H.
Qed.

Lemma crc64_word_inj_r x v w : fits 64 x -> fits 32 v -> fits 32 w ->
  Crc.crc64_add_word x v = Crc.crc64_add_word x w -> v = w.
Proof.
  intros Hx Hv Hw. unfold Crc.crc64_add_word.
  rewrite !crc64_bytes by (rewrite ?le_bytes_length; (lia || apply le_bytes_byte)). intros H.
  assert (Ht : forall u, fits 64 (from_top 56 (le_bytes 4 u))).
  { intros u. apply (from_top_fits _ 56); [apply le_bytes_byte|rewrite le_bytes_length; lia]. }
  rewrite !le_bytes_length in H.
  apply crc64_rounds_inj in H; [|apply fits_lxor; (done || lia)..]. apply Crc.lxor_cancel_l in H.
  apply from_top_inj in H; [|done|apply le_bytes_byte..|rewrite le_bytes_length; lia].
  rewrite <- (le_value_bytes 4 v Hv), <- (le_value_bytes 4 w Hw). by rewrite H.
Qed.

(** ** What the hand-over promises *)

#[local] Opaque Crc.crc64_add_word.

Lemma signature_fits s : fits 64 (calulate_signature s).
Proof. apply fits_lxor; [lia|apply crc64_word_fits|fits_const]. Qed.

(** The CRC does not cover itself. *)
Lemma signature_crc c c' sg b n : calulate_signature (Shared c sg b n) = calulate_signature (Shared c' sg b n).
Proof. unfold calulate_signature. cbn [signature bus_speed node_id]. reflexivity. Qed.

Lemma read_write s : fits 64 (crc s) -> read (write s) = s.
Proof. intros Hc. destruct s. unfold read, write. cbn in *. by rewrite u64_halves. Qed.

Definition well_formed (s : bootloader_app_shared_t) : Prop :=
  fits 32 (bus_speed s) /\ fits 32 (node_id s).

(** What one side writes under its role the other reads back under that
    role, with status OK; under the other role, and after an invalidation, reading fails
    with -EBADR and leaves the caller's structure alone. *)
Theorem app_shared_roundtrip s d role other :
  (role = App /\ other = BootLoader) \/ (role = BootLoader /\ other = App) ->
  let r := bootloader_app_shared_write s role in
  (exists s', bootloader_app_shared_read d role r = (OK, s') /\
     bus_speed s' = bus_speed s /\ node_id s' = node_id s) /\
  bootloader_app_shared_read d other r = (- EBADR, d) /\
  bootloader_app_shared_read d role bootloader_app_shared_invalidate = (- EBADR, d).
Proof.
  intros Hrole r. unfold bootloader_app_shared_read.
  set (c := calulate_signature (Shared (crc s) (role_signature role) (bus_speed s) (node_id s))).
  assert (Hr : read r = Shared c (role_signature role) (bus_speed s) (node_id s)).
  { apply read_write, signature_fits. }
  rewrite !Hr. cbn [signature crc]. rewrite (signature_crc c (crc s)). fold c. rewrite !Z.eqb_refl.
  cbn [andb]. split; [|split].
  - by eexists.
  - by destruct Hrole as [[-> ->]|[-> ->]].
  - by destruct Hrole as [[-> ->]|[-> ->]].
Qed.

(** Corruption is noticed: if one of the three data words (signature, bus
    speed, node id) comes back changed over the reset, in whatever bits, the data is refused. *)
Theorem app_shared_detects_corruption s d role r' :
  well_formed s -> let r := bootloader_app_shared_write s role in
  fits 32 (signature_LOC r') -> fits 32 (bus_speed_LOC r') -> fits 32 (node_id_LOC r') ->
  crc_LoLOC r' = crc_LoLOC r -> crc_HiLOC r' = crc_HiLOC r ->
  (signature_LOC r' <> signature_LOC r /\ bus_speed_LOC r' = bus_speed_LOC r /\ node_id_LOC r' = node_id_LOC r \/
   signature_LOC r' = signature_LOC r /\ bus_speed_LOC r' <> bus_speed_LOC r /\ node_id_LOC r' = node_id_LOC r \/
   signature_LOC r' = signature_LOC r /\ bus_speed_LOC r' = bus_speed_LOC r /\ node_id_LOC r' <> node_id_LOC r) ->
  bootloader_app_shared_read d role r' = (- EBADR, d).
Proof.
  intros [Hb Hn] r Hs' Hb' Hn' Hlo Hhi Hdiff. unfold bootloader_app_shared_read.
  assert ((crc (read r') =? calulate_signature (read r')) = false) as ->; [|by rewrite andb_false_r].
  apply Z.eqb_neq. intros Heq. cbn [read crc] in Heq. rewrite Hlo, Hhi in Heq.
  change (Z.lor (Z.shiftl (crc_HiLOC r) 32) (crc_LoLOC r)) with (crc (read r)) in Heq.
  unfold r, bootloader_app_shared_write in Heq. rewrite read_write in Heq by apply signature_fits.
  cbn [crc] in Heq. unfold calulate_signature in Heq. cbn [signature bus_speed node_id read] in Heq.
  apply Crc.lxor_cancel_r in Heq. cbn [r bootloader_app_shared_write write signature_LOC bus_speed_LOC
    node_id_LOC signature bus_speed node_id] in Hdiff.
  destruct Hdiff as [(H1 & H2 & H3)|[(H1 & H2 & H3)|(H1 & H2 & H3)]].
  - rewrite H2, H3 in Heq. do 2 (apply crc64_word_inj_l in Heq; [|apply crc64_word_fits..]).
    apply H1. symmetry. apply crc64_word_inj_r in Heq; [done|fits_const| |done].
    destruct role; fits_const.
  - rewrite H1, H3 in Heq. apply crc64_word_inj_l in Heq; [|apply crc64_word_fits..].
    apply H2. symmetry. apply crc64_word_inj_r in Heq; [done|apply crc64_word_fits|done|done].
  - rewrite H1, H2 in Heq. apply H3. symmetry.
    apply crc64_word_inj_r in Heq; [done|apply crc64_word_fits|done|done].
Qed.

#[local] Transparent Crc.crc64_add_word.

Lemma app_shared_roundtrip_witness :
  let r := bootloader_app_shared_write (Shared 0 0 1000000 42) App in
  (exists s', bootloader_app_shared_read (Shared 0 0 0 0) App r = (OK, s') /\
     bus_speed s' = 1000000 /\ node_id s' = 42) /\
  bootloader_app_shared_read (Shared 0 0 0 0) BootLoader r = (- EBADR, Shared 0 0 0 0) /\
  bootloader_app_shared_read (Shared 0 0 0 0) App bootloader_app_shared_invalidate = (- EBADR, Shared 0 0 0 0).
Proof.
  apply (app_shared_roundtrip (Shared 0 0 1000000 42) (Shared 0 0 0 0) App BootLoader). by left.
Defined.

Definition demo_regs : regs := bootloader_app_shared_write (Shared 0 0 1000000 42) App.

Lemma app_shared_detects_corruption_witness :
  bootloader_app_shared_read (Shared 0 0 0 0) App
    (Regs (signature_LOC demo_regs) (bus_speed_LOC demo_regs) 43 (crc_LoLOC demo_regs) (crc_HiLOC demo_regs))
  = (- EBADR, Shared 0 0 0 0).
Proof.
  apply (app_shared_detects_corruption (Shared 0 0 1000000 42) (Shared 0 0 0 0) App);
    [split; fits_const|fits_const|fits_const|fits_const|done|done|].
  right. right. by split.
Defined.

End AppShared.
