(* ===== verification/CanUpdate.v ===== *)
(** * The firmware update of the CAN bootloader

    src/platforms/nuttx/src/canbootloader/uavcan/main.c from the request to update the
    firmware to the start of the application, with fs/flash.c below it.  The file server
    is the environment: a list of exchanges, each with the result of sending the request
    and of receiving the response (file Uavcan says what those mean on the bus); when the
    list is used up the server is silent.  The flash is the program-memory driver. *)

From S2P Require Import Prelude Crc ProgMem Uavcan.

Local Open Scope Z_scope.

Module CanUpdate.
Import Uavcan(UavcanOk, UavcanError).

Definition FLASH_OK : Z := 0.
Definition FLASH_ERROR : Z := 1.
Definition FLASH_ERASE_ERROR : Z := 2.
Definition FLASH_ERROR_SUICIDE : Z := 4.
Definition FLASH_ERROR_AFU : Z := 5.

Definition UavcanServiceRetries : nat := 3.
Definition FILE_ERROR_OK : Z := 0.
Definition ENTRY_TYPE_FLAG_FILE : Z := 1.
Definition ENTRY_TYPE_FLAG_READABLE : Z := 8.
Definition sizeof_Read_data : Z := 256.
Definition sizeof_Read_error : Z := 2.
Definition sizeof_app_descriptor : Z := 36.

(** The log stages and board indications the update uses. *)
Inductive stage := STAGE_INIT | STAGE_GET_INFO | STAGE_ERASE | STAGE_PROGRAM | STAGE_VALIDATE | STAGE_FINALIZE.
Inductive log_result := RESULT_START | RESULT_FAIL | RESULT_OK.
Inductive indication := fw_update_start | fw_update_erase_fail | fw_update_invalid_response
  | fw_update_timeout | fw_update_invalid_crc.
Inductive effect := Log (st : stage) (r : log_result) | Indicate (i : indication)
  | ReadRequest (offset transfer_id : Z).

(** One request and its response: the result of [uavcan_tx_dsdl], the result of
    [uavcan_rx_dsdl] and the bytes received. *)
Record exchange := Exchange { tx_status : Z; rx_status : Z; rx_bytes : list Z }.

Definition silent : exchange := Exchange UavcanOk UavcanError [].

Definition next (xs : list exchange) : exchange * list exchange :=
  match xs with [] => (silent, []) | x :: xs => (x, xs) end.

(** Receiving into a structure overwrites its first bytes. *)
Definition receive (bytes buf : list Z) : list Z := bytes ++ drop (length bytes) buf.

(** How a run of the code ends: with a result; in the division by [a_percent] while that is
    zero, which C leaves undefined, so that nothing is known of what follows; or, in the
    model only, with too little fuel. *)
Inductive run (A : Type) := Ends (a : A) | DividesByZero | OutOfFuel.
Arguments Ends {A} a.
Arguments DividesByZero {A}.
Arguments OutOfFuel {A}.

Section Update.
Context {M : Type} {PM : ProgMem M}.
Variable APPLICATION_LOAD_ADDRESS : Z.
Variable APPLICATION_SIZE : Z.
Variable OPT_APPLICATION_IMAGE_LENGTH : Z.
Variable LATER_FLAHSED_WORDS : nat.

Definition APPLICATION_LAST_8BIT_ADDRRESS : Z := APPLICATION_LOAD_ADDRESS + APPLICATION_SIZE - 1.
Definition APPLICATION_LAST_64BIT_ADDRRESS : Z := APPLICATION_LOAD_ADDRESS + APPLICATION_SIZE - 8.

(** ** fs/flash.c *)

Fixpoint erase_pages (n : nat) (page : Z) (m : M) : Z * M :=
  match n with
  | O => (FLASH_OK, m)
  | S n =>
      let '(ps, m) := up_progmem_eraseblock page m in
      if ps <=? 0 then (FLASH_ERASE_ERROR, m) else erase_pages n (page + 1) m
  end.

Definition bl_flash_erase (address nbytes : Z) (m : M) : Z * M :=
  let bllastpage := up_progmem_getpage (u32 (address - 1)) in
  if bllastpage <? 0 then (FLASH_ERROR_AFU, m)
  else
    let appstartpage := up_progmem_getpage address in
    let appendpage := up_progmem_getpage (u32 (address + nbytes - 4)) in
    if (appendpage <? 0) || (appstartpage <? 0) then (FLASH_ERROR_AFU, m)
    else if (bllastpage >=? 0) && (appstartpage >? bllastpage)
    then erase_pages (Z.to_nat (appendpage - appstartpage + 1)) appstartpage m
    else (FLASH_ERROR_SUICIDE, m).

Definition bl_flash_write (flash_address : Z) (data : list Z) (m : M) : Z * M :=
  let count := Z.of_nat (length data) in
  if (flash_address >=? APPLICATION_LOAD_ADDRESS)
     && (u32 (flash_address + count) <=? APPLICATION_LAST_8BIT_ADDRRESS)
  then
    let '(n, m) := up_progmem_write flash_address data m in
    (if count =? n then FLASH_OK else FLASH_ERROR, m)
  else (FLASH_ERROR, m).

(** ** The application descriptor *)

Definition APP_DESCRIPTOR_SIGNATURE : list Z := [0x40; 0xa2; 0xe4; 0xf1; 0x64; 0x68; 0x91; 0x06].

Definition mem_bytes (m : M) (a n : Z) : list Z :=
  map (fun i => pm_byte m (a + Z.of_nat i)) (seq 0 (Z.to_nat n)).

Definition bytes_eqb (l l' : list Z) : bool := bool_decide (l = l').

(** The scan of [find_descriptor]: the first address is looked at in any case. *)
Fixpoint find_from (n : nat) (p : Z) (m : M) : option Z :=
  if bytes_eqb (mem_bytes m p 8) APP_DESCRIPTOR_SIGNATURE then Some p
  else
    match n with
    | O => None
    | S n => if p + 8 <? APPLICATION_LAST_64BIT_ADDRRESS then find_from n (p + 8) m else None
    end.

Definition find_descriptor (m : M) : option Z :=
  find_from (Z.to_nat (APPLICATION_SIZE / 8)) APPLICATION_LOAD_ADDRESS m.

(** [app_descriptor_t] at [d]. *)
Definition crc32_block1 (m : M) (d : Z) : Z := pm_word m (d + 8).
Definition crc32_block2 (m : M) (d : Z) : Z := pm_word m (d + 12).
Definition image_size (m : M) (d : Z) : Z := pm_word m (d + 16).
Definition major_version_at (d : Z) : Z := d + 24.

Definition later_bytes : Z := 4 * Z.of_nat LATER_FLAHSED_WORDS.

(** [first_words] are the bytes of the words that are programmed last. *)
Definition is_app_valid (first_words : list Z) (m : M) : bool :=
  match find_descriptor m with
  | None => false
  | Some d =>
      if le_value (take 4 first_words) =? 0xffffffff then false
      else
        let length := image_size m d in
        if (length >? APPLICATION_SIZE) || (length =? 0) then false
        else
          let block2_len := u32 (image_size m d - (major_version_at d - APPLICATION_LOAD_ADDRESS)) in
          if (block2_len >? APPLICATION_SIZE) || (block2_len =? 0) then false
          else
            let block_crc1 := Crc.crc32_signature 0 first_words in
            let start := APPLICATION_LOAD_ADDRESS + later_bytes in
            let block_crc1 := Crc.crc32_signature block_crc1 (mem_bytes m start (d + 8 - start)) in
            let block_crc2 := Crc.crc32_signature 0 (mem_bytes m (major_version_at d) block2_len) in
            (block_crc1 =? crc32_block1 m d) && (block_crc2 =? crc32_block2 m d)
  end.

(** ** Asking the server *)

(** The loop of [file_getinfo]: [response] keeps what was received before. *)
Fixpoint getinfo_loop (retries : nat) (response : list Z) (xs : list exchange) : Z * list exchange :=
  match retries with
  | O => (0, xs)
  | S retries =>
      let '(x, xs) := next xs in
      if tx_status x =? UavcanOk then
        let response := receive (rx_bytes x) response in
        let size := le_value (take 4 response) in
        let error := le_value (take 2 (drop 5 response)) in
        let flags := zat response 7 in
        if (rx_status x =? UavcanOk) && (error =? FILE_ERROR_OK)
           && has_any flags (Z.lor ENTRY_TYPE_FLAG_FILE ENTRY_TYPE_FLAG_READABLE)
           && (size >? 0) && (size <? OPT_APPLICATION_IMAGE_LENGTH)
        then (size, xs) else getinfo_loop retries response xs
      else getinfo_loop retries response xs
  end.

Definition file_getinfo (response : list Z) (xs : list exchange) : Z * list exchange :=
  getinfo_loop UavcanServiceRetries response xs.

(** ** Reading and programming the file *)

Record reader := Reader {
  mem : M;
  fw_word0 : list Z;
  response : list Z;                  (* error code and data *)
  tid : Z;                            (* [protocol.tail.transfer_id] *)
  script : list exchange;
  trace : list effect;
  percentage_done : Z;
}.

Definition emit (es : list effect) (s : reader) : reader :=
  Reader (mem s) (fw_word0 s) (response s) (tid s) (script s) (trace s ++ es) (percentage_done s).

(** One request for the data at [offset]: the status, and the length of the response. *)
Definition read_request (offset : Z) (s : reader) : Z * Z * reader :=
  let '(x, xs) := next (script s) in
  let tr := trace s ++ [ReadRequest offset (tid s)] in
  if tx_status x =? UavcanOk then
    (rx_status x, Z.of_nat (length (rx_bytes x)),
     Reader (mem s) (fw_word0 s) (receive (rx_bytes x) (response s)) (wrap 5 (tid s + 1)) xs tr
            (percentage_done s))
  else (tx_status x, 0, Reader (mem s) (fw_word0 s) (response s) (tid s) xs tr (percentage_done s)).

(** The inner loop: until a response is taken or the retries are used up.  The result is
    the status and the number of data bytes. *)
Fixpoint read_attempts (retries : nat) (offset : Z) (s : reader) : Z * Z * reader :=
  match retries with
  | O => (UavcanError, 0, s)
  | S retries =>
      let '(status, length, s) := read_request offset s in
      if negb (status =? UavcanOk) then read_attempts retries offset s
      else if length >? sizeof_Read_error then (UavcanOk, length - sizeof_Read_error, s)
      else if negb (le_value (take 2 (response s)) =? FILE_ERROR_OK) then
        read_attempts retries offset
          (emit [Indicate fw_update_invalid_response; Log STAGE_PROGRAM RESULT_FAIL] s)
      else (UavcanOk, length, s)
  end.

(** The data of a response as it is edited in place: an odd length is padded, and at offset
    zero the words that are kept back are blanked. *)
Definition pad (length : Z) (data : list Z) : list Z :=
  if Z.odd length then <[Z.to_nat length := 0xff]> data else data.

Definition edit (offset length : Z) (data : list Z) : list Z :=
  if offset =? 0
  then replicate (Z.to_nat later_bytes) 0xff ++ drop (Z.to_nat later_bytes) (pad length data)
  else pad length data.

(** The outer loop; [fuel] bounds its passes. *)
Fixpoint program_loop (fuel : nat) (fw_image_size offset : Z) (s : reader) : run (Z * reader) :=
  match fuel with
  | O => OutOfFuel
  | S fuel =>
      let '(status, length, s) := read_attempts UavcanServiceRetries offset s in
      if negb (status =? UavcanOk) then Ends (FLASH_ERROR, emit [Indicate fw_update_timeout] s)
      else
        let data := drop 2 (response s) in
        let words := if offset =? 0 then take (Z.to_nat later_bytes) (pad length data) else fw_word0 s in
        let data := edit offset length data in
        let '(flash_status, m) :=
          bl_flash_write (u32 (APPLICATION_LOAD_ADDRESS + offset))
            (take (Z.to_nat (length + Z.land length 1)) data) (mem s) in
        let offset := u32 (offset + length) in
        let a_percent := fw_image_size / 100 in
        if a_percent =? 0 then DividesByZero
        else
        let s := Reader m words (take 2 (response s) ++ data) (tid s) (script s) (trace s)
                        (u16 (offset / a_percent)) in
        if (offset <? fw_image_size) && (length =? sizeof_Read_data) && (flash_status =? FLASH_OK)
        then program_loop fuel fw_image_size offset s
        else if (flash_status =? FLASH_OK) && (offset =? fw_image_size) && negb (length =? 0)
        then Ends (FLASH_OK, s) else Ends (FLASH_ERROR, s)
  end.

(** Every pass but the last reads 256 bytes, so the passes are bounded by the size. *)
Definition file_read_and_program (fw_image_size : Z) (m : M) (words : list Z) (xs : list exchange)
    (tr : list effect) : run (Z * reader) :=
  program_loop (S (Z.to_nat (fw_image_size / sizeof_Read_data))) fw_image_size 0
    (Reader m words (replicate 258 0) 0 xs tr 0).

(** ** The update: from the request received to the boot or the failure *)

Inductive outcome := Boot | Failure (error_log_stage : stage).

Definition firmware_update (getinfo_response : list Z) (xs : list exchange) (m : M) (words : list Z)
    (tr : list effect) : run (outcome * reader) :=
  let fail st (s : reader) := Ends (Failure st, emit [Log st RESULT_FAIL] s) in
  let tr := tr ++ [Indicate fw_update_start] in
  let '(fw_image_size, xs) := file_getinfo getinfo_response xs in
  if fw_image_size <? sizeof_app_descriptor then
    fail STAGE_GET_INFO (Reader m words [] 0 xs tr 0)
  else
    let tr := tr ++ [Log STAGE_ERASE RESULT_START] in
    let '(status, m) := bl_flash_erase APPLICATION_LOAD_ADDRESS APPLICATION_SIZE m in
    if negb (status =? FLASH_OK) then
      fail STAGE_ERASE (Reader m words [] 0 xs (tr ++ [Indicate fw_update_erase_fail]) 0)
    else
      match file_read_and_program fw_image_size m words xs tr with
      | OutOfFuel => OutOfFuel
      | DividesByZero => DividesByZero
      | Ends (status, s) =>
          if negb (status =? FLASH_OK) then fail STAGE_PROGRAM s
          else if negb (is_app_valid (fw_word0 s) (mem s)) then
            fail STAGE_VALIDATE (emit [Indicate fw_update_invalid_crc] s)
          else
            let '(status, m) := bl_flash_write APPLICATION_LOAD_ADDRESS (fw_word0 s) (mem s) in
            let s' := Reader m (fw_word0 s) (response s) (tid s) (script s) (trace s) (percentage_done s) in
            if negb (status =? FLASH_OK) then fail STAGE_FINALIZE s'
            else
              Ends (Boot, Reader m (fw_word0 s) (response s) (tid s) (script s)
                            (trace s ++ [Log STAGE_FINALIZE RESULT_OK]) 100)
      end.

(** [application_run]: the stack pointer and the entry point it jumps to, if it does. *)
Definition application_run (fw_image_size : Z) (m : M) : option (Z * Z) :=
  let w0 := pm_word m APPLICATION_LOAD_ADDRESS in
  let w1 := pm_word m (APPLICATION_LOAD_ADDRESS + 4) in
  if negb (w0 =? 0xffffffff) && (w1 >? APPLICATION_LOAD_ADDRESS)
     && (w1 <? u32 (APPLICATION_LOAD_ADDRESS + fw_image_size))
  then Some (w0, w1) else None.

End Update.
Arguments reader : clear implicits.
End CanUpdate.
