(* ===== verification/CanUpdateSpec.v ===== *)
(** * Theorems about the CAN bootloader's firmware update

    Whatever the file server answers, an update touches nothing outside the application
    area and leaves either a bootable image that passed its CRCs or a flash that the
    bootloader refuses to start; a server that serves an image gets it installed. *)

From S2P Require Import Prelude Crc ProgMem Uavcan CanUpdate.

Local Open Scope Z_scope.

Module CanUpdateSpec.
Import Uavcan(UavcanOk, UavcanError).
Import CanUpdate.

Section Spec.
Context {M : Type} {PM : ProgMem M} {PL : ProgMemLaws M}.
Variable LOAD SIZE LENGTH : Z.
Variable later : nat.

(** [n] blocks from [p] on cover exactly the [len] bytes at [a]. *)
Fixpoint tiles (n : nat) (p a len : Z) : Prop :=
  match n with
  | O => len = 0
  | S n => up_progmem_getaddress p = a /\ 0 < up_progmem_pagesize p /\
           tiles n (p + 1) (a + up_progmem_pagesize p) (len - up_progmem_pagesize p)
  end.

(** The application area: inside the flash, behind at least one block of bootloader, made of
    whole blocks, and with room for an image. *)
Record layout : Prop := {
  l_later : (1 <= later <= 2)%nat;
  l_load : 0 < LOAD;
  l_size : 16 < SIZE;
  l_length : LENGTH <= SIZE;
  l_high : LOAD + SIZE + 512 < 2 ^ 32;
  l_in : pm_base <= LOAD /\ LOAD + SIZE <= pm_base + pm_size;
  l_before : 0 <= up_progmem_getpage (LOAD - 1) < up_progmem_getpage LOAD;
  l_after : up_progmem_getpage LOAD <= up_progmem_getpage (LOAD + SIZE - 4);
  l_tiles : tiles (Z.to_nat (up_progmem_getpage (LOAD + SIZE - 4) - up_progmem_getpage LOAD + 1))
              (up_progmem_getpage LOAD) LOAD SIZE;
}.

Hypothesis L : layout.

Abbreviation laterb := (later_bytes later).

Lemma laterb_range : 4 <= laterb <= 8.
Proof using L. pose proof (l_later L). unfold later_bytes. lia. Qed.

Lemma tiles_nonneg n : forall p a len, tiles n p a len -> 0 <= len.
Proof using. clear L. induction n as [|n IH]; cbn; intros p a len H; [lia|]. destruct H as (_ & Hp & H%IH). lia. Qed.

(** ** Erasing *)

Lemma erase_pages_ok n : forall p a len m, tiles n p a len -> pm_base <= a -> a + len <= pm_base + pm_size ->
  exists m', erase_pages n p m = (FLASH_OK, m') /\
    forall x, pm_byte m' x = if in_range a len x then 0xff else pm_byte m x.
Proof using.
  clear L. induction n as [|n IH]; intros p a len m Ht Hlo Hhi.
  - cbn in *. subst len. exists m. split; [done|]. intros x.
    unfold in_range. destruct (Z.leb_spec a x), (Z.ltb_spec x (a + 0)); cbn; (done || lia).
  - cbn [tiles] in Ht. destruct Ht as (<- & Hp & Ht). pose proof (tiles_nonneg _ _ _ _ Ht).
    destruct (pm_erase_ok m p Hlo ltac:(lia)) as (m1 & He & Hb1). cbn [erase_pages]. rewrite He.
    rewrite (proj2 (Z.leb_gt _ _)) by lia.
    destruct (IH _ _ _ m1 Ht ltac:(lia) ltac:(lia)) as (m' & -> & Hb). exists m'. split; [done|].
    intros x. rewrite Hb, Hb1. unfold in_range.
    destruct (Z.leb_spec (up_progmem_getaddress p + up_progmem_pagesize p) x),
      (Z.leb_spec (up_progmem_getaddress p) x),
      (Z.ltb_spec x (up_progmem_getaddress p + up_progmem_pagesize p)),
      (Z.ltb_spec x (up_progmem_getaddress p + len)),
      (Z.ltb_spec x (up_progmem_getaddress p + up_progmem_pagesize p + (len - up_progmem_pagesize p)));
      cbn; (done || lia).
Qed.

(** What the flash holds: [bs] at the start of the application area, the rest of the area
    blank, everything else as in [m0]. *)
Definition holds (m0 m : M) (bs : list Z) : Prop :=
  forall x, pm_byte m x =
    if in_range LOAD SIZE x then
      (if x - LOAD <? Z.of_nat (length bs) then zat bs (x - LOAD) else 0xff)
    else pm_byte m0 x.

Lemma flash_erase_ok m : exists m', bl_flash_erase LOAD SIZE m = (FLASH_OK, m') /\ holds m m' [].
Proof using L PL.
  destruct L as [_ Hl Hs _ Hh [Hlo Hhi] Hbef Haft Ht]. unfold bl_flash_erase.
  rewrite !wrap_small by (unfold fits; lia).
  rewrite (proj2 (Z.ltb_ge (up_progmem_getpage (LOAD - 1)) 0)) by lia.
  rewrite (proj2 (Z.ltb_ge (up_progmem_getpage (LOAD + SIZE - 4)) 0)) by lia.
  rewrite (proj2 (Z.ltb_ge (up_progmem_getpage LOAD) 0)) by lia. cbn [orb].
  rewrite Z.geb_leb, (proj2 (Z.leb_le _ _)), Z.gtb_ltb, (proj2 (Z.ltb_lt _ _)) by lia. cbn [andb].
  destruct (erase_pages_ok _ _ _ _ m Ht Hlo Hhi) as (m' & -> & Hb).
  exists m'. split; [done|]. intros x. rewrite Hb. cbn [length].
  destruct (in_range LOAD SIZE x) eqn:Hr; [|done]. apply in_rangeP in Hr.
  by rewrite (proj2 (Z.ltb_ge _ _)) by lia.
Qed.

(** ** Writing *)

Lemma flash_write_ok m0 m bs d : holds m0 m bs -> Forall is_byte d ->
  Z.of_nat (length bs) + Z.of_nat (length d) <= SIZE - 1 ->
  exists m', bl_flash_write LOAD SIZE (LOAD + Z.of_nat (length bs)) d m = (FLASH_OK, m') /\
    holds m0 m' (bs ++ d).
Proof using L PL.
  destruct L as [_ Hl Hs _ Hh [Hlo Hhi] _ _ _]. intros Hm Hd Hfit. unfold bl_flash_write.
  rewrite Z.geb_leb, (proj2 (Z.leb_le _ _)) by lia. unfold APPLICATION_LAST_8BIT_ADDRRESS.
  rewrite wrap_small by (unfold fits; lia). rewrite (proj2 (Z.leb_le _ _)) by lia. cbn [andb].
  destruct (pm_write_erased m (LOAD + Z.of_nat (length bs)) d) as (m' & -> & Hb); [lia|lia|done| |].
  { intros x Hx. rewrite Hm, (proj2 (in_rangeP _ _ _)) by lia. by rewrite (proj2 (Z.ltb_ge _ _)) by lia. }
  rewrite Z.eqb_refl. exists m'. split; [done|]. intros x. rewrite Hb, Hm, length_app.
  unfold in_range. destruct (Z.leb_spec (LOAD + Z.of_nat (length bs)) x),
    (Z.ltb_spec x (LOAD + Z.of_nat (length bs) + Z.of_nat (length d))), (Z.leb_spec LOAD x),
    (Z.ltb_spec x (LOAD + SIZE)), (Z.ltb_spec (x - LOAD) (Z.of_nat (length bs))),
    (Z.ltb_spec (x - LOAD) (Z.of_nat (length bs + length d))); cbn; try done; try lia.
  - rewrite zat_app_r by lia. f_equal. lia.
  - by rewrite zat_app_l by lia.
Qed.

Lemma flash_write_refused m (bs d : list Z) : SIZE - 1 < Z.of_nat (length bs) + Z.of_nat (length d) ->
  Z.of_nat (length bs) < SIZE -> (length d <= 256)%nat ->
  bl_flash_write LOAD SIZE (LOAD + Z.of_nat (length bs)) d m = (FLASH_ERROR, m).
Proof using L.
  destruct L as [_ Hl Hs _ Hh _ _ _ _]. intros Hbig Hb Hd. unfold bl_flash_write, APPLICATION_LAST_8BIT_ADDRRESS.
  rewrite wrap_small by (unfold fits; lia). rewrite (proj2 (Z.leb_gt _ _)) by lia.
  by rewrite andb_false_r.
Qed.

(** The words kept back are still blank. *)
Definition blank_head (bs : list Z) : Prop :=
  forall i, 0 <= i < laterb -> i < Z.of_nat (length bs) -> zat bs i = 0xff.

Lemma holds_blank_head m0 m bs i : holds m0 m bs -> blank_head bs -> 0 <= i < laterb ->
  pm_byte m (LOAD + i) = 0xff.
Proof using L.
  intros Hm Hb Hi. pose proof laterb_range. pose proof (l_size L).
  rewrite Hm, (proj2 (in_rangeP _ _ _)) by lia. replace (LOAD + i - LOAD) with i by lia.
  destruct (Z.ltb_spec i (Z.of_nat (length bs))); [by apply Hb|done].
Qed.

Lemma blank_not_run m0 m bs sz : holds m0 m bs -> blank_head bs -> application_run LOAD sz m = None.
Proof using L.
  intros Hm Hb. pose proof laterb_range. unfold application_run.
  assert (pm_word m LOAD = 0xffffffff) as ->; [|done].
  unfold pm_word. rewrite <- (Z.add_0_r LOAD) at 1.
  by rewrite !(holds_blank_head m0 m bs) by (done || lia).
Qed.

(** ** Reading *)

Definition wf_exchange (x : exchange) : Prop :=
  Forall is_byte (rx_bytes x) /\ (length (rx_bytes x) <= 258)%nat.

Definition wf_reader (s : reader M) : Prop :=
  length (response s) = 258%nat /\ Forall is_byte (response s) /\ Forall wf_exchange (script s).

Lemma wf_next xs : Forall wf_exchange xs -> wf_exchange (fst (next xs)) /\ Forall wf_exchange (snd (next xs)).
Proof using.
  clear L. destruct xs as [|x xs]; cbn; intros H.
  - split; [|done]. split; [by apply List.Forall_nil|cbn; lia].
  - by apply Forall_cons in H.
Qed.

Lemma receive_wf bytes buf : Forall is_byte bytes -> (length bytes <= length buf)%nat -> Forall is_byte buf ->
  length (receive bytes buf) = length buf /\ Forall is_byte (receive bytes buf).
Proof using.
  clear L. intros Hb Hl Hf. unfold receive. rewrite length_app, length_drop. split; [lia|].
  apply Forall_app. split; [done|]. by apply Forall_drop.
Qed.

Lemma read_request_wf offset s : wf_reader s ->
  let '(status, len, s') := read_request offset s in
  wf_reader s' /\ mem s' = mem s /\ fw_word0 s' = fw_word0 s /\ 0 <= len <= 258.
Proof using.
  clear L. intros (Hl & Hb & Hx). unfold read_request.
  destruct (wf_next _ Hx) as [[Hr1 Hr2] Hxs]. destruct (next (script s)) as [x xs]. cbn [fst snd] in *.
  destruct (receive_wf (rx_bytes x) (response s)) as [Hl' Hb']; [done|lia|done|].
  destruct (tx_status x =? UavcanOk); (split; [|split; [done|split; [done|lia]]]); split_and!; cbn; (done || congruence).
Qed.

Lemma read_attempts_wf retries : forall offset s, wf_reader s ->
  let '(status, len, s') := read_attempts retries offset s in
  wf_reader s' /\ mem s' = mem s /\ fw_word0 s' = fw_word0 s /\ 0 <= len <= 256.
Proof using.
  clear L. induction retries as [|n IH]; intros offset s Hs; [cbn; split_and!; (done || lia)|].
  cbn [read_attempts]. pose proof (read_request_wf offset s Hs) as Hr.
  destruct (read_request offset s) as [[status len] s1]. destruct Hr as (Hw & Hm & Hf & Hlen).
  destruct (negb (status =? UavcanOk)).
  { specialize (IH offset s1 Hw). destruct (read_attempts n offset s1) as [[st' len'] s2].
    destruct IH as (? & -> & -> & ?). done. }
  rewrite Z.gtb_ltb. unfold sizeof_Read_error. destruct (Z.ltb_spec 2 len).
  { split_and!; (done || lia). }
  destruct (negb (_ =? FILE_ERROR_OK)); [|split_and!; (done || lia)].
  specialize (IH offset (emit [Indicate fw_update_invalid_response; Log STAGE_PROGRAM RESULT_FAIL] s1) Hw).
  destruct (read_attempts n offset _) as [[st' len'] s2]. destruct IH as (? & -> & -> & ?). done.
Qed.

(** ** Programming *)

Lemma pad_wf len data : length data = 256%nat -> Forall is_byte data ->
  length (pad len data) = 256%nat /\ Forall is_byte (pad len data).
Proof using.
  clear L. intros Hl Hb. unfold pad. destruct (Z.odd len); [|done].
  rewrite length_insert. split; [done|]. apply Forall_insert; [done|fits_const].
Qed.

Lemma edit_wf offset len data : length data = 256%nat -> Forall is_byte data ->
  length (edit later offset len data) = 256%nat /\ Forall is_byte (edit later offset len data).
Proof using L.
  intros Hl Hb. pose proof laterb_range. destruct (pad_wf len data Hl Hb) as [Hl' Hb'].
  unfold edit. destruct (offset =? 0); [|done].
  rewrite length_app, length_replicate, length_drop, Hl'. split; [lia|].
  apply Forall_app. split; [apply Forall_replicate; fits_const|by apply Forall_drop].
Qed.

Lemma odd_bit len : 0 <= len -> Z.land len 1 = Z.b2z (Z.odd len).
Proof using. clear L. intros _. apply Crc.land_1_odd. Qed.

(** How many bytes a response of [len] bytes programs. *)
Lemma with_pad_range len : 0 <= len <= 256 ->
  0 <= len + Z.land len 1 <= 256 /\ len <= len + Z.land len 1.
Proof using.
  clear L. intros Hlen. rewrite odd_bit by lia. destruct (Z.odd len) eqn:Ho; cbn; [|lia].
  assert (len <> 256) by (intros ->; done). lia.
Qed.

Lemma blank_head_app bs d : blank_head bs -> laterb <= Z.of_nat (length bs) -> blank_head (bs ++ d).
Proof using. intros Hb Hl i Hi _. rewrite zat_app_l by lia. apply Hb; lia. Qed.

Lemma zat_take (l : list Z) n i : 0 <= i < Z.of_nat n -> zat (take n l) i = zat l i.
Proof using. clear L. intros Hi. unfold zat. rewrite !nth_lookup, lookup_take_lt by lia. done. Qed.

Lemma zat_replicate n (v i : Z) : 0 <= i < Z.of_nat n -> zat (replicate n v) i = v.
Proof using. clear L. intros Hi. unfold zat. rewrite nth_lookup, lookup_replicate_2 by lia. done. Qed.

Lemma blank_head_edit n len data : blank_head (take n (edit later 0 len data)).
Proof using L.
  intros i Hi Hn. rewrite length_take in Hn. rewrite zat_take by lia. cbn [edit Z.eqb].
  unfold edit. cbn [Z.eqb]. rewrite zat_app_l by (rewrite length_replicate; lia).
  apply zat_replicate. lia.
Qed.

(** The words kept back are complete. *)
Definition kept (s : reader M) : Prop :=
  Z.of_nat (length (fw_word0 s)) = laterb /\ Forall is_byte (fw_word0 s).

(** One response is programmed, or refused because it does not fit. *)
Lemma program_step m0 s bs len : wf_reader s -> holds m0 (mem s) bs -> blank_head bs ->
  (bs = [] \/ laterb <= Z.of_nat (length bs)) -> Z.of_nat (length bs) < SIZE -> 0 <= len <= 256 ->
  let offset := Z.of_nat (length bs) in
  let d := take (Z.to_nat (len + Z.land len 1)) (edit later offset len (drop 2 (response s))) in
  exists fs m', bl_flash_write LOAD SIZE (u32 (LOAD + offset)) d (mem s) = (fs, m') /\
    ((fs = FLASH_OK /\ holds m0 m' (bs ++ d) /\ blank_head (bs ++ d)) \/ (fs = FLASH_ERROR /\ m' = mem s)) /\
    Z.of_nat (length d) = len + Z.land len 1.
Proof using L PL.
  intros (Hrl & Hrb & _) Hm Hbl Hbs Hoff Hlen offset d.
  destruct (edit_wf offset len (drop 2 (response s))) as [Hel Heb];
    [rewrite length_drop; lia|by apply Forall_drop|].
  pose proof (with_pad_range len Hlen) as [Hp _].
  assert (Hd : Z.of_nat (length d) = len + Z.land len 1) by (subst d; rewrite length_take, Hel; lia).
  assert (Hdb : Forall is_byte d) by (by apply Forall_take).
  pose proof (l_high L). pose proof (l_load L).
  rewrite wrap_small by (unfold fits; lia).
  change (LOAD + offset) with (LOAD + Z.of_nat (length bs)).
  destruct (Z.le_gt_cases (offset + Z.of_nat (length d)) (SIZE - 1)) as [Hfit|Hbig].
  - destruct (flash_write_ok m0 (mem s) bs d Hm Hdb Hfit) as (m' & -> & Hm').
    exists FLASH_OK, m'. split; [done|]. split; [|done]. left. split; [done|]. split; [done|].
    destruct Hbs as [-> |Hl]; [|by apply blank_head_app]. apply blank_head_edit.
  - exists FLASH_ERROR, (mem s). split; [apply flash_write_refused; lia|]. split; [by right|done].
Qed.

Lemma kept_words len data : length data = 256%nat -> Forall is_byte data ->
  Z.of_nat (length (take (Z.to_nat laterb) (pad len data))) = laterb /\
  Forall is_byte (take (Z.to_nat laterb) (pad len data)).
Proof using L.
  intros Hl Hb. pose proof laterb_range. destruct (pad_wf len data Hl Hb) as [Hl' Hb'].
  rewrite length_take, Hl'. split; [lia|]. by apply Forall_take.
Qed.

Lemma percent_zero size : 0 <= size -> size / 100 = 0 -> size < 100.
Proof using. clear L. intros. Z.div_mod_to_equations. lia. Qed.

Lemma percent_nonzero size : 100 <= size -> (size / 100 =? 0) = false.
Proof using. clear L. intros. apply Z.eqb_neq. Z.div_mod_to_equations. lia. Qed.

(** The state of the flash after the loop, whatever the server does. *)
Lemma program_loop_safe m0 size : size <= SIZE -> forall fuel s bs,
  wf_reader s -> holds m0 (mem s) bs -> blank_head bs ->
  (bs = [] \/ laterb <= Z.of_nat (length bs) /\ kept s) ->
  Z.of_nat (length bs) < size -> size < Z.of_nat (length bs) + 256 * Z.of_nat fuel ->
  match program_loop LOAD SIZE later fuel size (Z.of_nat (length bs)) s with
  | Ends (st, s') => exists bs', holds m0 (mem s') bs' /\ blank_head bs' /\ (st = FLASH_OK -> kept s')
  | DividesByZero => size < 100
  | OutOfFuel => False
  end.
Proof using L PL.
  intros Hsize. induction fuel as [|fuel IH]; intros s bs Hs Hm Hbl Hbs Hoff Hfuel; [lia|].
  cbn [program_loop]. pose proof (read_attempts_wf UavcanServiceRetries (Z.of_nat (length bs)) s Hs) as Hr.
  destruct (read_attempts _ _ s) as [[status len] s1]. destruct Hr as (Hs1 & Hm1 & Hf1 & Hlen).
  destruct (negb (status =? UavcanOk)).
  { exists bs. cbn [emit mem]. rewrite Hm1. done. }
  rewrite <- Hm1 in Hm. assert (Hb2 : bs = [] \/ laterb <= Z.of_nat (length bs)) by tauto.
  destruct (program_step m0 s1 bs len Hs1 Hm Hbl Hb2 ltac:(lia) Hlen) as (fs & m' & -> & Hcase & Hd).
  set (d := take _ _) in *. pose proof (l_high L). pose proof (l_load L).
  rewrite (wrap_small 32 (Z.of_nat (length bs) + len)) by (unfold fits; lia).
  destruct (Z.eqb_spec (size / 100) 0) as [Hz0|_]; [by apply percent_zero; [lia|]|].
  set (s2 := Reader m' _ _ _ _ _ _).
  assert (Hk2 : kept s2).
  { destruct Hs1 as (Hrl & Hrb & _). unfold kept. cbn [s2 fw_word0].
    destruct (Z.eqb_spec (Z.of_nat (length bs)) 0) as [Hz|Hz].
    - apply kept_words; [rewrite length_drop; lia|by apply Forall_drop].
    - destruct Hbs as [-> |[_ [Hk1 Hk2]]]; [done|]. by rewrite Hf1. }
  assert (Hs2 : wf_reader s2).
  { destruct Hs1 as (Hrl & Hrb & Hrs). unfold wf_reader. cbn [s2 response script].
    destruct (edit_wf (Z.of_nat (length bs)) len (drop 2 (response s1))) as [Hel Heb];
      [rewrite length_drop; lia|by apply Forall_drop|].
    rewrite length_app, length_take, Hel. split; [lia|]. split; [|done].
    apply Forall_app. split; [by apply Forall_take|done]. }
  destruct (_ && _ && _) eqn:Hgo.
  - apply andb_true_iff in Hgo as [[Ho%Z.ltb_lt Hl%Z.eqb_eq]%andb_true_iff Hfs%Z.eqb_eq].
    unfold sizeof_Read_data in Hl. subst len. change (256 + Z.land 256 1) with 256 in Hd.
    destruct Hcase as [(_ & Hm' & Hbl')|[-> _]]; [|done].
    replace (Z.of_nat (length bs) + 256) with (Z.of_nat (length (bs ++ d))) by (rewrite length_app; lia).
    pose proof laterb_range.
    apply IH; [done|exact Hm'|done|right; rewrite length_app; split; [lia|done]|rewrite length_app; lia|
      rewrite length_app; lia].
  - assert (Hend : exists bs', holds m0 (mem s2) bs' /\ blank_head bs').
    { destruct Hcase as [(_ & Hm' & Hbl')|[_ Hm']]; [by exists (bs ++ d)|]. exists bs. cbn [s2 mem]. by rewrite Hm'. }
    destruct Hend as (bs' & Hm' & Hbl'). clear Hgo. destruct (_ && _ && _).
    + exists bs'. split_and!; done.
    + exists bs'. split_and!; done.
Qed.

(** ** Safety of the whole update *)

Lemma getinfo_loop_size n : forall resp xs, Forall wf_exchange xs ->
  let '(size, xs') := getinfo_loop LENGTH n resp xs in
  Forall wf_exchange xs' /\ (size = 0 \/ 0 < size < LENGTH).
Proof using.
  clear L. induction n as [|n IH]; intros resp xs Hxs; [cbn; auto|].
  cbn [getinfo_loop]. destruct (wf_next _ Hxs) as [_ Hxs']. destruct (next xs) as [x xs1]. cbn [snd] in Hxs'.
  destruct (tx_status x =? UavcanOk); [|by apply IH].
  destruct (_ && _ && _ && _ && _) eqn:Hok; [|by apply IH]. split; [done|]. right.
  apply andb_true_iff in Hok as [[_ H1]%andb_true_iff H2%Z.ltb_lt].
  rewrite Z.gtb_ltb in H1. apply Z.ltb_lt in H1. lia.
Qed.

(** The flash after the last words were committed over the staged image [m1]. *)
Definition committed (m1 m : M) (words : list Z) : Prop :=
  forall x, pm_byte m x = if in_range LOAD laterb x then zat words (x - LOAD) else pm_byte m1 x.

Lemma commit_ok m0 m1 bs words : holds m0 m1 bs -> blank_head bs ->
  Z.of_nat (length words) = laterb -> Forall is_byte words ->
  exists m, bl_flash_write LOAD SIZE LOAD words m1 = (FLASH_OK, m) /\ committed m1 m words.
Proof using L PL.
  intros Hm Hbl Hl Hw. pose proof laterb_range. pose proof (l_size L). pose proof (l_high L). pose proof (l_load L).
  destruct (l_in L) as [Hlo Hhi]. unfold bl_flash_write, APPLICATION_LAST_8BIT_ADDRRESS.
  rewrite Z.geb_leb, (proj2 (Z.leb_le LOAD LOAD)) by lia. rewrite Hl, wrap_small by (unfold fits; lia).
  rewrite (proj2 (Z.leb_le _ _)) by lia. cbn [andb].
  destruct (pm_write_erased m1 LOAD words) as (m & -> & Hb); [lia|lia|done| |].
  { intros x Hx. replace x with (LOAD + (x - LOAD)) by lia. apply (holds_blank_head m0 m1 bs); (done || lia). }
  rewrite Hl, Z.eqb_refl. exists m. split; [done|]. intros x. by rewrite Hb, Hl.
Qed.

(** C9 (safety). A firmware update over CAN is safe whatever the file server answers, that
    is for all statuses of the exchanges and all responses of bytes that fit their buffer: it
    ends, unless it announced a file of less than 100 bytes, where the code divides by zero;
    it changes no byte outside the application area, and it either boots an image whose first
    words were committed only after the staged image had passed its CRCs, or it fails; then
    the flash is as before (no usable file was offered) or is refused by [application_run]
    because its first word is blank. *)
Theorem can_update_safe gr xs m words tr : Forall wf_exchange xs ->
  match firmware_update LOAD SIZE LENGTH later gr xs m words tr with
  | Ends (o, s) =>
      (forall x, in_range LOAD SIZE x = false -> pm_byte (mem s) x = pm_byte m x) /\
      match o with
      | Boot => exists m1, is_app_valid LOAD SIZE later (fw_word0 s) m1 = true /\
          (forall sz, application_run LOAD sz m1 = None) /\ committed m1 (mem s) (fw_word0 s)
      | Failure STAGE_GET_INFO => mem s = m
      | Failure _ => forall sz, application_run LOAD sz (mem s) = None
      end
  | DividesByZero => sizeof_app_descriptor <= fst (file_getinfo LENGTH gr xs) < 100
  | OutOfFuel => False
  end.
Proof using L PL.
  intros Hxs. unfold firmware_update.
  pose proof (getinfo_loop_size UavcanServiceRetries gr xs Hxs) as Hg. unfold file_getinfo.
  destruct (getinfo_loop _ _ _ _) as [size xs1]. destruct Hg as [Hx1 Hsz].
  unfold sizeof_app_descriptor. destruct (Z.ltb_spec size 36); [done|].
  destruct (flash_erase_ok m) as (m1 & -> & Hm1). cbn [negb Z.eqb FLASH_OK].
  unfold file_read_and_program. pose proof (l_length L). pose proof (l_size L).
  pose proof (program_loop_safe m size ltac:(lia) (S (Z.to_nat (size / sizeof_Read_data)))
    (Reader m1 words (replicate 258 0) 0 xs1 ((tr ++ [Indicate fw_update_start]) ++ [Log STAGE_ERASE RESULT_START]) 0)
    []) as Hloop.
  change (Z.of_nat (length [])) with 0 in Hloop.
  specialize (Hloop ltac:(by split; [|split; [apply Forall_replicate; fits_const|]]) Hm1
    ltac:(intros i ? Hi; cbn in Hi; lia) ltac:(by left) ltac:(lia)).
  specialize (Hloop ltac:(unfold sizeof_Read_data; pose proof (Z.mul_succ_div_gt size 256 ltac:(lia));
    rewrite Nat2Z.inj_succ, Z2Nat.id by (apply Z.div_pos; lia); lia)).
  destruct (program_loop _ _ _ _ _ _ _) as [[st s]| |]; [|cbn; lia|done].
  destruct Hloop as (bs & Hm & Hbl & Hk).
  assert (Hout : forall s', mem s' = mem s -> forall x, in_range LOAD SIZE x = false -> pm_byte (mem s') x = pm_byte m x).
  { intros s' -> x Hx. by rewrite Hm, Hx. }
  assert (Hno : forall sz, application_run LOAD sz (mem s) = None) by (intros; by eapply blank_not_run).
  destruct (Z.eqb_spec st FLASH_OK) as [Hst|Hst]; cbn [negb].
  2:{ split; [by apply Hout|exact Hno]. }
  destruct (is_app_valid LOAD SIZE later (fw_word0 s) (mem s)) eqn:Hv; cbn [negb].
  2:{ split; [by apply Hout|exact Hno]. }
  destruct (Hk Hst) as [Hkl Hkb].
  destruct (commit_ok m (mem s) bs (fw_word0 s) Hm Hbl Hkl Hkb) as (m2 & -> & Hc). cbn [negb Z.eqb FLASH_OK].
  cbn [mem fw_word0]. split.
  - intros x Hx. rewrite Hc. destruct (in_range LOAD laterb x) eqn:Hr; [|by rewrite Hm, Hx].
    apply in_rangeP in Hr. pose proof laterb_range. rewrite (proj2 (in_rangeP _ _ _)) in Hx by lia. done.
  - exists (mem s). split; [done|]. split; [apply Hno|exact Hc].
Qed.

(** ** A server that serves an image *)

Definition answers (c : list Z) : exchange := Exchange UavcanOk UavcanOk ([0; 0] ++ c).
Definition fails (x : exchange) : Prop := tx_status x <> UavcanOk \/ rx_status x <> UavcanOk.

(** The script brings the image in chunks of 256 bytes, the last one shorter unless the size
    is a multiple; each chunk comes after at most two failed attempts. *)
Inductive serves : list Z -> list exchange -> Prop :=
  | serves_last c bad xs : (0 < length c <= 256)%nat -> (length bad <= 2)%nat -> Forall fails bad ->
      serves c (bad ++ answers c :: xs)
  | serves_more c img bad xs : length c = 256%nat -> img <> [] -> (length bad <= 2)%nat -> Forall fails bad ->
      serves img xs -> serves (c ++ img) (bad ++ answers c :: xs).

(** An image with its padding byte, and as it is staged before the commit. *)
Definition with_pad (img : list Z) : list Z := img ++ (if Z.odd (Z.of_nat (length img)) then [0xff] else []).
Definition staged (img : list Z) : list Z :=
  replicate (Z.to_nat laterb) 0xff ++ drop (Z.to_nat laterb) (with_pad img).

Lemma read_attempts_answer c xs : (0 < length c)%nat -> forall bad retries offset s,
  (length bad < retries)%nat -> Forall fails bad -> script s = bad ++ answers c :: xs -> wf_reader s ->
  exists s', read_attempts retries offset s = (UavcanOk, Z.of_nat (length c), s') /\
    wf_reader s' /\ mem s' = mem s /\ fw_word0 s' = fw_word0 s /\ script s' = xs /\
    take (length c) (drop 2 (response s')) = c.
Proof using.
  clear L. intros Hc. induction bad as [|x bad IH]; intros [|n] offset s Hn Hbad Hs Hw; try (cbn in Hn; lia).
  - cbn [read_attempts]. pose proof (read_request_wf offset s Hw) as Hr.
    assert (Hreq : read_request offset s = (UavcanOk, Z.of_nat (length c) + 2,
      Reader (mem s) (fw_word0 s) (receive ([0; 0] ++ c) (response s)) (wrap 5 (tid s + 1)) xs
        (trace s ++ [ReadRequest offset (tid s)]) (percentage_done s))).
    { unfold read_request. rewrite Hs. cbn [app next answers tx_status rx_status rx_bytes Z.eqb UavcanOk length].
      do 2 f_equal. lia. }
    rewrite Hreq in *. destruct Hr as (Hw' & _). cbn [negb Z.eqb UavcanOk].
    unfold sizeof_Read_error. rewrite Z.gtb_ltb, (proj2 (Z.ltb_lt _ _)) by lia.
    eexists. split; [f_equal; f_equal; lia|]. split; [exact Hw'|]. split_and!; [done|done|done|].
    cbn [response]. unfold receive. rewrite <- app_assoc. exact (take_app_length c _).
  - apply Forall_cons in Hbad as [Hx Hbad]. cbn [read_attempts length] in *.
    pose proof (read_request_wf offset s Hw) as Hr.
    assert (Hreq : let '(st, _, s1) := read_request offset s in st <> UavcanOk /\ script s1 = bad ++ answers c :: xs).
    { unfold read_request. rewrite Hs. cbn [app next].
      destruct (Z.eqb_spec (tx_status x) UavcanOk); [|done]. split; [by destruct Hx|done]. }
    destruct (read_request offset s) as [[st len] s1]. destruct Hr as (Hw1 & Hm1 & Hf1 & _).
    destruct Hreq as [Hst Hs1]. rewrite (proj2 (Z.eqb_neq st UavcanOk)) by done. cbn [negb].
    destruct (IH n offset s1 ltac:(lia) Hbad Hs1 Hw1) as (s' & -> & Hw' & Hm' & Hf' & Hx' & Ht).
    exists s'. split; [done|]. split; [done|]. split_and!; [congruence..|done].
Qed.

Lemma take_pad data n : length data = 256%nat -> (0 < n <= 256)%nat ->
  take (Z.to_nat (Z.of_nat n + Z.land (Z.of_nat n) 1)) (pad (Z.of_nat n) data) = with_pad (take n data).
Proof using.
  clear L. intros Hl Hn. unfold with_pad. rewrite length_take, Nat.min_l, odd_bit by lia. unfold pad.
  pose proof (with_pad_range (Z.of_nat n) ltac:(lia)) as [Hp _]. rewrite odd_bit in Hp by lia.
  destruct (Z.odd (Z.of_nat n)); cbn [Z.b2z] in *.
  - replace (Z.to_nat (Z.of_nat n + 1)) with (S n) by lia. rewrite Nat2Z.id.
    rewrite (take_S_r _ n 0xff); [|by rewrite list_lookup_insert_eq by lia].
    f_equal. by apply take_insert_ge.
  - by rewrite Z.add_0_r, Nat2Z.id, app_nil_r.
Qed.

Lemma with_pad_more c img : length c = 256%nat -> with_pad (c ++ img) = c ++ with_pad img.
Proof using.
  clear L. intros Hc. unfold with_pad. rewrite <- app_assoc, length_app, Hc. do 2 f_equal.
  rewrite Nat2Z.inj_add, Z.odd_add. done.
Qed.

Lemma with_pad_length img : (length img <= length (with_pad img) <= length img + 1)%nat.
Proof using. clear L. unfold with_pad. rewrite length_app. destruct (Z.odd _); cbn; lia. Qed.

(** A chunk at the end of what is already stored. *)
Lemma program_chunk m0 s bs c xs bad : wf_reader s -> holds m0 (mem s) bs ->
  Z.of_nat (length bs) + Z.of_nat (length (with_pad c)) <= SIZE - 1 ->
  (0 < length c <= 256)%nat -> (length bad <= 2)%nat -> Forall fails bad -> script s = bad ++ answers c :: xs ->
  let offset := Z.of_nat (length bs) in
  let d := if offset =? 0 then take (length (with_pad c)) (staged c) else with_pad c in
  exists s1 m', read_attempts UavcanServiceRetries offset s = (UavcanOk, Z.of_nat (length c), s1) /\
    wf_reader s1 /\ fw_word0 s1 = fw_word0 s /\ script s1 = xs /\
    take (length c) (drop 2 (response s1)) = c /\
    bl_flash_write LOAD SIZE (u32 (LOAD + offset))
      (take (Z.to_nat (Z.of_nat (length c) + Z.land (Z.of_nat (length c)) 1))
         (edit later offset (Z.of_nat (length c)) (drop 2 (response s1)))) (mem s1) = (FLASH_OK, m') /\
    holds m0 m' (bs ++ d).
Proof using L PL.
  intros Hw Hm Hfit Hc Hb Hbad Hs offset d.
  destruct (read_attempts_answer c xs ltac:(lia) bad UavcanServiceRetries offset s
    ltac:(unfold UavcanServiceRetries; lia) Hbad Hs Hw) as (s1 & Hrd & Hw1 & Hm1 & Hf1 & Hx1 & Ht).
  exists s1. pose proof Hw1 as (Hrl & Hrb & _).
  destruct (edit_wf offset (Z.of_nat (length c)) (drop 2 (response s1))) as [Hel Heb];
    [rewrite length_drop; lia|by apply Forall_drop|].
  assert (Hpl : length (with_pad c) = Z.to_nat (Z.of_nat (length c) + Z.land (Z.of_nat (length c)) 1)).
  { rewrite <- Ht at 1. rewrite <- take_pad by (rewrite ?length_drop; lia).
    destruct (pad_wf (Z.of_nat (length c)) (drop 2 (response s1))) as [Hpl _];
      [rewrite length_drop; lia|by apply Forall_drop|].
    pose proof (with_pad_range (Z.of_nat (length c)) ltac:(lia)). rewrite length_take, Hpl. lia. }
  assert (Hd : take (Z.to_nat (Z.of_nat (length c) + Z.land (Z.of_nat (length c)) 1))
      (edit later offset (Z.of_nat (length c)) (drop 2 (response s1))) = d).
  { assert (Hpad : take (length (with_pad c)) (pad (Z.of_nat (length c)) (drop 2 (response s1))) = with_pad c).
    { rewrite Hpl, take_pad by (rewrite ?length_drop; lia). by rewrite Ht. }
    rewrite <- Hpl. subst d. unfold edit. destruct (offset =? 0); [|done].
    unfold staged. rewrite !take_app, length_replicate. f_equal.
    rewrite <- Hpad at 3. rewrite skipn_firstn_comm, take_take. f_equal. lia. }
  rewrite Hd, Hm1. destruct (flash_write_ok m0 (mem s) bs d) as (m' & Hwr & Hm'); [done| | |].
  - rewrite <- Hd. by apply Forall_take.
  - subst d. destruct (offset =? 0); [rewrite length_take; lia|done].
  - pose proof (l_high L). pose proof (l_load L). exists m'.
    rewrite wrap_small by (unfold fits; lia). by split_and!.
Qed.

(** The loop over the rest of an image, once the first chunk is stored. *)
Lemma program_rest m0 img xs : serves img xs -> forall fuel s bs size, wf_reader s -> holds m0 (mem s) bs ->
  (0 < length bs)%nat -> script s = xs -> size = Z.of_nat (length bs) + Z.of_nat (length img) ->
  100 <= size -> size + 1 <= SIZE - 1 -> size < Z.of_nat (length bs) + 256 * Z.of_nat fuel ->
  exists s', program_loop LOAD SIZE later fuel size (Z.of_nat (length bs)) s = Ends (FLASH_OK, s') /\
    holds m0 (mem s') (bs ++ with_pad img) /\ fw_word0 s' = fw_word0 s.
Proof using L PL.
  pose proof (l_high L) as Hhigh. pose proof (l_load L) as Hload.
  induction 1 as [c bad xs Hc Hb Hbad|c img bad xs Hc Hne Hb Hbad Hserve IH];
    intros [|fuel] s bs size Hw Hm Hbs Hs Hsize Hmin Hfit Hfuel; try lia; cbn [program_loop]; rewrite percent_nonzero by done.
  - pose proof (with_pad_length c).
    destruct (program_chunk m0 s bs c xs bad Hw Hm ltac:(lia) Hc Hb Hbad Hs)
      as (s1 & m' & -> & Hw1 & Hf1 & Hx1 & Ht & Hwr & Hm').
    cbn [negb Z.eqb UavcanOk]. rewrite Hwr. rewrite (proj2 (Z.eqb_neq (Z.of_nat (length bs)) 0)) in * by lia.
    rewrite wrap_small by (unfold fits; lia). rewrite <- Hsize, (Z.ltb_irrefl size), Z.eqb_refl. cbn [andb Z.eqb FLASH_OK].
    rewrite (proj2 (Z.eqb_neq (Z.of_nat (length c)) 0)) by lia. cbn [negb].
    rewrite Z.eqb_refl. eexists. split; [done|]. by split.
  - rewrite length_app in Hsize. pose proof (with_pad_length c). pose proof (with_pad_length img).
    assert (Hpc : with_pad c = c) by (unfold with_pad; rewrite Hc; cbn; by rewrite app_nil_r).
    assert (Hi : (0 < length img)%nat) by (destruct img; [done|cbn; lia]).
    destruct (program_chunk m0 s bs c xs bad Hw Hm ltac:(lia) ltac:(lia) Hb Hbad Hs)
      as (s1 & m' & -> & Hw1 & Hf1 & Hx1 & Ht & Hwr & Hm').
    cbn [negb Z.eqb UavcanOk]. rewrite Hwr. rewrite (proj2 (Z.eqb_neq (Z.of_nat (length bs)) 0)) in * by lia.
    rewrite wrap_small by (unfold fits; lia). rewrite Hc. unfold sizeof_Read_data.
    rewrite (proj2 (Z.ltb_lt _ _)) by lia. cbn [Z.of_nat Z.eqb Pos.eqb andb FLASH_OK].
    rewrite Hpc in Hm'. rewrite with_pad_more, app_assoc by done.
    replace (Z.of_nat (length bs) + Z.of_nat 256) with (Z.of_nat (length (bs ++ c))) by (rewrite length_app; lia).
    set (s2 := Reader m' _ _ _ _ _ _).
    assert (Hw2 : wf_reader s2).
    { destruct Hw1 as (Hrl & Hrb & Hrs). unfold wf_reader. cbn [s2 response script].
      destruct (edit_wf (Z.of_nat (length bs)) (Z.of_nat 256) (drop 2 (response s1))) as [Hel Heb];
        [rewrite length_drop; lia|by apply Forall_drop|].
      rewrite length_app, length_take, Hel. split; [lia|]. split; [|done].
      apply Forall_app. split; [by apply Forall_take|done]. }
    destruct (IH fuel s2 (bs ++ c) size Hw2 Hm' ltac:(rewrite length_app; lia) Hx1
      ltac:(rewrite length_app; lia) Hmin Hfit ltac:(rewrite length_app; lia)) as (s' & -> & Hm2 & Hf2).
    exists s'. split; [done|]. split; [done|]. cbn [s2 fw_word0] in Hf2. congruence.
Qed.

Lemma staged_length c : laterb <= Z.of_nat (length c) -> length (staged c) = length (with_pad c).
Proof using L.
  intros Hc. pose proof (with_pad_length c). unfold staged.
  rewrite length_app, length_replicate, length_drop. lia.
Qed.

Lemma staged_more c img : laterb <= Z.of_nat (length c) -> length c = 256%nat ->
  staged c ++ with_pad img = staged (c ++ img).
Proof using.
  clear L. intros Hl Hc. unfold staged. rewrite with_pad_more by done. rewrite <- app_assoc. f_equal.
  rewrite drop_app_le by lia. f_equal. f_equal. unfold with_pad. rewrite Hc. cbn. by rewrite app_nil_r.
Qed.

Lemma kept_first c data : laterb <= Z.of_nat (length c) -> (length c <= 256)%nat -> length data = 256%nat ->
  take (length c) data = c ->
  take (Z.to_nat laterb) (pad (Z.of_nat (length c)) data) = take (Z.to_nat laterb) c.
Proof using.
  clear L. intros Hl Hc Hd Ht. rewrite <- Ht at 2. rewrite take_take, Nat.min_l by lia. unfold pad.
  destruct (Z.odd _); [|done]. rewrite take_insert_ge by lia. done.
Qed.

Lemma program_image m0 img xs m1 words tr : serves img xs -> Forall wf_exchange xs -> holds m0 m1 [] ->
  100 <= Z.of_nat (length img) -> Z.of_nat (length img) + 1 <= SIZE - 1 ->
  exists s', file_read_and_program LOAD SIZE later (Z.of_nat (length img)) m1 words xs tr = Ends (FLASH_OK, s') /\
    holds m0 (mem s') (staged img) /\ fw_word0 s' = take (Z.to_nat laterb) img.
Proof using L PL.
  intros Hserve Hxs Hm Hmin Hfit. unfold file_read_and_program, sizeof_Read_data.
  pose proof (l_high L) as Hhigh. pose proof (l_load L) as Hload. pose proof laterb_range as Hlr.
  set (s := Reader m1 words (replicate 258 0) 0 xs tr 0).
  assert (Hw : wf_reader s) by (split; [done|]; split; [apply Forall_replicate; fits_const|done]).
  assert (Hfuel : Z.of_nat (length img) < 256 * Z.of_nat (S (Z.to_nat (Z.of_nat (length img) / 256)))).
  { pose proof (Z.mul_succ_div_gt (Z.of_nat (length img)) 256 ltac:(lia)).
    rewrite Nat2Z.inj_succ, Z2Nat.id by (apply Z.div_pos; lia). lia. }
  revert Hfuel. generalize (Z.to_nat (Z.of_nat (length img) / 256)). intros fuel Hfuel.
  cbn [program_loop]. rewrite percent_nonzero by done. assert (Hlater : laterb <= Z.of_nat (length img)) by lia.
  destruct Hserve as [c bad xs Hc Hb Hbad|c img bad xs Hc Hne Hb Hbad Hserve].
  - pose proof (with_pad_length c).
    destruct (program_chunk m0 s [] c xs bad Hw Hm ltac:(cbn; lia) Hc Hb Hbad eq_refl)
      as (s1 & m' & Hrd & Hw1 & Hf1 & Hx1 & Ht & Hwr & Hm').
    change (Z.of_nat (length (@nil Z))) with 0 in Hrd, Hwr, Hm'. rewrite Hrd. cbn [negb Z.eqb UavcanOk]. rewrite Hwr.
    rewrite Z.add_0_l, wrap_small by (unfold fits; lia).
    rewrite Z.ltb_irrefl, Z.eqb_refl, (proj2 (Z.eqb_neq (Z.of_nat (length c)) 0)) by lia.
    cbn [andb negb Z.eqb FLASH_OK]. rewrite Z.eqb_refl. eexists. split; [done|]. cbn [mem fw_word0]. split.
    + cbn [Z.eqb app] in Hm'. rewrite <- staged_length, firstn_all in Hm' by done. exact Hm'.
    + destruct Hw1 as (Hrl & _). apply kept_first; [done|lia|rewrite length_drop; lia|done].
  - rewrite length_app in *. pose proof (with_pad_length img).
    assert (Hpc : with_pad c = c) by (unfold with_pad; rewrite Hc; cbn; by rewrite app_nil_r).
    assert (Hi : (0 < length img)%nat) by (destruct img; [done|cbn; lia]).
    destruct (program_chunk m0 s [] c xs bad Hw Hm ltac:(rewrite Hpc; cbn; lia) ltac:(lia) Hb Hbad eq_refl)
      as (s1 & m' & Hrd & Hw1 & Hf1 & Hx1 & Ht & Hwr & Hm').
    change (Z.of_nat (length (@nil Z))) with 0 in Hrd, Hwr, Hm'. rewrite Hrd. cbn [negb Z.eqb UavcanOk]. rewrite Hwr.
    rewrite Z.add_0_l, wrap_small by (unfold fits; lia). unfold sizeof_Read_data.
    rewrite (proj2 (Z.ltb_lt _ _)) by lia. rewrite (proj2 (Z.eqb_eq (Z.of_nat (length c)) 256)) by lia.
    cbn [andb Z.eqb FLASH_OK]. set (s2 := Reader m' _ _ _ _ _ _).
    cbn [Z.eqb app] in Hm'. rewrite <- staged_length, firstn_all in Hm' by lia.
    assert (Hsl : length (staged c) = 256%nat) by (rewrite staged_length by lia; by rewrite Hpc).
    assert (Hw2 : wf_reader s2).
    { destruct Hw1 as (Hrl & Hrb & Hrs). unfold wf_reader. cbn [s2 response script].
      destruct (edit_wf 0 (Z.of_nat (length c)) (drop 2 (response s1))) as [Hel Heb];
        [rewrite length_drop; lia|by apply Forall_drop|].
      rewrite length_app, length_take, Hel. split; [lia|]. split; [|done].
      apply Forall_app. split; [by apply Forall_take|done]. }
    destruct (program_rest m0 img xs Hserve fuel s2 (staged c) (Z.of_nat (length c + length img)) Hw2 Hm'
      ltac:(lia) Hx1 ltac:(lia) ltac:(lia) ltac:(lia) ltac:(lia)) as (s' & Hrun & Hm2 & Hf2).
    rewrite Hsl in Hrun. rewrite Hc in Hrun |- *. rewrite Hrun. exists s'. split; [done|]. split.
    + by rewrite <- staged_more by lia.
    + rewrite Hf2. cbn [s2 fw_word0]. destruct Hw1 as (Hrl & _).
      rewrite kept_first by (rewrite ?length_drop; (done || lia)). by rewrite take_app_le by lia.
Qed.

(** The first two words of an image, its stack pointer and entry point. *)
Definition image_word (i : nat) (img : list Z) : Z := le_value (take 4 (drop (4 * i) img)).

Lemma holds_word m0 m img i : holds m0 m (with_pad img) -> (4 * i + 4 <= length img)%nat ->
  Z.of_nat (length img) < SIZE -> Forall is_byte img -> pm_word m (LOAD + 4 * Z.of_nat i) = image_word i img.
Proof using L.
  intros Hh Hi Hs Hb.
  assert (Hx : forall k, (k < 4)%nat -> pm_byte m (LOAD + 4 * Z.of_nat i + Z.of_nat k) = zat img (Z.of_nat (4 * i + k))).
  { intros k Hk. rewrite Hh, (proj2 (in_rangeP _ _ _)) by lia. pose proof (with_pad_length img).
    rewrite (proj2 (Z.ltb_lt _ _)) by lia. unfold with_pad. rewrite zat_app_l by lia. f_equal. lia. }
  pose proof (Hx 0%nat ltac:(lia)) as H0. rewrite Z.add_0_r in H0. unfold pm_word.
  rewrite H0. change 1 with (Z.of_nat 1). change 2 with (Z.of_nat 2). change 3 with (Z.of_nat 3).
  rewrite !Hx by lia. unfold image_word.
  destruct (drop (4 * i) img) as [|b0 [|b1 [|b2 [|b3 l]]]] eqn:E;
    try (apply (f_equal length) in E; rewrite length_drop in E; cbn in E; lia).
  assert (Hz : forall k, zat img (Z.of_nat (4 * i + k)) = default 0 (drop (4 * i) img !! k)).
  { intros k. unfold zat. by rewrite nth_lookup, Nat2Z.id, lookup_drop. }
  rewrite !Hz, E. done.
Qed.

(** C13 (functional). A file server that serves an image of at least 100 bytes gets it installed:
    if it announces the file and answers every read, each after at most two failed attempts,
    and the image passes its CRCs as staged, then the update ends in a boot and the application
    area holds exactly the image, followed by erased flash; and when the stack pointer of the
    image is not blank and its entry point lies in the area of the size that [application_run]
    is given, that function starts the image there. *)
Theorem can_update_installs gr img xs m words tr :
  let n := Z.of_nat (length img) in
  serves img xs -> Forall wf_exchange xs -> Forall is_byte img ->
  100 <= n -> n < LENGTH -> n + 1 <= SIZE - 1 ->
  (forall m1, holds m m1 (staged img) ->
     is_app_valid LOAD SIZE later (take (Z.to_nat laterb) img) m1 = true) ->
  exists s, firmware_update LOAD SIZE LENGTH later gr
      (Exchange UavcanOk UavcanOk (le_bytes 4 n ++ [0; 0; 0; ENTRY_TYPE_FLAG_FILE]) :: xs) m words tr
    = Ends (Boot, s) /\ holds m (mem s) (with_pad img) /\
    forall sz, image_word 0 img <> 0xffffffff -> LOAD < image_word 1 img < u32 (LOAD + sz) ->
      application_run LOAD sz (mem s) = Some (image_word 0 img, image_word 1 img).
Proof using L PL.
  intros n Hserve Hxs Hbytes Hmin Hmax Hfit Hvalid.
  enough (exists s, firmware_update LOAD SIZE LENGTH later gr
      (Exchange UavcanOk UavcanOk (le_bytes 4 n ++ [0; 0; 0; ENTRY_TYPE_FLAG_FILE]) :: xs) m words tr
    = Ends (Boot, s) /\ holds m (mem s) (with_pad img)) as (s & E & Hs).
  { exists s. split; [done|]. split; [done|]. intros sz H0 [H1 H2]. unfold application_run.
    replace (pm_word (mem s) LOAD) with (image_word 0 img)
      by (rewrite <- (holds_word m (mem s) img 0 Hs) by (done || lia); f_equal; lia).
    pose proof (holds_word m (mem s) img 1 Hs ltac:(lia) ltac:(lia) Hbytes) as Hw1.
    change (4 * Z.of_nat 1) with 4 in Hw1. rewrite Hw1.
    rewrite (proj2 (Z.eqb_neq _ _)), Z.gtb_ltb, !(proj2 (Z.ltb_lt _ _)) by done. done. }
  unfold firmware_update, file_getinfo, UavcanServiceRetries.
  unfold sizeof_app_descriptor in *. pose proof laterb_range as Hlr. pose proof (l_high L). pose proof (l_load L).
  assert (Hn : fits 32 n) by (unfold fits; lia).
  cbn [getinfo_loop next tx_status rx_status rx_bytes Z.eqb UavcanOk]. unfold receive.
  set (resp := (le_bytes 4 n ++ _) ++ _).
  assert (Hsz : le_value (take 4 resp) = n).
  { subst resp. rewrite <- app_assoc, take_app_length' by done. by apply le_value_bytes. }
  rewrite Hsz. assert (Herr : le_value (take 2 (drop 5 resp)) = 0) by done.
  assert (Hfl : zat resp 7 = 1) by done. rewrite Herr, Hfl.
  cbn [andb Z.eqb FILE_ERROR_OK]. change (has_any 1 (Z.lor ENTRY_TYPE_FLAG_FILE ENTRY_TYPE_FLAG_READABLE)) with true.
  cbn [andb]. rewrite Z.gtb_ltb, (proj2 (Z.ltb_lt 0 n)), (proj2 (Z.ltb_lt n LENGTH)) by lia. cbn [andb].
  rewrite (proj2 (Z.ltb_ge n 36)) by lia.
  destruct (flash_erase_ok m) as (m1 & -> & Hm1). cbn [negb Z.eqb FLASH_OK].
  destruct (program_image m img xs m1 words
    ((tr ++ [Indicate fw_update_start]) ++ [Log STAGE_ERASE RESULT_START]) Hserve Hxs Hm1 ltac:(lia) Hfit)
    as (s & Hrun & Hs & Hf). fold n in Hrun. rewrite Hrun. cbn [negb Z.eqb FLASH_OK]. rewrite Hf, (Hvalid _ Hs). cbn [negb].
  assert (Hbl : blank_head (staged img)).
  { intros i Hi _. unfold staged. rewrite zat_app_l by (rewrite length_replicate; lia). apply zat_replicate. lia. }
  destruct (commit_ok m (mem s) (staged img) (take (Z.to_nat laterb) img) Hs Hbl) as (m2 & -> & Hc);
    [rewrite length_take; lia|by apply Forall_take|]. cbn [negb Z.eqb FLASH_OK].
  eexists. split; [done|]. cbn [mem]. intros x. rewrite Hc, Hs, staged_length by lia.
  pose proof (with_pad_length img). unfold in_range.
  destruct (Z.leb_spec LOAD x), (Z.ltb_spec x (LOAD + laterb)), (Z.ltb_spec x (LOAD + SIZE)); cbn [andb]; try done; try lia.
  - rewrite zat_take by lia. rewrite (proj2 (Z.ltb_lt _ _)) by lia. unfold with_pad. by rewrite zat_app_l by lia.
  - destruct (Z.ltb_spec (x - LOAD) (Z.of_nat (length (with_pad img)))); [|done].
    unfold staged. rewrite zat_app_r by (rewrite length_replicate; lia). rewrite length_replicate.
    unfold zat. rewrite !nth_lookup, lookup_drop. do 2 f_equal. lia.
Qed.

(** An empty response at the end of the file counts as two bytes: when the server
    answers a read with no data and no error, the length is left at that of the error code, two
    stale bytes of the previous response are programmed, and a file that ends two bytes short of
    its announced size is taken as complete. *)
Theorem can_update_empty_read_accepted m0 fuel bs s xs size : wf_reader s -> holds m0 (mem s) bs ->
  (0 < length bs)%nat -> size = Z.of_nat (length bs) + 2 -> 100 <= size -> size <= SIZE - 1 ->
  script s = Exchange UavcanOk UavcanOk [0; 0] :: xs ->
  exists s', program_loop LOAD SIZE later (S fuel) size (Z.of_nat (length bs)) s = Ends (FLASH_OK, s') /\
    holds m0 (mem s') (bs ++ take 2 (drop 2 (response s))).
Proof using L PL.
  intros (Hrl & Hrb & Hrs) Hm Hbs Hsize Hmin Hfit Hs. pose proof (l_high L). pose proof (l_load L).
  cbn [program_loop UavcanServiceRetries read_attempts]. rewrite percent_nonzero by done. unfold read_request. rewrite Hs.
  cbn [next tx_status rx_status rx_bytes Z.eqb UavcanOk negb length]. unfold sizeof_Read_error.
  change (Z.of_nat 2 >? 2) with false. cbn [response].
  change (le_value (take 2 (receive [0; 0] (response s))) =? FILE_ERROR_OK) with true.
  cbn [negb Z.eqb UavcanOk]. change (Z.of_nat 2) with 2.
  rewrite (proj2 (Z.eqb_neq (Z.of_nat (length bs)) 0)) by lia.
  set (d := drop 2 (response s)).
  assert (Hd : take (Z.to_nat (2 + Z.land 2 1)) (edit later (Z.of_nat (length bs)) 2
      (drop 2 (receive [0; 0] (response s)))) = take 2 d).
  { unfold edit. by rewrite (proj2 (Z.eqb_neq (Z.of_nat (length bs)) 0)) by lia. }
  cbn [response mem fw_word0]. rewrite Hd.
  assert (Hdl : length (take 2 d) = 2%nat) by (subst d; rewrite length_take, length_drop, Hrl; done).
  destruct (flash_write_ok m0 (mem s) bs (take 2 d)) as (m' & Hwr & Hm');
    [done|by apply Forall_take, Forall_drop|rewrite Hdl; lia|].
  rewrite (wrap_small 32 (LOAD + _)) by (unfold fits; lia). rewrite Hwr.
  rewrite wrap_small by (unfold fits; lia). rewrite <- Hsize, (Z.ltb_irrefl size), Z.eqb_refl.
  cbn [andb Z.eqb FLASH_OK negb]. rewrite Z.eqb_refl. eexists. split; [done|]. exact Hm'.
Qed.

(** What [is_app_valid] says depends on the bytes only. *)
Lemma same_mem_bytes (m m' : M) a n : (forall x, pm_byte m x = pm_byte m' x) -> mem_bytes m a n = mem_bytes m' a n.
Proof using. clear L. intros H. unfold mem_bytes. apply map_ext. intros i. apply H. Qed.

Lemma same_word (m m' : M) a : (forall x, pm_byte m x = pm_byte m' x) -> pm_word m a = pm_word m' a.
Proof using. clear L. intros H. unfold pm_word. by rewrite !H. Qed.

Lemma find_from_ext (m m' : M) n : forall p, (forall x, pm_byte m x = pm_byte m' x) ->
  find_from LOAD SIZE n p m = find_from LOAD SIZE n p m'.
Proof using.
  clear L. induction n as [|n IH]; intros p H; cbn [find_from]; rewrite (same_mem_bytes m m') by done; [done|].
  by rewrite IH.
Qed.

Lemma is_app_valid_ext ws (m m' : M) : (forall x, pm_byte m x = pm_byte m' x) ->
  is_app_valid LOAD SIZE later ws m = is_app_valid LOAD SIZE later ws m'.
Proof using.
  clear L. intros H. unfold is_app_valid, find_descriptor. rewrite (find_from_ext m m') by done.
  destruct (find_from _ _ _ _ m') as [d|]; [|done].
  unfold image_size, crc32_block1, crc32_block2. rewrite !(same_word m m'), !(same_mem_bytes m m') by done. done.
Qed.

End Spec.

(** ** Witnesses: a flash of eight blocks of 64 bytes, the first of them the bootloader's *)

Definition demo_geometry : SimFlash.geometry :=
  {| SimFlash.g_base := 0x8000; SimFlash.g_blocks := 8; SimFlash.g_block := 64 |}.
Definition demo_mem : Type := SimFlash.mem demo_geometry.
Definition demo_load : Z := 0x8040.
Definition demo_size : Z := 448.

#[local] Instance demo_progmem : ProgMem demo_mem := SimFlash.sim_progmem demo_geometry.
#[local] Instance demo_laws : ProgMemLaws demo_mem := SimFlash.sim_laws demo_geometry.

Lemma demo_layout : layout (M := demo_mem) demo_load demo_size demo_size 1.
Proof.
  split; first [lia | by vm_compute | vm_compute; split; congruence].
Qed.

(** The flash at first: an old image in the application area. *)
Definition demo_flash : demo_mem := replicate 512 0x5a.

(** An image of 120 bytes: stack pointer, entry point, descriptor and some code. *)
Definition demo_head : list Z := le_bytes 4 0x20001000 ++ le_bytes 4 0x8061 ++ APP_DESCRIPTOR_SIGNATURE.
Definition demo_tail : list Z := map Z.of_nat (seq 1 88).
Definition demo_image : list Z := Eval vm_compute in
  demo_head ++ le_bytes 4 (Crc.crc32_signature 0 demo_head) ++ le_bytes 4 (Crc.crc32_signature 0 demo_tail) ++
  le_bytes 4 120 ++ le_bytes 4 0xcafe ++ demo_tail.

Definition demo_script : list exchange := [silent; answers demo_image].

Lemma demo_serves : serves demo_image demo_script.
Proof. apply (serves_last demo_image [silent] []); [cbn; lia|cbn; lia|]. apply List.Forall_cons; [by right|apply List.Forall_nil]. Qed.

Ltac forall_bytes := repeat (apply List.Forall_cons; [fits_const|]); apply List.Forall_nil.

Lemma demo_image_bytes : Forall is_byte demo_image.
Proof. forall_bytes. Qed.

Lemma demo_script_wf : Forall wf_exchange demo_script.
Proof.
  apply List.Forall_cons; [split; [apply List.Forall_nil|cbn; lia]|].
  apply List.Forall_cons; [|apply List.Forall_nil]. split; [|cbn; lia].
  cbn [answers rx_bytes app]. do 2 (apply List.Forall_cons; [fits_const|]). apply demo_image_bytes.
Qed.

(** A flash with given contents of the application area. *)
Definition demo_with (bs : list Z) : demo_mem :=
  SimFlash.sim_make demo_geometry (fun x =>
    if in_range demo_load demo_size x then
      (if x - demo_load <? Z.of_nat (length bs) then u8 (zat bs (x - demo_load)) else 0xff)
    else SimFlash.sim_byte demo_geometry demo_flash x).

Lemma demo_with_holds bs : Forall is_byte bs -> holds demo_load demo_size demo_flash (demo_with bs) bs.
Proof.
  intros Hb x. unfold demo_with.
  change (pm_byte ?m x) with (SimFlash.sim_byte demo_geometry m x). rewrite SimFlash.sim_byte_make.
  - destruct (in_range demo_load demo_size x) eqn:Hr; [|done]. apply in_rangeP in Hr.
    destruct (Z.ltb_spec (x - demo_load) (Z.of_nat (length bs))); [|done].
    apply wrap_small. rewrite Forall_forall in Hb. apply Hb, list_elem_of_In, nth_In. lia.
  - intros y. destruct (in_range _ _ y); [|apply SimFlash.sim_byte_range].
    destruct (_ <? _); [apply wrap_fits; lia|fits_const].
  - intros Hx. destruct (in_range demo_load demo_size x) eqn:Hr.
    + apply in_rangeP in Hr. unfold demo_load, demo_size in Hr.
      rewrite (proj2 (in_rangeP _ _ _)) in Hx; [done|]. cbn. unfold SimFlash.sim_size. cbn. lia.
    + unfold SimFlash.sim_byte. by rewrite Hx.
Qed.

Lemma demo_valid m1 : holds demo_load demo_size demo_flash m1 (staged 1 demo_image) ->
  is_app_valid demo_load demo_size 1 (take (Z.to_nat (later_bytes 1)) demo_image) m1 = true.
Proof.
  intros Hh. rewrite (is_app_valid_ext demo_load demo_size 1 _ m1 (demo_with (staged 1 demo_image))).
  - vm_compute. reflexivity.
  - intros x. rewrite Hh. symmetry. apply demo_with_holds. forall_bytes.
Qed.

Definition demo_exchanges (size : Z) : list exchange :=
  Exchange UavcanOk UavcanOk (le_bytes 4 size ++ [0; 0; 0; 1]) :: demo_script.

Definition demo_outcome (size : Z) : option outcome :=
  match firmware_update demo_load demo_size demo_size 1 [] (demo_exchanges size) demo_flash [] [] with
  | Ends (o, _) => Some o | _ => None
  end.

(** The update with the announced file boots; with a wrong size it fails and nothing can be
    started. *)
Lemma can_update_safe_witness :
  exists s s', firmware_update demo_load demo_size demo_size 1 [] (demo_exchanges 120) demo_flash [] [] = Ends (Boot, s) /\
    (exists m1, is_app_valid demo_load demo_size 1 (fw_word0 s) m1 = true /\
       (forall sz, application_run demo_load sz m1 = None) /\ committed demo_load 1 m1 (mem s) (fw_word0 s)) /\
    firmware_update demo_load demo_size demo_size 1 [] (demo_exchanges 300) demo_flash [] [] = Ends (Failure STAGE_PROGRAM, s') /\
    (forall sz, application_run demo_load sz (mem s') = None).
Proof.
  assert (forall size, Forall wf_exchange (demo_exchanges size)) as W.
  { intros size. apply List.Forall_cons; [|exact demo_script_wf]. split.
    - apply Forall_app. split; [apply le_bytes_byte|forall_bytes].
    - cbn [rx_bytes]. rewrite length_app, le_bytes_length. cbn. lia. }
  pose proof (can_update_safe demo_load demo_size demo_size 1 demo_layout [] (demo_exchanges 120) demo_flash [] []
    (W 120)) as H1.
  pose proof (can_update_safe demo_load demo_size demo_size 1 demo_layout [] (demo_exchanges 300) demo_flash [] []
    (W 300)) as H2.
  assert (demo_outcome 120 = Some Boot) as O1 by (vm_compute; reflexivity).
  assert (demo_outcome 300 = Some (Failure STAGE_PROGRAM)) as O2 by (vm_compute; reflexivity).
  unfold demo_outcome in O1, O2.
  destruct (firmware_update _ _ _ _ _ (demo_exchanges 120) _ _ _) as [[o1 s1]| |]; [|discriminate..].
  destruct (firmware_update _ _ _ _ _ (demo_exchanges 300) _ _ _) as [[o2 s2]| |]; [|discriminate..].
  injection O1 as ->. injection O2 as ->.
  exists s1, s2. split; [reflexivity|]. split; [exact (proj2 H1)|]. split; [reflexivity|exact (proj2 H2)].
Defined.

Lemma can_update_installs_witness :
  exists s, firmware_update demo_load demo_size demo_size 1 [] (demo_exchanges 120) demo_flash [] [] = Ends (Boot, s) /\
    holds demo_load demo_size demo_flash (mem s) (with_pad demo_image) /\
    application_run demo_load 120 (mem s) = Some (0x20001000, 0x8061).
Proof.
  destruct (can_update_installs demo_load demo_size demo_size 1 demo_layout [] demo_image demo_script demo_flash [] []
    demo_serves demo_script_wf demo_image_bytes) as (s & E & H & R);
    [by vm_compute|by vm_compute|by vm_compute|exact demo_valid|].
  exists s. split; [exact E|]. split; [exact H|].
  apply (R 120); [vm_compute; discriminate|vm_compute; split; reflexivity].
Defined.

(** After 128 bytes of a file of 130 the server has no more. *)
Definition demo_reader : reader demo_mem :=
  Reader (demo_with (repeat 7 128)) [7; 7; 7; 7] (0 :: 0 :: repeat 7 256) 1
    [Exchange UavcanOk UavcanOk [0; 0]] [] 96.

Lemma can_update_empty_read_accepted_witness :
  exists s', program_loop demo_load demo_size 1 1 130 128 demo_reader = Ends (FLASH_OK, s') /\
    holds demo_load demo_size demo_flash (mem s') (repeat 7 128 ++ [7; 7]).
Proof.
  apply (can_update_empty_read_accepted demo_load demo_size demo_size 1 demo_layout demo_flash 0 (repeat 7 128)
    demo_reader [] 130).
  - split; [reflexivity|]. split; [forall_bytes|]. apply List.Forall_cons; [|apply List.Forall_nil].
    split; [forall_bytes|cbn; lia].
  - apply demo_with_holds. forall_bytes.
  - cbn; lia.
  - reflexivity.
  - by vm_compute.
  - by vm_compute.
  - reflexivity.
Defined.

End CanUpdateSpec.
