(* ===== verification/CanBoot.v ===== *)
(** * The CAN bootloader's main program up to the update

    src/platforms/nuttx/src/canbootloader/uavcan/main.c: the node status and node info
    processes, dynamic node id allocation, the wait for an update request, and the boot
    policy of [main]; with the random numbers of util/random.c.  Timers and the bus are the
    environment: each wait of the code meets a list of answers, which say what was received
    and whether the clock had run out; an answer of the clock counts only while the timer
    runs. *)

From S2P Require Import Prelude BitFields Crc ProgMem BlTimer TimerIface Uavcan CanUpdate.

Local Open Scope Z_scope.

Module CanBoot.
Import Uavcan(ANY_NODE_ID, CAN_OK, UavcanOk, UavcanError, UavcanBootTimeout, uavcan_pack).

Definition CAN_BOOT_TIMEOUT : Z := 1.
Definition CAN_UNDEFINED : Z := 999.

(** ** util/random.c *)

Definition RAND_MAX_32 : Z := Z.shiftl 1 31 - 1.

Definition util_srand (seed : Z) : Z := u16 seed.

(** The random number and the new seed. *)
Definition util_random (min max rseed : Z) : Z * Z :=
  let rseed := Z.land (u32 (rseed * 214013 + 2531011)) RAND_MAX_32 in
  let rand := u16 (Z.shiftr rseed 16) in
  (u16 (Z.rem rand (max - min) + min), rseed).

(** ** The status of the node *)

Definition HEALTH_OK : Z := 0.
Definition HEALTH_CRITICAL : Z := 3.
Definition MODE_INITIALIZATION : Z := 1.
Definition MODE_SOFTWARE_UPDATE : Z := 3.

Definition NodeStatussub_mode := Field 0 3.
Definition NodeStatusmode := Field 3 3.
Definition NodeStatushealth := Field 6 2.

Record status := Status { uptime : Z; health : Z; mode : Z; sub_mode : Z; percentage_done : Z }.

Definition uptime_process (s : status) : status :=
  Status (u32 (uptime s + 1)) (health s) (mode s) (sub_mode s) (percentage_done s).

Definition status_byte (s : status) : Z :=
  u8 (Z.lor (Z.lor (uavcan_pack NodeStatussub_mode (sub_mode s)) (uavcan_pack NodeStatusmode (mode s)))
            (uavcan_pack NodeStatushealth (health s))).

(** [uavcan_NodeStatus_t] as the bytes that are sent. *)
Definition node_status (s : status) (vendor_specific_status_code : Z) : list Z :=
  le_bytes 4 (uptime s) ++ [status_byte s] ++ le_bytes 2 vendor_specific_status_code.

(** The static transfer id and the bus afterwards; [protocol] is the uninitialised local. *)
Definition node_status_process (mailbox_free : nat -> bool) (g : Uavcan.node) (transfer_id : Z)
    (protocol : Uavcan.uavcan_protocol_t) (s : status) (b : Uavcan.bus) : Z * Uavcan.bus :=
  let protocol := Uavcan.set_tail Uavcan.UavCanTransferID transfer_id protocol in
  let '(_, _, b) := Uavcan.uavcan_tx_dsdl mailbox_free g Uavcan.DSDLMsgNodeStatus protocol
                      (node_status s (percentage_done s)) b in
  (u8 (transfer_id + 1), b).

(** The version fields of the response: zero unless the application is valid. *)
Definition software_version {M} `{ProgMem M} (app : option Z) (m : M) : list Z :=
  match app with
  | Some d => [pm_byte m (d + 24); pm_byte m (d + 25); 3] ++
              CanUpdate.mem_bytes m (d + 20) 4 ++ CanUpdate.mem_bytes m (d + 8) 8
  | None => repeat 0 15
  end.

(** [node_info_process]: whether the response was sent.  [rx] is the outcome of the passive
    attempt to receive a request: the protocol with the requester's node id. *)
Definition node_info_process {M} `{ProgMem M} (mailbox_free : nat -> bool) (g : Uavcan.node)
    (s : status) (app : option Z) (m : M) (hardware_version name : list Z)
    (certificate_length : Z) (rx : option Uavcan.uavcan_protocol_t) (b : Uavcan.bus) : bool * Uavcan.bus :=
  let response := node_status s 0 ++ software_version app m ++ hardware_version ++ name in
  let '(response, send_length) := Uavcan.uavcan_pack_GetNodeInfo_response response name certificate_length
                                    (Z.of_nat (length name)) in
  match rx with
  | None => (false, b)
  | Some protocol =>
      let '(rv, _, b) := Uavcan.uavcan_tx_dsdl mailbox_free g Uavcan.DSDLRspGetNodeInfo protocol
                           (take (Z.to_nat send_length) response) b in
      (rv =? UavcanOk, b)
  end.

(** ** Dynamic node id allocation *)

Definition MIN_REQUEST_PERIOD_MS : Z := 600.
Definition MAX_REQUEST_PERIOD_MS : Z := 1400.
Definition MIN_FOLLOWUP_DELAY_MS : Z := 0.
Definition MAX_FOLLOWUP_DELAY_MS : Z := 400.
Definition unique_id_bytes : nat := 16.

Inductive alloc_action :=
  | SendRequest (node_id offset : Z)          (* [uavcan_tx_allocation_message] *)
  | RestartRequest (ms : Z)                   (* [timer_restart(trequest, ms)] *)
  | Listen (capacity ms : Z).                 (* the follow-up delay of rule D *)

(** What one attempt to receive an Allocation message meets: the request timer before it, the
    message (source node and bytes), an Allocation message heard during the follow-up delay,
    and tBoot after it. *)
Record reception := Reception {
  due : bool;
  got : option (Z * list Z);
  overheard : bool;
  late : bool;
}.

Record alloc := Alloc {
  rseed : Z;
  server_node_id : Z;
  message : list Z;                           (* [server.allocation_message] *)
  actions : list alloc_action;
}.

Definition act (a : alloc_action) (s : alloc) : alloc :=
  Alloc (rseed s) (server_node_id s) (message s) (actions s ++ [a]).

Definition restart_request (s : alloc) : alloc :=
  let '(ms, seed) := util_random MIN_REQUEST_PERIOD_MS MAX_REQUEST_PERIOD_MS (rseed s) in
  act (RestartRequest ms) (Alloc seed (server_node_id s) (message s) (actions s)).

(** The label [restart]. *)
Definition restart (s : alloc) : alloc :=
  let s := restart_request s in Alloc (rseed s) ANY_NODE_ID (message s) (actions s).

(** The number of leading bytes on which two lists agree, among the first [n]. *)
Fixpoint count_match (n : nat) (l l' : list Z) : nat :=
  match n, l, l' with
  | S n, x :: l, y :: l' => if x =? y then S (count_match n l l') else O
  | _, _, _ => O
  end.

Section Allocation.
Variable unique_id : list Z.                  (* [hw_version.unique_id] *)
Variable mfguid_length : nat.                 (* what [board_get_hardware_version] returns *)
Variable preferred : Z.                       (* the caller's [*allocated_node_id] *)
Variable tboot_running : bool.

(** Each element of the list is one call of [uavcan_rx_dsdl] at the top of the loop;
    [restarting] tells that it was reached by [goto restart].  The result is the node id when
    the loop is left, [None] while it runs. *)
Fixpoint alloc_loop (es : list reception) (restarting : bool) (s : alloc) : option (Z * alloc) :=
  match es with
  | [] => None
  | e :: es =>
      let s := if restarting then restart s
               else if due e then restart (act (SendRequest preferred 0) s) else s in
      let again (s : alloc) :=
        if tboot_running && late e then Some (preferred, s) else alloc_loop es false s in
      match got e with
      | None => again s
      | Some (source, bytes) =>
          let s := Alloc (rseed s) (server_node_id s) (CanUpdate.receive bytes (message s)) (actions s) in
          let rx_len := u32 (Z.of_nat (length bytes) - 1) in
          let s := restart_request s in
          if source =? ANY_NODE_ID then again s
          else
            let s := if server_node_id s =? 0 then Alloc (rseed s) source (message s) (actions s) else s in
            let max_compare := if Z.of_nat unique_id_bytes >? rx_len then rx_len else Z.of_nat unique_id_bytes in
            let matched := Z.of_nat (count_match (Z.to_nat max_compare) unique_id (drop 1 (message s))) in
            if matched <? rx_len then alloc_loop es true s
            else if matched =? Z.of_nat unique_id_bytes then
              Some (BITFEILD_GET Uavcan.Allocationnode_id (zat (message s) 0), s)
            else
              let '(ms, seed) := util_random MIN_FOLLOWUP_DELAY_MS MAX_FOLLOWUP_DELAY_MS (rseed s) in
              let s := act (Listen rx_len ms) (Alloc seed (server_node_id s) (message s) (actions s)) in
              if overheard e then alloc_loop es true s
              else again (act (SendRequest preferred matched) s)
      end
  end.

(** [hrt] is the cycle counter that seeds the random numbers. *)
Definition get_dynamic_node_id (hrt : Z) (es : list reception) : option (Z * Z * alloc) :=
  let random := Crc.crc16_signature (u16 hrt) (take mfguid_length unique_id) in
  let '(_, seed) := util_random MIN_REQUEST_PERIOD_MS MAX_REQUEST_PERIOD_MS (util_srand random) in
  match alloc_loop es false (Alloc seed 0 (repeat 0 17) []) with
  | None => None
  | Some (node_id, s) => Some (if node_id =? ANY_NODE_ID then CAN_BOOT_TIMEOUT else CAN_OK, node_id, s)
  end.
End Allocation.

(** ** Waiting for an update request *)

(** One pass of [wait_for_beginfirmwareupdate]: the clock, then the bytes of a request. *)
Record update_poll := UpdatePoll { clock : bool; request : option (list Z) }.

(** What a request gives: the server's node id, the length of the path and the path. *)
Record fw_request := FwRequest { server_node : Z; fw_path_length : Z; fw_path : list Z }.

(** The request, or [UavcanBootTimeout]; the length of the path is a [size_t]. *)
Fixpoint wait_for_beginfirmwareupdate (tboot_running : bool) (ps : list update_poll)
    : option (Z + fw_request) * list update_poll :=
  match ps with
  | [] => (None, [])
  | p :: ps =>
      if tboot_running && clock p then (Some (inl UavcanBootTimeout), ps)
      else match request p with
           | Some bytes =>
               (Some (inr (FwRequest (zat bytes 0) (u32 (Z.of_nat (length bytes) - 1)) (drop 1 bytes))), ps)
           | None => wait_for_beginfirmwareupdate tboot_running ps
           end
  end.

(** The [do ... while (fw_path_length == 0)] around it. *)
Fixpoint wait_for_path (fuel : nat) (tboot_running : bool) (ps : list update_poll) : option (Z + fw_request) :=
  match fuel with
  | O => None
  | S fuel =>
      match wait_for_beginfirmwareupdate tboot_running ps with
      | (Some (inr r), ps) => if fw_path_length r =? 0 then wait_for_path fuel tboot_running ps else Some (inr r)
      | (Some (inl rv), _) => Some (inl rv)
      | (None, _) => None
      end
  end.

(** ** The boot policy of main *)

Record environment := Env {
  app_valid : bool;                           (* [is_app_valid(bootloader.fw_image)] *)
  wait_for_getnodeinfo : bool;
  shared : option (Z * Z);                    (* what the application left: bus speed, node id *)
  autobaud_clock : bool;                      (* the clock while the bit rate is detected *)
  receptions : list reception;
  info_polls : list (bool * bool);            (* node info sent?, the clock *)
  update_polls : list update_poll;
}.

Inductive decision := GoBoot | GoUpdate (r : fw_request) | StillWaiting.

Section Policy.
Variable unique_id : list Z.
Variable mfguid_length : nat.
Variable OPT_PREFERRED_NODE_ID : Z.
Variable hrt : Z.

Definition app_bl_request (e : environment) : bool :=
  match shared e with Some (bus_speed, node_id) => negb (bus_speed =? 0) && negb (node_id =? 0) | None => false end.

(** [autobaud_and_get_dynamic_node_id]: the result code. *)
Definition autobaud_and_get_dynamic_node_id (e : environment) (tboot_running autobaud_only : bool) : option Z :=
  if tboot_running && autobaud_clock e then Some CAN_BOOT_TIMEOUT
  else if autobaud_only then Some CAN_OK
  else match get_dynamic_node_id unique_id mfguid_length OPT_PREFERRED_NODE_ID tboot_running hrt (receptions e) with
       | Some (rv, _, _) => Some rv
       | None => None
       end.

(** [while (!sent_node_info_response) if (timer_expired(tboot)) goto boot;] *)
Fixpoint wait_info (tboot_running : bool) (ps : list (bool * bool)) : option bool :=
  match ps with
  | [] => None
  | (info_sent, clk) :: ps =>
      if info_sent then Some true
      else if tboot_running && clk then Some false else wait_info tboot_running ps
  end.

(** From the node id on: the node info and the update request. *)
Definition after_node_id (e : environment) (tboot_running : bool) : decision :=
  match wait_info tboot_running (info_polls e) with
  | None => StillWaiting
  | Some false => GoBoot
  | Some true =>
      let tboot_running := tboot_running ||
        (app_valid e && (wait_for_getnodeinfo e || app_bl_request e)) in
      match wait_for_path (S (length (update_polls e))) tboot_running (update_polls e) with
      | None => StillWaiting
      | Some (inl _) => GoBoot
      | Some (inr r) => GoUpdate r
      end
  end.

Definition main (e : environment) : decision :=
  let tboot_running := app_valid e && negb (wait_for_getnodeinfo e) && negb (app_bl_request e) in
  if app_bl_request e then
    match shared e with
    | Some (bus_speed, _) =>
        if bus_speed =? CAN_UNDEFINED then
          match autobaud_and_get_dynamic_node_id e tboot_running true with
          | Some rv => if negb (rv =? CAN_OK) then GoBoot else after_node_id e tboot_running
          | None => StillWaiting
          end
        else after_node_id e tboot_running
    | None => StillWaiting
    end
  else
    match autobaud_and_get_dynamic_node_id e tboot_running false with
    | Some rv =>
        if negb (rv =? CAN_OK) then GoBoot
        else after_node_id e (tboot_running || (app_valid e && negb (wait_for_getnodeinfo e)))
    | None => StillWaiting
    end.
End Policy.

End CanBoot.
