(* ===== verification/CanBootSpec.v ===== *)
(** * Theorems about the CAN bootloader's start

    Node id allocation takes an id only from a message that carries the node's whole unique
    id, and succeeds with a server that follows the protocol; the boot policy boots an
    invalid application only through the one gap the allocation leaves open. *)

From S2P Require Import Prelude BitFields Crc ProgMem BlTimer TimerIface Uavcan UavcanSpec CanUpdate CanBoot.

Local Open Scope Z_scope.

Module CanBootSpec.
Import CanBoot Uavcan(ANY_NODE_ID, CAN_OK).

(** ** Random intervals *)

Lemma util_random_range min max rseed : 0 <= min < max -> max < 2 ^ 16 ->
  min <= fst (util_random min max rseed) < max.
Proof.
  intros Hm Hx. unfold util_random. cbn [fst]. set (r := u16 (Z.shiftr _ 16)).
  assert (Hr : fits 16 r) by (apply wrap_fits; lia). unfold fits in Hr.
  rewrite Z.rem_mod_nonneg by lia. pose proof (Z.mod_pos_bound r (max - min)).
  rewrite wrap_small; [lia|unfold fits; lia].
Qed.

(** ** Matching unique ids *)

Lemma count_match_le n : forall l l', (count_match n l l' <= n)%nat.
Proof.
  induction n as [|n IH]; intros [|x l] [|y l']; cbn; try lia. destruct (x =? y); [|lia]. specialize (IH l l'). lia.
Qed.

Lemma count_match_full n : forall l l', count_match n l l' = n -> take n l = take n l'.
Proof.
  induction n as [|n IH]; intros [|x l] [|y l'] H; cbn in *; try done.
  destruct (Z.eqb_spec x y) as [->|]; [|done]. f_equal. apply IH. lia.
Qed.

Lemma count_match_same n : forall l r, (n <= length l)%nat -> count_match n l (take n l ++ r) = n.
Proof.
  induction n as [|n IH]; intros [|x l] r H; cbn in *; try done; [lia|].
  rewrite Z.eqb_refl. f_equal. apply IH. lia.
Qed.

Section Alloc.
Variable uid : list Z.
Variable preferred : Z.
Variable running : bool.
Hypothesis uid_length : length uid = 16%nat.

Abbreviation loop := (alloc_loop uid preferred running).

(** The offsets of the requests sent so far. *)
Definition requests (s : alloc) : list Z :=
  omap (fun a => match a with SendRequest _ o => Some o | _ => None end) (actions s).

Lemma requests_alloc seed node msg s : requests (Alloc seed node msg (actions s)) = requests s.
Proof. done. Qed.

Lemma requests_act a s : requests (act a s) =
  requests s ++ match a with SendRequest _ o => [o] | _ => [] end.
Proof.
  unfold requests, act. cbn [actions]. rewrite omap_app. f_equal. by destruct a.
Qed.

Lemma restart_request_same s : requests (restart_request s) = requests s /\
  message (restart_request s) = message s /\ server_node_id (restart_request s) = server_node_id s.
Proof.
  unfold restart_request. destruct (util_random _ _ _) as [ms seed]. rewrite requests_act, app_nil_r. done.
Qed.

Lemma restart_same s : requests (restart s) = requests s /\ message (restart s) = message s.
Proof. destruct (restart_request_same s) as (H1 & H2 & _). by split. Qed.

(** Nothing happens: no message, and neither timer has run out. *)
Definition quiet (e : reception) : Prop := due e = false /\ got e = None /\ running && late e = false.

Lemma alloc_quiet q es s : Forall quiet q -> loop (q ++ es) false s = loop es false s.
Proof.
  induction 1 as [|e q (Hd & Hg & Hl) _ IH]; [done|]. cbn [app alloc_loop]. by rewrite Hd, Hg, Hl.
Qed.

(** The state in which a reception of the message [src, bytes] is examined. *)
Definition heard (restarting : bool) (e : reception) (bytes : list Z) (s : alloc) : alloc :=
  let s := if restarting then restart s
           else if due e then restart (act (SendRequest preferred 0) s) else s in
  restart_request (Alloc (rseed s) (server_node_id s) (CanUpdate.receive bytes (message s)) (actions s)).

Lemma heard_same r e bytes s : message (heard r e bytes s) = CanUpdate.receive bytes (message s) /\
  requests (heard r e bytes s) = requests s ++ (if r then [] else if due e then [0] else []).
Proof.
  unfold heard. set (s1 := if r then _ else _).
  assert (Hs1 : message s1 = message s /\ requests s1 = requests s ++ (if r then [] else if due e then [0] else [])).
  { subst s1. destruct r; [destruct (restart_same s) as [-> ->]; by rewrite app_nil_r|].
    destruct (due e); [|by rewrite app_nil_r].
    destruct (restart_same (act (SendRequest preferred 0) s)) as [-> ->]. by rewrite requests_act. }
  destruct (restart_request_same (Alloc (rseed s1) (server_node_id s1) (CanUpdate.receive bytes (message s1)) (actions s1)))
    as (-> & -> & _). destruct Hs1 as [Hm Hr]. cbn [message]. rewrite Hm. split; [done|]. exact Hr.
Qed.

Lemma matched_prefix k b s : (k <= 16)%nat -> (length (message s) = 17)%nat ->
  count_match k uid (drop 1 (CanUpdate.receive (b :: take k uid) (message s))) = k.
Proof using uid_length. intros Hk Hm. cbn [CanUpdate.receive app drop]. apply count_match_same. lia. Qed.

Lemma receive_length bytes s : (length bytes <= 17)%nat -> length (message s) = 17%nat ->
  length (CanUpdate.receive bytes (message s)) = 17%nat.
Proof. intros Hb Hm. unfold CanUpdate.receive. rewrite length_app, length_drop. lia. Qed.

(** A server confirms the first [k] bytes: the node listens and asks for the rest. *)
Lemma alloc_partial k b src e es s : (0 < k < 16)%nat -> src <> 0 -> length (message s) = 17%nat ->
  got e = Some (src, b :: take k uid) -> overheard e = false -> running && late e = false ->
  exists s' ms, loop (e :: es) false s = loop es false s' /\ length (message s') = 17%nat /\
    requests s' = requests s ++ (if due e then [0] else []) ++ [Z.of_nat k] /\
    In (Listen (Z.of_nat k) ms) (actions s').
Proof using uid_length.
  intros Hk Hsrc Hm Hg Ho Hl. cbn [alloc_loop]. rewrite Hg. fold (heard false e (b :: take k uid) s).
  destruct (heard_same false e (b :: take k uid) s) as [Hhm Hhr].
  set (h := heard false e (b :: take k uid) s) in *.
  rewrite (proj2 (Z.eqb_neq src ANY_NODE_ID)) by done.
  set (h1 := if server_node_id h =? 0 then _ else h).
  assert (Hh1 : message h1 = message h /\ requests h1 = requests h /\ rseed h1 = rseed h)
    by (subst h1; by destruct (server_node_id h =? 0)).
  destruct Hh1 as (Hh1m & Hh1r & _).
  assert (Hlen : Z.of_nat (length (b :: take k uid)) - 1 = Z.of_nat k)
    by (cbn [length]; rewrite length_take; lia).
  rewrite Hlen, wrap_small by (unfold fits; lia). unfold unique_id_bytes.
  rewrite Z.gtb_ltb, (proj2 (Z.ltb_lt (Z.of_nat k) (Z.of_nat 16))) by lia. rewrite Nat2Z.id.
  rewrite Hh1m, Hhm, matched_prefix by (done || lia).
  rewrite Z.ltb_irrefl, (proj2 (Z.eqb_neq (Z.of_nat k) (Z.of_nat 16))) by lia.
  destruct (util_random _ _ _) as [ms seed]. rewrite Ho, Hl.
  eexists _, ms. split; [done|]. cbn [act message actions]. split.
  - apply receive_length; [cbn [length]; rewrite length_take; lia|done].
  - split.
    + rewrite !requests_act, requests_alloc, Hh1r, Hhr, app_nil_r. by rewrite <- app_assoc.
    + apply in_or_app. left. apply in_or_app. right. by left.
Qed.

(** A message with the whole unique id ends the loop. *)
Lemma alloc_full r b src e es s : src <> 0 -> length (message s) = 17%nat ->
  got e = Some (src, b :: uid) ->
  exists s', loop (e :: es) r s = Some (BITFEILD_GET Uavcan.Allocationnode_id b, s') /\
    requests s' = requests s ++ (if r then [] else if due e then [0] else []).
Proof using uid_length.
  intros Hsrc Hm Hg. cbn [alloc_loop]. rewrite Hg. fold (heard r e (b :: uid) s).
  destruct (heard_same r e (b :: uid) s) as [Hhm Hhr]. set (h := heard r e (b :: uid) s) in *.
  rewrite (proj2 (Z.eqb_neq src ANY_NODE_ID)) by done.
  set (h1 := if server_node_id h =? 0 then _ else h).
  assert (Hh1 : message h1 = message h /\ requests h1 = requests h)
    by (subst h1; by destruct (server_node_id h =? 0)).
  destruct Hh1 as (Hh1m & Hh1r).
  assert (Hlen : Z.of_nat (length (b :: uid)) - 1 = 16) by (cbn [length]; lia).
  rewrite Hlen, wrap_small by (unfold fits; lia). unfold unique_id_bytes.
  change (Z.of_nat 16 >? 16) with false. cbv iota. rewrite Nat2Z.id, Hh1m, Hhm.
  pose proof (matched_prefix 16 b s ltac:(lia) Hm) as Hmp.
  rewrite (firstn_all2 uid) in Hmp by lia. rewrite Hmp.
  change (Z.of_nat 16 <? 16) with false. rewrite Z.eqb_refl. cbv iota.
  eexists. split; [done|]. by rewrite Hh1r, Hhr.
Qed.

(** ** Every run of the loop *)

Definition short (e : reception) : Prop :=
  match got e with Some (_, bytes) => (length bytes <= 17)%nat | None => True end.

(** All the bytes of a message match and they are sixteen: it carries the whole unique id. *)
Lemma full_match bytes msg : (length bytes <= 17)%nat ->
  let rx_len := u32 (Z.of_nat (length bytes) - 1) in
  let limit := if Z.of_nat unique_id_bytes >? rx_len then rx_len else Z.of_nat unique_id_bytes in
  let matched := Z.of_nat (count_match (Z.to_nat limit) uid (drop 1 (CanUpdate.receive bytes msg))) in
  (matched <? rx_len) = false -> (matched =? Z.of_nat unique_id_bytes) = true ->
  exists b, bytes = b :: uid /\ zat (CanUpdate.receive bytes msg) 0 = b.
Proof using uid_length.
  intros Hb rx_len limit matched Hge Hall. unfold unique_id_bytes in *.
  apply Z.ltb_ge in Hge. apply Z.eqb_eq in Hall.
  destruct bytes as [|b bytes]; [vm_compute in rx_len; subst rx_len; lia|].
  assert (Hrx : rx_len = Z.of_nat (length bytes)).
  { subst rx_len. cbn [length]. rewrite wrap_small; [lia|]. cbn [length] in Hb. unfold fits. lia. }
  cbn [length] in Hb. subst matched limit. clearbody rx_len. subst rx_len. rewrite Z.gtb_ltb in *.
  pose proof (count_match_le (Z.to_nat (if Z.of_nat (length bytes) <? Z.of_nat 16
    then Z.of_nat (length bytes) else Z.of_nat 16)) uid (drop 1 (CanUpdate.receive (b :: bytes) msg))) as Hle.
  assert (Hlen : length bytes = 16%nat) by (destruct (Z.ltb_spec (Z.of_nat (length bytes)) (Z.of_nat 16)); lia).
  rewrite Hlen, Z.ltb_irrefl, Nat2Z.id in *.
  exists b. split; [f_equal|done].
  pose proof (count_match_full 16 uid (drop 1 (CanUpdate.receive (b :: bytes) msg)) ltac:(lia)) as Heq.
  change (drop 1 _) with (bytes ++ drop (S (length bytes)) msg) in Heq.
  rewrite take_app_le, !firstn_all2 in Heq by lia. done.
Qed.

(** Where the node id of a loop that ended comes from. *)
Definition justified (es : list reception) (id : Z) : Prop :=
  (id = preferred /\ running = true /\ exists e, In e es /\ late e = true) \/
  (exists e src b, In e es /\ got e = Some (src, b :: uid) /\ src <> ANY_NODE_ID /\
     id = BITFEILD_GET Uavcan.Allocationnode_id b).

Lemma justified_cons e es id : justified es id -> justified (e :: es) id.
Proof.
  intros [(H1 & H2 & x & Hx & H3)|(x & src & b & Hx & H)]; [left|right].
  - split; [done|]. split; [done|]. exists x. split; [by right|done].
  - exists x, src, b. split; [by right|done].
Qed.

Lemma alloc_justified es : forall r s id s', Forall short es ->
  loop es r s = Some (id, s') -> justified es id.
Proof using uid_length.
  induction es as [|e es IH]; intros r s id s' Hes; [done|].
  apply Forall_cons_1 in Hes as [He Hes]. cbn [alloc_loop]. set (s0 := if r then _ else _). clearbody s0.
  assert (Hagain : forall x, (if running && late e then Some (preferred, x) else loop es false x) = Some (id, s') ->
    justified (e :: es) id).
  { intros x. destruct (running && late e) eqn:Hl; [|intros; by eapply justified_cons, IH].
    apply andb_true_iff in Hl as [Hr Hl]. intros [= <- _]. left.
    split; [done|]. split; [done|]. exists e. split; [by left|done]. }
  destruct (got e) as [[src bytes]|] eqn:Hg; [|apply Hagain].
  unfold short in He. rewrite Hg in He.
  destruct (restart_request_same (Alloc (rseed s0) (server_node_id s0) (CanUpdate.receive bytes (message s0)) (actions s0)))
    as (_ & Hm & _). cbn [message] in Hm.
  set (s1 := restart_request _) in *. clearbody s1.
  destruct (Z.eqb_spec src ANY_NODE_ID) as [|Hsrc]; [apply Hagain|].
  set (s2 := if server_node_id s1 =? 0 then _ else s1).
  assert (Hs2 : message s2 = message s1) by (subst s2; by destruct (server_node_id s1 =? 0)). clearbody s2.
  rewrite Hs2, Hm. pose proof (full_match bytes (message s0) He) as Hfull. cbv zeta in Hfull.
  destruct (_ <? _); [intros; by eapply justified_cons, IH|].
  destruct (_ =? _).
  - destruct (Hfull eq_refl eq_refl) as (b & -> & Hz). rewrite Hz. intros [= <- _]. right.
    exists e, src, b. split; [by left|done].
  - destruct (util_random _ _ _) as [ms seed]. destruct (overheard e); [|apply Hagain].
    intros. by eapply justified_cons, IH.
Qed.

(** ** Requests, timers and the follow-up delay *)

Definition in_bounds (a : alloc_action) : Prop :=
  match a with
  | SendRequest node_id offset => node_id = preferred /\ 0 <= offset < 16
  | RestartRequest ms => MIN_REQUEST_PERIOD_MS <= ms < MAX_REQUEST_PERIOD_MS
  | Listen capacity ms => 0 <= capacity < 16 /\ MIN_FOLLOWUP_DELAY_MS <= ms < MAX_FOLLOWUP_DELAY_MS
  end.

Definition bounded (s : alloc) : Prop := Forall in_bounds (actions s).

Lemma bounded_act a s : in_bounds a -> bounded s -> bounded (act a s).
Proof. intros Ha Hs. unfold bounded, act. cbn [actions]. apply Forall_app. split; [done|by constructor]. Qed.

Lemma bounded_restart_request s : bounded s -> bounded (restart_request s).
Proof.
  intros Hs. unfold restart_request.
  pose proof (util_random_range MIN_REQUEST_PERIOD_MS MAX_REQUEST_PERIOD_MS (rseed s) ltac:(done) ltac:(done)) as Hr.
  destruct (util_random _ _ _) as [ms seed]. by apply bounded_act.
Qed.

Lemma bounded_restart s : bounded s -> bounded (restart s).
Proof. intros Hs. by apply bounded_restart_request in Hs. Qed.

Lemma alloc_bounded es : forall r s id s', bounded s -> loop es r s = Some (id, s') -> bounded s'.
Proof using.
  clear uid_length. induction es as [|e es IH]; intros r s id s' Hs; [done|].
  cbn [alloc_loop]. set (s0 := if r then _ else _).
  assert (Hs0 : bounded s0).
  { subst s0. destruct r; [by apply bounded_restart|]. destruct (due e); [|done].
    apply bounded_restart, bounded_act; [by split|done]. }
  clearbody s0. clear s Hs.
  assert (Hagain : forall x, bounded x ->
    (if running && late e then Some (preferred, x) else loop es false x) = Some (id, s') -> bounded s').
  { intros x Hx. destruct (running && late e); [by intros [= _ <-]|by apply IH]. }
  destruct (got e) as [[src bytes]|]; [|by apply Hagain].
  pose proof (bounded_restart_request (Alloc (rseed s0) (server_node_id s0)
    (CanUpdate.receive bytes (message s0)) (actions s0)) Hs0) as Hs1.
  set (s1 := restart_request _) in *. clearbody s1.
  destruct (src =? ANY_NODE_ID); [by apply Hagain|].
  set (s2 := if server_node_id s1 =? 0 then _ else s1).
  assert (Hs2 : bounded s2) by (subst s2; by destruct (server_node_id s1 =? 0)). clearbody s2.
  set (rx_len := u32 _). assert (Hrx : 0 <= rx_len) by apply (wrap_fits 32 ltac:(lia)). clearbody rx_len.
  set (limit := Z.to_nat _). pose proof (count_match_le limit uid (drop 1 (message s2))) as Hle.
  assert (Hlim : (limit <= 16)%nat).
  { subst limit. unfold unique_id_bytes. rewrite Z.gtb_ltb. destruct (Z.ltb_spec rx_len (Z.of_nat 16)); lia. }
  set (matched := count_match _ _ _) in *. clearbody matched limit.
  destruct (Z.ltb_spec (Z.of_nat matched) rx_len); [by apply IH|].
  destruct (Z.eqb_spec (Z.of_nat matched) (Z.of_nat unique_id_bytes)) as [|Hn]; [by intros [= _ <-]|].
  unfold unique_id_bytes in Hn.
  pose proof (util_random_range MIN_FOLLOWUP_DELAY_MS MAX_FOLLOWUP_DELAY_MS (rseed s2) ltac:(done) ltac:(done)) as Hr.
  destruct (util_random _ _ _) as [ms seed].
  assert (Hs3 : bounded (act (Listen rx_len ms) (Alloc seed (server_node_id s2) (message s2) (actions s2))))
    by (apply bounded_act; [split; [lia|done]|done]).
  destruct (overheard e); [by apply IH|]. apply Hagain, bounded_act; [split; [done|lia]|done].
Qed.

(** ** Theorems on the allocation *)

(** The node takes only an id that was meant for it: when the allocation ends,
    either the boot timer ran out and the id is still the preferred one, or some message from
    a server that is not anonymous consisted of one byte and the sixteen bytes of this node's
    unique id, and the id is the field of that byte. *)
Theorem can_alloc_only_own_id mfguid_length hrt es rv id s : Forall short es ->
  get_dynamic_node_id uid mfguid_length preferred running hrt es = Some (rv, id, s) ->
  justified es id.
Proof using uid_length.
  intros Hes. unfold get_dynamic_node_id. destruct (util_random _ _ _) as [ms seed].
  destruct (alloc_loop _ _ _ _ _ _) as [[node_id s']|] eqn:Hl; [|done]. intros [= _ <- _].
  exact (alloc_justified es false _ _ _ Hes Hl).
Qed.

(** Whatever is received, the allocation keeps to the protocol's timing and to
    the unique id: requests carry the preferred id and start inside the unique id, the request
    timer is always set to 600 to 1399 ms and the follow-up delay to at most 399 ms. *)
Theorem can_alloc_paced mfguid_length hrt es rv id s :
  get_dynamic_node_id uid mfguid_length preferred running hrt es = Some (rv, id, s) ->
  Forall in_bounds (actions s).
Proof using.
  unfold get_dynamic_node_id. destruct (util_random _ _ _) as [ms seed].
  destruct (alloc_loop _ _ _ _ _ _) as [[node_id s']|] eqn:Hl; [|done]. intros [= _ _ <-].
  eapply alloc_bounded, Hl. apply Forall_nil_2.
Qed.

(** A reception in which a server answers with its byte and the first [k] bytes of the id. *)
Definition answers (src b : Z) (k : nat) (first : bool) (e : reception) : Prop :=
  due e = first /\ got e = Some (src, b :: take k uid) /\ overheard e = false /\ running && late e = false.

(** With a server that follows the protocol the allocation completes: the
    node asks, the server confirms six bytes, then twelve, then sends the whole unique id with
    an id that is not zero; between these nothing needs to arrive.  The node sends exactly
    three requests, at the offsets 0, 6 and 12, and ends with that id. *)
Theorem can_alloc_completes mfguid_length hrt src b0 b1 b q0 r0 q1 r1 q2 r2 es :
  src <> ANY_NODE_ID -> BITFEILD_GET Uavcan.Allocationnode_id b <> ANY_NODE_ID ->
  Forall quiet q0 -> Forall quiet q1 -> Forall quiet q2 ->
  answers src b0 6 true r0 -> answers src b1 12 false r1 -> answers src b 16 false r2 ->
  exists s, get_dynamic_node_id uid mfguid_length preferred running hrt
      (q0 ++ r0 :: q1 ++ r1 :: q2 ++ r2 :: es) =
    Some (CAN_OK, BITFEILD_GET Uavcan.Allocationnode_id b, s) /\ requests s = [0; 6; 12].
Proof using uid_length.
  intros Hsrc Hid Hq0 Hq1 Hq2 (D0 & G0 & O0 & L0) (D1 & G1 & O1 & L1) (D2 & G2 & _ & _).
  unfold get_dynamic_node_id. destruct (util_random _ _ _) as [ms seed]. rewrite alloc_quiet by done.
  destruct (alloc_partial 6 b0 src r0 (q1 ++ r1 :: q2 ++ r2 :: es) (Alloc seed 0 (repeat 0 17) [])
    ltac:(lia) Hsrc eq_refl G0 O0 L0) as (s1 & ms1 & -> & Hm1 & Hr1 & _).
  rewrite alloc_quiet by done.
  destruct (alloc_partial 12 b1 src r1 (q2 ++ r2 :: es) s1 ltac:(lia) Hsrc Hm1 G1 O1 L1)
    as (s2 & ms2 & -> & Hm2 & Hr2 & _).
  rewrite alloc_quiet by done. rewrite firstn_all2 in G2 by lia.
  destruct (alloc_full false b src r2 es s2 Hsrc Hm2 G2) as (s3 & -> & Hr3).
  exists s3. rewrite (proj2 (Z.eqb_neq _ _) Hid). split; [done|].
  rewrite Hr3, Hr2, Hr1, D0, D1, D2. done.
Qed.

(** The follow-up delay overflows the stack: it listens into an array of eight
    bytes but passes the length of the last message as its size.  After the confirmation of
    twelve bytes the size is twelve, and a transfer that has delivered two to five bytes (the
    first of several full frames delivers five) overruns the array with its next full frame. *)
Theorem can_alloc_followup_overflows {T} {svc : TimerService T} stray src b e es s
    pdsdl timer ident tid tog eot ev evs st tm data tail :
  src <> ANY_NODE_ID -> length (message s) = 17%nat -> answers src b 12 false e ->
  UavcanSpec.in_transfer ident tid tog st -> length (Uavcan.transfer st) = 8%nat ->
  1 < Uavcan.total_rx st <= 5 -> Uavcan.arrival ev = Some (Uavcan.Frame ident 8 (data ++ [tail])) ->
  length data = 7%nat -> UavcanSpec.tail_is tid tog eot 0 tail ->
  exists s' ms, loop (e :: es) false s = loop es false s' /\ In (Listen 12 ms) (actions s') /\
    Uavcan.rx_loop stray pdsdl timer ms 12 (ev :: evs) st tm = Uavcan.Crashed.
Proof using uid_length.
  intros Hsrc Hm (D & G & O & L) Hin H8 Ht Hev Hd Htl.
  destruct (alloc_partial 12 b src e es s ltac:(lia) Hsrc Hm G O L) as (s' & ms & Hloop & _ & _ & Hl).
  exists s', ms. split; [done|]. split; [done|].
  cbn [Uavcan.rx_loop]. rewrite Hev. cbn [Uavcan.uavcan_rx Uavcan.dlc Uavcan.message_id Uavcan.message].
  change (u32 (8 - 1)) with 7.
  assert (Uavcan.byte_at stray (data ++ [tail]) 7 = tail) as ->.
  { destruct data as [|? [|? [|? [|? [|? [|? [|? [|]]]]]]]]; done. }
  rewrite (UavcanSpec.accept_middle ident tid tog eot) by done.
  rewrite UavcanSpec.process_middle;
    [|unfold Uavcan.sot; cbn [Uavcan.tail]; by rewrite (proj2 (proj2 (proj2 Htl)))| |lia].
  - unfold Uavcan.copy_payload. rewrite wrap_small by (unfold fits; lia).
    rewrite (proj2 (Z.leb_le _ _)) by lia. by rewrite H8, Z.gtb_ltb, (proj2 (Z.ltb_lt _ _)) by lia.
  - unfold Uavcan.transfer_id. cbn [Uavcan.tail]. by rewrite (proj1 Htl), (UavcanSpec.it_tid _ _ _ _ Hin).
Qed.

End Alloc.

(** ** The boot policy *)

Section Policy.
Variable uid : list Z.
Variable mfguid_length : nat.
Variable preferred hrt : Z.
Hypothesis uid_length : length uid = 16%nat.

Lemma wait_info_stopped ps : wait_info false ps <> Some false.
Proof. induction ps as [|[[] c] ps IH]; cbn; done. Qed.

Lemma wait_update_stopped ps : forall x ps', wait_for_beginfirmwareupdate false ps <> (Some (inl x), ps').
Proof. induction ps as [|p ps IH]; intros x ps'; cbn; [done|]. destruct (request p); done. Qed.

Lemma wait_path_stopped fuel : forall ps x, wait_for_path fuel false ps <> Some (inl x).
Proof.
  induction fuel as [|fuel IH]; intros ps x; cbn [wait_for_path]; [done|].
  destruct (wait_for_beginfirmwareupdate false ps) as [[[rv|r]|] ps'] eqn:Hw; try done.
  - by apply wait_update_stopped in Hw.
  - destruct (_ =? _); [apply IH|done].
Qed.

(** While the boot timer does not run, a node with an id does not go on to boot. *)
Lemma invalid_stays e : app_valid e = false -> after_node_id e false <> GoBoot.
Proof.
  intros Hv. unfold after_node_id. rewrite Hv. cbn [andb orb].
  pose proof (wait_info_stopped (info_polls e)) as Hi.
  destruct (wait_info false (info_polls e)) as [[]|]; [|done..].
  pose proof (wait_path_stopped (S (length (update_polls e))) (update_polls e)) as Hp.
  destruct (wait_for_path _ _ _) as [[x|r]|]; try done. by destruct (Hp x).
Qed.

(** An application that is not valid is booted before an update only in one
    case: this is a regular start and a server assigned the node id zero to exactly this
    node. *)
Theorem can_boot_invalid_app e : app_valid e = false -> Forall short (receptions e) ->
  main uid mfguid_length preferred hrt e = GoBoot ->
  app_bl_request e = false /\
  exists r src b, In r (receptions e) /\ got r = Some (src, b :: uid) /\ src <> ANY_NODE_ID /\
    BITFEILD_GET Uavcan.Allocationnode_id b = ANY_NODE_ID.
Proof using uid_length.
  intros Hv Hs. pose proof (invalid_stays e Hv) as Hstay. unfold main. rewrite Hv. cbn [andb orb].
  destruct (app_bl_request e) eqn:Hr.
  - destruct (shared e) as [[speed node]|]; [|done]. by destruct (speed =? CAN_UNDEFINED).
  - cbn [autobaud_and_get_dynamic_node_id andb]. unfold get_dynamic_node_id.
    destruct (util_random _ _ _) as [ms seed].
    destruct (alloc_loop _ _ _ _ _ _) as [[id s]|] eqn:Hl; [|done].
    destruct (Z.eqb_spec id ANY_NODE_ID) as [->|]; [|done]. intros _. split; [done|].
    apply (alloc_justified uid preferred false uid_length) in Hl as [(_ & ? & _)|(x & src & b & ? & ? & ? & ?)];
      [done| |done]. by exists x, src, b.
Qed.

(** That case is reachable: rule E of the allocation asks for an id that is not
    zero, but the code does not look.  A server that assigns zero to the node ends its
    allocation with the code for a timeout, and the program goes on to boot an application
    that it has just found not to be valid. *)
Theorem can_boot_zero_id_boots e q r es src b : app_valid e = false -> shared e = None ->
  Forall (quiet false) q -> receptions e = q ++ r :: es -> src <> ANY_NODE_ID ->
  got r = Some (src, b :: uid) -> BITFEILD_GET Uavcan.Allocationnode_id b = ANY_NODE_ID ->
  main uid mfguid_length preferred hrt e = GoBoot.
Proof using uid_length.
  intros Hv Hsh Hq Hrec Hsrc Hg Hb. unfold main, app_bl_request. rewrite Hsh, Hv. cbn [andb].
  unfold autobaud_and_get_dynamic_node_id. cbn [andb]. rewrite Hrec. unfold get_dynamic_node_id.
  destruct (util_random _ _ _) as [ms seed]. rewrite alloc_quiet by done.
  destruct (alloc_full uid preferred false uid_length false b src r es (Alloc seed 0 (repeat 0 17) [])
    Hsrc eq_refl Hg) as (s' & -> & _). by rewrite Hb.
Qed.

End Policy.

(** ** Examples *)

Definition demo_uid : list Z := map Z.of_nat (seq 1 16).

Definition demo_quiet : reception := Reception false None false false.

Definition demo_answer (first : bool) (b : Z) (k : nat) : reception :=
  Reception first (Some (9, b :: take k demo_uid)) false false.

Lemma demo_run : exists s, get_dynamic_node_id demo_uid 12 0 true 77
    [demo_quiet; demo_answer true 0 6; demo_answer false 0 12; demo_answer false 84 16] = Some (CAN_OK, 42, s).
Proof. eexists. vm_compute. reflexivity. Qed.

Lemma can_alloc_only_own_id_witness : justified demo_uid 0 true
  [demo_quiet; demo_answer true 0 6; demo_answer false 0 12; demo_answer false 84 16] 42.
Proof.
  destruct demo_run as [s Hs].
  refine (can_alloc_only_own_id demo_uid 0 true eq_refl 12 77 _ CAN_OK 42 s _ Hs).
  repeat constructor; vm_compute; lia.
Defined.

Lemma can_alloc_paced_witness : exists s, get_dynamic_node_id demo_uid 12 0 true 77
    [demo_quiet; demo_answer true 0 6; demo_answer false 0 12; demo_answer false 84 16] = Some (CAN_OK, 42, s) /\
  Forall (in_bounds 0) (actions s).
Proof.
  destruct demo_run as [s Hs]. exists s. split; [exact Hs|].
  exact (can_alloc_paced demo_uid 0 true 12 77 _ CAN_OK 42 s Hs).
Defined.

Lemma can_alloc_completes_witness : exists s, get_dynamic_node_id demo_uid 12 0 true 77
    ([demo_quiet] ++ demo_answer true 0 6 :: [] ++ demo_answer false 0 12 :: [demo_quiet] ++
     demo_answer false 84 16 :: []) = Some (CAN_OK, 42, s) /\ requests s = [0; 6; 12].
Proof.
  apply (can_alloc_completes demo_uid 0 true eq_refl 12 77 9 0 0 84);
    first [done | by repeat constructor].
Defined.

(** A whole Allocation message of the server with node id 5 to some other node, as frames. *)
Definition demo_frames : list Uavcan.can_frame := Eval vm_compute in
  Uavcan.sent (snd (Uavcan.uavcan_tx_dsdl (fun _ => true) (Uavcan.Node 16 5 0) Uavcan.DSDLMsgAllocation
    (Uavcan.Protocol 0 3) (84 :: map Z.of_nat (seq 30 16)) (Uavcan.Bus [] []))).

(** Heard during a follow-up delay of 100 ms after twelve bytes, it overruns the array. *)
Lemma followup_demo_crashes :
  Uavcan.uavcan_rx_dsdl (svc := UavcanSpec.demo_service) UavcanSpec.demo_stray (Uavcan.Node 16 0 0)
    Uavcan.DSDLMsgAllocation (Uavcan.Protocol 0 0) (replicate 8 0) 12 100
    (map (fun f => Uavcan.Event 1 (Some f) 1) demo_frames) UavcanSpec.demo_timers = Uavcan.Crashed.
Proof. vm_compute. reflexivity. Qed.

(** The receiver after the first of these frames. *)
Definition demo_ident : Z := Eval vm_compute in Uavcan.message_id (nth 0 demo_frames (Uavcan.Frame 0 0 [])).

Definition demo_mid : Uavcan.rx_state := Eval vm_compute in
  UavcanSpec.advance (UavcanSpec.begun (UavcanSpec.rx_start (Uavcan.Node 16 0 0) Uavcan.DSDLMsgAllocation
    (Uavcan.Protocol 0 0) (replicate 8 0)) demo_ident 3 0) [84; 30; 31; 32; 33].

Definition demo_second : Uavcan.can_frame := Eval vm_compute in nth 1 demo_frames (Uavcan.Frame 0 0 []).

Lemma can_alloc_followup_overflows_witness : exists s' ms,
  alloc_loop demo_uid 0 true [demo_answer false 0 12] false (Alloc 5 0 (repeat 0 17) []) =
    alloc_loop demo_uid 0 true [] false s' /\
  In (Listen 12 ms) (actions s') /\
  Uavcan.rx_loop (svc := UavcanSpec.demo_service) UavcanSpec.demo_stray (Uavcan.dsdl_at Uavcan.DSDLMsgAllocation)
    1 ms 12 [Uavcan.Event 1 (Some demo_second) 1] demo_mid UavcanSpec.demo_timers = Uavcan.Crashed.
Proof.
  apply (can_alloc_followup_overflows demo_uid 0 true eq_refl (svc := UavcanSpec.demo_service)
    UavcanSpec.demo_stray 9 0 (demo_answer false 0 12) [] (Alloc 5 0 (repeat 0 17) [])
    (Uavcan.dsdl_at Uavcan.DSDLMsgAllocation) 1 demo_ident 3 1 0 (Uavcan.Event 1 (Some demo_second) 1) []
    demo_mid UavcanSpec.demo_timers (take 7 (Uavcan.message demo_second)) (nth 7 (Uavcan.message demo_second) 0));
    first [done | by split; vm_compute | vm_compute; done].
Defined.

Definition demo_env (receptions : list reception) : environment :=
  Env false true None false receptions [(true, false)] [UpdatePoll false None].

Lemma can_boot_invalid_app_witness :
  app_bl_request (demo_env [demo_answer false 1 16]) = false /\
  exists r src b, In r [demo_answer false 1 16] /\ got r = Some (src, b :: demo_uid) /\ src <> ANY_NODE_ID /\
    BITFEILD_GET Uavcan.Allocationnode_id b = ANY_NODE_ID.
Proof.
  apply (can_boot_invalid_app demo_uid 12 0 77 eq_refl (demo_env [demo_answer false 1 16]));
    [done|repeat constructor; vm_compute; lia|vm_compute; reflexivity].
Defined.

Lemma can_boot_zero_id_boots_witness :
  main demo_uid 12 0 77 (demo_env [demo_quiet; demo_answer false 1 16]) = GoBoot.
Proof.
  apply (can_boot_zero_id_boots demo_uid 12 0 77 eq_refl (demo_env [demo_quiet; demo_answer false 1 16])
    [demo_quiet] (demo_answer false 1 16) [] 9 1); first [done | by repeat constructor].
Defined.

End CanBootSpec.
