(* ===== verification/ImageToc.v ===== *)
(** * Booting through a table of contents

    src/platforms/nuttx/src/bootloader/common/image_toc.c ([find_toc]), crypto.c
    ([verify_app], [decrypt_app]), the header image_toc.h and the part of
    [jump_to_app] (bl.c) under BOOTLOADER_USE_TOC.  The table lies in flash and is
    read through pointers, so every access reads the memory as it is at that
    moment; copying an image to its target changes it. *)

From S2P Require Import Prelude ProgMem BootIface.

Local Open Scope Z_scope.

Module ImageToc.

Definition MAX_TOC_ENTRIES : Z := 32.
Definition TOC_FLAG1_BOOT : Z := 0x1.
Definition TOC_FLAG1_VTORS : Z := 0x2.
Definition TOC_FLAG1_CHECK_SIGNATURE : Z := 0x4.
Definition TOC_FLAG1_DECRYPT : Z := 0x8.
Definition TOC_FLAG1_COPY : Z := 0x10.
Definition TOC_START_MAGIC : Z := 0x00434f54.
Definition TOC_END_MAGIC : Z := 0x00444e45.
Definition TOC_VERSION : Z := 1.

(** Memory: the byte at every address. *)
Definition memory : Type := Z -> Z.

Definition load8 (m : memory) (a : Z) : Z := m a.
Definition load32 (m : memory) (a : Z) : Z := le_value [m a; m (a + 1); m (a + 2); m (a + 3)].

(** [memcpy(dst, src, n)] between areas that do not overlap. *)
Definition memcpy (dst src n : Z) (m : memory) : memory :=
  fun x => if in_range dst n x then m (src + (x - dst)) else m x.

(** [image_toc_entry_t], packed: 24 bytes. *)
Record image_toc_entry_t := Entry {
  start : Z;
  end_ : Z;
  target : Z;
  signature_idx : Z;
  signature_key : Z;
  encryption_key : Z;
  flags1 : Z;
}.

Definition sizeof_entry : Z := 24.
Definition sizeof_start : Z := 8.

Definition load_entry (m : memory) (a : Z) : image_toc_entry_t :=
  Entry (load32 m (a + 4)) (load32 m (a + 8)) (load32 m (a + 12)) (load8 m (a + 16))
        (load8 m (a + 17)) (load8 m (a + 18)) (load8 m (a + 19)).

(** [toc_entries[i]] *)
Definition entry_at (m : memory) (toc : Z) (i : Z) : image_toc_entry_t :=
  load_entry m (toc + i * sizeof_entry).

Definition get_base_addr (e : image_toc_entry_t) : Z :=
  if has_any (flags1 e) TOC_FLAG1_DECRYPT || has_any (flags1 e) TOC_FLAG1_COPY
  then target e else start e.

Section Toc.
Context {BD : Board}.
Variable BOARD_FLASH_SIZE : Z.

Definition FLASH_START_ADDRESS : Z := Z.land APP_LOAD_ADDRESS (u32 (Z.lnot (BOARD_FLASH_SIZE - 1))).
Definition FLASH_END_ADDRESS : Z := FLASH_START_ADDRESS + BOARD_FLASH_SIZE.

(** [while (i < MAX_TOC_ENTRIES && &entry[i] <= FLASH_END_ADDRESS - sizeof(uintptr_t) &&
    memcmp(&entry[i], &toc_end_magic, 4)) i++]; [fuel] is the iterations left to the bound. *)
Fixpoint count_entries (fuel : nat) (m : memory) (toc i : Z) : Z :=
  match fuel with
  | O => i
  | S fuel =>
    if (i <? MAX_TOC_ENTRIES) && (toc + i * sizeof_entry <=? FLASH_END_ADDRESS - 4)
       && negb (load32 m (toc + i * sizeof_entry) =? TOC_END_MAGIC)
    then count_entries fuel m toc (i + 1)
    else i
  end.

Definition find_toc (m : memory) : option (Z * Z) :=
  let toc_start := APP_LOAD_ADDRESS + BOOT_DELAY_ADDRESS + 8 in
  let entry := toc_start + sizeof_start in
  if (load32 m toc_start =? TOC_START_MAGIC) && (load32 m (toc_start + 4) <=? TOC_VERSION) then
    let i := count_entries (Z.to_nat MAX_TOC_ENTRIES) m entry 0 in
    let e0 := entry_at m entry 0 in
    if (i <=? MAX_TOC_ENTRIES) && (i >? 0) && (start e0 =? APP_LOAD_ADDRESS)
       && (end_ e0 <=? FLASH_END_ADDRESS - 4) && (end_ e0 >? start e0) then
      let sig_idx := signature_idx e0 in
      let es := entry_at m entry sig_idx in
      if (sig_idx >? 0) && (sig_idx <? MAX_TOC_ENTRIES) && (start es >=? end_ e0)
         && (end_ es <=? FLASH_END_ADDRESS) && (end_ es >? start es)
      then Some (entry, i)
      else None
    else None
  else None.

(** The crypto backend's signature check: key, signature, start of the data, length,
    on the memory as it is. *)
Variable crypto_signature_check : Z -> Z -> Z -> Z -> memory -> bool.

Definition verify_app (idx toc : Z) (m : memory) : bool :=
  let e := entry_at m toc idx in
  let sig := start (entry_at m toc (signature_idx e)) in
  let len := u32 (end_ e - start e) in
  crypto_signature_check (signature_key e) sig (start e) len m.

(** Not implemented in the code: always fails. *)
Definition decrypt_app (idx toc : Z) (m : memory) : bool := false.

(** The memory and the two addresses that the loop of [jump_to_app] computes. *)
Record boot_state := BootSt { bs_mem : memory; app_base : Z; vec_base : Z }.

(** One iteration of [for (i = 0; i < len; i++)]. *)
Definition process_entry (toc i : Z) (b : boot_state) : boot_state :=
  let flag := fun m f => has_any (flags1 (entry_at m toc i)) f in
  let m := bs_mem b in
  if negb (i =? 0) && flag m TOC_FLAG1_CHECK_SIGNATURE && negb (verify_app i toc m) then b
  else if flag m TOC_FLAG1_DECRYPT && negb (decrypt_app i toc m) then b
  else
    let e := entry_at m toc i in
    let m := if flag m TOC_FLAG1_COPY
             then memcpy (target e) (start e) (u32 (end_ e - start e)) m else m in
    let app := if flag m TOC_FLAG1_BOOT then get_base_addr (entry_at m toc i) else app_base b in
    let vec := if flag m TOC_FLAG1_VTORS then get_base_addr (entry_at m toc i) else vec_base b in
    BootSt m app vec.

Definition process_entries (toc : Z) (n : nat) (b : boot_state) : boot_state :=
  fold_left (fun b i => process_entry toc (Z.of_nat i) b) (seq 0 n) b.

(** [jump_to_app] with BOOTLOADER_USE_TOC: [Some (vec_base, app_base)] when it jumps. *)
Definition jump_to_app_toc (m : memory) : option (Z * Z) :=
  if load32 m APP_LOAD_ADDRESS =? 0xffffffff then None
  else
    match find_toc m with
    | None => None
    | Some (toc, len) =>
      if negb (verify_app 0 toc m) then None
      else
        let b := process_entries toc (Z.to_nat len) (BootSt m 0 0) in
        if app_base b =? 0 then None
        else Some (if vec_base b =? 0 then app_base b else vec_base b, app_base b)
    end.

(** ** What is started has been checked *)

Lemma count_entries_bounds fuel m toc i : 0 <= i -> i + Z.of_nat fuel <= MAX_TOC_ENTRIES ->
  i <= count_entries fuel m toc i <= i + Z.of_nat fuel.
Proof using BD.
  clear crypto_signature_check.
  revert i. induction fuel as [|fuel IH]; intros i Hi Hm; cbn [count_entries]; [lia|].
  destruct (_ && _); [|lia]. specialize (IH (i + 1)). lia.
Qed.

(** No entry that [count_entries] counts is the end marker or lies past the flash. *)
Lemma count_entries_counted fuel m toc i j : i <= j < count_entries fuel m toc i ->
  load32 m (toc + j * sizeof_entry) <> TOC_END_MAGIC /\
  toc + j * sizeof_entry + 4 <= FLASH_END_ADDRESS.
Proof using BD.
  clear crypto_signature_check.
  revert i. induction fuel as [|fuel IH]; intros i Hj; cbn [count_entries] in Hj; [lia|].
  destruct (_ && _) eqn:E; [|lia].
  rewrite !andb_true_iff, Z.ltb_lt, Z.leb_le, negb_true_iff, Z.eqb_neq in E.
  destruct (decide (j = i)) as [->|]; [split; [tauto|lia]|]. apply (IH (i + 1)). lia.
Qed.

(** Split the conjunctions of boolean tests in a hypothesis. *)
Ltac bools H := rewrite ?andb_true_iff, ?Z.leb_le, ?Z.gtb_lt, ?Z.geb_le, ?Z.eqb_eq, ?Z.ltb_lt in H.

Lemma find_toc_spec m toc len : find_toc m = Some (toc, len) ->
  toc = APP_LOAD_ADDRESS + BOOT_DELAY_ADDRESS + 16 /\
  load32 m (toc - 8) = TOC_START_MAGIC /\ load32 m (toc - 4) <= TOC_VERSION /\
  0 < len <= MAX_TOC_ENTRIES /\
  (forall j, 0 <= j < len -> load32 m (toc + j * sizeof_entry) <> TOC_END_MAGIC /\
     toc + j * sizeof_entry + 4 <= FLASH_END_ADDRESS) /\
  let e0 := entry_at m toc 0 in let es := entry_at m toc (signature_idx e0) in
  start e0 = APP_LOAD_ADDRESS /\ start e0 < end_ e0 <= FLASH_END_ADDRESS - 4 /\
  0 < signature_idx e0 < MAX_TOC_ENTRIES /\
  end_ e0 <= start es /\ start es < end_ es <= FLASH_END_ADDRESS.
Proof using BD.
  clear crypto_signature_check.
  unfold find_toc, sizeof_start. intros H.
  destruct (_ && _) eqn:E1 in H; [|done]. destruct (_ && _) eqn:E2 in H; [|done].
  destruct (_ && _) eqn:E3 in H; [|done].
  apply (inj Some), pair_equal_spec in H as [<- <-]. bools E1. bools E2. bools E3.
  set (toc := APP_LOAD_ADDRESS + BOOT_DELAY_ADDRESS + 8 + 8) in *.
  replace (APP_LOAD_ADDRESS + BOOT_DELAY_ADDRESS + 8) with (toc - 8) in E1 by (subst toc; lia).
  replace (toc - 8 + 4) with (toc - 4) in E1 by lia.
  pose proof (count_entries_bounds 32 m toc 0 ltac:(lia) ltac:(done)).
  split; [subst toc; lia|]. split; [tauto|]. split; [tauto|]. split; [lia|]. split.
  - intros j Hj. by apply (count_entries_counted (Z.to_nat MAX_TOC_ENTRIES) m toc 0).
  - cbv zeta. tauto.
Qed.

(** Entry [i] passed its checks in memory [m]. *)
Definition accepted (toc i : Z) (m : memory) : Prop :=
  (i <> 0 -> has_any (flags1 (entry_at m toc i)) TOC_FLAG1_CHECK_SIGNATURE = true ->
     verify_app i toc m = true) /\
  has_any (flags1 (entry_at m toc i)) TOC_FLAG1_DECRYPT = false.

(** The memory in which entry [i] is processed, and the one right after. *)
Definition mem_before (toc : Z) (i : nat) (m : memory) : memory :=
  bs_mem (process_entries toc i (BootSt m 0 0)).

Lemma process_entries_S toc n b :
  process_entries toc (S n) b = process_entry toc (Z.of_nat n) (process_entries toc n b).
Proof. unfold process_entries. by rewrite seq_S, fold_left_app. Qed.

Lemma process_entry_app toc i b : app_base (process_entry toc i b) <> app_base b ->
  accepted toc i (bs_mem b) /\
  let m := bs_mem (process_entry toc i b) in
  has_any (flags1 (entry_at m toc i)) TOC_FLAG1_BOOT = true /\
  app_base (process_entry toc i b) = get_base_addr (entry_at m toc i).
Proof.
  unfold process_entry, accepted, decrypt_app. cbv zeta. rewrite andb_true_r. intros H.
  destruct (_ && _ && _) eqn:E1 in *; [done|].
  destruct (has_any _ TOC_FLAG1_DECRYPT) eqn:E2 in *; [done|].
  cbn [app_base bs_mem] in *. split.
  - split; [|done]. intros Hi Hc. rewrite (proj2 (Z.eqb_neq _ _) Hi), Hc in E1.
    by apply negb_false_iff.
  - by destruct (has_any _ TOC_FLAG1_BOOT) eqn:E3 in *.
Qed.

Lemma app_base_origin toc n m : app_base (process_entries toc n (BootSt m 0 0)) <> 0 ->
  exists i, (i < n)%nat /\ accepted toc (Z.of_nat i) (mem_before toc i m) /\
    let e := entry_at (mem_before toc (S i) m) toc (Z.of_nat i) in
    has_any (flags1 e) TOC_FLAG1_BOOT = true /\
    app_base (process_entries toc n (BootSt m 0 0)) = get_base_addr e.
Proof.
  induction n as [|n IH]; [done|]. rewrite process_entries_S.
  set (b := process_entries toc n (BootSt m 0 0)) in *. intros H.
  destruct (decide (app_base (process_entry toc (Z.of_nat n) b) = app_base b)) as [E|E].
  - rewrite E in *. destruct (IH H) as (i & ? & ?). exists i. split; [lia|done].
  - apply process_entry_app in E. exists n. split; [lia|]. unfold mem_before.
    rewrite process_entries_S. exact E.
Qed.

(** *** The table under the copies *)

(** The table of [len] entries at [toc]. *)
Definition in_table (toc len x : Z) : bool := in_range toc (len * sizeof_entry) x.

(** No entry marked to be copied is copied over the table. *)
Definition copies_avoid_table (toc len : Z) (m : memory) : Prop :=
  forall j, 0 <= j < len -> has_any (flags1 (entry_at m toc j)) TOC_FLAG1_COPY = true ->
  forall x, in_table toc len x = true ->
    in_range (target (entry_at m toc j)) (u32 (end_ (entry_at m toc j) - start (entry_at m toc j))) x = false.

Definition same_table (toc len : Z) (m m' : memory) : Prop := forall x, in_table toc len x = true -> m' x = m x.

Lemma same_entry toc len m m' j : same_table toc len m m' -> 0 <= j < len -> entry_at m' toc j = entry_at m toc j.
Proof using.
  clear crypto_signature_check BD BOARD_FLASH_SIZE. intros H Hj.
  assert (forall k, 0 <= k < 24 -> m' (toc + j * sizeof_entry + k) = m (toc + j * sizeof_entry + k)) as E.
  { intros k Hk. apply H, in_rangeP. unfold sizeof_entry. nia. }
  assert (forall k, 0 <= k <= 20 -> load32 m' (toc + j * sizeof_entry + k) = load32 m (toc + j * sizeof_entry + k)) as E4.
  { intros k Hk. unfold load32. rewrite <- !Z.add_assoc. by rewrite !Z.add_assoc, <- !(Z.add_assoc _ k), !E by lia. }
  unfold entry_at, load_entry, load8. by rewrite !E4, !E by lia.
Qed.

Lemma process_entry_table toc len m b i : 0 <= i < len -> copies_avoid_table toc len m ->
  same_table toc len m (bs_mem b) -> same_table toc len m (bs_mem (process_entry toc i b)).
Proof using.
  intros Hi Hc Hb. unfold process_entry. cbv zeta. rewrite !(same_entry toc len m (bs_mem b) i Hb Hi).
  destruct (_ && _ && _); [done|]. destruct (_ && _); [done|]. cbn [bs_mem].
  destruct (has_any _ TOC_FLAG1_COPY) eqn:E; [|done].
  intros x Hx. unfold memcpy. rewrite (Hc i Hi E x Hx). by apply Hb.
Qed.

Lemma process_entries_table toc len m n : Z.of_nat n <= len -> copies_avoid_table toc len m ->
  same_table toc len m (mem_before toc n m).
Proof using.
  intros Hn Hc. unfold mem_before. induction n as [|n IH]; [done|]. rewrite process_entries_S.
  apply process_entry_table; [lia|done|]. apply IH. lia.
Qed.

End Toc.

(** C26 (safety). Secure boot: when [jump_to_app] starts an application through the table of
    contents, the first word of the area is programmed; a table was found behind the boot
    delay word; the range of its first entry, which starts at the load address, passed the
    signature check against a signature that lies in flash behind that range; and the address
    started is the base of an entry marked bootable that passed its own signature check where
    its flags ask for one and is not marked encrypted.  Flags and addresses of that entry are
    read after the copies of the entries before it (and of itself); when no entry is copied
    over the table they are those of the table that was found.  That the table lies in the
    range that was checked is not tested by the code: it is when the first entry ends behind
    the table. *)
Theorem jump_to_app_toc_verified {BD : Board} flash_size check m vec app :
  jump_to_app_toc flash_size check m = Some (vec, app) ->
  load32 m APP_LOAD_ADDRESS <> 0xffffffff /\
  exists toc len, find_toc flash_size m = Some (toc, len) /\
    toc = APP_LOAD_ADDRESS + BOOT_DELAY_ADDRESS + 16 /\
    (let e0 := entry_at m toc 0 in
     start e0 = APP_LOAD_ADDRESS /\
     end_ e0 <= start (entry_at m toc (signature_idx e0)) < FLASH_END_ADDRESS flash_size /\
     check (signature_key e0) (start (entry_at m toc (signature_idx e0))) (start e0)
       (u32 (end_ e0 - start e0)) m = true) /\
    exists i, (i < Z.to_nat len)%nat /\
      accepted check toc (Z.of_nat i) (mem_before check toc i m) /\
      (let e := entry_at (mem_before check toc (S i) m) toc (Z.of_nat i) in
       has_any (flags1 e) TOC_FLAG1_BOOT = true /\ app = get_base_addr e) /\
      (copies_avoid_table toc len m ->
       entry_at (mem_before check toc i m) toc (Z.of_nat i) = entry_at m toc (Z.of_nat i) /\
       entry_at (mem_before check toc (S i) m) toc (Z.of_nat i) = entry_at m toc (Z.of_nat i)).
Proof.
  unfold jump_to_app_toc. intros H.
  destruct (Z.eqb_spec (load32 m APP_LOAD_ADDRESS) 0xffffffff) as [|Hw]; [done|].
  split; [done|]. destruct (find_toc flash_size m) as [[toc len]|] eqn:Hf; [|done].
  exists toc, len. split; [done|]. destruct (verify_app check 0 toc m) eqn:Hv; [|done].
  cbn [negb] in H. destruct (Z.eqb_spec (app_base (process_entries check toc (Z.to_nat len)
    (BootSt m 0 0))) 0) as [|Ha]; [done|]. injection H as _ <-.
  apply find_toc_spec in Hf as (Ht & _ & _ & _ & _ & H0 & H1 & H2 & H3 & H4).
  split; [done|]. split; [cbv zeta; split; [done|]; split; [lia|exact Hv]|].
  destruct (app_base_origin check toc (Z.to_nat len) m Ha) as (i & Hi & Hacc & Hboot).
  exists i. split; [done|]. split; [done|]. split; [exact Hboot|]. intros Hc.
  split; (apply (same_entry toc len); [|lia]); (apply process_entries_table; [lia|done]).
Qed.

(** ** A table in memory, for the witness *)

Definition demo_entry (s e t sidx skey enc fl : Z) : list Z :=
  [65; 65; 65; 65] ++ le_bytes 4 s ++ le_bytes 4 e ++ le_bytes 4 t ++ [sidx; skey; enc; fl; 0; 0; 0; 0].

Definition demo_toc_board : Board := {|
  APP_LOAD_ADDRESS := 0x1000; BOARD_TYPE := 0; board_rev := 0; fw_size := 0x400;
  BOOT_DELAY_ADDRESS := 0; ARCH_SN_MAX_LENGTH := 12; BOARD_FLASH_SECTORS := 1;
  BOARD_FIRST_FLASH_SECTOR_TO_ERASE := 1; BOOTLOADER_DELAY := 5000;
  BOOT_DEVICES_SELECTION := 3; BOOT_DEVICES_FILTER_ONUSB := 1 |}.

(** The table at 0x1008: the application, its signature, the end mark. *)
Definition demo_table (sig : Z) : list Z :=
  le_bytes 4 TOC_START_MAGIC ++ le_bytes 4 TOC_VERSION ++
  demo_entry 0x1000 0x1200 0 sig 7 0 (Z.lor TOC_FLAG1_BOOT TOC_FLAG1_VTORS) ++
  demo_entry 0x1200 0x1240 0 0 0 0 0 ++ le_bytes 4 TOC_END_MAGIC ++ replicate 20 0 ++
  demo_entry 0x1300 0x1340 0 0 0 0 0.

Definition demo_memory (sig : Z) : memory :=
  fun a => if in_range 0x1008 (Z.of_nat (length (demo_table sig))) a
           then zat (demo_table sig) (a - 0x1008) else 0.

(** A check that accepts one key on one range. *)
Definition demo_check (key sig data len : Z) (m : memory) : bool :=
  (key =? 7) && (data =? 0x1000) && (len =? 0x200).

Lemma demo_copies_avoid : copies_avoid_table 0x1010 2 (demo_memory 1).
Proof.
  intros j Hj. assert (j = 0 \/ j = 1) as [->| ->] by lia; vm_compute; discriminate.
Qed.

(** The started address is that of the bootable entry of the signed table. *)
Lemma jump_to_app_toc_verified_witness :
  jump_to_app_toc (BD := demo_toc_board) 0x1000 demo_check (demo_memory 1) = Some (0x1000, 0x1000) /\
  exists i, (i < 2)%nat /\ has_any (flags1 (entry_at (demo_memory 1) 0x1010 (Z.of_nat i))) TOC_FLAG1_BOOT = true /\
    0x1000 = get_base_addr (entry_at (demo_memory 1) 0x1010 (Z.of_nat i)) /\
    end_ (entry_at (demo_memory 1) 0x1010 0) >= 0x1010 + 2 * sizeof_entry.
Proof.
  assert (jump_to_app_toc (BD := demo_toc_board) 0x1000 demo_check (demo_memory 1) = Some (0x1000, 0x1000)) as J
    by (vm_compute; reflexivity).
  split; [exact J|].
  destruct (jump_to_app_toc_verified (BD := demo_toc_board) 0x1000 demo_check (demo_memory 1) 0x1000 0x1000 J)
    as (_ & toc & len & F & _ & _ & i & Hi & _ & [Hb Ha] & Hc).
  assert ((toc, len) = (0x1010, 2)) as [= -> ->] by (vm_compute in F; congruence).
  destruct (Hc demo_copies_avoid) as [_ E]. rewrite E in Hb, Ha.
  exists i. split; [exact Hi|]. split; [exact Hb|]. split; [exact Ha|]. vm_compute. discriminate.
Defined.

(** The signature index of the first entry is only checked against the
    capacity of a table, not against its length: a table of two entries whose
    first entry names entry 3, behind the end mark, is accepted. *)
Theorem find_toc_signature_beyond_end :
  find_toc (BD := demo_toc_board) 0x1000 (demo_memory 3) = Some (0x1010, 2) /\
  signature_idx (entry_at (demo_memory 3) 0x1010 0) = 3.
Proof. split; vm_compute; reflexivity. Qed.

End ImageToc.
