(* ===== verification/BoardMain.v ===== *)
(** * The STM32H7 port of the bootloader

    src/platforms/nuttx/src/bootloader/stm/stm32_common/main.c: the flash helpers
    that bl.c calls, implemented on the flash cache and NuttX's progmem driver, the
    chip description, the force-bootloader vote and the boot decision of
    [bootloader_main]. *)

From Stdlib Require Import Ascii String.
From S2P Require Import Prelude ProgMem FlashCache BootIface Bootloader.

Local Open Scope Z_scope.

Module BoardMain.
Import FlashCache.

(** A C string as its bytes. *)
Definition bytes_of (s : string) : list Z :=
  map (fun c => Z.of_N (N_of_ascii c)) (list_ascii_of_string s).

Definition char_of (s : string) : Z := nth 0 (bytes_of s) 0.

(** ** Chip description *)

Definition REVID_MASK : Z := 0xFFFF0000.
Definition DEVID_MASK : Z := 0xFFF.
Definition STM32_UNKNOWN : Z := 0.
Definition STM32H74xx_75xx : Z := 0x450.
Definition MCU_REV_Z : Z := 0x1001.
Definition MCU_REV_Y : Z := 0x1003.
Definition MCU_REV_X : Z := 0x2001.
Definition MCU_REV_V : Z := 0x2003.

Record mcu_des_t := { mcuid : Z; desc : list Z; rev : Z }.

Definition mcu_descriptions : list mcu_des_t := [
  {| mcuid := STM32_UNKNOWN;   desc := bytes_of "STM32???????";  rev := char_of "?" |};
  {| mcuid := STM32H74xx_75xx; desc := bytes_of "STM32H7[4|5]x"; rev := char_of "?" |} ].

Definition silicon_revs : list (Z * Z) := [
  (MCU_REV_Y, char_of "Y"); (MCU_REV_X, char_of "X");
  (MCU_REV_V, char_of "V"); (MCU_REV_Z, char_of "Z") ].

(** [for (...) if (mcuid == mcu_descriptions[i].mcuid) { des = ...; break; }] *)
Fixpoint find_desc (id : Z) (ds : list mcu_des_t) (des : mcu_des_t) : mcu_des_t :=
  match ds with
  | [] => des
  | d :: ds => if id =? mcuid d then d else find_desc id ds des
  end.

(** [if (strp < endp) *strp++ = b], the buffer ending one byte before [max]. *)
Definition put (max : Z) (out : list Z) (b : Z) : list Z :=
  if Z.of_nat (length out) <? max - 1 then out ++ [b] else out.

Definition mcu_desc (idcode max : Z) : list Z :=
  let id := Z.land idcode DEVID_MASK in
  let revid := Z.shiftr (Z.land idcode REVID_MASK) 16 in
  let des := find_desc id mcu_descriptions
               {| mcuid := STM32_UNKNOWN; desc := bytes_of "STM32???????"; rev := char_of "?" |} in
  let r := fold_left (fun r e => if fst e =? revid then snd e else r) silicon_revs (rev des) in
  let out := fold_left (put max) (desc des) [] in
  put max (put max out (char_of ",")) r.

(** ** Flash helpers *)

Section Flash.
Context {M : Type} {PM : ProgMem M} {BD : Board}.

(** The port's device: the cached flash, its lock, the chip's id code and unique id. *)
Record device := Device {
  dev_fc : fc_state M;
  dev_locked : bool;
  dev_idcode : Z;
  dev_uid : Z -> Z;
}.

Definition set_fc (s : fc_state M) (d : device) : device :=
  Device s (dev_locked d) (dev_idcode d) (dev_uid d).

Definition flash_lock (d : device) : device :=
  Device (dev_fc d) true (dev_idcode d) (dev_uid d).

(** [fc_reset(); stm32h7_flash_unlock(...)] *)
Definition flash_unlock (d : device) : device :=
  Device (fc_reset APP_LOAD_ADDRESS (dev_fc d)) false (dev_idcode d) (dev_uid d).

Definition sector_size (sector : Z) : Z :=
  if sector <=? BOARD_FLASH_SECTORS then 128 * 1024 else 0.

Definition erase_sector (sector : Z) (d : device) : device :=
  if (sector >? BOARD_FLASH_SECTORS) || (sector <? BOARD_FIRST_FLASH_SECTOR_TO_ERASE) then d
  else
    let fc := dev_fc d in
    let blank := up_progmem_ispageerased sector (fc_mem fc) =? 0 in
    if negb blank
    then set_fc (FC (fc_line0 fc) (fc_line1 fc)
                    (snd (up_progmem_eraseblock sector (fc_mem fc)))) d
    else d.

Definition write_word (address word : Z) (d : device) : device :=
  set_fc (snd (fc_write (u32 (address + APP_LOAD_ADDRESS)) word (dev_fc d))) d.

Definition read_word (address : Z) (d : device) : Z * device :=
  if has_any address 3 then (0, d)
  else let '(w, s) := fc_read (u32 (address + APP_LOAD_ADDRESS)) (dev_fc d) in (w, set_fc s d).

#[export] Instance h7_flash_funcs : FlashFuncs device := {|
  flash_func_sector_size := sector_size;
  flash_func_erase_sector := erase_sector;
  flash_func_write_word := write_word;
  flash_func_read_word := read_word;
  flash_func_read_otp := fun _ _ => 0;
  flash_func_read_sn := fun a d => dev_uid d a;
  arch_flash_lock := flash_lock;
  arch_flash_unlock := flash_unlock;
  get_mcu_id := dev_idcode;
  get_mcu_desc := fun max d => mcu_desc (dev_idcode d) max;
|}.

End Flash.

Arguments device : clear implicits.

(** ** The board side of the boot decision *)

Definition board_get_devices `{Board} (usb_connected : bool) : Z :=
  if usb_connected then Z.land BOOT_DEVICES_SELECTION BOOT_DEVICES_FILTER_ONUSB
  else BOOT_DEVICES_SELECTION.

(** More than 90% of the samples agree: [(vote * 100) > (samples * 90)]. *)
Definition vote_passes (vote samples : Z) : bool := vote * 100 >? samples * 90.

(** BOARD_FORCE_BL_PIN_IN/OUT: ten cycles of twenty reads with the output high, then low. *)
Definition force_pin_pair (cycles : list (list Z * list Z)) : bool :=
  let high := fun l => Z.of_nat (length (List.filter (fun v => negb (v =? 0)) l)) in
  let low := fun l => Z.of_nat (length (List.filter (fun v => v =? 0) l)) in
  let '(vote, samples) :=
    fold_left (fun '(v, n) '(hi, lo) =>
      (v + high hi + low lo, n + Z.of_nat (length hi) + Z.of_nat (length lo))) cycles (0, 0) in
  vote_passes vote samples.

(** BOARD_FORCE_BL_PIN: two hundred reads against the forcing level. *)
Definition force_pin_single (state : Z) (reads : list Z) : bool :=
  let vote := Z.of_nat (length (List.filter
                (fun v => (if v =? 0 then 0 else 1) =? state) reads)) in
  vote_passes vote (Z.of_nat (length reads)).

(** The sampling loop of [board_test_usart_receiving_break]: one read of the RX pin per
    half bit time, [cnt] reads so far, the last [low] of them low. *)
Fixpoint break_loop (cnt low : Z) (samples : list Z) : bool :=
  match samples with
  | [] => 18 <=? low
  | v :: samples =>
    if cnt <? 60 then
      let low := if v =? 0 then u8 (low + 1) else 0 in
      if 18 <=? low then true else break_loop (cnt + 1) low samples
    else 18 <=? low
  end.

Definition board_test_usart_receiving_break (samples : list Z) : bool := break_loop 0 0 samples.

Definition BOOT_RTC_SIGNATURE : Z := 0xb007b007.

(** What [bootloader_main] samples before it decides. *)
Record boot_inputs := {
  bi_rtc : Z;               (* board_get_rtc_signature() *)
  bi_sig1 : Z;              (* flash_func_read_word(BOOT_DELAY_ADDRESS) *)
  bi_sig2 : Z;              (* flash_func_read_word(BOOT_DELAY_ADDRESS + 4) *)
  bi_force_pin : bool;      (* board_test_force_pin() *)
  bi_vbus : bool;           (* px4_arch_gpioread(BOARD_VBUS) != 0 *)
  bi_break : bool;          (* board_test_usart_receiving_break() *)
}.

Record boot_plan := Plan {
  try_boot : bool;
  bp_timeout : Z;
  bp_rtc : Z;               (* the RTC signature left behind *)
  usb_connected : bool;
}.

(** [bootloader_main] up to the attempt to boot (INTERFACE_USB with BOARD_VBUS,
    INTERFACE_USART and BOOT_DELAY_ADDRESS defined, BOARD_POWER_PIN_OUT not). *)
Definition boot_decision `{Board} (i : boot_inputs) : boot_plan :=
  let p := Plan true BOOTLOADER_DELAY (bi_rtc i) false in
  let p := if bi_rtc i =? BOOT_RTC_SIGNATURE then Plan false 0 0 (usb_connected p) else p in
  let p :=
    if (bi_sig2 i =? Bl.BOOT_DELAY_SIGNATURE2)
       && (Z.land (bi_sig1 i) 0xFFFFFF00 =? Z.land Bl.BOOT_DELAY_SIGNATURE1 0xFFFFFF00) then
      let boot_delay := Z.land (bi_sig1 i) 0xFF in
      if boot_delay <=? Bl.BOOT_DELAY_MAX then
        Plan false (if bp_timeout p <? boot_delay * 1000 then boot_delay * 1000 else bp_timeout p)
             (bp_rtc p) (usb_connected p)
      else p
    else p in
  let p := if bi_force_pin i then Plan false (bp_timeout p) (bp_rtc p) (usb_connected p) else p in
  let p := if bi_vbus i then Plan false (bp_timeout p) (bp_rtc p) true else p in
  if bi_break i then Plan false (bp_timeout p) (bp_rtc p) (usb_connected p) else p.

(** The attempt to boot: [Some] of the jump, or the bootloader with no timeout and
    the RTC signature set. *)
Definition boot_attempt `{Board} (load : Z -> Z) (p : boot_plan) : (Z * Z) + boot_plan :=
  if try_boot p then
    match Bl.jump_to_app load with
    | Some j => inl j
    | None => inr (Plan true 0 BOOT_RTC_SIGNATURE (usb_connected p))
    end
  else inr p.

(** One pass of the final [while (1)] of [bootloader_main] once [bootloader] has
    returned: [inl] of the jump, or the timeout of the next run of the bootloader. *)
Definition after_bootloader `{Board} (load : Z -> Z) (force_pin brk : bool) (timeout : Z) :
    (Z * Z) + Z :=
  if force_pin then inr timeout
  else if brk then inr timeout
  else match Bl.jump_to_app load with Some j => inl j | None => inr 0 end.

(** ** Properties of the boot decision *)

(** Eighteen consecutive low samples within the first sixty. *)
Definition has_break (samples : list Z) : Prop :=
  exists i : nat, (i + 18 <= 60)%nat /\ (i + 18 <= length samples)%nat /\
    forall j : nat, (i <= j < i + 18)%nat -> nth j samples 1 = 0.

(** A run of eighteen lows when the [low] samples before [samples] were low. *)
Definition run_from (cnt low : nat) (samples : list Z) : Prop :=
  exists i : nat, (cnt + i <= 60)%nat /\ (i <= length samples)%nat /\ (18 <= i + low)%nat /\
    (forall j : nat, (i - 18 <= j < i)%nat -> nth j samples 1 = 0) /\
    ((18 <= i)%nat \/ (0 < i < 18)%nat /\ (18 - i <= low)%nat).

Lemma break_loop_low n : forall cnt low samples, (low < 18)%nat -> (cnt + n = 60)%nat ->
  break_loop (Z.of_nat cnt) (Z.of_nat low) samples = true <-> run_from cnt low samples.
Proof.
  induction n as [|n IH]; intros cnt low samples Hlow Hcnt.
  - split.
    + intros Hb. exfalso. destruct samples as [|v samples]; cbn [break_loop] in Hb;
        [apply Z.leb_le in Hb; lia|].
      rewrite (proj2 (Z.ltb_ge _ _)) in Hb by lia. apply Z.leb_le in Hb. lia.
    + intros (i & ? & ? & ? & ? & ?). lia.
  - destruct samples as [|v samples]; cbn [break_loop].
    { rewrite Z.leb_le. split; [lia|]. intros (i & ? & Hl & ? & ? & ?). simpl in Hl. lia. }
    rewrite (proj2 (Z.ltb_lt _ _)) by lia.
    destruct (Z.eqb_spec v 0) as [->|Hv].
    + rewrite wrap_small by (unfold fits; change (2 ^ 8) with 256; lia).
      replace (Z.of_nat low + 1) with (Z.of_nat (S low)) by lia.
      replace (Z.of_nat cnt + 1) with (Z.of_nat (S cnt)) by lia.
      destruct (Z.leb_spec 18 (Z.of_nat (S low))) as [H18|H18].
      * split; [intros _|done]. exists 1%nat. split; [lia|]. split; [simpl; lia|].
        split; [lia|]. split; [|right; lia]. intros j Hj. by replace j with 0%nat by lia.
      * rewrite IH by lia. split; intros (i & H1 & H2 & H3 & H4 & H5).
        -- exists (S i). split; [lia|]. split; [simpl; lia|]. split; [lia|]. split; [|lia].
           intros [|j] Hj; [done|]. cbn [nth]. apply H4. lia.
        -- destruct i as [|i]; [lia|]. simpl in H2. exists i. split; [lia|]. split; [lia|].
           split; [lia|]. split; [|lia]. intros j Hj. apply (H4 (S j)). lia.
    + change (18 <=? 0) with false. cbn iota.
      pose proof (IH (S cnt) 0%nat samples ltac:(lia) ltac:(lia)) as HI.
      change (Z.of_nat 0) with 0 in HI. rewrite Nat2Z.inj_succ in HI. unfold Z.succ in HI.
      rewrite HI.
      split; intros (i & H1 & H2 & H3 & H4 & H5).
      * exists (S i). split; [lia|]. split; [simpl; lia|]. split; [lia|]. split; [|lia].
        intros [|j] Hj; [lia|]. cbn [nth]. apply H4. lia.
      * assert (H0 : ~ (i - 18 <= 0 < i)%nat) by (intros Hj; by apply Hv, (H4 0%nat)).
        destruct i as [|i]; [lia|]. simpl in H2. exists i. split; [lia|]. split; [lia|].
        split; [lia|]. split; [|lia]. intros j Hj. apply (H4 (S j)). lia.
Qed.

(** The serial break test answers exactly whether the RX line was
    low for eighteen consecutive half-bit samples, nine bits, among the first sixty. *)
Theorem usart_break_detected samples :
  board_test_usart_receiving_break samples = true <-> has_break samples.
Proof.
  unfold board_test_usart_receiving_break. rewrite (break_loop_low 60 0 0) by lia. split.
  - intros (i & H1 & H2 & H3 & H4 & _). exists (i - 18)%nat. split; [lia|]. split; [lia|].
    intros j Hj. apply H4. lia.
  - intros (i & H1 & H2 & H3). exists (i + 18)%nat. split; [lia|]. split; [lia|]. split; [lia|].
    split; [|lia]. intros j Hj. apply H3. lia.
Qed.

(** The boot-delay signature, and the delay in milliseconds it asks for. *)
Definition delay_requested (i : boot_inputs) : option Z :=
  if (bi_sig2 i =? Bl.BOOT_DELAY_SIGNATURE2)
     && (Z.land (bi_sig1 i) 0xFFFFFF00 =? Z.land Bl.BOOT_DELAY_SIGNATURE1 0xFFFFFF00)
     && (Z.land (bi_sig1 i) 0xFF <=? Bl.BOOT_DELAY_MAX)
  then Some (Z.land (bi_sig1 i) 0xFF * 1000) else None.

(** The boot decision: the application is tried at once exactly
    when none of the reasons to stay is present (RTC signature, boot delay, force
    pin, USB power, serial break); the RTC signature is consumed; and the bootloader
    otherwise runs with the longer of the default and the requested delay, without
    any limit after an RTC request that no boot delay overrides. *)
Theorem boot_decision_spec `{Board} (i : boot_inputs) :
  let p := boot_decision i in
  (try_boot p = true <->
     bi_rtc i <> BOOT_RTC_SIGNATURE /\ delay_requested i = None /\
     bi_force_pin i = false /\ bi_vbus i = false /\ bi_break i = false) /\
  bp_rtc p = (if bi_rtc i =? BOOT_RTC_SIGNATURE then 0 else bi_rtc i) /\
  usb_connected p = bi_vbus i /\
  bp_timeout p = (let t0 := if bi_rtc i =? BOOT_RTC_SIGNATURE then 0 else BOOTLOADER_DELAY in
                  match delay_requested i with Some d => Z.max t0 d | None => t0 end).
Proof.
  assert (Hmax : forall a b, (if a <? b then b else a) = Z.max a b)
    by (intros a b; destruct (Z.ltb_spec a b); lia).
  unfold boot_decision, delay_requested. cbv zeta. rewrite Hmax.
  destruct (Z.eqb_spec (bi_rtc i) BOOT_RTC_SIGNATURE) as [Er|Er]; cbn [bp_timeout bp_rtc usb_connected];
  destruct (bi_sig2 i =? _); destruct (Z.land (bi_sig1 i) 0xFFFFFF00 =? _); cbn [andb];
  try (destruct (Z.land (bi_sig1 i) 0xFF <=? _));
  destruct (bi_force_pin i), (bi_vbus i), (bi_break i);
  cbn [try_boot bp_rtc usb_connected bp_timeout]; split_and!; try done;
  (split; [done|]); intros (? & ? & ? & ? & ?); done.
Qed.

End BoardMain.

(** ** The port provides the contract of the upload protocol *)
Module BoardSpec.
Import FlashCache BoardMain.

(** What a board's constants and the driver's block map must satisfy: the
    application area is aligned to cache lines, lies inside the flash and below the
    top of the address space, and is covered by the sectors the bootloader erases. *)
Class BoardOk (M : Type) {PM : ProgMem M} {PL : ProgMemLaws M} {BD : Board} : Prop := {
  ok_app_aligned : APP_LOAD_ADDRESS mod 32 = 0;
  ok_fw_aligned : fw_size mod 32 = 0;
  ok_app_low : 0 <= APP_LOAD_ADDRESS;
  ok_fw_low : 0 <= fw_size;
  ok_app_high : APP_LOAD_ADDRESS + fw_size <= 2 ^ 32 - 32;
  ok_app_flash : pm_base <= APP_LOAD_ADDRESS /\ APP_LOAD_ADDRESS + fw_size <= pm_base + pm_size;
  ok_sectors : 0 <= BOARD_FIRST_FLASH_SECTOR_TO_ERASE /\ 0 <= BOARD_FLASH_SECTORS;
  ok_block : forall b, BOARD_FIRST_FLASH_SECTOR_TO_ERASE <= b <= BOARD_FLASH_SECTORS ->
    pm_base <= up_progmem_getaddress b /\
    up_progmem_getaddress b + up_progmem_pagesize b <= pm_base + pm_size;
  ok_cover : forall x, APP_LOAD_ADDRESS <= x < APP_LOAD_ADDRESS + fw_size ->
    exists b, BOARD_FIRST_FLASH_SECTOR_TO_ERASE <= b <= BOARD_FLASH_SECTORS /\
      in_range (up_progmem_getaddress b) (up_progmem_pagesize b) x = true;
}.

Section Spec.
Context {M : Type} {PM : ProgMem M} {PL : ProgMemLaws M} {BD : Board} {OK : BoardOk M}.

Definition dev_mem (d : device M) : M := fc_mem (dev_fc d).

(** The blocks below [i] that the bootloader may erase are erased. *)
Definition erased_below (i : Z) (m : M) : Prop :=
  forall b, BOARD_FIRST_FLASH_SECTOR_TO_ERASE <= b < i ->
    erased m (up_progmem_getaddress b) (up_progmem_pagesize b).

Lemma erase_sector_spec i d : 0 <= i <= BOARD_FLASH_SECTORS ->
  erased_below i (dev_mem d) ->
  erased_below (i + 1) (dev_mem (erase_sector i d)) /\
  fc_line0 (dev_fc (erase_sector i d)) = fc_line0 (dev_fc d) /\
  fc_line1 (dev_fc (erase_sector i d)) = fc_line1 (dev_fc d).
Proof.
  intros Hi He. unfold erase_sector.
  rewrite Z.gtb_ltb, (proj2 (Z.ltb_ge _ _)) by lia. cbn [orb].
  destruct (Z.ltb_spec i BOARD_FIRST_FLASH_SECTOR_TO_ERASE) as [Hf|Hf].
  { split; [|done]. intros b Hb. apply He. lia. }
  assert (Hcase : forall b m, erased_below i m ->
    erased m (up_progmem_getaddress i) (up_progmem_pagesize i) ->
    BOARD_FIRST_FLASH_SECTOR_TO_ERASE <= b < i + 1 ->
    erased m (up_progmem_getaddress b) (up_progmem_pagesize b)).
  { intros b m Hm Hmi Hb. destruct (decide (b = i)) as [->|]; [done|apply Hm; lia]. }
  destruct (Z.eqb_spec (up_progmem_ispageerased i (fc_mem (dev_fc d))) 0) as [Hbl|Hbl]; cbn [negb].
  - split; [|done]. intros b Hb. apply Hcase; [done|by apply pm_ispageerased_ok|done].
  - split; [|done]. destruct (ok_block (M := M) i (conj Hf (proj2 Hi))) as [Hlo Hhi].
    destruct (pm_erase_ok (fc_mem (dev_fc d)) i Hlo Hhi) as (m' & Hm & Hb').
    unfold dev_mem. cbn [set_fc dev_fc fc_mem]. rewrite Hm. cbn [snd].
    intros b Hb. apply Hcase; [| |done].
    + intros b2 Hb2 x Hx. rewrite Hb'. destruct (in_range _ _ x); [done|]. by apply (He b2 Hb2).
    + intros x Hx. rewrite Hb'. by rewrite (proj2 (in_rangeP _ _ _)).
Qed.

Lemma erase_loop_spec n i d : 0 <= i -> i + Z.of_nat n = BOARD_FLASH_SECTORS + 2 ->
  erased_below i (dev_mem d) ->
  let d' := erase_sectors n i d in
  erased_below (BOARD_FLASH_SECTORS + 1) (dev_mem d') /\
  fc_line0 (dev_fc d') = fc_line0 (dev_fc d) /\ fc_line1 (dev_fc d') = fc_line1 (dev_fc d).
Proof.
  revert i d. induction n as [|n IH]; intros i d Hi Hn He; cbn [erase_sectors].
  - split; [|done]. intros b Hb. apply He. lia.
  - change (flash_func_sector_size i) with (sector_size i). unfold sector_size.
    destruct (Z.leb_spec i BOARD_FLASH_SECTORS) as [Hle|Hgt].
    + change (128 * 1024 =? 0) with false. cbn iota.
      destruct (erase_sector_spec i d) as (He' & H0 & H1); [lia|done|].
      change (flash_func_erase_sector i d) with (erase_sector i d).
      rewrite <- H0, <- H1. apply IH; [lia|lia|done].
    + split; [|done]. intros b Hb. apply He. lia.
Qed.

Lemma area_erased m : erased_below (BOARD_FLASH_SECTORS + 1) m ->
  erased m APP_LOAD_ADDRESS fw_size.
Proof.
  intros He x Hx. destruct (ok_cover x Hx) as (b & Hb & Hr%in_rangeP).
  apply (He b); [lia|done].
Qed.

Lemma erased_below_first m : erased_below 0 m.
Proof. intros b Hb. destruct (ok_sectors (M := M)). lia. Qed.

(** Word addresses of the application area pass [flash_func_*] unchanged. *)
Lemma word_addr i : 0 <= i -> 4 * i < fw_size ->
  has_any (4 * i) 3 = false /\ u32 (4 * i + APP_LOAD_ADDRESS) = APP_LOAD_ADDRESS + 4 * i.
Proof.
  intros Hi Hlt. split.
  - unfold has_any. change 3 with (Z.ones 2). rewrite Z.land_ones by lia.
    replace (4 * i) with (i * 2 ^ 2) by lia. by rewrite Z_mod_mult.
  - pose proof (ok_app_low (M := M)). pose proof (ok_app_high (M := M)).
    rewrite wrap_small; [lia|]. unfold fits. lia.
Qed.

Abbreviation h7_session := (session APP_LOAD_ADDRESS fw_size).

Lemma read_word_spec d ws op i : h7_session (dev_fc d) ws op -> 0 <= i -> 4 * i < fw_size ->
  exists s' op', read_word (4 * i) d = (image ws i, set_fc s' d) /\ h7_session s' ws op' /\
    (ws = [] -> op' = op).
Proof.
  intros Hs Hi Hlt. destruct (word_addr i Hi Hlt) as [H3 Ha]. unfold read_word. rewrite H3, Ha.
  destruct (session_read APP_LOAD_ADDRESS fw_size ok_app_aligned ok_fw_aligned ok_app_low
    ok_app_high ok_app_flash (dev_fc d) ws op i Hs) as (s' & op' & Hr & Hs' & Hop).
  { pose proof (ok_fw_aligned (M := M)). Z.div_mod_to_equations. lia. }
  rewrite Hr. exists s', op'. split; [done|]. split; [done|]. intros ->. apply Hop. by right.
Qed.

#[export, refine] Instance h7_upload : UploadFlash (device M) := {|
  uf_min := 8;
  uf_session := fun d ws op => h7_session (dev_fc d) ws op;
  uf_stored := fun d i => pm_word (dev_mem d) (APP_LOAD_ADDRESS + 4 * i);
|}.
Proof.
  - destruct (ok_sectors (M := M)) as [_ Hb]. split; [done|]. cbn. unfold sector_size.
    by rewrite (proj2 (Z.leb_gt _ _)) by lia.
  - intros d. destruct (ok_sectors (M := M)) as [_ Hb].
    destruct (erase_loop_spec erase_fuel 0 (flash_unlock d)) as (He & H0 & H1);
      [lia|unfold erase_fuel; lia|apply erased_below_first|].
    cbn [arch_flash_unlock h7_flash_funcs]. set (d' := erase_sectors _ _ _) in *.
    assert (dev_fc d' = fc_reset APP_LOAD_ADDRESS (dev_fc d')) as ->.
    { destruct (dev_fc d') as [l0 l1 m]. cbn in H0, H1. by rewrite H0, H1. }
    apply session_start; [apply ok_fw_aligned|apply ok_fw_low|by apply area_erased].
  - intros d ws op i Hs Hi Hlt.
    destruct (read_word_spec d ws op i Hs Hi Hlt) as (s' & op' & Hr & Hs' & Hop).
    by exists (set_fc s' d), op'.
  - intros d ws w Hs Hlt Hw H0.
    destruct (word_addr (Z.of_nat (length ws)) ltac:(lia) Hlt) as [H3 Ha].
    destruct (session_prog APP_LOAD_ADDRESS fw_size ok_app_aligned ok_fw_aligned ok_app_low
      ok_app_high ok_app_flash (dev_fc d) ws w Hs Hlt Hw H0) as (s' & Hr & Hs').
    cbn [flash_func_read_word flash_func_write_word h7_flash_funcs]. unfold read_word, write_word.
    rewrite H3, Ha. cbn [set_fc dev_fc]. rewrite Hr. by eexists.
  - intros d ws op w Hs Hn Hw.
    destruct (session_commit APP_LOAD_ADDRESS fw_size ok_app_aligned ok_fw_aligned ok_app_low
      ok_app_high ok_app_flash (dev_fc d) ws op w Hs ltac:(lia) Hw) as (s' & Hr & Hst).
    assert (Hfw : 0 < fw_size) by (destruct Hs as (_ & _ & _ & Hlen & _); lia).
    destruct (word_addr 0 ltac:(lia) ltac:(lia)) as [H3 Ha].
    rewrite Z.mul_0_r, Z.add_0_r, Z.add_0_l in *.
    cbn [flash_func_read_word flash_func_write_word h7_flash_funcs]. unfold read_word, write_word.
    rewrite H3, Z.add_0_l, Ha. cbn [set_fc dev_fc]. rewrite Hr. eexists. split; [done|].
    intros i Hi Hlt. apply Hst. pose proof (ok_fw_aligned (M := M)). Z.div_mod_to_equations. lia.
Defined.

End Spec.
End BoardSpec.
