(* ===== verification/BootUpload.v ===== *)
(** * Uploading firmware, end to end

    What the bootloader of [Bootloader] does when a host follows the protocol: the
    replies it sends and the flash it leaves behind, proved against the contract
    [UploadFlash] of the flash functions, which [BoardMain] discharges for the
    STM32H7 port. *)

From S2P Require Import Prelude Crc ProgMem FlashCache BootIface Bootloader BootSafety BoardMain.

Local Open Scope Z_scope.

Module BootUpload.
Import Bl BlLogic BlSafety.

(** A host on the USB port whose bytes are there when the bootloader asks. *)
Definition say (bs : list Z) : list poll := map (fun b => Poll b (-1) 0) bs.

Definition prog_command (ws : list Z) : list Z :=
  PROTO_PROG_MULTI :: Z.of_nat (4 * length ws) :: words_bytes ws ++ [PROTO_EOC].

(** The words that PROG_MULTI programs for a chunk: the first word of the image
    is replaced by 0xffffffff. *)
Definition held_back (ws chunk : list Z) : list Z :=
  match ws, chunk with
  | [], _ :: cs => 0xffffffff :: cs
  | _, _ => chunk
  end.

(** Waiting leaves the device and the output alone. *)
Lemma tick_frame {F} n (s : bl F) :
  output (Nat.iter n sys_tick_handler s) = output s /\
  flash (Nat.iter n sys_tick_handler s) = flash s.
Proof.
  induction n as [|n IH]; [done|]. change (Nat.iter (S n) ?f s) with (f (Nat.iter n f s)).
  destruct IH as [<- <-]. generalize (Nat.iter n sys_tick_handler s). intros t.
  unfold sys_tick_handler. cbv zeta. destruct (_led_state _); [destruct (_ =? 0)|..]; done.
Qed.

Lemma output_delay {F} n (s : bl F) : output (delay n s) = output s.
Proof. unfold delay. by rewrite (proj1 (tick_frame _ _)). Qed.

Lemma flash_delay {F} n (s : bl F) : flash (delay n s) = flash s.
Proof. unfold delay. by rewrite (proj2 (tick_frame _ _)). Qed.

Section Upload.
Context {F : Type} {BD : Board} {FF : FlashFuncs F} {UF : UploadFlash F}.
Context (devices : Z) (Husb : has_any devices USB0_DEV = true) (Hfw : fw_ok).

(** The bootloader in contact with the host on USB: the variables of [bootloader],
    the buffer, the script still to come, the bytes sent, and the device. *)
Record linked (st a f : Z) (buf : list Z) (inp : list poll) (out : list Z) (Q : F -> Prop)
    (s : bl F) : Prop := {
  lk_type : bl_type s = USB;
  lk_timeout : timeout s = 0;
  lk_state : bl_state s = st;
  lk_address : address s = a;
  lk_first : first_word s = f;
  lk_buf : flash_buffer s = buf;
  lk_tab : Crc.tab_ok (crctab s);
  lk_in : input s = inp;
  lk_out : output s = map (pair USB) out;
  lk_flash : Q (flash s);
}.

Abbreviation runs P m Q := (hoare P m Q (fun _ _ => False)).

Lemma runs_cin_wait t b st a f buf inp out Q : 0 <= b ->
  runs (linked st a f buf (Poll b (-1) 0 :: inp) out Q) (cin_wait devices t)
    (fun c s => c = b /\ linked st a f buf inp out Q s).
Proof.
  intros Hb s Hs. destruct Hs. unfold cin_wait. rewrite lk_in0. cbn [cin_loop].
  unfold cin. cbn [set_timer_at set_timer bl_type p_usb p_ticks]. rewrite lk_type0, Husb.
  change (USB =? USB) with true. rewrite orb_true_r. cbn [andb].
  rewrite (proj2 (Z.leb_le 0 b)) by done. cbn [Nat.iter nat_rect].
  rewrite (proj2 (Z.leb_le 0 b)) by done. split; [done|]. by constructor.
Qed.

Lemma runs_eoc t st a f buf inp out Q :
  runs (linked st a f buf (Poll PROTO_EOC (-1) 0 :: inp) out Q) (expect_eoc devices t)
    (fun _ => linked st a f buf inp out Q).
Proof.
  unfold expect_eoc, wait_for_eoc.
  apply hoare_bind with (fun ok s => ok = true /\ linked st a f buf inp out Q s).
  - eapply hoare_bind; [by apply runs_cin_wait|]. intros c. apply hoare_ret.
    by intros s [-> ?].
  - intros ok. intros s [-> Hs]. exact Hs.
Qed.

Lemma linked_cout bs st a f buf inp out Q s :
  linked st a f buf inp out Q s -> linked st a f buf inp (out ++ bs) Q (cout bs s).
Proof.
  intros Hs. destruct Hs. unfold cout. rewrite lk_type0. change (USB =? USB) with true.
  cbn [orb]. constructor; try done. cbn [set_output output]. by rewrite lk_out0, map_app.
Qed.

Lemma linked_bits m st a f buf inp out Q s :
  linked st a f buf inp out Q s -> linked (Z.lor st m) a f buf inp out Q (SET_BL_STATE m s).
Proof. intros Hs. destruct Hs. constructor; try done. cbn. by rewrite lk_state0. Qed.

Lemma linked_flash st a f buf inp out (Q Q' : F -> Prop) s :
  (forall x, Q x -> Q' x) -> linked st a f buf inp out Q s -> linked st a f buf inp out Q' s.
Proof. intros HQ Hs. destruct Hs. by constructor; auto. Qed.

(** One pass of the main loop on a command that ends in [break]. *)
Lemma linked_pass c cs st a f buf inp out Q st' a' f' B inp' out' Q' s : 0 <= c ->
  runs (linked st a f buf (cs ++ inp) out Q) (command devices c)
    (fun o s => o = Break /\ exists buf', B buf' /\ linked st' a' f' buf' inp' out' Q' s) ->
  linked st a f buf (Poll c (-1) 0 :: cs ++ inp) out Q s ->
  exists s' buf', bl_step devices s = Next s' /\ B buf' /\
    linked st' a' f' buf' inp' (out' ++ [PROTO_INSYNC; PROTO_OK]) Q' s'.
Proof.
  intros Hc Hrun Hs. unfold bl_step. cbn [wait_command].
  assert (Hs0 : linked st a f buf (Poll c (-1) 0 :: cs ++ inp) out Q (set_led_activity false s))
    by (destruct Hs; by constructor).
  replace (timeout (set_led_activity false s) =? 0) with true
    by (destruct Hs; cbn; by rewrite lk_timeout0).
  cbn [negb andb].
  pose proof (runs_cin_wait 0 c _ _ _ _ _ _ _ Hc _ Hs0) as Hw.
  destruct (cin_wait devices 0 (set_led_activity false s)) as [[e|c'] s1]; [done|].
  destruct Hw as [-> Hs1]. rewrite (proj2 (Z.ltb_ge c 0)) by done.
  specialize (Hrun (set_led_activity true s1) ltac:(destruct Hs1; by constructor)).
  destruct (command devices c (set_led_activity true s1)) as [[e|o] s2]; [done|].
  destruct Hrun as [-> (buf' & HB & Hs2)]. cbn [finish].
  replace (bl_type (set_timeout 0 s2) =? NONE) with false
    by (destruct Hs2; cbn; by rewrite lk_type0).
  eexists _, buf'. split; [done|]. split; [done|].
  apply linked_cout. destruct Hs2. by constructor.
Qed.

Lemma linked_step c cs st a f buf inp out Q st' a' f' buf' inp' out' Q' s : 0 <= c ->
  linked st a f buf (Poll c (-1) 0 :: cs ++ inp) out Q s ->
  runs (linked st a f buf (cs ++ inp) out Q) (command devices c)
    (fun o s => o = Break /\ linked st' a' f' buf' inp' out' Q' s) ->
  exists s', bl_step devices s = Next s' /\
    linked st' a' f' buf' inp' (out' ++ [PROTO_INSYNC; PROTO_OK]) Q' s'.
Proof.
  intros Hc Hs Hrun.
  destruct (linked_pass c cs st a f buf inp out Q st' a' f' (eq buf') inp' out' Q' s)
    as (s1 & b & ? & <- & ?); [done| |done|by exists s1].
  eapply hoare_post; [exact Hrun|]. intros o s1 [-> ?]. split; [done|]. by exists buf'.
Qed.

(** *** The commands of an upload *)

Lemma upload_device st a f buf inp out Q :
  runs (linked st a f buf (say [PROTO_DEVICE_BL_REV; PROTO_EOC] ++ inp) out Q)
    (command devices PROTO_GET_DEVICE)
    (fun o s => o = Break /\ linked (Z.lor st STATE_PROTO_GET_DEVICE) a f buf inp
                               (out ++ le_bytes 4 BL_PROTOCOL_VERSION) Q s).
Proof.
  change (command devices PROTO_GET_DEVICE) with (cmd_get_device devices).
  unfold cmd_get_device. eapply hoare_bind_val; [by apply runs_cin_wait|].
  change (PROTO_DEVICE_BL_REV <? 0) with false. apply hoare_bind_inv; [by apply hoare_ret|intros ?].
  eapply hoare_bind; [apply runs_eoc|]. intros _ s Hs.
  split; [done|]. by apply linked_bits, linked_cout.
Qed.

(** Scanning erased flash leaves the session empty. *)
Lemma upload_verify fuel k st f buf inp out :
  addr_ok (4 * k) -> 0 <= k -> fw_size - 4 * k < 4 * Z.of_nat fuel ->
  runs (linked st (4 * k) f buf inp out (fun x => uf_session x [] true)) (verify_erase fuel)
    (fun _ s => exists a, linked st a f buf inp out (fun x => uf_session x [] true) s).
Proof.
  revert k. induction fuel as [|fuel IH]; intros k Ha Hk Hlt; [destruct Ha as [? _]; lia|].
  cbn [verify_erase]. apply hoare_bind with
    (fun a s => a = 4 * k /\ linked st (4 * k) f buf inp out (fun x => uf_session x [] true) s).
  { apply hoare_gets. intros s Hs. by destruct Hs. }
  intros a s [-> Hs]. destruct (Z.ltb_spec (4 * k) fw_size) as [Hin|]; [|by exists (4 * k)].
  destruct Hs. destruct (uf_read (flash s) [] true k) as (x & op & Hr & Hx & Hop); [done..|].
  rewrite Hop in Hx by done.
  unfold mbind, M_bind, read_word, gets, modify. rewrite Hr.
  change (image [] k) with (if k <? 0 then zat [] k else 0xffffffff).
  rewrite (proj2 (Z.ltb_ge k 0)) by done. cbn [negb Z.eqb Pos.eqb goto_if mret M_ret].
  rewrite (u32_next Hfw) by done. replace (4 * k + 4) with (4 * (k + 1)) by lia.
  refine (IH (k + 1) _ _ _ _ _); [|lia|lia|by constructor].
  replace (4 * (k + 1)) with (4 * k + 4) by lia. by apply (addr_next Hfw).
Qed.

Lemma linked_led l st a f buf inp out Q s :
  linked st a f buf inp out Q s -> linked st a f buf inp out Q (led_set l s).
Proof. intros Hs. destruct Hs. destruct l; by constructor. Qed.

Lemma linked_address a' st a f buf inp out Q s :
  linked st a f buf inp out Q s -> linked st a' f buf inp out Q (set_address a' s).
Proof. intros Hs. destruct Hs. by constructor. Qed.

Lemma upload_erase st a f buf inp out Q :
  has_all st STATE_ALLOWS_ERASE = true ->
  runs (linked st a f buf (say [PROTO_EOC] ++ inp) out Q)
    (command devices PROTO_CHIP_ERASE)
    (fun o s => o = Break /\ linked (Z.lor st STATE_PROTO_CHIP_ERASE) 0 f buf inp out
                               (fun x => uf_session x [] true) s).
Proof.
  intros Hst. change (command devices PROTO_CHIP_ERASE) with (cmd_chip_erase devices).
  unfold cmd_chip_erase. eapply hoare_bind; [apply runs_eoc|]. intros ?.
  apply hoare_bind_val with st (linked st a f buf inp out Q).
  { apply hoare_gets. intros s Hs. by destruct Hs. }
  rewrite Hst. apply hoare_bind_inv; [by apply hoare_ret|intros ?].
  apply hoare_bind_inv; [apply hoare_modify; intros s; apply linked_led|intros ?].
  apply hoare_bind with (fun _ => linked st a f buf inp out (fun x => exists y, x = arch_flash_unlock y)).
  { apply hoare_modify. intros s Hs. destruct Hs. constructor; try done. by eexists. }
  intros ?. apply hoare_bind with (fun _ => linked st a f buf inp out (fun x => uf_session x [] true)).
  { apply hoare_modify. intros s Hs. destruct Hs. constructor; try done.
    destruct lk_flash0 as [y Hy]. cbn [set_flash flash]. rewrite Hy. apply uf_erase. }
  intros ?. apply hoare_bind_inv; [apply hoare_modify; intros s; apply linked_led|intros ?].
  apply hoare_bind with (fun _ => linked st 0 f buf inp out (fun x => uf_session x [] true)).
  { apply hoare_modify. intros s. apply (linked_address 0). }
  intros ?.
  pose proof (fw_fuel_enough Hfw). destruct Hfw as (? & _).
  eapply hoare_bind; [apply (upload_verify fw_fuel 0); [split; [lia|done]|lia|lia]|].
  intros _ s [a' Hs]. split; [done|]. by apply linked_led, linked_bits, (linked_address 0 _ a').
Qed.

(** *** PROG_MULTI *)

Lemma upload_fill bs : forall pre old st a f inp out Q,
  Forall is_byte bs -> (length bs <= length old)%nat ->
  runs (linked st a f (pre ++ old) (say bs ++ inp) out Q)
    (fill_buffer devices (length bs) (length pre))
    (fun _ => linked st a f (pre ++ bs ++ drop (length bs) old) inp out Q).
Proof.
  induction bs as [|b bs IH]; intros pre old st a f inp out Q Hb Hlen; [by apply hoare_ret|].
  apply Forall_cons in Hb as [Hb Hbs]. destruct old as [|o old]; [simpl in Hlen; lia|].
  cbn [length fill_buffer say map app]. assert (0 <= b < 256) by exact Hb.
  eapply hoare_bind_val; [apply runs_cin_wait; lia|].
  rewrite (proj2 (Z.ltb_ge b 0)) by lia. apply hoare_bind_inv; [by apply hoare_ret|intros ?].
  apply hoare_bind with (fun _ => linked st a f ((pre ++ [b]) ++ old) (say bs ++ inp) out Q).
  { apply hoare_modify. intros s Hs. destruct Hs. constructor; try done.
    cbn [set_flash_buffer flash_buffer]. rewrite lk_buf0, <- (Nat.add_0_r (length pre)), insert_app_r.
    rewrite wrap_small by done. by rewrite <- app_assoc. }
  intros ?. replace (S (length pre)) with (length (pre ++ [b])) by (rewrite length_app; simpl; lia).
  eapply hoare_post; [apply IH; [done|simpl in Hlen; lia]|]. intros ? s.
  by rewrite <- app_assoc.
Qed.

Lemma upload_words vs : forall i ws st f buf inp out,
  (forall j, (j < length vs)%nat ->
     le_value (take 4 (drop (4 * (i + j)) buf)) = zat vs (Z.of_nat j)) ->
  Forall (fits 32) vs -> (ws = [] -> vs <> [] -> zat vs 0 = 0xffffffff) ->
  4 * Z.of_nat (length ws + length vs) <= fw_size ->
  runs (linked st (4 * Z.of_nat (length ws)) f buf inp out (fun x => uf_session x ws true))
    (program_words (length vs) i)
    (fun _ => linked st (4 * Z.of_nat (length ws + length vs)) f buf inp out
                (fun x => uf_session x (ws ++ vs) true)).
Proof.
  induction vs as [|v vs IH]; intros i ws st f buf inp out Hbuf Hf H0 Hlim; cbn [length program_words].
  { apply hoare_ret. rewrite app_nil_r, Nat.add_0_r. done. }
  apply Forall_cons in Hf as [Hv Hvs]. cbn [length] in Hlim. intros s Hs.
  destruct Hs. unfold mbind, M_bind, gets, write_word, read_word, modify.
  cbn [set_flash flash address flash_buffer]. rewrite lk_address0.
  assert (Hw : buffer_word s i = v).
  { unfold buffer_word. rewrite lk_buf0. specialize (Hbuf 0%nat ltac:(simpl; lia)).
    by rewrite Nat.add_0_r in Hbuf. }
  rewrite Hw.
  destruct (uf_prog (flash s) ws v) as (x & Hr & Hx); [done|lia|done|by intros ->; apply H0|].
  rewrite Hr, Z.eqb_refl. cbn [negb goto_if mret M_ret].
  assert (Ha : addr_ok (4 * Z.of_nat (length ws)))
    by (split; [lia|by rewrite Z.mul_comm, Z_mod_mult]).
  rewrite (u32_next Hfw) by done.
  replace (ws ++ v :: vs) with ((ws ++ [v]) ++ vs) by (by rewrite <- app_assoc).
  assert (Hl : length (ws ++ [v]) = S (length ws)) by (rewrite length_app; simpl; lia).
  replace (length ws + S (length vs))%nat with (length (ws ++ [v]) + length vs)%nat by lia.
  refine (IH (S i) (ws ++ [v]) st f buf inp out _ _ _ _ _ _); [|done|..].
  - intros j Hj. specialize (Hbuf (S j) ltac:(simpl; lia)).
    replace (S i + j)%nat with (i + S j)%nat by lia. rewrite Hbuf. unfold zat. by rewrite !Nat2Z.id.
  - by destruct ws.
  - lia.
  - constructor; try done. cbn [set_address address]. lia.
Qed.

Definition first_of (ws chunk : list Z) (f : Z) : Z :=
  match ws, chunk with [], c :: _ => c | _, _ => f end.

Lemma held_back_length ws cs : length (held_back ws cs) = length cs.
Proof. by destruct ws, cs. Qed.

Lemma held_back_fits ws cs : Forall (fits 32) cs -> Forall (fits 32) (held_back ws cs).
Proof. intros Hf. destruct ws; [|done]. destruct Hf; [done|]. constructor; [fits_const|done]. Qed.

Lemma words_bytes_byte ws : Forall is_byte (words_bytes ws).
Proof. unfold words_bytes. apply Forall_concat, Forall_map, Forall_true. intros. apply le_bytes_byte. Qed.

Lemma say_app xs ys : say (xs ++ ys) = say xs ++ say ys.
Proof. apply map_app. Qed.

Lemma upload_prog ws cs st f buf inp out :
  (0 < length cs <= 63)%nat -> Forall (fits 32) cs -> length buf = 256%nat ->
  4 * Z.of_nat (length ws + length cs) <= fw_size ->
  runs (linked st (4 * Z.of_nat (length ws)) f buf
         (say (Z.of_nat (4 * length cs) :: words_bytes cs ++ [PROTO_EOC]) ++ inp) out
         (fun x => uf_session x ws true))
    (command devices PROTO_PROG_MULTI)
    (fun o s => o = Break /\ exists buf', length buf' = 256%nat /\
       linked (Z.lor st STATE_PROTO_PROG_MULTI) (4 * Z.of_nat (length ws + length cs))
         (first_of ws cs f) buf' inp out (fun x => uf_session x (ws ++ held_back ws cs) true) s).
Proof.
  intros Hn Hf Hbuf Hlim. pose proof Hfw as (Hf0 & Hf4 & Hf32).
  change (command devices PROTO_PROG_MULTI) with (cmd_prog_multi devices).
  unfold cmd_prog_multi. cbn [say map app]. fold (say (words_bytes cs ++ [PROTO_EOC])).
  eapply hoare_bind_val; [apply runs_cin_wait; lia|].
  rewrite (proj2 (Z.ltb_ge _ 0)) by lia. apply hoare_bind_inv; [by apply hoare_ret|intros ?].
  replace (Z.rem (Z.of_nat (4 * length cs)) 4) with 0
    by (rewrite Nat2Z.inj_mul, Z.mul_comm, Z.rem_mul; lia).
  apply hoare_bind_inv; [by apply hoare_ret|intros ?].
  apply hoare_bind_val with (4 * Z.of_nat (length ws))
    (linked st (4 * Z.of_nat (length ws)) f buf (say (words_bytes cs ++ [PROTO_EOC]) ++ inp) out
       (fun x => uf_session x ws true)).
  { apply hoare_gets. intros s Hs. by destruct Hs. }
  rewrite (wrap_small 32) by (unfold fits; lia).
  rewrite (Z.gtb_ltb _ fw_size), (proj2 (Z.ltb_ge fw_size _)) by lia. apply hoare_bind_inv; [by apply hoare_ret|intros ?].
  rewrite (Z.gtb_ltb _ 256), (proj2 (Z.ltb_ge 256 _)) by lia. apply hoare_bind_inv; [by apply hoare_ret|intros ?].
  set (rest := drop (length (words_bytes cs)) buf).
  assert (Hrest : length (words_bytes cs ++ rest) = 256%nat).
  { unfold rest. rewrite length_app, length_drop, words_bytes_length, Hbuf. lia. }
  apply hoare_bind with (fun _ => linked st (4 * Z.of_nat (length ws)) f (words_bytes cs ++ rest)
    (say [PROTO_EOC] ++ inp) out (fun x => uf_session x ws true)).
  { rewrite Nat2Z.id, say_app, <- app_assoc. replace (4 * length cs)%nat with (length (words_bytes cs))
      by apply words_bytes_length.
    apply (upload_fill (words_bytes cs) [] buf); [apply words_bytes_byte|].
    rewrite words_bytes_length, Hbuf. lia. }
  intros ?. eapply hoare_bind; [apply runs_eoc|]. intros ?.
  apply hoare_bind with (fun _ => linked st (4 * Z.of_nat (length ws)) (first_of ws cs f)
    (words_bytes (held_back ws cs) ++ rest) inp out (fun x => uf_session x ws true)).
  { destruct ws as [|w0 ws']; [|rewrite (proj2 (Z.eqb_neq _ 0)) by (simpl; lia); by apply hoare_ret].
    destruct cs as [|c cs]; [simpl in Hn; lia|]. change (4 * Z.of_nat (length []) =? 0) with true.
    intros s Hs. unfold mbind, M_bind, gets, modify. destruct Hs.
    constructor; try done.
    - cbn [set_buffer_word0 set_flash_buffer set_first_word first_word first_of].
      unfold buffer_word. rewrite lk_buf0. rewrite (words_bytes_word (c :: cs) rest 0) by (simpl; lia).
      apply Forall_cons in Hf as [Hc _]. by apply (le_value_bytes 4).
    - unfold set_buffer_word0. cbn [set_flash_buffer flash_buffer set_first_word held_back].
      rewrite lk_buf0. by rewrite !(words_bytes_cons _ cs), <- !app_assoc,
        drop_app_length' by (by rewrite le_bytes_length). }
  intros ?. apply hoare_bind with (fun _ => linked st (4 * Z.of_nat (length ws + length cs))
    (first_of ws cs f) (words_bytes (held_back ws cs) ++ rest) inp out
    (fun x => uf_session x (ws ++ held_back ws cs) true)).
  { replace (Z.to_nat (Z.of_nat (4 * length cs) / 4)) with (length (held_back ws cs))
      by (rewrite held_back_length, Nat2Z.inj_mul, Z.mul_comm, Z.div_mul; lia).
    rewrite <- (held_back_length ws cs). apply upload_words.
    - intros j Hj. rewrite Nat.add_0_l, words_bytes_word by done. apply (le_value_bytes 4).
      pose proof (held_back_fits ws cs Hf) as Hh. rewrite Forall_forall in Hh. apply Hh.
      apply list_elem_of_In, nth_In. lia.
    - by apply held_back_fits.
    - intros -> _. by destruct cs; [simpl in Hn; lia|].
    - by rewrite held_back_length. }
  intros ? s Hs. split; [done|]. exists (words_bytes (held_back ws cs) ++ rest). split.
  - by rewrite length_app, words_bytes_length, held_back_length, <- words_bytes_length, <- length_app.
  - by apply linked_bits.
Qed.

(** *** GET_CRC and BOOT *)

(** Words of the application area, and its contents once the first word is committed. *)
Definition area_words : nat := Z.to_nat (fw_size / 4).
Definition area (ws : list Z) (k n : nat) : list Z :=
  map (fun j => image ws (Z.of_nat j)) (seq k n).

Lemma crc32_word_spec w sum st a f buf inp out Q : fits 32 sum ->
  runs (linked st a f buf inp out Q) (crc32_word w sum)
    (fun r s => r = Crc.crc32_signature sum (le_bytes 4 w) /\ linked st a f buf inp out Q s).
Proof.
  intros Hsum s Hs. unfold crc32_word. destruct Hs.
  rewrite Crc.crc32_table by (try done; apply le_bytes_byte).
  split; [done|]. constructor; try done. by right.
Qed.

Lemma upload_crc_loop fuel : forall k sum ws st a f buf inp out,
  ws <> [] -> f <> 0xffffffff -> fits 32 sum -> (k <= area_words)%nat ->
  (area_words - k < fuel)%nat ->
  runs (linked st a f buf inp out (fun x => exists op, uf_session x ws op))
    (crc_loop fuel (4 * Z.of_nat k) sum)
    (fun r s => r = Crc.crc32_signature sum (words_bytes (area (f :: tl ws) k (area_words - k))) /\
       linked st a f buf inp out (fun x => exists op, uf_session x ws op) s).
Proof.
  pose proof Hfw as (Hf0 & Hf4 & Hf32).
  induction fuel as [|fuel IH]; intros k sum ws st a f buf inp out Hws Hf Hsum Hk Hfuel; [lia|].
  cbn [crc_loop]. destruct (Z.ltb_spec (4 * Z.of_nat k) fw_size) as [Hlt|Hge].
  - assert (Hk' : (k < area_words)%nat) by (unfold area_words; Z.div_mod_to_equations; lia).
    assert (Himg : image (f :: tl ws) (Z.of_nat k) = if Z.of_nat k =? 0 then f else image ws (Z.of_nat k))
      by (apply image_cons; [done|lia]).
    apply hoare_bind_val with f (linked st a f buf inp out (fun x => exists op, uf_session x ws op)).
    { apply hoare_gets. intros s Hs. by destruct Hs. }
    apply hoare_bind_val with (image (f :: tl ws) (Z.of_nat k))
      (linked st a f buf inp out (fun x => exists op, uf_session x ws op)).
    { rewrite (proj2 (Z.eqb_neq f _)) by done. rewrite andb_true_r, Himg.
      replace (4 * Z.of_nat k =? 0) with (Z.of_nat k =? 0)
        by (destruct (Z.eqb_spec (Z.of_nat k) 0), (Z.eqb_spec (4 * Z.of_nat k) 0); lia).
      destruct (Z.of_nat k =? 0); [by apply hoare_ret|].
      intros s Hs. destruct Hs. destruct lk_flash0 as [op Hx]. unfold read_word.
      destruct (uf_read (flash s) ws op (Z.of_nat k)) as (x & op' & Hr & Hx' & _); [done|lia|lia|].
      rewrite Hr. split; [done|]. constructor; try done. by exists op'. }
    eapply hoare_bind_val; [by apply crc32_word_spec|].
    assert (Ha : addr_ok (4 * Z.of_nat k)) by (split; [lia|by rewrite Z.mul_comm, Z_mod_mult]).
    rewrite (u32_next Hfw) by done. replace (4 * Z.of_nat k + 4) with (4 * Z.of_nat (S k)) by lia.
    replace (area_words - k)%nat with (S (area_words - S k)) by lia.
    eapply hoare_post; [apply IH; try done; [|lia..]|].
    + apply Crc.crc32_signature_fits; [done|apply le_bytes_byte].
    + intros r s [-> Hs]. split; [|done]. unfold area. cbn [seq map].
      by rewrite words_bytes_cons, Crc.crc32_signature_app.
  - replace (area_words - k)%nat with 0%nat by (unfold area_words; Z.div_mod_to_equations; lia).
    by apply hoare_ret.
Qed.

Definition area_crc (ws : list Z) : Z :=
  Crc.crc32_signature 0 (words_bytes (area ws 0 area_words)).

Lemma upload_crc ws st a f buf inp out :
  ws <> [] -> f <> 0xffffffff ->
  runs (linked st a f buf (say [PROTO_EOC] ++ inp) out (fun x => exists op, uf_session x ws op))
    (command devices PROTO_GET_CRC)
    (fun o s => o = Break /\
       linked (Z.lor st STATE_PROTO_GET_CRC) a f buf inp (out ++ le_bytes 4 (area_crc (f :: tl ws)))
         (fun x => exists op, uf_session x ws op) s).
Proof.
  intros Hws Hf. change (command devices PROTO_GET_CRC) with (cmd_get_crc devices).
  unfold cmd_get_crc. eapply hoare_bind; [apply runs_eoc|]. intros ?.
  eapply hoare_bind_val.
  - pose proof (upload_crc_loop fw_fuel 0 0 ws st a f buf inp out Hws Hf) as Hl.
    change (4 * Z.of_nat 0) with 0 in Hl. rewrite Nat.sub_0_r in Hl. apply Hl; [fits_const|lia|].
    pose proof (fw_fuel_enough Hfw). destruct Hfw as (? & _). unfold area_words.
    generalize dependent fw_fuel. intros. Z.div_mod_to_equations. lia.
  - intros s Hs. split; [done|]. by apply linked_bits, linked_cout.
Qed.

(** What writing the first word [f] and reading it back leaves in the device. *)
Definition commits (ws : list Z) (f : Z) (R : F -> Prop) : Prop :=
  forall x op, uf_session x ws op ->
  exists x', flash_func_read_word 0 (flash_func_write_word 0 f x) = (f, x') /\ R x'.

(** BOOT commits the first word, answers, and leaves the bootloader. *)
Lemma upload_boot ws st a f buf inp out R :
  has_all st STATE_ALLOWS_REBOOT = true -> commits ws f R -> f <> 0xffffffff ->
  runs (linked st a f buf (say [PROTO_EOC] ++ inp) out (fun x => exists op, uf_session x ws op))
    (command devices PROTO_BOOT)
    (fun o s => o = Return /\ output s = map (pair USB) (out ++ [PROTO_INSYNC; PROTO_OK]) /\
       R (flash s)).
Proof.
  intros Hst HR Hf. change (command devices PROTO_BOOT) with (cmd_boot devices).
  unfold cmd_boot. eapply hoare_bind; [apply runs_eoc|]. intros ? s2 Hs.
  destruct Hs. destruct lk_flash0 as [op Hx].
  destruct (HR _ _ Hx) as (x & Hr & HRx).
  unfold mbind, M_bind, gets, write_word, read_word, modify.
  rewrite lk_first0, lk_state0, Hst, (proj2 (Z.eqb_neq f _)) by done.
  cbn [negb andb goto_if mret M_ret set_flash flash]. rewrite Hr, Z.eqb_refl.
  cbn [negb goto_if mret M_ret]. split; [done|].
  set (t := set_first_word 0xffffffff _).
  assert (Ht : linked st a 0xffffffff buf inp out (fun y => y = x) t) by (by constructor).
  pose proof (linked_cout [PROTO_INSYNC; PROTO_OK] _ _ _ _ _ _ _ _ Ht) as Hc.
  change (cout _ t) with (sync_response t) in Hc. destruct Hc. split.
  - rewrite output_delay. done.
  - by rewrite flash_delay, lk_flash0.
Qed.

(** *** The whole upload *)

Definition blanked (ws : list Z) : list Z :=
  match ws with [] => [] | _ :: ws => 0xffffffff :: ws end.

Lemma blanked_length ws : length (blanked ws) = length ws.
Proof. by destruct ws. Qed.

Lemma blanked_app ws cs : blanked ws ++ held_back (blanked ws) cs = blanked (ws ++ cs).
Proof. destruct ws; [by destruct cs|done]. Qed.

Lemma first_of_app ws cs :
  first_of (blanked ws) cs (hd 0xffffffff ws) = hd 0xffffffff (ws ++ cs).
Proof. destruct ws; [by destruct cs|done]. Qed.

(** [n] passes of the main loop that end in another pass. *)
Inductive passes : nat -> bl F -> bl F -> Prop :=
| passes_O s : passes 0 s s
| passes_S n s s1 s2 : bl_step devices s = Next s1 -> passes n s1 s2 -> passes (S n) s s2.

Lemma passes_trans n1 n2 s1 s2 s3 : passes n1 s1 s2 -> passes n2 s2 s3 -> passes (n1 + n2) s1 s3.
Proof. induction 1; [done|]. intros. econstructor; eauto. Qed.

Lemma passes_loop n k s s' : passes n s s' -> bl_loop devices (n + k) s = bl_loop devices k s'.
Proof. induction 1 as [|n s s1 s2 Hs _ IH]; [done|]. cbn [Nat.add bl_loop]. by rewrite Hs. Qed.

Definition OK : list Z := [PROTO_INSYNC; PROTO_OK].

Lemma wait_usb t b inp (s : bl F) : input s = Poll b (-1) 0 :: inp -> 0 <= b ->
  bl_type s = NONE \/ bl_type s = USB ->
  cin_wait devices t s =
    (inr b, set_input inp (set_cin_count (u32 (cin_count s + 1))
              (set_last_input USB (set_timer_at TIMER_CIN t s)))).
Proof.
  intros Hi Hb Ht. unfold cin_wait. rewrite Hi. cbn [cin_loop]. unfold cin.
  change (bl_type (set_timer_at TIMER_CIN t s)) with (bl_type s).
  rewrite Husb. cbn [p_usb p_ticks]. rewrite (proj2 (Z.leb_le 0 b)) by done.
  replace ((bl_type s =? NONE) || (bl_type s =? USB)) with true by (by destruct Ht as [-> | ->]).
  cbn [andb Nat.iter nat_rect]. by rewrite (proj2 (Z.leb_le 0 b)) by done.
Qed.

(** The first SYNC settles the bootloader on the port it came from. *)
Lemma upload_sync inp (s : bl F) (Q : F -> Prop) :
  input s = say [PROTO_GET_SYNC; PROTO_EOC] ++ inp -> bl_type s = NONE -> timeout s = 0 ->
  bl_state s = 0 -> Crc.tab_ok (crctab s) -> output s = [] -> Q (flash s) ->
  exists s', bl_step devices s = Next s' /\
    linked STATE_PROTO_GET_SYNC (address s) (first_word s) (flash_buffer s) inp OK Q s'.
Proof.
  intros Hi Hn Ht Hst Htab Hout HQ. unfold bl_step. cbn [wait_command].
  change (timeout (set_led_activity false s)) with (timeout s). rewrite Ht.
  change (negb (0 =? 0)) with false. cbn [andb].
  erewrite wait_usb; [|exact Hi|done|by left]. change (PROTO_GET_SYNC <? 0) with false. cbn iota.
  change (command devices PROTO_GET_SYNC) with (cmd_get_sync (F := F) devices).
  unfold cmd_get_sync, expect_eoc, wait_for_eoc, mbind, M_bind.
  erewrite wait_usb; [|reflexivity|done|by left].
  change (PROTO_EOC =? PROTO_EOC) with true. cbn [negb goto_if mret M_ret modify finish].
  set (s1 := set_timeout 0 _). change (bl_type s1) with (bl_type s). rewrite Hn.
  change (NONE =? NONE) with true. cbn iota. change (last_input s1) with USB.
  eexists. split; [done|]. unfold sync_response.
  apply (linked_cout OK _ _ _ _ _ []). constructor; try done.
  change (Z.lor (bl_state s) STATE_PROTO_GET_SYNC = STATE_PROTO_GET_SYNC). by rewrite Hst.
Qed.

Definition chunk_ok (cs : list Z) : Prop := (0 < length cs <= 63)%nat /\ Forall (fits 32) cs.

Definition acks (chunks : list (list Z)) : list Z := concat (map (fun _ => OK) chunks).

Definition chunks_bits (st : Z) (chunks : list (list Z)) : Z :=
  match chunks with [] => st | _ => Z.lor st STATE_PROTO_PROG_MULTI end.

Lemma chunks_bits_next st cs chunks :
  chunks_bits (Z.lor st STATE_PROTO_PROG_MULTI) chunks = chunks_bits st (cs :: chunks).
Proof. destruct chunks; [done|]. cbn. by rewrite <- Z.lor_assoc, Z.lor_diag. Qed.

Lemma upload_chunk cs ws st buf inp out s : chunk_ok cs -> length buf = 256%nat ->
  4 * Z.of_nat (length (ws ++ cs)) <= fw_size ->
  linked st (4 * Z.of_nat (length ws)) (hd 0xffffffff ws) buf (say (prog_command cs) ++ inp) out
    (fun x => uf_session x (blanked ws) true) s ->
  exists s' buf', bl_step devices s = Next s' /\ length buf' = 256%nat /\
    linked (Z.lor st STATE_PROTO_PROG_MULTI) (4 * Z.of_nat (length (ws ++ cs)))
      (hd 0xffffffff (ws ++ cs)) buf' inp (out ++ OK)
      (fun x => uf_session x (blanked (ws ++ cs)) true) s'.
Proof.
  intros [Hn Hf] Hbuf Hlim Hs. rewrite length_app, <- (blanked_length ws) in *.
  rewrite <- blanked_app, <- first_of_app.
  pose proof (upload_prog (blanked ws) cs st (hd 0xffffffff ws) buf inp out Hn Hf Hbuf Hlim) as Hp.
  exact (linked_pass PROTO_PROG_MULTI _ _ _ _ _ _ _ _ _ _ _ (fun b => length b = 256%nat) _ _ _ s
    ltac:(done) Hp Hs).
Qed.

Lemma upload_chunks chunks : forall ws st buf inp out s,
  Forall chunk_ok chunks -> length buf = 256%nat ->
  4 * Z.of_nat (length (ws ++ concat chunks)) <= fw_size ->
  linked st (4 * Z.of_nat (length ws)) (hd 0xffffffff ws) buf
    (say (concat (map prog_command chunks)) ++ inp) out (fun x => uf_session x (blanked ws) true) s ->
  exists s' buf', passes (length chunks) s s' /\
    linked (chunks_bits st chunks) (4 * Z.of_nat (length (ws ++ concat chunks)))
      (hd 0xffffffff (ws ++ concat chunks)) buf' inp (out ++ acks chunks)
      (fun x => uf_session x (blanked (ws ++ concat chunks)) true) s'.
Proof.
  induction chunks as [|cs chunks IH]; intros ws st buf inp out s Hok Hbuf Hlim Hs.
  { exists s, buf. cbn [concat map acks]. unfold acks. cbn. rewrite !app_nil_r in *. by split; [constructor|]. }
  apply Forall_cons in Hok as [Hcs Hok]. cbn [map concat] in Hs, Hlim |- *.
  rewrite say_app, <- app_assoc in Hs. rewrite app_assoc in Hlim |- *.
  apply upload_chunk in Hs as (s1 & buf1 & Hstep & Hbuf1 & Hs1); [|done..|].
  - rewrite <- (chunks_bits_next st cs).
    apply IH in Hs1 as (s2 & buf2 & Hp & Hs2); [|done..].
    exists s2, buf2. split; [by econstructor|].
    change (acks (cs :: chunks)) with (OK ++ acks chunks). by rewrite app_assoc.
  - rewrite length_app in Hlim. lia.
Qed.

Lemma upload_last ws st a f buf inp out R s :
  has_all st STATE_ALLOWS_REBOOT = true -> commits ws f R -> f <> 0xffffffff ->
  linked st a f buf (Poll PROTO_BOOT (-1) 0 :: say [PROTO_EOC] ++ inp) out
    (fun x => exists op, uf_session x ws op) s ->
  exists s', bl_step devices s = Returned s' /\
    output s' = map (pair USB) (out ++ OK) /\ R (flash s').
Proof.
  intros Hst HR Hf Hs. unfold bl_step. cbn [wait_command].
  replace (timeout (set_led_activity false s) =? 0) with true
    by (destruct Hs; cbn; by rewrite lk_timeout0).
  cbn [negb andb].
  pose proof (runs_cin_wait 0 PROTO_BOOT st a f buf (say [PROTO_EOC] ++ inp) out
    (fun x => exists op, uf_session x ws op) ltac:(done) (set_led_activity false s)
    ltac:(destruct Hs; by constructor)) as Hw.
  destruct (cin_wait devices 0 (set_led_activity false s)) as [[e|c] s1]; [done|].
  destruct Hw as [-> Hs1]. change (PROTO_BOOT <? 0) with false. cbn iota.
  pose proof (upload_boot ws st a f buf inp out R Hst HR Hf (set_led_activity true s1)
    ltac:(destruct Hs1; by constructor)) as Hb.
  destruct (command devices PROTO_BOOT (set_led_activity true s1)) as [[e|o] s2]; [done|].
  destruct Hb as [-> Hb]. by exists s2.
Qed.

(** What the host sends, and what it hears back. *)
Definition host_script (chunks : list (list Z)) : list Z :=
  [PROTO_GET_SYNC; PROTO_EOC] ++ [PROTO_GET_DEVICE; PROTO_DEVICE_BL_REV; PROTO_EOC] ++
  [PROTO_CHIP_ERASE; PROTO_EOC] ++ concat (map prog_command chunks) ++
  [PROTO_GET_CRC; PROTO_EOC] ++ [PROTO_BOOT; PROTO_EOC].

Definition host_replies (chunks : list (list Z)) : list Z :=
  OK ++ (le_bytes 4 BL_PROTOCOL_VERSION ++ OK) ++ OK ++ acks chunks ++
  (le_bytes 4 (area_crc (concat chunks)) ++ OK) ++ OK.

(** Up to the end of the erase. *)
Lemma upload_open inp s (buf := flash_buffer s) :
  input s = say ([PROTO_GET_SYNC; PROTO_EOC] ++ [PROTO_GET_DEVICE; PROTO_DEVICE_BL_REV; PROTO_EOC] ++
                 [PROTO_CHIP_ERASE; PROTO_EOC]) ++ inp ->
  Crc.tab_ok (crctab s) -> output s = [] ->
  exists s', passes 3 (bl_start 0 s) s' /\
    linked 7 0 0xffffffff buf inp (OK ++ (le_bytes 4 BL_PROTOCOL_VERSION ++ OK) ++ OK)
      (fun x => uf_session x [] true) s'.
Proof.
  intros Hi Htab Hout.
  destruct (upload_sync (say [PROTO_GET_DEVICE; PROTO_DEVICE_BL_REV; PROTO_EOC] ++
    say [PROTO_CHIP_ERASE; PROTO_EOC] ++ inp) (bl_start 0 s) (fun _ => True)) as (s1 & H1 & Hs1);
    [by rewrite !say_app, <- !app_assoc in Hi|done..|].
  edestruct (linked_step PROTO_GET_DEVICE (say [PROTO_DEVICE_BL_REV; PROTO_EOC]))
    as (s2 & H2 & Hs2); [done|exact Hs1|apply upload_device|].
  edestruct (linked_step PROTO_CHIP_ERASE (say [PROTO_EOC])) as (s3 & H3 & Hs3);
    [done|exact Hs2|by apply upload_erase|].
  exists s3. split; [by repeat (econstructor; [done|]); constructor|].
  by rewrite <- !app_assoc in *.
Qed.

Lemma prog_commands_length chunks : (length chunks <= length (concat (map prog_command chunks)))%nat.
Proof. induction chunks as [|c cs IH]; [done|]. cbn [map concat]. rewrite length_app. simpl. lia. Qed.

(** The run of the main loop on the whole script, for any effect of the commit. *)
Lemma upload_returns chunks (s : bl F) R :
  Forall chunk_ok chunks -> 4 * Z.of_nat (length (concat chunks)) <= fw_size ->
  hd 0xffffffff (concat chunks) <> 0xffffffff ->
  commits (blanked (concat chunks)) (hd 0xffffffff (concat chunks)) R ->
  input s = say (host_script chunks) -> output s = [] ->
  length (flash_buffer s) = 256%nat -> Crc.tab_ok (crctab s) ->
  exists s', bootloader devices 0 s = Returned s' /\
    output s' = map (pair USB) (host_replies chunks) /\ R (flash s').
Proof.
  intros Hok Hlim Hhd HR Hi Hout Hbuf Htab.
  pose proof (prog_commands_length chunks) as Hpc.
  assert (Hlen : (length chunks + 8 <= length (input s))%nat).
  { rewrite Hi. unfold say, host_script. rewrite length_map, !length_app. simpl. lia. }
  unfold host_script in Hi. rewrite !say_app in Hi.
  destruct (upload_open (say (concat (map prog_command chunks)) ++ say [PROTO_GET_CRC; PROTO_EOC] ++
    say [PROTO_BOOT; PROTO_EOC]) s) as (s1 & Hp1 & Hs1);
    [by rewrite !say_app, <- !app_assoc|done..|].
  apply (upload_chunks chunks []) in Hs1 as (s2 & buf2 & Hp2 & Hs2); [|done..].
  cbn [app] in Hs2. unfold host_replies.
  assert (Hst : chunks_bits 7 chunks = 15) by (by destruct chunks).
  rewrite Hst in Hs2. destruct (concat chunks) as [|w ws] eqn:Hws; [done|].
  apply (linked_flash _ _ _ _ _ _ _ (fun x => exists op, uf_session x (blanked (w :: ws)) op))
    in Hs2; [|intros x Hx; by exists true].
  edestruct (linked_step PROTO_GET_CRC (say [PROTO_EOC])) as (s3 & H3 & Hs3);
    [done|exact Hs2|by apply upload_crc|].
  apply (upload_last _ _ _ _ _ _ _ R) in Hs3 as (s4 & H4 & Hout4 & Hst4); [|done..].
  exists s4. split; [|split; [|done]].
  - unfold bootloader. change (input (bl_start 0 s)) with (input s).
    replace (S (length (input s))) with
      (3 + (length chunks + S (S (length (input s) - (length chunks + 4)))))%nat by lia.
    rewrite (passes_loop _ _ _ _ Hp1), (passes_loop _ _ _ _ Hp2). cbn [bl_loop]. by rewrite H3, H4.
  - rewrite Hout4. f_equal. by rewrite <- !app_assoc.
Qed.

(** C1 (functional). Uploading firmware works end to end.  When the host sends
    SYNC, DEVICE, ERASE, the image in PROG_MULTI chunks of 1 to 63 words, CRC and
    BOOT, then [bootloader] returns (to have the application started), the bytes
    it sent are exactly the acknowledgements of every command, the protocol
    version and the CRC-32 of the application area as it will be, and the flash
    holds the image followed by erased words up to the end of the area, whatever
    it held before. *)
Theorem upload_stores_image chunks (s : bl F) (ws := concat chunks) :
  Forall chunk_ok chunks -> (uf_min <= length ws)%nat ->
  4 * Z.of_nat (length ws) <= fw_size -> hd 0xffffffff ws <> 0xffffffff ->
  input s = say (host_script chunks) -> output s = [] ->
  length (flash_buffer s) = 256%nat -> Crc.tab_ok (crctab s) ->
  exists s', bootloader devices 0 s = Returned s' /\
    output s' = map (pair USB) (host_replies chunks) /\
    forall i, 0 <= i -> 4 * i < fw_size -> uf_stored (flash s') i = image ws i.
Proof.
  intros Hok Hmin Hlim Hhd Hi Hout Hbuf Htab. subst ws.
  apply (upload_returns chunks s (fun x => forall i, 0 <= i -> 4 * i < fw_size ->
    uf_stored x i = image (concat chunks) i)); try done.
  assert (Hfit : Forall (fits 32) (concat chunks)).
  { apply Forall_concat. eapply Forall_impl; [exact Hok|]. by intros ? []. }
  intros x op Hx. destruct (concat chunks) as [|w ws]; [done|].
  apply Forall_cons in Hfit as [Hw _].
  exact (uf_commit x _ op w Hx Hmin Hw).
Qed.

End Upload.

(** ** Short images on the STM32H7 port *)
Section Short.
Import FlashCache BoardMain BoardSpec.
Context {M : Type} {PM : ProgMem M} {PL : ProgMemLaws M} {BD : Board} {BOK : BoardOk M}.

Lemma commits_short ws f : (0 < length ws < 8)%nat ->
  commits (F := device M) ws f
    (fun d => forall i, 0 <= i -> 4 * i < fw_size -> uf_stored d i = 0xffffffff).
Proof.
  intros Hn d op Hs. cbn [uf_session h7_upload] in Hs.
  assert (Hfw : 0 < fw_size) by (destruct Hs as (_ & _ & _ & Hlen & _); lia).
  destruct (session_commit_short APP_LOAD_ADDRESS fw_size ok_app_aligned ok_fw_aligned ok_app_low
    ok_app_high (dev_fc d) ws op f Hs ltac:(lia)) as (s' & Hr & Hm).
  destruct (word_addr (M := M) 0) as [H3 Ha]; [lia|lia|].
  rewrite Z.mul_0_r, Z.add_0_r, Z.add_0_l in *.
  cbn [flash_func_read_word flash_func_write_word h7_flash_funcs].
  unfold BoardMain.read_word, BoardMain.write_word.
  rewrite H3, Z.add_0_l, Ha. cbn [set_fc dev_fc]. rewrite Hr. eexists. split; [done|].
  intros i Hi Hlt. cbn [uf_stored h7_upload]. unfold dev_mem. cbn [set_fc dev_fc].
  rewrite Hm. destruct Hs as (_ & _ & _ & _ & _ & Hmem). rewrite Hmem.
  - destruct (Z.leb_spec 8 i); [|done]. rewrite (proj2 (Z.ltb_ge _ _)); [done|].
    unfold flashed, full. destruct (op && pending ws); Z.div_mod_to_equations; lia.
  - pose proof (ok_fw_aligned (M := M)). Z.div_mod_to_equations. lia.
Qed.

(** On the STM32H7 port an image of fewer than eight words is
    acknowledged like any other, its CRC included, and never reaches the flash: the
    bootloader returns to start an application from an area that is still erased. *)
Theorem short_image_acknowledged_not_stored devices chunks (s : bl (device M)) :
  has_any devices USB0_DEV = true -> fw_ok ->
  Forall chunk_ok chunks -> (length (concat chunks) < 8)%nat ->
  4 * Z.of_nat (length (concat chunks)) <= fw_size ->
  hd 0xffffffff (concat chunks) <> 0xffffffff ->
  input s = say (host_script chunks) -> output s = [] ->
  length (flash_buffer s) = 256%nat -> Crc.tab_ok (crctab s) ->
  exists s', bootloader devices 0 s = Returned s' /\
    output s' = map (pair USB) (host_replies chunks) /\
    forall i, 0 <= i -> 4 * i < fw_size ->
      pm_word (dev_mem (flash s')) (APP_LOAD_ADDRESS + 4 * i) = 0xffffffff.
Proof.
  intros Husb Hfw Hok Hn Hlim Hhd Hi Hout Hbuf Htab.
  destruct (upload_returns devices Husb Hfw chunks s (fun d => forall i, 0 <= i ->
    4 * i < fw_size -> uf_stored d i = 0xffffffff)) as (s' & Hr & Ho & Hst);
    try done; [|by exists s'].
  apply commits_short. rewrite blanked_length. destruct (concat chunks); [done|]. simpl in *. lia.
Qed.

End Short.
End BootUpload.
