(* ===== verification/BootWitness.v ===== *)
(** * The bootloader on a small board

    A concrete instance of everything the bootloader's theorems quantify over: a
    board whose application area is one block of 64 bytes, the STM32H7 port on the
    simulated flash of [ProgMem], and a host that uploads a nine-word image.  The
    witnesses of the bootloader's properties are stated for it. *)

From S2P Require Import Prelude Crc ProgMem FlashCache BootIface Bootloader BootSafety BoardMain BootUpload.

Local Open Scope Z_scope.

Module BootWitness.
Import Bl BlSafety BoardMain BoardSpec BootUpload SimFlash FlashCache.

Definition demo_geometry : geometry := {| g_base := 0x08000000; g_blocks := 2; g_block := 64 |}.

Definition demo_board : Board := {|
  APP_LOAD_ADDRESS := 0x08000040;
  BOARD_TYPE := 50;
  board_rev := 0;
  fw_size := 64;
  BOOT_DELAY_ADDRESS := 0x20;
  ARCH_SN_MAX_LENGTH := 12;
  BOARD_FLASH_SECTORS := 1;
  BOARD_FIRST_FLASH_SECTOR_TO_ERASE := 1;
  BOOTLOADER_DELAY := 5000;
  BOOT_DEVICES_SELECTION := 3;
  BOOT_DEVICES_FILTER_ONUSB := 1;
|}.
#[local] Existing Instance demo_board.

Abbreviation demo_mem := (mem demo_geometry).
Abbreviation demo_device := (device demo_mem).

Lemma demo_fw_ok : fw_ok.
Proof. by unfold fw_ok. Qed.

#[local] Instance demo_ok : BoardOk demo_mem.
Proof.
  constructor; [done..| |].
  - intros b Hb. cbn in Hb. assert (b = 1) as -> by lia. done.
  - intros x Hx. exists 1. split; [done|]. by apply in_rangeP.
Qed.

(** A device holding an old application, all zeros. *)
Definition demo_dev : demo_device :=
  Device (FC fcl_reset fcl_reset (replicate 128 0)) true 0x450 (fun _ => 0).

Definition demo_state (inp : list poll) : bl demo_device :=
  mkBl NONE NONE [0; 0; 0; 0] LED_BLINK false false 0 (replicate 256 0) (replicate 256 0)
       0 0 0 0 demo_dev inp [].

Definition demo_chunks : list (list Z) :=
  [[0x20020000; 0x08000101; 3; 4]; [5; 6; 7; 8; 9]].

Lemma upload_stores_image_witness :
  exists s', bootloader 1 0 (demo_state (say (host_script demo_chunks))) = Returned s' /\
    output s' = map (pair USB) (host_replies demo_chunks) /\
    forall i, 0 <= i -> 4 * i < fw_size -> uf_stored (flash s') i = image (concat demo_chunks) i.
Proof.
  apply (upload_stores_image (F := demo_device) 1 eq_refl demo_fw_ok demo_chunks);
    [|cbn; lia|done..|by left].
  repeat constructor; cbn; try lia; fits_const.
Defined.

Lemma short_image_acknowledged_not_stored_witness :
  exists s', bootloader 1 0 (demo_state (say (host_script [[1; 2; 3]]))) = Returned s' /\
    output s' = map (pair USB) (host_replies [[1; 2; 3]]) /\
    forall i, 0 <= i -> 4 * i < fw_size ->
      pm_word (dev_mem (flash s')) (APP_LOAD_ADDRESS + 4 * i) = 0xffffffff.
Proof.
  apply (short_image_acknowledged_not_stored 1 [[1; 2; 3]]);
    [done|exact demo_fw_ok| |cbn; lia|done..|by left].
  repeat constructor; cbn; try lia; fits_const.
Defined.

(** A plain flash of words for the write discipline: an erase blanks the application
    area, programming clears bits. *)
Definition words := Z -> Z.

#[local] Instance words_flash : FlashFuncs words := {|
  flash_func_sector_size i := if i =? 0 then 64 else 0;
  flash_func_erase_sector i f := fun a => if (i =? 0) && (0 <=? a) && (a <? 64) then 0xffffffff else f a;
  flash_func_write_word a w f := fun x => if x =? a then Z.land (f x) w else f x;
  flash_func_read_word a f := (f a, f);
  flash_func_read_otp _ _ := 0;
  flash_func_read_sn _ _ := 0;
  arch_flash_lock f := f;
  arch_flash_unlock f := f;
  get_mcu_id _ := 0x450;
  get_mcu_desc _ _ := [];
|}.

(** The device of the demonstration: an old application and a bootloader, all 7s. *)
Definition words_state (inp : list poll) : bl words :=
  mkBl NONE NONE [0; 0; 0; 0] LED_BLINK false false 0 (replicate 256 0) (replicate 256 0)
       0 0 0 0 (fun _ => 7) inp [].

(** Nothing outside the application area has changed, and its first word is the old
    application's or blank, never the new image's. *)
Definition held (f : words) : Prop :=
  (forall a, ~ 0 <= a < 64 -> f a = 7) /\ (f 0 = 7 \/ f 0 = 0xffffffff).

Lemma held_closed : closed held.
Proof.
  constructor; cbn.
  - done.
  - done.
  - intros i f _ _ [Ho H0]. split.
    + intros a Ha. destruct (Z.leb_spec 0 a), (Z.ltb_spec a 64); try lia; destruct (i =? 0); cbn [andb]; auto with lia.
    + destruct (i =? 0); [by right|done].
  - intros a w f (Ha & _ & Hl & Hw) [Ho H0]. cbn in Hl. split.
    + intros x Hx. rewrite (proj2 (Z.eqb_neq _ _)) by lia. auto.
    + destruct (Z.eqb_spec 0 a) as [<-|]; [|done]. rewrite Hw by done. by destruct H0 as [->| ->]; [left|right].
Qed.

Lemma idle_run_iter (s : bl words) k :
  forallb (fun j => negb (commit_pass 1 (Nat.iter j (fun s => result_state (bl_step 1 s)) s))) (seq 0 k) = true ->
  idle_run 1 s (Nat.iter k (fun s => result_state (bl_step 1 s)) s).
Proof.
  induction k as [|k IH]; [intros; apply idle_run_refl|].
  rewrite seq_S, forallb_app, andb_true_iff. intros [Hl Hk]. cbn [forallb Nat.add] in Hk.
  rewrite andb_true_r, negb_true_iff in Hk. by apply (idle_run_step _ _ _ _ (IH Hl) Hk).
Qed.

(** An upload without its BOOT, and two commands after the CRC. *)
Definition held_script : list Z :=
  [PROTO_GET_SYNC; PROTO_EOC] ++ [PROTO_GET_DEVICE; PROTO_DEVICE_BL_REV; PROTO_EOC] ++
  [PROTO_CHIP_ERASE; PROTO_EOC] ++ prog_command [0x20020000; 0x08000101; 3; 4] ++
  [PROTO_GET_CRC; PROTO_EOC] ++ prog_command [5; 6] ++ [PROTO_BOOT; PROTO_GET_SYNC].

Definition held_pass (k : nat) : bl words :=
  Nat.iter k (fun s => result_state (bl_step 1 s)) (bl_start 0 (words_state (say held_script))).

(** The image is uploaded and checked, so BOOT would commit; more is programmed, and a
    BOOT without its end-of-command byte is refused.  The old flash outside the area
    and the held-back first word are as promised. *)
Lemma bootloader_write_discipline_witness :
  commit_ready (held_pass 5) = true /\ flash (held_pass 7) 4 = 0x08000101 /\
  flash (held_pass 7) 20 = 6 /\ bl_state (held_pass 7) = 0 /\
  held (flash (held_pass 7)) /\ addr_ok (address (held_pass 7)).
Proof.
  do 4 (split; [vm_compute; reflexivity|]).
  apply (bootloader_write_discipline 1 held 0 (words_state (say held_script)));
    [exact demo_fw_ok|by unfold delay_ok|exact held_closed|done|by split; [|left]|].
  apply idle_run_iter. vm_compute. reflexivity.
Defined.

Lemma command_loops_terminate_witness :
  fst (command 1 PROTO_CHIP_ERASE (demo_state (say [PROTO_EOC]))) <> inl NoFuel.
Proof. apply command_loops_terminate; [exact demo_fw_ok|by split|done]. Defined.

End BootWitness.
