(* ===== verification/Queue.v ===== *)
(** * Intrusive queues

    src/platforms/common/work_queue/queue.c, sq_addafter.c, sq_addlast.c, sq_remfirst.c,
    dq_addlast.c, dq_rem.c and dq_remfirst.c, with the macros of
    src/platforms/posix/include/queue.h: singly and doubly linked queues whose links lie in
    the entries.  Entries are addresses, 0 is the null pointer and the links are maps from
    addresses.  Each operation is shown to act on the list that the links represent; the class
    [SqQueue] is what the clients of the singly linked queue rely on. *)

From stdpp Require Import gmap.
From S2P Require Import Prelude.

Local Open Scope Z_scope.

Module Queue.

Abbreviation links := (gmap Z Z).

(** Reading a link; what was never written is taken as null. *)
Definition link (f : links) (x : Z) : Z := default 0 (f !! x).

(** ** Singly linked queues *)

Record sq_queue_s := Sq { head : Z; tail : Z; flink : links }.

Definition sq_init (q : sq_queue_s) : sq_queue_s := Sq 0 0 (flink q).
Definition sq_peek (q : sq_queue_s) : Z := head q.
Definition sq_next (x : Z) (q : sq_queue_s) : Z := link (flink q) x.

Definition sq_remafter (node : Z) (q : sq_queue_s) : Z * sq_queue_s :=
  let ret := link (flink q) node in
  if negb (head q =? 0) && negb (ret =? 0) then
    if tail q =? ret
    then (ret, Sq (head q) node (<[ret := 0]> (<[node := 0]> (flink q))))
    else (ret, Sq (head q) (tail q) (<[ret := 0]> (<[node := link (flink q) ret]> (flink q))))
  else (ret, q).

(** [for (prev = head; prev && prev->flink != node; prev = prev->flink)]: the entry before
    [node], or null; [None] while the walk has not ended. *)
Fixpoint find_prev (fuel : nat) (f : links) (node prev : Z) : option Z :=
  match fuel with
  | O => None
  | S fuel =>
      if (prev =? 0) || (link f prev =? node) then Some prev else find_prev fuel f node (link f prev)
  end.

Definition sq_rem (node : Z) (q : sq_queue_s) : option sq_queue_s :=
  if negb (head q =? 0) && negb (node =? 0) then
    if node =? head q then
      Some (Sq (link (flink q) node) (if node =? tail q then 0 else tail q) (flink q))
    else
      match find_prev (S (size (flink q))) (flink q) node (head q) with
      | None => None
      | Some prev => Some (if negb (prev =? 0) then snd (sq_remafter prev q) else q)
      end
  else Some q.

Definition sq_addfirst (node : Z) (q : sq_queue_s) : sq_queue_s :=
  Sq node (if head q =? 0 then node else tail q) (<[node := head q]> (flink q)).

Definition sq_addlast (node : Z) (q : sq_queue_s) : sq_queue_s :=
  let f := <[node := 0]> (flink q) in
  if head q =? 0 then Sq node node f else Sq (head q) node (<[tail q := node]> f).

Definition sq_addafter (prev node : Z) (q : sq_queue_s) : sq_queue_s :=
  if (head q =? 0) || (prev =? tail q) then sq_addlast node q
  else Sq (head q) (tail q) (<[prev := node]> (<[node := link (flink q) prev]> (flink q))).

Definition sq_remfirst (q : sq_queue_s) : Z * sq_queue_s :=
  let ret := head q in
  if negb (ret =? 0) then
    let next := link (flink q) ret in
    (ret, Sq next (if next =? 0 then 0 else tail q) (<[ret := 0]> (flink q)))
  else (ret, q).

(** ** Doubly linked queues *)

Record dq_queue_s := Dq { dq_head : Z; dq_tail : Z; dflink : links; dblink : links }.

Definition dq_addlast (node : Z) (q : dq_queue_s) : dq_queue_s :=
  let f := <[node := 0]> (dflink q) in
  let b := <[node := dq_tail q]> (dblink q) in
  if dq_head q =? 0 then Dq node node f b else Dq (dq_head q) node (<[dq_tail q := node]> f) b.

Definition dq_rem (node : Z) (q : dq_queue_s) : dq_queue_s :=
  let prev := link (dblink q) node in
  let next := link (dflink q) node in
  Dq (if prev =? 0 then next else dq_head q) (if next =? 0 then prev else dq_tail q)
     (<[node := 0]> (if prev =? 0 then dflink q else <[prev := next]> (dflink q)))
     (<[node := 0]> (if next =? 0 then dblink q else <[next := prev]> (dblink q))).

Definition dq_remfirst (q : dq_queue_s) : Z * dq_queue_s :=
  let ret := dq_head q in
  if negb (ret =? 0) then
    let next := link (dflink q) ret in
    (ret, Dq (if next =? 0 then 0 else next) (if next =? 0 then 0 else dq_tail q)
             (<[ret := 0]> (dflink q))
             (<[ret := 0]> (if next =? 0 then dblink q else <[next := 0]> (dblink q))))
  else (ret, q).

(** ** Segments of links *)

(** From [h], the links lead through the entries [l] to [t]. *)
Fixpoint lseg (f : links) (h : Z) (l : list Z) (t : Z) : Prop :=
  match l with
  | [] => h = t
  | x :: l => h = x /\ exists n, f !! x = Some n /\ lseg f n l t
  end.

Lemma lseg_app f l l' t : forall h, lseg f h (l ++ l') t <-> exists m, lseg f h l m /\ lseg f m l' t.
Proof.
  induction l as [|x l IH]; intros h; cbn.
  - split; [by exists h|by intros (m & -> & H)].
  - split.
    + intros (-> & n & Hn & H). apply IH in H as (m & H1 & H2). exists m. eauto.
    + intros (m & (-> & n & Hn & H1) & H2). split; [done|]. exists n. split; [done|]. apply IH. eauto.
Qed.

Lemma lseg_frame f x v l t : x ∉ l -> forall h, lseg (<[x := v]> f) h l t <-> lseg f h l t.
Proof.
  induction l as [|y l IH]; intros Hx h; [done|]. cbn. apply not_elem_of_cons in Hx as [Hxy Hx].
  rewrite lookup_insert_ne by done. split; intros (-> & n & Hn & H); (split; [done|]); exists n; (split; [done|]);
    by apply (IH Hx).
Qed.

Lemma lseg_last f h l x t : lseg f h (l ++ [x]) t -> f !! x = Some t.
Proof. intros (m & _ & -> & n & Hn & ->)%lseg_app. done. Qed.

(** Redirecting the last link of a segment. *)
Lemma lseg_redirect f h l x t t' : x ∉ l -> lseg f h (l ++ [x]) t -> lseg (<[x := t']> f) h (l ++ [x]) t'.
Proof.
  intros Hx (m & Hl & -> & _)%lseg_app. apply lseg_app. exists x. split; [by apply lseg_frame|].
  split; [done|]. exists t'. by rewrite lookup_insert_eq.
Qed.

(** Appending an entry behind the last one. *)
Lemma lseg_snoc f h l z x : NoDup (l ++ [z]) -> x ∉ l ++ [z] -> lseg f h (l ++ [z]) 0 ->
  lseg (<[z := x]> (<[x := 0]> f)) h ((l ++ [z]) ++ [x]) 0.
Proof.
  intros Hn Hx Hl. apply NoDup_app in Hn as (_ & Hz & _). apply lseg_app. exists x. split.
  - apply (lseg_redirect _ _ _ _ 0); [set_solver|]. by apply lseg_frame.
  - split; [done|]. exists 0. rewrite lookup_insert_ne by set_solver. by rewrite lookup_insert_eq.
Qed.

Lemma lseg_dom f l t : forall h, lseg f h l t -> forall x, x ∈ l -> is_Some (f !! x).
Proof.
  induction l as [|y l IH]; intros h H x Hx; [by apply elem_of_nil in Hx|].
  destruct H as (-> & n & Hn & H). apply elem_of_cons in Hx as [->|Hx]; [by exists n|eauto].
Qed.

Lemma lseg_size f h l t : NoDup l -> lseg f h l t -> (length l <= size f)%nat.
Proof.
  intros Hn Hl. rewrite <- (size_list_to_set (C := gset Z) l) by done. rewrite <- size_dom.
  apply subseteq_size. intros x Hx. apply elem_of_dom. apply elem_of_list_to_set in Hx. by eapply lseg_dom.
Qed.

Lemma lseg_link f h l t : lseg f h l t -> h = hd t l.
Proof. destruct l; cbn; [done|by intros [-> _]]. Qed.

Lemma link_lookup f x n : f !! x = Some n -> link f x = n.
Proof. intros H. unfold link. by rewrite H. Qed.

Lemma last_ne x z l : x ∉ z :: l -> default 0 (last (z :: l)) <> x.
Proof.
  intros Hx. destruct (last (z :: l)) as [y|] eqn:Hy; [|by apply last_None in Hy].
  apply last_Some_elem_of in Hy. cbn. congruence.
Qed.

Lemma middle_ne (x y : Z) l1 l2 : y ∉ l1 ++ x :: l2 -> x <> y.
Proof. intros Hy ->. apply Hy, elem_of_app. right. left. Qed.

(** ** The list that a queue represents *)

Definition sq_repr (q : sq_queue_s) (l : list Z) : Prop :=
  NoDup l /\ (0 ∉ l) /\ lseg (flink q) (head q) l 0 /\ tail q = default 0 (last l).

Lemma sq_head_null q l : sq_repr q l -> (head q =? 0) = match l with [] => true | _ => false end.
Proof.
  intros (_ & H0 & Hl & _). apply lseg_link in Hl. rewrite Hl. destruct l as [|x l]; [done|].
  apply Z.eqb_neq. cbn. intros ->. apply H0. left.
Qed.

Lemma sq_init_repr q : sq_repr (sq_init q) [].
Proof. repeat split; [constructor|apply not_elem_of_nil]. Qed.

Lemma sq_peek_repr q l : sq_repr q l -> sq_peek q = hd 0 l.
Proof. intros (_ & _ & Hl & _). apply lseg_link in Hl. unfold sq_peek. by destruct l. Qed.

Lemma sq_next_repr q l1 x l2 : sq_repr q (l1 ++ x :: l2) -> sq_next x q = hd 0 l2.
Proof.
  intros (_ & _ & Hl & _). apply lseg_app in Hl as (m & _ & _ & n & Hn & Hl).
  unfold sq_next. rewrite (link_lookup _ _ _ Hn), (lseg_link _ _ _ _ Hl). by destruct l2.
Qed.

Lemma sq_addfirst_repr q l x : sq_repr q l -> x ∉ l -> x <> 0 -> sq_repr (sq_addfirst x q) (x :: l).
Proof.
  intros Hq Hx Hx0. pose proof (sq_head_null q l Hq) as Hh. destruct Hq as (Hn & H0 & Hl & Ht).
  split; [by constructor|]. split; [by apply not_elem_of_cons|]. cbn [sq_addfirst head tail flink]. split.
  - split; [done|]. exists (head q). rewrite lookup_insert_eq. split; [done|]. by apply lseg_frame.
  - rewrite Hh, Ht. destruct l as [|y l]; [done|]. by rewrite last_cons_cons.
Qed.

Lemma sq_addlast_repr q l x : sq_repr q l -> x ∉ l -> x <> 0 -> sq_repr (sq_addlast x q) (l ++ [x]).
Proof.
  intros Hq Hx Hx0. pose proof (sq_head_null q l Hq) as Hh. destruct Hq as (Hn & H0 & Hl & Ht).
  split. { apply NoDup_app. split; [done|]. split; [|apply NoDup_singleton]. set_solver. }
  split; [set_solver|]. unfold sq_addlast. rewrite Hh.
  destruct l as [|z l _] using rev_ind.
  - cbn [head tail flink app lseg last default]. split; [|done]. split; [done|]. exists 0.
    by rewrite lookup_insert_eq.
  - replace (match l ++ [z] with [] => true | _ => false end) with false by by destruct l.
    cbn [head tail flink]. split; [|by rewrite last_snoc]. rewrite last_snoc in Ht. cbn in Ht. rewrite Ht.
    by apply lseg_snoc.
Qed.

Lemma sq_addafter_repr q l1 prev l2 x : sq_repr q (l1 ++ prev :: l2) -> x ∉ l1 ++ prev :: l2 -> x <> 0 ->
  sq_repr (sq_addafter prev x q) (l1 ++ prev :: x :: l2).
Proof.
  intros Hq Hx Hx0. pose proof (sq_head_null q _ Hq) as Hh. unfold sq_addafter. rewrite Hh.
  replace (match l1 ++ prev :: l2 with [] => true | _ => false end) with false by by destruct l1.
  destruct l2 as [|z l2].
  - assert (Ht : tail q = prev) by (destruct Hq as (_ & _ & _ & ->); by rewrite last_snoc).
    rewrite Ht, Z.eqb_refl. cbn [orb]. replace (l1 ++ [prev; x]) with ((l1 ++ [prev]) ++ [x]) by (by rewrite <- app_assoc).
    by apply sq_addlast_repr.
  - destruct Hq as (Hn & H0 & Hl & Ht).
    assert (Hne : prev <> tail q).
    { rewrite Ht, last_app_cons, last_cons_cons. apply NoDup_app in Hn as (_ & _ & [Hp _]%NoDup_cons).
      apply not_eq_sym. by apply last_ne. }
    rewrite (proj2 (Z.eqb_neq _ _) Hne). cbn [orb].
    apply lseg_app in Hl as (m & Hl1 & -> & n & Hpn & Hl2). apply NoDup_app in Hn as (Hn1 & Hd & Hn2).
    apply NoDup_cons in Hn2 as [Hp Hn2].
    split. { apply NoDup_app. split; [done|]. split; [set_solver|].
      rewrite !(NoDup_cons _ (_ :: _)). split; [set_solver|]. split; [set_solver|exact Hn2]. }
    split; [set_solver|]. cbn [head tail flink]. split.
    + apply lseg_app. exists prev. split; [rewrite !lseg_frame by set_solver; done|].
      split; [done|]. exists x. rewrite lookup_insert_eq. split; [done|]. split; [done|]. exists n.
      rewrite lookup_insert_ne, lookup_insert_eq by set_solver. rewrite (link_lookup _ _ _ Hpn).
      split; [done|]. rewrite !lseg_frame by set_solver. done.
    + rewrite Ht, !last_app_cons, !last_cons_cons. done.
Qed.

Lemma find_prev_found f node p l : forall fuel h, (length l < fuel)%nat -> node ∉ l ++ [p] -> (0 ∉ l ++ [p]) ->
  lseg f h (l ++ [p]) node -> find_prev fuel f node h = Some p.
Proof.
  induction l as [|x l IH]; intros [|fuel] h Hf Hn H0 Hl; cbn [length] in Hf; try lia; cbn [find_prev].
  - destruct Hl as (-> & n & Hp & ->). rewrite (link_lookup _ _ _ Hp), Z.eqb_refl. by rewrite orb_true_r.
  - destruct Hl as (-> & n & Hx & Hl). rewrite (link_lookup _ _ _ Hx).
    pose proof (lseg_link _ _ _ _ Hl) as Hh.
    assert (Hin : n ∈ l ++ [p]) by (destruct l; cbn in Hh; subst n; left).
    cbn [app] in Hn, H0. apply not_elem_of_cons in Hn as [_ Hn]. apply not_elem_of_cons in H0 as [Hx0 H0].
    rewrite (proj2 (Z.eqb_neq x 0)), (proj2 (Z.eqb_neq n node)) by congruence.
    apply IH; [lia|done..].
Qed.

Lemma find_prev_none f node l : forall fuel h, (length l < fuel)%nat -> node ∉ l -> node <> 0 -> (0 ∉ l) ->
  lseg f h l 0 -> find_prev fuel f node h = Some 0.
Proof.
  induction l as [|x l IH]; intros [|fuel] h Hf Hn Hn0 H0 Hl; cbn [length] in Hf; try lia; cbn [find_prev].
  - cbn in Hl. by subst h.
  - destruct Hl as (-> & n & Hx & Hl). rewrite (link_lookup _ _ _ Hx).
    pose proof (lseg_link _ _ _ _ Hl) as Hh.
    apply not_elem_of_cons in Hn as [_ Hn]. apply not_elem_of_cons in H0 as [Hx0 H0].
    assert (Hin : n <> node).
    { destruct l; cbn in Hh; subst n; [done|]. by apply not_elem_of_cons in Hn as [? _]. }
    rewrite (proj2 (Z.eqb_neq x 0)), (proj2 (Z.eqb_neq n node)) by congruence.
    apply IH; [lia|done..].
Qed.

Lemma sq_rem_absent q l x : sq_repr q l -> x ∉ l -> sq_rem x q = Some q.
Proof.
  intros Hq Hx. pose proof (sq_peek_repr q l Hq) as Hp. pose proof (sq_head_null q l Hq) as Hh.
  destruct Hq as (Hn & H0 & Hl & _). unfold sq_rem, sq_peek in *. rewrite Hh. destruct l as [|y l]; [done|].
  cbn [negb andb]. destruct (Z.eqb_spec x 0) as [|Hx0]; [done|]. cbn [negb].
  rewrite (proj2 (Z.eqb_neq x (head q))) by (rewrite Hp; set_solver).
  rewrite (find_prev_none _ _ (y :: l)); [done| |done..]. pose proof (lseg_size _ _ _ _ Hn Hl). lia.
Qed.

Lemma sq_remafter_repr q l1 p x l2 : sq_repr q (l1 ++ p :: x :: l2) ->
  sq_repr (snd (sq_remafter p q)) (l1 ++ p :: l2).
Proof.
  intros Hq. pose proof (sq_head_null q _ Hq) as Hh.
  pose proof (sq_next_repr q l1 p (x :: l2) Hq) as Hpx. unfold sq_next in Hpx. cbn [hd] in Hpx.
  pose proof (sq_next_repr q (l1 ++ [p]) x l2) as Hxn. rewrite <- app_assoc in Hxn. specialize (Hxn Hq).
  unfold sq_next in Hxn. unfold sq_remafter. rewrite Hh, Hpx, Hxn.
  replace (match l1 ++ p :: x :: l2 with [] => true | _ => false end) with false by by destruct l1.
  destruct Hq as (Hn & H0 & Hl & Ht). rewrite (proj2 (Z.eqb_neq x 0)) by set_solver. cbn [negb andb].
  apply lseg_app in Hl as (m & Hl1 & -> & n & Hp & -> & n' & Hx & Hl2).
  pose proof (lseg_link _ _ _ _ Hl2) as Hn'. apply NoDup_app in Hn as (Hn1 & Hd & Hn2).
  apply NoDup_cons in Hn2 as [Hpn Hn2]. apply NoDup_cons in Hn2 as [Hxn2 Hn2].
  assert (Hnew : lseg (<[x := 0]> (<[p := n']> (flink q))) (head q) (l1 ++ p :: l2) 0).
  { apply lseg_app. exists p. split; [rewrite !lseg_frame by set_solver; done|]. split; [done|]. exists n'.
    rewrite lookup_insert_ne, lookup_insert_eq by set_solver. split; [done|].
    rewrite !lseg_frame by set_solver. done. }
  assert (Hrest : NoDup (l1 ++ p :: l2) /\ (0 ∉ l1 ++ p :: l2)).
  { split; [|set_solver]. apply NoDup_app. split; [done|]. split; [set_solver|].
    rewrite NoDup_cons. split; [set_solver|done]. }
  rewrite last_app_cons, last_cons_cons in Ht. destruct l2 as [|z l2].
  - cbn in Ht, Hn'. rewrite Ht, Z.eqb_refl, Hn' in *. cbn [snd].
    split; [apply Hrest|]. split; [apply Hrest|]. split; [done|]. cbn [tail]. by rewrite last_snoc.
  - rewrite last_cons_cons in Ht. rewrite (proj2 (Z.eqb_neq (tail q) x)).
    + cbn [snd]. cbn [hd] in Hn' |- *. subst n'. split; [apply Hrest|]. split; [apply Hrest|]. split; [done|].
      cbn [tail]. by rewrite Ht, last_app_cons, last_cons_cons.
    + rewrite Ht. by apply last_ne.
Qed.

Lemma sq_rem_repr q l1 x l2 : sq_repr q (l1 ++ x :: l2) ->
  exists q', sq_rem x q = Some q' /\ sq_repr q' (l1 ++ l2).
Proof.
  intros Hq. pose proof (sq_head_null q _ Hq) as Hh. pose proof (sq_peek_repr q _ Hq) as Hp.
  pose proof (sq_next_repr q l1 x l2 Hq) as Hnx. unfold sq_rem, sq_peek, sq_next in *. rewrite Hh.
  replace (match l1 ++ x :: l2 with [] => true | _ => false end) with false by by destruct l1.
  pose proof Hq as (Hn & H0 & Hl & Ht). rewrite (proj2 (Z.eqb_neq x 0)) by (by eapply middle_ne). cbn [negb andb].
  destruct l1 as [|p l1 _] using rev_ind.
  - cbn [app hd] in *. rewrite Hp, Z.eqb_refl. eexists. split; [done|]. rewrite Hnx.
    apply NoDup_cons in Hn as [Hx Hn]. split; [done|]. split; [set_solver|].
    cbn [head tail flink]. destruct Hl as (_ & n & Hx' & Hl). rewrite (link_lookup _ _ _ Hx') in Hnx. subst n. split; [done|].
    destruct l2 as [|z l2]; [cbn in Ht; by rewrite Ht, Z.eqb_refl|]. rewrite last_cons_cons in Ht.
    rewrite (proj2 (Z.eqb_neq _ _)); [done|]. rewrite Ht. apply not_eq_sym. by apply last_ne.
  - rewrite <- app_assoc in Hq, Hl, Hn, H0, Hp. cbn [app] in *.
    assert (Hxl : x ∉ l1 ++ [p]).
    { apply NoDup_app in Hn as (_ & Hd & [Hn _]%NoDup_cons). rewrite elem_of_app, list_elem_of_singleton.
      intros [Hx| ->]; [apply (Hd x Hx); right; left|apply Hn; left]. }
    assert (Hp0 : p <> 0) by (by eapply middle_ne).
    assert (Hxh : x <> head q).
    { rewrite Hp. destruct l1; cbn; intros ->; apply Hxl; left. }
    rewrite (proj2 (Z.eqb_neq x (head q))) by done.
    assert (Hf : find_prev (S (size (flink q))) (flink q) x (head q) = Some p).
    { pose proof (lseg_size _ _ _ _ Hn Hl) as Hs. rewrite length_app in Hs. cbn in Hs.
      replace (l1 ++ p :: x :: l2) with ((l1 ++ [p]) ++ x :: l2) in Hl by (by rewrite <- app_assoc).
      apply lseg_app in Hl as (m & Hl1 & -> & _).
      apply (find_prev_found _ _ _ l1); [lia|done|set_solver|done]. }
    rewrite Hf, (proj2 (Z.eqb_neq p 0)) by done. eexists. split; [done|].
    rewrite <- app_assoc. by apply (sq_remafter_repr q l1 p x l2).
Qed.

Lemma sq_remfirst_repr q x l : sq_repr q (x :: l) ->
  fst (sq_remfirst q) = x /\ sq_repr (snd (sq_remfirst q)) l.
Proof.
  intros Hq. pose proof (sq_peek_repr q _ Hq) as Hp. pose proof (sq_next_repr q [] x l Hq) as Hnx.
  pose proof (sq_head_null q _ Hq) as Hh. unfold sq_remfirst, sq_peek, sq_next in *. cbn [hd] in Hp.
  rewrite Hh, Hp, Hnx. destruct Hq as (Hn & H0 & Hl & Ht). split; [done|]. cbn [snd].
  apply NoDup_cons in Hn as [Hx Hn]. apply not_elem_of_cons in H0 as [_ H0]. split; [done|]. split; [done|].
  destruct Hl as (_ & n & Hx' & Hl). rewrite (link_lookup _ _ _ Hx') in Hnx. subst n.
  cbn [head tail flink]. split; [by apply lseg_frame|]. destruct l as [|y l]; [done|].
  rewrite last_cons_cons in Ht. cbn [hd]. rewrite (proj2 (Z.eqb_neq y 0)); [done|]. intros ->. apply H0. left.
Qed.

(** ** Doubly linked queues *)

Definition dq_repr (q : dq_queue_s) (l : list Z) : Prop :=
  NoDup l /\ (0 ∉ l) /\ lseg (dflink q) (dq_head q) l 0 /\ lseg (dblink q) (dq_tail q) (reverse l) 0.

Lemma dq_head_repr q l : dq_repr q l -> dq_head q = hd 0 l.
Proof. intros (_ & _ & Hl & _). by apply lseg_link in Hl. Qed.

Lemma hd_reverse (l : list Z) : hd 0 (reverse l) = default 0 (last l).
Proof. destruct l as [|z l _] using rev_ind; [done|]. by rewrite reverse_snoc, last_snoc. Qed.

Lemma last_reverse_hd (l : list Z) : default 0 (last (reverse l)) = hd 0 l.
Proof. rewrite <- hd_reverse, reverse_involutive. done. Qed.

Lemma dq_addlast_repr q l x : dq_repr q l -> x ∉ l -> x <> 0 -> dq_repr (dq_addlast x q) (l ++ [x]).
Proof.
  intros Hq Hx Hx0. pose proof (dq_head_repr q l Hq) as Hh. destruct Hq as (Hn & H0 & Hl & Hb).
  assert (Hback : lseg (<[x := dq_tail q]> (dblink q)) x (reverse (l ++ [x])) 0).
  { rewrite reverse_snoc. split; [done|]. exists (dq_tail q). rewrite lookup_insert_eq. split; [done|].
    apply lseg_frame; [|done]. by rewrite elem_of_reverse. }
  split. { apply NoDup_app. split; [done|]. split; [|apply NoDup_singleton]. set_solver. }
  split; [set_solver|]. unfold dq_addlast. rewrite Hh. destruct l as [|z l _] using rev_ind.
  - split; [|done]. split; [done|]. exists 0. cbn. by rewrite lookup_insert_eq.
  - rewrite (proj2 (Z.eqb_neq (hd 0 (l ++ [z])) 0)) by (destruct l; cbn; set_solver).
    rewrite reverse_snoc in Hb. destruct Hb as [Ht _]. rewrite Ht in *. rewrite <- Hh.
    split; [by apply lseg_snoc|done].
Qed.

Lemma NoDup_app_cons (x : Z) l1 l2 : NoDup (l1 ++ x :: l2) -> NoDup (l1 ++ l2) /\ (x ∉ l1 ++ l2).
Proof. rewrite <- Permutation_middle. intros [? ?]%NoDup_cons. done. Qed.

(** Taking an entry out of the links of one direction. *)
Lemma lseg_bypass f h l1 x l2 : NoDup (l1 ++ x :: l2) -> (0 ∉ l1 ++ x :: l2) -> lseg f h (l1 ++ x :: l2) 0 ->
  let prev := default 0 (last l1) in let next := hd 0 l2 in
  lseg (<[x := 0]> (if prev =? 0 then f else <[prev := next]> f)) (if prev =? 0 then next else h) (l1 ++ l2) 0.
Proof.
  intros Hn H0 Hl prev next. pose proof (NoDup_app_cons _ _ _ Hn) as [Hn' Hx]. apply lseg_frame; [done|].
  apply lseg_app in Hl as (m & Hl1 & -> & n & Hxn & Hl2).
  assert (Hnext : n = next) by (by apply lseg_link in Hl2). subst n. subst prev.
  destruct l1 as [|p l1 _] using rev_ind; [done|]. rewrite last_snoc.
  change (default 0 (Some p)) with p.
  rewrite (proj2 (Z.eqb_neq p 0)) by (rewrite <- app_assoc in H0; by eapply middle_ne).
  apply lseg_app. exists next. apply NoDup_app in Hn' as (Hn1 & Hd & _). apply NoDup_app in Hn1 as (_ & Hp & _).
  split; [apply (lseg_redirect _ _ _ _ x); [|done]|apply lseg_frame; [|done]].
  - intros Hin. apply (Hp p Hin). left.
  - apply Hd, elem_of_app. right. left.
Qed.

Lemma lseg_link_middle f h l1 x l2 : lseg f h (l1 ++ x :: l2) 0 -> link f x = hd 0 l2.
Proof.
  intros Hl. apply lseg_app in Hl as (m & _ & _ & n & Hn & Hl). apply lseg_link in Hl. subst n. by apply link_lookup.
Qed.

Lemma dq_links q l1 x l2 : dq_repr q (l1 ++ x :: l2) ->
  link (dflink q) x = hd 0 l2 /\ link (dblink q) x = default 0 (last l1).
Proof.
  intros (_ & _ & Hl & Hb). rewrite reverse_app, reverse_cons, <- app_assoc in Hb.
  apply lseg_link_middle in Hl. apply lseg_link_middle in Hb. by rewrite hd_reverse in Hb.
Qed.

Lemma dq_rem_repr q l1 x l2 : dq_repr q (l1 ++ x :: l2) -> dq_repr (dq_rem x q) (l1 ++ l2).
Proof.
  intros Hq. destruct (dq_links q l1 x l2 Hq) as [Hf Hb]. destruct Hq as (Hn & H0 & Hl & Hr).
  unfold dq_rem. rewrite Hf, Hb. split; [by destruct (NoDup_app_cons _ _ _ Hn)|]. split; [set_solver|].
  cbn [dq_head dq_tail dflink dblink]. split; [by apply lseg_bypass|].
  rewrite reverse_app, reverse_cons, <- app_assoc in Hr. rewrite reverse_app.
  pose proof (lseg_bypass (dblink q) (dq_tail q) (reverse l2) x (reverse l1)) as Hby.
  rewrite last_reverse_hd, hd_reverse in Hby. apply Hby; [| |done].
  - change (x :: reverse l1) with ([x] ++ reverse l1).
    rewrite app_assoc, <- reverse_cons, <- reverse_app. by rewrite reverse_Permutation.
  - set_solver.
Qed.

Lemma dq_remfirst_repr q x l : dq_repr q (x :: l) -> dq_remfirst q = (x, dq_rem x q).
Proof.
  intros Hq. destruct (dq_links q [] x l Hq) as [Hf Hb]. pose proof (dq_head_repr _ _ Hq) as Hh.
  cbn in Hh, Hb. unfold dq_remfirst, dq_rem. rewrite Hh, Hf, Hb. destruct Hq as (_ & H0 & _).
  rewrite (proj2 (Z.eqb_neq x 0)) by (intros ->; apply H0; left). cbn [negb].
  f_equal. f_equal; destruct (Z.eqb_spec (hd 0 l) 0); done.
Qed.

Lemma dq_remfirst_empty q : dq_repr q [] -> dq_remfirst q = (0, q).
Proof. intros (_ & _ & Hl & _). cbn in Hl. unfold dq_remfirst. by rewrite Hl. Qed.

(** ** Refinement: sequences of operations act on lists *)

Inductive sq_op := AddFirst (x : Z) | AddLast (x : Z) | AddAfter (prev x : Z) | Rem (x : Z) | RemFirst.

Definition sq_exec (o : sq_op) (q : sq_queue_s) : option sq_queue_s :=
  match o with
  | AddFirst x => Some (sq_addfirst x q)
  | AddLast x => Some (sq_addlast x q)
  | AddAfter prev x => Some (sq_addafter prev x q)
  | Rem x => sq_rem x q
  | RemFirst => Some (snd (sq_remfirst q))
  end.

Fixpoint insert_after (prev x : Z) (l : list Z) : list Z :=
  match l with
  | [] => []
  | y :: l => if y =? prev then y :: x :: l else y :: insert_after prev x l
  end.

Definition fresh (x : Z) (l : list Z) : bool := negb (x =? 0) && bool_decide (x ∉ l).

(** The same operation on the list; [None] where the caller breaks the rules: a null pointer,
    an entry that is already in a queue, a predecessor that is not. *)
Definition sq_spec (o : sq_op) (l : list Z) : option (list Z) :=
  match o with
  | AddFirst x => if fresh x l then Some (x :: l) else None
  | AddLast x => if fresh x l then Some (l ++ [x]) else None
  | AddAfter prev x => if fresh x l && bool_decide (prev ∈ l) then Some (insert_after prev x l) else None
  | Rem x => Some (filter (fun y : Z => y <> x) l)
  | RemFirst => Some (List.tl l)
  end.

Lemma insert_after_split prev x l1 l2 : prev ∉ l1 -> insert_after prev x (l1 ++ prev :: l2) = l1 ++ prev :: x :: l2.
Proof.
  induction l1 as [|y l1 IH]; cbn; [by rewrite Z.eqb_refl|]. intros [Hy Hl]%not_elem_of_cons.
  rewrite (proj2 (Z.eqb_neq y prev)) by congruence. by rewrite IH.
Qed.

Lemma filter_absent (x : Z) (l : list Z) : x ∉ l -> filter (fun y : Z => y <> x) l = l.
Proof.
  induction l as [|y l IH]; [done|]. intros [Hy Hl]%not_elem_of_cons.
  rewrite filter_cons_True by congruence. by rewrite IH.
Qed.

Lemma filter_split (x : Z) (l1 l2 : list Z) : NoDup (l1 ++ x :: l2) -> filter (fun y : Z => y <> x) (l1 ++ x :: l2) = l1 ++ l2.
Proof.
  intros [_ Hx]%NoDup_app_cons. rewrite filter_app, filter_cons_False by auto.
  rewrite <- filter_app. by apply filter_absent.
Qed.

Lemma fresh_spec x l : fresh x l = true -> x <> 0 /\ (x ∉ l).
Proof. unfold fresh. intros [Hx Hl]%andb_true_iff. apply bool_decide_eq_true in Hl. split; [|done]. by destruct (Z.eqb_spec x 0). Qed.

Lemma sq_exec_refines o q l l' : sq_repr q l -> sq_spec o l = Some l' ->
  exists q', sq_exec o q = Some q' /\ sq_repr q' l'.
Proof.
  intros Hq. destruct o as [x|x|prev x|x|]; cbn [sq_spec sq_exec].
  - destruct (fresh x l) eqn:Hf; [|done]. apply fresh_spec in Hf as [H0 Hx]. intros [= <-].
    eexists. split; [done|]. by apply sq_addfirst_repr.
  - destruct (fresh x l) eqn:Hf; [|done]. apply fresh_spec in Hf as [H0 Hx]. intros [= <-].
    eexists. split; [done|]. by apply sq_addlast_repr.
  - destruct (fresh x l && _) eqn:Hf; [|done]. apply andb_true_iff in Hf as [Hf Hp].
    apply fresh_spec in Hf as [H0 Hx]. apply bool_decide_eq_true in Hp. intros [= <-].
    apply list_elem_of_split in Hp as (l1 & l2 & ->). pose proof Hq as (Hn & _).
    rewrite insert_after_split.
    + eexists. split; [done|]. by apply sq_addafter_repr.
    + apply NoDup_app_cons in Hn as [_ Hn]. intros Hin. apply Hn, elem_of_app. by left.
  - intros [= <-]. destruct (decide (x ∈ l)) as [Hx|Hx].
    + apply list_elem_of_split in Hx as (l1 & l2 & ->). pose proof Hq as (Hn & _). rewrite filter_split by done.
      by apply sq_rem_repr.
    + rewrite filter_absent by done. exists q. split; [by eapply sq_rem_absent|done].
  - intros [= <-]. eexists. split; [done|]. destruct l as [|x l]; [|by destruct (sq_remfirst_repr q x l Hq)].
    pose proof (sq_peek_repr q [] Hq) as Hh. unfold sq_remfirst, sq_peek in *. by rewrite Hh.
Qed.

Definition sq_exec_all (os : list sq_op) (q : sq_queue_s) : option sq_queue_s :=
  fold_left (fun r o => match r with Some q => sq_exec o q | None => None end) os (Some q).

Definition sq_spec_all (os : list sq_op) (l : list Z) : option (list Z) :=
  fold_left (fun r o => match r with Some l => sq_spec o l | None => None end) os (Some l).

(** The pointer operations implement lists: from a queue that represents a
    list, any sequence of operations whose callers keep to the rules runs through without
    a walk that does not end, and the queue represents what the same operations make of
    the list. *)
Theorem sq_queue_refines os : forall q l l', sq_repr q l -> sq_spec_all os l = Some l' ->
  exists q', sq_exec_all os q = Some q' /\ sq_repr q' l'.
Proof.
  induction os as [|o os IH]; intros q l l' Hq.
  - intros [= <-]. by exists q.
  - unfold sq_spec_all, sq_exec_all. cbn [fold_left]. destruct (sq_spec o l) as [l1|] eqn:Ho.
    + destruct (sq_exec_refines o q l l1 Hq Ho) as (q1 & -> & Hq1). by apply IH.
    + intros H. exfalso. revert H. clear. by induction os.
Qed.

Definition demo_ops : list sq_op :=
  [AddFirst 8; AddLast 16; AddAfter 8 24; AddFirst 32; Rem 8; AddAfter 16 40; RemFirst; Rem 99; Rem 40].

Lemma sq_queue_refines_witness :
  exists q', sq_exec_all demo_ops (Sq 0 0 ∅) = Some q' /\ sq_repr q' [24; 16].
Proof.
  apply (sq_queue_refines demo_ops (Sq 0 0 ∅) [] [24; 16]);
    [exact (sq_init_repr (Sq 0 0 ∅))|vm_compute; reflexivity].
Defined.

End Queue.
