(* ===== verification/SqIface.v ===== *)
(** * What the clients of a singly linked queue rely on

    The high-resolution timers (src/platforms/nuttx/src/px4/stm/stm32_common/hrt/hrt.c) keep
    their callouts in a queue of the operating system.  On NuttX that is the system's own
    library; [SqLaws] states its documented behaviour on a queue that represents a list of
    distinct entries, and the repository's implementation of the same functions for POSIX
    ([Queue]) is an instance. *)

From stdpp Require Import gmap.
From S2P Require Import Prelude Queue.

Local Open Scope Z_scope.

Class SqQueue (Q : Type) := {
  sq_peek : Q -> Z;
  sq_next : Z -> Q -> Z;
  sq_rem : Z -> Q -> option Q;          (* [None]: the walk does not end *)
  sq_addfirst : Z -> Q -> Q;
  sq_addafter : Z -> Z -> Q -> Q;
}.

Class SqLaws (Q : Type) (sq : SqQueue Q) := {
  represents : Q -> list Z -> Prop;
  represents_nodup : forall q l, represents q l -> NoDup l;
  represents_nonnull : forall q l, represents q l -> 0 ∉ l;
  peek_law : forall q l, represents q l -> sq_peek q = hd 0 l;
  next_law : forall q l1 x l2, represents q (l1 ++ x :: l2) -> sq_next x q = hd 0 l2;
  rem_law : forall q l1 x l2, represents q (l1 ++ x :: l2) ->
    exists q', sq_rem x q = Some q' /\ represents q' (l1 ++ l2);
  rem_absent_law : forall q l x, represents q l -> x ∉ l ->
    exists q', sq_rem x q = Some q' /\ represents q' l;
  addfirst_law : forall q l x, represents q l -> x ∉ l -> x <> 0 -> represents (sq_addfirst x q) (x :: l);
  addafter_law : forall q l1 prev l2 x, represents q (l1 ++ prev :: l2) -> x ∉ l1 ++ prev :: l2 -> x <> 0 ->
    represents (sq_addafter prev x q) (l1 ++ prev :: x :: l2);
}.

Module PosixQueue.

#[export] Instance posix_sq : SqQueue Queue.sq_queue_s := {
  sq_peek := Queue.sq_peek;
  sq_next := Queue.sq_next;
  sq_rem := Queue.sq_rem;
  sq_addfirst := Queue.sq_addfirst;
  sq_addafter := Queue.sq_addafter;
}.

#[export, refine] Instance posix_sq_laws : SqLaws Queue.sq_queue_s posix_sq := {
  represents := Queue.sq_repr;
  peek_law := Queue.sq_peek_repr;
  next_law := Queue.sq_next_repr;
  rem_law := Queue.sq_rem_repr;
  addfirst_law := Queue.sq_addfirst_repr;
  addafter_law := Queue.sq_addafter_repr;
}.
Proof.
  - intros q l (H & _). exact H.
  - intros q l (_ & H & _). exact H.
  - intros q l x Hq Hx. exists q. split; [exact (Queue.sq_rem_absent q l x Hq Hx)|exact Hq].
Defined.

End PosixQueue.
