(* ===== verification/Ppm.v ===== *)
(** * The PPM decoder of the high-resolution timer

    [hrt_ppm_decode] of src/platforms/nuttx/src/px4/stm/stm32_common/hrt/hrt.c: the state
    machine that turns the captured edges of the RC receiver's pulse train into channel
    values.  The time stamp of an accepted frame is left to the caller. *)

From S2P Require Import Prelude.

Local Open Scope Z_scope.

Module Ppm.

Definition PPM_MIN_PULSE_WIDTH : Z := 200.
Definition PPM_MAX_PULSE_WIDTH : Z := 600.
Definition PPM_MIN_CHANNEL_VALUE : Z := 800.
Definition PPM_MAX_CHANNEL_VALUE : Z := 2200.
Definition PPM_MIN_START : Z := 2300.
Definition PPM_MIN_CHANNELS : nat := 5.
Definition PPM_MAX_CHANNELS : nat := 20.
Definition PPM_CHANNEL_LOCK : Z := 4.

Inductive phase_t := UNSYNCH | ARM | ACTIVE | INACTIVE.

Record ppm_t := Ppm {
  last_edge : Z;
  last_mark : Z;
  frame_start : Z;
  next_channel : nat;
  phase : phase_t;
  ppm_buffer : list Z;                  (* PPM_MAX_CHANNELS values *)
  ppm_temp_buffer : list Z;
  ppm_frame_length : Z;
  ppm_decoded_channels : nat;
  new_channel_count : nat;              (* the static variables of the decoder *)
  new_channel_holdoff : Z;
}.

Definition ppm_init : ppm_t :=
  Ppm 0 0 0 0 UNSYNCH (replicate PPM_MAX_CHANNELS 0) (replicate PPM_MAX_CHANNELS 0) 0 0 0 0.

(** The label [error]. *)
Definition ppm_error (p : ppm_t) : ppm_t :=
  Ppm (last_edge p) (last_mark p) (frame_start p) (next_channel p) UNSYNCH (ppm_buffer p) (ppm_temp_buffer p)
      (ppm_frame_length p) 0 (new_channel_count p) (new_channel_holdoff p).

Definition set_edge (count : Z) (ph : phase_t) (p : ppm_t) : ppm_t :=
  Ppm count (last_mark p) (frame_start p) (next_channel p) ph (ppm_buffer p) (ppm_temp_buffer p)
      (ppm_frame_length p) (ppm_decoded_channels p) (new_channel_count p) (new_channel_holdoff p).

(** The channel count of the frame that ends against the count in use: settle on a new one,
    or take the values over.  The flag tells that a frame was taken. *)
Definition end_of_frame (p : ppm_t) : ppm_t * bool :=
  let with_count (decoded count : nat) (holdoff : Z) :=
    Ppm (last_edge p) (last_mark p) (frame_start p) (next_channel p) (phase p) (ppm_buffer p) (ppm_temp_buffer p)
        (ppm_frame_length p) decoded count holdoff in
  if negb (next_channel p =? ppm_decoded_channels p)%nat then
    if negb (new_channel_count p =? next_channel p)%nat
    then (with_count (ppm_decoded_channels p) (next_channel p) PPM_CHANNEL_LOCK, false)
    else if new_channel_holdoff p >? 0
    then (with_count (ppm_decoded_channels p) (new_channel_count p) (new_channel_holdoff p - 1), false)
    else (with_count (new_channel_count p) 0%nat (new_channel_holdoff p), false)
  else if (PPM_MIN_CHANNELS <=? next_channel p)%nat then
    (Ppm (last_edge p) (last_mark p) (frame_start p) (next_channel p) (phase p)
         (take (next_channel p) (ppm_temp_buffer p) ++ drop (next_channel p) (ppm_buffer p)) (ppm_temp_buffer p)
         (ppm_frame_length p) (ppm_decoded_channels p) (new_channel_count p) (new_channel_holdoff p), true)
  else (p, false).

Definition bad_pulse (width : Z) : bool := (width <? PPM_MIN_PULSE_WIDTH) || (width >? PPM_MAX_PULSE_WIDTH).

(** [missed]: the overflow flag of the status word; [count]: the capture register. *)
Definition hrt_ppm_decode (missed : bool) (count : Z) (p : ppm_t) : ppm_t * bool :=
  if missed then (ppm_error p, false)
  else
    let width := u16 (count - last_edge p) in
    if width >=? PPM_MIN_START then
      let '(p, taken) := end_of_frame p in
      (Ppm count (last_mark p) (frame_start p) 0 ARM (ppm_buffer p) (ppm_temp_buffer p)
           (ppm_frame_length p) (ppm_decoded_channels p) (new_channel_count p) (new_channel_holdoff p), taken)
    else
      match phase p with
      | UNSYNCH => (set_edge count UNSYNCH p, false)
      | ARM =>
          if bad_pulse width then (ppm_error p, false)
          else
            (Ppm count (last_edge p) (last_edge p) (next_channel p) ACTIVE (ppm_buffer p) (ppm_temp_buffer p)
                 (u16 (last_edge p - frame_start p)) (ppm_decoded_channels p) (new_channel_count p)
                 (new_channel_holdoff p), false)
      | INACTIVE => if bad_pulse width then (ppm_error p, false) else (set_edge count ACTIVE p, false)
      | ACTIVE =>
          let interval := u16 (count - last_mark p) in
          let p := Ppm (last_edge p) count (frame_start p) (next_channel p) (phase p) (ppm_buffer p)
                       (ppm_temp_buffer p) (ppm_frame_length p) (ppm_decoded_channels p) (new_channel_count p)
                       (new_channel_holdoff p) in
          if (interval <? PPM_MIN_CHANNEL_VALUE) || (interval >? PPM_MAX_CHANNEL_VALUE)
          then (ppm_error p, false)
          else if (next_channel p <? PPM_MAX_CHANNELS)%nat then
            (Ppm count (last_mark p) (frame_start p) (S (next_channel p)) INACTIVE (ppm_buffer p)
                 (<[next_channel p := interval]> (ppm_temp_buffer p)) (ppm_frame_length p)
                 (ppm_decoded_channels p) (new_channel_count p) (new_channel_holdoff p), false)
          else (set_edge count INACTIVE p, false)
      end.

(** Edges as they come: the state and whether any of them completed a frame. *)
Fixpoint ppm_edges (es : list (bool * Z)) (p : ppm_t) : ppm_t * bool :=
  match es with
  | [] => (p, false)
  | (missed, count) :: es =>
      let '(p, taken) := hrt_ppm_decode missed count p in
      let '(p, taken') := ppm_edges es p in (p, taken || taken')
  end.

End Ppm.
