(* ===== verification/PpmSpec.v ===== *)
(** * Theorems about the PPM decoder

    The decoder keeps its buffers and counters in range whatever edges arrive, and locks onto
    a pulse train: after at most six well-formed frames it publishes every further one. *)

From S2P Require Import Prelude Ppm.

Local Open Scope Z_scope.

Module PpmSpec.
Import Ppm.

(** ** The invariant *)

Definition channel_value (v : Z) : Prop := PPM_MIN_CHANNEL_VALUE <= v <= PPM_MAX_CHANNEL_VALUE.

Definition value_or_unset (v : Z) : Prop := v = 0 \/ channel_value v.

Record ppm_ok (p : ppm_t) : Prop := {
  ok_buffer : length (ppm_buffer p) = PPM_MAX_CHANNELS;
  ok_temp : length (ppm_temp_buffer p) = PPM_MAX_CHANNELS;
  ok_next : (next_channel p <= PPM_MAX_CHANNELS)%nat;
  ok_decoded : (ppm_decoded_channels p <= PPM_MAX_CHANNELS)%nat;
  ok_count : (new_channel_count p <= PPM_MAX_CHANNELS)%nat;
  ok_holdoff : 0 <= new_channel_holdoff p <= PPM_CHANNEL_LOCK;
  ok_values : Forall channel_value (take (next_channel p) (ppm_temp_buffer p));
  ok_published : Forall value_or_unset (ppm_buffer p);
}.

Lemma ppm_init_ok : ppm_ok ppm_init.
Proof. split; cbn; try lia; repeat constructor; done. Qed.

Lemma take_insert_S (l : list Z) n v : (n < length l)%nat -> take (S n) (<[n := v]> l) = take n l ++ [v].
Proof.
  intros Hn. rewrite (take_S_r _ _ v) by (by apply list_lookup_insert_eq). by rewrite take_insert_ge.
Qed.

Lemma end_of_frame_ok p : ppm_ok p -> ppm_ok (fst (end_of_frame p)) /\
  (snd (end_of_frame p) = true -> (PPM_MIN_CHANNELS <= ppm_decoded_channels (fst (end_of_frame p)))%nat /\
     Forall channel_value (take (ppm_decoded_channels (fst (end_of_frame p))) (ppm_buffer (fst (end_of_frame p))))).
Proof.
  intros [Hb Ht Hn Hd Hc Hh Hv Hp]. unfold end_of_frame, PPM_CHANNEL_LOCK in *.
  destruct (Nat.eqb_spec (next_channel p) (ppm_decoded_channels p)) as [He|He]; cbn [negb].
  - destruct (Nat.leb_spec PPM_MIN_CHANNELS (next_channel p)); cbn [fst snd ppm_decoded_channels ppm_buffer].
    + split.
      * split; cbn; try done.
        -- rewrite length_app, length_take, length_drop. lia.
        -- apply Forall_app. split; [|by apply Forall_drop].
           eapply Forall_impl; [exact Hv|]. intros v Hx. by right.
      * intros _. rewrite <- He. split; [done|]. rewrite take_app_le by (rewrite length_take; lia).
        by rewrite take_take, Nat.min_id.
    + by split.
  - destruct (_ =? _)%nat; cbn [negb]; [destruct (Z.gtb_spec (new_channel_holdoff p) 0)|];
      (split; [split; cbn; unfold PPM_CHANNEL_LOCK; done || lia|done]).
Qed.

Lemma decode_ok missed count p : ppm_ok p ->
  let '(p', taken) := hrt_ppm_decode missed count p in
  ppm_ok p' /\
  (taken = true -> (PPM_MIN_CHANNELS <= ppm_decoded_channels p' <= PPM_MAX_CHANNELS)%nat /\
     Forall channel_value (take (ppm_decoded_channels p') (ppm_buffer p'))).
Proof.
  intros Hok. pose proof Hok as [Hb Ht Hn Hd Hc Hh Hv Hp]. unfold hrt_ppm_decode.
  assert (Herr : forall q, ppm_ok q -> ppm_ok (ppm_error q)) by (intros q []; split; cbn; done || lia).
  destruct missed; [split; [by apply Herr|done]|].
  destruct (_ >=? PPM_MIN_START).
  - destruct (end_of_frame_ok p Hok) as [[] Htaken]. destruct (end_of_frame p) as [q taken]. cbn [fst snd] in *.
    split; [split; cbn; done || lia || apply Forall_nil_2|]. intros Ht'. destruct (Htaken Ht'). by split.
  - destruct (phase p); [split; [by split|done]|destruct (bad_pulse _)| |destruct (bad_pulse _)];
      try (split; [by apply Herr || by split|done]).
    set (iv := u16 (count - last_mark p)). cbn [next_channel ppm_temp_buffer].
    destruct (Z.ltb_spec iv PPM_MIN_CHANNEL_VALUE); cbn [orb]; [split; [by apply Herr; split|done]|].
    destruct (Z.gtb_spec iv PPM_MAX_CHANNEL_VALUE); [split; [by apply Herr; split|done]|].
    destruct (Nat.ltb_spec (next_channel p) PPM_MAX_CHANNELS); [|split; [by split|done]].
    split; [|done]. split; cbn; try done; [by rewrite length_insert|].
    rewrite take_insert_S by lia. apply Forall_app. split; [done|]. repeat constructor; done.
Qed.

(** Whatever edges arrive, missed ones included, the decoder keeps its
    channel counts within the buffers, the pending values within the limits of a channel, and
    a frame that it takes has at least five channels, all within these limits. *)
Theorem ppm_stays_in_range missed count p : ppm_ok p ->
  let '(p', taken) := hrt_ppm_decode missed count p in
  ppm_ok p' /\
  (taken = true -> (PPM_MIN_CHANNELS <= ppm_decoded_channels p' <= PPM_MAX_CHANNELS)%nat /\
     Forall channel_value (take (ppm_decoded_channels p') (ppm_buffer p'))).
Proof. apply decode_ok. Qed.

(** ** Pulse trains *)

(** A frame after its start edge: the first pulse, the channels (distance between marks and
    the pulse behind the mark), and the gap up to the next start edge. *)
Record frame := Frame { first_pulse : Z; channels : list (Z * Z); gap : Z }.

Definition pulse (w : Z) : Prop := PPM_MIN_PULSE_WIDTH <= w <= PPM_MAX_PULSE_WIDTH.

Definition good_channel (c : Z * Z) : Prop := channel_value (fst c) /\ pulse (snd c).

Definition good_frame (n : nat) (f : frame) : Prop :=
  length (channels f) = n /\ Forall good_channel (channels f) /\ pulse (first_pulse f) /\
  PPM_MIN_START <= gap f < 2 ^ 16.

(** Edges in microseconds of true time: from the mark [m] on; the last edge and mark. *)
Fixpoint marks (m : Z) (cs : list (Z * Z)) : list Z :=
  match cs with [] => [] | (v, w) :: cs => (m + v) :: (m + v + w) :: marks (m + v) cs end.

Fixpoint final (m e : Z) (cs : list (Z * Z)) : Z * Z :=
  match cs with [] => (m, e) | (v, w) :: cs => final (m + v) (m + v + w) cs end.

Definition body (t : Z) (f : frame) : list Z := (t + first_pulse f) :: marks t (channels f).

Definition next_start (t : Z) (f : frame) : Z := snd (final t (t + first_pulse f) (channels f)) + gap f.

(** What the timer captures of them. *)
Definition captures (ts : list Z) : list (bool * Z) := map (fun t => (false, u16 t)) ts.

Definition values (f : frame) : list Z := map fst (channels f).

Lemma u16_sub a b : u16 (u16 a - u16 b) = u16 (a - b).
Proof. unfold wrap. by rewrite <- Zminus_mod. Qed.

Lemma u16_width a b : 0 <= a - b < 2 ^ 16 -> u16 (u16 a - u16 b) = a - b.
Proof. intros H. rewrite u16_sub. by apply wrap_small. Qed.

Lemma good_pulse w : pulse w -> bad_pulse w = false.
Proof.
  unfold pulse, bad_pulse. intros []. rewrite Z.gtb_ltb.
  by rewrite (proj2 (Z.ltb_ge _ _)), (proj2 (Z.ltb_ge _ _)) by lia.
Qed.

Lemma ppm_edges_app es es' p : ppm_edges (es ++ es') p =
  let '(p1, t1) := ppm_edges es p in let '(p2, t2) := ppm_edges es' p1 in (p2, t1 || t2).
Proof.
  revert p. induction es as [|[m c] es IH]; intros p; cbn [app ppm_edges].
  - by destruct (ppm_edges es' p).
  - destruct (hrt_ppm_decode m c p) as [p1 t]. rewrite IH. destruct (ppm_edges es p1) as [p2 t2].
    destruct (ppm_edges es' p2) as [p3 t3]. by rewrite orb_assoc.
Qed.

(** In a frame: [k] values stored, the last mark at [m], the last edge at [e]. *)
Definition in_frame (m e start : Z) (vs : list Z) (len : Z) (p0 : ppm_t) : ppm_t :=
  Ppm (u16 e) (u16 m) start (length vs) ACTIVE (ppm_buffer p0) (vs ++ drop (length vs) (ppm_temp_buffer p0)) len
      (ppm_decoded_channels p0) (new_channel_count p0) (new_channel_holdoff p0).

Lemma insert_drop (vs l : list Z) v : (length vs < length l)%nat ->
  <[length vs := v]> (vs ++ drop (length vs) l) = (vs ++ [v]) ++ drop (length (vs ++ [v])) l.
Proof.
  intros Hl. rewrite insert_app_r_alt, Nat.sub_diag, length_app, <- app_assoc by lia. f_equal. cbn [length].
  destruct (drop (length vs) l) as [|x r] eqn:Hd.
  - apply (f_equal length) in Hd. rewrite length_drop in Hd. cbn in Hd. lia.
  - cbn. by rewrite <- drop_drop, Hd.
Qed.

Lemma channel_decoded m e start vs len p0 v w : pulse (e - m) -> good_channel (v, w) ->
  (length vs < PPM_MAX_CHANNELS)%nat -> length (ppm_temp_buffer p0) = PPM_MAX_CHANNELS ->
  ppm_edges (captures [m + v; m + v + w]) (in_frame m e start vs len p0) =
    (in_frame (m + v) (m + v + w) start (vs ++ [v]) len p0, false).
Proof.
  unfold good_channel, pulse, channel_value, PPM_MIN_PULSE_WIDTH, PPM_MAX_PULSE_WIDTH, PPM_MIN_CHANNEL_VALUE,
    PPM_MAX_CHANNEL_VALUE. cbn [fst snd]. intros Hpe [Hv Hw] Hvs Ht.
  cbn [captures map ppm_edges]. unfold hrt_ppm_decode at 1. cbn [in_frame last_edge last_mark phase next_channel].
  rewrite !u16_width by lia. unfold PPM_MIN_START. rewrite Z.geb_leb, (proj2 (Z.leb_gt _ _)) by lia.
  unfold PPM_MIN_CHANNEL_VALUE, PPM_MAX_CHANNEL_VALUE. replace (m + v - m) with v by lia.
  rewrite Z.gtb_ltb, (proj2 (Z.ltb_ge v 800)), (proj2 (Z.ltb_ge 2200 v)) by lia. cbn [orb].
  rewrite (proj2 (Nat.ltb_lt _ _)) by done.
  unfold hrt_ppm_decode. cbn [last_edge phase]. rewrite u16_width by lia.
  unfold PPM_MIN_START. rewrite Z.geb_leb, (proj2 (Z.leb_gt _ _)) by lia.
  replace (m + v + w - (m + v)) with w by lia. rewrite good_pulse by done.
  cbn [orb]. unfold set_edge, in_frame.
  cbn [last_edge last_mark frame_start next_channel ppm_buffer ppm_temp_buffer ppm_frame_length
    ppm_decoded_channels new_channel_count new_channel_holdoff].
  rewrite insert_drop by lia. rewrite length_app. cbn [length]. by rewrite Nat.add_1_r.
Qed.

Lemma channels_decoded start len p0 cs : forall m e vs, pulse (e - m) -> Forall good_channel cs ->
  (length vs + length cs <= PPM_MAX_CHANNELS)%nat -> length (ppm_temp_buffer p0) = PPM_MAX_CHANNELS ->
  ppm_edges (captures (marks m cs)) (in_frame m e start vs len p0) =
    (in_frame (fst (final m e cs)) (snd (final m e cs)) start (vs ++ map fst cs) len p0, false).
Proof.
  induction cs as [|[v w] cs IH]; intros m e vs Hpe Hcs Hlen Ht.
  - by rewrite app_nil_r.
  - apply Forall_cons_1 in Hcs as [Hc Hcs]. cbn [length] in Hlen. cbn [marks].
    change (captures (m + v :: m + v + w :: marks (m + v) cs))
      with (captures [m + v; m + v + w] ++ captures (marks (m + v) cs)).
    rewrite ppm_edges_app, channel_decoded by (done || lia). cbn [final].
    rewrite IH; [by rewrite <- app_assoc| |done| |done].
    + destruct Hc as [_ Hw]. cbn [snd] in Hw. by replace (m + v + w - (m + v)) with w by lia.
    + rewrite length_app. cbn [length]. lia.
Qed.

(** The decoder has seen a start edge at [t]. *)
Definition armed_at (t : Z) (p : ppm_t) : Prop :=
  phase p = ARM /\ next_channel p = 0%nat /\ last_edge p = u16 t.

Lemma frame_decoded n t f p : good_frame n f -> (n <= PPM_MAX_CHANNELS)%nat -> ppm_ok p -> armed_at t p ->
  exists p1, ppm_edges (captures (body t f)) p = (p1, false) /\
    last_edge p1 = u16 (snd (final t (t + first_pulse f) (channels f))) /\ next_channel p1 = n /\
    take n (ppm_temp_buffer p1) = values f /\ ppm_buffer p1 = ppm_buffer p /\
    ppm_decoded_channels p1 = ppm_decoded_channels p /\ new_channel_count p1 = new_channel_count p /\
    new_channel_holdoff p1 = new_channel_holdoff p.
Proof.
  intros (Hn & Hcs & Hfp & _) Hmax Hok (Hph & Hnc & Hle). unfold body. cbn [captures map ppm_edges].
  unfold hrt_ppm_decode at 1. rewrite Hle, u16_width by (revert Hfp; unfold pulse, PPM_MIN_PULSE_WIDTH, PPM_MAX_PULSE_WIDTH; lia).
  replace (t + first_pulse f - t) with (first_pulse f) by lia.
  rewrite Z.geb_leb, (proj2 (Z.leb_gt _ _)) by (revert Hfp; unfold pulse, PPM_MAX_PULSE_WIDTH, PPM_MIN_START; lia).
  rewrite Hph, good_pulse by done. rewrite Hnc.
  change (map (fun t0 => (false, u16 t0)) (marks t (channels f))) with (captures (marks t (channels f))).
  pose proof (channels_decoded (u16 t) (u16 (u16 t - frame_start p)) p (channels f) t (t + first_pulse f) []) as Hd.
  unfold in_frame at 1 in Hd. cbn [length app] in Hd. rewrite drop_0 in Hd.
  rewrite Hd; [|by replace (t + first_pulse f - t) with (first_pulse f) by lia|done|lia|apply Hok].
  eexists. split; [done|]. cbn [in_frame last_edge next_channel ppm_temp_buffer ppm_buffer ppm_decoded_channels
    new_channel_count new_channel_holdoff]. rewrite length_map, Hn. repeat split.
  rewrite take_app_le by (rewrite length_map; lia). rewrite firstn_all2; [done|rewrite length_map; lia].
Qed.

(** ** Locking *)

(** How many frames with [n] channels have to pass before the next one is taken. *)
Definition frames_to_lock (n : nat) (p : ppm_t) : Z :=
  if (ppm_decoded_channels p =? n)%nat then 0
  else if (new_channel_count p =? n)%nat then new_channel_holdoff p + 1 else PPM_CHANNEL_LOCK + 2.

Lemma frames_to_lock_range n p : ppm_ok p -> 0 <= frames_to_lock n p <= 6.
Proof.
  intros Hp. pose proof (ok_holdoff _ Hp). unfold frames_to_lock, PPM_CHANNEL_LOCK in *.
  destruct (_ =? _)%nat; [lia|]. destruct (_ =? _)%nat; lia.
Qed.

Lemma start_edge_ok t p : ppm_ok p -> PPM_MIN_START <= u16 (u16 t - last_edge p) ->
  exists p', fst (hrt_ppm_decode false (u16 t) p) = p' /\ ppm_ok p' /\ armed_at t p' /\
    ppm_decoded_channels p' = ppm_decoded_channels (fst (end_of_frame p)) /\
    new_channel_count p' = new_channel_count (fst (end_of_frame p)) /\
    new_channel_holdoff p' = new_channel_holdoff (fst (end_of_frame p)) /\
    ppm_buffer p' = ppm_buffer (fst (end_of_frame p)) /\
    snd (hrt_ppm_decode false (u16 t) p) = snd (end_of_frame p).
Proof.
  intros Hok Hw. eexists. split; [done|]. unfold hrt_ppm_decode. rewrite Z.geb_leb, (proj2 (Z.leb_le _ _)) by done.
  destruct (end_of_frame_ok p Hok) as [[] _]. destruct (end_of_frame p) as [q taken]. cbn [fst snd] in *.
  split; [split; cbn; done || lia || apply Forall_nil_2|]. repeat split.
Qed.

Lemma ppm_edges_ok es : forall p, ppm_ok p -> ppm_ok (fst (ppm_edges es p)).
Proof.
  induction es as [|[m c] es IH]; intros p Hp; [done|]. cbn [ppm_edges].
  pose proof (decode_ok m c p Hp) as Hd. destruct (hrt_ppm_decode m c p) as [p1 t1]. destruct Hd as [Hd _].
  specialize (IH p1 Hd). by destruct (ppm_edges es p1).
Qed.

(** A well-formed frame with its closing start edge: one step nearer to the lock, or taken. *)
Lemma frame_step n t f p : (PPM_MIN_CHANNELS <= n <= PPM_MAX_CHANNELS)%nat -> good_frame n f -> ppm_ok p ->
  armed_at t p -> exists p' taken, ppm_edges (captures (body t f ++ [next_start t f])) p = (p', taken) /\
    ppm_ok p' /\ armed_at (next_start t f) p' /\
    frames_to_lock n p' = Z.max 0 (frames_to_lock n p - 1) /\
    (frames_to_lock n p = 0 -> taken = true /\ take n (ppm_buffer p') = values f /\ ppm_decoded_channels p' = n).
Proof.
  intros Hn Hf Hok Harm.
  destruct (frame_decoded n t f p Hf ltac:(lia) Hok Harm) as (p1 & He & Hle & Hnc & Hv & Hb & Hd & Hc & Hh).
  pose proof (ppm_edges_ok (captures (body t f)) p Hok) as Hok1. rewrite He in Hok1. cbn [fst] in Hok1.
  destruct Hf as (Hlen & _ & _ & Hg).
  destruct (start_edge_ok (next_start t f) p1 Hok1) as (p' & Hp' & Hok' & Harm' & Hd' & Hc' & Hh' & Hb' & Ht').
  { rewrite Hle. unfold next_start, PPM_MIN_START in *. rewrite u16_width; lia. }
  exists p', (snd (end_of_frame p1)). unfold captures. rewrite map_app, ppm_edges_app.
  change (map (fun t0 => (false, u16 t0)) (body t f)) with (captures (body t f)). rewrite He. cbn [map ppm_edges].
  rewrite <- Hp', <- Ht'. split; [by destruct (hrt_ppm_decode _ _ _) as [a []]|]. rewrite Hp'.
  split; [done|]. split; [done|]. unfold frames_to_lock. rewrite Hd', Hc', Hh', Hb', Ht'. unfold end_of_frame.
  rewrite Hnc, Hd, Hc, Hh. pose proof (ok_holdoff _ Hok) as Hhold. rewrite (Nat.eqb_sym n).
  destruct (Nat.eqb_spec (ppm_decoded_channels p) n) as [Hdn|Hdn]; cbn [negb].
  - rewrite (proj2 (Nat.leb_le _ _)) by lia. cbn [fst snd ppm_decoded_channels ppm_buffer].
    rewrite Hdn, Nat.eqb_refl. split; [done|]. intros _. split; [done|]. rewrite Hv. split; [|done].
    apply take_app_length'. unfold values. by rewrite length_map.
  - destruct (Nat.eqb_spec (new_channel_count p) n) as [Hcn|Hcn]; cbn [negb].
    + destruct (Z.gtb_spec (new_channel_holdoff p) 0); cbn [fst snd ppm_decoded_channels new_channel_count new_channel_holdoff].
      * rewrite Hcn, Nat.eqb_refl, (proj2 (Nat.eqb_neq _ _)) by done. split; [lia|lia].
      * rewrite Hcn, Nat.eqb_refl. split; lia.
    + cbn [fst snd ppm_decoded_channels new_channel_count new_channel_holdoff].
      rewrite Nat.eqb_refl, (proj2 (Nat.eqb_neq _ _)) by done. unfold PPM_CHANNEL_LOCK. split; lia.
Qed.

(** The edges of a train of frames after a start edge at [t], and the start edge behind it. *)
Fixpoint train (t : Z) (fs : list frame) : list Z :=
  match fs with [] => [] | f :: fs => body t f ++ next_start t f :: train (next_start t f) fs end.

Fixpoint train_end (t : Z) (fs : list frame) : Z :=
  match fs with [] => t | f :: fs => train_end (next_start t f) fs end.

Lemma train_locks n fs : (PPM_MIN_CHANNELS <= n <= PPM_MAX_CHANNELS)%nat -> Forall (good_frame n) fs ->
  forall t p, ppm_ok p -> armed_at t p -> exists p' taken, ppm_edges (captures (train t fs)) p = (p', taken) /\
    ppm_ok p' /\ armed_at (train_end t fs) p' /\
    frames_to_lock n p' = Z.max 0 (frames_to_lock n p - Z.of_nat (length fs)).
Proof.
  intros Hn Hfs.
  induction Hfs as [|f fs Hf _ IH]; intros t p Hok Harm.
  - exists p, false. pose proof (frames_to_lock_range n p Hok). split; [done|]. split; [done|]. split; [done|]. cbn [length]. lia.
  - destruct (frame_step n t f p Hn Hf Hok Harm) as (p1 & t1 & He & Hok1 & Harm1 & Hl1 & _).
    destruct (IH _ _ Hok1 Harm1) as (p2 & t2 & He2 & Hok2 & Harm2 & Hl2).
    exists p2, (t1 || t2). cbn [train train_end]. split.
    + change (next_start t f :: train (next_start t f) fs) with ([next_start t f] ++ train (next_start t f) fs).
      rewrite app_assoc. unfold captures in *. by rewrite map_app, ppm_edges_app, He, He2.
    + split; [done|]. split; [done|]. rewrite Hl2, Hl1. cbn [length]. lia.
Qed.

(** C37 (liveness). The decoder locks onto a pulse train from whatever state: after a start
    edge and six well-formed frames with the same number of channels, five to twenty, each
    further such frame is taken, and the published channels are its values. *)
Theorem ppm_locks n t fs f p : (PPM_MIN_CHANNELS <= n <= PPM_MAX_CHANNELS)%nat -> ppm_ok p ->
  PPM_MIN_START <= u16 (u16 t - last_edge p) -> Forall (good_frame n) fs -> (6 <= length fs)%nat ->
  good_frame n f ->
  exists p1 p2 taken, ppm_edges (captures (t :: train t fs)) p = (p1, taken) /\
    ppm_edges (captures (train (train_end t fs) [f])) p1 = (p2, true) /\
    ppm_decoded_channels p2 = n /\ take n (ppm_buffer p2) = values f.
Proof.
  intros Hn Hok Hstart Hfs Hlen Hf.
  destruct (start_edge_ok t p Hok Hstart) as (p0 & Hp0 & Hok0 & Harm0 & _).
  destruct (train_locks n fs Hn Hfs t p0 Hok0 Harm0) as (p1 & t1 & He1 & Hok1 & Harm1 & Hl1).
  destruct (frame_step n _ f p1 Hn Hf Hok1 Harm1) as (p2 & t2 & He2 & _ & _ & _ & Hlock).
  pose proof (frames_to_lock_range n p0 Hok0) as Hr. destruct (Hlock ltac:(lia)) as (-> & Hv & Hd).
  exists p1, p2, (snd (hrt_ppm_decode false (u16 t) p) || t1). split; [|by split].
  cbn [captures map ppm_edges]. change (map (fun t0 => (false, u16 t0)) (train t fs)) with (captures (train t fs)).
  by rewrite (surjective_pairing (hrt_ppm_decode _ _ _)), Hp0, He1.
Qed.

Definition demo_frame (base : Z) : frame := Frame 300 (map (fun i => (base + 100 * Z.of_nat i, 400)) (seq 0 8)) 8000.

Lemma demo_frame_good base : 800 <= base <= 1500 -> good_frame 8 (demo_frame base).
Proof.
  intros Hb. split; [done|]. split; [|split; unfold pulse; cbn; done].
  cbn. repeat (apply Forall_cons_2; [split; unfold channel_value, pulse, PPM_MIN_CHANNEL_VALUE, PPM_MAX_CHANNEL_VALUE,
    PPM_MIN_PULSE_WIDTH, PPM_MAX_PULSE_WIDTH; cbn; lia|]).
  apply Forall_nil_2.
Qed.

Lemma ppm_locks_witness : exists p1 p2 taken,
  ppm_edges (captures (70000 :: train 70000 (replicate 6 (demo_frame 1000)))) ppm_init = (p1, taken) /\
  ppm_edges (captures (train (train_end 70000 (replicate 6 (demo_frame 1000))) [demo_frame 1100])) p1 = (p2, true) /\
  ppm_decoded_channels p2 = 8%nat /\ take 8 (ppm_buffer p2) = values (demo_frame 1100).
Proof.
  apply (ppm_locks 8); [unfold PPM_MIN_CHANNELS, PPM_MAX_CHANNELS; lia|exact ppm_init_ok|done| |cbn; lia|apply demo_frame_good; lia].
  repeat (apply Forall_cons_2; [apply demo_frame_good; lia|]). apply Forall_nil_2.
Defined.

Lemma ppm_stays_in_range_witness :
  let '(p', taken) := hrt_ppm_decode false 5000 ppm_init in
  ppm_ok p' /\
  (taken = true -> (PPM_MIN_CHANNELS <= ppm_decoded_channels p' <= PPM_MAX_CHANNELS)%nat /\
     Forall channel_value (take (ppm_decoded_channels p') (ppm_buffer p'))).
Proof. exact (ppm_stays_in_range false 5000 ppm_init ppm_init_ok). Defined.

End PpmSpec.
