(* ===== verification/Hrt.v ===== *)
(** * The high-resolution timer

    src/platforms/nuttx/src/px4/stm/stm32_common/hrt/hrt.c: absolute time from a 16-bit
    counter, the queue of callouts, the compare interrupt, latency statistics, and the
    interface for user space.  [tick] gives the true time, in counts, of the n-th read of the
    counter in [hrt_absolute_time].  Entries are addresses; the queue is any implementation of
    [SqQueue].  What a callout does is a list of calls of this interface. *)

From stdpp Require Import gmap.
From S2P Require Import Prelude Queue SqIface Ppm.

Local Open Scope Z_scope.

Module Hrt.

Definition HRT_INTERVAL_MIN : Z := 50.
Definition HRT_INTERVAL_MAX : Z := 50000.
Definition HRT_COUNTER_PERIOD : Z := 65536.
Definition LATENCY_BUCKET_COUNT : nat := 8.
Definition latency_buckets : list Z := [1; 2; 5; 10; 20; 50; 100; 1000].
Definition HRT_ENTRY_QUEUE_MAX_SIZE : nat := 3.
Definition EINVAL : Z := 22.

Record hrt_call := Call { deadline : Z; period : Z; callout : Z; arg : Z }.

Definition zero_call : hrt_call := Call 0 0 0 0.

(** One call of a callout: the entry, the deadline it had, the time that was found. *)
Record invocation := Invocation { inv_entry : Z; inv_deadline : Z; inv_now : Z }.

(** Events for user space: the entries waiting and the semaphore's count. *)
Record user := User {
  next_hrt_entry : list Z;
  hrt_entry_queue_error : bool;
  suppress_entry_queue_error : bool;
  wait_sem : nat;
}.

Record hrt {Q : Type} := State {
  base_time : Z;
  last_count : Z;
  reads : nat;                                (* reads of the counter so far *)
  calls : gmap Z hrt_call;
  queue : Q;                                  (* [callout_queue] *)
  rCCR_HRT : Z;
  latency_baseline : Z;
  latency_actual : Z;
  latency_counters : list Z;
  ppm : Ppm.ppm_t;
  ppm_last_valid_decode : Z;
  usr : user;
  log : list invocation;                      (* the callouts invoked so far *)
}.
Arguments hrt : clear implicits.

(** The calls a callout or a task can make. *)
Inductive api :=
  | CallAfter (entry delay callout arg : Z)
  | CallAt (entry calltime callout arg : Z)
  | CallEvery (entry delay interval callout arg : Z)
  | Cancel (entry : Z)
  | Delay (entry delay : Z)
  | Init (entry : Z).

Section Timer.
Context {Q : Type} {sq : SqQueue Q}.
Variable tick : nat -> Z.
Variable hrt_usr_call_address : Z.            (* the address of [hrt_usr_call] *)
Variable behaviour : Z -> Z -> hrt Q -> list api.   (* what a callout does with its argument *)

Abbreviation st := (hrt Q).

Definition entry_of (e : Z) (s : st) : hrt_call := default zero_call (calls s !! e).

Definition set_call (e : Z) (c : hrt_call) (s : st) : st :=
  State Q (base_time s) (last_count s) (reads s) (<[e := c]> (calls s)) (queue s) (rCCR_HRT s) (latency_baseline s)
    (latency_actual s) (latency_counters s) (ppm s) (ppm_last_valid_decode s) (usr s) (log s).

Definition set_queue (q : Q) (s : st) : st :=
  State Q (base_time s) (last_count s) (reads s) (calls s) q (rCCR_HRT s) (latency_baseline s)
    (latency_actual s) (latency_counters s) (ppm s) (ppm_last_valid_decode s) (usr s) (log s).

Definition set_usr (u : user) (s : st) : st :=
  State Q (base_time s) (last_count s) (reads s) (calls s) (queue s) (rCCR_HRT s) (latency_baseline s)
    (latency_actual s) (latency_counters s) (ppm s) (ppm_last_valid_decode s) u (log s).

Definition set_latency (counters : list Z) (s : st) : st :=
  State Q (base_time s) (last_count s) (reads s) (calls s) (queue s) (rCCR_HRT s) (latency_baseline s)
    (latency_actual s) counters (ppm s) (ppm_last_valid_decode s) (usr s) (log s).

(** ** Absolute time *)

Definition hrt_absolute_time (s : st) : Z * st :=
  let count := tick (reads s) mod HRT_COUNTER_PERIOD in
  let base := if count <? last_count s then u64 (base_time s + HRT_COUNTER_PERIOD) else base_time s in
  (u64 (base + count),
   State Q base count (S (reads s)) (calls s) (queue s) (rCCR_HRT s) (latency_baseline s)
     (latency_actual s) (latency_counters s) (ppm s) (ppm_last_valid_decode s) (usr s) (log s)).

(** ** The callout queue *)

Definition hrt_call_reschedule (s : st) : st :=
  let '(now, s) := hrt_absolute_time s in
  let next := sq_peek (queue s) in
  let latest := u64 (now + HRT_INTERVAL_MAX) in
  let target :=
    if next =? 0 then latest
    else
      let d := deadline (entry_of next s) in
      if d <=? u64 (now + HRT_INTERVAL_MIN) then u64 (now + HRT_INTERVAL_MIN)
      else if d <? latest then d else latest in
  let compare := Z.land target 0xffff in
  State Q (base_time s) (last_count s) (reads s) (calls s) (queue s) compare compare
    (latency_actual s) (latency_counters s) (ppm s) (ppm_last_valid_decode s) (usr s) (log s).

(** The [do ... while] of [hrt_call_enter]: the entry after which [d] belongs. *)
Fixpoint enter_after (fuel : nat) (d call : Z) (s : st) : option Z :=
  match fuel with
  | O => None
  | S fuel =>
      let next := sq_next call (queue s) in
      if (next =? 0) || (d <? deadline (entry_of next s)) then Some call else enter_after fuel d next s
  end.

Definition hrt_call_enter (entry : Z) (s : st) : option st :=
  let call := sq_peek (queue s) in
  let d := deadline (entry_of entry s) in
  if (call =? 0) || (d <? deadline (entry_of call s)) then
    Some (hrt_call_reschedule (set_queue (sq_addfirst entry (queue s)) s))
  else
    match enter_after (size (calls s)) d call s with
    | None => None
    | Some prev => Some (set_queue (sq_addafter prev entry (queue s)) s)
    end.

Definition hrt_call_internal (entry dl interval callout arg : Z) (s : st) : option st :=
  let removed := if negb (deadline (entry_of entry s) =? 0) then sq_rem entry (queue s) else Some (queue s) in
  match removed with
  | None => None
  | Some q => hrt_call_enter entry (set_call entry (Call dl interval callout arg) (set_queue q s))
  end.

Definition hrt_call_after (entry delay callout arg : Z) (s : st) : option st :=
  let '(now, s) := hrt_absolute_time s in hrt_call_internal entry (u64 (now + delay)) 0 callout arg s.

Definition hrt_call_at (entry calltime callout arg : Z) (s : st) : option st :=
  hrt_call_internal entry calltime 0 callout arg s.

Definition hrt_call_every (entry delay interval callout arg : Z) (s : st) : option st :=
  let '(now, s) := hrt_absolute_time s in hrt_call_internal entry (u64 (now + delay)) interval callout arg s.

Definition hrt_called (entry : Z) (s : st) : bool := deadline (entry_of entry s) =? 0.

Definition hrt_cancel (entry : Z) (s : st) : option st :=
  match sq_rem entry (queue s) with
  | None => None
  | Some q => let c := entry_of entry s in
              Some (set_call entry (Call 0 0 (callout c) (arg c)) (set_queue q s))
  end.

(** The link is cleared too: an entry that is queued must not be initialised. *)
Definition hrt_call_init (entry : Z) (s : st) : st := set_call entry zero_call s.

Definition hrt_call_delay (entry delay : Z) (s : st) : st :=
  let '(now, s) := hrt_absolute_time s in
  let c := entry_of entry s in set_call entry (Call (u64 (now + delay)) (period c) (callout c) (arg c)) s.

(** ** Events for user space *)

Definition hrt_usr_call (entry : Z) (s : st) : st :=
  let u := usr s in
  set_usr (if (length (next_hrt_entry u) <? HRT_ENTRY_QUEUE_MAX_SIZE)%nat
           then User (next_hrt_entry u ++ [entry]) (hrt_entry_queue_error u) (suppress_entry_queue_error u)
                     (S (wait_sem u))
           else User (next_hrt_entry u) true (suppress_entry_queue_error u) (S (wait_sem u))) s.

(** ** Invoking callouts *)

Definition run_api (o : api) (s : st) : option st :=
  match o with
  | CallAfter e d f a => hrt_call_after e d f a s
  | CallAt e t f a => hrt_call_at e t f a s
  | CallEvery e d i f a => hrt_call_every e d i f a s
  | Cancel e => hrt_cancel e s
  | Delay e d => Some (hrt_call_delay e d s)
  | Init e => Some (hrt_call_init e s)
  end.

Fixpoint run_apis (os : list api) (s : st) : option st :=
  match os with
  | [] => Some s
  | o :: os => match run_api o s with Some s => run_apis os s | None => None end
  end.

(** [call->callout(call->arg)], if there is one. *)
Definition run_callout (f a : Z) (s : st) : option st :=
  if f =? 0 then Some s
  else if f =? hrt_usr_call_address then Some (hrt_usr_call a s)
  else run_apis (behaviour f a s) s.

Definition record (i : invocation) (s : st) : st :=
  State Q (base_time s) (last_count s) (reads s) (calls s) (queue s) (rCCR_HRT s) (latency_baseline s)
    (latency_actual s) (latency_counters s) (ppm s) (ppm_last_valid_decode s) (usr s) (log s ++ [i]).

(** What follows the callout: a periodic call is entered again. *)
Definition reenter (call now dl : Z) (s : st) : option st :=
  let c := entry_of call s in
  if period c =? 0 then Some s
  else
    let s := if deadline c <=? now
             then set_call call (Call (u64 (dl + period c)) (period c) (callout c) (arg c)) s else s in
    hrt_call_enter call s.

Fixpoint hrt_call_invoke (fuel : nat) (s : st) : option st :=
  match fuel with
  | O => None
  | S fuel =>
      let '(now, s) := hrt_absolute_time s in
      let call := sq_peek (queue s) in
      if call =? 0 then Some s
      else
        let c := entry_of call s in
        if deadline c >? now then Some s
        else
          match sq_rem call (queue s) with
          | None => None
          | Some q =>
              let s := set_call call (Call 0 (period c) (callout c) (arg c)) (set_queue q s) in
              let s := record (Invocation call (deadline c) now) s in
              match run_callout (callout c) (arg c) s with
              | None => None
              | Some s => match reenter call now (deadline c) s with
                          | None => None
                          | Some s => hrt_call_invoke fuel s
                          end
              end
          end
  end.

(** ** Latency and the interrupt *)

Fixpoint bucket (latency : Z) (bs : list Z) : nat :=
  match bs with [] => O | b :: bs => if latency <=? b then O else S (bucket latency bs) end.

Definition hrt_latency_update (s : st) : st :=
  let latency := u16 (latency_actual s - latency_baseline s) in
  let i := bucket latency latency_buckets in
  set_latency (<[i := u32 (nth i (latency_counters s) 0 + 1)]> (latency_counters s)) s.

Definition hrt_ppm (missed : bool) (count : Z) (s : st) : st :=
  let '(p, taken) := Ppm.hrt_ppm_decode missed count (ppm s) in
  let '(stamp, s) := if taken then hrt_absolute_time s else (ppm_last_valid_decode s, s) in
  State Q (base_time s) (last_count s) (reads s) (calls s) (queue s) (rCCR_HRT s) (latency_baseline s)
    (latency_actual s) (latency_counters s) p stamp (usr s) (log s).

Variables SR_INT_HRT SR_INT_PPM SR_OVF_PPM : Z.

(** [rCNT], [rSR] and [rCCR_PPM] as the interrupt finds them. *)
Definition hrt_tim_isr (fuel : nat) (cnt status capture : Z) (s : st) : option st :=
  let s := State Q (base_time s) (last_count s) (reads s) (calls s) (queue s) (rCCR_HRT s) (latency_baseline s)
             (u16 cnt) (latency_counters s) (ppm s) (ppm_last_valid_decode s) (usr s) (log s) in
  let s := if has_any status (Z.lor SR_INT_PPM SR_OVF_PPM)
           then hrt_ppm (has_any status SR_OVF_PPM) (u16 capture) s else s in
  if has_any status SR_INT_HRT then
    match hrt_call_invoke fuel (hrt_latency_update s) with
    | Some s => Some (hrt_call_reschedule s)
    | None => None
    end
  else Some s.

(** ** The interface for user space *)

Inductive command :=
  | HRT_WAITEVENT
  | HRT_ABSOLUTE_TIME
  | HRT_CALL_AFTER (entry time : Z)
  | HRT_CALL_AT (entry time : Z)
  | HRT_CALL_EVERY (entry time interval : Z)
  | HRT_CANCEL (entry : Z)
  | HRT_GET_LATENCY (bucket_idx counter_idx : nat)
  | HRT_RESET_LATENCY
  | OtherCommand.

(** What the command writes back. *)
Inductive reply := NoReply | Entry (e : Z) | Time (t : Z) | Latency (bucket counter : Z).

Definition get_latency (bucket_idx counter_idx : nat) (s : st) : reply :=
  Latency (nth bucket_idx latency_buckets 0) (nth counter_idx (latency_counters s) 0).

Definition reset_latency_counters (s : st) : st := set_latency (replicate (S LATENCY_BUCKET_COUNT) 0) s.

Definition wait_event (s : st) : option (reply * st) :=
  let u := usr s in
  match wait_sem u with
  | O => None                                 (* the caller sleeps *)
  | S n =>
      let '(r, entries, error) :=
        match last (next_hrt_entry u) with
        | Some e => (Entry e, removelast (next_hrt_entry u), hrt_entry_queue_error u)
        | None => (NoReply, [], true)
        end in
      Some (r, set_usr (User entries error (error || suppress_entry_queue_error u) n) s)
  end.

(** The status and the reply; [None] when the command does not return. *)
Definition hrt_ioctl (cmd : command) (s : st) : option (Z * reply * st) :=
  let done (r : option st) := match r with Some s => Some (0, NoReply, s) | None => None end in
  match cmd with
  | HRT_WAITEVENT => match wait_event s with Some (r, s) => Some (0, r, s) | None => None end
  | HRT_ABSOLUTE_TIME => let '(t, s) := hrt_absolute_time s in Some (0, Time t, s)
  | HRT_CALL_AFTER e t => done (hrt_call_after e t hrt_usr_call_address e s)
  | HRT_CALL_AT e t => done (hrt_call_at e t hrt_usr_call_address e s)
  | HRT_CALL_EVERY e t i => done (hrt_call_every e t i hrt_usr_call_address e s)
  | HRT_CANCEL e => if e =? 0 then Some (0, NoReply, s) else done (hrt_cancel e s)
  | HRT_GET_LATENCY b c => Some (0, get_latency b c s, s)
  | HRT_RESET_LATENCY => Some (0, NoReply, reset_latency_counters s)
  | OtherCommand => Some (- EINVAL, NoReply, s)
  end.

End Timer.

End Hrt.
