(* ===== verification/HrtSpec.v ===== *)
(** * Theorems about the high-resolution timer

    Absolute time is the true time as long as it is asked for once per counter period; the
    callout queue stays in the order of deadlines; an interrupt serves every callout that is
    due, none early, and comes back in time for the next one. *)

From stdpp Require Import gmap sorting.
From S2P Require Import Prelude Queue SqIface Ppm Hrt.

Local Open Scope Z_scope.

Module HrtSpec.
Import Hrt.

Section Spec.
Context {Q : Type} {sq : SqQueue Q} {laws : SqLaws Q sq}.
Variable tick : nat -> Z.

Abbreviation st := (hrt Q).
Abbreviation absolute_time := (@hrt_absolute_time Q tick).
Abbreviation reschedule := (@hrt_call_reschedule Q sq tick).
Abbreviation enter := (@hrt_call_enter Q sq tick).
Abbreviation internal := (@hrt_call_internal Q sq tick).

(** The counter is read at least once per period, and time is a 62-bit number. *)
Definition steady : Prop :=
  (forall n, tick n <= tick (S n) < tick n + HRT_COUNTER_PERIOD) /\
  (forall n, 0 < tick n < 2 ^ 62) /\ tick 0%nat < HRT_COUNTER_PERIOD.

Hypothesis steadily : steady.

(** ** Absolute time *)

(** The true time of the last read, zero before the first. *)
Definition last_read (s : st) : Z := match reads s with O => 0 | S n => tick n end.

Definition clock_ok (s : st) : Prop :=
  last_count s = last_read s mod HRT_COUNTER_PERIOD /\ base_time s = last_read s - last_count s.

Lemma read_next s : last_read s <= tick (reads s) < last_read s + HRT_COUNTER_PERIOD /\
  0 <= last_read s /\ 0 < tick (reads s) < 2 ^ 62.
Proof using steadily.
  destruct steadily as (H1 & H2 & H3). unfold last_read. destruct (reads s) as [|n].
  - specialize (H2 0%nat). lia.
  - pose proof (H1 n). pose proof (H2 n). pose proof (H2 (S n)). lia.
Qed.

(** A counter that is behind its last value has wrapped once. *)
Lemma wrapped_once a b : 0 <= a -> a <= b < a + HRT_COUNTER_PERIOD ->
  (if b mod HRT_COUNTER_PERIOD <? a mod HRT_COUNTER_PERIOD
   then a - a mod HRT_COUNTER_PERIOD + HRT_COUNTER_PERIOD else a - a mod HRT_COUNTER_PERIOD) =
  b - b mod HRT_COUNTER_PERIOD.
Proof using.
  clear. unfold HRT_COUNTER_PERIOD. intros Ha Hb.
  destruct (Z.ltb_spec (b mod 65536) (a mod 65536)); Z.div_mod_to_equations; lia.
Qed.

Lemma absolute_time_exact s : clock_ok s ->
  fst (absolute_time s) = tick (reads s) /\ clock_ok (snd (absolute_time s)).
Proof using steadily.
  intros [Hc Hb]. pose proof (read_next s) as (Hn & H0 & Ht).
  pose proof (wrapped_once _ _ H0 Hn) as Hw. unfold hrt_absolute_time. rewrite Hb, Hc.
  pose proof (Z.mod_pos_bound (last_read s) HRT_COUNTER_PERIOD ltac:(done)) as Hm.
  pose proof (Z.mod_pos_bound (tick (reads s)) HRT_COUNTER_PERIOD ltac:(done)) as Hm'.
  pose proof (Z.mod_le (last_read s) HRT_COUNTER_PERIOD H0 ltac:(done)) as Hle.
  assert (Hp : HRT_COUNTER_PERIOD = 65536) by done.
  rewrite (wrap_small 64 (last_read s - _ + HRT_COUNTER_PERIOD)) by (unfold fits; lia). rewrite Hw.
  cbn [fst snd]. split; [rewrite wrap_small; [lia|unfold fits; lia]|].
  unfold clock_ok, last_read. cbn [last_count base_time reads]. done.
Qed.

(** ** The order of the queue *)

Definition due (s : st) (e : Z) : Z := deadline (entry_of e s).

Definition queued (s : st) (e : Z) : Prop := is_Some (calls s !! e) /\ 0 < due s e < 2 ^ 63.

(** The queue holds the entries [l], earliest first. *)
Record ordered (s : st) (l : list Z) : Prop := {
  ord_repr : represents (queue s) l;
  ord_sorted : StronglySorted (fun a b => due s a <= due s b) l;
  ord_queued : Forall (queued s) l;
  ord_calls : forall e, 0 <= period (entry_of e s) < 2 ^ 62 /\ 0 <= due s e < 2 ^ 63;
}.

Lemma ordered_ext s s' l : calls s' = calls s -> queue s' = queue s -> ordered s l -> ordered s' l.
Proof.
  intros Hc Hq [H1 H2 H3 H4]. unfold queued, due, entry_of in *.
  split; unfold queued, due, entry_of; rewrite ?Hc, ?Hq; done.
Qed.

Lemma absolute_time_frame s : calls (snd (absolute_time s)) = calls s /\ queue (snd (absolute_time s)) = queue s /\
  log (snd (absolute_time s)) = log s /\ reads (snd (absolute_time s)) = S (reads s).
Proof. done. Qed.

Lemma reschedule_frame s : calls (reschedule s) = calls s /\ queue (reschedule s) = queue s /\
  log (reschedule s) = log s /\ reads (reschedule s) = S (reads s) /\ (clock_ok s -> clock_ok (reschedule s)).
Proof using steadily.
  unfold hrt_call_reschedule. pose proof (absolute_time_exact s) as He. pose proof (absolute_time_frame s) as Hf.
  destruct (absolute_time s) as [now s1]. cbn [fst snd] in *. destruct Hf as (? & ? & ? & ?).
  cbn [calls queue log reads]. do 4 (split; [done|]). intros Hk. apply He in Hk as [_ [? ?]]. by split.
Qed.

Lemma queued_size s l : NoDup l -> Forall (queued s) l -> (length l <= size (calls s))%nat.
Proof.
  intros Hn Hl. rewrite <- (size_list_to_set (C := gset Z) l) by done. rewrite <- size_dom.
  apply subseteq_size. intros x Hx. apply elem_of_dom. apply elem_of_list_to_set in Hx.
  rewrite Forall_forall in Hl. by apply Hl.
Qed.

Lemma nonnull q l x : represents q l -> x ∈ l -> x <> 0.
Proof. intros Hq Hx ->. by apply (represents_nonnull q l Hq). Qed.

(** The walk ends behind the last entry that is not later than [d]. *)
Lemma enter_after_spec d s l2 : forall fuel l1 call, represents (queue s) (l1 ++ call :: l2) ->
  StronglySorted (fun a b => due s a <= due s b) (l1 ++ call :: l2) ->
  Forall (fun e => due s e <= d) (l1 ++ [call]) -> (length l2 < fuel)%nat ->
  exists prev l3 l4, enter_after fuel d call s = Some prev /\ l1 ++ call :: l2 = l3 ++ prev :: l4 /\
    Forall (fun e => due s e <= d) (l3 ++ [prev]) /\ Forall (fun e => d < due s e) l4.
Proof.
  induction l2 as [|n l2 IH]; intros [|fuel] l1 call Hr Hs Hd Hf; cbn [length] in Hf; try lia; cbn [enter_after];
    rewrite (next_law _ _ _ _ Hr); cbn [hd].
  - exists call, l1, []. by split; [|split; [|split]].
  - rewrite (proj2 (Z.eqb_neq n 0)) by (eapply nonnull; [exact Hr|]; apply elem_of_app; right; right; left).
    cbn [orb]. fold (due s n). destruct (Z.ltb_spec d (due s n)) as [Hlt|Hge].
    + exists call, l1, (n :: l2). split; [done|]. split; [done|]. split; [done|].
      apply StronglySorted_app_1_r, StronglySorted_cons in Hs as [_ Hs].
      apply StronglySorted_cons in Hs as [Hs _]. constructor; [done|]. eapply Forall_impl; [exact Hs|]. cbn. lia.
    + replace (l1 ++ call :: n :: l2) with ((l1 ++ [call]) ++ n :: l2) in * by (by rewrite <- app_assoc).
      apply IH; [done|done| |lia]. apply Forall_app. split; [done|]. by constructor.
Qed.

(** The queue with [e] put in its place. *)
Definition inserted (s : st) (e : Z) (l l' : list Z) : Prop :=
  exists l1 l2, l = l1 ++ l2 /\ l' = l1 ++ e :: l2 /\
    Forall (fun x => due s x <= due s e) l1 /\ Forall (fun x => due s e < due s x) l2.

Lemma inserted_sorted s e l l' : inserted s e l l' -> StronglySorted (fun a b => due s a <= due s b) l ->
  StronglySorted (fun a b => due s a <= due s b) l'.
Proof.
  intros (l1 & l2 & -> & -> & H1 & H2) Hs. apply StronglySorted_app in Hs as (Hx & Hs1 & Hs2).
  apply StronglySorted_app_2; [|done|].
  - intros a b Ha Hb. rewrite Forall_forall in H1. apply elem_of_cons in Hb as [->|Hb]; [by apply H1|by apply Hx].
  - apply StronglySorted_cons. split; [|done]. eapply Forall_impl; [exact H2|]. cbn. lia.
Qed.

Lemma inserted_Forall (P : Z -> Prop) s e l l' : inserted s e l l' -> Forall P l -> P e -> Forall P l'.
Proof.
  intros (l1 & l2 & -> & -> & _) [H1 H2]%Forall_app He. apply Forall_app. split; [done|]. by constructor.
Qed.

Lemma inserted_elem s e l l' x : inserted s e l l' -> x ∈ l' <-> x = e \/ x ∈ l.
Proof. intros (l1 & l2 & -> & -> & _). rewrite !elem_of_app, elem_of_cons. tauto. Qed.

(** ** Operations on the queue *)

Definition without (e : Z) (l : list Z) : list Z := filter (fun x : Z => x <> e) l.

Lemma elem_without e x l : x ∈ without e l <-> x <> e /\ x ∈ l.
Proof. unfold without. by rewrite list_elem_of_filter. Qed.

Lemma Forall_without (P : Z -> Prop) e l : Forall P l -> Forall P (without e l).
Proof. rewrite !Forall_forall. intros H x [_ Hx]%elem_without. by apply H. Qed.

Lemma entry_set_call e c (s : st) : entry_of e (set_call e c s) = c.
Proof. unfold entry_of. cbn [set_call calls]. by rewrite lookup_insert_eq. Qed.

Lemma entry_set_call_ne e c (s : st) x : x <> e -> entry_of x (set_call e c s) = entry_of x s.
Proof. intros Hx. unfold entry_of. cbn [set_call calls]. by rewrite lookup_insert_ne. Qed.

Lemma sorted_ext (f g : Z -> Z) l : (forall x, x ∈ l -> f x = g x) ->
  StronglySorted (fun a b => f a <= f b) l -> StronglySorted (fun a b => g a <= g b) l.
Proof.
  induction l as [|x l IH]; intros Hfg Hs; [constructor|]. apply StronglySorted_cons in Hs as [Hx Hs].
  apply StronglySorted_cons. split; [|apply IH; [|done]; intros y Hy; apply Hfg; by right].
  rewrite Forall_forall in *. intros y Hy. rewrite <- (Hfg x), <- (Hfg y) by (by left || by right). by apply Hx.
Qed.

Lemma ordered_set_call e c s l : ordered s l -> e ∉ l -> 0 <= period c < 2 ^ 62 -> 0 <= deadline c < 2 ^ 63 ->
  ordered (set_call e c s) l.
Proof.
  intros [H1 H2 H3 H4] He Hc Hd.
  assert (Hx : forall x, x ∈ l -> x <> e) by (intros x Hx ->; done). split; [done| | |].
  - eapply sorted_ext; [|exact H2]. intros x Hxl. unfold due. by rewrite entry_set_call_ne by auto.
  - rewrite Forall_forall in *. intros x Hxl. unfold queued, due. rewrite entry_set_call_ne by auto.
    cbn [set_call calls]. rewrite lookup_insert_ne by (intros ->; by apply (Hx x)). by apply H3.
  - intros x. unfold due. destruct (decide (x = e)) as [->|Hne]; [by rewrite entry_set_call|].
    rewrite entry_set_call_ne by done. apply H4.
Qed.

Lemma sorted_without e (R : Z -> Z -> Prop) l : StronglySorted R l -> StronglySorted R (without e l).
Proof.
  induction 1 as [|x l Hs IH Hx]; [constructor|]. unfold without. rewrite filter_cons.
  destruct (decide _); [|done]. constructor; [done|]. by apply Forall_without.
Qed.

Lemma remove_spec e s l : ordered s l ->
  exists q, sq_rem e (queue s) = Some q /\ ordered (set_queue q s) (without e l).
Proof.
  intros [H1 H2 H3 H4]. assert (Hq : exists q, sq_rem e (queue s) = Some q /\ represents q (without e l)).
  { destruct (decide (e ∈ l)) as [He|He].
    - apply list_elem_of_split in He as (l1 & l2 & ->).
      unfold without. rewrite Queue.filter_split by (by eapply represents_nodup). by apply rem_law.
    - unfold without. rewrite Queue.filter_absent by done. by apply rem_absent_law. }
  destruct Hq as (q & Hq & Hr). exists q. split; [done|]. split; [done| | |done].
  - by apply sorted_without.
  - by apply Forall_without.
Qed.

Lemma enter_spec e s l : ordered s l -> clock_ok s -> e ∉ l -> e <> 0 -> queued s e ->
  exists s' l', enter e s = Some s' /\ inserted s e l l' /\ ordered s' l' /\ clock_ok s' /\
    calls s' = calls s /\ log s' = log s /\ (reads s <= reads s' <= S (reads s))%nat.
Proof using steadily.
  intros Ho Hk He He0 Hqe. pose proof Ho as [H1 H2 H3 H4]. unfold hrt_call_enter.
  assert (Hput : forall q l', inserted s e l l' -> represents q l' -> ordered (set_queue q s) l').
  { intros q l' Hi Hr. split; [done| | |done].
    - by apply (inserted_sorted s e l l').
    - by apply (inserted_Forall (queued s) s e l l'). }
  rewrite (peek_law _ _ H1). fold (due s e). fold (due s (hd 0 l)).
  destruct ((hd 0 l =? 0) || (due s e <? due s (hd 0 l))) eqn:Hhead.
  - assert (Hi : inserted s e l (e :: l)).
    { exists [], l. do 2 (split; [done|]). split; [constructor|]. destruct l as [|x l]; [constructor|].
      cbn [hd] in Hhead. rewrite (proj2 (Z.eqb_neq x 0)) in Hhead by (eapply nonnull; [exact H1|left]).
      apply Z.ltb_lt in Hhead. apply StronglySorted_cons in H2 as [H2 _]. constructor; [done|].
      eapply Forall_impl; [exact H2|]. cbn. lia. }
    destruct (reschedule_frame (set_queue (sq_addfirst e (queue s)) s)) as (Hc & Hq & Hl & Hrd & Hck).
    eexists _, (e :: l). split; [done|]. split; [done|]. split; [|split; [by apply Hck|]].
    + eapply ordered_ext; [exact Hc|exact Hq|]. apply Hput; [done|]. by apply addfirst_law.
    + rewrite Hc, Hl, Hrd. split; [done|]. split; [done|]. cbn [set_queue reads]. lia.
  - destruct l as [|x l]; [done|]. cbn [hd] in *. apply orb_false_iff in Hhead as [_ Hx]. apply Z.ltb_ge in Hx.
    pose proof (queued_size s _ (represents_nodup _ _ H1) H3) as Hsz. cbn [length] in Hsz.
    destruct (enter_after_spec (due s e) s l (size (calls s)) [] x) as (prev & l3 & l4 & -> & Heq & Hle & Hgt);
      [done|done|by repeat constructor|lia|]. cbn [app] in Heq.
    eexists _, (l3 ++ prev :: e :: l4). split; [done|].
    assert (Hi : inserted s e (x :: l) (l3 ++ prev :: e :: l4)).
    { exists (l3 ++ [prev]), l4. rewrite <- !app_assoc. by split. }
    split; [done|]. split; [|split; [done|split; [done|split; [done|cbn; lia]]]].
    apply Hput; [done|]. rewrite Heq in *. by apply addafter_law.
Qed.

Lemma inserted_ext s s' e l l' : calls s' = calls s -> inserted s e l l' -> inserted s' e l l'.
Proof. intros Hc. unfold inserted, due, entry_of. by rewrite Hc. Qed.

Lemma entry_ext (s s' : st) x : calls s' = calls s -> entry_of x s' = entry_of x s.
Proof. intros Hc. unfold entry_of. by rewrite Hc. Qed.

Lemma internal_spec e dl i f a s l : ordered s l -> clock_ok s -> e <> 0 -> 0 < dl < 2 ^ 63 -> 0 <= i < 2 ^ 62 ->
  exists s' l', internal e dl i f a s = Some s' /\ inserted s' e (without e l) l' /\ ordered s' l' /\ clock_ok s' /\
    entry_of e s' = Call dl i f a /\ (forall x, x <> e -> entry_of x s' = entry_of x s) /\
    log s' = log s /\ (reads s <= reads s' <= S (reads s))%nat.
Proof using steadily.
  intros Ho Hk He Hdl Hi. unfold hrt_call_internal.
  set (removed := if negb _ then _ else _).
  assert (Hrem : exists q, removed = Some q /\ ordered (set_queue q s) (without e l)).
  { subst removed. destruct (Z.eqb_spec (deadline (entry_of e s)) 0) as [H0|]; cbn [negb]; [|by apply remove_spec].
    exists (queue s). split; [done|]. unfold without. rewrite Queue.filter_absent; [by destruct s|].
    intros Hel. pose proof (ord_queued _ _ Ho) as Hq. rewrite Forall_forall in Hq.
    destruct (Hq e Hel) as [_ Hd]. unfold due in Hd. lia. }
  clearbody removed. destruct Hrem as (q & -> & Hoq).
  assert (Hnot : e ∉ without e l) by (intros [? _]%elem_without; done).
  pose proof (ordered_set_call e (Call dl i f a) _ _ Hoq Hnot Hi ltac:(cbn; lia)) as Hoc.
  destruct (enter_spec e _ _ Hoc Hk Hnot He) as (s' & l' & -> & Hins & Hos & Hks & Hc & Hlog & Hrd).
  { split; [|unfold due; by rewrite entry_set_call]. cbn [set_call calls]. rewrite lookup_insert_eq. by eexists. }
  exists s', l'. split; [done|]. split; [by eapply inserted_ext; [exact Hc|]|]. split; [done|]. split; [done|].
  split; [by rewrite (entry_ext _ _ _ Hc), entry_set_call|]. split; [|done].
  intros x Hx. by rewrite (entry_ext _ _ _ Hc), entry_set_call_ne.
Qed.

Lemma cancel_spec e s l : ordered s l -> clock_ok s ->
  exists s', hrt_cancel e s = Some s' /\ ordered s' (without e l) /\ clock_ok s' /\
    entry_of e s' = Call 0 0 (callout (entry_of e s)) (arg (entry_of e s)) /\
    (forall x, x <> e -> entry_of x s' = entry_of x s) /\ log s' = log s /\ reads s' = reads s.
Proof.
  intros Ho Hk. destruct (remove_spec e s l Ho) as (q & Hq & Hoq). unfold hrt_cancel. rewrite Hq.
  eexists. split; [done|]. split; [|split; [done|]].
  - apply ordered_set_call; [done| |done|done]. by intros [? _]%elem_without.
  - split; [by rewrite entry_set_call|]. split; [|done]. intros x Hx. by rewrite entry_set_call_ne.
Qed.

Lemma delay_spec e d s l : ordered s l -> clock_ok s -> e ∉ l -> 0 <= d < 2 ^ 62 ->
  let s' := hrt_call_delay tick e d s in
  ordered s' l /\ clock_ok s' /\
  entry_of e s' = Call (tick (reads s) + d) (period (entry_of e s)) (callout (entry_of e s)) (arg (entry_of e s)) /\
  (forall x, x <> e -> entry_of x s' = entry_of x s) /\ log s' = log s /\ reads s' = S (reads s).
Proof using steadily.
  intros Ho Hk He Hd. pose proof (read_next s) as (_ & _ & Ht). destruct (absolute_time_exact s Hk) as [Hnow Hk'].
  pose proof (absolute_time_frame s) as (Hc & Hq & Hl & Hr). unfold hrt_call_delay.
  destruct (absolute_time s) as [now s1]. cbn [fst snd] in *. subst now. cbv zeta.
  rewrite wrap_small by (unfold fits; lia). rewrite !(entry_ext s s1 e Hc).
  split; [|split; [done|split; [by rewrite entry_set_call|split; [|by split]]]].
  - apply ordered_set_call; [by apply (ordered_ext s)|done|apply (ord_calls _ _ Ho)|cbn; lia].
  - intros x Hx. rewrite entry_set_call_ne by done. by apply entry_ext.
Qed.

Lemma init_spec e s l : ordered s l -> clock_ok s -> e ∉ l ->
  let s' := hrt_call_init e s in
  ordered s' l /\ clock_ok s' /\ entry_of e s' = zero_call /\
  (forall x, x <> e -> entry_of x s' = entry_of x s) /\ log s' = log s.
Proof using.
  clear. intros Ho Hk He. cbv zeta. unfold hrt_call_init.
  split; [by apply ordered_set_call|]. split; [done|]. split; [by rewrite entry_set_call|].
  split; [|done]. intros x Hx. by rewrite entry_set_call_ne.
Qed.

(** ** The interface *)

(** The calls the queue survives.  A delay or an initialisation of a queued entry would
    change its deadline, or its link, where it stands; a call at time 0 would look like an
    entry that is not queued. *)

Definition allowed (o : api) (l : list Z) : Prop :=
  match o with
  | CallAfter e d _ _ => e <> 0 /\ 0 <= d < 2 ^ 62
  | CallAt e t _ _ => e <> 0 /\ 0 < t < 2 ^ 63
  | CallEvery e d i _ _ => e <> 0 /\ 0 <= d < 2 ^ 62 /\ 0 <= i < 2 ^ 62
  | Cancel _ => True
  | Delay e d => (e ∉ l) /\ 0 <= d < 2 ^ 62
  | Init e => e ∉ l
  end.

Definition subject (o : api) : Z :=
  match o with CallAfter e _ _ _ | CallAt e _ _ _ | CallEvery e _ _ _ _ | Cancel e | Delay e _ | Init e => e end.

(** What a call does to its entry and to the queue. *)
Definition effect (o : api) (s : st) (l : list Z) (s' : st) (l' : list Z) : Prop :=
  match o with
  | CallAfter e d f a => inserted s' e (without e l) l' /\ entry_of e s' = Call (tick (reads s) + d) 0 f a
  | CallAt e t f a => inserted s' e (without e l) l' /\ entry_of e s' = Call t 0 f a
  | CallEvery e d i f a => inserted s' e (without e l) l' /\ entry_of e s' = Call (tick (reads s) + d) i f a
  | Cancel e => l' = without e l /\ due s' e = 0 /\ period (entry_of e s') = 0
  | Delay e d => l' = l /\ due s' e = tick (reads s) + d /\ period (entry_of e s') = period (entry_of e s)
  | Init e => l' = l /\ entry_of e s' = zero_call
  end.

Lemma timed_spec e d i f a s l : ordered s l -> clock_ok s -> e <> 0 -> 0 <= d < 2 ^ 62 -> 0 <= i < 2 ^ 62 ->
  exists s' l', (let '(now, s1) := absolute_time s in internal e (u64 (now + d)) i f a s1) = Some s' /\
    inserted s' e (without e l) l' /\ ordered s' l' /\ clock_ok s' /\ entry_of e s' = Call (tick (reads s) + d) i f a /\
    (forall x, x <> e -> entry_of x s' = entry_of x s) /\ log s' = log s /\ (reads s' <= 2 + reads s)%nat.
Proof using steadily.
  intros Ho Hk He Hd Hi. pose proof (read_next s) as (_ & _ & Ht). destruct (absolute_time_exact s Hk) as [Hnow Hk'].
  pose proof (absolute_time_frame s) as (Hc & Hq & Hl & Hr).
  destruct (absolute_time s) as [now s1]. cbn [fst snd] in *. subst now.
  rewrite wrap_small by (unfold fits; lia).
  destruct (internal_spec e (tick (reads s) + d) i f a s1 l) as (s' & l' & -> & H1 & H2 & H3 & H4 & H5 & H6 & H7);
    [by apply (ordered_ext s)|done|done|lia|done|].
  exists s', l'. split; [done|]. do 4 (split; [done|]). split; [|split; [congruence|lia]].
  intros x Hx. rewrite H5 by done. by apply entry_ext.
Qed.

Lemma run_api_spec o s l : ordered s l -> clock_ok s -> allowed o l ->
  exists s' l', run_api tick o s = Some s' /\ ordered s' l' /\ clock_ok s' /\ effect o s l s' l' /\
    (forall x, x <> subject o -> entry_of x s' = entry_of x s) /\ log s' = log s.
Proof using steadily.
  intros Ho Hk Ha. destruct o as [e d f a|e t f a|e d i f a|e|e d|e]; cbn [run_api allowed effect subject] in *.
  - destruct (timed_spec e d 0 f a s l Ho Hk) as (s' & l' & H1 & H2 & H3 & H4 & H5 & H6 & H7 & _); [tauto..|done|].
    exists s', l'. by do 3 (split; [done|]).
  - destruct (internal_spec e t 0 f a s l Ho Hk) as (s' & l' & H1 & H2 & H3 & H4 & H5 & H6 & H7 & _); [tauto..|done|].
    exists s', l'. by do 3 (split; [done|]).
  - destruct (timed_spec e d i f a s l Ho Hk) as (s' & l' & H1 & H2 & H3 & H4 & H5 & H6 & H7 & _); [tauto..|].
    exists s', l'. by do 3 (split; [done|]).
  - destruct (cancel_spec e s l Ho Hk) as (s' & H1 & H2 & H3 & H4 & H5 & H6 & _).
    exists s', (without e l). do 3 (split; [done|]). split; [|done]. unfold due. by rewrite H4.
  - destruct Ha as [He Hd]. destruct (delay_spec e d s l Ho Hk He Hd) as (H1 & H2 & H3 & H4 & H5 & _).
    exists (hrt_call_delay tick e d s), l. do 3 (split; [done|]). split; [|done]. unfold due. by rewrite H3.
  - destruct (init_spec e s l Ho Hk Ha) as (H1 & H2 & H3 & H4 & H5).
    exists (hrt_call_init e s), l. by do 4 (split; [done|]).
Qed.

(** C35 (invariant). With a counter that is read at least once per wrap (65.5
    ms) and times     below 2^62: hrt_call_after, hrt_call_at with a time other than 0,
    hrt_call_every and     hrt_cancel on any entry, and hrt_call_delay and hrt_call_init on
    an entry that is not     queued, keep the queue a list of distinct entries in the order
    of their deadlines and     do what they promise: the entry is queued exactly once, for
    the true time plus the     delay and behind the entries that are not later; or it is out
    of the queue; or, for     the last two, the queue stays and the entry gets its new
    deadline or is cleared; no     other entry changes. Not covered, since the queue does
    not survive them: hrt_call_at     with time 0, hrt_call_delay and hrt_call_init on a
    queued entry. *)
Theorem hrt_api_keeps_order o s l : ordered s l -> clock_ok s -> allowed o l ->
  exists s' l', run_api tick o s = Some s' /\ ordered s' l' /\ NoDup l' /\ clock_ok s' /\ effect o s l s' l' /\
    (forall x, x <> subject o -> entry_of x s' = entry_of x s).
Proof using steadily.
  intros Ho Hk Ha. destruct (run_api_spec o s l Ho Hk Ha) as (s' & l' & H1 & H2 & H3 & H4 & H5 & _).
  exists s', l'. split; [done|]. split; [done|]. split; [|done]. eapply represents_nodup, H2.
Qed.

(** ** The next interrupt *)

(** The compare register is set for a time between 50 us and 50 ms ahead, no
    later than any queued deadline that is more than 50 us away; the counter, which wraps every
    65.5 ms, meets that value first at that time. *)
Theorem hrt_reschedule_in_time s l : ordered s l -> clock_ok s ->
  let now := tick (reads s) in
  exists d, now + HRT_INTERVAL_MIN <= d <= now + HRT_INTERVAL_MAX /\
    Forall (fun e => d <= Z.max (now + HRT_INTERVAL_MIN) (due s e)) l /\
    d mod HRT_COUNTER_PERIOD = rCCR_HRT (reschedule s) /\
    (forall t, now < t < d -> t mod HRT_COUNTER_PERIOD <> rCCR_HRT (reschedule s)).
Proof using steadily.
  intros Ho Hk now. pose proof (read_next s) as (_ & _ & Ht). destruct (absolute_time_exact s Hk) as [Hnow _].
  pose proof (absolute_time_frame s) as (Hc & Hq & _). unfold hrt_call_reschedule.
  destruct (absolute_time s) as [now' s1]. cbn [fst snd] in *. subst now'. fold now in Ht |- *.
  rewrite Hq, (peek_law _ _ (ord_repr _ _ Ho)). unfold HRT_INTERVAL_MIN, HRT_INTERVAL_MAX, HRT_COUNTER_PERIOD.
  rewrite !wrap_small by (unfold fits; lia).
  set (target := if hd 0 l =? 0 then _ else _). cbn [rCCR_HRT].
  assert (Hrange : now + 50 <= target <= now + 50000 /\ Forall (fun e => target <= Z.max (now + 50) (due s e)) l).
  { subst target. destruct l as [|c l]; [cbn; split; [lia|constructor]|]. cbn [hd].
    rewrite (proj2 (Z.eqb_neq c 0)) by (eapply nonnull; [apply Ho|left]).
    rewrite (entry_ext s s1 c Hc). fold (due s c). pose proof (ord_sorted _ _ Ho) as Hs.
    apply StronglySorted_cons in Hs as [Hs _].
    destruct (Z.leb_spec (due s c) (now + 50)); [|destruct (Z.ltb_spec (due s c) (now + 50000))];
      (split; [lia|]); (constructor; [lia|]); (eapply Forall_impl; [exact Hs|]); cbn; lia. }
  clearbody target. destruct Hrange as [Hr Hf]. exists target.
  change 65535 with (Z.ones 16). rewrite Z.land_ones by lia. change (2 ^ 16) with 65536.
  split; [done|]. split; [done|]. split; [done|]. intros t Hlt. Z.div_mod_to_equations. lia.
Qed.

(** ** Absolute time over many calls *)

Fixpoint read_times (n : nat) (s : st) : list Z :=
  match n with O => [] | S n => fst (absolute_time s) :: read_times n (snd (absolute_time s)) end.

(** Absolute time is the true time: called at least once per counter period,
    its results are exactly the 64-bit times at which the counter was read, although the
    counter has only sixteen bits. *)
Theorem hrt_time_exact n : forall s, clock_ok s -> read_times n s = map tick (seq (reads s) n).
Proof using steadily.
  induction n as [|n IH]; intros s Hk; [done|]. cbn [read_times seq map].
  destruct (absolute_time_exact s Hk) as [-> Hk1]. f_equal. by apply IH.
Qed.

(** ** Invoking callouts *)

(** The calls that a callout of the entry [c] may make: in range, and it may not make its own
    entry periodic. *)
Definition polite (c : Z) (o : api) : Prop :=
  match o with CallEvery e _ _ _ _ => e <> c | _ => True end.

Fixpoint allowed_all (c : Z) (os : list api) (s : st) (l : list Z) : Prop :=
  match os with
  | [] => True
  | o :: os => allowed o l /\ polite c o /\
      forall s' l', run_api tick o s = Some s' -> ordered s' l' -> allowed_all c os s' l'
  end.

(** While the callout of [c] runs, its entry is not both queued and periodic. *)
Definition not_reentered (c : Z) (s : st) (l : list Z) : Prop := c ∈ l -> period (entry_of c s) = 0.

Lemma effect_not_reentered c o s l s' l' : polite c o -> effect o s l s' l' ->
  (forall x, x <> subject o -> entry_of x s' = entry_of x s) -> not_reentered c s l -> not_reentered c s' l'.
Proof.
  intros Hp He Hx Hn Hc. destruct (decide (c = subject o)) as [->|Hne].
  - destruct o as [e d f a|e t f a|e d i f a|e|e d|e]; cbn [effect subject polite] in *; try (by destruct He as [_ ->]); try done.
    + tauto.
    + destruct He as (-> & _ & ->). by apply Hn.
  - rewrite Hx by done. apply Hn. destruct o; cbn [effect subject] in *.
    1-3: destruct He as [He _]; apply (inserted_elem _ _ _ _ _ He) in Hc as [->|Hc]; [done|by apply elem_without in Hc as [_ Hc]].
    + destruct He as (-> & _). by apply elem_without in Hc as [_ Hc].
    + by destruct He as (-> & _).
    + by destruct He as (-> & _).
Qed.

Lemma run_apis_spec c os : forall s l, ordered s l -> clock_ok s -> allowed_all c os s l -> not_reentered c s l ->
  exists s' l', run_apis tick os s = Some s' /\ ordered s' l' /\ clock_ok s' /\ not_reentered c s' l' /\
    log s' = log s.
Proof using steadily.
  induction os as [|o os IH]; intros s l Ho Hk Ha Hn; [by exists s, l|]. cbn [run_apis allowed_all] in *.
  destruct Ha as (Ha & Hp & Hnext). destruct (run_api_spec o s l Ho Hk Ha) as (s1 & l1 & H1 & Ho1 & Hk1 & He & Hx & Hlog).
  rewrite H1. destruct (IH s1 l1 Ho1 Hk1) as (s2 & l2 & H2 & Ho2 & Hk2 & Hn2 & Hlog2); [by apply Hnext| |].
  - by eapply effect_not_reentered.
  - exists s2, l2. do 4 (split; [done|]). congruence.
Qed.

Variable usr_call : Z.
Variable behaviour : Z -> Z -> hrt Q -> list api.

Abbreviation invoke := (@hrt_call_invoke Q sq tick usr_call behaviour).
Abbreviation callout_of := (@run_callout Q sq tick usr_call behaviour).

Definition behaved : Prop := forall c s l, ordered s l -> clock_ok s ->
  allowed_all c (behaviour (callout (entry_of c s)) (arg (entry_of c s)) s) s l.

Lemma callout_spec c s l : behaved -> ordered s l -> clock_ok s -> not_reentered c s l ->
  exists s' l', callout_of (callout (entry_of c s)) (arg (entry_of c s)) s = Some s' /\ ordered s' l' /\
    clock_ok s' /\ not_reentered c s' l' /\ log s' = log s.
Proof using steadily.
  intros Hb Ho Hk Hn. unfold run_callout. destruct (_ =? 0); [by exists s, l|]. destruct (_ =? usr_call).
  - exists (hrt_usr_call (arg (entry_of c s)) s), l. split; [done|]. split; [by apply (ordered_ext s)|].
    by split; [|split].
  - apply (run_apis_spec c _ s l); [done|done|by apply Hb|done].
Qed.

Lemma reenter_spec c now dl s l : ordered s l -> clock_ok s -> not_reentered c s l -> c <> 0 ->
  0 < dl <= now -> now < 2 ^ 62 ->
  exists s' l', reenter tick c now dl s = Some s' /\ ordered s' l' /\ clock_ok s' /\ log s' = log s.
Proof using steadily.
  intros Ho Hk Hn Hc Hdl Hnow. unfold reenter. destruct (Z.eqb_spec (period (entry_of c s)) 0) as [|Hp]; [by exists s, l|].
  assert (Hcl : c ∉ l) by auto. destruct (ord_calls _ _ Ho c) as [Hper Hdue].
  set (s1 := if _ <=? _ then _ else s).
  assert (Hs1 : ordered s1 l /\ clock_ok s1 /\ queued s1 c /\ log s1 = log s).
  { subst s1. destruct (Z.leb_spec (deadline (entry_of c s)) now) as [Hle|Hgt].
    - rewrite wrap_small by (unfold fits; lia). split; [apply ordered_set_call; [done|done|done|cbn; lia]|].
      split; [done|]. split; [|done]. split; [cbn; rewrite lookup_insert_eq; by eexists|].
      unfold due. rewrite entry_set_call. cbn. lia.
    - split; [done|]. split; [done|]. split; [|done]. split; [|unfold due in *; lia].
      unfold entry_of in Hp. destruct (calls s !! c); [by eexists|done]. }
  clearbody s1. destruct Hs1 as (Ho1 & Hk1 & Hq1 & Hl1).
  destruct (enter_spec c s1 l Ho1 Hk1 Hcl Hc Hq1) as (s' & l' & H1 & _ & H2 & H3 & _ & H4 & _).
  exists s', l'. do 3 (split; [done|]). congruence.
Qed.

(** One pass that finds the callout [c] due. *)
Lemma pass_spec s l c : behaved -> ordered s (c :: l) -> clock_ok s -> due s c <= tick (reads s) ->
  let s1 := snd (absolute_time s) in
  exists q s2 l2 s3 l3, sq_rem c (queue s1) = Some q /\
    callout_of (callout (entry_of c s1)) (arg (entry_of c s1))
      (record (Invocation c (due s c) (tick (reads s)))
         (set_call c (Call 0 (period (entry_of c s1)) (callout (entry_of c s1)) (arg (entry_of c s1))) (set_queue q s1))) =
      Some s2 /\ ordered s2 l2 /\
    reenter tick c (tick (reads s)) (due s c) s2 = Some s3 /\ ordered s3 l3 /\ clock_ok s3 /\
    log s3 = log s ++ [Invocation c (due s c) (tick (reads s))].
Proof using steadily.
  intros Hb Ho Hk Hdue s1. pose proof (read_next s) as (_ & _ & Ht).
  destruct (absolute_time_exact s Hk) as [_ Hk1]. fold s1 in Hk1.
  assert (Ho1 : ordered s1 (c :: l)) by (by apply (ordered_ext s)).
  assert (Hc0 : c <> 0) by (eapply nonnull; [apply Ho|left]).
  assert (Hq : queued s c) by (pose proof (ord_queued _ _ Ho) as Hq; by apply Forall_cons_1 in Hq as [? _]).
  destruct (remove_spec c s1 _ Ho1) as (q & Hq1 & Hoq).
  destruct (ord_calls _ _ Ho1 c) as [Hper _].
  set (s1' := record (Invocation c (due s c) (tick (reads s)))
    (set_call c (Call 0 (period (entry_of c s1)) (callout (entry_of c s1)) (arg (entry_of c s1))) (set_queue q s1))).
  assert (Ho1' : ordered s1' (without c (c :: l))).
  { apply (ordered_ext (set_call c (Call 0 (period (entry_of c s1)) (callout (entry_of c s1)) (arg (entry_of c s1))) (set_queue q s1)));
      [done|done|]. apply ordered_set_call; [done| |done|done]. by intros [? _]%elem_without. }
  assert (Hent : entry_of c s1' = Call 0 (period (entry_of c s1)) (callout (entry_of c s1)) (arg (entry_of c s1))).
  { unfold s1', record, entry_of. cbn [calls set_call]. by rewrite lookup_insert_eq. }
  destruct (callout_spec c s1' (without c (c :: l)) Hb Ho1' Hk1) as (s2 & l2 & Hrun & Ho2 & Hk2 & Hn2 & Hlog2).
  { intros Hin. by apply elem_without in Hin as [? _]. }
  rewrite Hent in Hrun. cbn [callout arg] in Hrun.
  destruct (reenter_spec c (tick (reads s)) (due s c) s2 l2 Ho2 Hk2 Hn2 Hc0) as (s3 & l3 & Hre & Ho3 & Hk3 & Hlog3).
  { destruct Hq as [_ ?]. lia. }
  { lia. }
  exists q, s2, l2, s3, l3. do 6 (split; [done|]). by rewrite Hlog3, Hlog2.
Qed.

(** When the interrupt's dispatcher returns, the queue is in order and nothing in
    it was due when the clock was last read; every entry it served was due when it was served. *)
Theorem hrt_invoke_serves fuel : forall s l s', behaved -> ordered s l -> clock_ok s -> invoke fuel s = Some s' ->
  exists l' served, ordered s' l' /\ clock_ok s' /\ log s' = log s ++ served /\
    Forall (fun i => inv_deadline i <= inv_now i) served /\ Forall (fun e => last_read s' < due s' e) l'.
Proof using steadily.
  induction fuel as [|fuel IH]; intros s l s' Hb Ho Hk; cbn [hrt_call_invoke]; [done|].
  destruct (absolute_time_exact s Hk) as [Hnow Hk1]. pose proof (absolute_time_frame s) as (Hc & Hq & Hlog & Hr).
  pose proof (fun c l2 => pass_spec s l2 c Hb) as Hpass. cbv zeta in Hpass.
  destruct (absolute_time s) as [now s1]. cbn [fst snd] in *. subst now.
  assert (Ho1 : ordered s1 l) by (by apply (ordered_ext s)). rewrite (peek_law _ _ (ord_repr _ _ Ho1)).
  destruct l as [|c l]; [intros [= <-]|cbn [hd]].
  { exists [], []. rewrite app_nil_r. do 3 (split; [done|]). split; constructor. }
  rewrite (proj2 (Z.eqb_neq c 0)) by (eapply nonnull; [apply Ho|left]).
  assert (Hdc : due s c = deadline (entry_of c s1)) by (unfold due; by rewrite (entry_ext s s1 c Hc)).
  rewrite <- Hdc, Z.gtb_ltb. destruct (Z.ltb_spec (tick (reads s)) (due s c)) as [Hlt|Hge].
  - intros [= <-]. exists (c :: l), []. rewrite app_nil_r. split; [done|]. split; [done|]. split; [done|].
    split; [constructor|]. pose proof (ord_sorted _ _ Ho1) as Hs. apply StronglySorted_cons in Hs as [Hs _].
    assert (Hlr : last_read s1 = tick (reads s)) by (unfold last_read; by rewrite Hr). rewrite Hlr.
    assert (Hc1 : tick (reads s) < due s1 c) by (unfold due at 1; by rewrite <- Hdc).
    constructor; [done|]. eapply Forall_impl; [exact Hs|]. cbn. lia.
  - destruct (Hpass c l Ho Hk Hge) as (q & s2 & l2 & s3 & l3 & -> & -> & _ & -> & Ho3 & Hk3 & Hlog3).
    intros Hi. destruct (IH s3 l3 s' Hb Ho3 Hk3 Hi) as (l' & served & H1 & H2 & H3 & H4 & H5).
    exists l', (Invocation c (due s c) (tick (reads s)) :: served). split; [done|]. split; [done|].
    split; [by rewrite H3, Hlog3, <- app_assoc|]. split; [by constructor|done].
Qed.

(** ** Termination *)

(** How often an entry is served when the clock has reached [T]. *)
Definition visits (T : Z) (c : hrt_call) : Z :=
  if T <? deadline c then 0 else if period c =? 0 then 1 else (T - deadline c) / period c + 1.

Definition work (T : Z) (s : st) (l : list Z) : Z := foldr (fun e n => visits T (entry_of e s) + n) 0 l.

Lemma visits_nonneg T c : 0 <= period c -> 0 <= visits T c.
Proof.
  intros Hp. unfold visits. destruct (Z.ltb_spec T (deadline c)); [lia|].
  destruct (Z.eqb_spec (period c) 0); [lia|]. pose proof (Z.div_pos (T - deadline c) (period c) ltac:(lia) ltac:(lia)). lia.
Qed.

(** Serving a periodic entry uses up one visit. *)
Lemma visits_next T d p f a : d <= T -> 0 < p -> visits T (Call (d + p) p f a) = visits T (Call d p f a) - 1.
Proof.
  intros Hd Hp. unfold visits. cbn [deadline period]. rewrite (proj2 (Z.ltb_ge T d)), (proj2 (Z.eqb_neq p 0)) by lia.
  destruct (Z.ltb_spec T (d + p)).
  - rewrite Z.div_small; lia.
  - replace (T - d) with (T - (d + p) + 1 * p) by lia. rewrite Z.div_add; lia.
Qed.

Lemma work_app T s l1 l2 : work T s (l1 ++ l2) = work T s l1 + work T s l2.
Proof. unfold work. induction l1 as [|e l1 IH]; cbn [app foldr]; [done|]. rewrite IH. lia. Qed.

Lemma work_ext T s s' l : (forall e, e ∈ l -> entry_of e s' = entry_of e s) -> work T s' l = work T s l.
Proof.
  unfold work. induction l as [|e l IH]; intros H; cbn [foldr]; [done|].
  rewrite H by left. rewrite IH; [done|]. intros x Hx. apply H. by right.
Qed.

Lemma work_nonneg T s l : (forall e, 0 <= period (entry_of e s)) -> 0 <= work T s l.
Proof.
  intros Hp. unfold work. induction l as [|e l IH]; cbn [foldr]; [done|].
  pose proof (visits_nonneg T (entry_of e s) (Hp e)). lia.
Qed.

(** Callouts that leave the queue alone. *)
Definition quiet : Prop := forall f a s, behaviour f a s = [].

Lemma quiet_callout f a s : quiet -> exists s', callout_of f a s = Some s' /\ calls s' = calls s /\
  queue s' = queue s /\ reads s' = reads s /\ (clock_ok s -> clock_ok s').
Proof.
  intros Hq. unfold run_callout. destruct (f =? 0); [by exists s|]. destruct (f =? usr_call).
  - exists (hrt_usr_call a s). done.
  - rewrite Hq. by exists s.
Qed.

Lemma without_head c l : NoDup (c :: l) -> without c (c :: l) = l.
Proof. intros [Hc _]%NoDup_cons. unfold without. rewrite filter_cons_False by auto. by apply Queue.filter_absent. Qed.

(** A pass with quiet callouts: the entry leaves the queue, or moves to its next deadline. *)
Lemma quiet_pass T s l c : quiet -> ordered s (c :: l) -> clock_ok s -> due s c <= tick (reads s) -> tick (reads s) <= T ->
  let s1 := snd (absolute_time s) in
  exists q s2 s3 l3, sq_rem c (queue s1) = Some q /\
    callout_of (callout (entry_of c s1)) (arg (entry_of c s1))
      (record (Invocation c (due s c) (tick (reads s)))
         (set_call c (Call 0 (period (entry_of c s1)) (callout (entry_of c s1)) (arg (entry_of c s1))) (set_queue q s1))) =
      Some s2 /\
    reenter tick c (tick (reads s)) (due s c) s2 = Some s3 /\ ordered s3 l3 /\ clock_ok s3 /\
    (reads s3 <= 2 + reads s)%nat /\ work T s3 l3 = work T s (c :: l) - 1.
Proof using steadily.
  intros Hqu Ho Hk Hdue HT s1. pose proof (read_next s) as (_ & _ & Ht).
  destruct (absolute_time_exact s Hk) as [_ Hk1]. fold s1 in Hk1.
  assert (Ho1 : ordered s1 (c :: l)) by (by apply (ordered_ext s)).
  pose proof (represents_nodup _ _ (ord_repr _ _ Ho)) as Hnd. pose proof Hnd as Hcl. apply NoDup_cons in Hcl as [Hcl _].
  assert (Hc0 : c <> 0) by (eapply nonnull; [apply Ho|left]).
  assert (Hq : queued s c) by (pose proof (ord_queued _ _ Ho) as Hq; by apply Forall_cons_1 in Hq as [? _]).
  destruct (remove_spec c s1 _ Ho1) as (q & Hq1 & Hoq). rewrite without_head in Hoq by done.
  destruct (ord_calls _ _ Ho c) as [Hper _]. set (cc := entry_of c s) in *.
  change (entry_of c s1) with cc. set (s1' := record (Invocation c (due s c) (tick (reads s)))
    (set_call c (Call 0 (period cc) (callout cc) (arg cc)) (set_queue q s1))).
  destruct (quiet_callout (callout cc) (arg cc) s1' Hqu) as (s2 & Hrun & Hc2 & Hq2 & Hr2 & Hk2).
  assert (Ho2 : ordered s2 l).
  { apply (ordered_ext s1'); [done|done|].
    apply (ordered_ext (set_call c (Call 0 (period cc) (callout cc) (arg cc)) (set_queue q s1))); [done|done|].
    by apply ordered_set_call. }
  assert (Hent : entry_of c s2 = Call 0 (period cc) (callout cc) (arg cc)).
  { rewrite (entry_ext s1' s2 c Hc2). apply entry_set_call. }
  assert (Hoth : forall e, e ∈ l -> entry_of e s2 = entry_of e s).
  { intros e He. rewrite (entry_ext s1' s2 e Hc2).
    apply (entry_set_call_ne c (Call 0 (period cc) (callout cc) (arg cc)) (set_queue q s1) e). intros ->. done. }
  exists q, s2. unfold reenter. rewrite Hent. cbn [period deadline callout arg].
  assert (Hwork : work T s (c :: l) = visits T cc + work T s2 l) by (rewrite (work_ext T s s2 l) by done; done).
  destruct (Z.eqb_spec (period cc) 0) as [Hp|Hp].
  - exists s2, l. do 3 (split; [done|]). split; [done|]. split; [by apply Hk2|]. split; [rewrite Hr2; cbn; lia|].
    assert (Hv : visits T cc = 1); [|lia]. unfold visits. rewrite (proj2 (Z.ltb_ge T (deadline cc))), Hp; [done|].
    change (deadline cc) with (due s c). lia.
  - rewrite (proj2 (Z.leb_le _ _)) by lia. destruct Hq as [_ Hd]. rewrite wrap_small by (unfold fits; lia).
    set (s2' := set_call c _ s2).
    assert (Ho2' : ordered s2' l) by (apply ordered_set_call; [done|done|done|cbn; lia]).
    destruct (enter_spec c s2' l Ho2' (Hk2 Hk1) Hcl Hc0) as (s3 & l3 & He & Hi & Ho3 & Hk3 & Hc3 & _ & Hr3).
    { split; [cbn; rewrite lookup_insert_eq; by eexists|]. assert (due s2' c = due s c + period cc) as ->; [|lia]. unfold due at 1, s2'. by rewrite entry_set_call. }
    exists s3, l3. do 2 (split; [done|]). split; [done|]. split; [done|]. split; [done|].
    split; [cbn [s2' set_call reads] in Hr3; rewrite Hr2 in Hr3; cbn in Hr3; lia|].
    rewrite (work_ext T s2' s3) by (intros; by apply entry_ext).
    destruct Hi as (l1 & l2 & -> & -> & _). rewrite Hwork, !work_app.
    change (work T s2' (c :: l2)) with (visits T (entry_of c s2') + work T s2' l2).
    unfold s2' at 2. rewrite entry_set_call. unfold due. fold cc. rewrite visits_next by (unfold due in *; fold cc in Hdue; lia).
    replace (visits T (Call (deadline cc) (period cc) (callout cc) (arg cc))) with (visits T cc) by by destruct cc.
    assert (Hsame : forall k, (forall e, e ∈ k -> e <> c) -> work T s2' k = work T s2 k).
    { intros k Hk'. apply work_ext. intros e He'. apply entry_set_call_ne. by apply Hk'. }
    rewrite !Hsame; [lia| |]; intros e He' ->; apply Hcl, elem_of_app; auto.
Qed.

(** C39 (termination). With callouts that leave the queue alone and a clock
    that is read at     least once per wrap, the dispatcher returns within [fuel] passes,
    provided the clock     is at most [T] at each of the next [2 * fuel] reads and the
    queued entries have fewer     than [fuel] deadlines up to [T], a periodic entry counted
    as often as its period fits.     The bound on the clock is needed: with a period shorter
    than one pass the dispatcher     would go on for ever. *)
Theorem hrt_invoke_terminates T fuel : forall s l, quiet -> ordered s l -> clock_ok s ->
  (forall n, (n <= reads s + 2 * fuel)%nat -> tick n <= T) -> work T s l < Z.of_nat fuel ->
  exists s', invoke fuel s = Some s'.
Proof using steadily.
  induction fuel as [|fuel IH]; intros s l Hqu Ho Hk HT Hw.
  { pose proof (work_nonneg T s l (fun e => proj1 (proj1 (ord_calls _ _ Ho e)))). lia. }
  cbn [hrt_call_invoke]. destruct (absolute_time_exact s Hk) as [Hnow Hk1].
  pose proof (absolute_time_frame s) as (Hc & Hq & Hlog & Hr).
  pose proof (fun c l2 => quiet_pass T s l2 c Hqu) as Hpass. cbv zeta in Hpass.
  destruct (absolute_time s) as [now s1]. cbn [fst snd] in *. subst now.
  assert (Ho1 : ordered s1 l) by (by apply (ordered_ext s)). rewrite (peek_law _ _ (ord_repr _ _ Ho1)).
  destruct l as [|c l]; [by eexists|cbn [hd]].
  rewrite (proj2 (Z.eqb_neq c 0)) by (eapply nonnull; [apply Ho|left]).
  assert (Hdc : due s c = deadline (entry_of c s1)) by (unfold due; by rewrite (entry_ext s s1 c Hc)).
  rewrite <- Hdc, Z.gtb_ltb. destruct (Z.ltb_spec (tick (reads s)) (due s c)) as [Hlt|Hge]; [by eexists|].
  destruct (Hpass c l Ho Hk Hge) as (q & s2 & s3 & l3 & -> & -> & -> & Ho3 & Hk3 & Hr3 & Hw3); [apply HT; lia|].
  apply (IH s3 l3); [done|done|done| |lia]. intros n Hn. apply HT. lia.
Qed.

End Spec.
(** ** A periodic callout that enters its own entry *)

Import PosixQueue.

(** The walk for a deadline [d] from the entry [x] on has no end. *)
Definition walks_forever (d x : Z) (s : hrt Queue.sq_queue_s) : Prop := forall fuel, enter_after fuel d x s = None.

(** A periodic callout must not enter its own entry again (with [hrt_call_every],
    say): the dispatcher then enters it a second time.  If it is the only entry, its link comes
    to point to itself, and from then on entering any entry that is not earlier walks the
    queue for ever. *)
Theorem hrt_self_reentry_loops tick x now dl (s : hrt Queue.sq_queue_s) :
  Queue.sq_repr (queue s) [x] -> is_Some (calls s !! x) -> period (entry_of x s) <> 0 ->
  now < deadline (entry_of x s) ->
  exists s', reenter tick x now dl s = Some s' /\ sq_peek (queue s') = x /\
    forall d, deadline (entry_of x s') <= d -> walks_forever d x s'.
Proof.
  intros Hq Hx Hp Hd. unfold reenter. rewrite (proj2 (Z.eqb_neq _ _) Hp), (proj2 (Z.leb_gt _ _)) by lia.
  assert (Hx0 : x <> 0) by (destruct Hq as (_ & H0 & _); intros ->; apply H0; left).
  pose proof (Queue.sq_peek_repr _ _ Hq) as Hpk. pose proof (Queue.sq_next_repr _ [] x [] Hq) as Hnx. cbn in Hpk.
  unfold hrt_call_enter. cbn [sq_peek posix_sq]. rewrite Hpk, (proj2 (Z.eqb_neq x 0)), Z.ltb_irrefl by done. cbn [orb].
  assert (Hsz : size (calls s) <> 0%nat).
  { intros H0. apply map_size_empty_inv in H0. rewrite H0, lookup_empty in Hx. by destruct Hx. }
  destruct (size (calls s)) as [|n]; [done|]. cbn [enter_after sq_next posix_sq]. rewrite Hnx. cbn [hd Z.eqb orb].
  set (q := sq_addafter x x (queue s)).
  assert (Hself : Queue.sq_peek q = x /\ Queue.sq_next x q = x).
  { subst q. cbn [sq_addafter posix_sq]. destruct Hq as (_ & _ & _ & Ht). cbn in Ht. unfold Queue.sq_addafter, Queue.sq_addlast.
    unfold Queue.sq_peek in Hpk. rewrite Hpk, Ht, Z.eqb_refl, orb_true_r, (proj2 (Z.eqb_neq x 0)) by done.
    unfold Queue.sq_peek, Queue.sq_next, Queue.link. cbn [Queue.head Queue.flink]. by rewrite lookup_insert_eq. }
  destruct Hself as [Hh Hn]. eexists. split; [done|]. split; [exact Hh|]. intros d Hle fuel.
  induction fuel as [|fuel IH]; [done|]. cbn [enter_after sq_next posix_sq set_queue queue]. rewrite Hn.
  rewrite (proj2 (Z.eqb_neq x 0)), (proj2 (Z.ltb_ge _ _)) by done. exact IH.
Qed.

(** ** Examples *)

Definition demo_tick (n : nat) : Z := 1000 + 10 * Z.of_nat (Nat.min n 1000).

Lemma demo_steady : steady demo_tick.
Proof. unfold steady, demo_tick, HRT_COUNTER_PERIOD. split; [|split]; intros; lia. Qed.

Definition demo_boot (cs : gmap Z hrt_call) (q : Queue.sq_queue_s) : hrt Queue.sq_queue_s :=
  State _ 0 0 0 cs q 0 0 0 (replicate 9 0) Ppm.ppm_init 0 (User [] false false 0) [].

(** A periodic entry 8, every 100 us, the next time at 900; a single one at 2000. *)
Definition demo_calls : gmap Z hrt_call := <[8 := Call 900 100 5 0]> (<[16 := Call 2000 0 0 0]> ∅).

Definition demo_queue : Queue.sq_queue_s := Queue.sq_addfirst 8 (Queue.sq_addfirst 16 (Queue.Sq 0 0 ∅)).

Definition demo_state : hrt Queue.sq_queue_s := demo_boot demo_calls demo_queue.

Lemma demo_repr : Queue.sq_repr demo_queue [8; 16].
Proof.
  apply Queue.sq_addfirst_repr; [apply Queue.sq_addfirst_repr; [exact (Queue.sq_init_repr (Queue.Sq 0 0 ∅))| |done]| |done];
    set_solver.
Qed.

Lemma demo_ordered : ordered demo_state [8; 16].
Proof.
  split.
  - exact demo_repr.
  - repeat constructor; vm_compute; congruence.
  - repeat constructor; try (vm_compute; congruence); by eexists.
  - intros e. unfold due, entry_of. cbn [demo_state demo_boot calls]. unfold demo_calls.
    destruct (decide (e = 8)) as [->|H8]; [by rewrite lookup_insert_eq|]. rewrite lookup_insert_ne by done.
    destruct (decide (e = 16)) as [->|H16]; [by rewrite lookup_insert_eq|]. rewrite lookup_insert_ne by done. done.
Qed.

Lemma demo_clock cs q : clock_ok demo_tick (demo_boot cs q).
Proof. by split. Qed.

Definition no_calls : Z -> Z -> hrt Queue.sq_queue_s -> list api := fun _ _ _ => [].

Lemma hrt_api_keeps_order_witness :
  exists s' l', run_api demo_tick (CallAfter 24 500 0 0) demo_state = Some s' /\ ordered s' l' /\ NoDup l' /\
    clock_ok demo_tick s' /\ effect demo_tick (CallAfter 24 500 0 0) demo_state [8; 16] s' l' /\
    (forall x, x <> 24 -> entry_of x s' = entry_of x demo_state).
Proof.
  exact (hrt_api_keeps_order demo_tick demo_steady (CallAfter 24 500 0 0) demo_state [8; 16] demo_ordered
    (demo_clock _ _) ltac:(cbn; lia)).
Defined.

Lemma hrt_invoke_terminates_witness :
  exists s', hrt_call_invoke demo_tick 1 no_calls 200 demo_state = Some s'.
Proof.
  apply (hrt_invoke_terminates demo_tick demo_steady 1 no_calls 11000 200 demo_state [8; 16]);
    [by intros f a s|exact demo_ordered|exact (demo_clock _ _)|unfold demo_tick; lia|vm_compute; done].
Defined.

Lemma hrt_invoke_serves_witness : exists s' l' served,
  hrt_call_invoke demo_tick 1 no_calls 200 demo_state = Some s' /\ ordered s' l' /\ clock_ok demo_tick s' /\
  log s' = log demo_state ++ served /\ Forall (fun i => inv_deadline i <= inv_now i) served /\
  Forall (fun e => last_read demo_tick s' < due s' e) l'.
Proof.
  assert (Hs : exists s', hrt_call_invoke demo_tick 1 no_calls 200 demo_state = Some s') by (eexists; vm_compute; reflexivity).
  destruct Hs as [s' Hs].
  destruct (hrt_invoke_serves demo_tick demo_steady 1 no_calls 200 demo_state [8; 16] s'
    (fun c s l _ _ => I) demo_ordered (demo_clock _ _) Hs) as (l' & served & H).
  exists s', l', served. split; [exact Hs|exact H].
Defined.

Lemma hrt_reschedule_in_time_witness :
  exists d, 1000 + HRT_INTERVAL_MIN <= d <= 1000 + HRT_INTERVAL_MAX /\
    Forall (fun e => d <= Z.max (1000 + HRT_INTERVAL_MIN) (due demo_state e)) [8; 16] /\
    d mod HRT_COUNTER_PERIOD = rCCR_HRT (hrt_call_reschedule demo_tick demo_state) /\
    (forall t, 1000 < t < d -> t mod HRT_COUNTER_PERIOD <> rCCR_HRT (hrt_call_reschedule demo_tick demo_state)).
Proof. exact (hrt_reschedule_in_time demo_tick demo_steady demo_state [8; 16] demo_ordered (demo_clock _ _)). Defined.

Lemma hrt_time_exact_witness : read_times demo_tick 3 demo_state = [1000; 1010; 1020].
Proof. exact (hrt_time_exact demo_tick demo_steady 3 demo_state (demo_clock _ _)). Defined.

(** The callout of entry 8 enters it again: so the dispatcher gets to the state of the theorem. *)
Definition restarts_itself : Z -> Z -> hrt Queue.sq_queue_s -> list api := fun _ _ _ => [CallEvery 8 500 100 5 0].

Definition demo_single : hrt Queue.sq_queue_s :=
  demo_boot (<[8 := Call 1500 100 5 0]> ∅) (Queue.sq_addfirst 8 (Queue.Sq 0 0 ∅)).

Lemma demo_self_reentry : exists s', hrt_call_invoke demo_tick 1 restarts_itself 2
    (demo_boot (<[8 := Call 900 100 5 0]> ∅) (Queue.sq_addfirst 8 (Queue.Sq 0 0 ∅))) = Some s' /\
  Queue.sq_next 8 (queue s') = 8.
Proof. eexists. vm_compute. split; reflexivity. Qed.

Lemma hrt_self_reentry_loops_witness :
  exists s', reenter demo_tick 8 1000 900 demo_single = Some s' /\ sq_peek (queue s') = 8 /\
    forall d, deadline (entry_of 8 s') <= d -> walks_forever d 8 s'.
Proof.
  apply (hrt_self_reentry_loops demo_tick 8 1000 900 demo_single);
    [|by eexists|vm_compute; congruence|vm_compute; reflexivity].
  apply Queue.sq_addfirst_repr; [exact (Queue.sq_init_repr (Queue.Sq 0 0 ∅))|set_solver|done].
Defined.

End HrtSpec.
