(* ===== verification/WorkQueue.v ===== *)
(** * Work queues of the POSIX builds

    src/platforms/common/work_queue: work_queue.c, work_cancel.c and work_thread.c, which
    count ticks of a 32-bit clock, and their copies hrt_queue.c, hrt_work_cancel.c and
    hrt_thread.c, which count microseconds of the 64-bit absolute time.  The two differ in the
    clock only; [flavour] holds the difference.  [now] is the absolute time of the n-th
    reading; a worker's calls of the interface are a list. *)

From stdpp Require Import gmap.
From S2P Require Import Prelude Queue.

Local Open Scope Z_scope.

Module WorkQueue.

Record work_s := Work { worker : Z; arg : Z; qtime : Z; delay : Z }.

Definition no_work : work_s := Work 0 0 0 0.

Record wqueue := Wqueue {
  dq : Queue.dq_queue_s;
  works : gmap Z work_s;
  readings : nat;                             (* of the clock, so far *)
  ran : list (Z * Z);                         (* the work done: which, and the time found *)
}.

Record flavour := Flavour {
  read_clock : Z -> Z;                        (* what the code reads at an absolute time *)
  elapsed_since : Z -> Z -> Z;                (* the clock, the time queued *)
  remaining_of : Z -> Z -> Z;                 (* the delay, the time elapsed *)
  idle : Z;                                   (* the longest sleep *)
}.

Definition CONFIG_SCHED_WORKPERIOD : Z := 50000.

Definition clock_systimer (abstime : Z) : Z := Z.land 0xffffffff abstime.

Definition USEC2TICK (usec_per_tick x : Z) : Z := u64 (x + usec_per_tick / 2) / usec_per_tick.

(** The clock of [work_process]; [usec_per_tick] comes from the operating system. *)
Definition tick_flavour (usec_per_tick : Z) : flavour :=
  Flavour clock_systimer
    (fun clock qtime => USEC2TICK usec_per_tick (u64 (clock - qtime)))
    (fun delay elapsed => u32 (u64 (usec_per_tick * u64 (delay - elapsed))))
    CONFIG_SCHED_WORKPERIOD.

(** The clock of [hrt_work_process]. *)
Definition hrt_flavour : flavour :=
  Flavour (fun abstime => abstime) (fun clock qtime => u64 (clock - qtime))
    (fun delay elapsed => u32 (u64 (delay - elapsed))) 1000000.

Definition work_of (w : Z) (s : wqueue) : work_s := default no_work (works s !! w).

Definition set_work (w : Z) (x : work_s) (s : wqueue) : wqueue :=
  Wqueue (dq s) (<[w := x]> (works s)) (readings s) (ran s).

Definition set_dq (q : Queue.dq_queue_s) (s : wqueue) : wqueue := Wqueue q (works s) (readings s) (ran s).

Inductive request := QueueWork (work worker arg delay : Z) | CancelWork (work : Z).

Section Work.
Variable fl : flavour.
Variable now : nat -> Z.
Variable does : Z -> Z -> wqueue -> list request.

Definition clock (s : wqueue) : Z * wqueue :=
  (read_clock fl (now (readings s)), Wqueue (dq s) (works s) (S (readings s)) (ran s)).

Definition work_queue (work worker arg delay : Z) (s : wqueue) : wqueue :=
  let '(t, s) := clock s in
  set_dq (Queue.dq_addlast work (dq s)) (set_work work (Work worker arg t delay) s).

Definition work_cancel (work : Z) (s : wqueue) : wqueue :=
  let x := work_of work s in
  if negb (worker x =? 0)
  then set_work work (Work 0 (arg x) (qtime x) (delay x)) (set_dq (Queue.dq_rem work (dq s)) s)
  else s.

Definition perform (r : request) (s : wqueue) : wqueue :=
  match r with QueueWork w f a d => work_queue w f a d s | CancelWork w => work_cancel w s end.

(** The loop of [work_process] from [work] on: the time to sleep and the state. *)
Fixpoint process (fuel : nat) (work next : Z) (s : wqueue) : option (Z * wqueue) :=
  match fuel with
  | O => None
  | S fuel =>
      if work =? 0 then Some (next, s)
      else
        let '(t, s) := clock s in
        let x := work_of work s in
        let elapsed := elapsed_since fl t (qtime x) in
        if elapsed >=? delay x then
          let s := set_work work (Work 0 (arg x) (qtime x) (delay x)) (set_dq (Queue.dq_rem work (dq s)) s) in
          let s := Wqueue (dq s) (works s) (readings s) (ran s ++ [(work, t)]) in
          let s := if worker x =? 0 then s
                   else fold_left (fun s r => perform r s) (does (worker x) (arg x) s) s in
          process fuel (Queue.dq_head (dq s)) next s
        else
          let remaining := remaining_of fl (delay x) elapsed in
          process fuel (Queue.link (Queue.dflink (dq s)) work) (if remaining <? next then remaining else next) s
  end.

Definition work_process (fuel : nat) (s : wqueue) : option (Z * wqueue) :=
  process fuel (Queue.dq_head (dq s)) (idle fl) s.

End Work.

(** The copies for the high-resolution clock. *)
Definition hrt_work_queue := work_queue hrt_flavour.
Definition hrt_work_cancel := work_cancel.
Definition hrt_work_process := work_process hrt_flavour.

(** ** The queue of the high-resolution flavour *)

Section Spec.
Variable now : nat -> Z.

Definition steady : Prop := (forall n, now n <= now (S n)) /\ (forall n, 0 <= now n < 2 ^ 62).

(** The time from which the work [e] is due. *)
Definition due (s : wqueue) (e : Z) : Z := qtime (work_of e s) + delay (work_of e s).

(** The entries [l] are queued, each with a worker and a time that has passed. *)
Record wq_ok (s : wqueue) (l : list Z) : Prop := {
  wq_repr : Queue.dq_repr (dq s) l;
  wq_worker : forall e, worker (work_of e s) <> 0 <-> e ∈ l;
  wq_delay : forall e, 0 <= delay (work_of e s) < 2 ^ 32;
  wq_time : Forall (fun e => 0 <= qtime (work_of e s) <= now (readings s)) l;
}.

Hypothesis steadily : steady.

Lemma now_le n m : (n <= m)%nat -> now n <= now m.
Proof using steadily. destruct steadily as [H _]. induction 1 as [|m _ IH]; [done|]. specialize (H m). lia. Qed.

Lemma work_set e x s : work_of e (set_work e x s) = x.
Proof. unfold work_of. cbn [set_work works]. by rewrite lookup_insert_eq. Qed.

Lemma work_set_ne e x s y : y <> e -> work_of y (set_work e x s) = work_of y s.
Proof. intros H. unfold work_of. cbn [set_work works]. by rewrite lookup_insert_ne. Qed.

(** Queueing and cancelling. *)
Lemma work_queue_ok w f a d s l : wq_ok s l -> w ∉ l -> w <> 0 -> f <> 0 -> 0 <= d < 2 ^ 32 ->
  let s' := hrt_work_queue now w f a d s in
  wq_ok s' (l ++ [w]) /\ work_of w s' = Work f a (now (readings s)) d.
Proof using steadily.
  intros [H1 H2 H3 H4] Hw Hw0 Hf Hd s'. destruct steadily as [Hmono Hpos].
  assert (Hx : work_of w s' = Work f a (now (readings s)) d)
    by (unfold s', hrt_work_queue, work_queue, clock, work_of; cbn; by rewrite lookup_insert_eq).
  assert (Hy : forall y, y <> w -> work_of y s' = work_of y s)
    by (intros y Hy; unfold s', hrt_work_queue, work_queue, clock, work_of; cbn; by rewrite lookup_insert_ne).
  split; [|done]. split.
  - by apply Queue.dq_addlast_repr.
  - intros e. rewrite elem_of_app, list_elem_of_singleton.
    destruct (decide (e = w)) as [->|Hne]; [rewrite Hx; tauto|]. rewrite Hy, H2 by done. tauto.
  - intros e. destruct (decide (e = w)) as [->|Hne]; [by rewrite Hx|]. rewrite Hy by done. apply H3.
  - assert (Hr : readings s' = S (readings s)) by done. rewrite Hr. specialize (Hmono (readings s)).
    apply Forall_app. split.
    + rewrite Forall_forall in *. intros e He. rewrite Hy by (intros ->; done). specialize (H4 e He). cbn in H4. lia.
    + repeat constructor; rewrite Hx; cbn; specialize (Hpos (readings s)); lia.
Qed.

(** Taking an entry out and marking it. *)
Definition taken (e : Z) (s : wqueue) : wqueue :=
  let x := work_of e s in
  set_work e (Work 0 (arg x) (qtime x) (delay x)) (set_dq (Queue.dq_rem e (dq s)) s).

Lemma taken_ok e s l1 l2 : wq_ok s (l1 ++ e :: l2) -> wq_ok (taken e s) (l1 ++ l2) /\
  (forall y, y <> e -> work_of y (taken e s) = work_of y s).
Proof.
  intros [H1 H2 H3 H4]. pose proof (Queue.NoDup_app_cons _ _ _ (proj1 H1)) as [Hn He].
  assert (Hy : forall y, y <> e -> work_of y (taken e s) = work_of y s) by (intros y Hy; unfold taken; by rewrite work_set_ne).
  split; [|done]. split.
  - by apply Queue.dq_rem_repr.
  - intros y. destruct (decide (y = e)) as [->|Hne].
    + unfold taken. rewrite work_set. cbn [worker]. tauto.
    + rewrite Hy, H2 by done. rewrite !elem_of_app, elem_of_cons. tauto.
  - intros y. destruct (decide (y = e)) as [->|Hne]; [unfold taken; rewrite work_set; apply (H3 e)|].
    rewrite Hy by done. apply H3.
  - rewrite Forall_forall in *. intros y Hyl. rewrite Hy by (intros ->; done). apply H4.
    rewrite !elem_of_app, elem_of_cons in *. tauto.
Qed.

Lemma work_cancel_ok e s l1 l2 : wq_ok s (l1 ++ e :: l2) ->
  hrt_work_cancel e s = taken e s /\ wq_ok (hrt_work_cancel e s) (l1 ++ l2).
Proof.
  intros Ho. assert (Hc : hrt_work_cancel e s = taken e s).
  { unfold hrt_work_cancel, work_cancel. destruct (Z.eqb_spec (worker (work_of e s)) 0) as [H0|]; [|done].
    exfalso. apply (wq_worker _ _ Ho e); [|done]. apply elem_of_app. right. left. }
  split; [done|]. rewrite Hc. by apply taken_ok.
Qed.

(** Cancelling what is not queued does nothing. *)
Lemma work_cancel_idle e s l : wq_ok s l -> e ∉ l -> hrt_work_cancel e s = s.
Proof.
  intros Ho He. unfold hrt_work_cancel, work_cancel. destruct (Z.eqb_spec (worker (work_of e s)) 0) as [|H0]; [done|].
  exfalso. apply He. by apply (wq_worker _ _ Ho).
Qed.

(** ** The worker thread *)

Variable does : Z -> Z -> wqueue -> list request.

Abbreviation walk := (process hrt_flavour now does).

(** Workers that leave the queue alone. *)
Definition quiet : Prop := forall f a s, does f a s = [].

(** Seen from the reading [n0] on, the entry waits at least for the sleep [next]. *)
Definition waits (n0 : nat) (next : Z) (s : wqueue) (e : Z) : Prop := now n0 + next <= due s e.

Lemma hrt_elapsed q d t : 0 <= q <= t -> t < 2 ^ 62 -> 0 <= d < 2 ^ 32 ->
  (elapsed_since hrt_flavour t q >=? d) = (q + d <=? t) /\
  (t < q + d -> remaining_of hrt_flavour d (elapsed_since hrt_flavour t q) = q + d - t).
Proof using.
  clear. intros Hq Ht Hd. cbn [hrt_flavour elapsed_since remaining_of]. rewrite (wrap_small 64 (t - q)) by (unfold fits; lia).
  split.
  - rewrite Z.geb_leb. destruct (Z.leb_spec d (t - q)), (Z.leb_spec (q + d) t); lia.
  - intros Hlt. rewrite (wrap_small 64), (wrap_small 32); [lia|unfold fits; lia..].
Qed.

(** One step of the clock keeps everything. *)
Lemma wq_ok_clock s l : wq_ok s l -> wq_ok (snd (clock hrt_flavour now s)) l.
Proof using steadily.
  intros [H1 H2 H3 H4]. destruct steadily as [Hm _]. specialize (Hm (readings s)). split; [done|done|done|].
  cbn. eapply Forall_impl; [exact H4|]. cbn. intros e. unfold work_of. cbn. lia.
Qed.

(** Fuel for a walk that has [k] entries of [n] to go. *)
Definition enough (n k : nat) : nat := (n * (n + 1) + k)%nat.

Lemma walk_spec fuel : forall s l1 l2 next n0, quiet -> wq_ok s (l1 ++ l2) -> (n0 <= readings s)%nat ->
  Forall (waits n0 next s) l1 -> 0 < next -> (enough (length (l1 ++ l2)) (length l2) < fuel)%nat ->
  exists next' s' l' n1 served, walk fuel (hd 0 l2) next s = Some (next', s') /\ wq_ok s' l' /\
    (n0 <= n1 <= readings s')%nat /\ 0 < next' <= next /\ Forall (waits n1 next' s') l' /\
    ran s' = ran s ++ served /\ l1 ++ l2 ≡ₚ map fst served ++ l' /\
    Forall (fun x => due s (fst x) <= snd x) served.
Proof using steadily.
  induction fuel as [|fuel IH]; intros s l1 l2 next n0 Hqu Ho Hn0 Hw Hnext Hf; [lia|]. cbn [process].
  destruct l2 as [|e l2]; cbn [hd].
  { exists next, s, l1, n0, []. rewrite !app_nil_r in *. do 7 (split; [done || lia|]). constructor. }
  assert (He0 : e <> 0) by (eapply Queue.middle_ne; apply (wq_repr _ _ Ho)).
  rewrite (proj2 (Z.eqb_neq e 0)) by done.
  pose proof (wq_ok_clock s _ Ho) as Hoc. cbn [snd clock] in Hoc. cbn [clock hrt_flavour read_clock].
  set (t := now (readings s)). set (sc := Wqueue (dq s) (works s) (S (readings s)) (ran s)) in *.
  change (work_of e sc) with (work_of e s). set (x := work_of e s).
  assert (Hx : 0 <= qtime x <= t).
  { pose proof (wq_time _ _ Ho) as Ht. rewrite Forall_forall in Ht. apply (Ht e). apply elem_of_app. right. left. }
  destruct steadily as [_ Hpos]. pose proof (Hpos (readings s)) as Ht. fold t in Ht.
  destruct (hrt_elapsed (qtime x) (delay x) t Hx ltac:(lia) (wq_delay _ _ Ho e)) as [Hel Hrem].
  cbn [hrt_flavour elapsed_since remaining_of] in Hel, Hrem |- *. rewrite Hel.
  rewrite length_app in Hf. cbn [length] in Hf.
  destruct (Z.leb_spec (qtime x + delay x) t) as [Hdue|Hlater].
  - fold (taken e sc). destruct (taken_ok e sc l1 l2 Hoc) as [Hot Hyt]. set (st := taken e sc) in *.
    rewrite Hqu. cbn [fold_left]. replace (if worker x =? 0 then _ else _) with
      (Wqueue (dq st) (works st) (readings st) (ran st ++ [(e, t)])) by by destruct (worker x =? 0).
    set (sr := Wqueue (dq st) (works st) (readings st) (ran st ++ [(e, t)])).
    assert (Hor : wq_ok sr (l1 ++ l2)) by (destruct Hot; split; done).
    rewrite (Queue.dq_head_repr _ _ (wq_repr _ _ Hor)).
    destruct (IH sr [] (l1 ++ l2) next (readings sr) Hqu Hor ltac:(lia) (Forall_nil_2 _) Hnext)
      as (next' & s' & l' & n1 & served & Hwalk & Ho' & Hn1 & Hnx & Hw' & Hran & Hperm & Hdues).
    { unfold enough in *. cbn [app]. rewrite !length_app in *. nia. }
    exists next', s', l', n1, ((e, t) :: served). cbn [app] in *. split; [done|]. split; [done|].
    split; [cbn in Hn1; lia|]. split; [done|]. split; [done|]. split; [rewrite Hran; cbn; by rewrite <- app_assoc|].
    split; [rewrite <- Permutation_middle; cbn; by rewrite Hperm|]. constructor; [done|].
    pose proof (Queue.NoDup_app_cons _ _ _ (proj1 (wq_repr _ _ Ho))) as [_ Hel'].
    rewrite Forall_forall in Hdues |- *. intros y Hy. specialize (Hdues y Hy).
    assert (Hyl : fst y ∈ l1 ++ l2) by (rewrite Hperm; apply elem_of_app; left; by apply list_elem_of_fmap_2).
    unfold due in *. change (work_of (fst y) sr) with (work_of (fst y) st) in Hdues.
    rewrite Hyt in Hdues by (intros Heq; rewrite Heq in Hyl; done). done.
  - rewrite Hrem by lia. set (rest := qtime x + delay x - t).
    destruct (Queue.dq_links _ l1 e l2 (wq_repr _ _ Ho)) as [Hlink _]. change (dq sc) with (dq s). rewrite Hlink.
    assert (Hnext' : 0 < (if rest <? next then rest else next) <= next) by (destruct (Z.ltb_spec rest next); lia).
    replace (l1 ++ e :: l2) with ((l1 ++ [e]) ++ l2) in * by (by rewrite <- app_assoc).
    destruct (IH sc (l1 ++ [e]) l2 (if rest <? next then rest else next) n0 Hqu Hoc)
      as (next' & s' & l' & n1 & served & Hwalk & Ho' & Hn1 & Hnx & Hw' & Hran & Hperm & Hdues); [cbn; lia| |lia| |].
    + apply Forall_app. split.
      * eapply Forall_impl; [exact Hw|]. unfold waits, due. cbn. intros y. unfold work_of. cbn. lia.
      * repeat constructor. unfold waits, due. change (work_of e sc) with x. pose proof (now_le n0 (readings s) Hn0).
        fold t in H. destruct (Z.ltb_spec rest next); unfold rest in *; lia.
    + unfold enough in *. rewrite !length_app. cbn [length]. rewrite <- !Nat.add_assoc. cbn [Nat.add]. nia.
    + exists next', s', l', n1, served. split; [done|]. split; [done|]. split; [done|]. split; [lia|]. done.
Qed.

(** The worker thread's pass over the queue returns and serves what is due:
    the entries it ran were due when it ran them, each ran once and is out of the queue, and it
    then sleeps a positive time that ends no later than any remaining entry becomes due. *)
Theorem hrt_work_process_serves fuel s l : quiet -> wq_ok s l -> (enough (length l) (length l) < fuel)%nat ->
  exists next s' l' n1 served, hrt_work_process now does fuel s = Some (next, s') /\ wq_ok s' l' /\
    (readings s <= n1 <= readings s')%nat /\ 0 < next <= 1000000 /\ Forall (waits n1 next s') l' /\
    ran s' = ran s ++ served /\ l ≡ₚ map fst served ++ l' /\ Forall (fun x => due s (fst x) <= snd x) served.
Proof using steadily.
  intros Hqu Ho Hf. unfold hrt_work_process, work_process. rewrite (Queue.dq_head_repr _ _ (wq_repr _ _ Ho)).
  apply (walk_spec fuel s [] l 1000000 (readings s)); [done|done|lia|constructor|lia|done].
Qed.

End Spec.

(** ** The wrap of the 32-bit clock *)

Lemma tick_elapsed_at_wrap u c q d : 0 < u <= 1000000 -> 0 <= c -> u < q - c < 2 ^ 32 -> 0 <= d < 2 ^ 32 ->
  (elapsed_since (tick_flavour u) c q >=? d) = true.
Proof.
  intros Hu Hc Hq Hd. cbn [tick_flavour elapsed_since]. unfold USEC2TICK. rewrite Z.geb_leb. apply Z.leb_le.
  assert (Hw : u64 (c - q) = 2 ^ 64 - (q - c)).
  { unfold wrap. replace (c - q) with (2 ^ 64 - (q - c) + (-1) * 2 ^ 64) by lia. rewrite Z_mod_plus_full.
    apply Z.mod_small. lia. }
  assert (Hhalf : 0 <= u / 2 < u) by (split; [apply Z.div_pos; lia|apply Z.div_lt; lia]).
  rewrite Hw, wrap_small by (unfold fits; lia). apply Z.div_le_lower_bound; [lia|]. nia.
Qed.

(** Work with a delay that is queued shortly before the 32-bit microsecond clock
    wraps, every 71 minutes, is run at once after the wrap however long its delay is: the time
    queued is kept in 64 bits, so the difference to the wrapped clock is taken for a very long
    time. *)
Theorem work_runs_early_at_wrap u now does fuel e next s queued_at : 0 < u <= 1000000 -> e <> 0 ->
  qtime (work_of e s) = clock_systimer queued_at -> 0 <= delay (work_of e s) < 2 ^ 32 ->
  queued_at <= now (readings s) < queued_at + (2 ^ 32 - u) ->
  clock_systimer (now (readings s)) < clock_systimer queued_at ->
  exists s', process (tick_flavour u) now does (S fuel) e next s =
      process (tick_flavour u) now does fuel (Queue.dq_head (dq s')) next s' /\
    (exists s1, ran s1 = ran s ++ [(e, clock_systimer (now (readings s)))] /\
       (s' = s1 \/ s' = fold_left (fun s r => perform (tick_flavour u) now r s)
                          (does (worker (work_of e s)) (arg (work_of e s)) s1) s1)).
Proof.
  intros Hu He Hq Hd Ht Hwrap. cbn [process clock]. rewrite (proj2 (Z.eqb_neq e 0)) by done.
  change (work_of e (Wqueue (dq s) (works s) (S (readings s)) (ran s))) with (work_of e s).
  change (read_clock (tick_flavour u) (now (readings s))) with (clock_systimer (now (readings s))).
  assert (Hland : forall a, clock_systimer a = a mod 2 ^ 32).
  { intros a. unfold clock_systimer. rewrite Z.land_comm. change 0xffffffff with (Z.ones 32). by rewrite Z.land_ones. }
  rewrite tick_elapsed_at_wrap; [|done| |rewrite Hq|done].
  - eexists. split; [done|]. eexists. split; [|destruct (worker (work_of e s) =? 0); [by left|by right]]. done.
  - rewrite Hland. by apply Z.mod_pos_bound.
  - rewrite !Hland in *. Z.div_mod_to_equations. lia.
Qed.

(** ** Examples *)

Definition demo_now (n : nat) : Z := 5000 + 100 * Z.of_nat (Nat.min n 1000).

Lemma demo_now_steady : steady demo_now.
Proof. unfold steady, demo_now. split; intros; lia. Qed.

Definition demo_queue : wqueue :=
  hrt_work_queue demo_now 64 7 0 1000000
    (hrt_work_queue demo_now 32 7 0 50 (Wqueue (Queue.Dq 0 0 ∅ ∅) ∅ 0 [])).

Lemma demo_queue_ok : wq_ok demo_now demo_queue [32; 64].
Proof.
  assert (H0 : wq_ok demo_now (Wqueue (Queue.Dq 0 0 ∅ ∅) ∅ 0 []) []).
  { split.
    - split; [constructor|]. split; [apply not_elem_of_nil|]. by split.
    - intros e. cbn. split; [done|intros H; by apply elem_of_nil in H].
    - done.
    - constructor. }
  apply (work_queue_ok demo_now demo_now_steady 64 7 0 1000000 _ [32]); [|set_solver|done|done|done].
  exact (proj1 (work_queue_ok demo_now demo_now_steady 32 7 0 50 _ [] H0 ltac:(set_solver) ltac:(done) ltac:(done) ltac:(done))).
Qed.

Lemma hrt_work_process_serves_witness :
  exists next s' l' n1 served, hrt_work_process demo_now (fun _ _ _ => []) 20 demo_queue = Some (next, s') /\
    wq_ok demo_now s' l' /\ (readings demo_queue <= n1 <= readings s')%nat /\ 0 < next <= 1000000 /\
    Forall (waits demo_now n1 next s') l' /\
    ran s' = ran demo_queue ++ served /\ [32; 64] ≡ₚ map fst served ++ l' /\
    Forall (fun x => due demo_queue (fst x) <= snd x) served.
Proof.
  apply (hrt_work_process_serves demo_now demo_now_steady (fun _ _ _ => []) 20 demo_queue [32; 64]);
    [by intros f a s|exact demo_queue_ok|vm_compute; lia].
Defined.

(** Queued 1 ms before the wrap with a delay of 100 ticks of 10 ms, looked at 2 ms later. *)
Definition demo_wrapping : wqueue :=
  Wqueue (Queue.Dq 32 32 (<[32 := 0]> ∅) (<[32 := 0]> ∅)) (<[32 := Work 7 0 (2 ^ 32 - 1000) 100]> ∅) 0 [].

Lemma work_runs_early_at_wrap_witness :
  exists s', process (tick_flavour 10000) (fun _ => 2 ^ 32 + 1000) (fun _ _ _ => []) 2 32 50000 demo_wrapping =
      process (tick_flavour 10000) (fun _ => 2 ^ 32 + 1000) (fun _ _ _ => []) 1 (Queue.dq_head (dq s')) 50000 s' /\
    (exists s1, ran s1 = ran demo_wrapping ++ [(32, 1000)] /\
       (s' = s1 \/ s' = fold_left (fun s r => perform (tick_flavour 10000) (fun _ => 2 ^ 32 + 1000) r s) [] s1)).
Proof.
  apply (work_runs_early_at_wrap 10000 (fun _ => 2 ^ 32 + 1000) (fun _ _ _ => []) 1 32 50000 demo_wrapping (2 ^ 32 - 1000));
    try done; vm_compute; split; congruence.
Defined.

End WorkQueue.
