(* ===== verification/Float32.v ===== *)
(** * Single-precision floating point as the flight code uses it

    The ESO controllers compute with C++ [float]s.  A [float] is modelled by the IEEE 754
    specification of the Standard Library (SpecFloat) at precision 24 and exponent bound
    128: every operation is the correctly rounded one, with signed zeros, infinities and one
    NaN.  The definitions below give the operations and comparisons of the language, the
    literals, and the helpers of src/src/lib/mathlib/math/Limits.hpp and
    platforms/common/include/px4_platform_common/defines.h.

    One operation of the source is one rounded operation of the model.  The build passes
    -freciprocal-math and leaves contraction to the compiler, so a target may fuse or
    reorder some of them; the theorems about control flow, NaN propagation and clamping do
    not depend on the rounding, and the closed computations are those of an unfused build. *)
From Stdlib Require Import Floats.SpecFloat.
From S2P Require Import Prelude.
Local Open Scope Z_scope.

Create HintDb f32.
Create Rewrite HintDb f32.

Abbreviation f32 := spec_float.

(** ** Operations *)

Definition fadd : f32 -> f32 -> f32 := SFadd 24 128.
Definition fsub : f32 -> f32 -> f32 := SFsub 24 128.
Definition fmul : f32 -> f32 -> f32 := SFmul 24 128.
Definition fdiv : f32 -> f32 -> f32 := SFdiv 24 128.
Definition fsqrt : f32 -> f32 := SFsqrt 24 128.
Definition fneg : f32 -> f32 := SFopp.
Definition fabs : f32 -> f32 := SFabs.

(** The comparisons of the language: all of them are false on a NaN. *)
Definition flt (x y : f32) : bool := SFltb x y.
Definition fle (x y : f32) : bool := SFleb x y.
Definition fgt (x y : f32) : bool := flt y x.
Definition fge (x y : f32) : bool := fle y x.

Definition fnan : f32 := S754_nan.
Definition f0 : f32 := S754_zero false.
Definition is_nan (x : f32) : bool := match x with S754_nan => true | _ => false end.

(** An integer converted to a [float]. *)
Definition f32_of_Z (z : Z) : f32 := binary_normalize 24 128 z 0 false.

(** The decimal literal [n/d]: numerator and denominator are exact, so that the rounded
    quotient is the nearest [float] to the literal. *)
Definition flit (n d : Z) : f32 := fdiv (f32_of_Z n) (f32_of_Z d).
Definition f1 : f32 := f32_of_Z 1.

(** [FLT_EPSILON] of float.h, 2^-23, and the [float] nearest to [MATH_PI]. *)
Definition FLT_EPSILON : f32 := S754_finite false 8388608 (-46).
Definition MATH_PI_f : f32 := S754_finite false 13176795 (-22).

(** ** mathlib: Limits.hpp and defines.h *)

Definition PX4_ISFINITE (x : f32) : bool :=
  match x with S754_zero _ | S754_finite _ _ _ => true | _ => false end.

Definition math_min (a b : f32) : f32 := if flt a b then a else b.
Definition math_max (a b : f32) : f32 := if fgt a b then a else b.
Definition math_constrain (val min_val max_val : f32) : f32 :=
  if flt val min_val then min_val else if fgt val max_val then max_val else val.
Definition math_radians (degrees : f32) : f32 :=
  fmul degrees (fdiv MATH_PI_f (f32_of_Z 180)).

(** ** NaN propagation *)

Lemma fadd_nan_l x : fadd fnan x = fnan.
Proof. by destruct x. Qed.
Lemma fadd_nan_r x : fadd x fnan = fnan.
Proof. by destruct x. Qed.
Lemma fsub_nan_l x : fsub fnan x = fnan.
Proof. by destruct x. Qed.
Lemma fsub_nan_r x : fsub x fnan = fnan.
Proof. by destruct x. Qed.
Lemma fmul_nan_l x : fmul fnan x = fnan.
Proof. by destruct x. Qed.
Lemma fmul_nan_r x : fmul x fnan = fnan.
Proof. by destruct x. Qed.
Lemma fdiv_nan_l x : fdiv fnan x = fnan.
Proof. by destruct x. Qed.
Lemma fdiv_nan_r x : fdiv x fnan = fnan.
Proof. by destruct x. Qed.
Lemma fsqrt_nan : fsqrt fnan = fnan.
Proof. done. Qed.
Lemma fneg_nan : fneg fnan = fnan.
Proof. done. Qed.
Lemma fabs_nan : fabs fnan = fnan.
Proof. done. Qed.
Lemma flt_nan_l x : flt fnan x = false.
Proof. by destruct x. Qed.
Lemma flt_nan_r x : flt x fnan = false.
Proof. by destruct x. Qed.
Lemma fle_nan_l x : fle fnan x = false.
Proof. by destruct x. Qed.
Lemma fle_nan_r x : fle x fnan = false.
Proof. by destruct x. Qed.

#[export] Hint Rewrite fadd_nan_l fadd_nan_r fsub_nan_l fsub_nan_r fmul_nan_l fmul_nan_r
  fdiv_nan_l fdiv_nan_r fsqrt_nan fneg_nan fabs_nan flt_nan_l flt_nan_r fle_nan_l fle_nan_r
  : f32.

(** ** Order

    [flt] and [fle] form a total order on the values that are not NaN. *)

Lemma SFcompare_swap x y : SFcompare y x = CompOpp <$> SFcompare x y.
Proof.
  destruct x as [[]|[]| |[] m e], y as [[]|[]| |[] m' e']; try done; simpl;
    change (Pos.compare_cont Eq) with Pos.compare;
    rewrite (Z.compare_antisym e e'), (Pos.compare_antisym m m');
    destruct (e ?= e'), (m ?= m')%positive; done.
Qed.

Lemma SFcompare_total x y :
  is_nan x = false -> is_nan y = false -> exists c, SFcompare x y = Some c.
Proof. destruct x, y; try done; intros _ _; simpl; by eexists. Qed.

Lemma SFcompare_trans_le x y z :
  fle x y = true -> fle y z = true -> fle x z = true.
Proof.
  unfold fle, SFleb.
  destruct x as [[]|[]| |[] m e], y as [[]|[]| |[] m' e'], z as [[]|[]| |[] m'' e'']; try done;
    simpl; unfold Pos.compare; change (Pos.compare_cont Eq) with Pos.compare;
    destruct (Z.compare_spec e e'), (Z.compare_spec e' e''), (Z.compare_spec e e'');
    try done; try lia;
    destruct (Pos.compare_spec m m'), (Pos.compare_spec m' m''), (Pos.compare_spec m m'');
    simpl; intros; try done; lia.
Qed.

Lemma fle_refl x : is_nan x = false -> fle x x = true.
Proof.
  intros Hx. unfold fle, SFleb. destruct (SFcompare_total x x Hx Hx) as [c Hc].
  pose proof (SFcompare_swap x x) as Hs. rewrite Hc in Hs. simpl in Hs. rewrite Hc.
  by destruct c.
Qed.

Lemma flt_not_fle x y :
  is_nan x = false -> is_nan y = false -> flt x y = negb (fle y x).
Proof.
  intros Hx Hy. unfold flt, fle, SFltb, SFleb.
  destruct (SFcompare_total x y Hx Hy) as [c Hc]. rewrite (SFcompare_swap x y), Hc.
  by destruct c.
Qed.

Lemma flt_fle x y : flt x y = true -> fle x y = true.
Proof. unfold flt, fle, SFltb, SFleb. by destruct (SFcompare x y) as [[]|]. Qed.

Lemma fle_num x y : fle x y = true -> is_nan x = false /\ is_nan y = false.
Proof. by destruct x, y. Qed.

Lemma finite_num x : PX4_ISFINITE x = true -> is_nan x = false.
Proof. by destruct x. Qed.

Lemma finite_nan_false : PX4_ISFINITE fnan = false.
Proof. done. Qed.

Lemma fle_finite_between lo x hi :
  PX4_ISFINITE lo = true -> PX4_ISFINITE hi = true ->
  fle lo x = true -> fle x hi = true -> PX4_ISFINITE x = true.
Proof. destruct lo as [[]|[]| |[]], x as [[]|[]| |[]], hi as [[]|[]| |[]]; done. Qed.

Lemma fneg_fle x : fle f0 x = true -> fle (fneg x) x = true.
Proof. destruct x as [[]|[]| |[]]; done. Qed.

Lemma fneg_finite x : PX4_ISFINITE (fneg x) = PX4_ISFINITE x.
Proof. by destruct x. Qed.

#[export] Hint Resolve fle_refl flt_fle finite_num fneg_fle : f32.
#[export] Hint Rewrite finite_nan_false fneg_finite : f32.

(** ** Clamping *)

(** A number clamped between ordered bounds lies between them. *)
Lemma constrain_in_range v lo hi :
  is_nan v = false -> fle lo hi = true ->
  fle lo (math_constrain v lo hi) = true /\ fle (math_constrain v lo hi) hi = true.
Proof.
  intros Hv Hlh. destruct (fle_num _ _ Hlh) as [Hlo Hhi]. unfold math_constrain, fgt.
  destruct (flt v lo) eqn:E1; [auto with f32|].
  destruct (flt hi v) eqn:E2; [auto with f32|].
  rewrite flt_not_fle in E1, E2 by done. by destruct (fle lo v), (fle v hi).
Qed.

Lemma constrain_id v lo hi :
  fle lo v = true -> fle v hi = true -> math_constrain v lo hi = v.
Proof.
  intros H1 H2. destruct (fle_num _ _ H1) as [Hlo Hv], (fle_num _ _ H2) as [_ Hhi].
  unfold math_constrain, fgt. rewrite !flt_not_fle by done. by rewrite H1, H2.
Qed.

(** A NaN passes through the clamp, whatever the bounds. *)
Lemma constrain_nan lo hi : math_constrain fnan lo hi = fnan.
Proof. unfold math_constrain, fgt. by autorewrite with f32. Qed.

Lemma constrain_finite v lo hi :
  PX4_ISFINITE v = true -> PX4_ISFINITE lo = true -> PX4_ISFINITE hi = true ->
  PX4_ISFINITE (math_constrain v lo hi) = true.
Proof. intros. unfold math_constrain. by repeat case_match. Qed.

Lemma max_ge_r a b : is_nan b = false -> fle b (math_max a b) = true.
Proof.
  intros Hb. unfold math_max, fgt. destruct (flt b a) eqn:E; auto with f32.
Qed.

Lemma min_le_r a b : is_nan b = false -> fle (math_min a b) b = true.
Proof.
  intros Hb. unfold math_min. destruct (flt a b) eqn:E; auto with f32.
Qed.

(** [math::min] and [math::max] drop a NaN in their first argument. *)
Lemma max_nan_l b : math_max fnan b = b.
Proof. unfold math_max, fgt. by autorewrite with f32. Qed.

Lemma min_nan_l b : math_min fnan b = b.
Proof. unfold math_min. by autorewrite with f32. Qed.

#[export] Hint Rewrite constrain_nan max_nan_l min_nan_l : f32.

(** ** Values

    A [float] of the machine is a [valid_binary] value; one times it is the value itself. *)

Definition is_f32 (x : f32) : Prop := valid_binary 24 128 x = true.

Lemma fmul_1_l x : is_f32 x -> fmul f1 x = x.
Proof.
  destruct x as [s|s| |s m e]; [by destruct s|by destruct s|done|]. intros Hv.
  unfold is_f32 in Hv. cbn [valid_binary] in Hv. unfold bounded, canonical_mantissa in Hv.
  apply andb_true_iff in Hv as [Hc Hb]. apply Z.eqb_eq in Hc.
  change f1 with (S754_finite false 8388608 (-23)). unfold fmul, SFmul.
  change (8388608 * m)%positive with (m~0~0~0~0~0~0~0~0~0~0~0~0~0~0~0~0~0~0~0~0~0~0~0)%positive.
  unfold binary_round_aux, shr_fexp.
  assert (Hd : Zdigits2 (Z.pos m~0~0~0~0~0~0~0~0~0~0~0~0~0~0~0~0~0~0~0~0~0~0~0) =
               Z.pos (digits2_pos m) + 23).
  { cbn [Zdigits2 digits2_pos]. lia. }
  rewrite Hd. replace (Z.pos (digits2_pos m) + 23 + (-23 + e)) with (Z.pos (digits2_pos m) + e) by lia.
  rewrite Hc. replace (e - (-23 + e)) with 23 by lia.
  cbn [shr_record_of_loc shr SpecFloat.iter_pos shr_1 orb loc_of_shr_record shr_m round_nearest_even Zdigits2].
  replace (-23 + e + 23) with e by lia. rewrite Hc, Z.sub_diag. cbn [shr shr_m].
  by rewrite Hb, xorb_false_l.
Qed.

Lemma fadd_zero_r x s : PX4_ISFINITE x = true -> SFcompare (fadd x (S754_zero s)) x = Some Eq.
Proof.
  destruct x as [[]|[]| |b m e]; try done; destruct s; try done; intros _; simpl;
    rewrite Z.compare_refl; change (Pos.compare_cont Eq m m) with (m ?= m)%positive;
    rewrite Pos.compare_refl; by destruct b.
Qed.

Lemma fadd_zero_finite x s : PX4_ISFINITE (fadd x (S754_zero s)) = PX4_ISFINITE x.
Proof. by destruct x as [[]|[]| |], s. Qed.

Lemma fmul_zero_finite x s : PX4_ISFINITE x = true -> exists s', fmul (S754_zero s) x = S754_zero s'.
Proof. destruct x; try done; intros _; eexists; reflexivity. Qed.

Lemma fmul_finite_zero x s : PX4_ISFINITE x = true -> exists s', fmul x (S754_zero s) = S754_zero s'.
Proof. destruct x; try done; intros _; eexists; reflexivity. Qed.

Lemma feq_fle_r x y z : SFcompare x y = Some Eq -> fle z y = true -> fle z x = true.
Proof.
  intros E H. apply (SFcompare_trans_le z y x); [done|]. unfold fle, SFleb.
  rewrite SFcompare_swap. by rewrite E.
Qed.

Lemma feq_fle_l x y z : SFcompare x y = Some Eq -> fle y z = true -> fle x z = true.
Proof.
  intros E H. apply (SFcompare_trans_le x y z); [|done]. unfold fle, SFleb. by rewrite E.
Qed.

(** ** Rounding never makes a NaN *)

Lemma iter_pos_inv {A} (P : A -> Prop) (f : A -> A) n : forall x,
  (forall x, P x -> P (f x)) -> P x -> P (SpecFloat.iter_pos f n x).
Proof. induction n; intros x Hf Hx; simpl; auto. Qed.

Lemma shr_fexp_nonneg m e l : 0 <= m -> 0 <= shr_m (fst (shr_fexp 24 128 m e l)).
Proof.
  intros Hm. unfold shr_fexp, shr.
  assert (H0 : 0 <= shr_m (shr_record_of_loc m l)) by (by destruct l as [|[]]).
  destruct (_ - _); [done| |done]. apply (iter_pos_inv (fun r => 0 <= shr_m r)); [|done].
  intros [k r s] Hk. cbn [shr_m] in Hk. destruct k as [|[]|]; simpl; lia.
Qed.

Lemma binary_round_aux_num sx mx ex lx :
  0 <= mx -> is_nan (binary_round_aux 24 128 sx mx ex lx) = false.
Proof.
  intros Hm. unfold binary_round_aux. pose proof (shr_fexp_nonneg mx ex lx Hm) as H1.
  destruct (shr_fexp 24 128 mx ex lx) as [r1 e1]. cbn [fst] in H1.
  assert (H2 : 0 <= round_nearest_even (shr_m r1) (loc_of_shr_record r1)).
  { unfold round_nearest_even. destruct (loc_of_shr_record r1) as [|[]];
      [lia|destruct (Z.even _); lia|lia|lia]. }
  pose proof (shr_fexp_nonneg _ e1 loc_Exact H2) as H3.
  destruct (shr_fexp 24 128 (round_nearest_even (shr_m r1) (loc_of_shr_record r1)) e1 loc_Exact) as [r2 e2].
  cbn [fst] in H3. destruct (shr_m r2); [done|by destruct (_ <=? _)|lia].
Qed.

Lemma binary_round_num sx m e : is_nan (binary_round 24 128 sx m e) = false.
Proof. unfold binary_round. destruct (shl_align _ _ _). by apply binary_round_aux_num. Qed.

Lemma f32_of_Z_num z : is_nan (f32_of_Z z) = false.
Proof. destruct z; [done|apply binary_round_num|apply binary_round_num]. Qed.

(** A finite non-zero factor keeps a number a number. *)
Lemma fmul_num x s m e : is_nan x = false -> is_nan (fmul x (S754_finite s m e)) = false.
Proof. destruct x; try done. intros _. by apply binary_round_aux_num. Qed.

(** ** Integers as floats *)

Lemma digits2_bounds m : 2 ^ (Z.pos (digits2_pos m) - 1) <= Z.pos m < 2 ^ Z.pos (digits2_pos m).
Proof.
  induction m as [m IH|m IH|]; cbn [digits2_pos]; [| |done];
    rewrite Pos2Z.inj_succ; replace (Z.succ (Z.pos (digits2_pos m)) - 1) with (Z.succ (Z.pos (digits2_pos m) - 1)) by lia;
    rewrite !Z.pow_succ_r by lia; lia.
Qed.

Lemma shr_1_half r : 0 <= shr_m r -> shr_m (shr_1 r) = shr_m r / 2.
Proof.
  destruct r as [k r s]. cbn [shr_m]. destruct k as [|[m|m|]|]; intros H; cbn [shr_1 shr_m]; try done.
  - rewrite Pos2Z.inj_xI. apply Z.div_unique with 1; lia.
  - rewrite Pos2Z.inj_xO. apply Z.div_unique with 0; lia.
Qed.

Lemma shr_iter n : forall r, 0 <= shr_m r -> shr_m (SpecFloat.iter_pos shr_1 n r) = shr_m r / 2 ^ Z.pos n.
Proof.
  assert (forall r k, 0 <= r -> 0 <= k -> 0 <= r / 2 ^ k) as P by (intros; apply Z.div_pos; lia).
  induction n as [n IH|n IH|]; intros r H; cbn [SpecFloat.iter_pos].
  - assert (0 <= shr_m (shr_1 r)) by (rewrite shr_1_half by done; apply (P _ 1); lia).
    rewrite IH, IH, shr_1_half by (try done; rewrite IH by done; apply P; lia).
    rewrite !Z.div_div by lia. f_equal. rewrite Pos2Z.inj_xI, Z.pow_add_r, Z.mul_comm by lia.
    replace (2 * Z.pos n) with (Z.pos n + Z.pos n) by lia. rewrite Z.pow_add_r by lia. lia.
  - rewrite IH, IH by (try done; rewrite IH by done; apply P; lia).
    rewrite Z.div_div by lia. f_equal. rewrite <- Z.pow_add_r by lia. f_equal. lia.
  - rewrite shr_1_half by done. done.
Qed.

(** Shifting to 24 digits leaves something. *)
Lemma shr_fexp_pos m e l : 0 < m -> -149 <= e -> 0 < shr_m (fst (shr_fexp 24 128 m e l)) /\ e <= snd (shr_fexp 24 128 m e l).
Proof.
  intros Hm He. unfold shr_fexp, shr.
  assert (H0 : shr_m (shr_record_of_loc m l) = m) by (by destruct l as [|[]]).
  destruct m as [|m|]; [lia| |lia]. cbn [Zdigits2].
  pose proof (digits2_bounds m) as B.
  destruct (fexp 24 128 (Z.pos (digits2_pos m) + e) - e) as [|n|n] eqn:E; cbn [fst snd]; [lia| |lia].
  split; [|lia]. rewrite shr_iter by lia. rewrite H0.
  assert (Z.pos n < Z.pos (digits2_pos m)) as N.
  { unfold fexp, emin in E. lia. }
  apply Z.div_str_pos. split; [lia|]. etransitivity; [|apply B]. apply Z.pow_le_mono_r; lia.
Qed.

(** Rounding a positive number gives a positive number that is not smaller in magnitude. *)
Lemma binary_round_aux_pos mx ex :
  0 < mx -> -149 <= ex ->
  match binary_round_aux 24 128 false mx ex loc_Exact with
  | S754_finite s m e => s = false /\ ex <= e
  | S754_infinity s => s = false
  | _ => False
  end.
Proof.
  intros Hm He. unfold binary_round_aux. pose proof (shr_fexp_pos mx ex loc_Exact Hm He) as [H1 E1].
  destruct (shr_fexp 24 128 mx ex loc_Exact) as [r1 e1]. cbn [fst snd] in *.
  assert (H2 : 0 < round_nearest_even (shr_m r1) (loc_of_shr_record r1)).
  { unfold round_nearest_even. destruct (loc_of_shr_record r1) as [|[]];
      [lia|destruct (Z.even _); lia|lia|lia]. }
  pose proof (shr_fexp_pos _ e1 loc_Exact H2 ltac:(lia)) as [H3 E3].
  destruct (shr_fexp 24 128 (round_nearest_even (shr_m r1) (loc_of_shr_record r1)) e1 loc_Exact) as [r2 e2].
  cbn [fst snd] in *. destruct (shr_m r2); [lia| |lia]. destruct (_ <=? _); [split; [done|lia]|done].
Qed.

Lemma one_le_finite m e : -23 < e -> fle f1 (S754_finite false m e) = true.
Proof.
  intros He. unfold fle. change f1 with (S754_finite false 8388608 (-23)). unfold SFleb, SFcompare.
  by rewrite (proj2 (Z.compare_lt_iff (-23) e) He).
Qed.

Lemma binary_round_aux_ge_1 mx ex :
  0 < mx -> -22 <= ex -> fle f1 (binary_round_aux 24 128 false mx ex loc_Exact) = true.
Proof.
  intros Hm He. pose proof (binary_round_aux_pos mx ex Hm ltac:(lia)) as P. revert P.
  destruct (binary_round_aux _ _ _ _ _ _) as [s|s| |s m e]; try done.
  - by intros ->.
  - intros [-> P]. apply one_le_finite. lia.
Qed.

(** A positive integer is at least one as a [float] too. *)
Lemma f32_of_Z_ge_1 z : 1 <= z -> fle f1 (f32_of_Z z) = true.
Proof.
  intros Hz. destruct (Z.eq_dec z 1) as [->|Hz1]; [reflexivity|].
  destruct z as [|m|]; [lia| |lia]. unfold f32_of_Z. cbn [binary_normalize]. unfold binary_round.
  change (fexp 24 128 (Z.pos (digits2_pos m) + 0)) with (Z.max (Z.pos (digits2_pos m) + 0 - 24) (-149)).
  assert (2 <= Z.pos (digits2_pos m)) as D by (destruct m; cbn [digits2_pos]; lia).
  unfold shl_align. destruct (_ - 0) as [|n|n] eqn:E; apply binary_round_aux_ge_1; lia.
Qed.

(** A duration of at least one unit that is limited to one unit is one. *)
Lemma constrain_to_1 v lo : fle f1 v = true -> fle lo f1 = true -> math_constrain v lo f1 = f1.
Proof.
  intros Hv Hl. destruct (fle_num _ _ Hv) as [H1 Hn]. destruct (fle_num _ _ Hl) as [Hlo _].
  unfold math_constrain, fgt. rewrite (flt_not_fle v lo), (SFcompare_trans_le lo f1 v) by done. cbn [negb].
  destruct (flt f1 v) eqn:F; [done|]. rewrite flt_not_fle in F by done. apply negb_false_iff in F.
  revert Hv F. change f1 with (S754_finite false 8388608 (-23)).
  destruct v as [| [] | |[] m e]; try done. unfold fle, SFleb, SFcompare.
  change (Pos.compare_cont Eq) with Pos.compare.
  rewrite (Z.compare_antisym (-23) e), (Pos.compare_antisym 8388608 m).
  destruct (Z.compare_spec (-23) e) as [<-| |]; try done.
  by destruct (Pos.compare_spec 8388608 m) as [<-| |].
Qed.
