(* ===== verification/Linalg.v ===== *)
(** * The matrix library: vectors, 3x3 matrices and quaternions

    src/src/lib/matrix is a template library over the scalar type.  The model keeps the
    template parameter: [Scalar] is the arithmetic the templates use and [ScalarOrd] the
    comparisons and literals, with an instance for [float] ([f32]) and one for exact
    rationals ([Q]).  The float instance is what the firmware computes; the rational one is
    the reference in which the algebraic laws of the routines are stated: the 3x3 inverse
    is an inverse, a quaternion rotates as its rotation matrix does and keeps lengths. *)
From Stdlib Require Import Floats.SpecFloat QArith Lqa Setoid.
From S2P Require Import Prelude Float32.

(** ** Scalars *)

Class Scalar (T : Type) := {
  s_zero : T;
  s_add : T -> T -> T;
  s_sub : T -> T -> T;
  s_mul : T -> T -> T;
  s_div : T -> T -> T;
  s_opp : T -> T;
  s_of_Z : Z -> T
}.

Class ScalarOrd (T : Type) := {
  s_abs : T -> T;
  s_lt : T -> T -> bool;
  s_finite : T -> bool;
  s_eps : T
}.

Declare Scope scalar_scope.
Delimit Scope scalar_scope with S.
Infix "+" := s_add : scalar_scope.
Infix "-" := s_sub : scalar_scope.
Infix "*" := s_mul : scalar_scope.
Infix "/" := s_div : scalar_scope.
Notation "- x" := (s_opp x) : scalar_scope.

#[export] Instance Scalar_f32 : Scalar f32 := {|
  s_zero := f0; s_add := fadd; s_sub := fsub; s_mul := fmul; s_div := fdiv; s_opp := fneg;
  s_of_Z := f32_of_Z
|}.

#[export] Instance ScalarOrd_f32 : ScalarOrd f32 := {|
  s_abs := fabs; s_lt := flt; s_finite := PX4_ISFINITE; s_eps := FLT_EPSILON
|}.

#[export] Instance Scalar_Q : Scalar Q := {|
  s_zero := 0%Q; s_add := Qplus; s_sub := Qminus; s_mul := Qmult; s_div := Qdiv; s_opp := Qopp;
  s_of_Z := inject_Z
|}.

#[export] Instance ScalarOrd_Q : ScalarOrd Q := {|
  s_abs := fun x => if Qle_bool 0 x then x else (- x)%Q;
  s_lt := fun x y => negb (Qle_bool y x);
  s_finite := fun _ => true;
  s_eps := 1 # 8388608
|}.

(** ** Vectors *)

Record vec2 (T : Type) := V2 { v2_x : T; v2_y : T }.
Record vec3 (T : Type) := V3 { v_x : T; v_y : T; v_z : T }.
Arguments V2 {T}. Arguments v2_x {T}. Arguments v2_y {T}.
Arguments V3 {T}. Arguments v_x {T}. Arguments v_y {T}. Arguments v_z {T}.

Definition v3_map {A B} (f : A -> B) (a : vec3 A) : vec3 B :=
  V3 (f (v_x a)) (f (v_y a)) (f (v_z a)).
Definition v3_map2 {A B C} (f : A -> B -> C) (a : vec3 A) (b : vec3 B) : vec3 C :=
  V3 (f (v_x a) (v_x b)) (f (v_y a) (v_y b)) (f (v_z a) (v_z b)).

Section Vectors.
Context {T : Type} `{Scalar T}.
Local Open Scope scalar_scope.
Implicit Types a b : vec3 T.

Definition v3_zero : vec3 T := V3 s_zero s_zero s_zero.
Definition v3_add a b : vec3 T := v3_map2 s_add a b.
Definition v3_sub a b : vec3 T := v3_map2 s_sub a b.
Definition v3_opp a : vec3 T := v3_map s_opp a.
Definition v3_emult a b : vec3 T := v3_map2 s_mul a b.
Definition v3_scale a (k : T) : vec3 T := v3_map (fun x => x * k) a.
Definition v3_divs a (k : T) : vec3 T := v3_scale a (s_of_Z 1 / k).

(** [Vector::dot] accumulates from zero. *)
Definition v3_dot a b : T :=
  s_zero + v_x a * v_x b + v_y a * v_y b + v_z a * v_z b.

Definition v3_cross a b : vec3 T :=
  V3 (v_y a * v_z b - v_z a * v_y b)
     (- v_x a * v_z b + v_z a * v_x b)
     (v_x a * v_y b - v_y a * v_x b).

Definition v2_add (a b : vec2 T) : vec2 T := V2 (v2_x a + v2_x b) (v2_y a + v2_y b).
Definition v2_sub (a b : vec2 T) : vec2 T := V2 (v2_x a - v2_x b) (v2_y a - v2_y b).
Definition v2_scale (a : vec2 T) (k : T) : vec2 T := V2 (v2_x a * k) (v2_y a * k).
Definition v2_divs (a : vec2 T) (k : T) : vec2 T := v2_scale a (s_of_Z 1 / k).
Definition v2_dot (a b : vec2 T) : T := s_zero + v2_x a * v2_x b + v2_y a * v2_y b.

End Vectors.

(** ** 3x3 matrices, by rows *)

Record mat3 (T : Type) := M3 {
  m00 : T; m01 : T; m02 : T;
  m10 : T; m11 : T; m12 : T;
  m20 : T; m21 : T; m22 : T
}.
Arguments M3 {T}.
Arguments m00 {T}. Arguments m01 {T}. Arguments m02 {T}.
Arguments m10 {T}. Arguments m11 {T}. Arguments m12 {T}.
Arguments m20 {T}. Arguments m21 {T}. Arguments m22 {T}.

Section Matrices.
Context {T : Type} `{Scalar T} `{ScalarOrd T}.
Local Open Scope scalar_scope.
Implicit Types A B : mat3 T.

Definition m3_zero : mat3 T :=
  M3 s_zero s_zero s_zero s_zero s_zero s_zero s_zero s_zero s_zero.

Definition m3_diag (d : vec3 T) : mat3 T :=
  M3 (v_x d) s_zero s_zero s_zero (v_y d) s_zero s_zero s_zero (v_z d).

Definition m3_identity : mat3 T := m3_diag (V3 (s_of_Z 1) (s_of_Z 1) (s_of_Z 1)).

Definition m3_add A B : mat3 T :=
  M3 (m00 A + m00 B) (m01 A + m01 B) (m02 A + m02 B)
     (m10 A + m10 B) (m11 A + m11 B) (m12 A + m12 B)
     (m20 A + m20 B) (m21 A + m21 B) (m22 A + m22 B).

Definition m3_transpose A : mat3 T :=
  M3 (m00 A) (m10 A) (m20 A) (m01 A) (m11 A) (m21 A) (m02 A) (m12 A) (m22 A).

Definition m3_scale A (k : T) : mat3 T :=
  M3 (m00 A * k) (m01 A * k) (m02 A * k) (m10 A * k) (m11 A * k) (m12 A * k)
     (m20 A * k) (m21 A * k) (m22 A * k).

(** The product accumulates from zero, column by column of the right factor. *)
Definition m3_vec A (v : vec3 T) : vec3 T :=
  V3 (s_zero + m00 A * v_x v + m01 A * v_y v + m02 A * v_z v)
     (s_zero + m10 A * v_x v + m11 A * v_y v + m12 A * v_z v)
     (s_zero + m20 A * v_x v + m21 A * v_y v + m22 A * v_z v).

Definition m3_mul A B : mat3 T :=
  let c0 := m3_vec A (V3 (m00 B) (m10 B) (m20 B)) in
  let c1 := m3_vec A (V3 (m01 B) (m11 B) (m21 B)) in
  let c2 := m3_vec A (V3 (m02 B) (m12 B) (m22 B)) in
  M3 (v_x c0) (v_x c1) (v_x c2) (v_y c0) (v_y c1) (v_y c2) (v_z c0) (v_z c1) (v_z c2).

Definition m3_trace A : T := s_zero + m00 A + m11 A + m22 A.

Definition m3_det A : T :=
  m00 A * (m11 A * m22 A - m21 A * m12 A) -
  m01 A * (m10 A * m22 A - m12 A * m20 A) +
  m02 A * (m10 A * m21 A - m11 A * m20 A).

(** [inv] of a 3x3 matrix; [None] is the return value false. *)
Definition inv3 A : option (mat3 T) :=
  let det := m3_det A in
  if s_lt (s_abs det) s_eps || negb (s_finite det) then None
  else
    let adj :=
      M3 (m11 A * m22 A - m21 A * m12 A)
         (m02 A * m21 A - m01 A * m22 A)
         (m01 A * m12 A - m02 A * m11 A)
         (m12 A * m20 A - m10 A * m22 A)
         (m00 A * m22 A - m02 A * m20 A)
         (m10 A * m02 A - m00 A * m12 A)
         (m10 A * m21 A - m20 A * m11 A)
         (m20 A * m01 A - m00 A * m21 A)
         (m00 A * m11 A - m10 A * m01 A) in
    Some (m3_scale adj (s_of_Z 1 / det)).

(** [SquareMatrix::I()]: the zero matrix when there is no inverse. *)
Definition m3_I A : mat3 T := default m3_zero (inv3 A).

End Matrices.

(** ** Quaternions *)

Record quat (T : Type) := Quat { q_0 : T; q_1 : T; q_2 : T; q_3 : T }.
Arguments Quat {T}.
Arguments q_0 {T}. Arguments q_1 {T}. Arguments q_2 {T}. Arguments q_3 {T}.

Section Quaternions.
Context {T : Type} `{Scalar T}.
Local Open Scope scalar_scope.
Implicit Types p q : quat T.

Definition quat_default : quat T := Quat (s_of_Z 1) s_zero s_zero s_zero.

Definition quat_mul q p : quat T :=
  Quat (q_0 q * q_0 p - q_1 q * q_1 p - q_2 q * q_2 p - q_3 q * q_3 p)
       (q_1 q * q_0 p + q_0 q * q_1 p - q_3 q * q_2 p + q_2 q * q_3 p)
       (q_2 q * q_0 p + q_3 q * q_1 p + q_0 q * q_2 p - q_1 q * q_3 p)
       (q_3 q * q_0 p - q_2 q * q_1 p + q_1 q * q_2 p + q_0 q * q_3 p).

Definition quat_scale q (k : T) : quat T := Quat (q_0 q * k) (q_1 q * k) (q_2 q * k) (q_3 q * k).

Definition quat_norm_squared q : T :=
  s_zero + q_0 q * q_0 q + q_1 q * q_1 q + q_2 q * q_2 q + q_3 q * q_3 q.

Definition quat_inversed q : quat T :=
  let normSq := quat_norm_squared q in
  Quat (q_0 q / normSq) (- q_1 q / normSq) (- q_2 q / normSq) (- q_3 q / normSq).

Definition rotateVector q (vec : vec3 T) : vec3 T :=
  let v := Quat s_zero (v_x vec) (v_y vec) (v_z vec) in
  let res := quat_mul (quat_mul q v) (quat_inversed q) in
  V3 (q_1 res) (q_2 res) (q_3 res).

(** [Dcm] constructed from a quaternion. *)
Definition dcm_of_quat q : mat3 T :=
  let a := q_0 q in let b := q_1 q in let c := q_2 q in let d := q_3 q in
  let two := s_of_Z 2 in
  let aa := a * a in let ab := a * b in let ac := a * c in let ad := a * d in
  let bb := b * b in let bc := b * c in let bd := b * d in
  let cc := c * c in let cd := c * d in let dd := d * d in
  M3 (aa + bb - cc - dd) (two * (bc - ad)) (two * (ac + bd))
     (two * (bc + ad)) (aa - bb + cc - dd) (two * (cd - ab))
     (two * (bd - ac)) (two * (ab + cd)) (aa - bb - cc + dd).

End Quaternions.

(** ** Norms and the quaternion of a matrix: square roots *)

Class ScalarRoot (T : Type) := {
  s_sqrt : T -> T;
  s_lit : Z -> Z -> T       (** the decimal literal n/d *)
}.

#[export] Instance ScalarRoot_f32 : ScalarRoot f32 := {| s_sqrt := fsqrt; s_lit := flit |}.

Section Roots.
Context {T : Type} `{Scalar T} `{ScalarOrd T} `{ScalarRoot T}.
Local Open Scope scalar_scope.

Definition v2_norm (a : vec2 T) : T := s_sqrt (v2_dot a a).
Definition v3_norm_squared (a : vec3 T) : T := v3_dot a a.
Definition v3_norm (a : vec3 T) : T := s_sqrt (v3_dot a a).
Definition v2_normalized (a : vec2 T) : vec2 T := v2_divs a (v2_norm a).
Definition v3_normalized (a : vec3 T) : vec3 T := v3_divs a (v3_norm a).

Definition quat_normalize (q : quat T) : quat T :=
  quat_scale q (s_of_Z 1 / s_sqrt (quat_norm_squared q)).

(** [Quaternion] constructed from a rotation matrix: the largest of the trace and the
    diagonal entries decides which component is the root. *)
Definition quat_of_dcm (R : mat3 T) : quat T :=
  let one := s_of_Z 1 in
  let half := s_lit 1 2 in
  let t := m3_trace R in
  if s_lt s_zero t then
    let t := s_sqrt (one + t) in
    let w := half * t in
    let t := half / t in
    Quat w ((m21 R - m12 R) * t) ((m02 R - m20 R) * t) ((m10 R - m01 R) * t)
  else if s_lt (m11 R) (m00 R) && s_lt (m22 R) (m00 R) then
    let t := s_sqrt (one + m00 R - m11 R - m22 R) in
    let x := half * t in
    let t := half / t in
    Quat ((m21 R - m12 R) * t) x ((m10 R + m01 R) * t) ((m02 R + m20 R) * t)
  else if s_lt (m22 R) (m11 R) then
    let t := s_sqrt (one - m00 R + m11 R - m22 R) in
    let y := half * t in
    let t := half / t in
    Quat ((m02 R - m20 R) * t) ((m10 R + m01 R) * t) y ((m21 R + m12 R) * t)
  else
    let t := s_sqrt (one - m00 R - m11 R + m22 R) in
    let z := half * t in
    let t := half / t in
    Quat ((m10 R - m01 R) * t) ((m02 R + m20 R) * t) ((m21 R + m12 R) * t) z.

End Roots.

(** ** Equality of exact vectors and matrices

    Rationals are compared up to [Qeq], and so are vectors and matrices of them. *)

Definition v3_eq (a b : vec3 Q) : Prop :=
  (v_x a == v_x b /\ v_y a == v_y b /\ v_z a == v_z b)%Q.

Definition m3_eq (A B : mat3 Q) : Prop :=
  ((m00 A == m00 B /\ m01 A == m01 B /\ m02 A == m02 B) /\
   (m10 A == m10 B /\ m11 A == m11 B /\ m12 A == m12 B) /\
   (m20 A == m20 B /\ m21 A == m21 B /\ m22 A == m22 B))%Q.

#[export] Instance v3_eq_equiv : Equivalence v3_eq.
Proof.
  split; unfold v3_eq.
  - intros a. repeat split; reflexivity.
  - intros a b (? & ? & ?). repeat split; by symmetry.
  - intros a b c (? & ? & ?) (? & ? & ?). repeat split; etransitivity; eassumption.
Qed.

#[export] Instance m3_eq_equiv : Equivalence m3_eq.
Proof.
  split; unfold m3_eq.
  - intros a. repeat split; reflexivity.
  - intros a b H. repeat split; symmetry; apply H.
  - intros a b c H1 H2. repeat split; etransitivity; first [apply H1 | apply H2].
Qed.

#[export] Instance m3_vec_proper : Proper (m3_eq ==> v3_eq ==> v3_eq) m3_vec.
Proof.
  intros A B ((a0&a1&a2)&(a3&a4&a5)&(a6&a7&a8)) u v (u0&u1&u2). unfold v3_eq, m3_vec; simpl.
  by rewrite a0, a1, a2, a3, a4, a5, a6, a7, a8, u0, u1, u2.
Qed.

#[export] Instance v3_add_proper : Proper (v3_eq ==> v3_eq ==> v3_eq) v3_add.
Proof.
  intros a b (?&?&?) c d (?&?&?). unfold v3_eq, v3_add, v3_map2; simpl.
  repeat split; by apply Qplus_comp.
Qed.

(** Unfolds the library's operations at [Q] and proves the componentwise equations. *)
Ltac exact_ring :=
  cbv [v3_eq m3_eq m3_mul m3_vec m3_scale m3_identity m3_diag m3_transpose m3_det m3_add
       v3_add v3_sub v3_scale v3_emult v3_map v3_map2 v3_cross v3_dot v3_opp
       dcm_of_quat quat_mul quat_norm_squared quat_scale
       v_x v_y v_z m00 m01 m02 m10 m11 m12 m20 m21 m22 q_0 q_1 q_2 q_3
       s_zero s_add s_sub s_mul s_opp s_of_Z Scalar_Q inject_Z];
  repeat split; ring.

(** ** The 3x3 inverse *)

Lemma inv3_inv (A B : mat3 Q) :
  inv3 A = Some B ->
  ~ (m3_det A == 0)%Q /\ m3_eq (m3_mul A B) m3_identity /\ m3_eq (m3_mul B A) m3_identity.
Proof.
  unfold inv3. cbn -[m3_det]. intros Hi.
  destruct (negb _ || _) eqn:E; [done|]. injection Hi as <-.
  assert (Hd : ~ (m3_det A == 0)%Q).
  { intros Hd. apply orb_false_iff in E as [E _]. apply negb_false_iff in E.
    apply Qle_bool_iff in E. destruct (Qle_bool 0 (m3_det A)); rewrite Hd in E; by apply E. }
  split; [done|]. clear E. revert Hd.
  destruct A as [a b c d e f g h i].
  cbv [v3_eq m3_eq m3_mul m3_vec m3_scale m3_identity m3_diag m3_det
       v_x v_y v_z m00 m01 m02 m10 m11 m12 m20 m21 m22
       s_zero s_add s_sub s_mul s_div s_opp s_of_Z Scalar_Q inject_Z].
  intros Hd. repeat split; by field.
Qed.

(** ** Quaternions and rotation matrices *)

Lemma dcm_orthogonal (q : quat Q) :
  m3_eq (m3_mul (dcm_of_quat q) (m3_transpose (dcm_of_quat q)))
        (m3_scale m3_identity (quat_norm_squared q * quat_norm_squared q)%Q).
Proof. exact_ring. Qed.

Lemma quat_norm_mul (p q : quat Q) :
  (quat_norm_squared (quat_mul p q) == quat_norm_squared p * quat_norm_squared q)%Q.
Proof. exact_ring. Qed.

(** The matrix of a product is the product of the matrices. *)
Lemma dcm_mul (p q : quat Q) :
  m3_eq (dcm_of_quat (quat_mul p q)) (m3_mul (dcm_of_quat p) (dcm_of_quat q)).
Proof. exact_ring. Qed.

Lemma rotateVector_dcm (q : quat Q) (v : vec3 Q) :
  ~ (quat_norm_squared q == 0)%Q ->
  v3_eq (v3_scale (rotateVector q v) (quat_norm_squared q)) (m3_vec (dcm_of_quat q) v).
Proof.
  intros Hq. unfold rotateVector, quat_inversed. revert Hq.
  cbv [v3_eq m3_vec dcm_of_quat quat_mul quat_norm_squared v3_scale v3_map
       v_x v_y v_z m00 m01 m02 m10 m11 m12 m20 m21 m22 q_0 q_1 q_2 q_3
       s_zero s_add s_sub s_mul s_div s_opp s_of_Z Scalar_Q inject_Z].
  intros Hq. repeat split; field; intros H0; apply Hq; (etransitivity; [|exact H0]); ring.
Qed.

Lemma dcm_dot (q : quat Q) (u v : vec3 Q) :
  (v3_dot (m3_vec (dcm_of_quat q) u) (m3_vec (dcm_of_quat q) v) ==
   quat_norm_squared q * quat_norm_squared q * v3_dot u v)%Q.
Proof. exact_ring. Qed.

Lemma v3_dot_scale (u v : vec3 Q) (k : Q) :
  (v3_dot (v3_scale u k) (v3_scale v k) == k * k * v3_dot u v)%Q.
Proof. exact_ring. Qed.

#[export] Instance v3_dot_proper : Proper (v3_eq ==> v3_eq ==> Qeq) v3_dot.
Proof.
  intros a b (a0&a1&a2) u v (u0&u1&u2). unfold v3_dot; simpl.
  by rewrite a0, a1, a2, u0, u1, u2.
Qed.

(** The 3x3 inverse in exact arithmetic: a result is a two-sided inverse, and there is none
    exactly when the determinant is smaller than [FLT_EPSILON] in magnitude. *)
Theorem inv3_spec (A : mat3 Q) :
  match inv3 A with
  | Some B => m3_eq (m3_mul A B) m3_identity /\ m3_eq (m3_mul B A) m3_identity
  | None => (s_abs (m3_det A) < s_eps)%Q
  end.
Proof.
  destruct (inv3 A) as [B|] eqn:E; [apply (inv3_inv A B E)|].
  unfold inv3 in E. cbn -[m3_det] in E. destruct (negb _ || _) eqn:E'; [|done].
  rewrite orb_false_r in E'. apply negb_true_iff in E'. cbn -[m3_det].
  apply Qnot_le_lt. intros Hle. apply Qle_bool_iff in Hle. congruence.
Qed.

(** A non-zero quaternion rotates: lengths and angles are kept. *)
Theorem rotateVector_isometry (q : quat Q) (u v : vec3 Q) :
  ~ (quat_norm_squared q == 0)%Q ->
  (v3_dot (rotateVector q u) (rotateVector q v) == v3_dot u v)%Q.
Proof.
  intros Hq. pose proof (dcm_dot q u v) as H.
  rewrite <- (rotateVector_dcm q u Hq), <- (rotateVector_dcm q v Hq), v3_dot_scale in H.
  refine (proj1 (Qmult_inj_l _ _ _ _) H).
  intros Hz. apply Qmult_integral in Hz. tauto.
Qed.

Lemma rotateVector_isometry_witness :
  (v3_dot (rotateVector (Quat 1 2 3 4) (V3 1 0 5)) (rotateVector (Quat 1 2 3 4) (V3 0 1 7))
   == v3_dot (V3 1 0 5) (V3 0 1 7))%Q.
Proof. apply rotateVector_isometry. vm_compute. discriminate. Defined.
