(* ===== verification/Eso.v ===== *)
(** * The linear extended state observers

    AttitudeESO (src/src/modules/eso_rate_control/ESORateControl/AttitudeESO.cpp) estimates
    the angular rate and the lumped disturbance from the measured rate and the applied
    input; PositionESO (src/src/modules/eso_pos_control/ESOPositionControl/PositionESO.cpp)
    estimates position, velocity and disturbance.  Both are Euler steps of a Luenberger
    observer whose gains place every pole at minus the bandwidth.  The classes are modelled
    over the scalar of the matrix library, so that the same term is what the firmware runs
    (at [f32]) and what the convergence theorems are about (at [Q]). *)
From S2P Require Import Prelude Float32 Linalg.

(** ** AttitudeESO *)

Record AttitudeESO (T : Type) := mkAttitudeESO {
  ae_bandwidth : vec3 T;
  ae_beta1 : vec3 T;
  ae_beta2 : vec3 T;
  z1_est_omega : vec3 T;
  z2_est_dist : vec3 T
}.
Arguments mkAttitudeESO {T}. Arguments ae_bandwidth {T}. Arguments ae_beta1 {T}.
Arguments ae_beta2 {T}. Arguments z1_est_omega {T}. Arguments z2_est_dist {T}.

(** ** PositionESO *)

Record PositionESO (T : Type) := mkPositionESO {
  pe_bw : vec3 T;
  pe_beta1 : vec3 T;
  pe_beta2 : vec3 T;
  pe_beta3 : vec3 T;
  pe_z1 : vec3 T;
  pe_z2 : vec3 T;
  pe_z3 : vec3 T
}.
Arguments mkPositionESO {T}. Arguments pe_bw {T}. Arguments pe_beta1 {T}.
Arguments pe_beta2 {T}. Arguments pe_beta3 {T}. Arguments pe_z1 {T}.
Arguments pe_z2 {T}. Arguments pe_z3 {T}.

Section Observers.
Context {T : Type} `{Scalar T}.

(** The constructor: beta1 = 2 w, beta2 = w^2, estimates at zero. *)
Definition AttitudeESO_new (wp_x wp_y wp_z : T) : AttitudeESO T :=
  let bandwidth := V3 wp_x wp_y wp_z in
  mkAttitudeESO bandwidth (v3_scale bandwidth (s_of_Z 2)) (v3_emult bandwidth bandwidth)
    v3_zero v3_zero.

Definition AttitudeESO_reset (eso : AttitudeESO T) : AttitudeESO T :=
  mkAttitudeESO (ae_bandwidth eso) (ae_beta1 eso) (ae_beta2 eso) v3_zero v3_zero.

(** One step; the returned disturbance estimate is the new [z2_est_dist]. *)
Definition AttitudeESO_update (eso : AttitudeESO T) (omega_meas u_input : vec3 T) (dt : T)
  : AttitudeESO T :=
  let err := v3_sub omega_meas (z1_est_omega eso) in
  let z1_dot := v3_add (v3_add u_input (z2_est_dist eso)) (v3_emult (ae_beta1 eso) err) in
  let z2_dot := v3_emult (ae_beta2 eso) err in
  mkAttitudeESO (ae_bandwidth eso) (ae_beta1 eso) (ae_beta2 eso)
    (v3_add (z1_est_omega eso) (v3_scale z1_dot dt))
    (v3_add (z2_est_dist eso) (v3_scale z2_dot dt)).

Definition PositionESO_setBandwidth (bw : vec3 T) (eso : PositionESO T) : PositionESO T :=
  mkPositionESO bw
    (v3_scale bw (s_of_Z 3))
    (v3_scale (v3_emult bw bw) (s_of_Z 3))
    (v3_emult (v3_emult bw bw) bw)
    (pe_z1 eso) (pe_z2 eso) (pe_z3 eso).

Definition PositionESO_reset (eso : PositionESO T) : PositionESO T :=
  mkPositionESO (pe_bw eso) (pe_beta1 eso) (pe_beta2 eso) (pe_beta3 eso)
    v3_zero v3_zero v3_zero.

(** The overload that starts from measurements. *)
Definition PositionESO_reset_to (pos_meas vel_meas : vec3 T) (eso : PositionESO T)
  : PositionESO T :=
  mkPositionESO (pe_bw eso) (pe_beta1 eso) (pe_beta2 eso) (pe_beta3 eso)
    pos_meas vel_meas v3_zero.

(** The default constructor: zero members, [reset], then the default bandwidth. *)
Definition PositionESO_new : PositionESO T :=
  PositionESO_setBandwidth (V3 (s_of_Z 8) (s_of_Z 8) (s_of_Z 4))
    (PositionESO_reset
       (mkPositionESO v3_zero v3_zero v3_zero v3_zero v3_zero v3_zero v3_zero)).

Definition PositionESO_update (eso : PositionESO T) (pos_meas u_control : vec3 T) (dt : T)
  : PositionESO T :=
  let err := v3_sub pos_meas (pe_z1 eso) in
  let z1_dot := v3_add (pe_z2 eso) (v3_emult (pe_beta1 eso) err) in
  let z2_dot := v3_add (v3_add (pe_z3 eso) u_control) (v3_emult (pe_beta2 eso) err) in
  let z3_dot := v3_emult (pe_beta3 eso) err in
  mkPositionESO (pe_bw eso) (pe_beta1 eso) (pe_beta2 eso) (pe_beta3 eso)
    (v3_add (pe_z1 eso) (v3_scale z1_dot dt))
    (v3_add (pe_z2 eso) (v3_scale z2_dot dt))
    (v3_add (pe_z3 eso) (v3_scale z3_dot dt)).

End Observers.

(** ** One axis at a time *)

Inductive axis := ax_x | ax_y | ax_z.

Definition proj {T} (i : axis) (v : vec3 T) : T :=
  match i with ax_x => v_x v | ax_y => v_y v | ax_z => v_z v end.

Lemma proj_map2 {A B C} (f : A -> B -> C) i a b :
  proj i (v3_map2 f a b) = f (proj i a) (proj i b).
Proof. by destruct i. Qed.

Lemma proj_map {A B} (f : A -> B) i a : proj i (v3_map f a) = f (proj i a).
Proof. by destruct i. Qed.

Lemma proj_zero {T} `{Scalar T} i : proj i v3_zero = s_zero.
Proof. by destruct i. Qed.

(** ** NaN in the observer

    A rate that is not a number enters the estimates of its axis and stays there: no later
    measurement, input or time step removes it; only [reset] does. *)

Fixpoint AttitudeESO_runs (eso : AttitudeESO f32) (ins : list (vec3 f32 * vec3 f32 * f32))
  : AttitudeESO f32 :=
  match ins with
  | [] => eso
  | (w, u, dt) :: rest => AttitudeESO_runs (AttitudeESO_update eso w u dt) rest
  end.

Definition att_poisoned (i : axis) (eso : AttitudeESO f32) : Prop :=
  proj i (z1_est_omega eso) = fnan /\ proj i (z2_est_dist eso) = fnan.

Ltac eso_axis :=
  cbn -[proj v3_map v3_map2]; unfold v3_add, v3_sub, v3_emult, v3_scale;
  repeat rewrite ?proj_map2, ?proj_map; cbn -[proj].

Lemma att_update_poisons i eso w u dt :
  proj i w = fnan \/ proj i (z1_est_omega eso) = fnan ->
  att_poisoned i (AttitudeESO_update eso w u dt).
Proof.
  intros Hn. split; eso_axis; destruct Hn as [-> | ->];
    repeat (autorewrite with f32; unfold fnan); done.
Qed.

Lemma att_runs_poisoned i ins : forall eso,
  att_poisoned i eso -> att_poisoned i (AttitudeESO_runs eso ins).
Proof.
  induction ins as [|[[w u] dt] ins IH]; intros eso He; [done|].
  apply IH, att_update_poisons. right. apply He.
Qed.

Lemma att_reset_clean i eso :
  proj i (z1_est_omega (AttitudeESO_reset eso)) = f0 /\
  proj i (z2_est_dist (AttitudeESO_reset eso)) = f0.
Proof. by destruct i. Qed.

(** All three components are not a number. *)
Definition all_nan (v : vec3 f32) : Prop := forall i, proj i v = fnan.

(** All three components are finite. *)
Definition finite3 (v : vec3 f32) : Prop := forall i, PX4_ISFINITE (proj i v) = true.
