(* ===== verification/EsoSpec.v ===== *)
(** * Convergence of the observers in exact arithmetic

    The plant is the Euler discretisation of the model the observers are designed for: the
    measured quantity integrates the applied input plus a constant disturbance.  In exact
    arithmetic the estimation errors of one axis are then a cascade of first-order systems
    with the common factor [1 - w dt], where [w] is the bandwidth of the axis.  A cascade of
    such systems tends to zero when the factor is smaller than one in magnitude, which is
    the condition [0 < w dt < 2]; outside it the error of one more system does not. *)
From Stdlib Require Import QArith Qabs Qround Lqa Setoid.
From S2P Require Import Prelude Float32 Linalg Eso.
Local Open Scope Q_scope.

(** ** Sequences of rationals that tend to zero *)

Definition tends_to_zero (f : nat -> Q) : Prop :=
  forall eps, 0 < eps -> exists N, forall n, (N <= n)%nat -> Qabs (f n) <= eps.

Fixpoint qpow (q : Q) (n : nat) : Q := match n with O => 1 | S n => q * qpow q n end.

Lemma qpow_nonneg q n : 0 <= q -> 0 <= qpow q n.
Proof. intros Hq. induction n as [|n IH]; simpl; [lra|]. by apply Qmult_le_0_compat. Qed.

Lemma Qabs_nonneg_le x y : Qabs x <= y -> 0 <= y.
Proof. pose proof (Qabs_nonneg x). lra. Qed.

(** Bernoulli's inequality for a factor below one. *)
Lemma qpow_bernoulli d n :
  0 <= d -> d <= 1 -> qpow (1 - d) n * (1 + inject_Z (Z.of_nat n) * d) <= 1.
Proof.
  intros Hd Hd1. induction n as [|n IH]; [change (inject_Z (Z.of_nat 0)) with 0; simpl; lra|].
  cbn [qpow]. rewrite Nat2Z.inj_succ. unfold Z.succ. rewrite inject_Z_plus.
  pose proof (qpow_nonneg (1 - d) n ltac:(lra)) as Hp.
  assert (Hn : 0 <= inject_Z (Z.of_nat n)) by (change 0 with (inject_Z 0); rewrite <- Zle_Qle; lia).
  set (p := qpow (1 - d) n) in *. set (k := inject_Z (Z.of_nat n)) in *.
  change (inject_Z 1) with 1.
  assert (E : (1 - d) * p * (1 + (k + 1) * d) == p * (1 + k * d) - p * ((k + 1) * (d * d))) by ring.
  rewrite E.
  assert (0 <= p * ((k + 1) * (d * d))) by (repeat apply Qmult_le_0_compat; lra).
  lra.
Qed.

Lemma qpow_tends_to_zero b : 0 <= b -> b < 1 -> tends_to_zero (qpow b).
Proof.
  intros Hb Hb1 eps Heps. set (d := 1 - b).
  assert (Hd : 0 < d) by (unfold d; lra).
  exists (Z.to_nat (Qceiling (1 / (eps * d)))). intros n Hn.
  assert (Hn' : 1 / (eps * d) <= inject_Z (Z.of_nat n)).
  { eapply Qle_trans; [apply Qle_ceiling|]. rewrite <- Zle_Qle. lia. }
  assert (Hed : 0 < eps * d) by (apply Qmult_lt_0_compat; lra).
  assert (Hk : 1 <= inject_Z (Z.of_nat n) * (eps * d)).
  { apply Qmult_le_compat_r with (z := eps * d) in Hn'; [|lra].
    unfold Qdiv in Hn'. rewrite Qmult_1_l, Qmult_comm, Qmult_inv_r in Hn'; lra. }
  pose proof (qpow_bernoulli d n ltac:(lra) ltac:(unfold d; lra)) as HB.
  pose proof (qpow_nonneg b n Hb) as Hp.
  rewrite Qabs_pos by done.
  assert (Ed : qpow (1 - d) n == qpow b n).
  { clear. induction n as [|n IH]; simpl; [reflexivity|]. rewrite IH. unfold d. ring. }
  rewrite Ed in HB. set (p := qpow b n) in *. set (k := inject_Z (Z.of_nat n)) in *.
  assert (Hpk : p * (k * d) <= 1) by lra.
  apply Qmult_le_l with (z := k * d); [|].
  - destruct (Qlt_le_dec 0 (k * d)) as [|Hc]; [done|]. exfalso.
    assert (k * (eps * d) == eps * (k * d)) as E by ring. rewrite E in Hk.
    assert (0 <= eps * - (k * d)) by (apply Qmult_le_0_compat; lra). lra.
  - assert (k * d * eps == k * (eps * d)) as -> by ring. lra.
Qed.

Lemma tends_to_zero_ext f g :
  (forall n, f n == g n) -> tends_to_zero f -> tends_to_zero g.
Proof.
  intros E Hf eps Heps. destruct (Hf eps Heps) as [N HN]. exists N. intros n Hn.
  rewrite <- E. auto.
Qed.

Lemma tends_to_zero_scale k f : tends_to_zero f -> tends_to_zero (fun n => k * f n).
Proof.
  intros Hf eps Heps. pose proof (Qabs_nonneg k) as Hk.
  destruct (Hf (eps / (Qabs k + 1))) as [N HN].
  { apply Qlt_shift_div_l; lra. }
  exists N. intros n Hn. rewrite Qabs_Qmult. specialize (HN n Hn).
  assert (Hq : eps == eps / (Qabs k + 1) * (Qabs k + 1)) by (field; lra).
  rewrite Hq at 1. set (e := eps / (Qabs k + 1)) in *.
  pose proof (Qabs_nonneg (f n)).
  eapply Qle_trans; [apply Qmult_le_compat_r with (z := Qabs (f n)); [|lra]|].
  - instantiate (1 := Qabs k + 1). lra.
  - rewrite (Qmult_comm (Qabs k + 1)). apply Qmult_le_compat_r; lra.
Qed.

Lemma tends_to_zero_add f g :
  tends_to_zero f -> tends_to_zero g -> tends_to_zero (fun n => f n + g n).
Proof.
  intros Hf Hg eps Heps.
  destruct (Hf (eps * (1 # 2))) as [N1 H1]; [lra|]. destruct (Hg (eps * (1 # 2))) as [N2 H2]; [lra|].
  exists (Nat.max N1 N2). intros n Hn. eapply Qle_trans; [apply Qabs_triangle|].
  specialize (H1 n ltac:(lia)). specialize (H2 n ltac:(lia)). lra.
Qed.

(** A first-order system with a factor below one forgets its input and its start: driven by
    a sequence that tends to zero it tends to zero. *)
Lemma cascade_bounded b (x : nat -> Q) K delta :
  0 <= b ->
  (forall j, Qabs (x (S (K + j))) <= b * Qabs (x (K + j)%nat) + (1 - b) * delta) ->
  forall j, Qabs (x (K + j)%nat) <= qpow b j * Qabs (x K) + delta - qpow b j * delta.
Proof.
  intros Hb Hx j. induction j as [|j IH].
  - rewrite Nat.add_0_r. simpl. lra.
  - rewrite Nat.add_succ_r. eapply Qle_trans; [apply Hx|]. cbn [qpow].
    set (p := qpow b j) in *. set (X := Qabs (x (K + j)%nat)) in *. set (X0 := Qabs (x K)) in *.
    assert (b * X <= b * (p * X0 + delta - p * delta)) as Hm.
    { rewrite !(Qmult_comm b). by apply Qmult_le_compat_r. }
    assert (E : b * (p * X0 + delta - p * delta) + (1 - b) * delta ==
                b * p * X0 + delta - b * p * delta) by ring.
    rewrite <- E. lra.
Qed.

Lemma cascade_tends_to_zero a (x y : nat -> Q) :
  Qabs a < 1 -> tends_to_zero y ->
  (forall n, x (S n) == a * x n + y n) -> tends_to_zero x.
Proof.
  intros Ha Hy Hx eps Heps. set (b := Qabs a) in *. pose proof (Qabs_nonneg a) as Hb.
  fold b in Hb.
  destruct (Hy ((1 - b) * (eps * (1 # 2)))) as [K HK]; [apply Qmult_lt_0_compat; lra|].
  pose proof (tends_to_zero_scale (Qabs (x K)) _ (qpow_tends_to_zero b Hb Ha)) as Hp.
  destruct (Hp (eps * (1 # 2))) as [J HJ]; [lra|].
  exists (K + J)%nat. intros n Hn. replace n with (K + (n - K))%nat by lia.
  set (j := (n - K)%nat).
  pose proof (cascade_bounded b x K (eps * (1 # 2)) Hb) as Hc.
  eapply Qle_trans; [apply Hc|].
  - intros i. rewrite Hx. eapply Qle_trans; [apply Qabs_triangle|]. rewrite Qabs_Qmult.
    specialize (HK (K + i)%nat ltac:(lia)). fold b. lra.
  - specialize (HJ j ltac:(unfold j; lia)). pose proof (qpow_nonneg b j Hb) as Hq.
    assert (Hq' : 0 <= qpow b j * (eps * (1 # 2))) by (apply Qmult_le_0_compat; lra).
    pose proof (Qle_Qabs (Qabs (x K) * qpow b j)) as HA.
    rewrite (Qmult_comm (qpow b j)). lra.
Qed.

Lemma geometric_tends_to_zero a (x : nat -> Q) :
  Qabs a < 1 -> (forall n, x (S n) == a * x n) -> tends_to_zero x.
Proof.
  intros Ha Hx. apply (cascade_tends_to_zero a x (fun _ => 0)); [done| |].
  - intros eps Heps. exists O. intros n _. rewrite Qabs_pos; lra.
  - intros n. rewrite Hx. ring.
Qed.

(** Outside the stable range a first-order system keeps away from zero. *)
Lemma geometric_stays a (x : nat -> Q) :
  1 <= Qabs a -> (forall n, x (S n) == a * x n) -> ~ x O == 0 -> ~ tends_to_zero x.
Proof.
  intros Ha Hx H0 Ht.
  assert (Hpos : 0 < Qabs (x O)).
  { destruct (Qlt_le_dec 0 (Qabs (x O))) as [|Hc]; [done|]. exfalso. apply H0.
    pose proof (Qabs_nonneg (x O)). apply Qabs_Qle_condition in Hc. lra. }
  assert (Hge : forall n, Qabs (x O) <= Qabs (x n)).
  { intros n. induction n as [|n IH]; [lra|]. rewrite Hx, Qabs_Qmult.
    pose proof (Qabs_nonneg (x n)) as Hn.
    eapply Qle_trans; [exact IH|]. rewrite <- (Qmult_1_l (Qabs (x n))) at 1.
    by apply Qmult_le_compat_r. }
  destruct (Ht (Qabs (x O) * (1 # 2))) as [N HN]; [lra|]. specialize (HN N ltac:(lia)).
  specialize (Hge N). lra.
Qed.

Lemma pole_stable w dt : 0 < w * dt -> w * dt < 2 -> Qabs (1 - w * dt) < 1.
Proof.
  intros H1 H2. apply Qabs_Qlt_condition. lra.
Qed.

Lemma pole_unstable w dt : w * dt <= 0 \/ 2 <= w * dt -> 1 <= Qabs (1 - w * dt).
Proof.
  intros [H|H].
  - pose proof (Qle_Qabs (1 - w * dt)). lra.
  - rewrite <- Qabs_opp. pose proof (Qle_Qabs (- (1 - w * dt))). lra.
Qed.

(** ** The attitude observer *)

(** The gains of the constructor; [reset] and [update] do not touch them. *)
Definition att_tuned (eso : AttitudeESO Q) : Prop :=
  ae_beta1 eso = v3_scale (ae_bandwidth eso) (s_of_Z 2) /\
  ae_beta2 eso = v3_emult (ae_bandwidth eso) (ae_bandwidth eso).

Lemma att_tuned_new x y z : att_tuned (AttitudeESO_new x y z).
Proof. done. Qed.

Section AttitudePlant.
Variables (u : nat -> vec3 Q) (d : vec3 Q) (dt : Q) (eso0 : AttitudeESO Q) (omega0 : vec3 Q).

(** Observer and plant after [n] steps: the plant integrates the input plus [d]. *)
Fixpoint att_sim (n : nat) : AttitudeESO Q * vec3 Q :=
  match n with
  | O => (eso0, omega0)
  | S n =>
      let '(eso, omega) := att_sim n in
      (AttitudeESO_update eso omega (u n) dt, v3_add omega (v3_scale (v3_add (u n) d) dt))
  end.

Definition att_err_rate (i : axis) (n : nat) : Q :=
  proj i (snd (att_sim n)) - proj i (z1_est_omega (fst (att_sim n))).

Definition att_err_dist (i : axis) (n : nat) : Q :=
  proj i d - proj i (z2_est_dist (fst (att_sim n))).

(** The combined error that decays on its own. *)
Definition att_err_slow (i : axis) (n : nat) : Q :=
  att_err_dist i n - proj i (ae_bandwidth eso0) * att_err_rate i n.

Lemma att_sim_gains n :
  ae_bandwidth (fst (att_sim n)) = ae_bandwidth eso0 /\
  ae_beta1 (fst (att_sim n)) = ae_beta1 eso0 /\
  ae_beta2 (fst (att_sim n)) = ae_beta2 eso0.
Proof.
  induction n as [|n IH]; [done|]. cbn [att_sim]. by destruct (att_sim n) as [eso omega].
Qed.

Lemma att_err_step i n :
  att_tuned eso0 ->
  let w := proj i (ae_bandwidth eso0) in
  att_err_rate i (S n) == (1 - w * dt) * att_err_rate i n + dt * att_err_slow i n /\
  att_err_slow i (S n) == (1 - w * dt) * att_err_slow i n.
Proof.
  intros [H1 H2] w. unfold att_err_slow, att_err_rate, att_err_dist.
  pose proof (att_sim_gains n) as (_ & G1 & G2). cbn [att_sim].
  destruct (att_sim n) as [eso omega]. cbn [fst snd] in *.
  eso_axis. rewrite G1, G2, H1, H2. eso_axis. unfold w, inject_Z. split; ring.
Qed.

Lemma att_errors_vanish i :
  att_tuned eso0 -> Qabs (1 - proj i (ae_bandwidth eso0) * dt) < 1 ->
  tends_to_zero (att_err_rate i) /\ tends_to_zero (att_err_dist i).
Proof.
  intros Ht Ha. pose proof (fun n => att_err_step i n Ht) as Hs. cbv zeta in Hs.
  set (w := proj i (ae_bandwidth eso0)) in *.
  assert (Hslow : tends_to_zero (att_err_slow i)).
  { apply (geometric_tends_to_zero (1 - w * dt)); [done|]. intros n. apply Hs. }
  assert (Hrate : tends_to_zero (att_err_rate i)).
  { apply (cascade_tends_to_zero (1 - w * dt) _ (fun n => dt * att_err_slow i n));
      [done|by apply tends_to_zero_scale|]. intros n. apply Hs. }
  split; [done|].
  apply (tends_to_zero_ext (fun n => att_err_slow i n + w * att_err_rate i n)).
  - intros n. unfold att_err_slow. fold w. ring.
  - by apply tends_to_zero_add, tends_to_zero_scale.
Qed.

Lemma att_errors_persist i :
  att_tuned eso0 -> 1 <= Qabs (1 - proj i (ae_bandwidth eso0) * dt) ->
  ~ att_err_slow i 0 == 0 ->
  ~ (tends_to_zero (att_err_rate i) /\ tends_to_zero (att_err_dist i)).
Proof.
  intros Ht Ha H0 [Hr Hd]. set (w := proj i (ae_bandwidth eso0)) in *.
  apply (geometric_stays (1 - w * dt) (att_err_slow i)); [done| |done|].
  - intros n. apply (att_err_step i n Ht).
  - apply (tends_to_zero_ext (fun n => att_err_dist i n + - w * att_err_rate i n)).
    + intros n. unfold att_err_slow. fold w. ring.
    + by apply tends_to_zero_add, tends_to_zero_scale.
Qed.

End AttitudePlant.

(** From rest and with a disturbance on every axis, the combined error is not zero. *)
Lemma att_slow_start dt x y z i :
  ~ att_err_slow (fun _ => v3_zero) (V3 1 1 1) dt (AttitudeESO_new x y z) v3_zero i 0 == 0.
Proof.
  assert (att_err_slow (fun _ => v3_zero) (V3 1 1 1) dt (AttitudeESO_new x y z) v3_zero i 0 == 1) as ->; [|discriminate].
  unfold att_err_slow, att_err_dist, att_err_rate. cbn [att_sim fst snd]. destruct i; cbn; ring.
Qed.

(** C28 (liveness). The attitude ESO with bandwidth [w] on an axis and the gains that belong to it tracks a
    rate that integrates the input plus a constant disturbance (the plant discretised by the
    Euler method with the same time step, exact arithmetic): its errors of the rate and of the
    disturbance tend to zero for all inputs, disturbances and starts of the observer and of the
    plant, exactly when 0 < w dt < 2. *)
Theorem att_eso_converges_iff (bw : vec3 Q) (dt : Q) (i : axis) :
  (forall (u : nat -> vec3 Q) (d : vec3 Q) (eso0 : AttitudeESO Q) (omega0 : vec3 Q),
     att_tuned eso0 -> ae_bandwidth eso0 = bw ->
     tends_to_zero (att_err_rate u d dt eso0 omega0 i) /\ tends_to_zero (att_err_dist u d dt eso0 omega0 i)) <->
  (0 < proj i bw * dt /\ proj i bw * dt < 2).
Proof.
  split.
  - intros Hz.
    pose proof (Hz (fun _ => v3_zero) (V3 1 1 1) (AttitudeESO_new (v_x bw) (v_y bw) (v_z bw)) v3_zero
      (att_tuned_new _ _ _) ltac:(by destruct bw)) as H.
    destruct (Qlt_le_dec 0 (proj i bw * dt)) as [H1|H1];
      [destruct (Qlt_le_dec (proj i bw * dt) 2) as [H2|H2]; [done|]|];
      exfalso; (refine (att_errors_persist _ _ _ _ _ i (att_tuned_new _ _ _) _ _ H);
        [assert (ae_bandwidth (AttitudeESO_new (v_x bw) (v_y bw) (v_z bw)) = bw) as -> by (by destruct bw);
         apply pole_unstable; tauto|apply att_slow_start]).
  - intros [H1 H2] u d eso0 omega0 Ht <-. by apply att_errors_vanish, pole_stable.
Qed.

(** The default bandwidth of 30 rad/s at a rate loop of 250 Hz, from rest, with a
    disturbance of 2 rad/s^2 on the roll axis. *)
Lemma att_eso_converges_iff_witness :
  tends_to_zero (att_err_rate (fun _ => v3_zero) (V3 2 0 0) (1 # 250)
                   (AttitudeESO_new 30 30 30) v3_zero ax_x) /\
  tends_to_zero (att_err_dist (fun _ => v3_zero) (V3 2 0 0) (1 # 250)
                   (AttitudeESO_new 30 30 30) v3_zero ax_x).
Proof.
  apply (proj2 (att_eso_converges_iff (V3 30 30 30) (1 # 250) ax_x)); [by vm_compute|apply att_tuned_new|reflexivity].
Defined.

(** ** The position observer *)

Definition pos_tuned (eso : PositionESO Q) : Prop :=
  pe_beta1 eso = v3_scale (pe_bw eso) (s_of_Z 3) /\
  pe_beta2 eso = v3_scale (v3_emult (pe_bw eso) (pe_bw eso)) (s_of_Z 3) /\
  pe_beta3 eso = v3_emult (v3_emult (pe_bw eso) (pe_bw eso)) (pe_bw eso).

Lemma pos_tuned_set bw eso : pos_tuned (PositionESO_setBandwidth bw eso).
Proof. done. Qed.

Section PositionPlant.
Variables (u : nat -> vec3 Q) (d : vec3 Q) (dt : Q) (eso0 : PositionESO Q).
Variables (pos0 vel0 : vec3 Q).

(** Position integrates velocity, velocity integrates the input plus [d]. *)
Fixpoint pos_sim (n : nat) : PositionESO Q * (vec3 Q * vec3 Q) :=
  match n with
  | O => (eso0, (pos0, vel0))
  | S n =>
      let '(eso, (pos, vel)) := pos_sim n in
      (PositionESO_update eso pos (u n) dt,
       (v3_add pos (v3_scale vel dt), v3_add vel (v3_scale (v3_add (u n) d) dt)))
  end.

Definition pos_err1 (i : axis) (n : nat) : Q :=
  proj i (fst (snd (pos_sim n))) - proj i (pe_z1 (fst (pos_sim n))).
Definition pos_err2 (i : axis) (n : nat) : Q :=
  proj i (snd (snd (pos_sim n))) - proj i (pe_z2 (fst (pos_sim n))).
Definition pos_err3 (i : axis) (n : nat) : Q :=
  proj i d - proj i (pe_z3 (fst (pos_sim n))).

Definition pos_slow2 (i : axis) (n : nat) : Q :=
  pos_err2 i n - 2 * proj i (pe_bw eso0) * pos_err1 i n.
Definition pos_slow3 (i : axis) (n : nat) : Q :=
  let w := proj i (pe_bw eso0) in pos_err3 i n - w * pos_err2 i n + w * w * pos_err1 i n.

Lemma pos_sim_gains n :
  pe_beta1 (fst (pos_sim n)) = pe_beta1 eso0 /\
  pe_beta2 (fst (pos_sim n)) = pe_beta2 eso0 /\
  pe_beta3 (fst (pos_sim n)) = pe_beta3 eso0.
Proof.
  induction n as [|n IH]; [done|]. cbn [pos_sim]. by destruct (pos_sim n) as [eso [p v]].
Qed.

Lemma pos_err_step i n :
  pos_tuned eso0 ->
  let a := 1 - proj i (pe_bw eso0) * dt in
  pos_err1 i (S n) == a * pos_err1 i n + dt * pos_slow2 i n /\
  pos_slow2 i (S n) == a * pos_slow2 i n + dt * pos_slow3 i n /\
  pos_slow3 i (S n) == a * pos_slow3 i n.
Proof.
  intros (H1 & H2 & H3) a. unfold pos_slow3, pos_slow2, pos_err1, pos_err2, pos_err3.
  pose proof (pos_sim_gains n) as (G1 & G2 & G3). cbn [pos_sim].
  destruct (pos_sim n) as [eso [p v]]. cbn [fst snd] in *.
  eso_axis. rewrite G1, G2, G3, H1, H2, H3. eso_axis. unfold a, inject_Z.
  repeat split; ring.
Qed.

Lemma pos_errors_vanish i :
  pos_tuned eso0 -> Qabs (1 - proj i (pe_bw eso0) * dt) < 1 ->
  tends_to_zero (pos_err1 i) /\ tends_to_zero (pos_err2 i) /\ tends_to_zero (pos_err3 i).
Proof.
  intros Ht Ha. pose proof (fun n => pos_err_step i n Ht) as Hs. cbv zeta in Hs.
  set (w := proj i (pe_bw eso0)) in *.
  assert (H3 : tends_to_zero (pos_slow3 i)).
  { apply (geometric_tends_to_zero (1 - w * dt)); [done|]. intros n. apply Hs. }
  assert (H2 : tends_to_zero (pos_slow2 i)).
  { apply (cascade_tends_to_zero (1 - w * dt) _ (fun n => dt * pos_slow3 i n));
      [done|by apply tends_to_zero_scale|]. intros n. apply Hs. }
  assert (H1 : tends_to_zero (pos_err1 i)).
  { apply (cascade_tends_to_zero (1 - w * dt) _ (fun n => dt * pos_slow2 i n));
      [done|by apply tends_to_zero_scale|]. intros n. apply Hs. }
  assert (H2' : tends_to_zero (pos_err2 i)).
  { apply (tends_to_zero_ext (fun n => pos_slow2 i n + 2 * w * pos_err1 i n)).
    - intros n. unfold pos_slow2. fold w. ring.
    - by apply tends_to_zero_add, tends_to_zero_scale. }
  split; [done|]. split; [done|].
  apply (tends_to_zero_ext
           (fun n => pos_slow3 i n + (w * pos_err2 i n + - (w * w) * pos_err1 i n))).
  - intros n. unfold pos_slow3. fold w. ring.
  - apply tends_to_zero_add; [done|]. by apply tends_to_zero_add; apply tends_to_zero_scale.
Qed.

Lemma pos_errors_persist i :
  pos_tuned eso0 -> 1 <= Qabs (1 - proj i (pe_bw eso0) * dt) ->
  ~ pos_slow3 i 0 == 0 ->
  ~ (tends_to_zero (pos_err1 i) /\ tends_to_zero (pos_err2 i) /\ tends_to_zero (pos_err3 i)).
Proof.
  intros Ht Ha H0 (H1 & H2 & H3). set (w := proj i (pe_bw eso0)) in *.
  apply (geometric_stays (1 - w * dt) (pos_slow3 i)); [done| |done|].
  - intros n. apply (pos_err_step i n Ht).
  - apply (tends_to_zero_ext
             (fun n => pos_err3 i n + (- w * pos_err2 i n + w * w * pos_err1 i n))).
    + intros n. unfold pos_slow3. fold w. ring.
    + apply tends_to_zero_add; [done|]. by apply tends_to_zero_add; apply tends_to_zero_scale.
Qed.

End PositionPlant.

(** The position ESO with bandwidth w on an axis tracks position, velocity and a constant
    disturbance of that axis exactly when 0 < w dt < 2, for every input sequence (unless the
    combined error [pos_slow3] was zero from the start).  Exact arithmetic. *)
Theorem pos_eso_converges_iff (u : nat -> vec3 Q) (d : vec3 Q) (dt : Q)
    (eso0 : PositionESO Q) (pos0 vel0 : vec3 Q) (i : axis) :
  pos_tuned eso0 -> ~ pos_slow3 u d dt eso0 pos0 vel0 i 0 == 0 ->
  (tends_to_zero (pos_err1 u d dt eso0 pos0 vel0 i) /\
   tends_to_zero (pos_err2 u d dt eso0 pos0 vel0 i) /\
   tends_to_zero (pos_err3 u d dt eso0 pos0 vel0 i)) <->
  (0 < proj i (pe_bw eso0) * dt /\ proj i (pe_bw eso0) * dt < 2).
Proof.
  intros Ht H0. split; [|intros [H1 H2]; by apply pos_errors_vanish, pole_stable].
  intros Hz. destruct (Qlt_le_dec 0 (proj i (pe_bw eso0) * dt)) as [H1|H1];
    [destruct (Qlt_le_dec (proj i (pe_bw eso0) * dt) 2) as [H2|H2]; [done|]|];
    exfalso; refine (pos_errors_persist _ _ _ _ _ _ i Ht _ H0 Hz); apply pole_unstable; tauto.
Qed.

(** The default bandwidths at a position loop of 50 Hz, started from the measurements. *)
Lemma pos_eso_converges_iff_witness :
  let eso0 := PositionESO_reset_to (V3 1 2 (-3)) (V3 0 0 1) PositionESO_new in
  tends_to_zero (pos_err1 (fun _ => v3_zero) (V3 0 0 1) (1 # 50) eso0
                   (V3 1 2 (-3)) (V3 0 0 1) ax_z) /\
  tends_to_zero (pos_err2 (fun _ => v3_zero) (V3 0 0 1) (1 # 50) eso0
                   (V3 1 2 (-3)) (V3 0 0 1) ax_z) /\
  tends_to_zero (pos_err3 (fun _ => v3_zero) (V3 0 0 1) (1 # 50) eso0
                   (V3 1 2 (-3)) (V3 0 0 1) ax_z).
Proof.
  intros eso0. apply pos_eso_converges_iff; [done|vm_compute; discriminate|].
  by vm_compute.
Defined.
