(* ===== verification/Takeoff.v ===== *)
(** * The takeoff state machine

    systemlib::Hysteresis (src/src/lib/hysteresis/hysteresis.cpp) delays a switch by a time
    that depends on its direction; ESOTakeoff
    (src/src/modules/eso_pos_control/ESOTakeoff/Takeoff.cpp) uses it to hold the vehicle in
    spool-up after arming and ramps the climb limit before it declares flight.  Times are
    64-bit microseconds, the ramp is single precision. *)
From Stdlib Require Import Floats.SpecFloat.
From S2P Require Import Prelude Float32.
Local Open Scope Z_scope.

(** ** Hysteresis *)

Record Hysteresis := mkHysteresis {
  hy_last_time_to_change_state : Z;
  hy_time_from_true_us : Z;
  hy_time_from_false_us : Z;
  hy_state : bool;
  hy_requested_state : bool
}.

Definition Hysteresis_new (init_state : bool) : Hysteresis :=
  mkHysteresis 0 0 0 init_state init_state.

Definition set_hysteresis_time_from (from_state : bool) (t : Z) (h : Hysteresis) : Hysteresis :=
  if from_state
  then mkHysteresis (hy_last_time_to_change_state h) t (hy_time_from_false_us h)
         (hy_state h) (hy_requested_state h)
  else mkHysteresis (hy_last_time_to_change_state h) (hy_time_from_true_us h) t
         (hy_state h) (hy_requested_state h).

Definition hy_with_state (b : bool) (h : Hysteresis) : Hysteresis :=
  mkHysteresis (hy_last_time_to_change_state h) (hy_time_from_true_us h)
    (hy_time_from_false_us h) b (hy_requested_state h).

Definition hysteresis_update (now_us : Z) (h : Hysteresis) : Hysteresis :=
  if negb (eqb (hy_requested_state h) (hy_state h)) then
    let elapsed := u64 (now_us - hy_last_time_to_change_state h) in
    if hy_state h && negb (hy_requested_state h) then
      if hy_time_from_true_us h <=? elapsed then hy_with_state false h else h
    else if negb (hy_state h) && hy_requested_state h then
      if hy_time_from_false_us h <=? elapsed then hy_with_state true h else h
    else h
  else h.

Definition set_state_and_update (new_state : bool) (now_us : Z) (h : Hysteresis) : Hysteresis :=
  let h :=
    if negb (eqb new_state (hy_state h)) then
      if negb (eqb new_state (hy_requested_state h)) then
        mkHysteresis now_us (hy_time_from_true_us h) (hy_time_from_false_us h)
          (hy_state h) new_state
      else h
    else
      mkHysteresis (hy_last_time_to_change_state h) (hy_time_from_true_us h)
        (hy_time_from_false_us h) (hy_state h) (hy_state h) in
  hysteresis_update now_us h.

(** ** ESOTakeoff *)

Inductive ESOTakeoffState := disarmed | spoolup | ready_for_takeoff | rampup | flight.

(** The numbers of takeoff_status.msg, which order the states. *)
Definition takeoff_state_num (s : ESOTakeoffState) : Z :=
  match s with disarmed => 1 | spoolup => 2 | ready_for_takeoff => 3 | rampup => 4 | flight => 5 end.

#[export] Instance ESOTakeoffState_eq_dec : EqDecision ESOTakeoffState.
Proof. solve_decision. Defined.

Definition state_lt (a b : ESOTakeoffState) : bool := takeoff_state_num a <? takeoff_state_num b.

Record ESOTakeoff := mkESOTakeoff {
  tk_state : ESOTakeoffState;
  tk_spoolup_time_hysteresis : Hysteresis;
  tk_ramp_time : f32;
  tk_ramp_vz_init : f32;
  tk_ramp_progress : f32
}.

Definition ESOTakeoff_new : ESOTakeoff :=
  mkESOTakeoff disarmed (Hysteresis_new false) f0 f0 f0.

Definition tk_with_state (s : ESOTakeoffState) (t : ESOTakeoff) : ESOTakeoff :=
  mkESOTakeoff s (tk_spoolup_time_hysteresis t) (tk_ramp_time t) (tk_ramp_vz_init t)
    (tk_ramp_progress t).
Definition tk_with_progress (p : f32) (t : ESOTakeoff) : ESOTakeoff :=
  mkESOTakeoff (tk_state t) (tk_spoolup_time_hysteresis t) (tk_ramp_time t) (tk_ramp_vz_init t) p.
Definition tk_with_hysteresis (h : Hysteresis) (t : ESOTakeoff) : ESOTakeoff :=
  mkESOTakeoff (tk_state t) h (tk_ramp_time t) (tk_ramp_vz_init t) (tk_ramp_progress t).

(** Conversion of a [float] to a 64-bit unsigned integer; [None] is undefined behaviour. *)
Definition f32_to_u64 (x : f32) : option Z :=
  match x with
  | S754_zero _ => Some 0
  | S754_finite s m e =>
      let t := if 0 <=? e then Zpos m * 2 ^ e else Zpos m / 2 ^ (- e) in
      let z := if s then - t else t in
      if (0 <=? z) && (z <? 2 ^ 64) then Some z else None
  | _ => None
  end.

Definition setSpoolupTime (seconds : f32) (t : ESOTakeoff) : option ESOTakeoff :=
  us ← f32_to_u64 (fmul seconds (f32_of_Z 1000000));
  Some (tk_with_hysteresis (set_hysteresis_time_from false us (tk_spoolup_time_hysteresis t)) t).

Definition setTakeoffRampTime (seconds : f32) (t : ESOTakeoff) : ESOTakeoff :=
  mkESOTakeoff (tk_state t) (tk_spoolup_time_hysteresis t) seconds (tk_ramp_vz_init t)
    (tk_ramp_progress t).

Definition CONSTANTS_ONE_G : f32 := flit 980665 100000.

Definition generateInitialRampValue (velocity_p_gain : f32) (t : ESOTakeoff) : ESOTakeoff :=
  let velocity_p_gain := math_max velocity_p_gain (flit 1 100) in
  mkESOTakeoff (tk_state t) (tk_spoolup_time_hysteresis t) (tk_ramp_time t)
    (fdiv (fneg CONSTANTS_ONE_G) velocity_p_gain) (tk_ramp_progress t).

(** The cases of the switch, from the last to the first: each falls through to the one
    before it here when its condition lets it. *)
Definition case_flight (landed : bool) (t : ESOTakeoff) : ESOTakeoff :=
  if landed then tk_with_state ready_for_takeoff t else t.

Definition case_rampup (landed : bool) (t : ESOTakeoff) : ESOTakeoff :=
  if fge (tk_ramp_progress t) f1 then case_flight landed (tk_with_state flight t) else t.

Definition case_ready (want_takeoff landed : bool) (t : ESOTakeoff) : ESOTakeoff :=
  if want_takeoff
  then case_rampup landed (tk_with_progress f0 (tk_with_state rampup t)) else t.

Definition case_spoolup (want_takeoff landed : bool) (t : ESOTakeoff) : ESOTakeoff :=
  if hy_state (tk_spoolup_time_hysteresis t)
  then case_ready want_takeoff landed (tk_with_state ready_for_takeoff t) else t.

Definition case_disarmed (armed want_takeoff landed : bool) (t : ESOTakeoff) : ESOTakeoff :=
  if armed then case_spoolup want_takeoff landed (tk_with_state spoolup t) else t.

Definition takeoff_switch (armed landed want_takeoff : bool) (t : ESOTakeoff) : ESOTakeoff :=
  match tk_state t with
  | disarmed => case_disarmed armed want_takeoff landed t
  | spoolup => case_spoolup want_takeoff landed t
  | ready_for_takeoff => case_ready want_takeoff landed t
  | rampup => case_rampup landed t
  | flight => case_flight landed t
  end.

Definition updateTakeoffState (armed landed want_takeoff : bool) (takeoff_desired_vz : f32)
    (skip_takeoff : bool) (now_us : Z) (t : ESOTakeoff) : ESOTakeoff :=
  let t := tk_with_hysteresis
             (set_state_and_update armed now_us (tk_spoolup_time_hysteresis t)) t in
  let t := takeoff_switch armed landed want_takeoff t in
  let t := if armed && skip_takeoff then tk_with_state flight t else t in
  if negb armed then tk_with_state disarmed t else t.

Definition updateRamp (dt takeoff_desired_vz : f32) (t : ESOTakeoff) : ESOTakeoff * f32 :=
  let limit :=
    if state_lt (tk_state t) rampup then tk_ramp_vz_init t else takeoff_desired_vz in
  if decide (tk_state t = rampup) then
    let t :=
      if fgt (tk_ramp_time t) dt
      then tk_with_progress (fadd (tk_ramp_progress t) (fdiv dt (tk_ramp_time t))) t
      else tk_with_progress f1 t in
    let limit :=
      if flt (tk_ramp_progress t) f1
      then fadd (tk_ramp_vz_init t)
             (fmul (tk_ramp_progress t) (fsub takeoff_desired_vz (tk_ramp_vz_init t)))
      else limit in
    (t, limit)
  else (t, limit).

(** ** Runs: any interleaving of the two operations *)

Inductive takeoff_call :=
  | call_update (armed landed want_takeoff : bool) (vz : f32) (skip : bool) (now_us : Z)
  | call_ramp (dt vz : f32).

Definition takeoff_exec (t : ESOTakeoff) (c : takeoff_call) : ESOTakeoff :=
  match c with
  | call_update a l w vz s now => updateTakeoffState a l w vz s now t
  | call_ramp dt vz => fst (updateRamp dt vz t)
  end.

Definition takeoff_run (t : ESOTakeoff) (cs : list takeoff_call) : ESOTakeoff :=
  fold_left takeoff_exec cs t.

Definition no_skip (c : takeoff_call) : Prop :=
  match c with call_update _ _ _ _ s _ => s = false | call_ramp _ _ => True end.

(** The time since which the vehicle has been armed without interruption. *)
Definition armed_since_step (since : option Z) (c : takeoff_call) : option Z :=
  match c with
  | call_update true _ _ _ _ now => match since with Some t0 => Some t0 | None => Some now end
  | call_update false _ _ _ _ _ => None
  | call_ramp _ _ => since
  end.

Definition armed_since (cs : list takeoff_call) : option Z := fold_left armed_since_step cs None.

(** The calls' clock readings are 64-bit and do not go backwards. *)
Definition last_time_step (last : Z) (c : takeoff_call) : Z :=
  match c with call_update _ _ _ _ _ now => now | call_ramp _ _ => last end.

Fixpoint times_ok (last : Z) (cs : list takeoff_call) : Prop :=
  match cs with
  | [] => True
  | c :: cs => last <= last_time_step last c < 2 ^ 64 /\ times_ok (last_time_step last c) cs
  end.

Definition last_time (cs : list takeoff_call) : Z := fold_left last_time_step cs 0.

(** ** Facts about one call *)

(** A zero progress has not reached the end of the ramp. *)
Lemma ramp_not_started : fge f0 f1 = false.
Proof. done. Qed.

(** Splits the switch into its branches, on a state given by its fields. *)
Ltac switch_cases t :=
  let st := fresh in destruct t as [st ? ? ? ?]; destruct st;
  unfold takeoff_switch, case_disarmed, case_spoolup, case_ready, case_rampup, case_flight,
    tk_with_state, tk_with_progress;
  cbn [tk_state tk_spoolup_time_hysteresis tk_ramp_progress tk_ramp_time tk_ramp_vz_init];
  rewrite ?ramp_not_started;
  repeat (match goal with
          | |- context [if hy_state ?h then _ else _] => destruct (hy_state h) eqn:?
          | |- context [if fge ?x ?y then _ else _] => destruct (fge x y) eqn:?
          | |- context [if ?b then _ else _] => is_var b; destruct b
          end;
          cbn [tk_state tk_spoolup_time_hysteresis tk_ramp_progress tk_ramp_time
               tk_ramp_vz_init]).

Lemma switch_keeps_hysteresis a l w t :
  tk_spoolup_time_hysteresis (takeoff_switch a l w t) = tk_spoolup_time_hysteresis t.
Proof. by switch_cases t. Qed.

Lemma switch_disarmed l w t : tk_state (takeoff_switch true l w t) <> disarmed.
Proof. by switch_cases t. Qed.

(** The switch leaves spool-up only when the delay has passed, starts the ramp at zero, and
    declares flight only from a completed ramp. *)
Lemma switch_next a l w t :
  let t' := takeoff_switch a l w t in
  (state_lt spoolup (tk_state t') = true ->
     state_lt spoolup (tk_state t) = true \/ hy_state (tk_spoolup_time_hysteresis t) = true) /\
  (tk_state t' = flight ->
     tk_ramp_progress t' = tk_ramp_progress t /\
     (tk_state t = flight \/ tk_state t = rampup /\ fge (tk_ramp_progress t) f1 = true)) /\
  (tk_state t' = rampup ->
     tk_ramp_progress t' = f0 \/ tk_state t = rampup /\ tk_ramp_progress t' = tk_ramp_progress t).
Proof. cbv zeta. switch_cases t; repeat split; try done; intros; auto. Qed.

Lemma update_hysteresis a l w vz s now t :
  tk_spoolup_time_hysteresis (updateTakeoffState a l w vz s now t) =
  set_state_and_update a now (tk_spoolup_time_hysteresis t).
Proof.
  unfold updateTakeoffState. cbv zeta. set (t1 := tk_with_hysteresis _ t).
  change (set_state_and_update a now (tk_spoolup_time_hysteresis t))
    with (tk_spoolup_time_hysteresis t1).
  destruct a, s; apply switch_keeps_hysteresis.
Qed.

(** After an update the machine is disarmed exactly when the vehicle is. *)
Lemma update_disarmed a l w vz s now t :
  tk_state (updateTakeoffState a l w vz s now t) = disarmed <-> a = false.
Proof.
  unfold updateTakeoffState. cbv zeta. set (t1 := tk_with_hysteresis _ t).
  destruct a, s; try done. split; [|done]. intros H. by apply switch_disarmed in H.
Qed.

(** An update without the skip flag of an armed vehicle is the switch. *)
Lemma update_armed l w vz now t :
  updateTakeoffState true l w vz false now t =
  takeoff_switch true l w
    (tk_with_hysteresis (set_state_and_update true now (tk_spoolup_time_hysteresis t)) t).
Proof. done. Qed.

Lemma ramp_call dt vz t :
  tk_state (fst (updateRamp dt vz t)) = tk_state t /\
  tk_spoolup_time_hysteresis (fst (updateRamp dt vz t)) = tk_spoolup_time_hysteresis t /\
  (tk_state t <> rampup -> fst (updateRamp dt vz t) = t).
Proof. unfold updateRamp. destruct (decide _); [by destruct (fgt _ _)|done]. Qed.

(** ** Spool-up *)

(** What holds after the calls [cs]: [since] is the time since which the vehicle is armed,
    [last] the latest clock reading. *)
Definition spool_inv (T : Z) (since : option Z) (last : Z) (t : ESOTakeoff) : Prop :=
  let h := tk_spoolup_time_hysteresis t in
  hy_time_from_true_us h = 0 /\ hy_time_from_false_us h = T /\ 0 <= last < 2 ^ 64 /\
  match since with
  | None => hy_state h = false /\ hy_requested_state h = false /\ tk_state t = disarmed
  | Some t0 =>
      hy_requested_state h = true /\ 0 <= t0 <= last /\
      (if hy_state h then t0 + T <= last
       else hy_last_time_to_change_state h = t0 /\ state_lt spoolup (tk_state t) = false)
  end.

Lemma set_hysteresis_armed T since last now h :
  hy_time_from_false_us h = T -> 0 <= last <= now -> now < 2 ^ 64 ->
  match since with
  | None => hy_state h = false /\ hy_requested_state h = false
  | Some t0 => hy_requested_state h = true /\ 0 <= t0 <= last /\
      (if hy_state h then t0 + T <= last else hy_last_time_to_change_state h = t0)
  end ->
  let t0 := default now since in
  let h' := set_state_and_update true now h in
  hy_requested_state h' = true /\
  (if hy_state h' then t0 + T <= now else hy_last_time_to_change_state h' = t0).
Proof.
  intros HT Hl Hn. destruct h as [lst tt tf st rq]. cbn [hy_time_from_false_us] in HT. subst tf.
  unfold set_state_and_update, hysteresis_update, hy_with_state.
  destruct since as [t0|]; simpl.
  - intros (-> & Ht0 & H). destruct st; simpl in *; [split; [done|lia]|]. subst lst.
    rewrite wrap_small by (unfold fits; lia).
    destruct (Z.leb_spec T (now - t0)); simpl; split; auto; lia.
  - intros [-> ->]. simpl. rewrite Z.sub_diag.
    replace (u64 0) with 0 by done. destruct (Z.leb_spec T 0); simpl; split; auto; lia.
Qed.

(** A requested change happens exactly after its time. *)
Lemma set_hysteresis_exact T since last now h :
  hy_time_from_false_us h = T -> 0 <= last <= now -> now < 2 ^ 64 ->
  match since with
  | None => hy_state h = false /\ hy_requested_state h = false
  | Some t0 => hy_requested_state h = true /\ 0 <= t0 <= last /\
      (if hy_state h then t0 + T <= last else hy_last_time_to_change_state h = t0)
  end ->
  hy_state (set_state_and_update true now h) = (T <=? now - default now since).
Proof.
  intros HT Hl Hn. destruct h as [lst tt tf st rq]. cbn [hy_time_from_false_us] in HT. subst tf.
  unfold set_state_and_update, hysteresis_update, hy_with_state.
  destruct since as [t0|]; simpl.
  - intros (-> & Ht0 & H). destruct st; simpl in *; [symmetry; apply Z.leb_le; lia|]. subst lst.
    rewrite wrap_small by (unfold fits; lia). by destruct (Z.leb_spec T (now - t0)).
  - intros [-> ->]. simpl. rewrite Z.sub_diag.
    replace (u64 0) with 0 by done. by destruct (Z.leb_spec T 0).
Qed.

Lemma set_hysteresis_disarmed now h :
  hy_time_from_true_us h = 0 ->
  let h' := set_state_and_update false now h in
  hy_state h' = false /\ hy_requested_state h' = false.
Proof.
  destruct h as [lst tt tf st rq]. simpl. intros ->.
  unfold set_state_and_update, hysteresis_update, hy_with_state.
  destruct st; simpl; [|done]. destruct rq; simpl.
  - rewrite Z.sub_diag. done.
  - destruct (Z.leb_spec 0 (u64 (now - lst))) as [|Hlt]; [done|].
    pose proof (wrap_fits 64 ltac:(lia) (now - lst)) as Hf. unfold fits in Hf. lia.
Qed.

Lemma set_hysteresis_times b now h :
  hy_time_from_true_us (set_state_and_update b now h) = hy_time_from_true_us h /\
  hy_time_from_false_us (set_state_and_update b now h) = hy_time_from_false_us h.
Proof.
  unfold set_state_and_update, hysteresis_update, hy_with_state.
  destruct b, h as [l tt tf [] []]; simpl; by repeat case_match.
Qed.

Lemma spool_inv_step T since last t c :
  spool_inv T since last t -> no_skip c ->
  last <= last_time_step last c < 2 ^ 64 ->
  spool_inv T (armed_since_step since c) (last_time_step last c) (takeoff_exec t c).
Proof.
  intros (H1 & H2 & Hl & Hs) Hns Htm. destruct c as [a l w vz s now|dt vz].
  - simpl in Hns, Htm. subst s. cbn [takeoff_exec last_time_step].
    pose proof (set_hysteresis_times a now (tk_spoolup_time_hysteresis t)) as [T1 T2].
    unfold spool_inv. rewrite update_hysteresis, T1, T2.
    split; [done|]. split; [done|]. split; [lia|]. destruct a; cbn [armed_since_step].
    + pose proof (set_hysteresis_armed T since last now _ H2 ltac:(lia) ltac:(lia)) as HA.
      rewrite update_armed.
      pose proof (switch_next true l w (tk_with_hysteresis
        (set_state_and_update true now (tk_spoolup_time_hysteresis t)) t)) as (HN & _).
      cbn [tk_with_hysteresis tk_spoolup_time_hysteresis tk_state] in HN.
      destruct since as [t0|]; cbn [default] in HA.
      * destruct HA as [Hr Hb].
        { destruct Hs as (? & ? & Hb). split; [done|]. split; [done|].
          destruct (hy_state (tk_spoolup_time_hysteresis t)); [done|]. by destruct Hb. }
        split; [done|]. split; [lia|]. destruct (hy_state (set_state_and_update _ _ _)) eqn:E; [done|].
        split; [done|]. apply not_true_is_false. intros El.
        destruct (HN El) as [Hx|]; [|done].
        exfalso. destruct Hs as (_ & ? & Hb'). destruct (hy_state (tk_spoolup_time_hysteresis t)) eqn:E0;
          [|by destruct Hb'; congruence].
        unfold set_state_and_update in E. rewrite E0 in E. simpl in E.
        unfold hysteresis_update in E. simpl in E. congruence.
      * destruct HA as [Hr Hb]; [by destruct Hs as (? & ? & _)|].
        split; [done|]. split; [lia|]. destruct (hy_state (set_state_and_update _ _ _)) eqn:E; [done|].
        split; [done|]. apply not_true_is_false. intros El.
        destruct (HN El) as [Hx|]; [|done].
        destruct Hs as (_ & _ & Hd). by rewrite Hd in Hx.
    + pose proof (set_hysteresis_disarmed now _ H1) as [Ha Hb]. split; [done|]. split; [done|].
      by apply update_disarmed.
  - cbn [takeoff_exec last_time_step armed_since_step] in *.
    destruct (ramp_call dt vz t) as (E1 & E2 & _). unfold spool_inv. by rewrite E1, E2.
Qed.

Lemma spool_inv_run T cs : forall since last t,
  spool_inv T since last t -> Forall no_skip cs -> times_ok last cs ->
  spool_inv T (fold_left armed_since_step cs since) (fold_left last_time_step cs last)
    (takeoff_run t cs).
Proof.
  induction cs as [|c cs IH]; intros since last t Hi Hn Ht; [done|].
  inversion_clear Hn. destruct Ht as [Ht Ht']. apply IH; [|done|done].
  by apply spool_inv_step.
Qed.

(** The takeoff machine, configured with a spool-up time, is beyond spool-up after a
    sequence of calls (none of which asks to skip the takeoff) only if the vehicle has been
    armed without interruption for at least that time. *)
Theorem takeoff_needs_spoolup (T : Z) (ramp_time vz_init : f32) (cs : list takeoff_call) :
  0 <= T -> Forall no_skip cs -> times_ok 0 cs ->
  let t0 := mkESOTakeoff disarmed (set_hysteresis_time_from false T (Hysteresis_new false))
              ramp_time vz_init f0 in
  state_lt spoolup (tk_state (takeoff_run t0 cs)) = true ->
  exists ts, armed_since cs = Some ts /\ ts + T <= last_time cs.
Proof.
  intros HT Hn Ht t0 Hs.
  pose proof (spool_inv_run T cs None 0 t0) as Hi.
  destruct Hi as (_ & _ & _ & Hi); [by repeat split|done|done|].
  unfold armed_since, last_time. destruct (fold_left armed_since_step cs None) as [ts|].
  - exists ts. split; [done|]. destruct Hi as (_ & _ & Hi).
    destruct (hy_state _); [done|]. destruct Hi; congruence.
  - destruct Hi as (_ & _ & Hd). by rewrite Hd in Hs.
Qed.

(** Armed at 1 s, polled at 1.5 s and at 2.2 s with a spool-up time of 1 s and a wish to
    take off: the machine is in the ramp. *)
Lemma takeoff_needs_spoolup_witness :
  let cs := [call_update true true true f1 false 1000000;
             call_update true true true f1 false 1500000;
             call_update true true true f1 false 2200000] in
  exists ts, armed_since cs = Some ts /\ ts + 1000000 <= last_time cs.
Proof.
  intros cs. apply (takeoff_needs_spoolup 1000000 f1 f0 cs); [lia|by repeat constructor| |].
  - vm_compute. intuition congruence.
  - by vm_compute.
Defined.

(** ** The ramp *)

(** The progress that a sequence of ramp calls reaches from zero. *)
Definition ramp_progress_step (T p dt : f32) : f32 := if fgt T dt then fadd p (fdiv dt T) else f1.

Definition ramp_dts (cs : list takeoff_call) : list f32 :=
  omap (fun c => match c with call_ramp dt _ => Some dt | _ => None end) cs.

Definition ramp_reached (T : f32) (cs : list takeoff_call) : f32 :=
  fold_left (ramp_progress_step T) (ramp_dts cs) f0.

Lemma ramp_reached_snoc T cs c :
  ramp_reached T (cs ++ [c]) =
  match c with
  | call_ramp dt _ => ramp_progress_step T (ramp_reached T cs) dt
  | _ => ramp_reached T cs
  end.
Proof.
  unfold ramp_reached, ramp_dts. rewrite omap_app, fold_left_app. by destruct c.
Qed.

Lemma takeoff_run_snoc t cs c : takeoff_run t (cs ++ [c]) = takeoff_exec (takeoff_run t cs) c.
Proof. apply fold_left_app. Qed.

Lemma exec_ramp_time t c : tk_ramp_time (takeoff_exec t c) = tk_ramp_time t.
Proof.
  destruct c as [a l w vz s now|dt vz]; simpl.
  - unfold updateTakeoffState. cbv zeta. set (t1 := tk_with_hysteresis _ t).
    assert (H : tk_ramp_time (takeoff_switch a l w t1) = tk_ramp_time t1) by (by switch_cases t1).
    destruct a, s; apply H.
  - unfold updateRamp. destruct (decide _); [by destruct (fgt _ _)|done].
Qed.

Lemma run_ramp_time t cs : tk_ramp_time (takeoff_run t cs) = tk_ramp_time t.
Proof.
  induction cs as [|c cs IH] using rev_ind; [done|].
  by rewrite takeoff_run_snoc, exec_ramp_time.
Qed.

(** In the ramp, the calls since its start have brought the progress where it is. *)
Definition in_ramp (t : ESOTakeoff) (cs : list takeoff_call) : Prop :=
  exists pre mid,
    cs = pre ++ mid /\
    tk_state (takeoff_run t pre) = rampup /\ tk_ramp_progress (takeoff_run t pre) = f0 /\
    tk_ramp_progress (takeoff_run t cs) = ramp_reached (tk_ramp_time t) mid.

Definition ramp_done (t : ESOTakeoff) (cs : list takeoff_call) : Prop :=
  exists pre mid post,
    cs = pre ++ mid ++ post /\
    tk_state (takeoff_run t pre) = rampup /\ tk_ramp_progress (takeoff_run t pre) = f0 /\
    fge (ramp_reached (tk_ramp_time t) mid) f1 = true.

Lemma ramp_history_update t cs a l w vz now :
  (tk_state (takeoff_run t cs) = rampup -> in_ramp t cs) ->
  (tk_state (takeoff_run t cs) = flight -> ramp_done t cs) ->
  let cs' := cs ++ [call_update a l w vz false now] in
  (tk_state (takeoff_run t cs') = rampup -> in_ramp t cs') /\
  (tk_state (takeoff_run t cs') = flight -> ramp_done t cs').
Proof.
  intros HR HF cs'. assert (E : takeoff_run t cs' = updateTakeoffState a l w vz false now
                                                 (takeoff_run t cs)).
  { unfold cs'. by rewrite takeoff_run_snoc. }
  destruct a.
  - rewrite update_armed in E. set (t1 := tk_with_hysteresis _ _) in E.
    destruct (switch_next true l w t1) as (_ & H1 & H2). rewrite <- E in H1, H2.
    change (tk_state t1) with (tk_state (takeoff_run t cs)) in *.
    change (tk_ramp_progress t1) with (tk_ramp_progress (takeoff_run t cs)) in *.
    split.
    + intros Hs. destruct (H2 Hs) as [Hp | [Hr Hp]].
      * exists cs', []. by rewrite app_nil_r.
      * destruct (HR Hr) as (pre & mid & -> & ? & ? & Hq).
        exists pre, (mid ++ [call_update true l w vz false now]).
        split; [by unfold cs'; rewrite app_assoc|].
        rewrite ramp_reached_snoc, Hp. done.
    + intros Hs. destruct (H1 Hs) as [Hp [Hf | [Hr Hge]]].
      * destruct (HF Hf) as (pre & mid & post & -> & ? & ? & ?).
        exists pre, mid, (post ++ [call_update true l w vz false now]).
        split; [by unfold cs'; rewrite <- !app_assoc|done].
      * destruct (HR Hr) as (pre & mid & -> & ? & ? & Hq). rewrite Hq in Hge.
        exists pre, mid, [call_update true l w vz false now].
        split; [by unfold cs'; rewrite <- app_assoc|done].
  - assert (Hd : tk_state (takeoff_run t cs') = disarmed) by (rewrite E; by apply update_disarmed).
    rewrite Hd. done.
Qed.

Lemma ramp_history_ramp t cs dt vz :
  (tk_state (takeoff_run t cs) = rampup -> in_ramp t cs) ->
  (tk_state (takeoff_run t cs) = flight -> ramp_done t cs) ->
  let cs' := cs ++ [call_ramp dt vz] in
  (tk_state (takeoff_run t cs') = rampup -> in_ramp t cs') /\
  (tk_state (takeoff_run t cs') = flight -> ramp_done t cs').
Proof.
  intros HR HF cs'.
  assert (E : takeoff_run t cs' = fst (updateRamp dt vz (takeoff_run t cs))).
  { unfold cs'. by rewrite takeoff_run_snoc. }
  destruct (ramp_call dt vz (takeoff_run t cs)) as (E1 & _ & _). rewrite <- E in E1. rewrite E1.
  split.
  - intros Hs. destruct (HR Hs) as (pre & mid & -> & ? & ? & Hq).
    exists pre, (mid ++ [call_ramp dt vz]). split; [by unfold cs'; rewrite app_assoc|].
    split; [done|]. split; [done|]. rewrite ramp_reached_snoc, <- Hq, E.
    unfold updateRamp. rewrite decide_True by done. rewrite run_ramp_time.
    unfold ramp_progress_step. by destruct (fgt _ _).
  - intros Hs. destruct (HF Hs) as (pre & mid & post & -> & ? & ? & ?).
    exists pre, mid, (post ++ [call_ramp dt vz]). by unfold cs'; rewrite <- !app_assoc.
Qed.

Lemma ramp_history t cs :
  tk_state t = disarmed -> Forall no_skip cs ->
  (tk_state (takeoff_run t cs) = rampup -> in_ramp t cs) /\
  (tk_state (takeoff_run t cs) = flight -> ramp_done t cs).
Proof.
  intros Hd. induction cs as [|c cs IH] using rev_ind; intros Hn.
  - simpl. rewrite Hd. done.
  - apply Forall_app in Hn as [Hn Hc]. inversion_clear Hc as [|? ? Hc' _].
    destruct (IH Hn) as [HR HF]. destruct c as [a l w vz s now|dt vz].
    + simpl in Hc'. subst s. by apply ramp_history_update.
    + by apply ramp_history_ramp.
Qed.

(** The takeoff machine, started disarmed, declares flight after a sequence of calls without
    the skip flag only if among them it entered the ramp with zero progress and the ramp
    calls that followed brought the progress to one: the climb-rate ramp is never skipped. *)
Theorem takeoff_flight_needs_ramp (t : ESOTakeoff) (cs : list takeoff_call) :
  tk_state t = disarmed -> Forall no_skip cs ->
  tk_state (takeoff_run t cs) = flight ->
  exists pre mid post,
    cs = pre ++ mid ++ post /\
    tk_state (takeoff_run t pre) = rampup /\ tk_ramp_progress (takeoff_run t pre) = f0 /\
    fge (ramp_reached (tk_ramp_time t) mid) f1 = true.
Proof. intros Hd Hn Hf. by apply (ramp_history t cs Hd Hn). Qed.

(** Without spool-up time, with a ramp of half a second and ramp calls of 0.3 s. *)
Lemma takeoff_flight_needs_ramp_witness :
  let t := mkESOTakeoff disarmed (Hysteresis_new false) (flit 1 2) (flit (-5) 1) f0 in
  let cs := [call_update true true true f1 false 1000; call_ramp (flit 3 10) f1;
             call_ramp (flit 3 10) f1; call_update true false true f1 false 2000] in
  tk_state (takeoff_run t cs) = flight /\ ramp_done t cs.
Proof.
  intros t cs. split; [by vm_compute|].
  apply (takeoff_flight_needs_ramp t cs); [done|by repeat constructor|by vm_compute].
Defined.

(** The takeoff machine is disarmed after an update exactly when the vehicle is
    disarmed; while the ramp has not begun the climb limit is the initial ramp value, and
    in flight it is the desired climb rate. *)
Theorem takeoff_output (a l w s : bool) (vz dt vz' : f32) (now : Z) (t : ESOTakeoff) :
  (tk_state (updateTakeoffState a l w vz s now t) = disarmed <-> a = false) /\
  (state_lt (tk_state t) rampup = true -> updateRamp dt vz' t = (t, tk_ramp_vz_init t)) /\
  (tk_state t = flight -> updateRamp dt vz' t = (t, vz')).
Proof.
  split; [apply update_disarmed|]. unfold updateRamp.
  split; intros H; [|by rewrite H]. destruct (decide _) as [E|]; [by rewrite E in H|]. by rewrite H.
Qed.

Lemma takeoff_output_witness :
  let t := mkESOTakeoff flight (Hysteresis_new true) f1 (flit (-5) 1) f1 in
  updateRamp (flit 1 50) (flit 3 2) t = (t, flit 3 2).
Proof. apply (takeoff_output true true true true f1 (flit 1 50) (flit 3 2) 0 _). done. Defined.
