(* ===== verification/RateControl.v ===== *)
(** * The ESO rate controller

    ESORateControl (src/src/modules/eso_rate_control/ESORateControl/RateControl.cpp and .hpp)
    turns a rate error into a normalised torque: it feeds the attitude ESO with the torque
    that was achievable in the last cycle, subtracts the estimated disturbance, adds the
    proportional, integral, gyroscopic and attitude terms, and clamps the result to [-1, 1].
    The class's parameters, its state and the values it keeps for logging are one record
    each; every member function is a definition.  The debug print, which a compile-time
    constant disables, is left out. *)
From Stdlib Require Import Floats.SpecFloat.
From coqutil Require Import Datatypes.RecordSettersUsingExistingGetters.
From S2P Require Import Prelude Float32 Linalg Eso.
Local Open Scope Z_scope.

(** ** State *)

Record rate_params := mkRateParams {
  gain_p : vec3 f32;
  gain_i : vec3 f32;
  gain_d : vec3 f32;
  lim_int : vec3 f32;
  gain_ff : vec3 f32;
  inertia : mat3 f32;
  inertia_inv : mat3 f32;
  k_beta : f32;
  max_torque : f32;
  integral_scale : f32;
  tau_s_scale : f32;
  tau_s_axis_scale : vec3 f32;
  tau_s_obs_axis_scale : vec3 f32;
  tau_s_ctrl_axis_scale : vec3 f32;
  tau_s_limit_nm : f32;
  tau_s_filter_tau : f32
}.

(** The values of the last cycle that are kept for the status message. *)
Record rate_log := mkRateLog {
  last_rate : vec3 f32;
  last_rate_sp : vec3 f32;
  last_inertia_term : vec3 f32;
  last_feedback_term : vec3 f32;
  last_integral_term : vec3 f32;
  last_beta_term : vec3 f32;
  last_tau_s_raw : vec3 f32;
  last_tau_s_used : vec3 f32;
  last_omega_r_dot : vec3 f32;
  last_disturbance_hat : vec3 f32
}.

Record ESORateControl := mkRateControl {
  rc_params : rate_params;
  rate_int : vec3 f32;
  omega_r_dot : vec3 f32;
  beta_v : vec3 f32;
  tau_s : vec3 f32;
  rc_eso : AttitudeESO f32;
  tau_s_filter_valid : bool;
  tau_s_filtered : vec3 f32;
  last_torque : vec3 f32;
  saturation_positive : vec3 bool;
  saturation_negative : vec3 bool;
  rc_log : rate_log
}.


Definition v3z : vec3 f32 := v3_zero.
Definition v3_ones : vec3 f32 := V3 f1 f1 f1.

(** The default member initialisers. *)
Definition default_inertia : mat3 f32 := m3_diag (V3 (flit 45 1000) (flit 45 1000) (flit 8 100)).

Definition rate_params_default : rate_params :=
  mkRateParams v3z v3z v3z v3z v3z default_inertia (m3_I default_inertia)
    (flit 5 10) (flit 15 10) (flit 2 10) f0 v3_ones v3_ones v3_ones (flit 3 10) (flit 1 10).

Definition ESORateControl_new : ESORateControl :=
  mkRateControl rate_params_default v3z v3z v3z v3z
    (AttitudeESO_new (f32_of_Z 30) (f32_of_Z 30) (f32_of_Z 30)) false v3z v3z
    (V3 false false false) (V3 false false false)
    (mkRateLog v3z v3z v3z v3z v3z v3z v3z v3z v3z v3z).

Definition on_params (f : rate_params -> rate_params) (c : ESORateControl) : ESORateControl :=
  c <| rc_params := f (rc_params c) |>.

(** ** Configuration *)

Definition setGains (P I D : vec3 f32) : ESORateControl -> ESORateControl :=
  on_params (fun r => r <| gain_p := P |> <| gain_i := I |> <| gain_d := D |>).

Definition setIntegratorLimit (limit : vec3 f32) : ESORateControl -> ESORateControl :=
  on_params (fun r => r <| lim_int := limit |>).

Definition setFeedForwardGain (FF : vec3 f32) : ESORateControl -> ESORateControl :=
  on_params (fun r => r <| gain_ff := FF |>).

Definition setSaturationStatus (pos neg : vec3 bool) (c : ESORateControl) : ESORateControl :=
  c <| saturation_positive := pos |> <| saturation_negative := neg |>.

(** The three diagonal entries are large enough to be inverted. *)
Definition invertible_diag (a b c : f32) : bool :=
  let small := flit 1 1000000 in
  fgt (fabs a) small && fgt (fabs b) small && fgt (fabs c) small.

Definition diag_inverse (a b c : f32) : mat3 f32 := m3_diag (V3 (fdiv f1 a) (fdiv f1 b) (fdiv f1 c)).

Definition setInertiaDiagonal (d : vec3 f32) : ESORateControl -> ESORateControl :=
  on_params (fun r =>
    r <| inertia := m3_diag d |>
      <| inertia_inv :=
           if invertible_diag (v_x d) (v_y d) (v_z d)
           then diag_inverse (v_x d) (v_y d) (v_z d) else m3_zero |>).

Definition setInertiaMatrix (I : mat3 f32) : ESORateControl -> ESORateControl :=
  on_params (fun r =>
    let r := r <| inertia := I |> in
    match inv3 I with
    | Some inv => r <| inertia_inv := inv |>
    | None =>
        if invertible_diag (m00 I) (m11 I) (m22 I)
        then r <| inertia_inv := diag_inverse (m00 I) (m11 I) (m22 I) |> else r
    end).

Definition finite_nonneg (x : f32) : bool := PX4_ISFINITE x && fge x f0.

Definition setESOBandwidth (bw : vec3 f32) (c : ESORateControl) : ESORateControl :=
  let safe := v3_map (fun val => if finite_nonneg val then val else f0) bw in
  c <| rc_eso := AttitudeESO_new (v_x safe) (v_y safe) (v_z safe) |>.

Definition setKBeta (k : f32) (c : ESORateControl) : ESORateControl :=
  if finite_nonneg k then on_params (fun r => r <| k_beta := k |>) c else c.

Definition setMaxTorque (m : f32) (c : ESORateControl) : ESORateControl :=
  if PX4_ISFINITE m && fgt m (flit 1 1000) then on_params (fun r => r <| max_torque := m |>) c else c.

Definition setIntegralScale (k : f32) (c : ESORateControl) : ESORateControl :=
  if finite_nonneg k then on_params (fun r => r <| integral_scale := k |>) c else c.

Definition setTauSScale (k : f32) (c : ESORateControl) : ESORateControl :=
  if finite_nonneg k then on_params (fun r => r <| tau_s_scale := k |>) c else c.

(** An axis takes the new scale only when it is finite. *)
Definition take_finite (new old : vec3 f32) : vec3 f32 :=
  v3_map2 (fun n o => if PX4_ISFINITE n then n else o) new old.

Definition setTauSAxisScale (k : vec3 f32) : ESORateControl -> ESORateControl :=
  on_params (fun r => r <| tau_s_axis_scale := take_finite k (tau_s_axis_scale r) |>).

Definition setTauSObserverAxisScale (k : vec3 f32) : ESORateControl -> ESORateControl :=
  on_params (fun r => r <| tau_s_obs_axis_scale := take_finite k (tau_s_obs_axis_scale r) |>).

Definition setTauSControlAxisScale (k : vec3 f32) : ESORateControl -> ESORateControl :=
  on_params (fun r => r <| tau_s_ctrl_axis_scale := take_finite k (tau_s_ctrl_axis_scale r) |>).

Definition setTauSLimitNm (l : f32) (c : ESORateControl) : ESORateControl :=
  if finite_nonneg l then on_params (fun r => r <| tau_s_limit_nm := l |>) c else c.

Definition setTauSFilterTimeConstant (tau : f32) (c : ESORateControl) : ESORateControl :=
  if finite_nonneg tau then on_params (fun r => r <| tau_s_filter_tau := tau |>) c else c.

Definition setAttitudeAux (wr_dot bv ts : vec3 f32) (c : ESORateControl) : ESORateControl :=
  c <| omega_r_dot := wr_dot |> <| beta_v := bv |> <| tau_s := ts |>.

Definition resetIntegral (c : ESORateControl) : ESORateControl := c <| rate_int := v3z |>.

Definition resetESO (c : ESORateControl) : ESORateControl :=
  setAttitudeAux v3z v3z v3z
    (c <| rc_eso := AttitudeESO_reset (rc_eso c) |> <| last_torque := v3z |>).

(** ** The integral *)

(** One axis of [updateIntegral]: anti-windup on the error, the gain schedule, the step and
    the clamp; a step that is not finite is dropped. *)
Definition integral_axis (pos neg : bool) (gain lim int err dt : f32) : f32 :=
  let err := if pos then math_min err f0 else err in
  let err := if neg then math_max err f0 else err in
  let i_factor := fdiv err (math_radians (f32_of_Z 400)) in
  let i_factor := math_max f0 (fsub f1 (fmul i_factor i_factor)) in
  let rate_i := fadd int (fmul (fmul (fmul i_factor gain) err) dt) in
  if PX4_ISFINITE rate_i then math_constrain rate_i (fneg lim) lim else int.

Definition updateIntegral (rate_error : vec3 f32) (dt : f32) (c : ESORateControl)
  : ESORateControl :=
  let p := rc_params c in
  let axis i := integral_axis (proj i (saturation_positive c)) (proj i (saturation_negative c))
                  (proj i (gain_i p)) (proj i (lim_int p)) (proj i (rate_int c))
                  (proj i rate_error) dt in
  c <| rate_int := V3 (axis ax_x) (axis ax_y) (axis ax_z) |>.

(** ** One control cycle *)

Definition zero_unless_finite (x : f32) : f32 := if PX4_ISFINITE x then x else f0.

(** The compensation torque, limited, scaled and low-pass filtered: the injected torque and
    the new filter state. *)
Definition tau_s_inject (c : ESORateControl) (ts : vec3 f32) (dt : f32) (landed : bool)
  : vec3 f32 * (vec3 f32 * bool) :=
  let p := rc_params c in
  let scale := math_constrain (tau_s_scale p) f0 f1 in
  let limit := math_max (tau_s_limit_nm p) f0 in
  let base := v3_map (fun x => math_constrain x (fneg limit) limit) ts in
  let base := v3_scale base scale in
  let base := v3_emult base (tau_s_axis_scale p) in
  if landed || fle scale FLT_EPSILON || fle limit FLT_EPSILON then (v3z, (v3z, false))
  else if negb (tau_s_filter_valid c) || negb (PX4_ISFINITE dt) || fle dt (flit 1 1000000)
          || fle (tau_s_filter_tau p) FLT_EPSILON then (base, (base, true))
  else
    let alpha := math_constrain (fdiv dt (fadd (tau_s_filter_tau p) dt)) f0 f1 in
    let filtered := v3_add (tau_s_filtered c)
                      (v3_scale (v3_sub base (tau_s_filtered c)) alpha) in
    (filtered, (filtered, true)).

(** The aux inputs with anything that is not finite replaced by zero. *)
Definition omega_r_dot_safe (c : ESORateControl) : vec3 f32 := v3_map zero_unless_finite (omega_r_dot c).
Definition beta_v_safe (c : ESORateControl) : vec3 f32 := v3_map zero_unless_finite (beta_v c).
Definition tau_s_safe (c : ESORateControl) : vec3 f32 := v3_map zero_unless_finite (tau_s c).

(** What landing clears before the observer runs. *)
Definition land_reset (c : ESORateControl) : ESORateControl :=
  c <| rc_eso := AttitudeESO_reset (rc_eso c) |> <| last_torque := v3z |>
    <| tau_s_filtered := v3z |> <| tau_s_filter_valid := false |>.

(** The filter state is stored, then landing clears the observer. *)
Definition rate_prepare (filtered : vec3 f32) (valid landed : bool) (c : ESORateControl)
  : ESORateControl :=
  let c := c <| tau_s_filtered := filtered |> <| tau_s_filter_valid := valid |> in
  if landed then land_reset c else c.

(** The gyroscopic term. *)
Definition coriolis_term (c : ESORateControl) (rate : vec3 f32) : vec3 f32 :=
  v3_cross rate (m3_vec (inertia (rc_params c)) rate).

(** The observer runs on the measured rate and the torque of the last cycle. *)
Definition rate_observe (rate base : vec3 f32) (dt : f32) (c : ESORateControl) : ESORateControl :=
  let p := rc_params c in
  let tau_s_obs := v3_emult base (tau_s_obs_axis_scale p) in
  let u_nominal := m3_vec (inertia_inv p)
                     (v3_add (v3_sub (last_torque c) (coriolis_term c rate)) tau_s_obs) in
  c <| rc_eso := AttitudeESO_update (rc_eso c) rate u_nominal dt |>.

(** The integral runs in flight and with a usable time step only. *)
Definition integrates (landed : bool) (dt : f32) : bool :=
  negb landed && PX4_ISFINITE dt && fgt dt (flit 1 1000000).

Definition rate_integrate (e_omega : vec3 f32) (dt : f32) (landed : bool) (c : ESORateControl)
  : ESORateControl :=
  if integrates landed dt then updateIntegral e_omega dt c else c.

(** The torque terms, the physical torque, its normalisation and what is kept of it. *)
Definition torque_limit (c : ESORateControl) : f32 :=
  math_max (max_torque (rc_params c)) (flit 1 1000).

Definition inertia_term (c : ESORateControl) : vec3 f32 :=
  m3_vec (inertia (rc_params c)) (v3_sub (omega_r_dot_safe c) (z2_est_dist (rc_eso c))).
Definition feedback_term (c : ESORateControl) (e_omega : vec3 f32) : vec3 f32 :=
  v3_emult (gain_p (rc_params c)) e_omega.
Definition integral_term (c : ESORateControl) : vec3 f32 :=
  v3_scale (rate_int c) (integral_scale (rc_params c)).
Definition beta_term (c : ESORateControl) : vec3 f32 :=
  v3_scale (v3_opp (beta_v_safe c)) (k_beta (rc_params c)).

Definition torque_physical (rate e_omega tau_s_ctrl : vec3 f32) (c : ESORateControl) : vec3 f32 :=
  v3_sub
    (v3_add (v3_add (v3_add (v3_add (inertia_term c) (coriolis_term c rate))
                       (feedback_term c e_omega)) (beta_term c)) (integral_term c))
    tau_s_ctrl.

Definition rate_output (rate rate_sp base : vec3 f32) (c : ESORateControl)
  : ESORateControl * vec3 f32 :=
  let e_omega := v3_sub rate_sp rate in
  let tau_s_ctrl := v3_emult base (tau_s_ctrl_axis_scale (rc_params c)) in
  let torque_norm :=
    v3_map (fun x => math_constrain (fdiv x (torque_limit c)) (fneg f1) f1)
      (torque_physical rate e_omega tau_s_ctrl c) in
  let log := mkRateLog rate rate_sp (inertia_term c) (feedback_term c e_omega) (integral_term c)
               (beta_term c) (tau_s_safe c) tau_s_ctrl (omega_r_dot_safe c)
               (z2_est_dist (rc_eso c)) in
  (c <| last_torque := v3_scale torque_norm (torque_limit c) |> <| rc_log := log |>, torque_norm).

Definition rate_update (rate rate_sp angular_accel : vec3 f32) (dt : f32) (landed : bool)
    (c : ESORateControl) : ESORateControl * vec3 f32 :=
  let '(base, (filtered, valid)) := tau_s_inject c (tau_s_safe c) dt landed in
  let c := rate_prepare filtered valid landed c in
  let c := rate_observe rate base dt c in
  let c := rate_integrate (v3_sub rate_sp rate) dt landed c in
  rate_output rate rate_sp base c.

(** The fields of [rate_ctrl_status_s] that getESORateControlStatus fills. *)
Record rate_ctrl_status := mkRateCtrlStatus {
  rollspeed_integ : f32;
  pitchspeed_integ : f32;
  yawspeed_integ : f32;
  eso_rate : vec3 f32;
  eso_rate_sp : vec3 f32;
  eso_rate_hat : vec3 f32;
  eso_rate_error : vec3 f32;
  eso_disturbance_hat : vec3 f32;
  eso_tau_s_raw : vec3 f32;
  eso_tau_s_used : vec3 f32;
  eso_omega_r_dot : vec3 f32;
  eso_torque : vec3 f32
}.

Definition getESORateControlStatus (c : ESORateControl) : rate_ctrl_status :=
  let rate_hat := z1_est_omega (rc_eso c) in
  let l := rc_log c in
  mkRateCtrlStatus (v_x (rate_int c)) (v_y (rate_int c)) (v_z (rate_int c))
    (last_rate l) (last_rate_sp l) rate_hat (v3_sub (last_rate l) rate_hat)
    (last_disturbance_hat l) (last_tau_s_raw l) (last_tau_s_used l) (last_omega_r_dot l)
    (last_torque c).
