(* ===== verification/RateControlSpec.v ===== *)
(** * Properties of the ESO rate controller

    Everything the rate loop may call is a [rate_op], and the theorems are about arbitrary
    sequences of them: the parameters stay usable whatever is passed in, the integrator
    stays within its limit and freezes while the allocator saturates, the output is clamped,
    landing forgets the observer's past, and a rate that is not a number disables the torque
    output of all axes until then. *)
From Stdlib Require Import Floats.SpecFloat.
From coqutil Require Import Datatypes.RecordSettersUsingExistingGetters.
From S2P Require Import Prelude Float32 Linalg Eso RateControl.
Local Open Scope Z_scope.

(** ** Operations *)

Inductive rate_op :=
  | op_setGains (P I D : vec3 f32)
  | op_setIntegratorLimit (l : vec3 f32)
  | op_setFeedForwardGain (FF : vec3 f32)
  | op_setSaturationStatus (pos neg : vec3 bool)
  | op_setInertiaDiagonal (d : vec3 f32)
  | op_setInertiaMatrix (I : mat3 f32)
  | op_setESOBandwidth (bw : vec3 f32)
  | op_setKBeta (k : f32)
  | op_setMaxTorque (m : f32)
  | op_setIntegralScale (k : f32)
  | op_setTauSScale (k : f32)
  | op_setTauSAxisScale (k : vec3 f32)
  | op_setTauSObserverAxisScale (k : vec3 f32)
  | op_setTauSControlAxisScale (k : vec3 f32)
  | op_setTauSLimitNm (l : f32)
  | op_setTauSFilterTimeConstant (tau : f32)
  | op_setAttitudeAux (wr_dot bv ts : vec3 f32)
  | op_resetIntegral
  | op_resetESO
  | op_update (rate rate_sp accel : vec3 f32) (dt : f32) (landed : bool).

Definition rate_exec (c : ESORateControl) (o : rate_op) : ESORateControl :=
  match o with
  | op_setGains gp gi gd => setGains gp gi gd c
  | op_setIntegratorLimit l => setIntegratorLimit l c
  | op_setFeedForwardGain FF => setFeedForwardGain FF c
  | op_setSaturationStatus p n => setSaturationStatus p n c
  | op_setInertiaDiagonal d => setInertiaDiagonal d c
  | op_setInertiaMatrix m => setInertiaMatrix m c
  | op_setESOBandwidth bw => setESOBandwidth bw c
  | op_setKBeta k => setKBeta k c
  | op_setMaxTorque m => setMaxTorque m c
  | op_setIntegralScale k => setIntegralScale k c
  | op_setTauSScale k => setTauSScale k c
  | op_setTauSAxisScale k => setTauSAxisScale k c
  | op_setTauSObserverAxisScale k => setTauSObserverAxisScale k c
  | op_setTauSControlAxisScale k => setTauSControlAxisScale k c
  | op_setTauSLimitNm l => setTauSLimitNm l c
  | op_setTauSFilterTimeConstant tau => setTauSFilterTimeConstant tau c
  | op_setAttitudeAux w b t => setAttitudeAux w b t c
  | op_resetIntegral => resetIntegral c
  | op_resetESO => resetESO c
  | op_update r sp a dt l => fst (rate_update r sp a dt l c)
  end.

Definition rate_run (c : ESORateControl) (os : list rate_op) : ESORateControl :=
  fold_left rate_exec os c.

(** ** The update, in parts *)

Lemma update_chain r sp a dt l c :
  exists base f v,
    rate_update r sp a dt l c =
    rate_output r sp base
      (rate_integrate (v3_sub sp r) dt l (rate_observe r base dt (rate_prepare f v l c))).
Proof. unfold rate_update. destruct (tau_s_inject _ _ _ _) as [base [f v]]. by exists base, f, v. Qed.

(** What a stage of the update leaves alone. *)
Definition same_config (c c' : ESORateControl) : Prop :=
  rc_params c' = rc_params c /\
  saturation_positive c' = saturation_positive c /\
  saturation_negative c' = saturation_negative c.

Definition same_int (c c' : ESORateControl) : Prop :=
  same_config c c' /\ rate_int c' = rate_int c.

#[export] Instance same_config_preorder : PreOrder same_config.
Proof.
  split; [done|]. intros x y z (?&?&?) (?&?&?). split; [|split]; etransitivity; eassumption.
Qed.

#[export] Instance same_int_preorder : PreOrder same_int.
Proof. split; [done|]. intros x y z [? ?] [? ?]. split; etransitivity; eassumption. Qed.

Lemma prepare_frame f v l c : same_int c (rate_prepare f v l c).
Proof. by destruct l. Qed.

Lemma observe_frame r b dt c : same_int c (rate_observe r b dt c).
Proof. done. Qed.

Lemma output_frame r sp b c : same_int c (fst (rate_output r sp b c)).
Proof. done. Qed.

Lemma integral_frame e dt c : same_config c (updateIntegral e dt c).
Proof. done. Qed.

Lemma integral_ext e dt c c' :
  same_int c c' -> rate_int (updateIntegral e dt c') = rate_int (updateIntegral e dt c).
Proof. intros [(H1 & H2 & H3) H4]. unfold updateIntegral. cbv zeta. by rewrite H1, H2, H3, H4. Qed.

Lemma integrate_frame e dt l c c' :
  same_int c c' ->
  same_config c (rate_integrate e dt l c') /\
  rate_int (rate_integrate e dt l c') =
    (if integrates l dt then rate_int (updateIntegral e dt c) else rate_int c).
Proof.
  intros H. unfold rate_integrate. destruct (integrates l dt); [|exact H].
  split; [|by apply integral_ext].
  etransitivity; [apply (proj1 H)|apply integral_frame].
Qed.

Lemma update_frame r sp a dt l c :
  let c' := fst (rate_update r sp a dt l c) in
  same_config c c' /\
  rate_int c' = (if integrates l dt
                 then rate_int (updateIntegral (v3_sub sp r) dt c) else rate_int c).
Proof.
  cbv zeta. destruct (update_chain r sp a dt l c) as (base & f & v & ->).
  destruct (integrate_frame (v3_sub sp r) dt l c (rate_observe r base dt (rate_prepare f v l c)))
    as [H1 H2].
  { etransitivity; [apply prepare_frame|apply observe_frame]. }
  destruct (output_frame r sp base (rate_integrate (v3_sub sp r) dt l
              (rate_observe r base dt (rate_prepare f v l c)))) as [H3 H4].
  split; [etransitivity; eassumption|]. by rewrite H4.
Qed.

(** The output is a clamped vector, and the torque it stands for is kept for the observer. *)
Definition clamped (k : f32) (tq : vec3 f32) : vec3 f32 :=
  v3_map (fun x => math_constrain (fdiv x k) (fneg f1) f1) tq.

Lemma output_clamped r sp b c :
  let tq := torque_physical r (v3_sub sp r) (v3_emult b (tau_s_ctrl_axis_scale (rc_params c))) c in
  snd (rate_output r sp b c) = clamped (torque_limit c) tq /\
  last_torque (fst (rate_output r sp b c)) =
    v3_scale (snd (rate_output r sp b c)) (torque_limit c).
Proof. done. Qed.

Lemma torque_limit_config c c' : same_config c c' -> torque_limit c' = torque_limit c.
Proof. intros [H _]. unfold torque_limit. by rewrite H. Qed.

Lemma update_output r sp a dt l c :
  exists tq,
    snd (rate_update r sp a dt l c) = clamped (torque_limit c) tq /\
    last_torque (fst (rate_update r sp a dt l c)) =
      v3_scale (snd (rate_update r sp a dt l c)) (torque_limit c).
Proof.
  destruct (update_chain r sp a dt l c) as (base & f & v & ->).
  destruct (integrate_frame (v3_sub sp r) dt l c (rate_observe r base dt (rate_prepare f v l c)))
    as [H1 _].
  { etransitivity; [apply prepare_frame|apply observe_frame]. }
  rewrite <- (torque_limit_config _ _ H1).
  destruct (output_clamped r sp base (rate_integrate (v3_sub sp r) dt l
              (rate_observe r base dt (rate_prepare f v l c)))) as [H2 H3].
  eexists. split; [exact H2|exact H3].
Qed.

(** A returned torque is a number in range, or not a number. *)
Lemma update_output_range r sp a dt l c (i : axis) :
  let out := snd (rate_update r sp a dt l c) in
  proj i out = fnan \/ fle (fneg f1) (proj i out) = true /\ fle (proj i out) f1 = true.
Proof.
  cbv zeta. destruct (update_output r sp a dt l c) as (tq & -> & _).
  unfold clamped. rewrite proj_map. destruct (is_nan (fdiv (proj i tq) (torque_limit c))) eqn:E.
  - left. by destruct (fdiv (proj i tq) (torque_limit c)).
  - right. by apply constrain_in_range.
Qed.

(** Every torque the rate controller returns is, on each axis, a number between -1 and 1
    or not a number at all, whatever the state and the inputs; and the torque it keeps for the
    observer is the returned one, scaled back. *)
Theorem rate_output_bounded (r sp a : vec3 f32) (dt : f32) (l : bool) (c : ESORateControl)
    (i : axis) :
  let out := snd (rate_update r sp a dt l c) in
  (proj i out = fnan \/ fle (fneg f1) (proj i out) = true /\ fle (proj i out) f1 = true) /\
  last_torque (fst (rate_update r sp a dt l c)) = v3_scale out (torque_limit c).
Proof.
  split; [apply update_output_range|]. by destruct (update_output r sp a dt l c) as (tq & _ & H).
Qed.

(** ** The integrator *)

Definition within (lim x : f32) : Prop := fle (fneg lim) x = true /\ fle x lim = true.

Lemma proj_integral i e dt c :
  proj i (rate_int (updateIntegral e dt c)) =
  integral_axis (proj i (saturation_positive c)) (proj i (saturation_negative c))
    (proj i (gain_i (rc_params c))) (proj i (lim_int (rc_params c))) (proj i (rate_int c))
    (proj i e) dt.
Proof. by destruct i. Qed.

Lemma integral_axis_within pos neg gain lim int err dt :
  fle f0 lim = true -> within lim int -> within lim (integral_axis pos neg gain lim int err dt).
Proof.
  intros Hl Hi. unfold integral_axis. cbv zeta. case_match; [|done].
  apply constrain_in_range; auto with f32.
Qed.

Lemma zero_within lim : fle f0 lim = true -> within lim f0.
Proof. intros Hl. split; [|done]. by destruct lim as [[]|[]| |[]]. Qed.

(** The operations that do not replace the integrator limits. *)
Definition keeps_limit (o : rate_op) : Prop :=
  match o with op_setIntegratorLimit _ => False | _ => True end.

Definition int_inv (lim : vec3 f32) (c : ESORateControl) : Prop :=
  lim_int (rc_params c) = lim /\ forall i, within (proj i lim) (proj i (rate_int c)).

Lemma int_inv_exec lim c o :
  (forall i, fle f0 (proj i lim) = true) -> keeps_limit o -> int_inv lim c ->
  int_inv lim (rate_exec c o).
Proof.
  intros Hl Ho Hc.
  destruct o; try done; try exact Hc; simpl;
    try (unfold setKBeta, setMaxTorque, setIntegralScale, setTauSScale, setTauSLimitNm,
           setTauSFilterTimeConstant; case_match; exact Hc).
  - unfold setInertiaMatrix, on_params. destruct (inv3 _); [exact Hc|].
    destruct (invertible_diag _ _ _); exact Hc.
  - split; [apply Hc|]. intros i. pose proof (zero_within _ (Hl i)). by destruct i.
  - destruct (update_frame rate rate_sp accel dt landed c) as [[Hp _] Hi].
    unfold int_inv. rewrite Hp, Hi. split; [apply Hc|]. intros i.
    destruct (integrates landed dt); [|apply Hc]. rewrite proj_integral.
    destruct Hc as [<- Hc]. by apply integral_axis_within.
Qed.

(** With integrator limits that are not negative, the integral of every axis stays within
    its limit (and so is a number) through every sequence of operations of the controller
    that does not replace the limits. *)
Theorem rate_integral_bounded (lim : vec3 f32) (c : ESORateControl) (os : list rate_op) :
  (forall i, fle f0 (proj i lim) = true) -> int_inv lim c -> Forall keeps_limit os ->
  int_inv lim (rate_run c os).
Proof.
  intros Hl Hc Ho. revert c Hc. induction Ho as [|o os Ho _ IH]; intros c Hc; [done|].
  apply IH. by apply int_inv_exec.
Qed.

(** A configured controller, in flight with a saturated roll axis and then landed. *)
Lemma rate_integral_bounded_witness :
  let lim := V3 (flit 3 10) (flit 3 10) (flit 3 10) in
  let c := setIntegratorLimit lim (setGains v3_ones (V3 (f32_of_Z 50) f1 f1) v3z ESORateControl_new) in
  let os := [op_update v3z (V3 f1 f1 f1) v3z (flit 1 50) false;
             op_setSaturationStatus (V3 true false false) (V3 false false false);
             op_update v3z (V3 f1 f1 f1) v3z (flit 1 50) false;
             op_update v3z v3z v3z (flit 1 50) true] in
  int_inv lim (rate_run c os).
Proof.
  intros lim c os. apply (rate_integral_bounded lim c os).
  - by intros [].
  - split; [done|]. by intros [].
  - by repeat constructor.
Defined.

(** ** Anti-windup *)

(** With an effective error of zero the step is zero and the integral keeps its value. *)
Lemma integral_zero_step gain lim int dt :
  is_f32 gain -> PX4_ISFINITE gain = true -> PX4_ISFINITE dt = true -> PX4_ISFINITE int = true ->
  within lim int ->
  SFcompare (integral_axis false false gain lim int f0 dt) int = Some Eq.
Proof.
  intros Hv Hg Hdt Hi [H1 H2]. unfold integral_axis. cbv zeta.
  assert (E1 : math_max f0 (fsub f1 (fmul (fdiv f0 (math_radians (f32_of_Z 400)))
                 (fdiv f0 (math_radians (f32_of_Z 400))))) = f1) by (by vm_compute).
  rewrite E1, fmul_1_l by done. clear E1.
  destruct (fmul_finite_zero gain false Hg) as [s Es]. fold f0 in Es. rewrite Es.
  destruct (fmul_zero_finite dt s Hdt) as [s' ->].
  rewrite fadd_zero_finite, Hi. pose proof (fadd_zero_r int s' Hi) as E.
  rewrite constrain_id; [exact E|by eapply feq_fle_r|by eapply feq_fle_l].
Qed.

(** A saturated direction turns an error that pushes further into zero. *)
Lemma integral_saturated_pos neg gain lim int err dt :
  flt err f0 = false ->
  integral_axis true neg gain lim int err dt = integral_axis false false gain lim int f0 dt.
Proof.
  intros He. unfold integral_axis. cbv zeta.
  assert (E : math_min err f0 = f0) by (unfold math_min; by rewrite He). rewrite E.
  by destruct neg.
Qed.

Lemma integral_saturated_neg gain lim int err dt :
  fgt err f0 = false ->
  integral_axis false true gain lim int err dt = integral_axis false false gain lim int f0 dt.
Proof.
  intros He. unfold integral_axis. cbv zeta.
  assert (E : math_max err f0 = f0) by (unfold math_max; by rewrite He). by rewrite E.
Qed.

(** Anti-windup: on an axis that the control allocator reports as saturated, an error that
    pushes further into the saturation leaves the integral at its value, for every error
    (infinite or not a number included), finite gain and finite time step. *)
Theorem rate_antiwindup (r sp a : vec3 f32) (dt : f32) (l : bool) (c : ESORateControl) (i : axis) :
  let err := proj i (v3_sub sp r) in
  let pos := proj i (saturation_positive c) in
  let neg := proj i (saturation_negative c) in
  let gain := proj i (gain_i (rc_params c)) in
  pos = true /\ flt err f0 = false \/ pos = false /\ neg = true /\ fgt err f0 = false ->
  is_f32 gain -> PX4_ISFINITE gain = true ->
  PX4_ISFINITE (proj i (rate_int c)) = true ->
  within (proj i (lim_int (rc_params c))) (proj i (rate_int c)) ->
  SFcompare (proj i (rate_int (fst (rate_update r sp a dt l c)))) (proj i (rate_int c)) = Some Eq.
Proof.
  intros err pos neg gain Hs Hv Hg Hf Hw.
  destruct (update_frame r sp a dt l c) as [_ ->]. unfold integrates.
  destruct (negb l && PX4_ISFINITE dt && fgt dt (flit 1 1000000)) eqn:E.
  - apply andb_true_iff in E as [E _]. apply andb_true_iff in E as [_ Hdt].
    rewrite proj_integral. fold pos neg gain err.
    destruct Hs as [[-> He] | [-> [-> He]]].
    + rewrite integral_saturated_pos by done. by apply integral_zero_step.
    + rewrite integral_saturated_neg by done. by apply integral_zero_step.
  - clear E. by destruct (proj i (rate_int c)) as [| | |[] m e]; simpl;
      rewrite ?Z.compare_refl, ?Pos.compare_cont_refl.
Qed.

(** In flight, roll integral at 0.1, positive saturation and a positive rate error. *)
Lemma rate_antiwindup_witness :
  let c0 := setGains v3_ones v3_ones v3z (setIntegratorLimit v3_ones ESORateControl_new) in
  let c := setSaturationStatus (V3 true false false) (V3 false false false)
             (c0 <| rate_int := V3 (flit 1 10) f0 f0 |>) in
  SFcompare (proj ax_x (rate_int (fst (rate_update v3z v3_ones v3z (flit 1 50) false c))))
    (flit 1 10) = Some Eq.
Proof.
  intros c0 c. apply (rate_antiwindup v3z v3_ones v3z (flit 1 50) false c ax_x); try done.
  left. done.
Defined.

(** ** A rate that is not a number *)

Lemma m3_vec_nan A v i : proj i v = fnan -> all_nan (m3_vec A v).
Proof.
  destruct v as [x y z], i; cbn [proj v_x v_y v_z]; intros ->; intros []; cbn [proj m3_vec v_x v_y v_z];
    cbn; by autorewrite with f32.
Qed.

Lemma clamped_nan k v : all_nan v -> all_nan (clamped k v).
Proof.
  intros H i. unfold clamped. rewrite proj_map, (H i). by autorewrite with f32.
Qed.

Lemma torque_nan r e t c i :
  proj i (z2_est_dist (rc_eso c)) = fnan -> all_nan (torque_physical r e t c).
Proof.
  intros Hn. assert (Hi : all_nan (inertia_term c)).
  { apply (m3_vec_nan _ _ i). unfold v3_sub. rewrite proj_map2, Hn. apply fsub_nan_r. }
  intros j. unfold torque_physical, v3_sub, v3_add. rewrite !proj_map2, (Hi j).
  cbn [s_add s_sub Scalar_f32]. by autorewrite with f32.
Qed.

Lemma integrate_eso e dt l c : rc_eso (rate_integrate e dt l c) = rc_eso c.
Proof. unfold rate_integrate. by destruct (integrates l dt). Qed.

Lemma output_eso r sp b c : rc_eso (fst (rate_output r sp b c)) = rc_eso c.
Proof. done. Qed.

(** In flight, a rate or an estimate that is not a number on one axis makes the output of
    all axes not a number, and the estimate stays so. *)
Lemma update_poisons r sp a dt c i :
  proj i r = fnan \/ proj i (z1_est_omega (rc_eso c)) = fnan ->
  all_nan (snd (rate_update r sp a dt false c)) /\
  att_poisoned i (rc_eso (fst (rate_update r sp a dt false c))).
Proof.
  intros Hn. destruct (update_chain r sp a dt false c) as (base & f & v & ->).
  set (c1 := rate_observe r base dt (rate_prepare f v false c)).
  assert (Hp : att_poisoned i (rc_eso c1)) by (by apply att_update_poisons). clearbody c1.
  rewrite output_eso, integrate_eso. split; [|done].
  destruct (output_clamped r sp base (rate_integrate (v3_sub sp r) dt false c1)) as [-> _].
  apply clamped_nan, (torque_nan _ _ _ _ i). rewrite integrate_eso. apply Hp.
Qed.

(** What the rate loop calls in flight that neither replaces nor resets the observer. *)
Definition in_flight (o : rate_op) : Prop :=
  match o with
  | op_setESOBandwidth _ | op_resetESO => False
  | op_update _ _ _ _ landed => landed = false
  | _ => True
  end.

Lemma exec_poisoned i c o :
  in_flight o -> att_poisoned i (rc_eso c) -> att_poisoned i (rc_eso (rate_exec c o)).
Proof.
  intros Ho Hp.
  destruct o; try done; simpl;
    try (unfold setKBeta, setMaxTorque, setIntegralScale, setTauSScale, setTauSLimitNm,
           setTauSFilterTimeConstant; case_match; exact Hp).
  simpl in Ho. subst landed. apply update_poisons. right. apply Hp.
Qed.

Lemma run_poisoned i c os :
  Forall in_flight os -> att_poisoned i (rc_eso c) -> att_poisoned i (rc_eso (rate_run c os)).
Proof.
  intros Ho. revert c. induction Ho as [|o os Ho _ IH]; intros c Hc; [done|].
  apply IH. by apply exec_poisoned.
Qed.

(** One measured rate that is not a number, on one axis, turns the torque of all three axes
    into not-a-number for that cycle and for every later cycle in flight, whatever the later
    measurements and settings are, until the observer is reset (by landing, disarming or a
    parameter change): the clamp lets it through and the observer keeps it. *)
Theorem rate_nan_until_landing (r sp a r' sp' a' : vec3 f32) (dt dt' : f32) (c : ESORateControl)
    (os : list rate_op) (i : axis) :
  proj i r = fnan -> Forall in_flight os ->
  let c1 := fst (rate_update r sp a dt false c) in
  all_nan (snd (rate_update r sp a dt false c)) /\
  all_nan (snd (rate_update r' sp' a' dt' false (rate_run c1 os))).
Proof.
  intros Hr Ho c1. destruct (update_poisons r sp a dt c i) as [H1 H2]; [by left|].
  split; [done|]. apply (update_poisons _ _ _ _ _ i). right.
  by apply (run_poisoned i c1 os Ho).
Qed.

(** One bad roll sample, then a good cycle with new aux inputs. *)
Lemma rate_nan_until_landing_witness :
  let c := setGains v3_ones v3z v3z ESORateControl_new in
  let c1 := fst (rate_update (V3 fnan f0 f0) v3z v3z (flit 1 250) false c) in
  all_nan (snd (rate_update v3z v3_ones v3z (flit 1 250) false
                  (rate_run c1 [op_update v3z v3z v3z (flit 1 250) false;
                                op_setAttitudeAux v3z v3z v3z]))).
Proof.
  intros c c1.
  apply (rate_nan_until_landing (V3 fnan f0 f0) v3z v3z v3z v3_ones v3z (flit 1 250) (flit 1 250)
           c _ ax_x); [done|by repeat constructor].
Defined.

(** ** Landing *)

Lemma prepare_land f v c : rate_prepare f v true c = land_reset (c <| tau_s_filtered := f |> <| tau_s_filter_valid := v |>).
Proof. done. Qed.

Lemma inject_landed c ts dt : tau_s_inject c ts dt true = (v3z, (v3z, false)).
Proof. done. Qed.

Lemma land_reset_idem c :
  rate_prepare v3z false true (land_reset c) = rate_prepare v3z false true c.
Proof. by destruct c as [? ? ? ? ? [] ? ? ? ? ? ?]. Qed.

(** A cycle on the ground does not depend on the observer's estimates, the last torque or
    the filter: it is the cycle of a controller that has just been reset.  So a landing
    also ends the effect of a rate that was not a number. *)
Theorem rate_landed_forgets r sp a dt c :
  rate_update r sp a dt true c = rate_update r sp a dt true (land_reset c).
Proof.
  unfold rate_update. rewrite !inject_landed, land_reset_idem. done.
Qed.

(** ** Parameters *)

(** What the setters guarantee. *)
Record params_sane (p : rate_params) : Prop := {
  sane_k_beta : finite_nonneg (k_beta p) = true;
  sane_max_torque : PX4_ISFINITE (max_torque p) = true /\ fgt (max_torque p) (flit 1 1000) = true;
  sane_integral_scale : finite_nonneg (integral_scale p) = true;
  sane_tau_s_scale : finite_nonneg (tau_s_scale p) = true;
  sane_axis_scale : finite3 (tau_s_axis_scale p);
  sane_obs_scale : finite3 (tau_s_obs_axis_scale p);
  sane_ctrl_scale : finite3 (tau_s_ctrl_axis_scale p);
  sane_limit : finite_nonneg (tau_s_limit_nm p) = true;
  sane_filter : finite_nonneg (tau_s_filter_tau p) = true
}.

Definition bandwidth_sane (eso : AttitudeESO f32) : Prop :=
  forall i, finite_nonneg (proj i (ae_bandwidth eso)) = true.

Definition config_sane (c : ESORateControl) : Prop :=
  params_sane (rc_params c) /\ bandwidth_sane (rc_eso c).

Lemma take_finite_sane k old : finite3 old -> finite3 (take_finite k old).
Proof. intros H i. unfold take_finite. rewrite proj_map2. by case_match. Qed.

Lemma update_eso_gains r sp a dt l c :
  ae_bandwidth (rc_eso (fst (rate_update r sp a dt l c))) = ae_bandwidth (rc_eso c).
Proof.
  destruct (update_chain r sp a dt l c) as (base & f & v & ->).
  rewrite output_eso, integrate_eso. by destruct l.
Qed.

Lemma new_sane : config_sane ESORateControl_new.
Proof. split; [split|]; try done; by intros []. Qed.

Lemma exec_sane c o : config_sane c -> config_sane (rate_exec c o).
Proof.
  intros [Hp Hb].
  destruct o; simpl; try (split; [destruct Hp; by split|exact Hb]).
  - unfold setInertiaMatrix, on_params. destruct (inv3 _) as [inv|];
      [|destruct (invertible_diag _ _ _)]; (split; [destruct Hp; by split|exact Hb]).
  - split; [exact Hp|]. intros i. unfold setESOBandwidth. simpl.
    replace (proj i _) with (if finite_nonneg (proj i bw) then proj i bw else f0) by (by destruct i).
    by destruct (finite_nonneg (proj i bw)) eqn:E.
  - unfold setKBeta. destruct (finite_nonneg k) eqn:E; [|done].
    split; [destruct Hp; by split|exact Hb].
  - unfold setMaxTorque. destruct (_ && _) eqn:E; [|done]. apply andb_true_iff in E.
    split; [destruct Hp; by split|exact Hb].
  - unfold setIntegralScale. destruct (finite_nonneg k) eqn:E; [|done].
    split; [destruct Hp; by split|exact Hb].
  - unfold setTauSScale. destruct (finite_nonneg k) eqn:E; [|done].
    split; [destruct Hp; by split|exact Hb].
  - pose proof (take_finite_sane k _ (sane_axis_scale _ Hp)).
    split; [destruct Hp; by split|exact Hb].
  - pose proof (take_finite_sane k _ (sane_obs_scale _ Hp)).
    split; [destruct Hp; by split|exact Hb].
  - pose proof (take_finite_sane k _ (sane_ctrl_scale _ Hp)).
    split; [destruct Hp; by split|exact Hb].
  - unfold setTauSLimitNm. destruct (finite_nonneg l) eqn:E; [|done].
    split; [destruct Hp; by split|exact Hb].
  - unfold setTauSFilterTimeConstant. destruct (finite_nonneg tau) eqn:E; [|done].
    split; [destruct Hp; by split|exact Hb].
  - destruct (update_frame rate rate_sp accel dt landed c) as [[E _] _].
    split; [by rewrite E|]. intros i. rewrite update_eso_gains. apply Hb.
Qed.

(** Whatever values the setters are given (infinite, negative or not a number included) and
    whatever cycles run in between, the rate controller's gains, limits, scales, time
    constants and observer bandwidths stay finite and in range, and the torque normalisation
    stays above its floor, so that the output is the physical torque over [max_torque]. *)
Theorem rate_config_sane (os : list rate_op) :
  let c := rate_run ESORateControl_new os in
  config_sane c /\ torque_limit c = max_torque (rc_params c).
Proof.
  assert (H : forall c, config_sane c -> config_sane (rate_run c os)).
  { induction os as [|o os IH]; intros c Hc; [done|]. by apply IH, exec_sane. }
  specialize (H _ new_sane). split; [done|].
  destruct H as [[? [_ Hm] _ _ _ _ _ _ _] _]. unfold torque_limit, math_max. by rewrite Hm.
Qed.
