(* ===== verification/ControlMath.v ===== *)
(** * Control mathematics of the position controller

    src/src/modules/eso_pos_control/ESOPositionControl/ControlMath.cpp: the horizontal
    velocity limiter, the tilt limit, the conversion of a thrust vector to an attitude, the
    sphere-line intersection and the additions that treat NaN as "not controlled", with the
    Euler angles of src/src/lib/matrix.  The trigonometric functions of the C library are a
    parameter, [Libm]: nothing is assumed about them. *)
From Stdlib Require Import Floats.SpecFloat.
From coqutil Require Import Datatypes.RecordSettersUsingExistingGetters.
From S2P Require Import Prelude Float32 Linalg Eso.
Local Open Scope Z_scope.

Class Libm := {
  sinf : f32 -> f32;
  cosf : f32 -> f32;
  acosf : f32 -> f32;
  asinf : f32 -> f32;
  atan2f : f32 -> f32 -> f32
}.

(** Small-angle stand-ins for the library, for evaluating concrete inputs. *)
Definition demo_libm : Libm := {|
  sinf := fun x => x; cosf := fun _ => f1; acosf := fun _ => f0; asinf := fun x => x;
  atan2f := fun y _ => y
|}.

Definition math_sq (x : f32) : f32 := fmul x x.

(** ** NaN as "not controlled" *)

Definition addIfNotNan (setpoint addition : f32) : f32 :=
  if PX4_ISFINITE setpoint && PX4_ISFINITE addition then fadd setpoint addition
  else if negb (PX4_ISFINITE setpoint) then addition
  else setpoint.

Definition addIfNotNanVector3f (setpoint addition : vec3 f32) : vec3 f32 :=
  v3_map2 addIfNotNan setpoint addition.

Definition setZeroIfNanVector3f (vector : vec3 f32) : vec3 f32 :=
  addIfNotNanVector3f vector v3_zero.

(** ** Limits *)

Definition v3_xy (v : vec3 f32) : vec2 f32 := V2 (v_x v) (v_y v).
Definition v3_set_xy (v : vec3 f32) (w : vec2 f32) : vec3 f32 := V3 (v2_x w) (v2_y w) (v_z v).

Definition constrainXY (v0 v1 : vec2 f32) (max : f32) : vec2 f32 :=
  let small := flit 1 1000 in
  if fle (v2_norm (v2_add v0 v1)) max then v2_add v0 v1
  else if fge (v2_norm v0) max then v2_scale (v2_normalized v0) max
  else if flt (fabs (v2_norm (v2_sub v1 v0))) small then v2_scale (v2_normalized v0) max
  else if flt (v2_norm v0) small then v2_scale (v2_normalized v1) max
  else
    let u1 := v2_normalized v1 in
    let m := v2_dot u1 v0 in
    let c := fsub (v2_dot v0 v0) (fmul max max) in
    let s := fadd (fneg m) (fsqrt (fsub (fmul m m) c)) in
    v2_add v0 (v2_scale u1 s).

Section WithLibm.
Context `{Libm}.

Definition limitTilt (body_unit world_unit : vec3 f32) (max_angle : f32) : vec3 f32 :=
  let dot_product_unit := v3_dot body_unit world_unit in
  let angle := acosf dot_product_unit in
  let angle := math_min angle max_angle in
  let rejection := v3_sub body_unit (v3_scale world_unit dot_product_unit) in
  let rejection :=
    if flt (v3_norm_squared rejection) FLT_EPSILON
    then V3 f1 (v_y rejection) (v_z rejection) else rejection in
  v3_add (v3_scale world_unit (cosf angle)) (v3_scale (v3_normalized rejection) (sinf angle)).

(** Euler angles of a rotation matrix: phi, theta, psi. *)
Definition M_PI_2_f : f32 := S754_finite false 13176795 (-23).

Definition euler_of_dcm (dcm : mat3 f32) : vec3 f32 :=
  let theta := asinf (fneg (m20 dcm)) in
  if flt (fabs (fsub theta M_PI_2_f)) (flit 1 1000) then
    V3 f0 theta (atan2f (m12 dcm) (m02 dcm))
  else if flt (fabs (fadd theta M_PI_2_f)) (flit 1 1000) then
    V3 f0 theta (atan2f (fneg (m12 dcm)) (fneg (m02 dcm)))
  else V3 (atan2f (m21 dcm) (m22 dcm)) theta (atan2f (m10 dcm) (m00 dcm)).

(** The fields of [vehicle_attitude_setpoint_s] that the controller fills. *)
Record attitude_setpoint := mkAttitudeSetpoint {
  roll_body : f32;
  pitch_body : f32;
  yaw_body : f32;
  yaw_sp_move_rate : f32;
  q_d : quat f32;
  thrust_body : vec3 f32
}.

(** A zero-initialised message. *)
Definition attitude_setpoint_zero : attitude_setpoint :=
  mkAttitudeSetpoint f0 f0 f0 f0 (Quat f0 f0 f0 f0) v3_zero.

(** The body axes for a desired z axis and heading: x, normalised; and the matrix. *)
Definition desired_body_x (body_z : vec3 f32) (yaw_sp : f32) : vec3 f32 :=
  let y_C := V3 (fneg (sinf yaw_sp)) (cosf yaw_sp) f0 in
  let body_x := v3_cross y_C body_z in
  let body_x := if flt (v_z body_z) f0 then v3_opp body_x else body_x in
  let body_x := if flt (fabs (v_z body_z)) (flit 1 1000000) then V3 f0 f0 f1 else body_x in
  v3_normalized body_x.

Definition body_axes (body_x body_z : vec3 f32) : mat3 f32 :=
  let body_y := v3_cross body_z body_x in
  M3 (v_x body_x) (v_x body_y) (v_x body_z)
     (v_y body_x) (v_y body_y) (v_y body_z)
     (v_z body_x) (v_z body_y) (v_z body_z).

(** The zero vector has no direction: level. *)
Definition desired_body_z (body_z : vec3 f32) : vec3 f32 :=
  v3_normalized
    (if flt (v3_norm_squared body_z) FLT_EPSILON
     then V3 (v_x body_z) (v_y body_z) f1 else body_z).

Definition bodyzToAttitude (body_z : vec3 f32) (yaw_sp : f32) (att_sp : attitude_setpoint)
  : attitude_setpoint :=
  let body_z := desired_body_z body_z in
  let R_sp := body_axes (desired_body_x body_z yaw_sp) body_z in
  let euler := euler_of_dcm R_sp in
  att_sp <| q_d := quat_of_dcm R_sp |> <| roll_body := v_x euler |>
    <| pitch_body := v_y euler |> <| yaw_body := v_z euler |>.

Definition thrustToAttitude (thr_sp : vec3 f32) (yaw_sp : f32) (att_sp : attitude_setpoint)
  : attitude_setpoint :=
  let att_sp := bodyzToAttitude (v3_opp thr_sp) yaw_sp att_sp in
  att_sp <| thrust_body := V3 (v_x (thrust_body att_sp)) (v_y (thrust_body att_sp))
                             (fneg (v3_norm thr_sp)) |>.

End WithLibm.

(** The result and the return value; [None] leaves the caller's variable alone. *)
Definition cross_sphere_line (sphere_c : vec3 f32) (sphere_r : f32) (line_a line_b : vec3 f32)
  : option (vec3 f32) * bool :=
  let ab_norm := v3_sub line_b line_a in
  if flt (v3_norm ab_norm) (flit 1 100) then (None, true)
  else
    let ab_norm := v3_divs ab_norm (v3_norm ab_norm) in
    let d := v3_add line_a (v3_scale ab_norm (v3_dot (v3_sub sphere_c line_a) ab_norm)) in
    let cd_len := v3_norm (v3_sub sphere_c d) in
    if fgt sphere_r cd_len then
      let dx_len := fsqrt (fsub (fmul sphere_r sphere_r) (fmul cd_len cd_len)) in
      if fgt (v3_dot (v3_sub sphere_c line_b) ab_norm) f0 then (Some line_b, true)
      else (Some (v3_add d (v3_scale ab_norm dx_len)), true)
    else
      let res := d in
      let res := if flt (v3_dot (v3_sub sphere_c line_a) ab_norm) f0 then line_a else res in
      let res := if fgt (v3_dot (v3_sub sphere_c line_b) ab_norm) f0 then line_b else res in
      (Some res, false).

(** ** NaN through the vector operations *)

Lemma v2_norm_nan_l y : v2_norm (V2 fnan y) = fnan.
Proof. unfold v2_norm, v2_dot; cbn. by autorewrite with f32. Qed.

Lemma v2_norm_nan_r x : v2_norm (V2 x fnan) = fnan.
Proof. unfold v2_norm, v2_dot; cbn. by autorewrite with f32. Qed.

Lemma v3_norm_nan i v : proj i v = fnan -> v3_norm v = fnan.
Proof.
  unfold v3_norm, v3_dot. destruct v as [x y z], i; cbn [proj v_x v_y v_z]; intros ->; cbn;
    by autorewrite with f32.
Qed.

Lemma v3_dot_nan i a b : proj i a = fnan -> v3_dot a b = fnan.
Proof.
  unfold v3_dot. destruct a as [x y z], i; cbn [proj v_x v_y v_z]; intros ->; cbn;
    by autorewrite with f32.
Qed.

Lemma v3_normalized_nan i v : proj i v = fnan -> all_nan (v3_normalized v).
Proof.
  intros H j. unfold v3_normalized, v3_divs, v3_scale. rewrite proj_map, (v3_norm_nan i) by done.
  cbn. by autorewrite with f32.
Qed.

(** A direction that is not a number stays so under the tilt limit, whatever the library's
    functions return. *)
Lemma limitTilt_nan `{Libm} i b w a : proj i b = fnan -> all_nan (limitTilt b w a).
Proof.
  intros Hb. unfold limitTilt. cbv zeta.
  set (rej := v3_sub b (v3_scale w (v3_dot b w))).
  assert (Hr : proj i rej = fnan).
  { unfold rej, v3_sub. rewrite proj_map2, Hb. apply fsub_nan_l. }
  assert (Hn : v3_norm_squared rej = fnan) by (by apply (v3_dot_nan i)).
  rewrite Hn, flt_nan_l. intros j. unfold v3_add. rewrite proj_map2. unfold v3_scale at 2.
  rewrite proj_map, (v3_normalized_nan i rej Hr j). cbn. by autorewrite with f32.
Qed.

(** Adding with a setpoint or an addition that is not finite. *)
Lemma addIfNotNan_nan a : addIfNotNan fnan a = a.
Proof. done. Qed.

(** Zeroing replaces every component that is not finite and keeps the finite ones. *)
Lemma setZeroIfNan_spec v i :
  PX4_ISFINITE (proj i (setZeroIfNanVector3f v)) = true /\
  (PX4_ISFINITE (proj i v) = true ->
   SFcompare (proj i (setZeroIfNanVector3f v)) (proj i v) = Some Eq) /\
  (PX4_ISFINITE (proj i v) = false -> proj i (setZeroIfNanVector3f v) = f0).
Proof.
  unfold setZeroIfNanVector3f, addIfNotNanVector3f. rewrite proj_map2, proj_zero.
  unfold addIfNotNan. cbn [s_zero Scalar_f32]. change (PX4_ISFINITE f0) with true.
  destruct (PX4_ISFINITE (proj i v)) eqn:E; cbn [andb negb].
  - split; [by rewrite (fadd_zero_finite _ false)|]. split; [|done]. intros _. by apply fadd_zero_r.
  - done.
Qed.
