(* ===== verification/PosControl.v ===== *)
(** * The ESO position controller

    ESOPositionControl (src/src/modules/eso_pos_control/ESOPositionControl/PositionControl.cpp
    and .hpp) is a cascade: position error to velocity setpoint (P and I with tracking
    anti-windup), velocity error to acceleration (P, minus the disturbance the position ESO
    estimates), acceleration to a thrust vector with tilt and thrust limits.  A setpoint
    component that is NaN is not controlled.  Every member function is a definition; the
    rate-limited warnings, whose text is commented out, are left out. *)
From Stdlib Require Import Floats.SpecFloat.
From coqutil Require Import Datatypes.RecordSettersUsingExistingGetters.
From S2P Require Import Prelude Float32 Linalg Eso Takeoff ControlMath.
Local Open Scope Z_scope.

(** ** Messages *)

(** [vehicle_local_position_setpoint_s]; NaN means "not controlled". *)
Record local_position_setpoint := mkSetpoint {
  sp_timestamp : Z;
  sp_pos : vec3 f32;
  sp_vel : vec3 f32;
  sp_acc : vec3 f32;
  sp_thrust : vec3 f32;
  sp_yaw : f32;
  sp_yawspeed : f32
}.

Record PositionControlStates := mkStates {
  st_position : vec3 f32;
  st_velocity : vec3 f32;
  st_acceleration : vec3 f32;
  st_yaw : f32
}.

(** ** State *)

Record pos_config := mkPosConfig {
  gain_pos_p : vec3 f32;
  gain_pos_i : vec3 f32;
  gain_vel_p : vec3 f32;
  gain_vel_i : vec3 f32;
  gain_vel_d : vec3 f32;
  lim_pos_int : f32;
  lim_vel_horizontal : f32;
  lim_vel_up : f32;
  lim_vel_down : f32;
  lim_thr_min : f32;
  lim_thr_max : f32;
  lim_thr_xy_margin : f32;
  lim_tilt : f32;
  hover_thrust : f32;
  dyn_ff_enabled : bool
}.

Record ESOPositionControl := mkPositionControl {
  pc_config : pos_config;
  pc_pos : vec3 f32;
  pc_vel : vec3 f32;
  pc_vel_dot : vec3 f32;
  pc_vel_int : vec3 f32;
  pc_yaw : f32;
  pc_pos_int : vec3 f32;
  pc_body_rate : vec3 f32;
  pc_sys_com_pos : vec3 f32;
  pc_attitude : quat f32;
  pc_eso : PositionESO f32;
  pc_eso_disturbance : vec3 f32;
  pc_eso_update_enabled : bool;
  pc_eso_update_enabled_prev : bool;
  pc_acc_cmd_prev : vec3 f32;
  pc_eso_input : vec3 f32;
  pc_pos_sp : vec3 f32;
  pc_vel_sp : vec3 f32;
  pc_acc_sp : vec3 f32;
  pc_thr_sp : vec3 f32;
  pc_yaw_sp : f32;
  pc_yawspeed_sp : f32
}.

Definition pv0 : vec3 f32 := v3_zero.

Definition ESOPositionControl_new : ESOPositionControl :=
  mkPositionControl
    (mkPosConfig pv0 pv0 pv0 pv0 pv0 f0 f0 f0 f0 f0 f0 f0 f0 f0 false)
    pv0 pv0 pv0 pv0 f0 pv0 pv0 pv0 (Quat f1 f0 f0 f0) PositionESO_new pv0 true true pv0 pv0
    pv0 pv0 pv0 pv0 f0 f0.

Definition on_config (f : pos_config -> pos_config) (c : ESOPositionControl) : ESOPositionControl :=
  c <| pc_config := f (pc_config c) |>.

(** ** Configuration *)

Definition setPositionGains (P I : vec3 f32) : ESOPositionControl -> ESOPositionControl :=
  on_config (fun r => r <| gain_pos_p := P |> <| gain_pos_i := I |>).

Definition setVelocityGains (P I D : vec3 f32) : ESOPositionControl -> ESOPositionControl :=
  on_config (fun r => r <| gain_vel_p := P |> <| gain_vel_i := I |> <| gain_vel_d := D |>).

Definition setPosESOBandwidth (bw : vec3 f32) (c : ESOPositionControl) : ESOPositionControl :=
  c <| pc_eso := PositionESO_setBandwidth bw (pc_eso c) |>.

Definition setESOUpdateEnabled (enabled : bool) (c : ESOPositionControl) : ESOPositionControl :=
  c <| pc_eso_update_enabled := enabled |>.

Definition setBodyRate (rate : vec3 f32) (c : ESOPositionControl) : ESOPositionControl :=
  c <| pc_body_rate := rate |>.

Definition setSystemCoM (com : vec3 f32) (c : ESOPositionControl) : ESOPositionControl :=
  c <| pc_sys_com_pos := com |>.

Definition setAttitude (att : quat f32) (c : ESOPositionControl) : ESOPositionControl :=
  c <| pc_attitude := att |>.

Definition setDynamicsFeedforwardEnabled (b : bool) : ESOPositionControl -> ESOPositionControl :=
  on_config (fun r => r <| dyn_ff_enabled := b |>).

Definition setVelocityLimits (h up down : f32) : ESOPositionControl -> ESOPositionControl :=
  on_config (fun r => r <| lim_vel_horizontal := h |> <| lim_vel_up := up |> <| lim_vel_down := down |>).

Definition setPositionIntegralLimit (l : f32) : ESOPositionControl -> ESOPositionControl :=
  on_config (fun r => r <| lim_pos_int := l |>).

Definition setThrustLimits (min max : f32) : ESOPositionControl -> ESOPositionControl :=
  on_config (fun r => r <| lim_thr_min := math_max min (flit 1 1000) |> <| lim_thr_max := max |>).

Definition setHorizontalThrustMargin (m : f32) : ESOPositionControl -> ESOPositionControl :=
  on_config (fun r => r <| lim_thr_xy_margin := m |>).

Definition setTiltLimit (t : f32) : ESOPositionControl -> ESOPositionControl :=
  on_config (fun r => r <| lim_tilt := t |>).

Definition setHoverThrust (h : f32) : ESOPositionControl -> ESOPositionControl :=
  on_config (fun r => r <| hover_thrust := math_constrain h (flit 1 10) (flit 9 10) |>).

Definition updateHoverThrust (hover_new : f32) (c : ESOPositionControl) : ESOPositionControl :=
  if fgt hover_new FLT_EPSILON then
    let az := v_z (pc_acc_sp c) in
    let delta :=
      fsub (fadd (fdiv (fmul (fsub az CONSTANTS_ONE_G) (hover_thrust (pc_config c))) hover_new)
              CONSTANTS_ONE_G) az in
    let vi := pc_vel_int c in
    setHoverThrust hover_new (c <| pc_vel_int := V3 (v_x vi) (v_y vi) (fadd (v_z vi) delta) |>)
  else c.

Definition setState (s : PositionControlStates) (c : ESOPositionControl) : ESOPositionControl :=
  c <| pc_pos := st_position s |> <| pc_vel := st_velocity s |> <| pc_yaw := st_yaw s |>
    <| pc_vel_dot := st_acceleration s |>.

Definition setInputSetpoint (sp : local_position_setpoint) (c : ESOPositionControl)
  : ESOPositionControl :=
  c <| pc_pos_sp := sp_pos sp |> <| pc_vel_sp := sp_vel sp |> <| pc_acc_sp := sp_acc sp |>
    <| pc_yaw_sp := sp_yaw sp |> <| pc_yawspeed_sp := sp_yawspeed sp |>.

Definition pos_resetIntegral (c : ESOPositionControl) : ESOPositionControl :=
  c <| pc_vel_int := pv0 |> <| pc_pos_int := pv0 |> <| pc_eso_input := pv0 |>
    <| pc_acc_cmd_prev := pv0 |> <| pc_eso := PositionESO_reset (pc_eso c) |>
    <| pc_eso_update_enabled_prev := false |>.

(** ** Input check *)

Definition all_finite (v : vec3 f32) : bool :=
  PX4_ISFINITE (v_x v) && PX4_ISFINITE (v_y v) && PX4_ISFINITE (v_z v).

(** Every axis has some setpoint; x and y come in pairs; a controlled state is known. *)
Definition axis_has_setpoint (i : axis) (c : ESOPositionControl) : bool :=
  PX4_ISFINITE (proj i (pc_pos_sp c)) || PX4_ISFINITE (proj i (pc_vel_sp c))
  || PX4_ISFINITE (proj i (pc_acc_sp c)).

Definition xy_paired (v : vec3 f32) : bool := eqb (PX4_ISFINITE (v_x v)) (PX4_ISFINITE (v_y v)).

Definition axis_state_known (i : axis) (c : ESOPositionControl) : bool :=
  (if PX4_ISFINITE (proj i (pc_pos_sp c)) then PX4_ISFINITE (proj i (pc_pos c)) else true) &&
  (if PX4_ISFINITE (proj i (pc_vel_sp c))
   then PX4_ISFINITE (proj i (pc_vel c)) && PX4_ISFINITE (proj i (pc_vel_dot c)) else true).

Definition inputValid (c : ESOPositionControl) : bool :=
  axis_has_setpoint ax_x c && axis_has_setpoint ax_y c && axis_has_setpoint ax_z c &&
  xy_paired (pc_pos_sp c) && xy_paired (pc_vel_sp c) && xy_paired (pc_acc_sp c) &&
  axis_state_known ax_x c && axis_state_known ax_y c && axis_state_known ax_z c.

(** ** Position control *)

(** P, I and feed-forward, before any limit. *)
Definition vel_sp_p (c : ESOPositionControl) : vec3 f32 :=
  v3_emult (v3_sub (pc_pos_sp c) (pc_pos c)) (gain_pos_p (pc_config c)).
Definition vel_sp_i (c : ESOPositionControl) : vec3 f32 :=
  v3_emult (pc_pos_int c) (gain_pos_i (pc_config c)).
Definition vel_sp_unc (c : ESOPositionControl) : vec3 f32 :=
  addIfNotNanVector3f (v3_add (vel_sp_p c) (vel_sp_i c)) (pc_vel_sp c).

Definition vel_sp_limited (c : ESOPositionControl) : vec3 f32 :=
  let k := pc_config c in
  let v := setZeroIfNanVector3f (vel_sp_unc c) in
  let ff := v3_sub (v3_sub v (vel_sp_p c)) (vel_sp_i c) in
  let v := v3_set_xy v (constrainXY (v3_xy v) (v3_xy ff) (lim_vel_horizontal k)) in
  V3 (v_x v) (v_y v) (math_constrain (v_z v) (fneg (lim_vel_up k)) (lim_vel_down k)).

Definition arw_gain (p : f32) : f32 := if fgt p FLT_EPSILON then fdiv (f32_of_Z 2) p else f0.

(** The integral follows the error corrected by what the limits cut off. *)
Definition pos_int_next (dt : f32) (c : ESOPositionControl) : vec3 f32 :=
  let k := pc_config c in
  let pos_err := v3_sub (pc_pos_sp c) (pc_pos c) in
  let saturation_diff := v3_sub (vel_sp_unc c) (vel_sp_limited c) in
  let pos_err_for_int :=
    v3_sub pos_err (v3_emult saturation_diff (v3_map arw_gain (gain_pos_p k))) in
  if all_finite pos_err then
    v3_map (fun x => math_constrain x (fneg (lim_pos_int k)) (lim_pos_int k))
      (v3_add (pc_pos_int c) (v3_scale pos_err_for_int dt))
  else pc_pos_int c.

Definition positionControl (dt : f32) (c : ESOPositionControl) : ESOPositionControl :=
  c <| pc_pos_int := pos_int_next dt c |> <| pc_vel_sp := vel_sp_limited c |>.

Section WithLibm.
Context `{Libm}.

(** ** Acceleration to thrust *)

Definition accelerationControl (c : ESOPositionControl) : ESOPositionControl :=
  let k := pc_config c in
  let a := pc_acc_sp c in
  let up := V3 f0 f0 f1 in
  let body_z := v3_normalized (V3 (fneg (v_x a)) (fneg (v_y a)) CONSTANTS_ONE_G) in
  let body_z := limitTilt body_z up (lim_tilt k) in
  let collective :=
    fsub (fmul (v_z a) (fdiv (hover_thrust k) CONSTANTS_ONE_G)) (hover_thrust k) in
  let collective := fdiv collective (v3_dot up body_z) in
  let collective := math_min collective (fneg (lim_thr_min k)) in
  c <| pc_thr_sp := v3_scale body_z collective |>.

(** ** Velocity control *)

(** The centrifugal acceleration of the centre of mass, in the world frame. *)
Definition centrifugal (c : ESOPositionControl) : vec3 f32 :=
  let w_cross_p := v3_cross (pc_body_rate c) (pc_sys_com_pos c) in
  let centrifugal_body := v3_cross (pc_body_rate c) w_cross_p in
  let a_f_ned := v3_scale (rotateVector (pc_attitude c) centrifugal_body) (fneg f1) in
  if dyn_ff_enabled (pc_config c) then a_f_ned else v3_zero.

(** Feed-forward, plus the velocity feedback, minus the estimated disturbance. *)
Definition acc_cmd (c : ESOPositionControl) : vec3 f32 :=
  let vel_error := v3_sub (pc_vel_sp c) (pc_vel c) in
  v3_sub
    (v3_sub
       (v3_add (setZeroIfNanVector3f (pc_acc_sp c)) (v3_emult vel_error (gain_vel_p (pc_config c))))
       (pc_eso_disturbance c))
    (centrifugal c).

(** Vertical thrust first, then what is left for the horizontal direction. *)
Definition limit_thrust (k : pos_config) (thr : vec3 f32) : vec3 f32 :=
  let xy := v3_xy thr in
  let xy_norm := v2_norm xy in
  let max_squared := math_sq (lim_thr_max k) in
  let allocated := math_min xy_norm (lim_thr_xy_margin k) in
  let z_max_squared := fsub max_squared (math_sq allocated) in
  let z := math_max (v_z thr) (fneg (fsqrt z_max_squared)) in
  let xy_max_squared := fsub max_squared (math_sq z) in
  let xy_max := if fgt xy_max_squared f0 then fsqrt xy_max_squared else f0 in
  let xy := if fgt xy_norm xy_max then v2_scale (v2_divs xy xy_norm) xy_max else xy in
  V3 (v2_x xy) (v2_y xy) z.

Definition acc_achievable (k : pos_config) (thr : vec3 f32) : vec3 f32 :=
  if fgt (hover_thrust k) FLT_EPSILON
  then v3_scale thr (fdiv CONSTANTS_ONE_G (hover_thrust k))
  else v3_scale thr CONSTANTS_ONE_G.

(** The vertical error that the code zeroes at a thrust limit is a local variable that
    nothing reads afterwards. *)
Definition velocityControl (c : ESOPositionControl) : ESOPositionControl :=
  let a_f_ned := centrifugal c in
  let c := accelerationControl (c <| pc_acc_sp := acc_cmd c |>) in
  let thr := limit_thrust (pc_config c) (pc_thr_sp c) in
  let prev := acc_achievable (pc_config c) thr in
  c <| pc_thr_sp := thr |> <| pc_acc_cmd_prev := prev |>
    <| pc_eso_input := v3_add (v3_add prev (V3 f0 f0 CONSTANTS_ONE_G)) a_f_ned |>.

(** ** One control cycle *)

(** The observer starts from the measurements when it is switched on. *)
Definition run_eso (dt : f32) (c : ESOPositionControl) : ESOPositionControl :=
  let c :=
    if pc_eso_update_enabled c && negb (pc_eso_update_enabled_prev c)
    then c <| pc_eso := PositionESO_reset_to (pc_pos c) (pc_vel c) (pc_eso c) |> else c in
  if pc_eso_update_enabled c then
    let eso := PositionESO_update (pc_eso c) (pc_pos c) (pc_eso_input c) dt in
    c <| pc_eso := eso |> <| pc_eso_disturbance := pe_z3 eso |>
  else c <| pc_eso_disturbance := pv0 |>.

Definition yaw_defaults (c : ESOPositionControl) : ESOPositionControl :=
  c <| pc_yawspeed_sp := if PX4_ISFINITE (pc_yawspeed_sp c) then pc_yawspeed_sp c else f0 |>
    <| pc_yaw_sp := if PX4_ISFINITE (pc_yaw_sp c) then pc_yaw_sp c else pc_yaw c |>.

(** The edge detector's memory, updated even when the input is not valid. *)
Definition note_eso_enabled (c : ESOPositionControl) : ESOPositionControl :=
  c <| pc_eso_update_enabled_prev := pc_eso_update_enabled c |>.

Definition pos_update (dt : f32) (c : ESOPositionControl) : ESOPositionControl * bool :=
  let valid := inputValid c in
  let c :=
    if valid
    then yaw_defaults (velocityControl (positionControl dt (run_eso dt c))) else c in
  let c := note_eso_enabled c in
  (c, valid && all_finite (pc_acc_sp c) && all_finite (pc_thr_sp c)).

(** ** Outputs *)

Definition getLocalPositionSetpoint (c : ESOPositionControl) (sp : local_position_setpoint)
  : local_position_setpoint :=
  mkSetpoint (sp_timestamp sp) (pc_pos_sp c) (pc_vel_sp c) (pc_acc_sp c) (pc_thr_sp c)
    (pc_yaw_sp c) (pc_yawspeed_sp c).

Definition getAttitudeSetpoint (c : ESOPositionControl) (sp : attitude_setpoint)
  : attitude_setpoint :=
  let sp := thrustToAttitude (pc_thr_sp c) (pc_yaw_sp c) sp in
  sp <| yaw_sp_move_rate := pc_yawspeed_sp c |>.

End WithLibm.
