(* ===== verification/PosControlSpec.v ===== *)
(** * Properties of the ESO position controller

    The limits of the velocity setpoint and of the position integral; what the limiter makes
    of a horizontal velocity setpoint without a position setpoint, and of a feed-forward
    velocity at the target; when the observer is started from the measurements. *)
From Stdlib Require Import Floats.SpecFloat.
From coqutil Require Import Datatypes.RecordSettersUsingExistingGetters.
From S2P Require Import Prelude Float32 Linalg Eso Takeoff ControlMath PosControl.
Local Open Scope Z_scope.

(** ** The update in parts *)

Section Update.
Context `{Libm}.

(** The stages before the position loop do not touch what it reads. *)
Lemma run_eso_frame dt c :
  let c' := run_eso dt c in
  pc_config c' = pc_config c /\ pc_pos c' = pc_pos c /\ pc_vel c' = pc_vel c /\
  pc_pos_int c' = pc_pos_int c /\ pc_pos_sp c' = pc_pos_sp c /\ pc_vel_sp c' = pc_vel_sp c /\
  pc_acc_sp c' = pc_acc_sp c.
Proof. unfold run_eso. destruct (_ && _), (pc_eso_update_enabled _); done. Qed.

Lemma positionControl_out dt c :
  pc_vel_sp (positionControl dt c) = vel_sp_limited c /\
  pc_pos_int (positionControl dt c) = pos_int_next dt c /\
  pc_config (positionControl dt c) = pc_config c /\ pc_vel (positionControl dt c) = pc_vel c.
Proof. done. Qed.

Lemma velocityControl_frame c :
  pc_vel_sp (velocityControl c) = pc_vel_sp c /\ pc_pos_int (velocityControl c) = pc_pos_int c /\
  pc_acc_sp (velocityControl c) = acc_cmd c /\ pc_config (velocityControl c) = pc_config c.
Proof. done. Qed.

Lemma yaw_defaults_frame c :
  pc_vel_sp (yaw_defaults c) = pc_vel_sp c /\ pc_pos_int (yaw_defaults c) = pc_pos_int c /\
  pc_acc_sp (yaw_defaults c) = pc_acc_sp c /\ pc_thr_sp (yaw_defaults c) = pc_thr_sp c /\
  pc_config (yaw_defaults c) = pc_config c.
Proof. done. Qed.

Lemma note_frame c :
  pc_vel_sp (note_eso_enabled c) = pc_vel_sp c /\ pc_pos_int (note_eso_enabled c) = pc_pos_int c /\
  pc_acc_sp (note_eso_enabled c) = pc_acc_sp c /\ pc_thr_sp (note_eso_enabled c) = pc_thr_sp c /\
  pc_config (note_eso_enabled c) = pc_config c.
Proof. done. Qed.

(** The position loop reads only these. *)
Definition same_loop_input (c c' : ESOPositionControl) : Prop :=
  pc_config c' = pc_config c /\ pc_pos c' = pc_pos c /\ pc_pos_int c' = pc_pos_int c /\
  pc_pos_sp c' = pc_pos_sp c /\ pc_vel_sp c' = pc_vel_sp c.

Lemma vel_sp_limited_ext c c' : same_loop_input c c' -> vel_sp_limited c' = vel_sp_limited c.
Proof.
  intros (H1 & H2 & H3 & H4 & H5). unfold vel_sp_limited, vel_sp_unc, vel_sp_p, vel_sp_i.
  by rewrite H1, H2, H3, H4, H5.
Qed.

Lemma pos_int_next_ext dt c c' : same_loop_input c c' -> pos_int_next dt c' = pos_int_next dt c.
Proof.
  intros Hc. pose proof (vel_sp_limited_ext c c' Hc) as Hv.
  destruct Hc as (H1 & H2 & H3 & H4 & H5). unfold pos_int_next.
  unfold vel_sp_unc, vel_sp_p, vel_sp_i. by rewrite Hv, H1, H2, H3, H4, H5.
Qed.

Lemma run_eso_loop dt c : same_loop_input c (run_eso dt c).
Proof. destruct (run_eso_frame dt c) as (?&?&?&?&?&?&?). done. Qed.

(** What a cycle with a valid input leaves. *)
Lemma update_valid dt c :
  inputValid c = true ->
  pc_vel_sp (fst (pos_update dt c)) = vel_sp_limited c /\
  pc_pos_int (fst (pos_update dt c)) = pos_int_next dt c /\
  pc_config (fst (pos_update dt c)) = pc_config c.
Proof.
  intros Hv. unfold pos_update. rewrite Hv. cbv zeta. cbn [fst].
  set (c1 := run_eso dt c). pose proof (run_eso_loop dt c) as Hl. fold c1 in Hl.
  rewrite <- (vel_sp_limited_ext c c1 Hl), <- (pos_int_next_ext dt c c1 Hl).
  destruct Hl as [<- _]. clearbody c1.
  destruct (positionControl_out dt c1) as (<- & <- & <- & _).
  generalize (positionControl dt c1). intros c2.
  destruct (velocityControl_frame c2) as (<- & <- & _ & <-).
  generalize (velocityControl c2). intros c3.
  destruct (yaw_defaults_frame c3) as (<- & <- & _ & _ & <-).
  generalize (yaw_defaults c3). intros c4.
  by destruct (note_frame c4) as (-> & -> & _ & _ & ->).
Qed.

Lemma update_invalid dt c :
  inputValid c = false ->
  pos_update dt c = (note_eso_enabled c, false).
Proof. intros Hv. unfold pos_update. by rewrite Hv. Qed.

End Update.

(** ** Limits *)

(** The velocity that enters the limiter is finite on every axis. *)
Lemma limited_z c :
  v_z (vel_sp_limited c) =
  math_constrain (proj ax_z (setZeroIfNanVector3f (vel_sp_unc c)))
    (fneg (lim_vel_up (pc_config c))) (lim_vel_down (pc_config c)).
Proof. done. Qed.

Lemma limited_z_range c :
  fle (fneg (lim_vel_up (pc_config c))) (lim_vel_down (pc_config c)) = true ->
  fle (fneg (lim_vel_up (pc_config c))) (v_z (vel_sp_limited c)) = true /\
  fle (v_z (vel_sp_limited c)) (lim_vel_down (pc_config c)) = true.
Proof.
  intros Hl. rewrite limited_z. apply constrain_in_range; [|done].
  apply finite_num, (setZeroIfNan_spec _ ax_z).
Qed.

Definition pos_within (lim x : f32) : Prop := fle (fneg lim) x = true /\ fle x lim = true.

(** The position integral stays within its limit unless the step is not a number. *)
Lemma pos_int_step dt c i :
  fle f0 (lim_pos_int (pc_config c)) = true ->
  pos_within (lim_pos_int (pc_config c)) (proj i (pc_pos_int c)) ->
  proj i (pos_int_next dt c) = fnan \/
  pos_within (lim_pos_int (pc_config c)) (proj i (pos_int_next dt c)).
Proof.
  intros Hl Hw. unfold pos_int_next. cbv zeta. destruct (all_finite _); [|by right].
  rewrite proj_map. generalize (proj i (v3_add (pc_pos_int c) (v3_scale (v3_sub (v3_sub (pc_pos_sp c) (pc_pos c))
    (v3_emult (v3_sub (vel_sp_unc c) (vel_sp_limited c))
       (v3_map arw_gain (gain_pos_p (pc_config c))))) dt))). intros x. destruct (is_nan x) eqn:E.
  - left. destruct x; try discriminate. apply constrain_nan.
  - right. apply constrain_in_range; auto with f32.
Qed.

(** One cycle of the position controller with a valid input: the vertical velocity setpoint
    is a number between the climb and the descent limit, whatever the errors, integrals and
    gains; and the position integral of every axis stays within its limit or is not a number. *)
Theorem pos_limits_hold `{Libm} (dt : f32) (c : ESOPositionControl) (i : axis) :
  let k := pc_config c in
  let c' := fst (pos_update dt c) in
  inputValid c = true ->
  fle (fneg (lim_vel_up k)) (lim_vel_down k) = true ->
  fle f0 (lim_pos_int k) = true -> pos_within (lim_pos_int k) (proj i (pc_pos_int c)) ->
  (fle (fneg (lim_vel_up k)) (v_z (pc_vel_sp c')) = true /\
   fle (v_z (pc_vel_sp c')) (lim_vel_down k) = true) /\
  (proj i (pc_pos_int c') = fnan \/ pos_within (lim_pos_int k) (proj i (pc_pos_int c'))).
Proof.
  intros k c' Hv Hl Hi Hw. destruct (update_valid dt c Hv) as (E1 & E2 & _).
  unfold c'. rewrite E1, E2. split; [by apply limited_z_range|by apply pos_int_step].
Qed.

(** ** Horizontal velocity without a horizontal position *)

Lemma v2_scale_nan k : v2_scale (V2 fnan fnan) k = V2 fnan fnan.
Proof. unfold v2_scale; cbn. by autorewrite with f32. Qed.

Lemma v3_xy_x v x y : v3_xy v = V2 x y -> v_x v = x.
Proof. destruct v. by intros [= -> _]. Qed.

(** With a second vector that is not a number the limiter returns the first vector at full
    length if that exceeds the limit, and not-a-number otherwise. *)
Lemma constrainXY_nan v0 max :
  constrainXY v0 (V2 fnan fnan) max =
  if fge (v2_norm v0) max then v2_scale (v2_normalized v0) max else V2 fnan fnan.
Proof.
  assert (N1 : v2_norm (v2_add v0 (V2 fnan fnan)) = fnan).
  { unfold v2_add; cbn. by autorewrite with f32. }
  assert (N2 : v2_norm (v2_sub (V2 fnan fnan) v0) = fnan).
  { unfold v2_sub; cbn. by autorewrite with f32. }
  assert (N3 : v2_normalized (V2 fnan fnan) = V2 fnan fnan).
  { unfold v2_normalized, v2_divs. apply v2_scale_nan. }
  unfold constrainXY. cbv zeta. rewrite N1, N2, N3, fle_nan_l, fabs_nan, flt_nan_l.
  destruct (fge (v2_norm v0) max); [done|].
  destruct (flt (v2_norm v0) (flit 1 1000)); [apply v2_scale_nan|].
  unfold v2_add, v2_scale; cbn. by autorewrite with f32.
Qed.

(** No horizontal position setpoint. *)
Definition no_xy_position (c : ESOPositionControl) : Prop :=
  v_x (pc_pos_sp c) = fnan /\ v_y (pc_pos_sp c) = fnan.

(** The horizontal velocity setpoint with NaN read as zero. *)
Definition xy_velocity (c : ESOPositionControl) : vec2 f32 :=
  v3_xy (setZeroIfNanVector3f (pc_vel_sp c)).

Lemma limited_no_position c :
  no_xy_position c ->
  v3_xy (vel_sp_limited c) =
  if fge (v2_norm (xy_velocity c)) (lim_vel_horizontal (pc_config c))
  then v2_scale (v2_normalized (xy_velocity c)) (lim_vel_horizontal (pc_config c))
  else V2 fnan fnan.
Proof.
  intros [Hx Hy].
  assert (P : v_x (vel_sp_p c) = fnan /\ v_y (vel_sp_p c) = fnan).
  { unfold vel_sp_p, v3_emult, v3_sub, v3_map2. cbn. rewrite Hx, Hy. by autorewrite with f32. }
  destruct P as [Px Py].
  assert (U : v_x (vel_sp_unc c) = v_x (pc_vel_sp c) /\ v_y (vel_sp_unc c) = v_y (pc_vel_sp c)).
  { unfold vel_sp_unc, addIfNotNanVector3f, v3_add, v3_map2. cbn [v_x v_y s_add Scalar_f32].
    by rewrite Px, Py, !fadd_nan_l. }
  destruct U as [Ux Uy].
  assert (E0 : v3_xy (setZeroIfNanVector3f (vel_sp_unc c)) = xy_velocity c).
  { unfold xy_velocity, v3_xy, setZeroIfNanVector3f, addIfNotNanVector3f, v3_map2.
    cbn [v_x v_y]. by rewrite Ux, Uy. }
  assert (E1 : v3_xy (v3_sub (v3_sub (setZeroIfNanVector3f (vel_sp_unc c)) (vel_sp_p c)) (vel_sp_i c))
               = V2 fnan fnan).
  { unfold v3_xy, v3_sub, v3_map2. cbn [v_x v_y s_sub Scalar_f32]. rewrite Px, Py.
    by autorewrite with f32. }
  unfold vel_sp_limited. cbv zeta. unfold v3_set_xy at 1 2. cbn [v_x v_y].
  rewrite E0, E1, constrainXY_nan. unfold v3_xy. cbn [v_x v_y].
  by destruct (fge (v2_norm (xy_velocity c)) (lim_vel_horizontal (pc_config c))).
Qed.

Section NanOutput.
Context `{Libm}.

(** A velocity setpoint that is not a number makes the commanded acceleration so. *)
Lemma acc_cmd_nan c i : proj i (pc_vel_sp c) = fnan -> proj i (acc_cmd c) = fnan.
Proof.
  intros Hv. unfold acc_cmd, v3_sub, v3_add, v3_emult. rewrite !proj_map2, Hv.
  cbn [s_add s_sub s_mul Scalar_f32]. by autorewrite with f32.
Qed.

(** A horizontal acceleration that is not a number makes the whole thrust vector so. *)
Lemma acceleration_nan c : v_x (pc_acc_sp c) = fnan -> all_nan (pc_thr_sp (accelerationControl c)).
Proof.
  intros Ha. unfold accelerationControl. cbv zeta.
  set (b := limitTilt _ _ _). assert (Hb : all_nan b).
  { apply (limitTilt_nan ax_x). apply (v3_normalized_nan ax_x). cbn [proj v_x]. by rewrite Ha. }
  clearbody b. intros i.
  change (proj i (v3_scale b (math_min (fdiv (fsub (fmul (v_z (pc_acc_sp c))
    (fdiv (hover_thrust (pc_config c)) CONSTANTS_ONE_G)) (hover_thrust (pc_config c)))
    (v3_dot (V3 f0 f0 f1) b)) (fneg (lim_thr_min (pc_config c))))) = fnan).
  unfold v3_scale. rewrite proj_map, (Hb i). apply fmul_nan_l.
Qed.

(** The thrust limits keep the horizontal part and replace the vertical part by the
    strongest upward thrust. *)
Lemma limit_thrust_nan k thr :
  all_nan thr ->
  limit_thrust k thr =
  V3 fnan fnan (fneg (fsqrt (fsub (math_sq (lim_thr_max k)) (math_sq (lim_thr_xy_margin k))))).
Proof.
  intros Ht. pose proof (Ht ax_x) as Hx. pose proof (Ht ax_y) as Hy. pose proof (Ht ax_z) as Hz.
  cbn [proj] in Hx, Hy, Hz. unfold limit_thrust, v3_xy. rewrite Hx, Hy, Hz, v2_norm_nan_l.
  cbv zeta. rewrite min_nan_l, max_nan_l. unfold fgt. by rewrite flt_nan_r.
Qed.

Lemma velocityControl_thrust c :
  pc_thr_sp (velocityControl c) =
  limit_thrust (pc_config c) (pc_thr_sp (accelerationControl (c <| pc_acc_sp := acc_cmd c |>))).
Proof. done. Qed.

Lemma velocity_nan c :
  v_x (pc_vel_sp c) = fnan ->
  v_x (pc_acc_sp (velocityControl c)) = fnan /\
  v_x (pc_thr_sp (velocityControl c)) = fnan /\ v_y (pc_thr_sp (velocityControl c)) = fnan.
Proof.
  intros Hv. pose proof (acc_cmd_nan c ax_x Hv) as Ha.
  destruct (velocityControl_frame c) as (_ & _ & -> & _). split; [done|].
  rewrite velocityControl_thrust, limit_thrust_nan; [done|]. by apply acceleration_nan.
Qed.

Lemma update_nan dt c :
  inputValid c = true -> v_x (vel_sp_limited c) = fnan ->
  let '(c', ok) := pos_update dt c in
  ok = false /\ v_x (pc_thr_sp c') = fnan /\ v_y (pc_thr_sp c') = fnan.
Proof.
  intros Hv Hn. unfold pos_update. rewrite Hv. cbv zeta.
  set (c1 := run_eso dt c). pose proof (run_eso_loop dt c) as Hl. fold c1 in Hl.
  rewrite <- (vel_sp_limited_ext c c1 Hl) in Hn. clearbody c1.
  destruct (positionControl_out dt c1) as (P1 & _). rewrite <- P1 in Hn.
  destruct (velocity_nan (positionControl dt c1) Hn) as (A & X & Y).
  generalize dependent (velocityControl (positionControl dt c1)). intros c3 A X Y.
  destruct (yaw_defaults_frame c3) as (_ & _ & Ya & Yt & _).
  destruct (note_frame (yaw_defaults c3)) as (_ & _ & Na & Nt & _).
  rewrite Na, Nt, Ya, Yt, X, Y. split; [|done].
  unfold all_finite at 1. by rewrite A.
Qed.

(** The attitude that is published for such a thrust: no quaternion and no thrust. *)
Definition quat_nan (q : quat f32) : Prop :=
  q_0 q = fnan /\ q_1 q = fnan /\ q_2 q = fnan /\ q_3 q = fnan.

Lemma quat_of_dcm_nan R : m00 R = fnan -> m22 R = fnan -> quat_nan (quat_of_dcm R).
Proof.
  intros H0 H2. unfold quat_of_dcm. cbv zeta.
  assert (Ht : m3_trace R = fnan).
  { unfold m3_trace; cbn. rewrite H0. by autorewrite with f32. }
  rewrite Ht, H0, H2. unfold fgt. rewrite !flt_nan_l, !flt_nan_r. cbn [andb].
  unfold quat_nan. autorewrite with f32. cbn [q_0 q_1 q_2 q_3].
  repeat split; by autorewrite with f32.
Qed.

Lemma desired_body_z_nan b : proj ax_x b = fnan -> all_nan (desired_body_z b).
Proof.
  intros Hb. assert (Hs : v3_norm_squared b = fnan) by (by apply (v3_dot_nan ax_x)).
  unfold desired_body_z. rewrite Hs, flt_nan_l. by apply (v3_normalized_nan ax_x).
Qed.

Lemma desired_body_x_nan b yaw : all_nan b -> all_nan (desired_body_x b yaw).
Proof.
  intros Hb. pose proof (Hb ax_z) as Bz. cbn [proj] in Bz.
  unfold desired_body_x. cbv zeta. rewrite Bz, fabs_nan, !flt_nan_l.
  apply (v3_normalized_nan ax_x). unfold v3_cross. cbn [proj v_x v_y v_z]. rewrite Bz.
  cbn [s_sub s_mul Scalar_f32]. by autorewrite with f32.
Qed.

Lemma bodyz_q_d b yaw sp :
  q_d (bodyzToAttitude b yaw sp) =
  quat_of_dcm (body_axes (desired_body_x (desired_body_z b) yaw) (desired_body_z b)).
Proof. done. Qed.

Lemma bodyz_nan b yaw sp : proj ax_x b = fnan -> quat_nan (q_d (bodyzToAttitude b yaw sp)).
Proof.
  intros Hb. rewrite bodyz_q_d. pose proof (desired_body_z_nan b Hb) as Hz.
  pose proof (desired_body_x_nan _ yaw Hz) as Hx.
  generalize dependent (desired_body_x (desired_body_z b) yaw).
  generalize dependent (desired_body_z b). intros bz Hz bx Hx.
  apply quat_of_dcm_nan; [apply (Hx ax_x)|apply (Hz ax_z)].
Qed.

Lemma getAttitude_fields c sp :
  q_d (getAttitudeSetpoint c sp) =
    q_d (bodyzToAttitude (v3_opp (pc_thr_sp c)) (pc_yaw_sp c) sp) /\
  v_z (thrust_body (getAttitudeSetpoint c sp)) = fneg (v3_norm (pc_thr_sp c)).
Proof.
  unfold getAttitudeSetpoint, thrustToAttitude. cbv zeta.
  generalize (bodyzToAttitude (v3_opp (pc_thr_sp c)) (pc_yaw_sp c) sp).
  generalize (fneg (v3_norm (pc_thr_sp c))). intros n att. done.
Qed.

Lemma attitude_nan c sp :
  v_x (pc_thr_sp c) = fnan ->
  quat_nan (q_d (getAttitudeSetpoint c sp)) /\
  v_z (thrust_body (getAttitudeSetpoint c sp)) = fnan.
Proof.
  intros Hx. destruct (getAttitude_fields c sp) as [-> ->]. split.
  - apply bodyz_nan. unfold v3_opp. rewrite proj_map. cbn [proj]. by rewrite Hx.
  - rewrite (v3_norm_nan ax_x) by done. done.
Qed.

End NanOutput.

(** A horizontal velocity setpoint without a position setpoint, below the speed limit, is
    accepted by the input check and then lost: the limiter computes its feed-forward from
    the missing position term, so that the velocity, acceleration and horizontal thrust
    setpoints become not-a-number, the update reports failure, and the attitude setpoint
    that is published has neither a quaternion nor a thrust. *)
Theorem pos_velocity_only_fails `{Libm} (dt : f32) (c : ESOPositionControl) (sp : attitude_setpoint) :
  inputValid c = true -> no_xy_position c ->
  fge (v2_norm (xy_velocity c)) (lim_vel_horizontal (pc_config c)) = false ->
  let '(c', ok) := pos_update dt c in
  ok = false /\ v_x (pc_thr_sp c') = fnan /\ v_y (pc_thr_sp c') = fnan /\
  quat_nan (q_d (getAttitudeSetpoint c' sp)) /\
  v_z (thrust_body (getAttitudeSetpoint c' sp)) = fnan.
Proof.
  intros Hv Hp Hf. pose proof (limited_no_position c Hp) as E. rewrite Hf in E.
  pose proof (v3_xy_x _ _ _ E) as Hn.
  pose proof (update_nan dt c Hv Hn) as HU. destruct (pos_update dt c) as [c' ok].
  destruct HU as (-> & Hx & Hy). split; [done|]. split; [done|]. split; [done|].
  by apply attitude_nan.
Qed.

(** A tuned controller at the origin. *)
Definition demo_control : ESOPositionControl :=
  setHoverThrust (flit 1 2)
    (setTiltLimit f1
       (setHorizontalThrustMargin (flit 3 10)
          (setThrustLimits (flit 1 10) f1
             (setVelocityLimits (f32_of_Z 5) (f32_of_Z 3) f1
                (setPositionIntegralLimit f1
                   (setVelocityGains (V3 f1 f1 f1) pv0 pv0
                      (setPositionGains (V3 f1 f1 f1) (V3 f1 f1 f1) ESOPositionControl_new))))))).

Definition nan3 : vec3 f32 := V3 fnan fnan fnan.

Lemma pos_limits_hold_witness :
  let c := setInputSetpoint (mkSetpoint 0 (V3 f1 f1 (flit (-20) 1)) nan3 nan3 nan3 f0 f0)
             demo_control in
  let c' := fst (@pos_update demo_libm (flit 1 50) c) in
  (fle (fneg (f32_of_Z 3)) (v_z (pc_vel_sp c')) = true /\
   fle (v_z (pc_vel_sp c')) f1 = true) /\
  (proj ax_z (pc_pos_int c') = fnan \/ pos_within f1 (proj ax_z (pc_pos_int c'))).
Proof.
  intros c c'. apply (@pos_limits_hold demo_libm (flit 1 50) c ax_z); by vm_compute.
Defined.

(** Forward at one metre per second, no position setpoint. *)
Lemma pos_velocity_only_fails_witness :
  let c := setInputSetpoint (mkSetpoint 0 nan3 (V3 f1 f0 f0) nan3 nan3 f0 f0) demo_control in
  snd (@pos_update demo_libm (flit 1 50) c) = false.
Proof.
  intros c. pose proof (@pos_velocity_only_fails demo_libm (flit 1 50) c attitude_setpoint_zero) as HW.
  destruct (@pos_update demo_libm (flit 1 50) c) as [c' ok].
  apply HW; [by vm_compute|split; by vm_compute|by vm_compute].
Defined.

(** ** Feed-forward at the target *)

Lemma fsub_self x : PX4_ISFINITE x = true -> fsub x x = f0.
Proof.
  destruct x as [[]|[]| |s m e]; try done. intros _. unfold fsub, SFsub.
  by rewrite Z.sub_diag.
Qed.

Lemma zero_fadd_fadd s x :
  PX4_ISFINITE x = true -> fadd (fadd (S754_zero s) x) f0 = fadd x f0.
Proof. by destruct x as [[]|[]| |], s. Qed.

Lemma fsub_zero x s : PX4_ISFINITE x = true -> fsub (fadd x f0) (S754_zero s) = fadd x f0.
Proof. by destruct x as [[]|[]| |], s. Qed.

Lemma fadd_zeros s s' : exists s'', fadd (S754_zero s) (S754_zero s') = S754_zero s''.
Proof. destruct s, s'; eexists; reflexivity. Qed.

(** One axis at the target with an empty integral: both the velocity that enters the limiter
    and its feed-forward part are the commanded velocity. *)
Lemma at_target_axis (p g gi v : f32) :
  PX4_ISFINITE p = true -> PX4_ISFINITE g = true -> PX4_ISFINITE gi = true ->
  PX4_ISFINITE v = true ->
  let P := fmul (fsub p p) g in
  let I := fmul f0 gi in
  let v0 := addIfNotNan (addIfNotNan (fadd P I) v) f0 in
  v0 = addIfNotNan v f0 /\ fsub (fsub v0 P) I = v0.
Proof.
  intros Hp Hg Hgi Hv P I v0.
  assert (EP : exists s, P = S754_zero s) by (unfold P; rewrite fsub_self by done; by apply fmul_zero_finite).
  assert (EI : exists s, I = S754_zero s) by (by apply fmul_zero_finite).
  destruct EP as [s EP], EI as [s' EI], (fadd_zeros s s') as [s'' Es].
  assert (E0 : v0 = fadd v f0).
  { unfold v0. rewrite EP, EI, Es. unfold addIfNotNan at 2. cbn [PX4_ISFINITE]. rewrite Hv. cbn [andb].
    assert (Hf : PX4_ISFINITE (fadd (S754_zero s'') v) = true) by (by destruct v as [[]|[]| |], s'').
    unfold addIfNotNan. rewrite Hf. apply zero_fadd_fadd, Hv. }
  split.
  - rewrite E0. unfold addIfNotNan. by rewrite Hv.
  - rewrite E0, EP, EI. by rewrite !fsub_zero by done.
Qed.

(** At the target position, with an empty integral, a horizontal feed-forward velocity within
    half the speed limit is doubled: the limiter is given the velocity that already contains
    the feed-forward as its first argument and the feed-forward again as its second, and
    returns their sum. *)
Theorem pos_feedforward_doubled `{Libm} (dt : f32) (c : ESOPositionControl) :
  let k := pc_config c in
  let v := xy_velocity c in
  inputValid c = true -> pc_pos_sp c = pc_pos c -> pc_pos_int c = pv0 ->
  all_finite (pc_pos c) = true -> all_finite (gain_pos_p k) = true ->
  all_finite (gain_pos_i k) = true -> all_finite (pc_vel_sp c) = true ->
  fle (v2_norm (v2_add v v)) (lim_vel_horizontal k) = true ->
  v3_xy (pc_vel_sp (fst (pos_update dt c))) = v2_add v v.
Proof.
  intros k v Hv Hp Hi Fp Fg Fi Fv Hn. destruct (update_valid dt c Hv) as (-> & _).
  unfold all_finite in *. repeat match goal with H : _ && _ = true |- _ => apply andb_true_iff in H as [? ?] end.
  destruct (at_target_axis (v_x (pc_pos c)) (v_x (gain_pos_p k)) (v_x (gain_pos_i k))
              (v_x (pc_vel_sp c))) as [X1 X2]; try done.
  destruct (at_target_axis (v_y (pc_pos c)) (v_y (gain_pos_p k)) (v_y (gain_pos_i k))
              (v_y (pc_vel_sp c))) as [Y1 Y2]; try done.
  unfold vel_sp_limited, vel_sp_unc, vel_sp_p, vel_sp_i. rewrite Hp, Hi. cbv zeta. fold k.
  unfold v3_set_xy, v3_xy, setZeroIfNanVector3f, addIfNotNanVector3f, v3_add, v3_sub, v3_emult, v3_map2.
  cbn [v_x v_y v_z s_add s_sub s_mul Scalar_f32 v3_zero pv0 s_zero] in *.
  rewrite X2, Y2, X1, Y1.
  assert (Ev : V2 (addIfNotNan (v_x (pc_vel_sp c)) f0) (addIfNotNan (v_y (pc_vel_sp c)) f0) = v) by done.
  rewrite Ev. unfold constrainXY. cbv zeta. rewrite Hn. done.
Qed.

(** Hovering at the target with a feed-forward of one metre per second: two are commanded. *)
Lemma pos_feedforward_doubled_witness :
  let c := setInputSetpoint (mkSetpoint 0 pv0 (V3 f1 f0 f0) nan3 nan3 f0 f0) demo_control in
  v3_xy (pc_vel_sp (fst (@pos_update demo_libm (flit 1 50) c))) = V2 (f32_of_Z 2) f0.
Proof.
  intros c.
  etransitivity;
    [apply (@pos_feedforward_doubled demo_libm (flit 1 50) c); by vm_compute|by vm_compute].
Defined.

(** ** Switching the observer on *)

Lemma run_eso_observer dt c :
  pc_eso (run_eso dt c) =
  if pc_eso_update_enabled c
  then PositionESO_update
         (if pc_eso_update_enabled_prev c then pc_eso c
          else PositionESO_reset_to (pc_pos c) (pc_vel c) (pc_eso c))
         (pc_pos c) (pc_eso_input c) dt
  else pc_eso c.
Proof.
  destruct c as [? ? ? ? ? ? ? ? ? ? ? ? enabled prev ? ? ? ? ? ? ? ?].
  unfold run_eso. destruct enabled, prev; cbn -[PositionESO_update PositionESO_reset_to]; done.
Qed.

Lemma later_stages_observer `{Libm} dt c :
  pc_eso (yaw_defaults (velocityControl (positionControl dt c))) = pc_eso c.
Proof. done. Qed.

Lemma note_observer c : pc_eso (note_eso_enabled c) = pc_eso c.
Proof. done. Qed.

Lemma update_observer `{Libm} dt c :
  inputValid c = true -> pc_eso (fst (pos_update dt c)) = pc_eso (run_eso dt c).
Proof.
  intros Hv. unfold pos_update. rewrite Hv. cbv zeta. cbn [fst].
  etransitivity; [apply note_observer|apply later_stages_observer].
Qed.

(** The position observer is switched on in a cycle whose input is valid: it starts from the
    measured position and velocity.  When the input of that cycle is not valid, the switch
    is recorded all the same, so that the next cycle with a valid input runs the observer
    from whatever estimates it held before, without that start. *)
Theorem pos_eso_start `{Libm} (dt dt' : f32) (c : ESOPositionControl) (s : PositionControlStates)
    (sp : local_position_setpoint) :
  pc_eso_update_enabled c = true -> pc_eso_update_enabled_prev c = false ->
  let c1 := fst (pos_update dt c) in
  let c2 := setState s (setInputSetpoint sp c1) in
  if inputValid c
  then pc_eso c1 = PositionESO_update (PositionESO_reset_to (pc_pos c) (pc_vel c) (pc_eso c))
                     (pc_pos c) (pc_eso_input c) dt
  else inputValid c2 = true ->
       pc_eso (fst (pos_update dt' c2)) =
       PositionESO_update (pc_eso c) (st_position s) (pc_eso_input c) dt'.
Proof.
  intros He Hp. cbv zeta. destruct (inputValid c) eqn:Hv.
  - rewrite update_observer, run_eso_observer, He, Hp by done. done.
  - rewrite update_invalid by done. cbn [fst]. intros Hv'.
    rewrite update_observer by done. rewrite run_eso_observer.
    set (c2 := setState s _). change (pc_eso_update_enabled c2) with (pc_eso_update_enabled c).
    change (pc_eso_update_enabled_prev c2) with (pc_eso_update_enabled c). by rewrite He.
Qed.

(** Switched on without any setpoint, then with a position setpoint far from the origin. *)
Lemma pos_eso_start_witness :
  let c := setESOUpdateEnabled true
             (setInputSetpoint (mkSetpoint 0 nan3 nan3 nan3 nan3 f0 f0)
                (pos_resetIntegral demo_control)) in
  let s := mkStates (V3 (f32_of_Z 100) f0 f0) pv0 pv0 f0 in
  let sp := mkSetpoint 0 (V3 (f32_of_Z 100) f0 f0) nan3 nan3 nan3 f0 f0 in
  let c1 := fst (@pos_update demo_libm (flit 1 50) c) in
  pc_eso (fst (@pos_update demo_libm (flit 1 50) (setState s (setInputSetpoint sp c1)))) =
  PositionESO_update (pc_eso c) (st_position s) (pc_eso_input c) (flit 1 50).
Proof.
  intros c s sp c1.
  exact (@pos_eso_start demo_libm (flit 1 50) (flit 1 50) c s sp eq_refl eq_refl eq_refl).
Defined.
