(* ===== verification/PosModule.v ===== *)
(** * The position control module

    The work item of src/src/modules/eso_pos_control/ESOMulticopterPositionControl.cpp: on
    every position estimate it cleans the states, follows estimator resets, drives the
    takeoff machine, sets the limits, runs the position controller and falls back to a
    failsafe setpoint when the controller rejects its input.  Topics are the inputs of a
    cycle ([cycle_in], an optional message per subscription), parameters a record, and what
    is published is the output.  The velocity derivatives of src/src/lib/controllib and the
    slew rate of src/src/lib/slew_rate are modelled with it.  The configuration and the centre
    of mass are those of [PosParams]; log messages and performance counters are left out. *)
From Stdlib Require Import Floats.SpecFloat.
From coqutil Require Import Datatypes.RecordSettersUsingExistingGetters.
From S2P Require Import Prelude Float32 Linalg Eso Takeoff ControlMath PosControl.
Local Open Scope Z_scope.

(** ** controllib: a low-pass filtered derivative *)

Record BlockDerivative := mkDerivative {
  bd_u : f32;
  bd_initialized : bool;
  bd_lowpass : f32
}.

Definition BlockDerivative_new : BlockDerivative := mkDerivative f0 false fnan.

(** [BlockLowPass::update]: the new state, which is also the output. *)
Definition lowpass_update (fCut dt input state : f32) : f32 :=
  let state := if PX4_ISFINITE state then state else input in
  let b := fmul (fmul (fmul (f32_of_Z 2) MATH_PI_f) fCut) dt in
  let a := fdiv b (fadd f1 b) in
  fadd (fmul a input) (fmul (fsub f1 a) state).

Definition derivative_update (fCut dt input : f32) (d : BlockDerivative) : BlockDerivative * f32 :=
  if bd_initialized d then
    let output := lowpass_update fCut dt (fdiv (fsub input (bd_u d)) dt) (bd_lowpass d) in
    (mkDerivative input true output, output)
  else
    (mkDerivative input true (lowpass_update fCut dt f0 (bd_lowpass d)), f0).

Definition derivative_reset (d : BlockDerivative) : BlockDerivative :=
  mkDerivative (bd_u d) false (bd_lowpass d).

(** ** SlewRate *)

Record SlewRate := mkSlewRate { slew_rate : f32; slew_value : f32 }.

Definition slew_update (new_value deltatime : f32) (s : SlewRate) : SlewRate :=
  let dvalue_desired := fsub new_value (slew_value s) in
  let dvalue_max := fmul (slew_rate s) deltatime in
  let dvalue := math_constrain dvalue_desired (fneg dvalue_max) dvalue_max in
  mkSlewRate (slew_rate s) (fadd (slew_value s) dvalue).

(** ** Messages and parameters *)

Record local_position := mkLocalPosition {
  lp_timestamp : Z;
  lp_timestamp_sample : Z;
  xy_valid : bool;
  z_valid : bool;
  v_xy_valid : bool;
  v_z_valid : bool;
  lp_pos : vec3 f32;
  lp_vel : vec3 f32;
  z_deriv : f32;
  heading : f32;
  delta_xy : vec2 f32;
  delta_z : f32;
  delta_vxy : vec2 f32;
  delta_vz : f32;
  delta_heading : f32;
  xy_reset_counter : Z;
  z_reset_counter : Z;
  vxy_reset_counter : Z;
  vz_reset_counter : Z;
  heading_reset_counter : Z
}.

Record control_mode := mkControlMode {
  flag_armed : bool;
  flag_multicopter_position_control_enabled : bool;
  flag_control_offboard_enabled : bool
}.

Record land_detected := mkLandDetected { ground_contact : bool; landed : bool }.

Record vehicle_constraints := mkConstraints {
  speed_up : f32;
  speed_down : f32;
  want_takeoff : bool
}.

Record pos_params := mkPosParams {
  ESO_XY_VEL_MAX : f32;
  ESO_Z_VEL_MAX_UP : f32;
  ESO_Z_VEL_MAX_DN : f32;
  ESO_TILTMAX_AIR : f32;
  ESO_TILTMAX_LND : f32;
  ESO_THR_HOVER : f32;
  ESO_THR_MIN : f32;
  ESO_THR_MAX : f32;
  ESO_LAND_SPEED : f32;
  ESO_USE_HTE : bool;
  ESO_POS_ESOGATE : bool;
  VELD_LP : f32
}.

(** What a cycle receives: the estimate, and from every other topic a new message or
    nothing; [abs_time] is hrt_absolute_time(). *)
Record cycle_in := mkCycleIn {
  ci_local_pos : local_position;
  ci_control_mode : option control_mode;
  ci_land_detected : option land_detected;
  ci_attitude : option (quat f32);
  ci_angular_velocity : option (vec3 f32);
  ci_hover_thrust : option (f32 * bool);
  ci_trajectory : option local_position_setpoint;
  ci_constraints : option vehicle_constraints;
  abs_time : Z
}.

(** ** State *)

Record reset_counters := mkCounters {
  rc_xy : Z; rc_z : Z; rc_vxy : Z; rc_vz : Z; rc_heading : Z
}.

Record pos_module := mkPosModule {
  pm_control : ESOPositionControl;
  pm_takeoff : ESOTakeoff;
  pm_tilt : SlewRate;
  pm_failsafe : Hysteresis;
  pm_vel_deriv : vec3 BlockDerivative;
  pm_setpoint : local_position_setpoint;
  pm_constraints : vehicle_constraints;
  pm_mode : control_mode;
  pm_land : land_detected;
  pm_counters : reset_counters;
  pm_time_last_loop : Z;
  pm_in_failsafe : bool
}.

Definition reset_setpoint_to_nan (sp : local_position_setpoint) : local_position_setpoint :=
  let n := V3 fnan fnan fnan in mkSetpoint (sp_timestamp sp) n n n n fnan fnan.

(** A zero-initialised message. *)
Definition setpoint_zero : local_position_setpoint := mkSetpoint 0 pv0 pv0 pv0 pv0 f0 f0.

(** The module as constructed, before the parameters are applied. *)
Definition pos_module_new : pos_module :=
  mkPosModule ESOPositionControl_new ESOTakeoff_new (mkSlewRate (flit 2 10) f0)
    (set_hysteresis_time_from false 200000 (Hysteresis_new false))
    (V3 BlockDerivative_new BlockDerivative_new BlockDerivative_new)
    (reset_setpoint_to_nan setpoint_zero)
    (mkConstraints fnan fnan false) (mkControlMode false false false)
    (mkLandDetected true true) (mkCounters 0 0 0 0 0) 0 false.

(** ** States *)

(** The states the controller may use, NaN where the estimate is not valid, and the
    derivatives, which are reset while there is no velocity. *)
Definition set_vehicle_states (fCut dt : f32) (lp : local_position) (ds : vec3 BlockDerivative)
  : vec3 BlockDerivative * PositionControlStates :=
  let p := lp_pos lp in let v := lp_vel lp in
  let pxy_ok := PX4_ISFINITE (v_x p) && PX4_ISFINITE (v_y p) && xy_valid lp in
  let pz_ok := PX4_ISFINITE (v_z p) && z_valid lp in
  let vxy_ok := PX4_ISFINITE (v_x v) && PX4_ISFINITE (v_y v) && v_xy_valid lp in
  let vz_ok := PX4_ISFINITE (v_z v) && v_z_valid lp in
  let pick (ok : bool) (x : f32) : f32 := if ok then x else fnan in
  let deriv (ok : bool) (x : f32) (d : BlockDerivative) : BlockDerivative * f32 :=
    if ok then derivative_update fCut dt x d else (derivative_reset d, fnan) in
  let '(dx, ax) := deriv vxy_ok (v_x v) (v_x ds) in
  let '(dy, ay) := deriv vxy_ok (v_y v) (v_y ds) in
  let '(dz, az) := deriv vz_ok (v_z v) (v_z ds) in
  (V3 dx dy dz,
   mkStates (V3 (pick pxy_ok (v_x p)) (pick pxy_ok (v_y p)) (pick pz_ok (v_z p)))
     (V3 (pick vxy_ok (v_x v)) (pick vxy_ok (v_y v)) (pick vz_ok (v_z v)))
     (V3 ax ay az) (heading lp)).

(** ** Failsafe *)

(** The setpoint that stops the vehicle, or lets it descend, once the controller has failed
    for the loiter time; before that the caller's setpoint is left alone. *)
Definition failsafe_setpoint (land_speed : f32) (s : PositionControlStates)
    (sp : local_position_setpoint) : local_position_setpoint :=
  let sp := reset_setpoint_to_nan sp in
  let v := st_velocity s in
  let '(vel, acc) :=
    if PX4_ISFINITE (v_x v) && PX4_ISFINITE (v_y v)
    then (V3 f0 f0 (v_z (sp_vel sp)), sp_acc sp)
    else (V3 (v_x (sp_vel sp)) (v_y (sp_vel sp)) land_speed, V3 f0 f0 (v_z (sp_acc sp))) in
  let '(vel, acc) :=
    if PX4_ISFINITE (v_z v)
    then (if negb (PX4_ISFINITE (v_z vel)) then V3 (v_x vel) (v_y vel) f0 else vel, acc)
    else (V3 (v_x vel) (v_y vel) fnan, V3 (v_x acc) (v_y acc) (flit 3 10)) in
  sp <| sp_vel := vel |> <| sp_acc := acc |>.

Definition failsafe (land_speed : f32) (now : Z) (s : PositionControlStates)
    (sp : local_position_setpoint) (m : pos_module) : pos_module * local_position_setpoint :=
  let h := set_state_and_update true now (pm_failsafe m) in
  let m := m <| pm_failsafe := h |> in
  if hy_state h then (m <| pm_in_failsafe := true |>, failsafe_setpoint land_speed s sp)
  else (m, sp).

(** ** One cycle *)

Section WithLibm.
Context `{Libm}.
Variable params : pos_params.

Definition time_step (now last : Z) : f32 :=
  math_constrain (fmul (f32_of_Z (u64 (now - last))) (flit 1 1000000)) (flit 2 1000) (flit 4 100).

(** New messages, attitude, rates and the hover thrust estimate. *)
Definition take_messages (i : cycle_in) (m : pos_module) : pos_module :=
  let c := pm_control m in
  let c := match ci_attitude i with Some q => setAttitude q c | None => c end in
  let c := match ci_angular_velocity i with Some w => setBodyRate w c | None => c end in
  let c :=
    if ESO_USE_HTE params then
      match ci_hover_thrust i with
      | Some (h, true) => updateHoverThrust h c
      | _ => c
      end
    else c in
  m <| pm_mode := default (pm_mode m) (ci_control_mode i) |>
    <| pm_land := default (pm_land m) (ci_land_detected i) |> <| pm_control := c |>.

(** A reset of the estimator moves the setpoint along. *)
Definition follow_resets (lp : local_position) (k : reset_counters) (sp : local_position_setpoint)
  : local_position_setpoint :=
  if sp_timestamp sp <? lp_timestamp lp then
    let v := sp_vel sp in
    let v := if vxy_reset_counter lp =? rc_vxy k then v
             else V3 (fadd (v_x v) (v2_x (delta_vxy lp))) (fadd (v_y v) (v2_y (delta_vxy lp))) (v_z v) in
    let v := if vz_reset_counter lp =? rc_vz k then v
             else V3 (v_x v) (v_y v) (fadd (v_z v) (delta_vz lp)) in
    let p := sp_pos sp in
    let p := if xy_reset_counter lp =? rc_xy k then p
             else V3 (fadd (v_x p) (v2_x (delta_xy lp))) (fadd (v_y p) (v2_y (delta_xy lp))) (v_z p) in
    let p := if z_reset_counter lp =? rc_z k then p
             else V3 (v_x p) (v_y p) (fadd (v_z p) (delta_z lp)) in
    let yaw := if heading_reset_counter lp =? rc_heading k then sp_yaw sp
               else fadd (sp_yaw sp) (delta_heading lp) in
    sp <| sp_vel := v |> <| sp_pos := p |> <| sp_yaw := yaw |>
  else sp.

(** Offboard: a recent setpoint above the vehicle asks for takeoff. *)
Definition offboard_wants_takeoff (i : cycle_in) (m : pos_module) (s : PositionControlStates) : bool :=
  let sp := pm_setpoint m in
  let recent := flag_armed (pm_mode m) && landed (pm_land m)
                && (u64 (abs_time i - sp_timestamp sp) <? 1000000) in
  recent &&
  (PX4_ISFINITE (v_z (sp_pos sp)) && flt (v_z (sp_pos sp)) (v_z (st_position s))
   || PX4_ISFINITE (v_z (sp_vel sp)) && flt (v_z (sp_vel sp)) f0
   || PX4_ISFINITE (v_z (sp_acc sp)) && flt (v_z (sp_acc sp)) f0).

Definition update_constraints (i : cycle_in) (s : PositionControlStates) (m : pos_module)
  : pos_module :=
  let up := ESO_Z_VEL_MAX_UP params in
  let k := default (pm_constraints m) (ci_constraints i) in
  let k := if negb (PX4_ISFINITE (speed_up k)) || fgt (speed_up k) up
           then k <| speed_up := up |> else k in
  let k :=
    if flag_control_offboard_enabled (pm_mode m)
    then mkConstraints up (ESO_Z_VEL_MAX_DN params) (offboard_wants_takeoff i m s)
    else k in
  m <| pm_constraints := k |>.

Definition flying (m : pos_module) : bool := negb (state_lt (tk_state (pm_takeoff m)) flight).

(** The takeoff machine, the observer gate, and the setpoint of a vehicle on the ground. *)
Definition drive_takeoff (updated : bool) (now : Z) (m : pos_module) : pos_module :=
  let k := pm_constraints m in
  let t := updateTakeoffState (flag_armed (pm_mode m)) (landed (pm_land m)) (want_takeoff k)
             (speed_up k) false now (pm_takeoff m) in
  let m := m <| pm_takeoff := t |> in
  let fl := flying m in
  let m := m <| pm_control := setESOUpdateEnabled (negb (ESO_POS_ESOGATE params) || fl)
                                (pm_control m) |> in
  if updated then
    let m :=
      if fl then m
      else
        let sp := pm_setpoint m in
        m <| pm_setpoint := sp <| sp_acc := V3 (v_x (sp_acc sp)) (v_y (sp_acc sp)) fnan |> |>
          <| pm_control := setHoverThrust (ESO_THR_HOVER params) (pm_control m) |> in
    if state_lt (tk_state t) rampup || fl && ground_contact (pm_land m) then
      m <| pm_setpoint := (reset_setpoint_to_nan (pm_setpoint m))
                            <| sp_acc := V3 f0 f0 (f32_of_Z 100) |> |>
        <| pm_control := pos_resetIntegral (pm_control m) |>
    else m
  else m.

(** Tilt, climb, thrust and velocity limits. *)
Definition set_limits (dt : f32) (m : pos_module) : pos_module :=
  let t := tk_state (pm_takeoff m) in
  let fl := flying m in
  let tilt_deg := if state_lt t flight then ESO_TILTMAX_LND params else ESO_TILTMAX_AIR params in
  let tilt := slew_update (math_radians tilt_deg) dt (pm_tilt m) in
  let k := pm_constraints m in
  let '(tk, up) :=
    updateRamp dt (if PX4_ISFINITE (speed_up k) then speed_up k else ESO_Z_VEL_MAX_UP params)
      (pm_takeoff m) in
  let down := if PX4_ISFINITE (speed_down k) then speed_down k else ESO_Z_VEL_MAX_DN params in
  let c := setTiltLimit (slew_value tilt) (pm_control m) in
  let c := setThrustLimits (if fl then ESO_THR_MIN params else f0) (ESO_THR_MAX params) c in
  let c := setVelocityLimits (ESO_XY_VEL_MAX params) (math_min up (ESO_Z_VEL_MAX_UP params))
             (math_max down f0) c in
  m <| pm_tilt := tilt |> <| pm_takeoff := tk |> <| pm_control := c |>.

(** The setpoint with NaN replaced: position by the current one, the rest by zero. *)
Definition sanitize (s : PositionControlStates) (sp : local_position_setpoint)
  : local_position_setpoint :=
  let or_else (d x : f32) : f32 := if PX4_ISFINITE x then x else d in
  sp <| sp_pos := v3_map2 or_else (st_position s) (sp_pos sp) |>
    <| sp_vel := v3_map (or_else f0) (sp_vel sp) |>
    <| sp_acc := v3_map (or_else f0) (sp_acc sp) |>
    <| sp_yaw := or_else (st_yaw s) (sp_yaw sp) |>
    <| sp_yawspeed := or_else f0 (sp_yawspeed sp) |>.

(** [fminf]: the number when the other argument is NaN. *)
Definition fminf (x y : f32) : f32 := if is_nan x then y else if is_nan y then x else math_min x y.

(** The vertical velocity blended with the derivative of the altitude. *)
Definition blend_velocity (lp : local_position) (sp : local_position_setpoint)
    (s : PositionControlStates) : PositionControlStates :=
  let vz := v_z (sp_vel sp) in
  if negb (PX4_ISFINITE (v_z (sp_pos sp))) && PX4_ISFINITE vz && fgt (fabs vz) FLT_EPSILON
     && PX4_ISFINITE (z_deriv lp) && z_valid lp && v_z_valid lp then
    let w := fminf (fdiv (fabs vz) (ESO_LAND_SPEED params)) f1 in
    let v := st_velocity s in
    s <| st_velocity := V3 (v_x v) (v_y v)
           (fadd (fmul (z_deriv lp) w) (fmul (v_z (lp_vel lp)) (fsub f1 w))) |>
  else s.

(** The controller, and the failsafe when it reports an invalid result. *)
Definition run_controller (dt : f32) (now : Z) (s : PositionControlStates) (m : pos_module)
  : pos_module :=
  let '(c, ok) := pos_update dt (pm_control m) in
  let m := m <| pm_control := c |> in
  if ok then m <| pm_failsafe := set_state_and_update false now (pm_failsafe m) |>
  else
    let '(m, sp) := failsafe (ESO_LAND_SPEED params) now s setpoint_zero m in
    let m := m <| pm_constraints := mkConstraints fnan fnan false |> in
    let c := setInputSetpoint sp (pm_control m) in
    let c := setVelocityLimits (ESO_XY_VEL_MAX params) (ESO_Z_VEL_MAX_UP params)
               (ESO_Z_VEL_MAX_DN params) c in
    m <| pm_control := fst (pos_update dt c) |>.

(** What a cycle publishes: the executed setpoint and the attitude setpoint, if the module
    is in control, and the takeoff state with its tilt limit. *)
Record cycle_out := mkCycleOut {
  co_setpoints : option (local_position_setpoint * attitude_setpoint);
  co_takeoff_state : Z;
  co_tilt_limit : f32
}.

Definition run_position (i : cycle_in) (dt : f32) (s : PositionControlStates) (m : pos_module)
  : pos_module :=
  let lp := ci_local_pos i in
  let now := lp_timestamp_sample lp in
  let updated := match ci_trajectory i with Some _ => true | None => false end in
  let m := m <| pm_setpoint := follow_resets lp (pm_counters m)
                                 (default (pm_setpoint m) (ci_trajectory i)) |> in
  let m := update_constraints i s m in
  let m := drive_takeoff updated now m in
  let m := set_limits dt m in
  let c := setInputSetpoint (sanitize s (pm_setpoint m)) (pm_control m) in
  let s := blend_velocity lp (pm_setpoint m) s in
  run_controller dt now s (m <| pm_control := setState s c |>).

Definition Run (i : cycle_in) (m : pos_module) : pos_module * cycle_out :=
  let lp := ci_local_pos i in
  let now := lp_timestamp_sample lp in
  let dt := time_step now (pm_time_last_loop m) in
  let m := m <| pm_time_last_loop := now |> <| pm_in_failsafe := false |> in
  let m := take_messages i m in
  let '(ds, s) := set_vehicle_states (VELD_LP params) dt lp (pm_vel_deriv m) in
  let m := m <| pm_vel_deriv := ds |> in
  let active := flag_multicopter_position_control_enabled (pm_mode m) in
  let m :=
    if active then run_position i dt s m
    else m <| pm_takeoff := updateTakeoffState (flag_armed (pm_mode m)) (landed (pm_land m)) false
                              (f32_of_Z 10) true now (pm_takeoff m) |> in
  let out :=
    if active
    then Some (getLocalPositionSetpoint (pm_control m) setpoint_zero,
               getAttitudeSetpoint (pm_control m) attitude_setpoint_zero)
    else None in
  let counters := mkCounters (xy_reset_counter lp) (z_reset_counter lp) (vxy_reset_counter lp)
                    (vz_reset_counter lp) (heading_reset_counter lp) in
  (m <| pm_counters := counters |>,
   mkCycleOut out (takeoff_state_num (tk_state (pm_takeoff m))) (slew_value (pm_tilt m))).

End WithLibm.
