(* ===== verification/PosModuleSpec.v ===== *)
(** * Properties of the position control module

    The time step is always in its range; a valid estimate is always controlled, whatever
    the commanded setpoint; and what the failsafe makes of the controller: for the loiter
    time it is sent to the origin, and after it every failsafe setpoint ends in an attitude
    setpoint that is not a number. *)
From Stdlib Require Import Floats.SpecFloat.
From coqutil Require Import Datatypes.RecordSettersUsingExistingGetters.
From S2P Require Import Prelude Float32 Linalg Eso Takeoff ControlMath PosControl PosControlSpec PosModule.
Local Open Scope Z_scope.

(** ** The time step *)

(** The time step that the controller, its observer and the derivatives use lies between 2
    and 40 milliseconds for every pair of time stamps. *)
Theorem time_step_range (now last : Z) :
  fle (flit 2 1000) (time_step now last) = true /\ fle (time_step now last) (flit 4 100) = true.
Proof.
  apply constrain_in_range; [|by vm_compute].
  assert (E : exists m e, flit 1 1000000 = S754_finite false m e) by (by eexists _, _; vm_compute).
  destruct E as (m & e & ->). apply fmul_num, f32_of_Z_num.
Qed.

(** ** Sanitised setpoints *)

Lemma sanitize_pos s sp : finite3 (st_position s) -> finite3 (sp_pos (sanitize s sp)).
Proof.
  intros Hs i. change (sp_pos (sanitize s sp)) with
    (v3_map2 (fun d x => if PX4_ISFINITE x then x else d) (st_position s) (sp_pos sp)).
  rewrite proj_map2. destruct (PX4_ISFINITE (proj i (sp_pos sp))) eqn:E; [done|apply Hs].
Qed.

Lemma sanitize_vel_acc s sp : finite3 (sp_vel (sanitize s sp)) /\ finite3 (sp_acc (sanitize s sp)).
Proof.
  split; intros i; [change (sp_vel (sanitize s sp)) with
      (v3_map (fun x => if PX4_ISFINITE x then x else f0) (sp_vel sp))
    |change (sp_acc (sanitize s sp)) with
      (v3_map (fun x => if PX4_ISFINITE x then x else f0) (sp_acc sp))];
    rewrite proj_map; by case_match.
Qed.

Lemma inputValid_intro c :
  finite3 (pc_pos_sp c) -> finite3 (pc_vel_sp c) -> finite3 (pc_acc_sp c) ->
  finite3 (pc_pos c) -> finite3 (pc_vel c) -> finite3 (pc_vel_dot c) -> inputValid c = true.
Proof.
  intros H1 H2 H3 H4 H5 H6.
  unfold inputValid, axis_has_setpoint, axis_state_known, xy_paired.
  pose proof (H1 ax_x) as A1. pose proof (H1 ax_y) as A2. pose proof (H2 ax_x) as B1.
  pose proof (H2 ax_y) as B2. pose proof (H3 ax_x) as C1. pose proof (H3 ax_y) as C2.
  cbn [proj] in A1, A2, B1, B2, C1, C2.
  rewrite A1, A2, B1, B2, C1, C2, !H1, !H2, !H4, !H5, !H6. done.
Qed.

(** With an estimate whose position, velocity and velocity derivative are finite, the
    sanitised setpoint is always accepted by the controller's input check, whatever the
    trajectory setpoint holds (NaN or infinity in any component included). *)
Theorem sanitized_setpoint_accepted (s : PositionControlStates) (sp : local_position_setpoint)
    (c : ESOPositionControl) :
  finite3 (st_position s) -> finite3 (st_velocity s) -> finite3 (st_acceleration s) ->
  inputValid (setState s (setInputSetpoint (sanitize s sp) c)) = true.
Proof.
  intros Hp Hv Ha. destruct (sanitize_vel_acc s sp) as [Sv Sa].
  apply inputValid_intro; [exact (sanitize_pos s sp Hp)|exact Sv|exact Sa|exact Hp|exact Hv|exact Ha].
Qed.

Lemma sanitized_setpoint_accepted_witness :
  inputValid (setState (mkStates (V3 f1 f1 f1) pv0 pv0 f0)
    (setInputSetpoint (sanitize (mkStates (V3 f1 f1 f1) pv0 pv0 f0)
       (mkSetpoint 0 nan3 (V3 fnan f1 (S754_infinity false)) nan3 nan3 fnan fnan)) demo_control)) = true.
Proof. apply sanitized_setpoint_accepted; by intros []. Defined.

(** ** Failsafe *)

(** The horizontal part of a failsafe setpoint: no position, and a velocity that is zero or
    not given. *)
Lemma failsafe_setpoint_xy land_speed s sp :
  let f := failsafe_setpoint land_speed s sp in
  sp_pos f = nan3 /\
  (v3_xy (sp_vel f) = V2 f0 f0 \/ v3_xy (sp_vel f) = V2 fnan fnan).
Proof.
  unfold failsafe_setpoint. destruct (PX4_ISFINITE (v_x (st_velocity s)) && _);
    destruct (PX4_ISFINITE (v_z (st_velocity s))); cbn; auto.
  - by destruct (PX4_ISFINITE land_speed); auto.
Qed.

Lemma xy_zero_normalized k : v2_scale (v2_normalized (V2 f0 f0)) k = V2 fnan fnan.
Proof.
  assert (E : v2_normalized (V2 f0 f0) = V2 fnan fnan) by (by vm_compute).
  rewrite E. apply v2_scale_nan.
Qed.

(** No position and no velocity: the limiter has nothing to scale and returns NaN, below and
    above the limit. *)
Lemma limited_standing c :
  no_xy_position c -> xy_velocity c = V2 f0 f0 -> v_x (vel_sp_limited c) = fnan.
Proof.
  intros Hp Hv. pose proof (limited_no_position c Hp) as E. rewrite Hv, xy_zero_normalized in E.
  apply (v3_xy_x _ fnan fnan). destruct (fge _ _); exact E.
Qed.

Lemma xy_velocity_setpoint sp c :
  xy_velocity (setInputSetpoint sp c) = v3_xy (setZeroIfNanVector3f (sp_vel sp)).
Proof. done. Qed.

Lemma xy_velocity_zero v : v3_xy v = V2 f0 f0 \/ v3_xy v = V2 fnan fnan ->
  v3_xy (setZeroIfNanVector3f v) = V2 f0 f0.
Proof. destruct v. by intros [[= -> ->] | [= -> ->]]. Qed.

(** A failsafe setpoint makes the controller fail, without a number where it ran. *)
Lemma failsafe_update `{Libm} land_speed dt s sp c :
  let c1 := setInputSetpoint (failsafe_setpoint land_speed s sp) c in
  snd (pos_update dt c1) = false /\
  (inputValid c1 = true ->
   v_x (pc_thr_sp (fst (pos_update dt c1))) = fnan /\
   v_y (pc_thr_sp (fst (pos_update dt c1))) = fnan).
Proof.
  cbv zeta. destruct (failsafe_setpoint_xy land_speed s sp) as [Hp Hv].
  set (c1 := setInputSetpoint (failsafe_setpoint land_speed s sp) c).
  assert (Hnp : no_xy_position c1).
  { unfold no_xy_position. change (pc_pos_sp c1) with (sp_pos (failsafe_setpoint land_speed s sp)).
    by rewrite Hp. }
  assert (Hxy : xy_velocity c1 = V2 f0 f0).
  { unfold c1. rewrite xy_velocity_setpoint. by apply xy_velocity_zero. }
  clearbody c1. destruct (inputValid c1) eqn:E; [|by rewrite update_invalid].
  pose proof (update_nan dt c1 E (limited_standing c1 Hnp Hxy)) as HU.
  destruct (pos_update dt c1) as [c' ok]. by destruct HU as (-> & Hx & Hy).
Qed.

(** Every failsafe setpoint (stop and wait, blind land, blind descend) makes the controller
    fail, for all states, gains and limits: the update reports failure, and if it ran at all
    the thrust and the published attitude setpoint are not a number, so that the failsafe
    commands no thrust instead of stopping or descending. *)
Theorem failsafe_output_nan `{Libm} (land_speed dt : f32) (s : PositionControlStates)
    (sp : local_position_setpoint) (c : ESOPositionControl) (att : attitude_setpoint) :
  let c1 := setInputSetpoint (failsafe_setpoint land_speed s sp) c in
  let c' := fst (pos_update dt c1) in
  snd (pos_update dt c1) = false /\
  (inputValid c1 = true ->
   v_x (pc_thr_sp c') = fnan /\ v_y (pc_thr_sp c') = fnan /\
   quat_nan (q_d (getAttitudeSetpoint c' att)) /\
   v_z (thrust_body (getAttitudeSetpoint c' att)) = fnan).
Proof.
  cbv zeta. destruct (failsafe_update land_speed dt s sp c) as [H1 H2]. split; [done|].
  intros Hv. destruct (H2 Hv) as [Hx Hy]. split; [done|]. split; [done|]. by apply attitude_nan.
Qed.

(** Stop and wait with a known velocity, on the tuned controller. *)
Lemma failsafe_output_nan_witness :
  let s := mkStates nan3 pv0 pv0 f0 in
  let c1 := setInputSetpoint (failsafe_setpoint f1 s setpoint_zero) (setState s demo_control) in
  v_z (thrust_body (@getAttitudeSetpoint demo_libm (fst (@pos_update demo_libm (flit 1 50) c1))
                      attitude_setpoint_zero)) = fnan.
Proof.
  intros s c1.
  pose proof (@failsafe_output_nan demo_libm f1 (flit 1 50) s setpoint_zero (setState s demo_control)
                attitude_setpoint_zero) as HW.
  apply HW. by vm_compute.
Defined.

Section Loiter.
Context `{Libm}.

Lemma run_eso_pos_sp dt c : pc_pos_sp (run_eso dt c) = pc_pos_sp c.
Proof. by destruct (run_eso_frame dt c) as (_ & _ & _ & _ & -> & _). Qed.

Lemma later_stages_pos_sp dt c :
  pc_pos_sp (yaw_defaults (velocityControl (positionControl dt c))) = pc_pos_sp c.
Proof. done. Qed.

Lemma note_pos_sp c : pc_pos_sp (note_eso_enabled c) = pc_pos_sp c.
Proof. done. Qed.

(** A cycle does not change the position setpoint. *)
Lemma update_pos_sp dt c : pc_pos_sp (fst (pos_update dt c)) = pc_pos_sp c.
Proof.
  unfold pos_update. cbv zeta. cbn [fst]. destruct (inputValid c); [|apply note_pos_sp].
  etransitivity; [apply note_pos_sp|]. etransitivity; [apply later_stages_pos_sp|].
  apply run_eso_pos_sp.
Qed.

(** The controller of [run_controller] after a failed cycle. *)
Lemma run_controller_fail params dt now s m :
  snd (pos_update dt (pm_control m)) = false ->
  exists c,
    pm_control (run_controller params dt now s m) =
      fst (pos_update dt (setVelocityLimits (ESO_XY_VEL_MAX params) (ESO_Z_VEL_MAX_UP params)
             (ESO_Z_VEL_MAX_DN params) (setInputSetpoint
                (if hy_state (set_state_and_update true now (pm_failsafe m))
                 then failsafe_setpoint (ESO_LAND_SPEED params) s setpoint_zero
                 else setpoint_zero) c))).
Proof.
  intros Hf. unfold run_controller, failsafe. destruct (pos_update dt (pm_control m)) as [c ok].
  cbn [snd] in Hf. subst ok. exists c. cbv zeta.
  change (pm_failsafe (m <| pm_control := c |>)) with (pm_failsafe m).
  by destruct (hy_state (set_state_and_update true now (pm_failsafe m))).
Qed.

End Loiter.

Lemma setInput_pos_sp h u d sp c :
  pc_pos_sp (setVelocityLimits h u d (setInputSetpoint sp c)) = sp_pos sp.
Proof. done. Qed.

(** When a cycle fails while the failsafe delay has not passed, the controller is run again on
    a zero-initialised setpoint: for the length of the delay the vehicle is commanded to the
    origin of the local frame, not to the setpoint it had. *)
Theorem failsafe_delay_targets_origin `{Libm} (params : pos_params) (dt : f32) (now : Z)
    (s : PositionControlStates) (m : pos_module) :
  snd (pos_update dt (pm_control m)) = false ->
  hy_state (set_state_and_update true now (pm_failsafe m)) = false ->
  pc_pos_sp (pm_control (run_controller params dt now s m)) = V3 f0 f0 f0.
Proof.
  intros Hf Hh. destruct (run_controller_fail params dt now s m Hf) as [c ->].
  rewrite Hh, update_pos_sp, setInput_pos_sp. done.
Qed.

(** Hovering ten metres up with a setpoint there; one axis of the velocity is lost. *)
Lemma failsafe_delay_targets_origin_witness :
  let params := mkPosParams (f32_of_Z 5) (f32_of_Z 3) f1 (f32_of_Z 45) (f32_of_Z 12) (flit 1 2)
                  (flit 1 10) f1 (flit 7 10) true true (f32_of_Z 5) in
  let up := V3 f0 f0 (f32_of_Z (-10)) in
  let s := mkStates up nan3 nan3 f0 in
  let m := pos_module_new <| pm_control :=
             setState s (setInputSetpoint (mkSetpoint 0 up pv0 nan3 nan3 f0 f0) demo_control) |> in
  pc_pos_sp (pm_control (@run_controller demo_libm params (flit 1 50) 5000000 s m)) = V3 f0 f0 f0.
Proof.
  intros params up s m.
  apply (@failsafe_delay_targets_origin demo_libm params (flit 1 50) 5000000 s m); by vm_compute.
Defined.
