(* ===== verification/LinalgReal.v ===== *)
(** * The matrix library over the real numbers

    The exact-arithmetic reading of the controllers uses the real numbers of the Standard
    Library, where square roots and trigonometric functions exist: instances of the scalar
    classes for [R], the round trip between unit quaternions and rotation matrices, and the
    inverse of a positive definite matrix (the inertia the rate controller inverts). *)
From Stdlib Require Import Reals Lra.
From S2P Require Import Prelude Float32 Linalg.
Local Open Scope R_scope.

#[export] Instance Scalar_R : Scalar R := {|
  s_zero := 0; s_add := Rplus; s_sub := Rminus; s_mul := Rmult; s_div := Rdiv; s_opp := Ropp;
  s_of_Z := IZR
|}.

Definition Rltb (x y : R) : bool := if Rlt_dec x y then true else false.

#[export] Instance ScalarOrd_R : ScalarOrd R := {|
  s_abs := Rabs; s_lt := Rltb; s_finite := fun _ => true; s_eps := 1 / 8388608
|}.

#[export] Instance ScalarRoot_R : ScalarRoot R := {|
  s_sqrt := sqrt; s_lit := fun n d => IZR n / IZR d
|}.

Lemma Rltb_true x y : Rltb x y = true <-> x < y.
Proof. unfold Rltb. by destruct (Rlt_dec x y). Qed.

Lemma Rltb_false x y : Rltb x y = false <-> y <= x.
Proof. unfold Rltb. destruct (Rlt_dec x y); split; (done || lra). Qed.

(** Unfolds the library's operations at [R]. *)
Ltac to_R :=
  cbv [m3_mul m3_vec m3_scale m3_identity m3_diag m3_transpose m3_det m3_add m3_zero m3_trace
       v3_add v3_sub v3_scale v3_emult v3_map v3_map2 v3_cross v3_dot v3_opp v3_zero v3_divs
       dcm_of_quat quat_mul quat_norm_squared quat_scale
       v_x v_y v_z m00 m01 m02 m10 m11 m12 m20 m21 m22 q_0 q_1 q_2 q_3
       s_zero s_add s_sub s_mul s_div s_opp s_of_Z s_sqrt s_lit s_lt s_abs s_finite s_eps
       Scalar_R ScalarOrd_R ScalarRoot_R] in *.

(** Equations between vectors and matrices of polynomials. *)
Ltac real_ring := to_R; f_equal; ring.

(** ** Quaternion and rotation matrix *)

Lemma sqrt_sq_abs x y : x = y * y -> sqrt x = Rabs y.
Proof. intros ->. apply sqrt_Rsqr_abs. Qed.

(** The root of a branch, and the quotient that the other components share. *)
Lemma root_branch s a : s = 4 * (a * a) -> a <> 0 ->
  1 / 2 * sqrt s = Rabs a /\ 1 / 2 / sqrt s = / (4 * Rabs a).
Proof.
  intros -> Ha. rewrite (sqrt_sq_abs _ (2 * a)) by ring.
  rewrite Rabs_mult, (Rabs_pos_eq 2) by lra.
  pose proof (Rabs_no_R0 a Ha). split; [field|]. field. done.
Qed.

Lemma quot_pos k a b : 0 < a -> k = 4 * (a * b) -> k * / (4 * Rabs a) = b.
Proof. intros Ha ->. rewrite Rabs_pos_eq by lra. field. lra. Qed.

Lemma quot_neg k a b : a < 0 -> k = 4 * (a * b) -> k * / (4 * Rabs a) = - b.
Proof. intros Ha ->. rewrite Rabs_left by done. field. lra. Qed.

Definition quat_opp (q : quat R) : quat R := Quat (- q_0 q) (- q_1 q) (- q_2 q) (- q_3 q).

(** One branch: the pivot component [p] is not zero, and every other component is recovered
    with the pivot's sign. *)
Ltac branch p :=
  match goal with
  | |- context [sqrt ?s] =>
      let Hr := fresh in
      destruct (root_branch s p) as [Hr ?]; [lra|assumption|];
      repeat match goal with H : _ / sqrt s = _ |- _ => rewrite H end; rewrite Hr;
      destruct (Rtotal_order p 0) as [Hp|[Hp|Hp]]; [|exfalso; auto|];
      [right; unfold quat_opp; cbn [q_0 q_1 q_2 q_3];
       f_equal; first [apply quot_neg; [assumption|lra] | by apply Rabs_left]
      |left; f_equal; first [apply quot_pos; [assumption|lra] | apply Rabs_pos_eq; lra]]
  end.

Lemma sq_pos_ne0 x : 0 < x * x -> x <> 0.
Proof. intros H ->. lra. Qed.

Lemma quat_dcm_unit (q : quat R) :
  quat_norm_squared q = 1 ->
  quat_of_dcm (dcm_of_quat q) = q \/ quat_of_dcm (dcm_of_quat q) = quat_opp q.
Proof.
  destruct q as [a b c d]. unfold quat_of_dcm. to_R. intros Hn.
  pose proof (Rle_0_sqr b) as Pb. pose proof (Rle_0_sqr c) as Pc. pose proof (Rle_0_sqr d) as Pd.
  unfold Rsqr in Pb, Pc, Pd.
  destruct (Rltb 0 _) eqn:E0.
  { apply Rltb_true in E0. assert (a <> 0) by (apply sq_pos_ne0; lra). branch a. }
  apply Rltb_false in E0. destruct (Rltb _ _ && Rltb _ _) eqn:E1.
  { apply andb_true_iff in E1 as [E1 E2]. apply Rltb_true in E1, E2.
    assert (b <> 0) by (apply sq_pos_ne0; lra). branch b. }
  destruct (Rltb (a * a - b * b - c * c + d * d) (a * a - b * b + c * c - d * d)) eqn:E2.
  { apply Rltb_true in E2. assert (c <> 0) by (apply sq_pos_ne0; lra). branch c. }
  apply Rltb_false in E2. assert (d <> 0).
  { apply sq_pos_ne0. apply andb_false_iff in E1 as [E1|E1]; apply Rltb_false in E1; lra. }
  branch d.
Qed.

Lemma quat_normalize_unit (q : quat R) :
  quat_norm_squared q <> 0 -> quat_norm_squared (quat_normalize q) = 1.
Proof.
  intros Hq. assert (Hp : 0 < quat_norm_squared q).
  { revert Hq. to_R. destruct q as [a b c d]. pose proof (Rle_0_sqr a). pose proof (Rle_0_sqr b).
    pose proof (Rle_0_sqr c). pose proof (Rle_0_sqr d). unfold Rsqr in *. lra. }
  unfold quat_normalize. set (n := quat_norm_squared q) in *.
  assert (Hs : s_sqrt n * s_sqrt n = n) by (apply sqrt_sqrt; lra).
  assert (Hn : s_sqrt n <> 0) by (apply Rgt_not_eq, sqrt_lt_R0; done).
  transitivity (n / (s_sqrt n * s_sqrt n)); [|rewrite Hs; field; done].
  unfold n. to_R. field. exact Hn.
Qed.

Lemma dcm_opp (q : quat R) : dcm_of_quat (quat_opp q) = dcm_of_quat q.
Proof. unfold quat_opp. to_R. f_equal; ring. Qed.

(** Quaternion and rotation matrix: in exact arithmetic the quaternion constructed from the
    matrix of a normalised quaternion is that quaternion up to its sign, whichever of the
    four branches the constructor takes, and its matrix is the same matrix. *)
Theorem quat_dcm_roundtrip (q : quat R) :
  quat_norm_squared q <> 0 ->
  let p := quat_normalize q in
  let r := quat_of_dcm (dcm_of_quat p) in
  (r = p \/ r = quat_opp p) /\ dcm_of_quat r = dcm_of_quat p.
Proof.
  intros Hq. cbv zeta. pose proof (quat_dcm_unit _ (quat_normalize_unit q Hq)) as H.
  split; [exact H|]. destruct H as [-> | ->]; [done|apply dcm_opp].
Qed.

(** Half a turn about a tilted axis: the trace is negative. *)
Lemma quat_dcm_roundtrip_witness :
  let p := quat_normalize (Quat 0 1 2 3) in
  dcm_of_quat (quat_of_dcm (dcm_of_quat p)) = dcm_of_quat p.
Proof. apply quat_dcm_roundtrip. to_R. lra. Defined.

(** ** Positive definite matrices *)

Definition m3_quad (A : mat3 R) (v : vec3 R) : R := v3_dot v (m3_vec A v).

Definition m3_symmetric (A : mat3 R) : Prop := m3_transpose A = A.

(** [A] is at least [k] times the identity. *)
Definition m3_above (k : R) (A : mat3 R) : Prop := forall v, k * v3_dot v v <= m3_quad A v.

Lemma m3_symmetric_offdiag A : m3_symmetric A -> m10 A = m01 A /\ m20 A = m02 A /\ m21 A = m12 A.
Proof. destruct A. unfold m3_symmetric, m3_transpose; cbn. intros H. injection H. auto. Qed.

Lemma m3_above_add k l A B : m3_above k A -> m3_above l B -> m3_above (k + l) (m3_add A B).
Proof.
  intros HA HB v. pose proof (HA v). pose proof (HB v).
  replace (m3_quad (m3_add A B) v) with (m3_quad A v + m3_quad B v); [lra|].
  unfold m3_quad. to_R. ring.
Qed.

Lemma m3_symmetric_add A B : m3_symmetric A -> m3_symmetric B -> m3_symmetric (m3_add A B).
Proof.
  intros HA%m3_symmetric_offdiag HB%m3_symmetric_offdiag. destruct HA as (?&?&?), HB as (?&?&?).
  unfold m3_symmetric, m3_transpose, m3_add; cbn. congruence.
Qed.

(** A positive definite matrix has a determinant bounded away from zero. *)
Lemma m3_above_det k A : m3_symmetric A -> 0 < k -> m3_above k A -> k * k * k <= m3_det A.
Proof.
  intros (E1 & E2 & E3)%m3_symmetric_offdiag Hk HA.
  destruct A as [a b c b' d e c' e' f]. cbn [m00 m01 m02 m10 m11 m12 m20 m21 m22] in *. subst b' c' e'.
  pose proof (HA (V3 1 0 0)) as H1. pose proof (HA (V3 (- b) a 0)) as H2.
  pose proof (HA (V3 (b * e - c * d) (b * c - a * e) (a * d - b * b))) as H3.
  unfold m3_quad in *. to_R.
  assert (Ha : k <= a) by lra. clear H1.
  set (m := a * d - b * b) in *.
  assert (Hm : k * a <= m).
  { apply (Rmult_le_reg_l a); [lra|]. pose proof (Rle_0_sqr b). unfold Rsqr in *. subst m. nra. }
  assert (Hm2 : k * k <= m) by nra. assert (Hmp : 0 < m) by nra.
  set (det := a * (d * f - e * e) - b * (b * f - e * c) + c * (b * e - d * c)).
  assert (Hd : k * m <= det).
  { apply (Rmult_le_reg_l m); [done|].
    pose proof (Rle_0_sqr (b * e - c * d)). pose proof (Rle_0_sqr (b * c - a * e)).
    unfold Rsqr in *. subst m det. nra. }
  apply Rle_trans with (k * m); [nra|exact Hd].
Qed.

(** The 3x3 inverse of such a matrix exists and is a two-sided inverse. *)
Lemma inv3_above k A :
  m3_symmetric A -> 1 / 200 <= k -> m3_above k A ->
  exists B, inv3 A = Some B /\ m3_mul A B = m3_identity /\ m3_mul B A = m3_identity.
Proof.
  intros Hs Hk HA. assert (Hd : 1 / 8000000 <= m3_det A).
  { pose proof (m3_above_det k A Hs ltac:(lra) HA). apply Rle_trans with (k * k * k); [|done].
    assert (1 / 40000 <= k * k) by nra. nra. }
  assert (El : s_lt (s_abs (m3_det A)) s_eps || negb (s_finite (m3_det A)) = false).
  { cbn -[m3_det Rltb]. rewrite orb_false_r, Rabs_pos_eq by lra. apply Rltb_false. lra. }
  unfold inv3. cbv zeta. rewrite El. eexists. split; [done|]. clear El Hs HA.
  assert (Hn : m3_det A <> 0) by lra. clear Hd. destruct A as [a b c d e f g h i]. revert Hn. to_R.
  intros Hn. split; f_equal; field; done.
Qed.
