(* ===== verification/ArmKinematics.v ===== *)
(** * Arm kinematics and model profiles

    ArmKinematics (src/src/modules/eso_att_control/ArmKinematics.hpp) computes the centre of
    mass and the inertia of the vehicle with its manipulator from the joint angles: by
    expanded trigonometry for the four-joint arm (UavArmV4), by a chain of rigid-body poses
    for the two-joint arm (UamV5), with a cache of the link positions between the two
    calls.  The static numbers of the two vehicles are in
    src/src/modules/eso_common/ESOModelProfile.hpp.  Like the matrix library the class is
    modelled over its scalar: at [f32] it is what the firmware computes, at [R] what the
    mechanical theorems are about. *)
From Stdlib Require Import Floats.SpecFloat.
From coqutil Require Import Datatypes.RecordSettersUsingExistingGetters.
From S2P Require Import Prelude Float32 Linalg Eso ControlMath.
Local Open Scope Z_scope.

Class Trig (T : Type) := {
  t_sin : T -> T;
  t_cos : T -> T;
  t_pi : T;            (** [M_PI_F] *)
  t_pi_2 : T           (** [M_PI_2_F] *)
}.

#[export] Instance Trig_f32 `{Libm} : Trig f32 := {|
  t_sin := sinf; t_cos := cosf; t_pi := MATH_PI_f; t_pi_2 := M_PI_2_f
|}.

(** ** Model profiles *)

Inductive ModelProfile := UavArmV4 | UamV5.

Definition resolveModelProfile (raw_value : Z) : ModelProfile :=
  if raw_value =? 1 then UamV5 else UavArmV4.

Record DynamicsProfile (T : Type) := mkDynamicsProfile {
  dp_mass_total : T;
  dp_com : vec3 T;
  arm_inertia_diag : vec3 T;
  body_inertia_diag : vec3 T;
  use_dynamic_arm_model : bool
}.
Arguments mkDynamicsProfile {T}. Arguments dp_mass_total {T}. Arguments dp_com {T}.
Arguments arm_inertia_diag {T}. Arguments body_inertia_diag {T}. Arguments use_dynamic_arm_model {T}.

(** The four joint angles of a message. *)
Record joints (T : Type) := Joints { j_0 : T; j_1 : T; j_2 : T; j_3 : T }.
Arguments Joints {T}. Arguments j_0 {T}. Arguments j_1 {T}. Arguments j_2 {T}. Arguments j_3 {T}.

(** A rigid-body pose. *)
Record Pose3f (T : Type) := mkPose { pose_R : mat3 T; pose_t : vec3 T }.
Arguments mkPose {T}. Arguments pose_R {T}. Arguments pose_t {T}.

(** The link positions that the cache keeps. *)
Record links (T : Type) := mkLinks {
  lk_p1 : vec3 T; lk_p2 : vec3 T; lk_p3 : vec3 T; lk_p4 : vec3 T; lk_com : vec3 T
}.
Arguments mkLinks {T}. Arguments lk_p1 {T}. Arguments lk_p2 {T}. Arguments lk_p3 {T}.
Arguments lk_p4 {T}. Arguments lk_com {T}.

Record ArmKinematics (T : Type) := mkArm {
  ak_mass_total : T;
  ak_base_com_offset : vec3 T;
  ak_base_inertia : mat3 T;
  ak_profile : ModelProfile;
  ak_links : links T;
  ak_cached_q : joints T;
  ak_v5_valid : bool
}.
Arguments mkArm {T}. Arguments ak_mass_total {T}. Arguments ak_base_com_offset {T}.
Arguments ak_base_inertia {T}. Arguments ak_profile {T}. Arguments ak_links {T}.
Arguments ak_cached_q {T}. Arguments ak_v5_valid {T}.

Section Arm.
Context {T : Type} `{Scalar T} `{ScalarOrd T} `{ScalarRoot T} `{Trig T}.
Local Open Scope scalar_scope.
Implicit Types q : joints T.

Definition kUavArmV4Profile : DynamicsProfile T :=
  mkDynamicsProfile (s_lit 1289 1000) (V3 (- s_lit 1 100) s_zero (s_lit 161 1000))
    (V3 (s_lit 16 1000) (s_lit 16 1000) (s_lit 16 1000))
    (V3 (s_lit 45 1000) (s_lit 45 1000) (s_lit 8 100)) true.

Definition kUamV5Profile : DynamicsProfile T :=
  mkDynamicsProfile (s_lit 48548 10000) (V3 (s_lit 405203 100000000) s_zero (s_lit 6556744 100000000))
    (V3 (s_lit 842308 100000000) (s_lit 4709706 100000000) (s_lit 4006098 100000000))
    (V3 (s_lit 49436 1000000) (s_lit 52665 1000000) (s_lit 86619 1000000)) true.

Definition getDynamicsProfile (profile : ModelProfile) : DynamicsProfile T :=
  match profile with UamV5 => kUamV5Profile | UavArmV4 => kUavArmV4Profile end.

Definition armInertiaMatrix (p : DynamicsProfile T) : mat3 T := m3_diag (arm_inertia_diag p).
Definition bodyInertiaMatrix (p : DynamicsProfile T) : mat3 T := m3_diag (body_inertia_diag p).
Definition staticSystemInertiaMatrix (p : DynamicsProfile T) : mat3 T :=
  m3_add (armInertiaMatrix p) (bodyInertiaMatrix p).

(** ** Rotations and poses *)

Definition skew (v : vec3 T) : mat3 T :=
  M3 s_zero (- v_z v) (v_y v)
     (v_z v) s_zero (- v_x v)
     (- v_y v) (v_x v) s_zero.

Definition rotZ (angle : T) : mat3 T :=
  let c := t_cos angle in let s := t_sin angle in
  M3 c (- s) s_zero s c s_zero s_zero s_zero (s_of_Z 1).

Definition rotX (angle : T) : mat3 T :=
  let c := t_cos angle in let s := t_sin angle in
  M3 (s_of_Z 1) s_zero s_zero s_zero c (- s) s_zero s c.

Definition rotY (angle : T) : mat3 T :=
  let c := t_cos angle in let s := t_sin angle in
  M3 c s_zero s s_zero (s_of_Z 1) s_zero (- s) s_zero c.

Definition composePose (parent child : Pose3f T) : Pose3f T :=
  mkPose (m3_mul (pose_R parent) (pose_R child))
         (v3_add (pose_t parent) (m3_vec (pose_R parent) (pose_t child))).

Definition transformPoint (pose : Pose3f T) (p : vec3 T) : vec3 T :=
  v3_add (pose_t pose) (m3_vec (pose_R pose) p).

Definition fluToFrdVector (v : vec3 T) : vec3 T := V3 (v_x v) (- v_y v) (- v_z v).

Definition fluToFrdMatrix (m : mat3 T) : mat3 T :=
  let C := m3_diag (V3 (s_of_Z 1) (- s_of_Z 1) (- s_of_Z 1)) in
  m3_mul (m3_mul C m) (m3_transpose C).

(** Modified Denavit-Hartenberg parameters. *)
Definition makeMdhPose (alpha_prev a_prev theta_i d_i : T) : Pose3f T :=
  mkPose (m3_mul (rotX alpha_prev) (rotZ theta_i))
         (m3_vec (rotX alpha_prev) (V3 a_prev s_zero d_i)).

(** What a rigid body adds to the inertia about the system's centre of mass: its own
    inertia turned into the body frame, and the parallel-axis term. *)
Definition link_inertia (R I_local : mat3 T) (r : vec3 T) (m : T) : mat3 T :=
  m3_add (m3_mul (m3_mul R I_local) (m3_transpose R))
         (m3_scale (m3_mul (m3_transpose (skew r)) (skew r)) m).

(** ** UavArmV4 *)

Definition v4_m_base : T := s_lit 844401 1000000 + s_lit 15 1000.
Definition v4_m1 : T := s_lit 250494 1000000.
Definition v4_m2 : T := s_lit 20149 1000000.
Definition v4_m3 : T := s_lit 397105 10000000.
Definition v4_m4 : T := s_lit 631624 10000000.
Definition v4_m_grip : T := s_lit 16 1000.

Definition v4_m_total : T := v4_m_base + v4_m1 + v4_m2 + v4_m3 + v4_m4 + v4_m_grip.

Definition v4_p_base_com : vec3 T := V3 (s_lit 642 1000000) s_zero (- s_lit 193246 1000000).

(** The link centres and the system's centre of mass, by expanded trigonometry. *)
Definition v4_links q : links T :=
  let z_base_to_j1 := s_lit 1745 10000 in
  let L1 := s_lit 132 1000 in
  let L2 := s_lit 885 10000 in
  let L3 := s_lit 885 10000 in
  let com1_z := s_lit 43715 1000000 in
  let com2_x := s_lit 4063 100000 in
  let com3_x := s_lit 25422 1000000 in
  let com4_x := s_lit 30336 1000000 in
  let c0 := t_cos (j_0 q) in let s0 := t_sin (j_0 q) in
  let c1 := t_cos (j_1 q) in let s1 := t_sin (j_1 q) in
  let c12 := t_cos (j_1 q + j_2 q) in let s12 := t_sin (j_1 q + j_2 q) in
  let c123 := t_cos (j_1 q + j_2 q + j_3 q) in let s123 := t_sin (j_1 q + j_2 q + j_3 q) in
  let p_j1 := V3 s_zero s_zero z_base_to_j1 in
  let p1_com := v3_add p_j1 (V3 s_zero s_zero com1_z) in
  let p_j2 := v3_add p_j1 (V3 (c0 * L1 * s1) (s0 * L1 * s1) (L1 * c1)) in
  let p2_com := v3_add p_j2 (V3 (c0 * com2_x * c1) (s0 * com2_x * c1) (- com2_x * s1)) in
  let p_j3 := v3_add p_j2 (V3 (c0 * L2 * s12) (s0 * L2 * s12) (L2 * c12)) in
  let p3_com := v3_add p_j3 (V3 (c0 * com3_x * c12) (s0 * com3_x * c12) (- com3_x * s12)) in
  let p_j4 := v3_add p_j3 (V3 (c0 * L3 * s123) (s0 * L3 * s123) (L3 * c123)) in
  let p4_com := v3_add p_j4 (V3 (c0 * com4_x * c123) (s0 * com4_x * c123) (- com4_x * s123)) in
  let p_sys_com :=
    v3_divs
      (v3_add (v3_add (v3_add (v3_add (v3_scale v4_p_base_com v4_m_base) (v3_scale p1_com v4_m1))
                         (v3_scale p2_com v4_m2)) (v3_scale p3_com v4_m3))
              (v3_scale p4_com (v4_m4 + v4_m_grip)))
      v4_m_total in
  mkLinks p1_com p2_com p3_com p4_com p_sys_com.

Definition computeSystemCoM_UavArmV4 q (st : ArmKinematics T) : ArmKinematics T * vec3 T :=
  let l := v4_links q in
  (st <| ak_links := l |> <| ak_cached_q := q |>, lk_com l).

Definition isotropic (k : T) : mat3 T := m3_diag (V3 k k k).

(** The rotations of the four links. *)
Definition v4_R1 q : mat3 T := rotZ (j_0 q).
Definition v4_R2 q : mat3 T := m3_mul (v4_R1 q) (rotY (j_1 q)).
Definition v4_R3 q : mat3 T := m3_mul (v4_R2 q) (rotY (j_2 q)).
Definition v4_R4 q : mat3 T := m3_mul (v4_R3 q) (rotY (j_3 q)).

(** The inertia for given link positions. *)
Definition v4_inertia (base : mat3 T) (l : links T) q : mat3 T :=
  let rel p := v3_sub p (lk_com l) in
  let I := m3_add base (link_inertia (v4_R1 q) (isotropic (s_lit 5 1000)) (rel (lk_p1 l)) v4_m1) in
  let I := m3_add I (link_inertia (v4_R2 q) (isotropic (s_lit 5 1000)) (rel (lk_p2 l)) v4_m2) in
  let I := m3_add I (link_inertia (v4_R3 q) (isotropic (s_lit 3 1000)) (rel (lk_p3 l)) v4_m3) in
  m3_add I (link_inertia (v4_R4 q) (isotropic (s_lit 3 1000)) (rel (lk_p4 l)) (v4_m4 + v4_m_grip)).

(** A joint has moved by more than the tolerance since the cache was filled. *)
Definition moved (x cached : T) : bool := s_lt (s_lit 1 1000000) (s_abs (x - cached)).

(** ** UamV5 *)

Definition v5_m_base : T := s_lit 36678 10000.
Definition v5_m1 : T := s_lit 593 1000.
Definition v5_m2g : T := s_lit 594 1000.

Definition v5_theta (angle : T) : T := s_of_Z 1 * (angle + s_zero).

Definition v5_mount1 : Pose3f T :=
  mkPose (rotX (- t_pi)) (V3 (s_lit 115 1000) s_zero (- s_lit 9 100)).
Definition v5_mount2 : Pose3f T :=
  mkPose (rotX (- t_pi_2)) (V3 s_zero s_zero (s_lit 72 1000)).

Definition v5_T_B_1 q : Pose3f T :=
  composePose v5_mount1 (makeMdhPose s_zero s_zero (v5_theta (j_0 q)) s_zero).
Definition v5_T_B_2 q : Pose3f T :=
  composePose (composePose (v5_T_B_1 q) v5_mount2)
    (makeMdhPose s_zero s_zero (v5_theta (j_1 q)) s_zero).

Definition v5_p_base_com : vec3 T := V3 (- s_lit 44 1000) s_zero (- s_lit 46 1000).

Definition v5_links q : links T :=
  let m_total := v5_m_base + v5_m1 + v5_m2g in
  let p1_com := transformPoint (v5_T_B_1 q) v3_zero in
  let p2g_com := transformPoint (v5_T_B_2 q) (V3 (s_lit 75 1000) s_zero s_zero) in
  let p_sys_com :=
    v3_divs (v3_add (v3_add (v3_scale v5_p_base_com v5_m_base) (v3_scale p1_com v5_m1))
                    (v3_scale p2g_com v5_m2g)) m_total in
  mkLinks p1_com p2g_com v3_zero v3_zero p_sys_com.

Definition computeSystemCoM_UamV5 q (st : ArmKinematics T) : ArmKinematics T * vec3 T :=
  let l := v5_links q in
  (st <| ak_links := l |> <| ak_cached_q := q |> <| ak_v5_valid := true |>,
   fluToFrdVector (lk_com l)).

(** The inertia about the centre of mass for given link positions, in the model's frame. *)
Definition v5_inertia_flu (l : links T) q : mat3 T :=
  let rel p := v3_sub p (lk_com l) in
  let S_base := skew (rel v5_p_base_com) in
  let I := m3_diag (V3 (s_lit 49436 1000000) (s_lit 52665 1000000) (s_lit 86619 1000000)) in
  let I := m3_add I (m3_scale (m3_mul (m3_transpose S_base) S_base) v5_m_base) in
  let I := m3_add I (link_inertia (pose_R (v5_T_B_1 q))
                       (m3_diag (V3 (s_lit 839 1000000) (s_lit 791 1000000) (s_lit 943 1000000)))
                       (rel (lk_p1 l)) v5_m1) in
  m3_add I (link_inertia (pose_R (v5_T_B_2 q))
              (m3_diag (V3 (s_lit 302 1000000) (s_lit 2811 1000000) (s_lit 2717 1000000)))
              (rel (lk_p2 l)) v5_m2g).

Definition computeSystemInertia_UamV5 q (st : ArmKinematics T) : ArmKinematics T * mat3 T :=
  let st :=
    if moved (j_0 q) (j_0 (ak_cached_q st)) || moved (j_1 q) (j_1 (ak_cached_q st))
       || negb (ak_v5_valid st)
    then fst (computeSystemCoM_UamV5 q st) else st in
  (st, fluToFrdMatrix (v5_inertia_flu (ak_links st) q)).

(** ** The interface *)

Definition computeSystemCoM q (st : ArmKinematics T) : ArmKinematics T * vec3 T :=
  match ak_profile st with
  | UamV5 => computeSystemCoM_UamV5 q st
  | UavArmV4 => computeSystemCoM_UavArmV4 q st
  end.

Definition computeSystemInertia_UavArmV4 q (st : ArmKinematics T) : ArmKinematics T * mat3 T :=
  let c := ak_cached_q st in
  let st :=
    if moved (j_0 q) (j_0 c) || moved (j_1 q) (j_1 c) || moved (j_2 q) (j_2 c) || moved (j_3 q) (j_3 c)
    then fst (computeSystemCoM q st) else st in
  (st, v4_inertia (ak_base_inertia st) (ak_links st) q).

Definition computeSystemInertia q (st : ArmKinematics T) : ArmKinematics T * mat3 T :=
  match ak_profile st with
  | UamV5 => computeSystemInertia_UamV5 q st
  | UavArmV4 => computeSystemInertia_UavArmV4 q st
  end.

Definition setModelProfile (p : ModelProfile) (st : ArmKinematics T) : ArmKinematics T :=
  st <| ak_profile := p |> <| ak_v5_valid := false |>.

Definition setParameters (mass : T) (com : vec3 T) (I : mat3 T) (st : ArmKinematics T) : ArmKinematics T :=
  st <| ak_mass_total := mass |> <| ak_base_com_offset := com |> <| ak_base_inertia := I |>
     <| ak_v5_valid := false |>.

(** The constructed object: everything zero, nothing computed. *)
Definition ArmKinematics_new : ArmKinematics T :=
  mkArm (s_lit 15 10) v3_zero m3_zero UavArmV4
    (mkLinks v3_zero v3_zero v3_zero v3_zero v3_zero)
    (Joints s_zero s_zero s_zero s_zero) false.

End Arm.
