(* ===== verification/ArmKinematicsSpec.v ===== *)
(** * Properties of the arm kinematics

    In exact arithmetic: the expanded trigonometry of the four-joint arm is the pose chain
    whose rotations the inertia uses; the inertia is symmetric and positive definite, so
    that the rate controller can always invert it; the static profile of the two-joint arm
    is its dynamic model at rest.  For every scalar: the cached link positions of the
    two-joint arm are those of (nearly) the given joints.  The four-joint arm has no such
    guarantee: at rest a fresh object returns an inertia without the parallel-axis terms. *)
From Stdlib Require Import Reals Lra Floats.SpecFloat.
From S2P Require Import Prelude Float32 Linalg LinalgReal Eso ControlMath ArmKinematics.
Local Open Scope R_scope.

#[export] Instance Trig_R : Trig R := {| t_sin := sin; t_cos := cos; t_pi := PI; t_pi_2 := PI / 2 |}.

Ltac arm_R :=
  cbv [skew rotX rotY rotZ composePose transformPoint makeMdhPose fluToFrdVector fluToFrdMatrix
       pose_R pose_t t_sin t_cos t_pi t_pi_2 Trig_R v5_theta isotropic link_inertia];
  to_R.

(** ** Rotations *)

Definition m3_orthogonal (A : mat3 R) : Prop := m3_mul A (m3_transpose A) = m3_identity.

Lemma sin2_cos2' x : sin x * sin x + cos x * cos x = 1.
Proof. apply sin2_cos2. Qed.

Lemma rotX_orthogonal a : m3_orthogonal (rotX a).
Proof. unfold m3_orthogonal. arm_R. pose proof (sin2_cos2' a). f_equal; lra. Qed.

Lemma rotY_orthogonal a : m3_orthogonal (rotY a).
Proof. unfold m3_orthogonal. arm_R. pose proof (sin2_cos2' a). f_equal; lra. Qed.

Lemma rotZ_orthogonal a : m3_orthogonal (rotZ a).
Proof. unfold m3_orthogonal. arm_R. pose proof (sin2_cos2' a). f_equal; lra. Qed.

Lemma m3_mul_assoc (A B C : mat3 R) : m3_mul (m3_mul A B) C = m3_mul A (m3_mul B C).
Proof. real_ring. Qed.

Lemma m3_transpose_mul (A B : mat3 R) :
  m3_transpose (m3_mul A B) = m3_mul (m3_transpose B) (m3_transpose A).
Proof. real_ring. Qed.

Lemma m3_mul_1_l (A : mat3 R) : m3_mul m3_identity A = A.
Proof. destruct A. real_ring. Qed.

Lemma m3_mul_orthogonal A B : m3_orthogonal A -> m3_orthogonal B -> m3_orthogonal (m3_mul A B).
Proof.
  unfold m3_orthogonal. intros HA HB.
  rewrite m3_transpose_mul, m3_mul_assoc, <- (m3_mul_assoc B), HB, m3_mul_1_l. exact HA.
Qed.

Create HintDb arm.
#[export] Hint Resolve rotX_orthogonal rotY_orthogonal rotZ_orthogonal m3_mul_orthogonal : arm.

(** ** The inertia of one body *)

Lemma m3_vec_mul (A B : mat3 R) v : m3_vec (m3_mul A B) v = m3_vec A (m3_vec B v).
Proof. real_ring. Qed.

(** A rotated inertia at the rotated argument. *)
Lemma quad_rotated (A B : mat3 R) v :
  m3_quad (m3_mul (m3_mul A B) (m3_transpose A)) v = m3_quad B (m3_vec (m3_transpose A) v).
Proof. unfold m3_quad. to_R. ring. Qed.

Lemma dot_transposed A v :
  v3_dot (m3_vec (m3_transpose A) v) (m3_vec (m3_transpose A) v) =
  v3_dot v (m3_vec (m3_mul A (m3_transpose A)) v).
Proof. to_R. ring. Qed.

Lemma orthogonal_norm A v : m3_orthogonal A ->
  v3_dot (m3_vec (m3_transpose A) v) (m3_vec (m3_transpose A) v) = v3_dot v v.
Proof. unfold m3_orthogonal. intros HA. rewrite dot_transposed, HA. to_R. ring. Qed.

Lemma rotated_above k A B : m3_orthogonal A -> m3_above k B ->
  m3_above k (m3_mul (m3_mul A B) (m3_transpose A)).
Proof. intros HA HB v. rewrite quad_rotated, <- (orthogonal_norm A v HA). apply HB. Qed.

Lemma rotated_symmetric A B : m3_symmetric B ->
  m3_symmetric (m3_mul (m3_mul A B) (m3_transpose A)).
Proof.
  intros (E1 & E2 & E3)%m3_symmetric_offdiag. unfold m3_symmetric.
  to_R. destruct B; cbn in *. subst. f_equal; ring.
Qed.

(** The parallel-axis term is the squared length of a cross product. *)
Lemma parallel_axis_above m r : 0 <= m ->
  m3_above 0 (m3_scale (m3_mul (m3_transpose (skew r)) (skew r)) m).
Proof.
  intros Hm v.
  replace (m3_quad _ v) with (m * v3_dot (m3_vec (skew r) v) (m3_vec (skew r) v)).
  2: { unfold m3_quad. arm_R. ring. }
  rewrite Rmult_0_l. apply Rmult_le_pos; [done|]. generalize (m3_vec (skew r) v) as w.
  intros [a b c]. to_R. pose proof (Rle_0_sqr a). pose proof (Rle_0_sqr b).
  pose proof (Rle_0_sqr c). unfold Rsqr in *. lra.
Qed.

Lemma parallel_axis_symmetric m r :
  m3_symmetric (m3_scale (m3_mul (m3_transpose (skew r)) (skew r)) m).
Proof. unfold m3_symmetric. arm_R. f_equal; ring. Qed.

Lemma diag_symmetric (d : vec3 R) : m3_symmetric (m3_diag d).
Proof. done. Qed.

Lemma diag_above k (d : vec3 R) : k <= v_x d -> k <= v_y d -> k <= v_z d -> m3_above k (m3_diag d).
Proof.
  destruct d as [x y z]. cbn. intros Hx Hy Hz [a b c]. unfold m3_quad. to_R.
  pose proof (Rle_0_sqr a). pose proof (Rle_0_sqr b). pose proof (Rle_0_sqr c). unfold Rsqr in *. nra.
Qed.

Lemma link_inertia_ok k A (d r : vec3 R) m :
  m3_orthogonal A -> 0 <= m -> k <= v_x d -> k <= v_y d -> k <= v_z d ->
  m3_symmetric (link_inertia A (m3_diag d) r m) /\ m3_above k (link_inertia A (m3_diag d) r m).
Proof.
  intros HA Hm Hx Hy Hz. unfold link_inertia. split.
  - apply m3_symmetric_add; [apply rotated_symmetric, diag_symmetric|apply parallel_axis_symmetric].
  - replace k with (k + 0) by ring. apply m3_above_add.
    + apply rotated_above; [done|by apply diag_above].
    + by apply parallel_axis_above.
Qed.

(** Symmetric and at least [k]. *)
Definition inertia_ok (k : R) (A : mat3 R) : Prop := m3_symmetric A /\ m3_above k A.

Lemma inertia_ok_add k l A B : inertia_ok k A -> inertia_ok l B -> inertia_ok (k + l) (m3_add A B).
Proof. intros [] []. split; [by apply m3_symmetric_add|by apply m3_above_add]. Qed.

Lemma inertia_ok_weaken k l A : inertia_ok k A -> l <= k -> inertia_ok l A.
Proof.
  intros [Hs HA] Hl. split; [done|]. intros v. pose proof (HA v) as Hv.
  assert (0 <= v3_dot v v); [|nra]. destruct v as [a b c]. to_R.
  pose proof (Rle_0_sqr a). pose proof (Rle_0_sqr b). pose proof (Rle_0_sqr c). unfold Rsqr in *. lra.
Qed.

#[export] Hint Resolve link_inertia_ok : arm.

Lemma v4_R_orthogonal q :
  m3_orthogonal (v4_R1 q) /\ m3_orthogonal (v4_R2 q) /\ m3_orthogonal (v4_R3 q) /\
  m3_orthogonal (v4_R4 q).
Proof. unfold v4_R4, v4_R3, v4_R2, v4_R1. auto 8 with arm. Qed.

Lemma v5_R_orthogonal q :
  m3_orthogonal (pose_R (v5_T_B_1 q)) /\ m3_orthogonal (pose_R (v5_T_B_2 q)).
Proof.
  unfold v5_T_B_2, v5_T_B_1, composePose, makeMdhPose, v5_mount1, v5_mount2. cbn [pose_R].
  auto 10 with arm.
Qed.

(** ** The system inertia *)

Lemma v4_inertia_ok base l q : inertia_ok 0 base -> inertia_ok (16 / 1000) (v4_inertia base l q).
Proof.
  intros Hb. destruct (v4_R_orthogonal q) as (H1 & H2 & H3 & H4).
  unfold v4_inertia. cbv zeta.
  apply (inertia_ok_weaken (0 + 5 / 1000 + 5 / 1000 + 3 / 1000 + 3 / 1000)); [|lra].
  repeat apply inertia_ok_add; [done| | | |]; apply link_inertia_ok; try done;
    cbv [v4_m1 v4_m2 v4_m3 v4_m4 v4_m_grip]; to_R; lra.
Qed.

Lemma v5_inertia_flu_ok l q : inertia_ok (49 / 1000) (v5_inertia_flu l q).
Proof.
  destruct (v5_R_orthogonal q) as (H1 & H2). unfold v5_inertia_flu. cbv zeta.
  apply (inertia_ok_weaken (49436 / 1000000 + 0 + 0 + 0)); [|lra].
  repeat apply inertia_ok_add.
  - split; [apply diag_symmetric|]. apply diag_above; to_R; lra.
  - split; [apply parallel_axis_symmetric|]. apply parallel_axis_above. cbv [v5_m_base]. to_R. lra.
  - apply link_inertia_ok; try done; cbv [v5_m1]; to_R; lra.
  - apply link_inertia_ok; try done; cbv [v5_m2g]; to_R; lra.
Qed.

Lemma frd_ok k A : inertia_ok k A -> inertia_ok k (fluToFrdMatrix A).
Proof.
  intros [Hs HA]. split; [by apply rotated_symmetric|]. apply rotated_above; [|done].
  unfold m3_orthogonal. real_ring.
Qed.

Lemma system_inertia_ok q (st : ArmKinematics R) :
  inertia_ok 0 (ak_base_inertia st) ->
  inertia_ok (16 / 1000) (snd (computeSystemInertia q st)) /\
  inertia_ok 0 (ak_base_inertia (fst (computeSystemInertia q st))).
Proof.
  intros Hb. unfold computeSystemInertia. destruct (ak_profile st) eqn:E.
  - unfold computeSystemInertia_UavArmV4, computeSystemCoM. rewrite E. cbv zeta. cbn [fst snd].
    destruct (_ || _); split; first [by apply v4_inertia_ok | done].
  - unfold computeSystemInertia_UamV5, computeSystemCoM_UamV5. cbv zeta. cbn [fst snd]. split.
    + eapply inertia_ok_weaken; [apply frd_ok, v5_inertia_flu_ok|lra].
    + by destruct (_ || _).
Qed.

(** In exact arithmetic the inertia that the arm model gives the rate controller is symmetric
    and positive definite for all joint angles, whatever the cache holds, for both vehicles,
    provided the configured base inertia is symmetric and not negative; its 3x3 inverse
    therefore exists and is a two-sided inverse: the fallback to a diagonal inverse is never
    taken. *)
Theorem arm_inertia_invertible (q : joints R) (st : ArmKinematics R) :
  m3_symmetric (ak_base_inertia st) -> m3_above 0 (ak_base_inertia st) ->
  let I := snd (computeSystemInertia q st) in
  m3_symmetric I /\ m3_above (16 / 1000) I /\
  exists B, inv3 I = Some B /\ m3_mul I B = m3_identity /\ m3_mul B I = m3_identity.
Proof.
  intros Hs Hb. destruct (system_inertia_ok q st) as [[HI Ha] _]; [done|]. cbv zeta.
  split; [done|]. split; [done|]. apply (inv3_above (16 / 1000)); [done|lra|done].
Qed.

(** The two-joint arm with its profile's body inertia, at an arbitrary posture. *)
Lemma arm_inertia_invertible_witness :
  let st := setParameters 5 v3_zero (bodyInertiaMatrix kUamV5Profile)
              (setModelProfile UamV5 ArmKinematics_new) in
  exists B, inv3 (snd (computeSystemInertia (Joints 1 2 0 0) st)) = Some B.
Proof.
  intros st. pose proof (arm_inertia_invertible (Joints 1 2 0 0) st) as H.
  assert (Hs : m3_symmetric (ak_base_inertia st)) by (apply diag_symmetric).
  assert (Ha : m3_above 0 (ak_base_inertia st)).
  { apply diag_above; cbv [body_inertia_diag kUamV5Profile]; to_R; lra. }
  destruct (H Hs Ha) as (_ & _ & B & HB & _). exists B. exact HB.
Defined.

(** ** Forward kinematics of the four-joint arm *)

Definition turn (A : mat3 R) : Pose3f R := mkPose A v3_zero.
Definition along_z (l : R) : Pose3f R := mkPose m3_identity (V3 0 0 l).

(** The frames of the chain: the base joint, then three times a pitch and a segment. *)
Definition v4_frame1 (q : joints R) : Pose3f R := mkPose (rotZ (j_0 q)) (V3 0 0 (1745 / 10000)).
Definition v4_segment (T : Pose3f R) (angle l : R) : Pose3f R :=
  composePose (composePose T (turn (rotY angle))) (along_z l).
Definition v4_frame2 (q : joints R) : Pose3f R := v4_segment (v4_frame1 q) (j_1 q) (132 / 1000).
Definition v4_frame3 (q : joints R) : Pose3f R := v4_segment (v4_frame2 q) (j_2 q) (885 / 10000).
Definition v4_frame4 (q : joints R) : Pose3f R := v4_segment (v4_frame3 q) (j_3 q) (885 / 10000).

Lemma m3_mul_1_r (A : mat3 R) : m3_mul A m3_identity = A.
Proof. destruct A. real_ring. Qed.

Lemma v4_frames_rotation q :
  pose_R (v4_frame1 q) = v4_R1 q /\ pose_R (v4_frame2 q) = v4_R2 q /\
  pose_R (v4_frame3 q) = v4_R3 q /\ pose_R (v4_frame4 q) = v4_R4 q.
Proof.
  unfold v4_frame4, v4_frame3, v4_frame2, v4_segment, composePose, turn, along_z. cbn [pose_R].
  by rewrite !m3_mul_1_r.
Qed.

(** A segment in the plane that the base joint selects. *)
Lemma planar_rotation q a b :
  m3_mul (m3_mul (rotZ q) (rotY a)) (rotY b) = m3_mul (rotZ q) (rotY (a + b)).
Proof. arm_R. rewrite cos_plus, sin_plus. f_equal; ring. Qed.

Lemma v4_R3_planar q : v4_R3 q = m3_mul (rotZ (j_0 q)) (rotY (j_1 q + j_2 q)).
Proof. apply planar_rotation. Qed.

Lemma v4_R4_planar q : v4_R4 q = m3_mul (rotZ (j_0 q)) (rotY (j_1 q + j_2 q + j_3 q)).
Proof. unfold v4_R4. rewrite v4_R3_planar. apply planar_rotation. Qed.

Lemma v4_frames_origin q :
  pose_t (v4_frame2 q) = v3_add (pose_t (v4_frame1 q)) (m3_vec (v4_R2 q) (V3 0 0 (132 / 1000))) /\
  pose_t (v4_frame3 q) = v3_add (pose_t (v4_frame2 q)) (m3_vec (v4_R3 q) (V3 0 0 (885 / 10000))) /\
  pose_t (v4_frame4 q) = v3_add (pose_t (v4_frame3 q)) (m3_vec (v4_R4 q) (V3 0 0 (885 / 10000))).
Proof.
  destruct (v4_frames_rotation q) as (E1 & E2 & E3 & E4).
  assert (S : forall T a l, pose_t (v4_segment T a l) =
    v3_add (pose_t T) (m3_vec (m3_mul (pose_R T) (rotY a)) (V3 0 0 l))).
  { intros [A [x y z]] a l. unfold v4_segment, turn, along_z. arm_R. f_equal; ring. }
  unfold v4_frame2 at 1, v4_frame3 at 1, v4_frame4 at 1. rewrite !S, E1, E2, E3. done.
Qed.

(** The expanded trigonometry of the four-joint arm is its forward kinematics: in exact
    arithmetic, for all joint angles, the cached link centres are the given points of the
    frames obtained by composing the base rotation and one pitch and segment per joint, and
    the rotations of these frames are those that turn the link inertias.  The frames are
    those the code computes with; the model uav_arm_v4.urdf.xacro of the repository has
    another second offset, a roll axis at the fourth joint and the base's centre of mass on
    the other side. *)
Theorem v4_forward_kinematics (q : joints R) :
  let l := v4_links q in
  lk_p1 l = transformPoint (v4_frame1 q) (V3 0 0 (43715 / 1000000)) /\
  lk_p2 l = transformPoint (v4_frame2 q) (V3 (4063 / 100000) 0 0) /\
  lk_p3 l = transformPoint (v4_frame3 q) (V3 (25422 / 1000000) 0 0) /\
  lk_p4 l = transformPoint (v4_frame4 q) (V3 (30336 / 1000000) 0 0) /\
  pose_R (v4_frame1 q) = v4_R1 q /\ pose_R (v4_frame2 q) = v4_R2 q /\
  pose_R (v4_frame3 q) = v4_R3 q /\ pose_R (v4_frame4 q) = v4_R4 q.
Proof.
  destruct (v4_frames_rotation q) as (E1 & E2 & E3 & E4).
  destruct (v4_frames_origin q) as (O2 & O3 & O4). cbv zeta. unfold transformPoint.
  rewrite O4, O3, O2, E1, E2, E3, E4, v4_R3_planar, v4_R4_planar.
  unfold v4_R2, v4_R1, v4_frame1, v4_links. cbn [lk_p1 lk_p2 lk_p3 lk_p4 pose_t].
  repeat match goal with |- _ /\ _ => split end; try done; arm_R; f_equal; ring.
Qed.

(** ** Numbers of the two-joint arm *)

Lemma cos_opp_PI2 : cos (- (PI / 2)) = 0.
Proof. rewrite cos_neg. apply cos_PI2. Qed.
Lemma sin_opp_PI2 : sin (- (PI / 2)) = -1.
Proof. rewrite sin_neg, sin_PI2. ring. Qed.
Lemma cos_opp_PI : cos (- PI) = -1.
Proof. rewrite cos_neg. apply cos_PI. Qed.
Lemma sin_opp_PI : sin (- PI) = 0.
Proof. rewrite sin_neg, sin_PI. ring. Qed.

Definition zero_joints : joints R := Joints 0 0 0 0.

Lemma v5_theta_0 : v5_theta 0 = 0.
Proof. arm_R. ring. Qed.

(** The poses at rest. *)
Lemma v5_frames_zero :
  v5_T_B_1 zero_joints = mkPose (m3_diag (V3 1 (-1) (-1))) (V3 (115 / 1000) 0 (- (9 / 100))) /\
  v5_T_B_2 zero_joints = mkPose (M3 1 0 0 0 0 (-1) 0 1 0) (V3 (115 / 1000) 0 (- (162 / 1000))).
Proof.
  assert (E1 : v5_T_B_1 zero_joints = mkPose (m3_diag (V3 1 (-1) (-1))) (V3 (115 / 1000) 0 (- (9 / 100)))).
  { unfold v5_T_B_1. cbn [j_0 zero_joints]. rewrite v5_theta_0. unfold v5_mount1. arm_R.
    rewrite cos_opp_PI, sin_opp_PI, cos_0, sin_0. f_equal; f_equal; field. }
  split; [exact E1|]. unfold v5_T_B_2. rewrite E1. cbn [j_1 zero_joints]. rewrite v5_theta_0.
  unfold v5_mount2. arm_R. rewrite cos_opp_PI2, sin_opp_PI2, cos_0, sin_0. f_equal; f_equal; field.
Qed.

Lemma v5_links_zero :
  lk_p1 (v5_links zero_joints) = V3 (115 / 1000) 0 (- (9 / 100)) /\
  lk_p2 (v5_links zero_joints) = V3 (190 / 1000) 0 (- (162 / 1000)) /\
  lk_com (v5_links zero_joints) = V3 (196718 / 48548000) 0 (- (3183168 / 48548000)).
Proof.
  unfold v5_links. destruct v5_frames_zero as [-> ->].
  cbv [lk_p1 lk_p2 lk_com v5_p_base_com v5_m_base v5_m1 v5_m2g]. arm_R.
  repeat split; f_equal; field.
Qed.

(** After the centre of mass the inertia uses the links of the same joints. *)
Lemma v5_inertia_after_com {T} `{Scalar T} `{ScalarOrd T} `{ScalarRoot T} `{Trig T}
    (q : joints T) (st : ArmKinematics T) :
  ak_profile st = UamV5 ->
  snd (computeSystemInertia q (fst (computeSystemCoM q st))) =
    fluToFrdMatrix (v5_inertia_flu (v5_links q) q).
Proof.
  destruct st as [m c b p l cq v]. cbn [ak_profile]. intros ->.
  unfold computeSystemCoM, computeSystemInertia. cbn [ak_profile fst computeSystemCoM_UamV5].
  unfold computeSystemInertia_UamV5. cbv zeta. cbn [snd]. by destruct (_ || _).
Qed.

Definition close (eps x y : R) : Prop := - eps <= x - y <= eps.

(** The static profile of the two-joint arm is its dynamic model at rest: at zero joint angles
    the centre of mass computed from the joints agrees with the profile's to one part in
    10^8 (metres), and so does the diagonal of the inertia (kilogram square metres) with the
    sum of the profile's arm and body inertia.  The fallback used when no joint message
    arrives is the posture with the arm stretched out. *)
Theorem v5_profile_is_rest_posture (st : ArmKinematics R) :
  ak_profile st = UamV5 ->
  let com := snd (computeSystemCoM zero_joints st) in
  let I := snd (computeSystemInertia zero_joints (fst (computeSystemCoM zero_joints st))) in
  let p := getDynamicsProfile UamV5 in
  let S := staticSystemInertiaMatrix p in
  close (1 / 100000000) (v_x com) (v_x (dp_com p)) /\ v_y com = v_y (dp_com p) /\
  close (1 / 100000000) (v_z com) (v_z (dp_com p)) /\
  close (1 / 100000000) (m00 I) (m00 S) /\ close (1 / 100000000) (m11 I) (m11 S) /\
  close (1 / 100000000) (m22 I) (m22 S).
Proof.
  intros Hp. destruct v5_links_zero as (P1 & P2 & PC). destruct v5_frames_zero as (F1 & F2).
  cbv zeta. rewrite (v5_inertia_after_com zero_joints st Hp).
  unfold computeSystemCoM. rewrite Hp. cbn [snd computeSystemCoM_UamV5].
  unfold v5_inertia_flu. cbv zeta. rewrite F1, F2, P1, P2, PC.
  cbv [close getDynamicsProfile kUamV5Profile staticSystemInertiaMatrix armInertiaMatrix
       bodyInertiaMatrix arm_inertia_diag body_inertia_diag dp_com v5_p_base_com
       v5_m_base v5_m1 v5_m2g].
  arm_R. repeat match goal with |- _ /\ _ => split end; lra.
Qed.

Lemma v5_profile_is_rest_posture_witness :
  v_y (snd (computeSystemCoM zero_joints (setModelProfile UamV5 ArmKinematics_new)))
  = v_y (dp_com (getDynamicsProfile UamV5)).
Proof.
  pose proof (v5_profile_is_rest_posture (setModelProfile UamV5 ArmKinematics_new) eq_refl) as H.
  apply H.
Defined.

(** ** The cache of the four-joint arm *)

Lemma Rltb_self_moved (x : R) : moved x x = false.
Proof.
  unfold moved. cbn [s_lt ScalarOrd_R]. apply Rltb_false. cbn [s_abs s_sub s_lit Scalar_R ScalarOrd_R ScalarRoot_R].
  rewrite Rminus_diag, Rabs_R0. lra.
Qed.

Lemma v4_inertia_after_com {T} `{Scalar T} `{ScalarOrd T} `{ScalarRoot T} `{Trig T}
    (q : joints T) (st : ArmKinematics T) :
  ak_profile st = UavArmV4 ->
  snd (computeSystemInertia q (fst (computeSystemCoM q st))) =
    v4_inertia (ak_base_inertia st) (v4_links q) q.
Proof.
  destruct st as [m c b p l cq v]. cbn [ak_profile]. intros ->.
  unfold computeSystemCoM, computeSystemInertia. cbn [ak_profile fst computeSystemCoM_UavArmV4].
  unfold computeSystemInertia_UavArmV4. cbv zeta. cbn [snd]. by destruct (_ || _).
Qed.

(** Joints that have not moved: the cached positions are used. *)
Lemma v4_inertia_cached (st : ArmKinematics R) :
  ak_profile st = UavArmV4 ->
  snd (computeSystemInertia (ak_cached_q st) st) =
    v4_inertia (ak_base_inertia st) (ak_links st) (ak_cached_q st).
Proof.
  intros Hp. unfold computeSystemInertia. rewrite Hp. unfold computeSystemInertia_UavArmV4. cbv zeta.
  rewrite !Rltb_self_moved. done.
Qed.

(** An isotropic inertia does not turn: the roll entry of a link. *)
Lemma link_isotropic_xx A k r m : m3_orthogonal A ->
  m00 (link_inertia A (isotropic k) r m) = k + m * (v_y r * v_y r + v_z r * v_z r).
Proof.
  intros HA. unfold link_inertia.
  replace (m3_mul (m3_mul A (isotropic k)) (m3_transpose A))
    with (m3_scale (m3_mul A (m3_transpose A)) k) by (unfold isotropic; real_ring).
  rewrite HA. arm_R. ring.
Qed.

Lemma v4_inertia_xx base (l : links R) q :
  let d p := v_y (v3_sub p (lk_com l)) * v_y (v3_sub p (lk_com l)) +
             v_z (v3_sub p (lk_com l)) * v_z (v3_sub p (lk_com l)) in
  m00 (v4_inertia base l q) =
    m00 base + 16 / 1000 + v4_m1 * d (lk_p1 l) + v4_m2 * d (lk_p2 l) + v4_m3 * d (lk_p3 l)
    + (v4_m4 + v4_m_grip) * d (lk_p4 l).
Proof.
  destruct (v4_R_orthogonal q) as (H1 & H2 & H3 & H4). cbv zeta. unfold v4_inertia. cbv zeta.
  cbn [m3_add m00]. rewrite !link_isotropic_xx by done. cbn [s_add s_lit Scalar_R ScalarRoot_R]. field.
Qed.

Lemma v4_links_zero :
  let l := v4_links zero_joints in
  v_y (lk_p1 l) = 0 /\ v_y (lk_p2 l) = 0 /\ v_y (lk_p3 l) = 0 /\ v_y (lk_p4 l) = 0 /\
  v_z (lk_p1 l) = 43643 / 200000 /\ v_z (lk_p2 l) = 613 / 2000 /\ v_z (lk_p3 l) = 79 / 200 /\ v_z (lk_p4 l) = 967 / 2000 /\
  v_y (lk_com l) = 0 /\ v_z (lk_com l) = - (12819480259 / 312229225000).
Proof.
  cbv [v4_links zero_joints j_0 j_1 j_2 j_3 lk_p1 lk_p2 lk_p3 lk_p4 lk_com v4_m_total v4_p_base_com
       v4_m_base v4_m1 v4_m2 v4_m3 v4_m4 v4_m_grip].
  arm_R. rewrite !Rplus_0_r, !cos_0, !sin_0.
  repeat match goal with |- _ /\ _ => split end; lra.
Qed.

(** A fresh four-joint object at rest: the cached joint angles are zero before anything was
    computed, so that the inertia asked for first (as the rate control module does) is taken
    from link positions that are all zero; the parallel-axis terms are missing, and the roll
    inertia is less than the base plus 0.02 where the model's value is above the base plus
    0.064. *)
Theorem v4_inertia_stale_at_zero (mass : R) (com : vec3 R) (base : mat3 R) :
  let st := setParameters mass com base ArmKinematics_new in
  m00 (snd (computeSystemInertia zero_joints st)) = m00 base + 16 / 1000 /\
  m00 base + 64 / 1000 < m00 (snd (computeSystemInertia zero_joints (fst (computeSystemCoM zero_joints st)))).
Proof.
  cbv zeta. set (st := setParameters mass com base ArmKinematics_new).
  rewrite v4_inertia_after_com by done. change zero_joints with (ak_cached_q st) at 1.
  rewrite v4_inertia_cached by done. rewrite !v4_inertia_xx.
  change (ak_base_inertia st) with base.
  change (ak_links st) with (mkLinks (T := R) v3_zero v3_zero v3_zero v3_zero v3_zero). clear st.
  destruct v4_links_zero as (Y1 & Y2 & Y3 & Y4 & Z1 & Z2 & Z3 & Z4 & YC & ZC).
  set (l := v4_links zero_joints) in *. clearbody l.
  cbn [lk_p1 lk_p2 lk_p3 lk_p4 lk_com v3_sub v3_map2 v_y v_z v3_zero]. cbn [s_sub s_zero Scalar_R].
  rewrite Y1, Y2, Y3, Y4, Z1, Z2, Z3, Z4, YC, ZC.
  cbv [v4_m1 v4_m2 v4_m3 v4_m4 v4_m_grip]. to_R. split; lra.
Qed.

(** ** The cache of the two-joint arm *)

Section Cache.
Context {T : Type} `{Scalar T} `{ScalarOrd T} `{ScalarRoot T} `{Trig T}.

(** The calls a module makes. *)
Inductive arm_call :=
  | call_profile (p : ModelProfile)
  | call_parameters (m : T) (c : vec3 T) (J : mat3 T)
  | call_com (q : joints T)
  | call_inertia (q : joints T).

Definition arm_exec (c : arm_call) (st : ArmKinematics T) : ArmKinematics T :=
  match c with
  | call_profile p => setModelProfile p st
  | call_parameters m c J => setParameters m c J st
  | call_com q => fst (computeSystemCoM q st)
  | call_inertia q => fst (computeSystemInertia q st)
  end.

Fixpoint arm_run (cs : list arm_call) (st : ArmKinematics T) : ArmKinematics T :=
  match cs with [] => st | c :: cs => arm_run cs (arm_exec c st) end.

(** A valid cache belongs to the two-joint arm and holds the links of the cached joints. *)
Definition v5_cache_ok (st : ArmKinematics T) : Prop :=
  ak_v5_valid st = true -> ak_profile st = UamV5 /\ ak_links st = v5_links (ak_cached_q st).

Lemma com_cache_ok q st : v5_cache_ok st -> v5_cache_ok (fst (computeSystemCoM q st)).
Proof.
  unfold computeSystemCoM. destruct (ak_profile st) eqn:E; cbn [fst computeSystemCoM_UavArmV4].
  - intros Hc Hv. destruct (Hc Hv). congruence.
  - intros _ _. cbn. by rewrite E.
Qed.

Lemma v5_com_cache_ok q st : ak_profile st = UamV5 -> v5_cache_ok (fst (computeSystemCoM_UamV5 q st)).
Proof. intros E _. cbn. by rewrite E. Qed.

Lemma exec_cache_ok c st : v5_cache_ok st -> v5_cache_ok (arm_exec c st).
Proof.
  destruct c as [p|m c J|q|q]; cbn [arm_exec]; [by intros _|by intros _|apply com_cache_ok|].
  intros Hc. unfold computeSystemInertia. destruct (ak_profile st) eqn:E.
  - unfold computeSystemInertia_UavArmV4. cbv zeta. cbn [fst]. destruct (_ || _); [by apply com_cache_ok|done].
  - unfold computeSystemInertia_UamV5. cbv zeta. cbn [fst]. destruct (_ || _); [by apply v5_com_cache_ok|done].
Qed.

Lemma run_cache_ok cs : forall st, v5_cache_ok st -> v5_cache_ok (arm_run cs st).
Proof. induction cs as [|c cs IH]; intros st Hc; [done|]. by apply IH, exec_cache_ok. Qed.

(** The cached joints an inertia may use: those given, or joints that have not moved. *)
Definition near (q q' : joints T) : Prop :=
  q' = q \/ moved (j_0 q) (j_0 q') = false /\ moved (j_1 q) (j_1 q') = false.

Lemma v5_inertia_fresh q st : v5_cache_ok st -> ak_profile st = UamV5 ->
  exists q', near q q' /\
    snd (computeSystemInertia q st) = fluToFrdMatrix (v5_inertia_flu (v5_links q') q).
Proof.
  intros Hc Hp. unfold computeSystemInertia. rewrite Hp. unfold computeSystemInertia_UamV5. cbv zeta.
  cbn [snd]. destruct (_ || _) eqn:E.
  - exists q. split; [by left|done].
  - apply orb_false_iff in E as [[E0 E1]%orb_false_iff Ev]. apply negb_false_iff in Ev.
    destruct (Hc Ev) as [_ Hl]. exists (ak_cached_q st). split; [by right|]. by rewrite Hl.
Qed.

End Cache.

(** Whatever sequence of calls was made on the object (profile changes, new parameters,
    centres of mass and inertias for any joint angles, not-a-number included), an inertia of
    the two-joint arm is computed from link positions of the given joints or of joints whose
    first two angles differ by at most a millionth of a radian; positions of another posture
    or of the other vehicle are never used. *)
Theorem v5_inertia_uses_current_links `{Libm} (cs : list (arm_call (T := f32))) (q : joints f32) :
  let st := arm_run cs ArmKinematics_new in
  ak_profile st = UamV5 ->
  exists q', near q q' /\
    snd (computeSystemInertia q st) = fluToFrdMatrix (v5_inertia_flu (v5_links q') q).
Proof.
  cbv zeta. intros Hp. apply v5_inertia_fresh; [|done]. by apply run_cache_ok.
Qed.

(** The vehicles are exchanged in flight; the joint angle is then not a number. *)
Lemma v5_inertia_uses_current_links_witness :
  let cs := [call_com (Joints f1 f1 f1 f1); call_profile UamV5; call_com (Joints f0 f1 f0 f0)] in
  let st := @arm_run f32 _ _ _ (@Trig_f32 demo_libm) cs (@ArmKinematics_new f32 _ _) in
  exists q', near (Joints fnan f1 f0 f0) q' /\
    snd (@computeSystemInertia f32 _ _ _ (@Trig_f32 demo_libm) (Joints fnan f1 f0 f0) st) =
      fluToFrdMatrix (@v5_inertia_flu f32 _ _ (@Trig_f32 demo_libm)
        (@v5_links f32 _ _ (@Trig_f32 demo_libm) q') (Joints fnan f1 f0 f0)).
Proof. intros cs st. apply (@v5_inertia_uses_current_links demo_libm cs (Joints fnan f1 f0 f0)). done. Defined.
