(* ===== verification/AttControl.v ===== *)
(** * The ESO attitude controller

    ESOAttitudeControl (src/src/modules/eso_att_control/ESOAttitudeControl/AttitudeControl.cpp
    and .hpp): the error between the attitude and its setpoint is taken from the product of
    their rotation matrices; the rate setpoint is the yaw feed-forward minus twice the gain
    times the vector part of the error quaternion, limited on every axis; its filtered
    derivative and the gravity torque of the displaced centre of mass are passed on to the
    rate controller.  The class is modelled over the scalar of the matrix library. *)
From Stdlib Require Import Floats.SpecFloat.
From coqutil Require Import Datatypes.RecordSettersUsingExistingGetters.
From S2P Require Import Prelude Float32 Linalg Eso ControlMath.
Local Open Scope Z_scope.

Record ESOAttitudeControl (T : Type) := mkAttitudeControl {
  ac_proportional_gain : vec3 T;
  ac_rate_limit : vec3 T;
  ac_yaw_w : T;
  ac_setpoint_q : quat T;
  ac_yawspeed_setpoint : T;
  ac_omega_r_prev : vec3 T;
  ac_omega_r_dot : vec3 T;
  ac_omega_r_prev_valid : bool;
  ac_beta_v : vec3 T;
  ac_mass_total : T;
  ac_com_offset : vec3 T;
  ac_arm_inertia : mat3 T;
  ac_tau_s : vec3 T
}.
Arguments mkAttitudeControl {T}. Arguments ac_proportional_gain {T}. Arguments ac_rate_limit {T}.
Arguments ac_yaw_w {T}. Arguments ac_setpoint_q {T}. Arguments ac_yawspeed_setpoint {T}.
Arguments ac_omega_r_prev {T}. Arguments ac_omega_r_dot {T}. Arguments ac_omega_r_prev_valid {T}.
Arguments ac_beta_v {T}. Arguments ac_mass_total {T}. Arguments ac_com_offset {T}.
Arguments ac_arm_inertia {T}. Arguments ac_tau_s {T}.

Section Control.
Context {T : Type} `{Scalar T} `{ScalarOrd T} `{ScalarRoot T}.
Local Open Scope scalar_scope.
Implicit Types c : ESOAttitudeControl T.

(** [math::constrain] and [math::max] at the scalar. *)
Definition s_constrain (val min_val max_val : T) : T :=
  if s_lt val min_val then min_val else if s_lt max_val val then max_val else val.
Definition s_max (a b : T) : T := if s_lt b a then a else b.

Definition s_zero_unless_finite (x : T) : T := if s_finite x then x else s_zero.

(** The yaw weight is used from one ten-thousandth on. *)
Definition weight_active (w : T) : bool := s_lt (s_lit 1 10000) w.

(** ** Configuration *)

Definition setProportionalGain (gain : vec3 T) (yaw_weight : T) c : ESOAttitudeControl T :=
  let yaw_w := s_constrain yaw_weight s_zero (s_of_Z 1) in
  c <| ac_yaw_w := yaw_w |>
    <| ac_proportional_gain :=
         V3 (v_x gain) (v_y gain) (if weight_active yaw_w then v_z gain / yaw_w else v_z gain) |>.

Definition setRateLimit (limit : vec3 T) c : ESOAttitudeControl T := c <| ac_rate_limit := limit |>.

Definition setAttitudeSetpoint (qd : quat T) (yawspeed : T) c : ESOAttitudeControl T :=
  c <| ac_setpoint_q := quat_normalize qd |> <| ac_yawspeed_setpoint := yawspeed |>.

Definition adaptAttitudeSetpoint (q_delta : quat T) c : ESOAttitudeControl T :=
  c <| ac_setpoint_q := quat_normalize (quat_mul q_delta (ac_setpoint_q c)) |>.

Definition resetOmegaRDerivative c : ESOAttitudeControl T :=
  c <| ac_omega_r_dot := v3_zero |> <| ac_omega_r_prev := v3_zero |> <| ac_omega_r_prev_valid := false |>.

Definition setTauSParameters (mass : T) (com : vec3 T) (arm : mat3 T) c : ESOAttitudeControl T :=
  c <| ac_mass_total := mass |> <| ac_com_offset := com |> <| ac_arm_inertia := arm |>.

(** ** The control law *)

(** The attitude the law uses: normalised, or level if it is the zero quaternion. *)
Definition current_attitude (q : quat T) : quat T :=
  if s_lt s_zero (quat_norm_squared q) then quat_normalize q else quat_default.

Definition target_attitude c : quat T :=
  let q := ac_setpoint_q c in
  if s_lt s_zero (quat_norm_squared q) then quat_normalize q else q.

(** The error quaternion with a scalar part that is not negative. *)
Definition error_quaternion c (R : mat3 T) : quat T :=
  let R_d := dcm_of_quat (target_attitude c) in
  let q_tilde := quat_of_dcm (m3_mul (m3_transpose R_d) R) in
  if s_lt (q_0 q_tilde) s_zero then quat_scale q_tilde (- s_of_Z 1) else q_tilde.

Definition attitude_error c (R : mat3 T) : vec3 T :=
  let e := error_quaternion c R in
  V3 (q_1 e) (q_2 e) (if weight_active (ac_yaw_w c) then q_3 e * ac_yaw_w c else q_3 e).

(** The desired rate about the world's z axis, in the body frame. *)
Definition feed_forward c (R : mat3 T) : vec3 T :=
  m3_vec (m3_transpose R) (V3 s_zero s_zero (s_zero_unless_finite (ac_yawspeed_setpoint c))).

Definition gravity_torque c (R : mat3 T) : vec3 T :=
  let g_body := m3_vec (m3_transpose R) (V3 s_zero s_zero (s_lit 981 100)) in
  v3_map s_zero_unless_finite (v3_scale (v3_cross (ac_com_offset c) g_body) (ac_mass_total c)).

Definition limit_rate (omega limit : T) : T :=
  if s_finite omega then s_constrain omega (- limit) limit else s_zero.

Definition rate_reference c (R : mat3 T) : vec3 T :=
  let omega_r :=
    v3_sub (feed_forward c R)
      (v3_scale (v3_emult (ac_proportional_gain c) (attitude_error c R)) (s_of_Z 2)) in
  v3_map2 limit_rate omega_r (ac_rate_limit c).

(** One axis of the filtered derivative. *)
Definition derivative_axis (dt omega prev limit dot : T) : T :=
  let alpha := s_constrain (dt / (s_lit 2 100 + dt)) s_zero (s_of_Z 1) in
  let raw := (omega - prev) * (s_of_Z 1 / dt) in
  let max_dot := s_max (limit / s_lit 1 10) (s_of_Z 1) in
  let limited := if s_finite raw then s_constrain raw (- max_dot) max_dot else s_zero in
  dot + alpha * (limited - dot).

Definition update_derivative (omega_r : vec3 T) (dt : T) c : ESOAttitudeControl T :=
  if negb (ac_omega_r_prev_valid c) then
    c <| ac_omega_r_dot := v3_zero |> <| ac_omega_r_prev := omega_r |> <| ac_omega_r_prev_valid := true |>
  else if s_finite dt && s_lt (s_lit 1 10000) dt then
    let axis i := derivative_axis dt (proj i omega_r) (proj i (ac_omega_r_prev c))
                    (proj i (ac_rate_limit c)) (proj i (ac_omega_r_dot c)) in
    c <| ac_omega_r_dot := V3 (axis ax_x) (axis ax_y) (axis ax_z) |> <| ac_omega_r_prev := omega_r |>
  else
    resetOmegaRDerivative c <| ac_omega_r_prev := omega_r |> <| ac_omega_r_prev_valid := true |>.

(** One cycle.  The measured rate is cleaned of values that are not finite, but nothing uses
    it: only the gravity torque is left of the compensation. *)
Definition att_update (q : quat T) (omega : vec3 T) (dt : T) c : ESOAttitudeControl T * vec3 T :=
  let R := dcm_of_quat (current_attitude q) in
  let omega_r := rate_reference c R in
  let c := c <| ac_beta_v := attitude_error c R |> <| ac_tau_s := gravity_torque c R |> in
  (update_derivative omega_r dt c, omega_r).

Definition ESOAttitudeControl_new : ESOAttitudeControl T :=
  mkAttitudeControl v3_zero v3_zero s_zero quat_default s_zero v3_zero v3_zero false v3_zero
    s_zero v3_zero m3_zero v3_zero.

End Control.
