(* ===== verification/AttControlSpec.v ===== *)
(** * Properties of the attitude controller

    In single precision: the rate setpoint is finite and within its limits for all inputs;
    the two quaternions of one attitude give the same command bit for bit; a setpoint that
    is not a number commands zero rates.  In exact arithmetic: the commanded rate never
    increases the attitude error, and the yaw weight, which is divided out of the gain and
    multiplied into the error, has no effect on the command. *)
From Stdlib Require Import Reals Lra Floats.SpecFloat.
From coqutil Require Import Datatypes.RecordSettersUsingExistingGetters.
From S2P Require Import Prelude Float32 Linalg LinalgReal Eso ControlMath AttControl ArmKinematics ArmKinematicsSpec.
Local Open Scope Z_scope.

(** ** What a cycle leaves alone *)

Lemma update_derivative_frame {T} `{Scalar T} `{ScalarOrd T} `{ScalarRoot T} w dt (c : ESOAttitudeControl T) :
  let c' := update_derivative w dt c in
  ac_beta_v c' = ac_beta_v c /\ ac_tau_s c' = ac_tau_s c /\ ac_rate_limit c' = ac_rate_limit c.
Proof. cbv zeta. unfold update_derivative. destruct (negb _); [done|]. by destruct (_ && _). Qed.

Lemma att_update_parts {T} `{Scalar T} `{ScalarOrd T} `{ScalarRoot T} q w dt (c : ESOAttitudeControl T) :
  let R := dcm_of_quat (current_attitude q) in
  snd (att_update q w dt c) = rate_reference c R /\
  ac_beta_v (fst (att_update q w dt c)) = attitude_error c R /\
  ac_tau_s (fst (att_update q w dt c)) = gravity_torque c R.
Proof.
  cbv zeta. unfold att_update. cbv zeta. cbn [fst snd]. split; [done|].
  match goal with |- context [update_derivative ?w dt ?c0] =>
    destruct (update_derivative_frame w dt c0) as (-> & -> & _) end.
  done.
Qed.

(** ** Bounds *)

Lemma limit_rate_ok x lim :
  PX4_ISFINITE lim = true -> fle f0 lim = true ->
  PX4_ISFINITE (limit_rate x lim) = true /\
  fle (fneg lim) (limit_rate x lim) = true /\ fle (limit_rate x lim) lim = true.
Proof.
  intros Hf Hl. unfold limit_rate. cbn [s_finite ScalarOrd_f32].
  destruct (PX4_ISFINITE x) eqn:E.
  - change (s_constrain x (s_opp lim) lim) with (math_constrain x (fneg lim) lim).
    split; [apply constrain_finite; by rewrite ?fneg_finite|]. apply constrain_in_range; auto with f32.
  - split; [done|]. split; [|done]. by destruct lim as [[]|[]| |[]].
Qed.

(** With rate limits that are finite and not negative, every rate setpoint of the attitude
    controller is finite and within its limit on every axis, and the compensation torque is
    finite, whatever the attitude, the setpoint, the gains, the mass model and the time step
    are, not-a-number included. *)
Theorem att_rates_bounded (q : quat f32) (omega : vec3 f32) (dt : f32)
    (c : ESOAttitudeControl f32) (i : axis) :
  PX4_ISFINITE (proj i (ac_rate_limit c)) = true -> fle f0 (proj i (ac_rate_limit c)) = true ->
  let rates := snd (att_update q omega dt c) in
  PX4_ISFINITE (proj i rates) = true /\
  fle (fneg (proj i (ac_rate_limit c))) (proj i rates) = true /\
  fle (proj i rates) (proj i (ac_rate_limit c)) = true /\
  PX4_ISFINITE (proj i (ac_tau_s (fst (att_update q omega dt c)))) = true.
Proof.
  intros Hf Hl. cbv zeta. destruct (att_update_parts q omega dt c) as (-> & _ & ->).
  generalize (dcm_of_quat (current_attitude q)) as R. intros R.
  unfold rate_reference, gravity_torque. cbv zeta. rewrite proj_map2, proj_map.
  match goal with |- context [limit_rate ?x _] =>
    destruct (limit_rate_ok x (proj i (ac_rate_limit c)) Hf Hl) as (H1 & H2 & H3) end.
  split; [exact H1|]. split; [exact H2|]. split; [exact H3|].
  unfold s_zero_unless_finite. cbn [s_finite ScalarOrd_f32]. by case_match.
Qed.

(** A tumbling estimate that is not a number, full gains. *)
Lemma att_rates_bounded_witness :
  let c := setRateLimit (V3 f1 f1 f1) (setProportionalGain (V3 f1 f1 f1) f1 ESOAttitudeControl_new) in
  let rates := snd (att_update (Quat fnan f1 f0 f0) v3_zero (flit 1 100) c) in
  fle (proj ax_x rates) f1 = true.
Proof.
  intros c rates.
  apply (att_rates_bounded (Quat fnan f1 f0 f0) v3_zero (flit 1 100) c ax_x); by vm_compute.
Defined.

(** ** The two quaternions of an attitude *)

Lemma binary_round_aux_opp s m e l :
  binary_round_aux 24 128 (negb s) m e l = fneg (binary_round_aux 24 128 s m e l).
Proof.
  unfold binary_round_aux. destruct (shr_fexp 24 128 m e l) as [r e'].
  destruct (shr_fexp 24 128 _ e' loc_Exact) as [r' e'']. destruct (shr_m r'); try done.
  by destruct (e'' <=? _).
Qed.

Lemma fmul_neg_l x y : fmul (fneg x) y = fneg (fmul x y).
Proof.
  destruct x as [[]|[]| |[]], y as [[]|[]| |[]]; try done; unfold fmul, SFmul, fneg at 1, SFopp;
    cbn [xorb negb]; first [apply (binary_round_aux_opp false)|apply (binary_round_aux_opp true)].
Qed.

Lemma fmul_neg_neg x y : fmul (fneg x) (fneg y) = fmul x y.
Proof. by destruct x as [[]|[]| |[]], y as [[]|[]| |[]]. Qed.

Definition quat_fneg (q : quat f32) : quat f32 :=
  Quat (fneg (q_0 q)) (fneg (q_1 q)) (fneg (q_2 q)) (fneg (q_3 q)).

Lemma norm_squared_neg q : quat_norm_squared (quat_fneg q) = quat_norm_squared q.
Proof. unfold quat_norm_squared, quat_fneg. cbn. by rewrite !fmul_neg_neg. Qed.

Lemma normalize_neg q : quat_normalize (quat_fneg q) = quat_fneg (quat_normalize q).
Proof.
  unfold quat_normalize. rewrite norm_squared_neg. unfold quat_scale, quat_fneg.
  cbn [q_0 q_1 q_2 q_3 s_mul Scalar_f32]. by rewrite !fmul_neg_l.
Qed.

Lemma dcm_neg q : dcm_of_quat (quat_fneg q) = dcm_of_quat q.
Proof. unfold dcm_of_quat, quat_fneg. cbn. by rewrite !fmul_neg_neg. Qed.

Lemma current_dcm_neg (q : quat f32) :
  dcm_of_quat (current_attitude (quat_fneg q)) = dcm_of_quat (current_attitude q).
Proof.
  unfold current_attitude. rewrite norm_squared_neg. case_match; [|done].
  by rewrite normalize_neg, dcm_neg.
Qed.

(** Double cover: the attitude controller treats a quaternion and its negative, which are
    the same attitude, alike: rate setpoint and new state are equal bit for bit, for all
    quaternions, states and inputs. *)
Theorem att_double_cover (q : quat f32) (omega : vec3 f32) (dt : f32) (c : ESOAttitudeControl f32) :
  att_update (quat_fneg q) omega dt c = att_update q omega dt c.
Proof. unfold att_update. by rewrite current_dcm_neg. Qed.

(** ** A setpoint that is not a number *)

Definition q_nan : quat f32 := Quat fnan fnan fnan fnan.
Definition m_nan : mat3 f32 := M3 fnan fnan fnan fnan fnan fnan fnan fnan fnan.

(** Normalising spreads one component that is not a number to all of them. *)
Lemma normalize_nan (q : quat f32) :
  q_0 q = fnan \/ q_1 q = fnan \/ q_2 q = fnan \/ q_3 q = fnan -> quat_normalize q = q_nan.
Proof.
  intros Hq. unfold quat_normalize.
  assert (E : quat_norm_squared q = fnan).
  { unfold quat_norm_squared. cbn. destruct Hq as [-> | [-> | [-> | ->]]]; by autorewrite with f32. }
  rewrite E. unfold quat_scale, q_nan. cbn. by autorewrite with f32.
Qed.

Lemma dcm_q_nan : dcm_of_quat q_nan = m_nan.
Proof. done. Qed.

Lemma mul_m_nan (R : mat3 f32) : m3_mul m_nan R = m_nan.
Proof. unfold m3_mul, m3_vec, m_nan. cbn. by autorewrite with f32. Qed.

Lemma quat_of_m_nan : quat_of_dcm m_nan = q_nan.
Proof. done. Qed.

Lemma error_nan (c : ESOAttitudeControl f32) R :
  ac_setpoint_q c = q_nan -> error_quaternion c R = q_nan.
Proof.
  intros Hc. unfold error_quaternion, target_attitude. rewrite Hc. cbv zeta.
  change (s_lt s_zero (quat_norm_squared q_nan)) with false. cbn iota.
  rewrite dcm_q_nan. change (m3_transpose m_nan) with m_nan. rewrite mul_m_nan, quat_of_m_nan. done.
Qed.

(** Such a setpoint commands no rotation. *)
Lemma rates_nan_setpoint (c : ESOAttitudeControl f32) R :
  ac_setpoint_q c = q_nan -> rate_reference c R = V3 f0 f0 f0.
Proof.
  intros Hc. unfold rate_reference, attitude_error. rewrite (error_nan c R Hc). cbv zeta.
  cbn [q_1 q_2 q_3 q_nan]. unfold v3_map2 at 1, v3_sub, v3_scale, v3_emult, v3_map, v3_map2.
  cbn [v_x v_y v_z]. unfold limit_rate. cbn [s_finite ScalarOrd_f32 s_sub s_mul Scalar_f32].
  assert (W : (if weight_active (ac_yaw_w c) then s_mul fnan (ac_yaw_w c) else fnan) = fnan).
  { case_match; [|done]. cbn. by autorewrite with f32. }
  cbn [s_mul Scalar_f32] in W. rewrite W. autorewrite with f32. done.
Qed.

(** ** The yaw weight *)

Local Open Scope R_scope.

Lemma yaw_weight_range w : 1 / 10000 < w ->
  weight_active (s_constrain w 0 1) = true /\ s_constrain w 0 1 <> 0.
Proof.
  intros Hw. unfold weight_active, s_constrain. cbn [s_lt ScalarOrd_R].
  assert (E : Rltb w 0 = false) by (apply Rltb_false; lra). rewrite E.
  destruct (Rltb 1 w) eqn:E1.
  - split; [apply Rltb_true; cbn; lra|lra].
  - split; [apply Rltb_true; cbn; lra|lra].
Qed.

(** The reference does not depend on the weight. *)
Lemma reference_unweighted gain w (c : ESOAttitudeControl R) A : 1 / 10000 < w ->
  let e := error_quaternion c A in
  rate_reference (setProportionalGain gain w c) A =
  v3_map2 limit_rate
    (v3_sub (feed_forward c A) (v3_scale (v3_emult gain (V3 (q_1 e) (q_2 e) (q_3 e))) 2))
    (ac_rate_limit c).
Proof.
  intros Hw. cbv zeta. destruct (yaw_weight_range w Hw) as [Ha Hn].
  set (k := s_constrain w 0 1) in *. set (c1 := setProportionalGain gain w c).
  assert (E1 : ac_proportional_gain c1 = V3 (v_x gain) (v_y gain) (v_z gain / k)).
  { change (ac_proportional_gain c1) with
      (V3 (v_x gain) (v_y gain) (if weight_active k then v_z gain / k else v_z gain)). by rewrite Ha. }
  unfold rate_reference, attitude_error. cbv zeta. rewrite E1.
  change (ac_yaw_w c1) with k. change (ac_rate_limit c1) with (ac_rate_limit c).
  change (feed_forward c1 A) with (feed_forward c A).
  change (error_quaternion c1 A) with (error_quaternion c A). rewrite Ha. clear E1 Ha. clearbody k. clear c1.
  generalize (error_quaternion c A) (feed_forward c A). intros e ff. f_equal.
  unfold v3_sub, v3_scale, v3_emult, v3_map2, v3_map. cbn [v_x v_y v_z s_sub s_mul s_of_Z Scalar_R].
  f_equal. field. exact Hn.
Qed.

(** The yaw weight has no effect: in exact arithmetic every weight above one ten-thousandth
    gives the same rate setpoint, for all attitudes, setpoints, gains and limits, because the
    gain is divided by the weight that the yaw error is multiplied with. *)
Theorem att_yaw_weight_cancels (gain : vec3 R) (w w' : R) (q : quat R) (omega : vec3 R) (dt : R)
    (c : ESOAttitudeControl R) :
  1 / 10000 < w -> 1 / 10000 < w' ->
  snd (att_update q omega dt (setProportionalGain gain w c)) =
  snd (att_update q omega dt (setProportionalGain gain w' c)).
Proof.
  intros Hw Hw'.
  destruct (att_update_parts q omega dt (setProportionalGain gain w c)) as [-> _].
  destruct (att_update_parts q omega dt (setProportionalGain gain w' c)) as [-> _].
  by rewrite !reference_unweighted.
Qed.

(** Full and tenth weight. *)
Lemma att_yaw_weight_cancels_witness :
  let c := setRateLimit (V3 4 4 2) ESOAttitudeControl_new in
  snd (att_update (Quat 1 0 0 1) v3_zero (1 / 100) (setProportionalGain (V3 6 6 3) 1 c)) =
  snd (att_update (Quat 1 0 0 1) v3_zero (1 / 100) (setProportionalGain (V3 6 6 3) (1 / 10) c)).
Proof. intros c. apply att_yaw_weight_cancels; lra. Defined.

(** ** The command reduces the error *)

Definition quat_conj (q : quat R) : quat R := Quat (q_0 q) (- q_1 q) (- q_2 q) (- q_3 q).

Lemma dcm_conj q : m3_transpose (dcm_of_quat q) = dcm_of_quat (quat_conj q).
Proof. unfold quat_conj. real_ring. Qed.

Lemma dcm_mul_R (p q : quat R) : m3_mul (dcm_of_quat p) (dcm_of_quat q) = dcm_of_quat (quat_mul p q).
Proof. real_ring. Qed.

Lemma norm_mul_R (p q : quat R) :
  quat_norm_squared (quat_mul p q) = quat_norm_squared p * quat_norm_squared q.
Proof. to_R. ring. Qed.

Lemma norm_conj q : quat_norm_squared (quat_conj q) = quat_norm_squared q.
Proof. unfold quat_conj. to_R. ring. Qed.

Lemma norm_squared_pos (q : quat R) : quat_norm_squared q <> 0 -> Rltb 0 (quat_norm_squared q) = true.
Proof.
  intros Hq. apply Rltb_true. revert Hq. to_R. destruct q as [a b d e].
  pose proof (Rle_0_sqr a). pose proof (Rle_0_sqr b). pose proof (Rle_0_sqr d).
  pose proof (Rle_0_sqr e). unfold Rsqr in *. lra.
Qed.

(** The error quaternion is a unit quaternion whose matrix is the error matrix. *)
Lemma error_quaternion_ok (c : ESOAttitudeControl R) (q : quat R) :
  quat_norm_squared q <> 0 -> quat_norm_squared (ac_setpoint_q c) <> 0 ->
  let A := dcm_of_quat (current_attitude q) in
  let e := error_quaternion c A in
  quat_norm_squared e = 1 /\ 0 <= q_0 e /\
  dcm_of_quat e = m3_mul (m3_transpose (dcm_of_quat (target_attitude c))) A.
Proof.
  intros Hq Hs. cbv zeta. unfold error_quaternion, current_attitude, target_attitude. cbv zeta.
  cbn [s_lt ScalarOrd_R s_zero Scalar_R]. rewrite (norm_squared_pos q Hq), (norm_squared_pos _ Hs).
  set (p := quat_normalize q). set (d := quat_normalize (ac_setpoint_q c)).
  assert (Hp : quat_norm_squared p = 1) by (by apply quat_normalize_unit).
  assert (Hd : quat_norm_squared d = 1) by (by apply quat_normalize_unit).
  rewrite dcm_conj, dcm_mul_R. set (x := quat_mul (quat_conj d) p).
  assert (Hx : quat_norm_squared x = 1) by (unfold x; rewrite norm_mul_R, norm_conj, Hp, Hd; lra).
  clearbody x. clear - Hx.
  assert (Ho : forall y : quat R, quat_scale y (s_opp (IZR 1)) = quat_opp y) by (intros y; unfold quat_opp; real_ring).
  assert (Hy : exists y, quat_of_dcm (dcm_of_quat x) = y /\ quat_norm_squared y = 1 /\ dcm_of_quat y = dcm_of_quat x).
  { eexists. split; [reflexivity|]. destruct (quat_dcm_unit x Hx) as [-> | ->]; [done|].
    split; [|apply dcm_opp]. rewrite <- Hx. unfold quat_opp. to_R. ring. }
  destruct Hy as (y & -> & Hy & Hm). cbn [s_of_Z Scalar_R]. rewrite Ho. destruct (Rltb (q_0 y) 0) eqn:E.
  - apply Rltb_true in E. split; [rewrite <- Hy; unfold quat_opp; to_R; ring|].
    split; [cbn; lra|by rewrite dcm_opp].
  - apply Rltb_false in E. done.
Qed.

(** Limiting keeps the direction. *)
Lemma limit_rate_sign x lim : 0 < lim -> exists k, 0 < k /\ limit_rate x lim = k * x.
Proof.
  intros Hl. unfold limit_rate, s_constrain. cbn [s_finite s_lt s_opp ScalarOrd_R Scalar_R].
  destruct (Rltb x (- lim)) eqn:E1; [|destruct (Rltb lim x) eqn:E2].
  - apply Rltb_true in E1. exists (- lim / x). split; [|field; lra].
    apply Rmult_lt_reg_l with (- x); [lra|]. replace (- x * (- lim / x)) with lim by (field; lra). lra.
  - apply Rltb_true in E2. exists (lim / x). split; [|field; lra]. apply Rdiv_lt_0_compat; lra.
  - exists 1. split; lra.
Qed.

(** The weighted error has the direction of the error. *)
Lemma weighted_sign w x : 0 <= w ->
  exists k, 0 < k /\ (if weight_active w then x * w else x) = k * x.
Proof.
  intros Hw. unfold weight_active. cbn [s_lt ScalarOrd_R]. destruct (Rltb _ w) eqn:E.
  - apply Rltb_true in E. cbn in E. exists w. split; [lra|ring].
  - exists 1. split; lra.
Qed.

(** One axis: the rate is a negative multiple of the error. *)
Lemma axis_opposes g k lim x : 0 < g -> 0 < k -> 0 < lim ->
  exists r, 0 < r /\ limit_rate (0 - g * (k * x) * 2) lim = - (r * x).
Proof.
  intros Hg Hk Hl. destruct (limit_rate_sign (0 - g * (k * x) * 2) lim Hl) as (r & Hr & ->).
  exists (r * g * k * 2). split; [|ring]. assert (0 < r * g) by nra. assert (0 < r * g * k) by nra. lra.
Qed.

Lemma no_feed_forward (c : ESOAttitudeControl R) A :
  ac_yawspeed_setpoint c = 0 -> feed_forward c A = V3 0 0 0.
Proof.
  intros Hy. unfold feed_forward, s_zero_unless_finite. rewrite Hy. cbn [s_finite ScalarOrd_R].
  to_R. f_equal; ring.
Qed.

Lemma reference_opposes (c : ESOAttitudeControl R) A :
  ac_yawspeed_setpoint c = 0 -> 0 <= ac_yaw_w c ->
  (forall i, 0 < proj i (ac_proportional_gain c) /\ 0 < proj i (ac_rate_limit c)) ->
  let e := error_quaternion c A in
  exists r1 r2 r3, 0 < r1 /\ 0 < r2 /\ 0 < r3 /\
    rate_reference c A = V3 (- (r1 * q_1 e)) (- (r2 * q_2 e)) (- (r3 * q_3 e)).
Proof.
  intros Hy Hw Hp. cbv zeta. unfold rate_reference, attitude_error. cbv zeta.
  rewrite (no_feed_forward c A Hy). generalize (error_quaternion c A). intros e.
  destruct (weighted_sign (ac_yaw_w c) (q_3 e) Hw) as (k & Hk & Ek). cbn [s_mul Scalar_R]. rewrite Ek.
  destruct (Hp ax_x) as [Gx Lx], (Hp ax_y) as [Gy Ly], (Hp ax_z) as [Gz Lz]. cbn [proj] in *.
  destruct (axis_opposes _ 1 _ (q_1 e) Gx Rlt_0_1 Lx) as (r1 & H1 & E1).
  destruct (axis_opposes _ 1 _ (q_2 e) Gy Rlt_0_1 Ly) as (r2 & H2 & E2).
  destruct (axis_opposes _ k _ (q_3 e) Gz Hk Lz) as (r3 & H3 & E3). rewrite Rmult_1_l in E1, E2.
  exists r1, r2, r3. split; [done|]. split; [done|]. split; [done|].
  rewrite <- E1, <- E2, <- E3. done.
Qed.

Lemma sum_squares_zero a b d x y z : 0 < a -> 0 < b -> 0 < d ->
  a * (x * x) + b * (y * y) + d * (z * z) = 0 -> x = 0 /\ y = 0 /\ z = 0.
Proof.
  intros Ha Hb Hd E. pose proof (Rle_0_sqr x) as Px. pose proof (Rle_0_sqr y) as Py.
  pose proof (Rle_0_sqr z) as Pz. unfold Rsqr in *.
  assert (x * x = 0 /\ y * y = 0 /\ z * z = 0) as (X & Y & Z) by (repeat split; nra).
  apply Rsqr_eq_0 in X, Y, Z. done.
Qed.

Lemma opposed r x : 0 < r -> x <> 0 -> x * - (r * x) < 0.
Proof. intros Hr Hx. pose proof (Rsqr_pos_lt x Hx) as Hp. unfold Rsqr in Hp. nra. Qed.

(** An error quaternion without a vector part: the attitudes agree. *)
Lemma no_error_aligned (A D : mat3 R) (e : quat R) :
  m3_orthogonal D -> quat_norm_squared e = 1 -> dcm_of_quat e = m3_mul (m3_transpose D) A ->
  q_1 e = 0 -> q_2 e = 0 -> q_3 e = 0 -> A = D.
Proof.
  intros HD He Hm H1 H2 H3.
  assert (E : dcm_of_quat e = m3_identity).
  { destruct e as [a b x y]; cbn in *. subst. revert He. to_R. intros He. f_equal; lra. }
  rewrite E in Hm. transitivity (m3_mul D (m3_mul (m3_transpose D) A)).
  - rewrite <- m3_mul_assoc, HD, m3_mul_1_l. done.
  - rewrite <- Hm. apply m3_mul_1_r.
Qed.

Lemma unit_dcm_orthogonal (q : quat R) : quat_norm_squared q = 1 -> m3_orthogonal (dcm_of_quat q).
Proof.
  intros Hq. unfold m3_orthogonal.
  transitivity (m3_scale m3_identity (quat_norm_squared q * quat_norm_squared q)); [real_ring|].
  rewrite Hq. real_ring.
Qed.

(** C27 (liveness). In exact arithmetic, without a yaw feed-forward, with positive gains and rate limits
    and a yaw weight that is not negative, the commanded rate turns towards the setpoint: on
    every axis on which the vector part of the error quaternion is not zero the command has the
    opposite sign, also when its limit is active, and on the others it is zero; so its product
    with the error is never positive, and the command is zero only when the attitude is the
    setpoint.  (The scalar part of the error grows at minus half this product, so that following
    the command reduces the error until it is gone.) *)
Theorem att_command_reduces_error (q : quat R) (omega : vec3 R) (dt : R) (c : ESOAttitudeControl R) :
  quat_norm_squared q <> 0 -> quat_norm_squared (ac_setpoint_q c) <> 0 ->
  ac_yawspeed_setpoint c = 0 -> 0 <= ac_yaw_w c ->
  (forall i, 0 < proj i (ac_proportional_gain c) /\ 0 < proj i (ac_rate_limit c)) ->
  let A := dcm_of_quat (current_attitude q) in
  let e := error_quaternion c A in
  let error := V3 (q_1 e) (q_2 e) (q_3 e) in
  let command := snd (att_update q omega dt c) in
  (forall i, (proj i error <> 0 -> proj i error * proj i command < 0) /\ (proj i error = 0 -> proj i command = 0)) /\
  v3_dot error command <= 0 /\ (v3_dot error command = 0 -> A = dcm_of_quat (target_attitude c)).
Proof.
  intros Hq Hs Hy Hw Hp. cbv zeta. destruct (att_update_parts q omega dt c) as [-> _].
  destruct (error_quaternion_ok c q Hq Hs) as (Hu & _ & Hm).
  destruct (reference_opposes c (dcm_of_quat (current_attitude q)) Hy Hw Hp)
    as (r1 & r2 & r3 & H1 & H2 & H3 & ->).
  set (e := error_quaternion c _) in *.
  assert (Ep : v3_dot (V3 (q_1 e) (q_2 e) (q_3 e)) (V3 (- (r1 * q_1 e)) (- (r2 * q_2 e)) (- (r3 * q_3 e)))
    = - (r1 * (q_1 e * q_1 e) + r2 * (q_2 e * q_2 e) + r3 * (q_3 e * q_3 e))) by (to_R; ring).
  rewrite Ep. split; [|split].
  - intros i. destruct i; cbn [proj v_x v_y v_z]; (split; [by apply opposed|intros ->; ring]).
  - pose proof (Rle_0_sqr (q_1 e)). pose proof (Rle_0_sqr (q_2 e)). pose proof (Rle_0_sqr (q_3 e)).
    unfold Rsqr in *. nra.
  - intros E0. destruct (sum_squares_zero r1 r2 r3 (q_1 e) (q_2 e) (q_3 e)) as (Z1 & Z2 & Z3); try done; [lra|].
    apply (no_error_aligned _ _ e); try done. apply unit_dcm_orthogonal.
    unfold target_attitude. cbn [s_lt ScalarOrd_R s_zero Scalar_R]. rewrite (norm_squared_pos _ Hs).
    by apply quat_normalize_unit.
Qed.

Lemma att_command_reduces_error_witness :
  let c := setRateLimit (V3 4 4 2) (setProportionalGain (V3 6 6 3) (1 / 2) ESOAttitudeControl_new) in
  let A := dcm_of_quat (current_attitude (Quat 1 1 0 0)) in
  let e := error_quaternion c A in
  let command := snd (att_update (Quat 1 1 0 0) v3_zero (1 / 100) c) in
  (q_1 e <> 0 -> q_1 e * v_x command < 0) /\ v3_dot (V3 (q_1 e) (q_2 e) (q_3 e)) command <= 0.
Proof.
  intros c A e command.
  assert (Hk : s_constrain (1 / 2) 0 1 = 1 / 2).
  { unfold s_constrain. cbn [s_lt ScalarOrd_R].
    assert (E1 : Rltb (1 / 2) 0 = false) by (apply Rltb_false; lra).
    assert (E2 : Rltb 1 (1 / 2) = false) by (apply Rltb_false; lra). by rewrite E1, E2. }
  assert (Hw : weight_active (1 / 2) = true).
  { apply Rltb_true. cbn. lra. }
  assert (Hy : ac_yaw_w c = 1 / 2) by exact Hk.
  assert (Hg : ac_proportional_gain c = V3 6 6 (3 / (1 / 2))).
  { change (ac_proportional_gain c) with (V3 6 6 (if weight_active (s_constrain (1 / 2) 0 1)
      then 3 / s_constrain (1 / 2) 0 1 else 3)). by rewrite Hk, Hw. }
  destruct (att_command_reduces_error (Quat 1 1 0 0) v3_zero (1 / 100) c) as (Hax & Hd & _);
    [..|split; [exact (proj1 (Hax ax_x))|exact Hd]].
  - to_R. lra.
  - to_R. cbn. lra.
  - done.
  - rewrite Hy. lra.
  - intros i. rewrite Hg. change (ac_rate_limit c) with (V3 4 4 2). destruct i; cbn [proj v_x v_y v_z]; lra.
Defined.
