(* ===== verification/AttModule.v ===== *)
(** * The attitude control module

    The work item of src/src/modules/eso_att_control/eso_att_control_main.cpp: it configures
    the attitude controller and the arm kinematics from the parameters, takes the joint
    angles, generates attitude setpoints from the sticks in stabilised mode, follows heading
    resets of the estimator, and runs the controller on every attitude estimate.  The
    stick shaping of src/src/lib/mathlib (gradual3, AlphaFilter), the angle wrapping and the
    Euler and axis-angle constructors of src/src/lib/matrix are modelled with it.  The debug
    snapshot and its bookkeeping print only and are left out. *)
From Stdlib Require Import Floats.SpecFloat.
From coqutil Require Import Datatypes.RecordSettersUsingExistingGetters.
From S2P Require Import Prelude Float32 Linalg Eso ControlMath PosControl ArmKinematics AttControl.
Local Open Scope Z_scope.

(** ** mathlib and matrix helpers *)

(** [floor]: exact, as every integral part of a [float] is a [float]. *)
Definition ffloor (x : f32) : f32 :=
  match x with
  | S754_finite s m e =>
      if 0 <=? e then x
      else f32_of_Z (Z.shiftr (if s then Zneg m else Zpos m) (- e))
  | _ => x
  end.

Definition wrap_floating (x low high : f32) : f32 :=
  if fle low x && flt x high then x
  else
    let range := fsub high low in
    let inv_range := fdiv f1 range in
    let num_wraps := ffloor (fmul (fsub x low) inv_range) in
    fsub x (fmul range num_wraps).

Definition wrap_pi (x : f32) : f32 := wrap_floating x (fneg MATH_PI_f) MATH_PI_f.

Definition gradual (value x_low x_high y_low y_high : f32) : f32 :=
  if fle value x_low then y_low
  else if fgt value x_high then y_high
  else
    let a := fdiv (fsub y_high y_low) (fsub x_high x_low) in
    let b := fsub y_low (fmul a x_low) in
    fadd (fmul a value) b.

Definition gradual3 (value x_low x_middle x_high y_low y_middle y_high : f32) : f32 :=
  if flt value x_middle then gradual value x_low x_middle y_low y_middle
  else gradual value x_middle x_high y_middle y_high.

Record AlphaFilter := mkAlphaFilter { af_alpha : f32; af_state : f32 }.

Definition af_setParameters (sample_interval time_constant : f32) (f : AlphaFilter) : AlphaFilter :=
  let denominator := fadd time_constant sample_interval in
  if fgt denominator FLT_EPSILON then f <| af_alpha := fdiv sample_interval denominator |> else f.

Definition af_update (sample : f32) (f : AlphaFilter) : AlphaFilter :=
  f <| af_state := fadd (fmul (fsub f1 (af_alpha f)) (af_state f)) (fmul (af_alpha f) sample) |>.

Definition af_reset (sample : f32) (f : AlphaFilter) : AlphaFilter := f <| af_state := sample |>.

Section Conversions.
Context `{Libm}.

Definition quat_of_axis_angle (aa : vec3 f32) : quat f32 :=
  let angle := v3_norm aa in
  let axis := v3_normalized aa in
  if flt angle (fdiv f1 (f32_of_Z 10000000000)) then Quat f1 f0 f0 f0
  else
    let half := fdiv angle (f32_of_Z 2) in
    let magnitude := sinf half in
    Quat (cosf half) (fmul (v_x axis) magnitude) (fmul (v_y axis) magnitude) (fmul (v_z axis) magnitude).

Definition quat_of_euler (phi theta psi : f32) : quat f32 :=
  let two := f32_of_Z 2 in
  let cp := cosf (fdiv phi two) in let ct := cosf (fdiv theta two) in let cs := cosf (fdiv psi two) in
  let sp := sinf (fdiv phi two) in let st := sinf (fdiv theta two) in let ss := sinf (fdiv psi two) in
  Quat (fadd (fmul (fmul cp ct) cs) (fmul (fmul sp st) ss))
       (fsub (fmul (fmul sp ct) cs) (fmul (fmul cp st) ss))
       (fadd (fmul (fmul cp st) cs) (fmul (fmul sp ct) ss))
       (fsub (fmul (fmul cp ct) ss) (fmul (fmul sp st) cs)).

Definition dcm_of_euler (phi theta psi : f32) : mat3 f32 :=
  let cp := cosf phi in let sp := sinf phi in
  let ct := cosf theta in let st := sinf theta in
  let cs := cosf psi in let ss := sinf psi in
  M3 (fmul ct cs)
     (fadd (fmul (fneg cp) ss) (fmul (fmul sp st) cs))
     (fadd (fmul sp ss) (fmul (fmul cp st) cs))
     (fmul ct ss)
     (fadd (fmul cp cs) (fmul (fmul sp st) ss))
     (fadd (fmul (fneg sp) cs) (fmul (fmul cp st) ss))
     (fneg st) (fmul sp ct) (fmul cp ct).

Definition euler_of_quat (q : quat f32) : vec3 f32 := euler_of_dcm (dcm_of_quat q).

End Conversions.

(** ** Parameters and messages *)

Record att_params := mkAttParams {
  ESO_ROLL_P : f32; ESO_PITCH_P : f32; ESO_YAW_P : f32; ESO_YAW_WEIGHT : f32;
  ESO_ROLLRATE_MAX : f32; ESO_PITCHRT_MAX : f32; ESO_YAWRATE_MAX : f32;
  MPC_MAN_Y_MAX : f32; MPC_MAN_TILT_MAX : f32; MPC_MANTHR_MIN : f32; MPC_THR_MAX : f32;
  MPC_THR_HOVER : f32; MPC_THR_CURVE : Z; MC_AIRMODE : Z; ESO_MAN_TILT_TAU : f32;
  ESO_MASS_TOTAL : f32; ESO_COM : vec3 f32; ESO_ARM_I : vec3 f32; ap_ESO_ARM_MODEL : Z
}.

Record manual_setpoint := mkManual { man_x : f32; man_y : f32; man_z : f32; man_r : f32 }.

Record att_mode := mkAttMode {
  am_flag_armed : bool;
  flag_control_attitude_enabled : bool;
  flag_control_manual_enabled : bool;
  flag_control_altitude_enabled : bool;
  flag_control_velocity_enabled : bool;
  flag_control_position_enabled : bool
}.

Record vehicle_attitude := mkVehicleAttitude {
  va_timestamp : Z;
  va_timestamp_sample : Z;
  va_q : quat f32;
  va_delta_q_reset : quat f32;
  va_quat_reset_counter : Z
}.

Record joint_states := mkJointStates { js_q : joints f32; js_valid : bool }.

Record att_status := mkAttStatus { vs_rotary_wing : bool; vs_is_vtol : bool; vs_in_transition : bool }.

Record autotune := mkAutotune { at_timestamp : Z; at_state : Z; at_rate_sp : vec3 f32 }.

(** [vehicle_rates_setpoint_s] and [eso_rate_aux_s]. *)
Record rates_setpoint := mkRatesSetpoint {
  rs_timestamp : Z; rs_rates : vec3 f32; rs_thrust_body : vec3 f32
}.

Record rate_aux := mkRateAux {
  aux_timestamp : Z; aux_omega_r : vec3 f32; aux_omega_r_dot : vec3 f32;
  aux_beta_v : vec3 f32; aux_tau_s : vec3 f32
}.

(** What a run of the work item finds: new parameters, joint angles and an attitude, the last
    body rates and autotune status, and new messages; [ai_time] is hrt_absolute_time(). *)
Record att_in := mkAttIn {
  ai_params : option att_params;
  ai_joints : option joint_states;
  ai_attitude : option vehicle_attitude;
  ai_omega : vec3 f32;
  ai_setpoint : option (Z * attitude_setpoint);
  ai_manual : option manual_setpoint;
  ai_mode : option att_mode;
  ai_landed : option bool;
  ai_status : option att_status;
  ai_autotune : option autotune;
  ai_time : Z
}.

Record att_out := mkAttOut {
  ao_rates : option rates_setpoint;
  ao_aux : option rate_aux;
  ao_attitude_setpoint : option attitude_setpoint
}.

(** ** State *)

Record att_module := mkAttModule {
  am_params : att_params;
  am_control : ESOAttitudeControl f32;
  am_arm : ArmKinematics f32;
  am_mass_total : f32;
  am_com_offset : vec3 f32;
  am_arm_inertia : mat3 f32;
  am_manual : manual_setpoint;
  am_mode : att_mode;
  am_thrust_setpoint_body : vec3 f32;
  am_man_yaw_sp : f32;
  am_man_tilt_max : f32;
  am_man_x_filter : AlphaFilter;
  am_man_y_filter : AlphaFilter;
  am_last_run : Z;
  am_last_attitude_setpoint : Z;
  am_landed : bool;
  am_reset_yaw_sp : bool;
  am_status : att_status;
  am_tailsitter : bool;
  am_quat_reset_counter : Z;
  am_was_armed : bool;
  am_was_run_att_ctrl : bool
}.

Section WithLibm.
Context `{Libm}.

(** ** Parameters *)

Definition parameters_updated (p : att_params) (m : att_module) : att_module :=
  let profile := resolveModelProfile (ap_ESO_ARM_MODEL p) in
  let '(mass, com, inertia) :=
    match profile with
    | UamV5 => let d := getDynamicsProfile profile in
               (dp_mass_total d, dp_com d, staticSystemInertiaMatrix d)
    | UavArmV4 => (ESO_MASS_TOTAL p, ESO_COM p, m3_diag (ESO_ARM_I p))
    end in
  let c := setProportionalGain (V3 (ESO_ROLL_P p) (ESO_PITCH_P p) (ESO_YAW_P p)) (ESO_YAW_WEIGHT p)
             (am_control m) in
  let c := setRateLimit (V3 (math_radians (ESO_ROLLRATE_MAX p)) (math_radians (ESO_PITCHRT_MAX p))
                            (math_radians (ESO_YAWRATE_MAX p))) c in
  m <| am_params := p |>
    <| am_control := setTauSParameters mass com inertia c |>
    <| am_man_tilt_max := math_radians (MPC_MAN_TILT_MAX p) |>
    <| am_mass_total := mass |> <| am_com_offset := com |> <| am_arm_inertia := inertia |>
    <| am_arm := setParameters mass com inertia (setModelProfile profile (am_arm m)) |>.

Definition update_dynamic_parameters (i : att_in) (m : att_module) : att_module :=
  match ai_joints i with
  | None => m
  | Some js =>
      if negb (js_valid js) then
        m <| am_control := setTauSParameters (am_mass_total m) (am_com_offset m) (am_arm_inertia m)
                             (am_control m) |>
      else
        let '(arm, com) := computeSystemCoM (js_q js) (am_arm m) in
        let '(arm, inertia) := computeSystemInertia (js_q js) arm in
        m <| am_arm := arm |>
          <| am_control := setTauSParameters (am_mass_total m) com inertia (am_control m) |>
  end.

(** ** Setpoints from the sticks *)

Definition throttle_curve (m : att_module) (stick : f32) : f32 :=
  let p := am_params m in
  let throttle_min := if am_landed m then f0 else MPC_MANTHR_MIN p in
  if MPC_THR_CURVE p =? 1
  then fadd throttle_min (fmul stick (fsub (MPC_THR_MAX p) throttle_min))
  else gradual3 stick f0 (flit 5 10) f1 throttle_min (MPC_THR_HOVER p) (MPC_THR_MAX p).

(** The yaw setpoint and its rate. *)
Definition manual_yaw (yaw dt : f32) (reset_yaw_sp : bool) (m : att_module) : f32 * f32 :=
  let p := am_params m in
  let man := am_manual m in
  if reset_yaw_sp then (yaw, f0)
  else if fgt (math_constrain (man_z man) f0 f1) (flit 5 100) || (MC_AIRMODE p =? 2) then
    let move_rate := fmul (man_r man) (math_radians (MPC_MAN_Y_MAX p)) in
    (wrap_pi (fadd (am_man_yaw_sp m) (fmul move_rate dt)), move_rate)
  else (am_man_yaw_sp m, f0).

(** The tilt axis from the filtered sticks, limited in length. *)
Definition tilt_axis (tilt_max x y : f32) : vec2 f32 :=
  let v := V2 y (fneg x) in
  let v_norm := v2_norm v in
  if fgt v_norm tilt_max then v2_scale v (fdiv tilt_max v_norm) else v.

(** For a VTOL the tilt is kept in the direction of the sticks despite a yaw error. *)
Definition vtol_correction (roll pitch yaw_body yaw : f32) : f32 * f32 :=
  let yaw_error := wrap_pi (fsub yaw_body yaw) in
  let z := m3_vec (dcm_of_euler roll pitch f0) (V3 f0 f0 f1) in
  let z := m3_vec (dcm_of_euler f0 f0 (fneg yaw_error)) z in
  (fneg (asinf (v_y z)), atan2f (v_x z) (v_z z)).

Definition generate_attitude_setpoint (q : quat f32) (dt : f32) (reset_yaw_sp : bool) (now : Z)
    (m : att_module) : att_module * attitude_setpoint :=
  let p := am_params m in
  let man := am_manual m in
  let yaw := v_z (euler_of_quat q) in
  let '(man_yaw_sp, move_rate) := manual_yaw yaw dt reset_yaw_sp m in
  let filter stick f :=
    af_update (fmul stick (am_man_tilt_max m)) (af_setParameters dt (ESO_MAN_TILT_TAU p) f) in
  let fx := filter (man_x man) (am_man_x_filter m) in
  let fy := filter (man_y man) (am_man_y_filter m) in
  let v := tilt_axis (am_man_tilt_max m) (af_state fx) (af_state fy) in
  let euler_sp := euler_of_quat (quat_of_axis_angle (V3 (v2_x v) (v2_y v) f0)) in
  let yaw_body := fadd man_yaw_sp (v_z euler_sp) in
  let '(roll_body, pitch_body) :=
    if vs_is_vtol (am_status m) then vtol_correction (v_x euler_sp) (v_y euler_sp) yaw_body yaw
    else (v_x euler_sp, v_y euler_sp) in
  let q_sp := quat_of_euler roll_body pitch_body yaw_body in
  let thrust := V3 f0 f0 (fneg (throttle_curve m (math_constrain (man_z man) f0 f1))) in
  let sp := mkAttitudeSetpoint roll_body pitch_body yaw_body move_rate q_sp thrust in
  (m <| am_man_yaw_sp := man_yaw_sp |> <| am_man_x_filter := fx |> <| am_man_y_filter := fy |>
     <| am_control := setAttitudeSetpoint q_sp move_rate (am_control m) |>
     <| am_thrust_setpoint_body := thrust |> <| am_last_attitude_setpoint := now |>, sp).

(** ** One run *)

Definition att_time_step (now last : Z) : f32 :=
  math_constrain (fmul (f32_of_Z (u64 (now - last))) (flit 1 1000000)) (flit 2 10000) (flit 2 100).

(** A newer attitude setpoint replaces the one tracked. *)
Definition take_setpoint (i : att_in) (m : att_module) : att_module :=
  match ai_setpoint i with
  | Some (ts, sp) =>
      if am_last_attitude_setpoint m <? ts then
        m <| am_control := setAttitudeSetpoint (q_d sp) (yaw_sp_move_rate sp) (am_control m) |>
          <| am_thrust_setpoint_body := thrust_body sp |> <| am_last_attitude_setpoint := ts |>
      else m
  | None => m
  end.

(** The estimator's heading reset turns the setpoints along. *)
Definition follow_heading_reset (v : vehicle_attitude) (m : att_module) : att_module :=
  if am_quat_reset_counter m =? va_quat_reset_counter v then m
  else
    let dq := va_delta_q_reset v in
    let m := m <| am_man_yaw_sp := wrap_pi (fadd (am_man_yaw_sp m) (v_z (euler_of_quat dq))) |> in
    let m := if am_last_attitude_setpoint m <? va_timestamp v
             then m <| am_control := adaptAttitudeSetpoint dq (am_control m) |> else m in
    m <| am_quat_reset_counter := va_quat_reset_counter v |>.

Definition take_topics (i : att_in) (m : att_module) : att_module :=
  m <| am_manual := default (am_manual m) (ai_manual i) |>
    <| am_mode := default (am_mode m) (ai_mode i) |>
    <| am_landed := default (am_landed m) (ai_landed i) |>
    <| am_status := default (am_status m) (ai_status i) |>.

(** The controller runs while hovering, or for a tailsitter in transition. *)
Definition run_att_ctrl (m : att_module) : bool :=
  let s := am_status m in
  flag_control_attitude_enabled (am_mode m) &&
  (vs_rotary_wing s && negb (vs_in_transition s) || am_tailsitter m && vs_in_transition s).

(** The derivative of the rate setpoint starts anew while disarmed, on arming and when the
    controller is switched on or off. *)
Definition manage_derivative (m : att_module) : att_module :=
  let armed := am_flag_armed (am_mode m) in
  let run := run_att_ctrl m in
  let reset := negb armed || negb (am_was_armed m) && armed || negb (am_was_run_att_ctrl m) && run
               || am_was_run_att_ctrl m && negb run in
  let m := if reset then m <| am_control := resetOmegaRDerivative (am_control m) |> else m in
  m <| am_was_armed := armed |> <| am_was_run_att_ctrl := run |>.

(** Stabilised mode: nothing above the attitude is controlled. *)
Definition stabilized (k : att_mode) : bool :=
  flag_control_manual_enabled k && negb (flag_control_altitude_enabled k)
  && negb (flag_control_velocity_enabled k) && negb (flag_control_position_enabled k).

(** Autotune adds its excitation to the limited setpoint while it is active and recent. *)
Definition add_autotune (i : att_in) (rates : vec3 f32) : vec3 f32 :=
  match ai_autotune i with
  | Some a =>
      let s := at_state a in
      if ((s =? 2) || (s =? 4) || (s =? 6) || (s =? 10)) && (u64 (ai_time i - at_timestamp a) <? 1000000)
      then v3_add rates (at_rate_sp a) else rates
  | None => rates
  end.

(** The sticks' setpoint in stabilised mode; otherwise the stick filters are reset. *)
Definition manual_stage (i : att_in) (q : quat f32) (dt : f32) (m : att_module)
  : att_module * option attitude_setpoint :=
  if stabilized (am_mode m) then
    let '(m, sp) := generate_attitude_setpoint q dt (am_reset_yaw_sp m) (ai_time i) m in (m, Some sp)
  else
    (m <| am_man_x_filter := af_reset f0 (am_man_x_filter m) |>
       <| am_man_y_filter := af_reset f0 (am_man_y_filter m) |>, None).

(** The controller and what is published of it. *)
Definition control_stage (i : att_in) (q : quat f32) (dt : f32) (m : att_module)
  : att_module * (rates_setpoint * rate_aux) :=
  let '(c, rates) := att_update q (ai_omega i) dt (am_control m) in
  let rates := add_autotune i rates in
  (m <| am_control := c |>,
   (mkRatesSetpoint (ai_time i) rates (am_thrust_setpoint_body m),
    mkRateAux (ai_time i) rates (ac_omega_r_dot c) (ac_beta_v c) (ac_tau_s c))).

(** The messages and the bookkeeping before the controller. *)
Definition att_prepare (i : att_in) (v : vehicle_attitude) (m : att_module) : att_module :=
  let m := m <| am_last_run := va_timestamp_sample v |> in
  let m := take_setpoint i m in
  let m := follow_heading_reset v m in
  let m := take_topics i m in
  manage_derivative m.

(** The controller, when it is to run, and the flag for the next run's yaw setpoint. *)
Definition run_prepared (i : att_in) (q : quat f32) (dt : f32) (m : att_module)
  : att_module * att_out :=
  let '(m, generated, out) :=
    if run_att_ctrl m then
      let '(m, sp) := manual_stage i q dt m in
      let '(m, (rates, aux)) := control_stage i q dt m in
      (m, match sp with Some _ => true | None => false end, mkAttOut (Some rates) (Some aux) sp)
    else (m, false, mkAttOut None None None) in
  let s := am_status m in
  (m <| am_reset_yaw_sp := negb generated || am_landed m || vs_is_vtol s && vs_in_transition s |>, out).

Definition run_attitude (i : att_in) (v : vehicle_attitude) (m : att_module) : att_module * att_out :=
  let dt := att_time_step (va_timestamp_sample v) (am_last_run m) in
  run_prepared i (va_q v) dt (att_prepare i v m).

Definition att_Run (i : att_in) (m : att_module) : att_module * att_out :=
  let m := match ai_params i with Some p => parameters_updated p m | None => m end in
  let m := update_dynamic_parameters i m in
  match ai_attitude i with
  | Some v => run_attitude i v m
  | None => (m, mkAttOut None None None)
  end.

(** The constructed module with its parameters applied; the tailsitter flag is read from
    the vehicle type. *)
Definition att_module_new (p : att_params) (vtol tailsitter : bool) : att_module :=
  parameters_updated p
    (mkAttModule p ESOAttitudeControl_new ArmKinematics_new f0 v3_zero m3_zero
       (mkManual f0 f0 f0 f0) (mkAttMode false false false false false false) v3_zero f0 f0
       (mkAlphaFilter f0 f0) (mkAlphaFilter f0 f0) 0 0 true true (mkAttStatus true vtol false)
       (vtol && tailsitter) 0 false false).

End WithLibm.
