(* ===== verification/RateModule.v ===== *)
(** * The rate control module

    The work item of src/src/modules/eso_rate_control/ESOMulticopterRateControl.cpp: on every
    gyro sample it updates the inertia from the arm, takes the rate setpoint from the sticks
    (acro) or from the attitude controller, takes the attitude controller's auxiliary terms
    while they are recent, runs the rate controller with the allocator's saturation flags and
    publishes actuator controls, torque and thrust setpoints.  The stick curves are those of
    src/src/lib/mathlib/math/Functions.hpp.  Debug output, which compile-time constants
    disable, is left out. *)
From Stdlib Require Import Floats.SpecFloat.
From coqutil Require Import Datatypes.RecordSettersUsingExistingGetters.
From S2P Require Import Prelude Float32 Linalg Eso RateControl ControlMath ArmKinematics AttModule.
Local Open Scope Z_scope.

(** ** Stick curves *)

Definition expo (value e : f32) : f32 :=
  let x := math_constrain value (fneg f1) f1 in
  let ec := math_constrain e f0 f1 in
  fadd (fmul (fsub f1 ec) x) (fmul (fmul (fmul ec x) x) x).

Definition superexpo (value e g : f32) : f32 :=
  let x := math_constrain value (fneg f1) f1 in
  let gc := math_constrain g f0 (flit 99 100) in
  fdiv (fmul (expo x e) (fsub f1 gc)) (fsub f1 (fmul (fabs x) gc)).

(** ** Parameters and messages *)

Record rate_module_params := mkRateModuleParams {
  rp_rate_k : vec3 f32; rp_rate_p : vec3 f32; rp_rate_i : vec3 f32; rp_rate_d : vec3 f32;
  rp_int_lim : vec3 f32; rp_rate_ff : vec3 f32;
  rp_inertia : vec3 f32; rp_rate_bw : vec3 f32;
  ESO_K_BETA : f32; ESO_MAX_TORQUE : f32; ESO_RATE_I_SC : f32; ESO_TAUS_K : f32;
  rp_taus_k : vec3 f32; rp_taus_obs : vec3 f32; rp_taus_ctl : vec3 f32;
  ESO_TAUS_LIM : f32; ESO_TAUS_TAU : f32;
  rp_acro_max : vec3 f32; ESO_ACRO_EXPO : f32; ESO_ACRO_EXPO_Y : f32;
  ESO_ACRO_SUPEXPO : f32; ESO_ACRO_SUPEX_Y : f32;
  ESO_BAT_SCALE_EN : bool; rp_ESO_ARM_MODEL : Z; CBRK_RATE_CTRL : Z
}.

Record rate_mode := mkRateMode {
  rm_flag_armed : bool;
  rm_manual_enabled : bool;
  rm_attitude_enabled : bool;
  flag_control_rates_enabled : bool;
  flag_control_termination_enabled : bool
}.

Record allocator_status := mkAllocatorStatus {
  torque_setpoint_achieved : bool;
  unallocated_torque : vec3 f32
}.

(** A gyro sample and what else is new; [ri_time] is hrt_absolute_time(). *)
Record rate_in := mkRateIn {
  ri_params : option rate_module_params;
  ri_gyro : option (Z * vec3 f32);                (** timestamp_sample and rates *)
  ri_joints : option joint_states;
  ri_accel : vec3 f32;
  ri_mode : option rate_mode;
  ri_land : option (bool * bool);                 (** landed, maybe_landed *)
  ri_status : option (bool * bool);               (** rotary wing, is_vtol *)
  ri_gear : option Z;
  ri_manual : option manual_setpoint;
  ri_rates_sp : option rates_setpoint;
  ri_aux : option rate_aux;
  ri_alloc : option allocator_status;
  ri_battery : option (bool * f32);               (** connected, scale *)
  ri_time : Z
}.

(** Roll, pitch, yaw and throttle, and the landing gear. *)
Record actuator_controls := mkActuators {
  ctl_torque : vec3 f32; ctl_throttle : f32; ctl_landing_gear : Z; ctl_timestamp_sample : Z
}.

Record rate_out := mkRateOut {
  ro_rates_sp : option rates_setpoint;
  ro_actuators : option actuator_controls;
  ro_torque : option (vec3 f32);
  ro_thrust : option (vec3 f32);
  ro_status : option rate_ctrl_status;
  ro_power : option (vec3 f32 * f32)
}.

Definition rate_out_none : rate_out := mkRateOut None None None None None None.

(** ** State *)

Record rate_module := mkRateModule {
  rm_params : rate_module_params;
  rm_control : ESORateControl;
  rm_arm : ArmKinematics f32;
  rm_static_inertia : mat3 f32;
  rm_mode : rate_mode;
  rm_rotary_wing : bool;
  rm_is_vtol : bool;
  rm_breaker : bool;
  rm_landed : bool;
  rm_maybe_landed : bool;
  rm_battery_scale : f32;
  rm_last_aux : Z;
  rm_rates_sp : vec3 f32;
  rm_thrust_sp : f32;
  rm_last_run : Z;
  rm_landing_gear : Z;
  rm_energy_time : f32;
  rm_energy : vec3 f32 * f32;
  rm_acro_max : vec3 f32
}.

Definition GEAR_UP : Z := 1.
Definition GEAR_DOWN : Z := -1.
Definition GEAR_KEEP : Z := 0.

Section WithLibm.
Context `{Libm}.

(** ** Parameters *)

Definition rate_parameters_updated (p : rate_module_params) (m : rate_module) : rate_module :=
  let profile := resolveModelProfile (rp_ESO_ARM_MODEL p) in
  let d := getDynamicsProfile profile in
  let static_inertia :=
    match profile with UamV5 => staticSystemInertiaMatrix d | UavArmV4 => m3_diag (rp_inertia p) end in
  let arm_inertia :=
    match profile with UamV5 => bodyInertiaMatrix d | UavArmV4 => static_inertia end in
  let arm := setParameters (dp_mass_total d) (dp_com d) arm_inertia
               (setModelProfile profile (rm_arm m)) in
  let k := rp_rate_k p in
  let c := setGains (v3_emult k (rp_rate_p p)) (v3_emult k (rp_rate_i p)) (v3_emult k (rp_rate_d p))
             (rm_control m) in
  let c := setIntegratorLimit (rp_int_lim p) c in
  let c := setFeedForwardGain (rp_rate_ff p) c in
  let c := setInertiaDiagonal (V3 (m00 static_inertia) (m11 static_inertia) (m22 static_inertia)) c in
  let c := setESOBandwidth (rp_rate_bw p) c in
  let c := setKBeta (ESO_K_BETA p) c in
  let c := setMaxTorque (ESO_MAX_TORQUE p) c in
  let c := setIntegralScale (ESO_RATE_I_SC p) c in
  let c := setTauSScale (ESO_TAUS_K p) c in
  let c := setTauSAxisScale (rp_taus_k p) c in
  let c := setTauSObserverAxisScale (rp_taus_obs p) c in
  let c := setTauSControlAxisScale (rp_taus_ctl p) c in
  let c := setTauSLimitNm (ESO_TAUS_LIM p) c in
  let c := setTauSFilterTimeConstant (ESO_TAUS_TAU p) c in
  m <| rm_params := p |> <| rm_control := c |> <| rm_arm := arm |>
    <| rm_static_inertia := static_inertia |>
    <| rm_acro_max := v3_map math_radians (rp_acro_max p) |>
    <| rm_breaker := CBRK_RATE_CTRL p =? 140253 |>.

Definition rate_update_dynamic (i : rate_in) (m : rate_module) : rate_module :=
  match ri_joints i with
  | None => m
  | Some js =>
      if negb (js_valid js)
      then m <| rm_control := setInertiaMatrix (rm_static_inertia m) (rm_control m) |>
      else
        let '(arm, inertia) := computeSystemInertia (js_q js) (rm_arm m) in
        m <| rm_arm := arm |> <| rm_control := setInertiaMatrix inertia (rm_control m) |>
  end.

(** ** One run *)

Definition rate_time_step (now last : Z) : f32 :=
  math_constrain (fmul (f32_of_Z (u64 (now - last))) (flit 1 1000000)) (flit 125 1000000) (flit 2 100).

(** Mode, landed state and vehicle status. *)
Definition rate_take_topics (i : rate_in) (m : rate_module) : rate_module :=
  let land := default (rm_landed m, rm_maybe_landed m) (ri_land i) in
  let status := default (rm_rotary_wing m, rm_is_vtol m) (ri_status i) in
  m <| rm_mode := default (rm_mode m) (ri_mode i) |>
    <| rm_landed := fst land |> <| rm_maybe_landed := snd land |>
    <| rm_rotary_wing := fst status |> <| rm_is_vtol := snd status |>.

(** The gear is not retracted on the ground. *)
Definition take_gear (i : rate_in) (m : rate_module) : rate_module :=
  match ri_gear i with
  | Some g =>
      if (g =? GEAR_KEEP) || (g =? GEAR_UP) && (rm_landed m || rm_maybe_landed m) then m
      else m <| rm_landing_gear := g |>
  | None => m
  end.

(** The rate setpoint: from the sticks in acro mode, which is also published, otherwise from
    the topic, where a rate that is not finite is replaced by the measured one. *)
Definition acro_setpoint (s : manual_setpoint) (m : rate_module) : vec3 f32 :=
  let p := rm_params m in
  v3_emult (V3 (superexpo (man_y s) (ESO_ACRO_EXPO p) (ESO_ACRO_SUPEXPO p))
               (superexpo (fneg (man_x s)) (ESO_ACRO_EXPO p) (ESO_ACRO_SUPEXPO p))
               (superexpo (man_r s) (ESO_ACRO_EXPO_Y p) (ESO_ACRO_SUPEX_Y p)))
           (rm_acro_max m).

Definition take_rates (i : rate_in) (rates : vec3 f32) (m : rate_module)
  : rate_module * option rates_setpoint :=
  if rm_manual_enabled (rm_mode m) && negb (rm_attitude_enabled (rm_mode m)) then
    match ri_manual i with
    | Some s =>
        let sp := acro_setpoint s m in
        let thrust := math_constrain (man_z s) f0 f1 in
        (m <| rm_rates_sp := sp |> <| rm_thrust_sp := thrust |>,
         Some (mkRatesSetpoint (ri_time i) sp (V3 f0 f0 (fneg thrust))))
    | None => (m, None)
    end
  else
    match ri_rates_sp i with
    | Some sp =>
        (m <| rm_rates_sp := v3_map2 (fun x r => if PX4_ISFINITE x then x else r) (rs_rates sp) rates |>
           <| rm_thrust_sp := fneg (v_z (rs_thrust_body sp)) |>, None)
    | None => (m, None)
    end.

Definition ESO_AUX_TIMEOUT : Z := 100000.

(** The attitude controller's auxiliary terms, while they are recent. *)
Definition take_aux (now : Z) (aux : option rate_aux) (m : rate_module) : rate_module :=
  let m :=
    match aux with
    | Some a =>
        let m := m <| rm_last_aux := aux_timestamp a |> in
        if u64 (now - rm_last_aux m) <=? ESO_AUX_TIMEOUT
        then m <| rm_control := setAttitudeAux (aux_omega_r_dot a) (aux_beta_v a) (aux_tau_s a)
                                  (rm_control m) |>
        else m
    | None => m
    end in
  if (rm_last_aux m =? 0) || (ESO_AUX_TIMEOUT <? u64 (now - rm_last_aux m))
  then m <| rm_control := setAttitudeAux v3_zero v3_zero v3_zero (rm_control m) |> else m.

(** The allocator's unallocated torque as saturation flags. *)
Definition saturation (s : allocator_status) : vec3 bool * vec3 bool :=
  if torque_setpoint_achieved s then (V3 false false false, V3 false false false)
  else
    let u := unallocated_torque s in
    (v3_map (fun x => fgt x FLT_EPSILON) u,
     v3_map (fun x => negb (fgt x FLT_EPSILON) && flt x (fneg FLT_EPSILON)) u).

Definition take_allocator (i : rate_in) (m : rate_module) : rate_module :=
  match ri_alloc i with
  | Some s => let '(pos, neg) := saturation s in
              m <| rm_control := setSaturationStatus pos neg (rm_control m) |>
  | None => m
  end.

(** Disarmed, or not a multicopter: no integral and no observer state. *)
Definition reset_if_disarmed (m : rate_module) : rate_module :=
  if negb (rm_flag_armed (rm_mode m)) || negb (rm_rotary_wing m)
  then m <| rm_control := resetESO (resetIntegral (rm_control m)) |> else m.

Definition or_zero (x : f32) : f32 := if PX4_ISFINITE x then x else f0.

(** The battery's scale, taken when it is connected and positive. *)
Definition take_battery (i : rate_in) (m : rate_module) : rate_module :=
  match ri_battery i with
  | Some (connected, scale) =>
      if connected && fgt scale f0 then m <| rm_battery_scale := scale |> else m
  | None => m
  end.

Definition scale_controls (a : actuator_controls) (k : f32) : actuator_controls :=
  mkActuators (v3_scale (ctl_torque a) k) (fmul (ctl_throttle a) k) (ctl_landing_gear a)
    (ctl_timestamp_sample a).

(** The control energy, published as a power every half second. *)
Definition updateActuatorControlsStatus (a : actuator_controls) (dt : f32) (m : rate_module)
  : rate_module * option (vec3 f32 * f32) :=
  let add e u := fadd e (fmul (fmul u u) dt) in
  let energy := (v3_map2 add (fst (rm_energy m)) (ctl_torque a),
                 add (snd (rm_energy m)) (ctl_throttle a)) in
  let time := fadd (rm_energy_time m) dt in
  if fgt time (flit 5 10) then
    (m <| rm_energy := (v3_zero, f0) |> <| rm_energy_time := f0 |>,
     Some (v3_map (fun e => fdiv e time) (fst energy), fdiv (snd energy) time))
  else (m <| rm_energy := energy |> <| rm_energy_time := time |>, None).

(** Scaling by the battery, if enabled. *)
Definition battery_stage (i : rate_in) (a : actuator_controls) (m : rate_module)
  : rate_module * actuator_controls :=
  if ESO_BAT_SCALE_EN (rm_params m) then
    let m := take_battery i m in
    (m, if fgt (rm_battery_scale m) f0 then scale_controls a (rm_battery_scale m) else a)
  else (m, a).

(** What the module publishes of a torque, before the battery's scale. *)
Definition actuators_of (att_control : vec3 f32) (now : Z) (m : rate_module) : actuator_controls :=
  mkActuators (v3_map or_zero att_control) (or_zero (rm_thrust_sp m)) (rm_landing_gear m) now.

Definition publishTorqueSetpoint (torque_sp : vec3 f32) : vec3 f32 := v3_map or_zero torque_sp.

Definition publishThrustSetpoint (m : rate_module) : vec3 f32 :=
  V3 f0 f0 (if PX4_ISFINITE (rm_thrust_sp m) then fneg (rm_thrust_sp m) else f0).

(** The publications of a control torque. *)
Definition publish_controls (i : rate_in) (now : Z) (dt : f32) (att_control : vec3 f32)
    (m : rate_module) : rate_module * rate_out :=
  let status := getESORateControlStatus (rm_control m) in
  let unless_vtol (x : vec3 f32) := if rm_is_vtol m then None else Some x in
  let torque := unless_vtol (publishTorqueSetpoint att_control) in
  let thrust := unless_vtol (publishThrustSetpoint m) in
  let '(m, actuators) := battery_stage i (actuators_of att_control now m) m in
  let '(m, power) := updateActuatorControlsStatus actuators dt m in
  (m, mkRateOut None (Some actuators) torque thrust (Some status) power).

(** The rate controller and the publications. *)
Definition run_rate_control (i : rate_in) (now : Z) (rates : vec3 f32) (dt : f32) (m : rate_module)
  : rate_module * rate_out :=
  let m := take_allocator i (reset_if_disarmed m) in
  let '(c, att_control) :=
    rate_update rates (rm_rates_sp m) (ri_accel i) dt (rm_maybe_landed m || rm_landed m)
      (rm_control m) in
  publish_controls i now dt att_control (m <| rm_control := c |>).

(** The messages taken before the controller; the sticks' rate setpoint is published. *)
Definition gyro_prepare (i : rate_in) (now : Z) (rates : vec3 f32) (m : rate_module)
  : rate_module * option rates_setpoint :=
  let m := rate_update_dynamic i m in
  let m := m <| rm_last_run := now |> in
  let m := rate_take_topics i m in
  let m := take_gear i m in
  let '(m, published) := take_rates i rates m in
  (take_aux now (ri_aux i) m, published).

(** The controller, termination, or nothing. *)
Definition gyro_control (i : rate_in) (now : Z) (rates : vec3 f32) (dt : f32)
    (published : option rates_setpoint) (m : rate_module) : rate_module * rate_out :=
  let k := rm_mode m in
  if flag_control_rates_enabled k && negb (rm_breaker m) then
    let '(m, out) := run_rate_control i now rates dt m in
    (m, mkRateOut published (ro_actuators out) (ro_torque out) (ro_thrust out) (ro_status out) (ro_power out))
  else if flag_control_termination_enabled k && negb (rm_is_vtol m) then
    (m, mkRateOut published (Some (mkActuators v3_zero f0 0 0)) None None None None)
  else (m, mkRateOut published None None None None None).

Definition run_gyro (i : rate_in) (now : Z) (rates : vec3 f32) (m : rate_module)
  : rate_module * rate_out :=
  let dt := rate_time_step now (rm_last_run m) in
  let '(m, published) := gyro_prepare i now rates m in
  gyro_control i now rates dt published m.

Definition rate_Run (i : rate_in) (m : rate_module) : rate_module * rate_out :=
  let m := match ri_params i with Some p => rate_parameters_updated p m | None => m end in
  match ri_gyro i with
  | Some (now, rates) => run_gyro i now rates m
  | None => (m, rate_out_none)
  end.

Definition rate_module_new (p : rate_module_params) : rate_module :=
  rate_parameters_updated p
    (mkRateModule p ESORateControl_new ArmKinematics_new (m3_diag (V3 (flit 45 1000) (flit 45 1000) (flit 8 100)))
       (mkRateMode false false false false false) true false false true true f0 0 v3_zero f0 0
       GEAR_DOWN f0 (v3_zero, f0) v3_zero).

End WithLibm.
