(* ===== verification/PosParams.v ===== *)
(** * Configuration of the position control module

    ESOMulticopterPositionControl::parameters_update and update_dynamic_parameters of
    src/src/modules/eso_pos_control/ESOMulticopterPositionControl.cpp: the derived parameters
    (responsiveness and the two "all" speeds), the constraints between parameters, what is
    passed on to the controller and the takeoff machine, and the centre of mass that follows
    the arm's joints.  [node] is the module with this part of its state; [node_Run] is the
    whole work item.  A parameter is its value; the storage behind it and the log messages
    are outside the model. *)
From Stdlib Require Import Floats.SpecFloat.
From coqutil Require Import Datatypes.RecordSettersUsingExistingGetters.
From S2P Require Import Prelude Float32 Linalg Eso Takeoff ControlMath PosControl PosModule ArmKinematics AttModule.
Local Open Scope Z_scope.

(** ** Parameters *)

Record all_params := mkAllParams {
  ap_pos_p : vec3 f32; ap_pos_i : vec3 f32; ap_vel_p_acc : vec3 f32; ap_bw : vec3 f32;
  ap_pos_esogate : bool; ap_dyn_ff_en : bool; ap_pos_int_lim : f32;
  ap_xy_vel_max : f32; ap_z_v_auto_up : f32; ap_z_vel_max_up : f32;
  ap_z_v_auto_dn : f32; ap_z_vel_max_dn : f32; ap_tiltmax_air : f32;
  ap_thr_hover : f32; ap_use_hte : bool;
  ap_spoolup_time : f32; ap_tko_ramp_t : f32; ap_tko_speed : f32; ap_land_speed : f32;
  ap_vel_manual : f32; ap_xy_cruise : f32; ap_tiltmax_lnd : f32;
  ap_thr_min : f32; ap_thr_max : f32; ap_thr_xy_marg : f32;
  ap_vehicle_resp : f32; ap_acc_hor : f32; ap_acc_down_max : f32; ap_acc_up_max : f32;
  ap_acc_hor_max : f32; ap_jerk_auto : f32; ap_jerk_max : f32; ap_man_y_max : f32; ap_man_y_tau : f32;
  ap_xy_vel_all : f32; ap_z_vel_all : f32; ap_arm_model : Z; ap_veld_lp : f32
}.

Definition lerp (a b s : f32) : f32 := fadd (fmul (fsub f1 s) a) (fmul s b).

(** [commit_no_notification(val)]: the value is replaced when it differs by more than the
    epsilon. *)
Definition commit_to (val old : f32) : f32 :=
  if fgt (fabs (fsub val old)) FLT_EPSILON then val else old.

Definition MAX_SAFE_TILT_DEG : f32 := f32_of_Z 89.

(** Responsiveness sets accelerations, jerks, yaw rate and tilt. *)
Definition apply_responsiveness (p : all_params) : all_params :=
  if fge (ap_vehicle_resp p) f0 then
    let r := fmul (ap_vehicle_resp p) (ap_vehicle_resp p) in
    let l a b := lerp (f32_of_Z a) (f32_of_Z b) r in
    let six := flit 6 10 in
    let tau := if fgt r six then f0 else lerp (flit 5 10) f0 (fdiv r six) in
    let tilt :=
      if flt r (flit 5 10) then f32_of_Z 45
      else math_min MAX_SAFE_TILT_DEG
             (lerp (f32_of_Z 45) (f32_of_Z 70) (fmul (fsub r (flit 5 10)) (f32_of_Z 2))) in
    p <| ap_acc_hor := commit_to (l 1 15) (ap_acc_hor p) |>
      <| ap_acc_hor_max := commit_to (l 2 15) (ap_acc_hor_max p) |>
      <| ap_man_y_max := commit_to (l 80 450) (ap_man_y_max p) |>
      <| ap_man_y_tau := commit_to tau (ap_man_y_tau p) |>
      <| ap_tiltmax_air := commit_to tilt (ap_tiltmax_air p) |>
      <| ap_acc_down_max := commit_to (lerp (flit 8 10) (f32_of_Z 15) r) (ap_acc_down_max p) |>
      <| ap_acc_up_max := commit_to (l 1 15) (ap_acc_up_max p) |>
      <| ap_jerk_max := commit_to (l 2 50) (ap_jerk_max p) |>
      <| ap_jerk_auto := commit_to (l 1 25) (ap_jerk_auto p) |>
  else p.

Definition apply_xy_vel_all (p : all_params) : all_params :=
  let v := ap_xy_vel_all p in
  if fge v f0 then
    p <| ap_vel_manual := commit_to v (ap_vel_manual p) |>
      <| ap_xy_cruise := commit_to v (ap_xy_cruise p) |>
      <| ap_xy_vel_max := commit_to v (ap_xy_vel_max p) |>
  else p.

Definition apply_z_vel_all (p : all_params) : all_params :=
  let v := ap_z_vel_all p in
  if fge v f0 then
    p <| ap_z_v_auto_up := commit_to v (ap_z_v_auto_up p) |>
      <| ap_z_vel_max_up := commit_to v (ap_z_vel_max_up p) |>
      <| ap_z_v_auto_dn := commit_to (fmul v (flit 75 100)) (ap_z_v_auto_dn p) |>
      <| ap_z_vel_max_dn := commit_to (fmul v (flit 75 100)) (ap_z_vel_max_dn p) |>
      <| ap_tko_speed := commit_to (fmul v (flit 6 10)) (ap_tko_speed p) |>
      <| ap_land_speed := commit_to (fmul v (flit 5 10)) (ap_land_speed p) |>
  else p.

(** A parameter above its limit is set to the limit. *)
Definition cap (limit x : f32) : f32 := if fgt x limit then limit else x.

Definition constrain_tilt (p : all_params) : all_params :=
  let p := p <| ap_tiltmax_air := cap MAX_SAFE_TILT_DEG (ap_tiltmax_air p) |> in
  p <| ap_tiltmax_lnd := cap (ap_tiltmax_air p) (ap_tiltmax_lnd p) |>.

Definition constrain_speeds (p : all_params) : all_params :=
  p <| ap_xy_cruise := cap (ap_xy_vel_max p) (ap_xy_cruise p) |>
    <| ap_vel_manual := cap (ap_xy_vel_max p) (ap_vel_manual p) |>
    <| ap_z_v_auto_up := cap (ap_z_vel_max_up p) (ap_z_v_auto_up p) |>
    <| ap_z_v_auto_dn := cap (ap_z_vel_max_dn p) (ap_z_v_auto_dn p) |>.

Definition constrain_hover (p : all_params) : all_params :=
  let h := ap_thr_hover p in
  if fgt h (ap_thr_max p) || flt h (ap_thr_min p)
  then p <| ap_thr_hover := math_constrain h (ap_thr_min p) (ap_thr_max p) |> else p.

(** Takeoff and land speed are limited in the module only, not in the storage. *)
Definition constrain_takeoff (p : all_params) : all_params :=
  p <| ap_tko_speed := math_min (ap_tko_speed p) (ap_z_vel_max_up p) |>
    <| ap_land_speed := math_min (ap_land_speed p) (ap_z_vel_max_dn p) |>.

(** The parameters in effect after an update. *)
Definition effective_params (p : all_params) : all_params :=
  constrain_takeoff (constrain_hover (constrain_speeds (constrain_tilt
    (apply_z_vel_all (apply_xy_vel_all (apply_responsiveness p)))))).

(** What the control cycle reads of them. *)
Definition cycle_params (p : all_params) : pos_params :=
  mkPosParams (ap_xy_vel_max p) (ap_z_vel_max_up p) (ap_z_vel_max_dn p) (ap_tiltmax_air p)
    (ap_tiltmax_lnd p) (ap_thr_hover p) (ap_thr_min p) (ap_thr_max p) (ap_land_speed p)
    (ap_use_hte p) (ap_pos_esogate p) (ap_veld_lp p).

(** ** The module with its configuration *)

Record node := mkNode {
  n_module : pos_module;
  n_params : all_params;
  n_arm : ArmKinematics f32;
  n_fallback_com : vec3 f32;
  n_use_dynamic_arm_model : bool;
  n_last_dynamic_com : Z;
  n_dynamic_com_valid : bool;
  n_hover_thrust_initialized : bool
}.

Definition on_control (f : ESOPositionControl -> ESOPositionControl) (n : node) : node :=
  n <| n_module := (n_module n) <| pm_control := f (pm_control (n_module n)) |> |>.

Definition set_com (com : vec3 f32) : node -> node := on_control (setSystemCoM com).

Definition com_v4_fallback : vec3 f32 := V3 (flit (-15) 1000) f0 (flit (-164) 1000).

(** The model profile: the arm, the fallback centre of mass and whether to follow the arm. *)
Definition select_profile (p : all_params) (n : node) : node :=
  let profile := resolveModelProfile (ap_arm_model p) in
  let d := getDynamicsProfile profile in
  let '(com, dynamic) :=
    match profile with
    | UamV5 => (dp_com d, use_dynamic_arm_model d)
    | UavArmV4 => (com_v4_fallback, true)
    end in
  set_com com
    (n <| n_fallback_com := com |> <| n_use_dynamic_arm_model := dynamic |>
       <| n_arm := setParameters (dp_mass_total d) (dp_com d) (bodyInertiaMatrix d)
                     (setModelProfile profile (n_arm n)) |>).

(** The gains, limits and times passed on. *)
Definition configure_control (p : all_params) (n : node) : node :=
  on_control (fun c =>
    setPosESOBandwidth (ap_bw p)
      (setDynamicsFeedforwardEnabled (ap_dyn_ff_en p)
         (setPositionIntegralLimit (ap_pos_int_lim p)
            (setHorizontalThrustMargin (ap_thr_xy_marg p)
               (setVelocityGains (ap_vel_p_acc p) pv0 pv0
                  (setPositionGains (ap_pos_p p) (ap_pos_i p) c)))))) n.

Definition configure_hover (p : all_params) (n : node) : node :=
  if negb (ap_use_hte p) || negb (n_hover_thrust_initialized n)
  then (on_control (setHoverThrust (ap_thr_hover p)) n) <| n_hover_thrust_initialized := true |>
  else n.

(** The spoolup time is converted to an integer: undefined when it does not fit. *)
Definition configure_takeoff (p : all_params) (n : node) : option node :=
  t ← setSpoolupTime (ap_spoolup_time p) (pm_takeoff (n_module n));
  let t := generateInitialRampValue (v_z (ap_vel_p_acc p)) (setTakeoffRampTime (ap_tko_ramp_t p) t) in
  Some (n <| n_module := (n_module n) <| pm_takeoff := t |> |>).

Definition apply_parameters (stored : all_params) (n : node) : option node :=
  let p := effective_params stored in
  configure_takeoff p (configure_hover p (configure_control p
    ((select_profile p n) <| n_params := p |>))).

Definition DYNAMIC_COM_TIMEOUT : Z := 500000.

Definition com_finite (v : vec3 f32) : bool :=
  PX4_ISFINITE (v_x v) && PX4_ISFINITE (v_y v) && PX4_ISFINITE (v_z v).

Section WithLibm.
Context `{Libm}.

(** The centre of mass of the arm's posture while the joint angles are valid, finite and
    recent, otherwise the profile's. *)
Definition follow_joints (joints : option joint_states) (now : Z) (n : node) : node :=
  if negb (n_use_dynamic_arm_model n) then set_com (n_fallback_com n) n
  else
    let keep_or_fall_back (n : node) : node :=
      if n_dynamic_com_valid n && (u64 (now - n_last_dynamic_com n) <=? DYNAMIC_COM_TIMEOUT) then n
      else set_com (n_fallback_com n) n in
    match joints with
    | None => keep_or_fall_back n
    | Some js =>
        if negb (js_valid js) then set_com (n_fallback_com n) (n <| n_dynamic_com_valid := false |>)
        else
          let '(arm, com) := computeSystemCoM (js_q js) (n_arm n) in
          let n := n <| n_arm := arm |> in
          if com_finite com
          then set_com com n <| n_last_dynamic_com := now |> <| n_dynamic_com_valid := true |>
          else keep_or_fall_back n
    end.

(** What a run of the work item finds; [ni_time] is hrt_absolute_time(). *)
Record node_in := mkNodeIn {
  ni_params : option all_params;
  ni_joints : option joint_states;
  ni_cycle : option cycle_in;
  ni_time : Z
}.

Definition parameters_update (i : node_in) (n : node) : option node :=
  n ← (match ni_params i with Some p => apply_parameters p n | None => Some n end);
  Some (follow_joints (ni_joints i) (ni_time i) n).

Definition node_Run (i : node_in) (n : node) : option (node * option cycle_out) :=
  n ← parameters_update i n;
  match ni_cycle i with
  | Some ci =>
      let '(m, out) := Run (cycle_params (n_params n)) ci (n_module n) in
      Some (n <| n_module := m |>, Some out)
  | None => Some (n, None)
  end.

(** The constructor: the parameters are applied at once. *)
Definition node_new (p : all_params) (joints : option joint_states) (now : Z) : option node :=
  parameters_update (mkNodeIn (Some p) joints None now)
    (mkNode pos_module_new p ArmKinematics_new com_v4_fallback true 0 false false).

End WithLibm.
