(* ===== verification/PosParamsSpec.v ===== *)
(** * Configuration of the position control module: properties

    The invariant of the configuration through every sequence of runs of the work item: the
    parameters in effect satisfy the constraints between them, and the centre of mass the
    controller is given is finite and either the profile's or recent. *)
From Stdlib Require Import Floats.SpecFloat.
From coqutil Require Import Datatypes.RecordSettersUsingExistingGetters.
From S2P Require Import Prelude Float32 Linalg Eso Takeoff ControlMath PosControl PosControlSpec PosModule PosModuleSpec ArmKinematics AttModule PosParams.
Local Open Scope Z_scope.

(** ** Constraints between the parameters *)

Lemma flt_irrefl x : flt x x = false.
Proof.
  destruct (is_nan x) eqn:Hx; [by destruct x|]. by rewrite flt_not_fle, fle_refl.
Qed.

Lemma cap_holds limit x : fgt (cap limit x) limit = false.
Proof. unfold cap. destruct (fgt x limit) eqn:E; [|done]. apply flt_irrefl. Qed.

Lemma min_holds x limit : fgt (math_min x limit) limit = false.
Proof.
  unfold math_min, fgt. destruct (flt x limit) eqn:E; [|apply flt_irrefl].
  pose proof (flt_fle _ _ E) as E2. destruct (fle_num _ _ E2) as [Hx Hl].
  by rewrite flt_not_fle, E2.
Qed.

(** No parameter exceeds the limit it is subject to (a comparison with a NaN is false), and
    the hover thrust lies within the thrust range when that range is not empty. *)
Record params_ok (p : all_params) : Prop := mkParamsOk {
  ok_tilt : fgt (ap_tiltmax_air p) MAX_SAFE_TILT_DEG = false;
  ok_tilt_lnd : fgt (ap_tiltmax_lnd p) (ap_tiltmax_air p) = false;
  ok_cruise : fgt (ap_xy_cruise p) (ap_xy_vel_max p) = false;
  ok_manual : fgt (ap_vel_manual p) (ap_xy_vel_max p) = false;
  ok_up : fgt (ap_z_v_auto_up p) (ap_z_vel_max_up p) = false;
  ok_dn : fgt (ap_z_v_auto_dn p) (ap_z_vel_max_dn p) = false;
  ok_tko : fgt (ap_tko_speed p) (ap_z_vel_max_up p) = false;
  ok_land : fgt (ap_land_speed p) (ap_z_vel_max_dn p) = false;
  ok_hover : fle (ap_thr_min p) (ap_thr_max p) = true ->
             fgt (ap_thr_hover p) (ap_thr_max p) = false /\ flt (ap_thr_hover p) (ap_thr_min p) = false
}.

Lemma hover_holds p :
  let p' := constrain_hover p in
  fle (ap_thr_min p') (ap_thr_max p') = true ->
  fgt (ap_thr_hover p') (ap_thr_max p') = false /\ flt (ap_thr_hover p') (ap_thr_min p') = false.
Proof.
  cbv zeta. unfold constrain_hover. destruct (fgt _ _ || flt _ _) eqn:E.
  - intros Hr. change (fle (ap_thr_min p) (ap_thr_max p) = true) in Hr.
    assert (Hn : is_nan (ap_thr_hover p) = false).
    { destruct (ap_thr_hover p); try done. unfold fgt in E. by rewrite flt_nan_l, flt_nan_r in E. }
    set (h := math_constrain (ap_thr_hover p) (ap_thr_min p) (ap_thr_max p)).
    change (flt (ap_thr_max p) h = false /\ flt h (ap_thr_min p) = false).
    destruct (constrain_in_range _ _ _ Hn Hr) as [H1 H2]. fold h in H1, H2.
    destruct (fle_num _ _ H1), (fle_num _ _ H2). rewrite !flt_not_fle by done. by rewrite H1, H2.
  - by apply orb_false_iff in E.
Qed.

(** Each group of constraints, on the parameters it is applied to; later groups touch other
    parameters. *)
Lemma effective_ok p : params_ok (effective_params p).
Proof.
  unfold effective_params. generalize (apply_z_vel_all (apply_xy_vel_all (apply_responsiveness p))).
  clear p. intros p. set (q := constrain_speeds (constrain_tilt p)).
  assert (Hq : forall r, fgt (ap_tiltmax_air r) MAX_SAFE_TILT_DEG = false /\
      fgt (ap_tiltmax_lnd r) (ap_tiltmax_air r) = false /\
      fgt (ap_xy_cruise r) (ap_xy_vel_max r) = false /\ fgt (ap_vel_manual r) (ap_xy_vel_max r) = false /\
      fgt (ap_z_v_auto_up r) (ap_z_vel_max_up r) = false /\
      fgt (ap_z_v_auto_dn r) (ap_z_vel_max_dn r) = false ->
      params_ok (constrain_takeoff (constrain_hover r))).
  { intros r (H1 & H2 & H3 & H4 & H5 & H6). pose proof (hover_holds r) as Hh. cbv zeta in Hh.
    revert Hh. unfold constrain_hover. destruct (fgt _ _ || flt _ _); intros Hh;
      constructor; cbn; try done; apply min_holds. }
  apply Hq. unfold q, constrain_speeds, constrain_tilt. cbn. repeat split; apply cap_holds.
Qed.

(** ** The centre of mass *)

Lemma com_finite_iff v : com_finite v = true <-> finite3 v.
Proof.
  unfold com_finite. split.
  - intros E. apply andb_true_iff in E as [E Ez]. apply andb_true_iff in E as [Ex Ey]. by intros [].
  - intros Hv. by rewrite (Hv ax_x : PX4_ISFINITE (v_x v) = true), (Hv ax_y : PX4_ISFINITE (v_y v) = true),
      (Hv ax_z : PX4_ISFINITE (v_z v) = true).
Qed.

Definition com_of (n : node) : vec3 f32 := pc_sys_com_pos (pm_control (n_module n)).

(** A control cycle does not touch the centre of mass. *)
Section Frame.
Context `{Libm}.

Definition module_com (m : pos_module) : vec3 f32 := pc_sys_com_pos (pm_control m).

Lemma run_eso_com dt c : pc_sys_com_pos (run_eso dt c) = pc_sys_com_pos c.
Proof. unfold run_eso. destruct (_ && _), (pc_eso_update_enabled _); done. Qed.

Lemma later_stages_com dt c :
  pc_sys_com_pos (yaw_defaults (velocityControl (positionControl dt c))) = pc_sys_com_pos c.
Proof. done. Qed.

Lemma note_com c : pc_sys_com_pos (note_eso_enabled c) = pc_sys_com_pos c.
Proof. done. Qed.

Lemma update_com dt c : pc_sys_com_pos (fst (pos_update dt c)) = pc_sys_com_pos c.
Proof.
  unfold pos_update. cbv zeta. cbn [fst]. rewrite note_com. destruct (inputValid c); [|done].
  by rewrite later_stages_com, run_eso_com.
Qed.

Lemma take_messages_com k i m : module_com (take_messages k i m) = module_com m.
Proof.
  unfold take_messages. cbv zeta.
  destruct (ci_attitude i), (ci_angular_velocity i), (ESO_USE_HTE k), (ci_hover_thrust i) as [[h []]|];
    try done; unfold module_com, updateHoverThrust; cbn [pm_control]; by case_match.
Qed.

Lemma drive_takeoff_com k u now m : module_com (drive_takeoff k u now m) = module_com m.
Proof.
  unfold drive_takeoff. cbv zeta. destruct u; [|done].
  destruct (flying _), (state_lt _ rampup); cbn [orb andb]; try done; by case_match.
Qed.

Lemma set_limits_com k dt m : module_com (set_limits k dt m) = module_com m.
Proof. unfold set_limits. cbv zeta. by destruct (updateRamp _ _ _). Qed.

Lemma run_controller_com k dt now s m : module_com (run_controller k dt now s m) = module_com m.
Proof.
  unfold run_controller, failsafe. pose proof (update_com dt (pm_control m)) as HU.
  destruct (pos_update dt (pm_control m)) as [c []]; [exact HU|]. cbv zeta.
  destruct (hy_state _); unfold module_com;
    (etransitivity; [exact (update_com dt _)|]); exact HU.
Qed.

Lemma run_position_com k i dt s m : module_com (run_position k i dt s m) = module_com m.
Proof.
  unfold run_position. cbv zeta. rewrite run_controller_com.
  match goal with |- module_com (?x <| pm_control := setState ?s2 (setInputSetpoint ?sp _) |>) = _ =>
    change (module_com x = module_com m) end.
  rewrite set_limits_com, drive_takeoff_com. done.
Qed.

Lemma counters_com m (k : reset_counters) : module_com (m <| pm_counters := k |>) = module_com m.
Proof. done. Qed.
Lemma deriv_com m ds : module_com (m <| pm_vel_deriv := ds |>) = module_com m.
Proof. done. Qed.
Lemma takeoff_com m tk : module_com (m <| pm_takeoff := tk |>) = module_com m.
Proof. done. Qed.
Lemma time_com m t : module_com (m <| pm_time_last_loop := t |> <| pm_in_failsafe := false |>) = module_com m.
Proof. done. Qed.

Lemma Run_com k i m : module_com (fst (Run k i m)) = module_com m.
Proof.
  unfold Run. cbv zeta. destruct (set_vehicle_states _ _ _ _) as [ds s]. cbn [fst].
  rewrite counters_com.
  destruct (flag_multicopter_position_control_enabled _).
  - by rewrite run_position_com, deriv_com, take_messages_com, time_com.
  - by rewrite takeoff_com, deriv_com, take_messages_com, time_com.
Qed.

End Frame.

(** ** Reachable configurations *)

(** The module after its construction and runs, with what each of them found, the last one
    first. *)
Inductive node_reachable `{Libm} : list node_in -> node -> Prop :=
  | reach_new p js now n :
      node_new p js now = Some n -> node_reachable [mkNodeIn (Some p) js None now] n
  | reach_Run h n i n' out :
      node_reachable h n -> node_Run i n = Some (n', out) -> node_reachable (i :: h) n'.

Abbreviation profile n := (ak_profile (n_arm n)).

Section Followed.
Context `{Libm}.

(** The centre of mass of a posture of the arm. *)
Definition arm_com (p : ModelProfile) (q : joints f32) : vec3 f32 :=
  match p with UamV5 => fluToFrdVector (lk_com (v5_links q)) | UavArmV4 => lk_com (v4_links q) end.

Lemma computeSystemCoM_com q (a : ArmKinematics f32) :
  ak_profile (fst (computeSystemCoM q a)) = ak_profile a /\ snd (computeSystemCoM q a) = arm_com (ak_profile a) q.
Proof. unfold computeSystemCoM, arm_com. by destruct (ak_profile a) eqn:E; cbn. Qed.

(** A message with the joint angles of a posture with a finite centre of mass, and a run
    that finds neither parameters nor such a message, nor one that says the angles are invalid. *)
Definition usable (p : ModelProfile) (js : joint_states) : Prop :=
  js_valid js = true /\ finite3 (arm_com p (js_q js)).
Definition quiet (p : ModelProfile) (i : node_in) : Prop :=
  ni_params i = None /\
  match ni_joints i with None => True | Some js => js_valid js = true /\ ~ finite3 (arm_com p (js_q js)) end.

(** The controller has the centre of mass of the posture found in the run [j], the last one
    that counts among [h]. *)
Definition follows (h : list node_in) (n : node) (j : node_in) : Prop :=
  exists h1 h2 js, h = h1 ++ j :: h2 /\ Forall (quiet (profile n)) h1 /\ ni_joints j = Some js /\
    usable (profile n) js /\ com_of n = arm_com (profile n) (js_q js) /\ n_use_dynamic_arm_model n = true.

(** The configuration after the runs [i :: h]. *)
Record config_inv (i : node_in) (h : list node_in) (n : node) : Prop := mkConfigInv {
  inv_params : params_ok (n_params n);
  inv_fallback : finite3 (n_fallback_com n);
  inv_com : finite3 (com_of n);
  inv_recent : com_of n = n_fallback_com n \/
    exists j, follows (i :: h) n j /\ u64 (ni_time i - ni_time j) <= DYNAMIC_COM_TIMEOUT;
  inv_follows : forall js, ni_joints i = Some js -> usable (profile n) js -> n_use_dynamic_arm_model n = true ->
    com_of n = arm_com (profile n) (js_q js)
}.

(** What a run leaves for the next. *)
Definition source_inv (h : list node_in) (n : node) : Prop :=
  com_of n = n_fallback_com n \/ exists j, follows h n j /\ n_last_dynamic_com n = ni_time j.

(** What holds before the joints are followed. *)
Definition base_inv (n : node) : Prop :=
  params_ok (n_params n) /\ finite3 (n_fallback_com n) /\ finite3 (com_of n).

End Followed.

Lemma fallback_finite p n :
  let n' := select_profile p n in
  finite3 (n_fallback_com n') /\ com_of n' = n_fallback_com n'.
Proof.
  unfold select_profile. destruct (resolveModelProfile (ap_arm_model p)); cbv zeta; split; try done;
    by intros [].
Qed.

Lemma apply_parameters_base stored n n' :
  apply_parameters stored n = Some n' -> base_inv n' /\ com_of n' = n_fallback_com n'.
Proof.
  unfold apply_parameters, configure_takeoff. cbv zeta. pose proof (effective_ok stored) as Hp.
  revert Hp. generalize (effective_params stored). clear stored. intros p Hp.
  destruct (fallback_finite p n) as [Hf Hc]. revert Hf Hc. generalize (select_profile p n). clear n.
  intros n Hf Hc.
  destruct (setSpoolupTime _ _) as [t|]; [|done]. cbn [mbind option_bind]. intros [= <-].
  unfold base_inv, configure_hover, configure_control.
  assert (Hc' : finite3 (com_of n)) by (by rewrite Hc).
  destruct (negb (ap_use_hte p) || _);
    (split; [split; [exact Hp|split; [exact Hf|exact Hc']]|exact Hc]).
Qed.

Section Reachable.
Context `{Libm}.

Lemma set_com_of com n : com_of (set_com com n) = com.
Proof. done. Qed.

(** A run that leaves the centre of mass as it is. *)
Lemma follows_quiet i h n n' j :
  follows h n j -> quiet (profile n) i -> profile n' = profile n -> com_of n' = com_of n ->
  n_use_dynamic_arm_model n' = n_use_dynamic_arm_model n -> follows (i :: h) n' j.
Proof.
  intros (h1 & h2 & js & -> & Hq & Hj & Hu & Hc & Hd) Hi Ep Ec Ed. exists (i :: h1), h2, js. rewrite Ep, Ec, Ed.
  split; [done|]. split; [by apply Forall_cons|]. done.
Qed.

Definition outcome_inv (i : node_in) (h : list node_in) (n : node) : Prop :=
  config_inv i h n /\ source_inv (i :: h) n.

(** The fallback, for a node with no usable message. *)
Lemma fallback_inv i h n :
  base_inv n -> (forall js, ni_joints i = Some js -> usable (profile n) js -> n_use_dynamic_arm_model n = true -> False) ->
  outcome_inv i h (set_com (n_fallback_com n) n).
Proof.
  intros (Hp & Hf & Hc) Hn. split; [|by left]. constructor; [done..|by left|].
  intros js E U D. destruct (Hn js E U D).
Qed.

(** Without a usable message the centre of mass is kept for a while. *)
Lemma keep_inv i h n :
  base_inv n -> (ni_params i = None /\ source_inv h n \/ com_of n = n_fallback_com n) ->
  (forall js, ni_joints i = Some js -> js_valid js = true /\ ~ finite3 (arm_com (profile n) (js_q js))) ->
  outcome_inv i h (if n_dynamic_com_valid n && (u64 (ni_time i - n_last_dynamic_com n) <=? DYNAMIC_COM_TIMEOUT) then n
                   else set_com (n_fallback_com n) n).
Proof.
  intros Hb Hs Hn.
  assert (Hno : forall js, ni_joints i = Some js -> usable (profile n) js -> n_use_dynamic_arm_model n = true -> False).
  { intros js E [_ U] _. destruct (Hn js E) as [_ N]. by destruct N. }
  destruct (n_dynamic_com_valid n && _) eqn:E; [|by apply fallback_inv].
  apply andb_true_iff in E as [_ E]. apply Z.leb_le in E. destruct Hb as (Hp & Hf & Hc).
  assert (Hs' : com_of n = n_fallback_com n \/ exists j, follows (i :: h) n j /\ n_last_dynamic_com n = ni_time j).
  { destruct Hs as [[Hi [Hs|(j & Hj & Ht)]]|Hs]; [by left| |by left]. right. exists j. split; [|done].
    apply (follows_quiet i h n n j Hj); [|done..]. split; [done|]. destruct (ni_joints i); auto. }
  split; [|exact Hs']. constructor; [done..| |].
  - destruct Hs' as [?|(j & Hj & Ht)]; [by left|]. right. exists j. by rewrite <- Ht.
  - intros js Ej U D. destruct (Hno js Ej U D).
Qed.

Lemma com_update_frame n arm : ak_profile arm = profile n ->
  let n' := n <| n_arm := arm |> in
  profile n' = profile n /\ (base_inv n -> base_inv n') /\ (forall h, source_inv h n -> source_inv h n').
Proof.
  intros E. cbv zeta. split; [exact E|]. split; [done|]. intros h [?|(j & (h1 & h2 & js & Hj) & Ht)]; [by left|].
  right. exists j. split; [|done]. exists h1, h2, js. revert Hj. unfold follows.
  change (ak_profile (n_arm (n <| n_arm := arm |>))) with (ak_profile arm). by rewrite E.
Qed.

(** Following the joints keeps the parameters and the fallback, and leaves the centre of mass
    of the last usable posture or the fallback. *)
Lemma follow_joints_inv i h n :
  base_inv n -> (ni_params i = None /\ source_inv h n \/ com_of n = n_fallback_com n) ->
  outcome_inv i h (follow_joints (ni_joints i) (ni_time i) n).
Proof.
  intros Hb Hs. unfold follow_joints. destruct (n_use_dynamic_arm_model n) eqn:Eu; cbn [negb].
  2: { apply fallback_inv; [done|]. congruence. }
  destruct (ni_joints i) as [js|] eqn:Ej.
  2: { apply keep_inv; [done|done|]. congruence. }
  destruct (js_valid js) eqn:Ev; cbn [negb].
  2: { match goal with |- outcome_inv i h (set_com _ ?k) => apply (fallback_inv i h k) end; [exact Hb|].
       intros js' E [V _] _. congruence. }
  destruct (computeSystemCoM_com (js_q js) (n_arm n)) as [Ep Ec].
  destruct (computeSystemCoM (js_q js) (n_arm n)) as [arm com]. cbn [fst snd] in Ep, Ec.
  destruct (com_update_frame n arm Ep) as (Fp & Fb & Fs). set (n' := n <| n_arm := arm |>) in *.
  destruct (com_finite com) eqn:Ef.
  - apply com_finite_iff in Ef. destruct Hb as (Hp & Hf & Hc).
    match goal with |- outcome_inv i h ?k => set (m := k) end.
    assert (Hm : profile m = profile n /\ com_of m = com /\ n_use_dynamic_arm_model m = true)
      by (split; [exact Ep|split; [reflexivity|exact Eu]]).
    assert (follows (i :: h) m i) as Hfol.
    { exists [], h, js. destruct Hm as (-> & -> & ->). rewrite Ec in *. split; [done|]. split; [constructor|]. done. }
    split; [|by right; exists i].
    constructor; [done|done|exact Ef| |].
    + right. exists i. by rewrite Z.sub_diag.
    + intros js' E _ _. destruct Hm as (-> & -> & _). congruence.
  - apply (keep_inv i h n'); [by apply Fb| |].
    + destruct Hs as [[? ?]|?]; [left; auto|by right].
    + intros js' E. assert (js' = js) as -> by congruence. split; [done|]. rewrite Fp, <- Ec.
      intros F%com_finite_iff. congruence.
Qed.

Lemma parameters_update_inv i h n n' :
  (ni_params i = None -> base_inv n /\ source_inv h n) ->
  parameters_update i n = Some n' -> outcome_inv i h n'.
Proof.
  intros Hn. unfold parameters_update. destruct (ni_params i) as [p|] eqn:Ei.
  - destruct (apply_parameters p n) as [k|] eqn:E; [|done]. cbn [mbind option_bind].
    intros [= <-]. destruct (apply_parameters_base _ _ _ E) as [Hb Hc]. apply follow_joints_inv; [done|by right].
  - cbn [mbind option_bind]. intros [= <-]. destruct (Hn eq_refl). apply follow_joints_inv; [done|by left].
Qed.

Lemma config_base i h n : config_inv i h n -> base_inv n.
Proof. by intros []. Qed.

(** A control cycle keeps the configuration. *)
Lemma cycle_keeps i h n m :
  module_com m = module_com (n_module n) -> outcome_inv i h n -> outcome_inv i h (n <| n_module := m |>).
Proof.
  intros E [[H1 H2 H3 H4 H5] H6]. assert (Ec : com_of (n <| n_module := m |>) = com_of n) by exact E.
  assert (Ef : forall h j, follows h n j -> follows h (n <| n_module := m |>) j).
  { intros h' j (h1 & h2 & js & Hj). exists h1, h2, js. by rewrite Ec. }
  split.
  - constructor; [exact H1|exact H2|by rewrite Ec| |].
    + rewrite Ec. destruct H4 as [?|(j & Hj & ?)]; [by left|right; exists j; auto].
    + by rewrite Ec.
  - unfold source_inv. rewrite Ec. destruct H6 as [?|(j & Hj & ?)]; [by left|right; exists j; auto].
Qed.

Lemma cycle_step (r : pos_module * cycle_out) i h k n' out :
  module_com (fst r) = module_com (n_module k) -> outcome_inv i h k ->
  (let '(m, o) := r in Some (k <| n_module := m |>, Some o)) = Some (n', out) -> outcome_inv i h n'.
Proof. destruct r as [m o]. intros E HC [= <- _]. by apply cycle_keeps. Qed.

Lemma node_Run_updated i n k :
  parameters_update i n = Some k ->
  node_Run i n =
    match ni_cycle i with
    | Some ci =>
        let '(m, o) := Run (cycle_params (n_params k)) ci (n_module k) in
        Some (k <| n_module := m |>, Some o)
    | None => Some (k, None)
    end.
Proof. intros E. unfold node_Run. by rewrite E. Qed.

Lemma cycle_outcome i h k n' out :
  outcome_inv i h k ->
  match ni_cycle i with
  | Some ci =>
      let '(m, o) := Run (cycle_params (n_params k)) ci (n_module k) in
      Some (k <| n_module := m |>, Some o)
  | None => Some (k, None)
  end = Some (n', out) -> outcome_inv i h n'.
Proof.
  intros HC. generalize (ni_cycle i). intros [ci|] Hr.
  - exact (cycle_step (Run (cycle_params (n_params k)) ci (n_module k)) i h k n' out (Run_com _ _ _) HC Hr).
  - injection Hr as Hk _. rewrite <- Hk. exact HC.
Qed.

Lemma node_Run_inv i h n n' out :
  base_inv n -> source_inv h n -> node_Run i n = Some (n', out) -> outcome_inv i h n'.
Proof.
  intros Hn Hs Hr. destruct (parameters_update i n) as [k|] eqn:E.
  - rewrite (node_Run_updated i n k E) in Hr.
    exact (cycle_outcome i h k n' out (parameters_update_inv i h n k (fun _ => conj Hn Hs) E) Hr).
  - unfold node_Run in Hr. rewrite E in Hr. discriminate Hr.
Qed.

Lemma node_new_inv p js now n : node_new p js now = Some n -> outcome_inv (mkNodeIn (Some p) js None now) [] n.
Proof.
  unfold node_new. generalize (mkNode pos_module_new p ArmKinematics_new com_v4_fallback true 0 false false).
  intros n0 E. refine (parameters_update_inv (mkNodeIn (Some p) js None now) [] n0 n _ E). discriminate.
Qed.

Lemma node_reachable_inv h n : node_reachable h n -> match h with i :: h => outcome_inv i h n | [] => False end.
Proof.
  induction 1 as [p js now n E|h n i n' out Hr IH E].
  - exact (node_new_inv p js now n E).
  - destruct h as [|k h]; [done|]. destruct IH as [IH Hs].
    exact (node_Run_inv i (k :: h) n n' out (config_base k h n IH) Hs E).
Qed.

(** C11 (invariant). In every configuration the position module reaches by runs of its work item, whatever
    parameters, joint angles and position messages arrive: the parameters in effect satisfy
    the constraints between them (tilt at most 89 degrees and no larger for landing, cruise,
    manual, ascent, descent, takeoff and land speed within the maximum, hover thrust within
    the thrust range); the centre of mass the controller uses is finite; it is the profile's,
    or the arm is followed and it is that of the posture in the last joint message that
    counts, at most half a second old, since when no parameters and no message with invalid
    angles have come; and a message with a valid posture is used in the run that finds it. *)
Theorem node_config_invariant i h (n : node) :
  node_reachable (i :: h) n -> config_inv i h n.
Proof. intros Hr. apply (node_reachable_inv (i :: h) n Hr). Qed.

End Reachable.

(** A vehicle whose tilt and hover thrust parameters are out of range. *)
Definition demo_all_params : all_params :=
  let one := V3 f1 f1 f1 in
  mkAllParams one one one one true true f1 (f32_of_Z 12) (f32_of_Z 20) (f32_of_Z 3) f1 f1 (f32_of_Z 120)
    (flit 99 100) false f1 (f32_of_Z 3) (f32_of_Z 9) f1 (f32_of_Z 10) (f32_of_Z 5) (f32_of_Z 100)
    (flit 12 100) (flit 9 10) (flit 3 10) (fneg f1) f1 f1 f1 f1 f1 f1 f1 f1 (fneg f1) (fneg f1) 0
    (f32_of_Z 5).

(** Its construction, a run on a joint message and, 0.4 s later, one without: the posture of
    the message is in use. *)
Definition demo_posture : joint_states := mkJointStates (Joints f0 f1 f0 f0) true.
Definition demo_follow : node_in := mkNodeIn None (Some demo_posture) None 2000.
Definition demo_quiet : node_in := mkNodeIn None None None 402000.

Definition demo_runs : list node_in := [demo_quiet; demo_follow; mkNodeIn (Some demo_all_params) None None 1000].

(** The two runs on a given node. *)
Definition demo_two (n : node) : option node :=
  '(n, _) ← @node_Run demo_libm demo_follow n; '(n, _) ← @node_Run demo_libm demo_quiet n; Some n.

Lemma demo_two_reached n n' :
  @node_new demo_libm demo_all_params None 1000 = Some n -> demo_two n = Some n' -> @node_reachable demo_libm demo_runs n'.
Proof.
  intros E. unfold demo_two. destruct (@node_Run demo_libm demo_follow n) as [[n1 o1]|] eqn:E1; [|discriminate].
  cbn [mbind option_bind]. destruct (@node_Run demo_libm demo_quiet n1) as [[n2 o2]|] eqn:E2; [|discriminate].
  cbn [mbind option_bind]. intros [= <-].
  exact (@reach_Run demo_libm _ n1 _ _ _ (@reach_Run demo_libm _ n _ _ _ (@reach_new demo_libm _ _ _ _ E) E1) E2).
Qed.

Lemma demo_reached : exists n, @node_reachable demo_libm demo_runs n /\
  flt (v_z (n_fallback_com n)) (v_z (com_of n)) = true.
Proof.
  assert ((fun n => flt (v_z (n_fallback_com n)) (v_z (com_of n))) <$>
    (@node_new demo_libm demo_all_params None 1000 ≫= demo_two) = Some true) as Hne by (vm_compute; reflexivity).
  destruct (@node_new demo_libm demo_all_params None 1000) as [n|] eqn:E; [|discriminate Hne].
  destruct (demo_two n) as [n2|] eqn:E2; cbn [mbind option_bind] in Hne; rewrite E2 in Hne; [|discriminate Hne].
  injection Hne as Hne. exists n2. split; [by eapply demo_two_reached|exact Hne].
Qed.

Lemma demo_follows_time n j : follows (H := demo_libm) demo_runs n j -> ni_time j = 2000.
Proof.
  intros (h1 & h2 & js & Eh & _ & Ej & _).
  destruct h1 as [|a1 [|a2 [|a3 h1]]]; cbn in Eh; injection Eh as; subst; try discriminate Ej; try reflexivity.
  by destruct h1.
Qed.

Lemma node_config_invariant_witness :
  exists n j, config_inv (H := demo_libm) demo_quiet [demo_follow; mkNodeIn (Some demo_all_params) None None 1000] n /\
    com_of n <> n_fallback_com n /\ follows (H := demo_libm) demo_runs n j /\ ni_time j = 2000.
Proof.
  destruct demo_reached as (n & R & Hne). pose proof (@node_config_invariant demo_libm _ _ _ R) as C.
  assert (com_of n <> n_fallback_com n) as Hd by (intros Eq; by rewrite Eq, flt_irrefl in Hne).
  destruct (inv_recent _ _ _ C) as [Eq|(j & Hj & Ht)]; [done|].
  exists n, j. split; [exact C|]. split; [exact Hd|]. split; [exact Hj|]. exact (demo_follows_time n j Hj).
Defined.
