(* ===== verification/CascadeSpec.v ===== *)
(** * The control cascade

    The attitude and the rate module, and the chain position - attitude - rate that the
    published setpoints form: the derivative passed on has no spike when control starts, the
    actuator controls are always finite numbers in range, auxiliary terms are used only while
    they are recent, and what the failsafe of the position module does to the motors. *)
From Stdlib Require Import Floats.SpecFloat.
From coqutil Require Import Datatypes.RecordSettersUsingExistingGetters.
From S2P Require Import Prelude Float32 Linalg Eso RateControl RateControlSpec ControlMath PosControl PosControlSpec PosModule PosModuleSpec ArmKinematics AttControl AttControlSpec AttModule RateModule.
Local Open Scope Z_scope.

(** ** Stages of the attitude module *)

Section Attitude.
Context `{Libm}.

Definition att_configured (i : att_in) (m : att_module) : att_module :=
  update_dynamic_parameters i
    (match ai_params i with Some p => parameters_updated p m | None => m end).

(** What the stages before the derivative's bookkeeping leave alone. *)
Definition same_history (m m' : att_module) : Prop :=
  am_was_armed m' = am_was_armed m /\ am_was_run_att_ctrl m' = am_was_run_att_ctrl m.

#[local] Instance same_history_refl : Reflexive same_history.
Proof. by split. Qed.
#[local] Instance same_history_trans : Transitive same_history.
Proof. unfold same_history. intros x y z [-> ->] [-> ->]. done. Qed.

Lemma configured_history i m : same_history m (att_configured i m).
Proof.
  unfold att_configured, update_dynamic_parameters.
  transitivity (match ai_params i with Some p => parameters_updated p m | None => m end).
  - destruct (ai_params i); [|done]. unfold parameters_updated.
    by destruct (resolveModelProfile _).
  - generalize (match ai_params i with Some p => parameters_updated p m | None => m end). intros k.
    destruct (ai_joints i) as [js|]; [|done]. destruct (negb (js_valid js)); [done|].
    destruct (computeSystemCoM _ _) as [arm com]. by destruct (computeSystemInertia _ _).
Qed.

Lemma setpoint_history i m : same_history m (take_setpoint i m).
Proof. unfold take_setpoint. repeat case_match; done. Qed.

Lemma heading_history v m : same_history m (follow_heading_reset v m).
Proof. unfold follow_heading_reset. repeat case_match; done. Qed.

Lemma topics_history i m : same_history m (take_topics i m).
Proof. done. Qed.

Lemma history_before_derivative i v m :
  same_history m (take_topics i (follow_heading_reset v
    (take_setpoint i (m <| am_last_run := va_timestamp_sample v |>)))).
Proof.
  etransitivity; [|apply topics_history]. etransitivity; [|apply heading_history].
  etransitivity; [|apply setpoint_history]. done.
Qed.

(** The mode and the vehicle's state decide; the derivative's bookkeeping does not. *)
Lemma manage_derivative_run m :
  am_mode (manage_derivative m) = am_mode m /\
  run_att_ctrl (manage_derivative m) = run_att_ctrl m.
Proof. unfold manage_derivative, run_att_ctrl. by case_match. Qed.

Lemma manage_derivative_reset m :
  run_att_ctrl m = true ->
  am_flag_armed (am_mode m) = false \/ am_was_armed m = false \/ am_was_run_att_ctrl m = false ->
  ac_omega_r_prev_valid (am_control (manage_derivative m)) = false.
Proof.
  intros Hr Hs. unfold manage_derivative. rewrite Hr.
  assert (E : negb (am_flag_armed (am_mode m)) || negb (am_was_armed m) && am_flag_armed (am_mode m)
              || negb (am_was_run_att_ctrl m) && true || am_was_run_att_ctrl m && negb true = true).
  { destruct (am_flag_armed (am_mode m)), (am_was_armed m), (am_was_run_att_ctrl m); try reflexivity; by destruct Hs as [? | [? | ?]]. }
  by rewrite E.
Qed.

(** The sticks change the setpoint of the controller only. *)
Lemma manual_stage_frame i q dt m :
  let m' := fst (manual_stage i q dt m) in
  am_mode m' = am_mode m /\
  ac_omega_r_prev_valid (am_control m') = ac_omega_r_prev_valid (am_control m) /\
  (stabilized (am_mode m) = false ->
   am_control m' = am_control m /\ am_thrust_setpoint_body m' = am_thrust_setpoint_body m).
Proof.
  unfold manual_stage. destruct (stabilized (am_mode m)) eqn:E; [|done].
  unfold generate_attitude_setpoint. destruct (manual_yaw _ _ _ _) as [y r].
  cbv zeta. by destruct (if vs_is_vtol (am_status m) then _ else _).
Qed.

(** The derivative after a reset. *)
Lemma derivative_fresh w dt (c : ESOAttitudeControl f32) :
  ac_omega_r_prev_valid c = false -> ac_omega_r_dot (update_derivative w dt c) = v3_zero.
Proof. intros E. unfold update_derivative. by rewrite E. Qed.

Lemma att_update_fresh q w dt (c : ESOAttitudeControl f32) :
  ac_omega_r_prev_valid c = false -> ac_omega_r_dot (fst (att_update q w dt c)) = v3_zero.
Proof. intros E. apply derivative_fresh. exact E. Qed.

(** A run that publishes ran the controller on the module after the sticks. *)
Lemma run_prepared_out i q dt m rates aux :
  ao_rates (snd (run_prepared i q dt m)) = Some rates ->
  ao_aux (snd (run_prepared i q dt m)) = Some aux ->
  run_att_ctrl m = true /\
  snd (control_stage i q dt (fst (manual_stage i q dt m))) = (rates, aux) /\
  am_mode (fst (run_prepared i q dt m)) = am_mode m.
Proof.
  unfold run_prepared. destruct (run_att_ctrl m); [|done].
  pose proof (manual_stage_frame i q dt m) as [Hm _].
  destruct (manual_stage i q dt m) as [k sp]. cbn [fst] in *.
  unfold control_stage. destruct (att_update _ _ _ _) as [c w]. cbn [fst snd ao_rates ao_aux].
  intros [= <-] [= <-]. done.
Qed.

Lemma run_publishes_both i q dt m :
  (exists a, ao_aux (snd (run_prepared i q dt m)) = Some a) <->
  (exists r, ao_rates (snd (run_prepared i q dt m)) = Some r).
Proof.
  unfold run_prepared. destruct (run_att_ctrl m); [|by split; intros []].
  destruct (manual_stage _ _ _ _) as [k sp]. destruct (control_stage _ _ _ _) as [k' [r a]].
  cbn. split; eauto.
Qed.

Lemma att_Run_attitude i v m : ai_attitude i = Some v ->
  att_Run i m = run_attitude i v (att_configured i m).
Proof. intros E. unfold att_Run. by rewrite E. Qed.

Lemma att_Run_none i m : ai_attitude i = None -> ao_aux (snd (att_Run i m)) = None.
Proof. intros E. unfold att_Run. by rewrite E. Qed.

Lemma prepared_fresh i q dt m aux :
  let out := run_prepared i q dt (manage_derivative m) in
  ao_aux (snd out) = Some aux ->
  am_flag_armed (am_mode (fst out)) = false \/ am_was_armed m = false
    \/ am_was_run_att_ctrl m = false ->
  aux_omega_r_dot aux = v3_zero.
Proof.
  cbv zeta. intros Ha Hs. destruct (proj1 (run_publishes_both _ _ _ _) (ex_intro _ _ Ha)) as [r Hr].
  destruct (run_prepared_out _ _ _ _ _ _ Hr Ha) as (Hrun & Hc & Hm). rewrite Hm in Hs.
  destruct (manage_derivative_run m) as [E1 E2]. rewrite E1 in Hs. rewrite E2 in Hrun.
  pose proof (manage_derivative_reset m Hrun Hs) as Hv.
  destruct (manual_stage_frame i q dt (manage_derivative m)) as (_ & Hf & _).
  rewrite Hv in Hf. revert Hc Hf. generalize (fst (manual_stage i q dt (manage_derivative m))).
  intros k Hc Hf. revert Hc. unfold control_stage.
  pose proof (att_update_fresh q (ai_omega i) dt (am_control k) Hf) as HU.
  destruct (att_update _ _ _ _) as [c w]. cbn [fst snd] in *. by intros [= _ <-].
Qed.

(** The derivative of the rate setpoint that the attitude module hands to the rate controller
    is zero in every run in which the vehicle is disarmed, and in the first run in which it is
    armed or the controller is switched on: no spike is differentiated out of the jump from a
    setpoint of an earlier mode, whatever the messages, parameters and state. *)
Theorem att_no_derivative_spike (i : att_in) (m : att_module) (aux : rate_aux) :
  ao_aux (snd (att_Run i m)) = Some aux ->
  am_flag_armed (am_mode (fst (att_Run i m))) = false \/ am_was_armed m = false
    \/ am_was_run_att_ctrl m = false ->
  aux_omega_r_dot aux = v3_zero.
Proof.
  intros Ha Hs. destruct (ai_attitude i) as [v|] eqn:Ev; [|by rewrite att_Run_none in Ha].
  rewrite (att_Run_attitude i v m Ev) in Ha, Hs.
  revert Ha Hs. destruct (configured_history i m) as [<- <-]. generalize (att_configured i m).
  clear m. intros m. unfold run_attitude, att_prepare. cbv zeta.
  destruct (history_before_derivative i v m) as [<- <-].
  generalize (take_topics i (follow_heading_reset v
    (take_setpoint i (m <| am_last_run := va_timestamp_sample v |>)))).
  generalize (att_time_step (va_timestamp_sample v) (am_last_run m)). clear m.
  intros dt m Ha Hs. by apply (prepared_fresh i (va_q v) dt m aux).
Qed.

End Attitude.

(** ** The rate module drives its controller by operations *)

(** [c'] is reached from [c] by operations of the controller that satisfy [P]. *)
Definition drives (P : rate_op -> Prop) (c c' : ESORateControl) : Prop :=
  exists os, Forall P os /\ c' = rate_run c os.

#[global] Instance drives_refl P : Reflexive (drives P).
Proof. intros c. by exists []. Qed.

#[global] Instance drives_trans P : Transitive (drives P).
Proof.
  intros c c' c'' (os & Ho & ->) (os' & Ho' & ->). exists (os ++ os'). split; [by apply Forall_app|].
  unfold rate_run. by rewrite fold_left_app.
Qed.

Lemma drives_op (P : rate_op -> Prop) o c : P o -> drives P c (rate_exec c o).
Proof. intros Ho. exists [o]. split; [by constructor|done]. Qed.

Lemma drives_mono (P Q : rate_op -> Prop) c c' : (forall o, P o -> Q o) -> drives P c c' -> drives Q c c'.
Proof. intros HPQ (os & Ho & ->). exists os. split; [|done]. by eapply Forall_impl. Qed.

(** What holds of every operation holds along a drive. *)
Lemma drives_inv (P : rate_op -> Prop) (I : ESORateControl -> Prop) c c' :
  (forall c o, P o -> I c -> I (rate_exec c o)) -> drives P c c' -> I c -> I c'.
Proof.
  intros HI (os & Ho & ->). revert c. induction Ho as [|o os Ho _ IH]; intros c Hc; [done|].
  apply IH. by apply HI.
Qed.

(** One step of a drive by a given operation. *)
Ltac drive o := etransitivity; [|exact (drives_op _ o _ Logic.I)].

(** Neither the integrator limits nor the auxiliary terms are set. *)
Definition plain_op (o : rate_op) : Prop :=
  match o with op_setIntegratorLimit _ | op_setAttitudeAux _ _ _ => False | _ => True end.

Section Rate.
Context `{Libm}.

Lemma rate_dynamic_drives i m :
  drives plain_op (rm_control m) (rm_control (rate_update_dynamic i m)).
Proof.
  unfold rate_update_dynamic. destruct (ri_joints i) as [js|]; [|done].
  destruct (negb (js_valid js)).
  - apply (drives_op plain_op (op_setInertiaMatrix _)). done.
  - destruct (computeSystemInertia _ _) as [arm inertia].
    apply (drives_op plain_op (op_setInertiaMatrix inertia)). done.
Qed.

Lemma take_gear_control i m : rm_control (take_gear i m) = rm_control m.
Proof. unfold take_gear. by repeat case_match. Qed.

Lemma take_rates_control i r m : rm_control (fst (take_rates i r m)) = rm_control m.
Proof. unfold take_rates. by repeat case_match. Qed.

Lemma reset_drives m : drives plain_op (rm_control m) (rm_control (reset_if_disarmed m)).
Proof.
  unfold reset_if_disarmed. case_match; [|done].
  drive op_resetESO. drive op_resetIntegral. done.
Qed.

Lemma take_allocator_drives i m : drives plain_op (rm_control m) (rm_control (take_allocator i m)).
Proof.
  unfold take_allocator. destruct (ri_alloc i) as [s|]; [|done]. destruct (saturation s) as [p n].
  by drive (op_setSaturationStatus p n).
Qed.

(** Publishing keeps the controller, the parameters and the mode. *)
Lemma publish_frame i now dt u m :
  let m' := fst (publish_controls i now dt u m) in
  rm_control m' = rm_control m /\ rm_params m' = rm_params m /\ rm_mode m' = rm_mode m.
Proof.
  unfold publish_controls, battery_stage, updateActuatorControlsStatus, take_battery. cbv zeta.
  destruct (ESO_BAT_SCALE_EN (rm_params m)); [destruct (ri_battery i) as [[[] s]|]|];
    try destruct (fgt s f0); cbn [andb]; by destruct (fgt _ (flit 5 10)).
Qed.

Lemma rate_control_drives i now r dt m :
  drives plain_op (rm_control m) (rm_control (fst (run_rate_control i now r dt m))).
Proof.
  unfold run_rate_control. cbv zeta.
  etransitivity; [apply reset_drives|].
  etransitivity; [exact (take_allocator_drives i (reset_if_disarmed m))|].
  generalize (take_allocator i (reset_if_disarmed m)). clear m. intros m.
  destruct (rate_update r (rm_rates_sp m) (ri_accel i) dt (rm_maybe_landed m || rm_landed m)
              (rm_control m)) as [c u] eqn:E.
  destruct (publish_frame i now dt u (m <| rm_control := c |>)) as (-> & _ & _).
  change (rm_control (m <| rm_control := c |>)) with c.
  assert (Ec : c = rate_exec (rm_control m)
                     (op_update r (rm_rates_sp m) (ri_accel i) dt (rm_maybe_landed m || rm_landed m))).
  { cbn [rate_exec]. by rewrite E. }
  rewrite Ec. by apply drives_op.
Qed.

Lemma gyro_control_drives i now r dt p m :
  drives plain_op (rm_control m) (rm_control (fst (gyro_control i now r dt p m))).
Proof.
  unfold gyro_control. cbv zeta. destruct (flag_control_rates_enabled (rm_mode m) && _); [|by case_match].
  pose proof (rate_control_drives i now r dt m) as HD.
  by destruct (run_rate_control i now r dt m).
Qed.

(** The stages before the auxiliary terms are taken. *)
Definition before_aux (i : rate_in) (now : Z) (r : vec3 f32) (m : rate_module) : rate_module :=
  fst (take_rates i r (take_gear i (rate_take_topics i
    ((rate_update_dynamic i m) <| rm_last_run := now |>)))).

Lemma gyro_prepare_aux i now r m :
  fst (gyro_prepare i now r m) = take_aux now (ri_aux i) (before_aux i now r m).
Proof. unfold gyro_prepare, before_aux. cbv zeta. by destruct (take_rates i r _). Qed.

Lemma before_aux_drives i now r m : drives plain_op (rm_control m) (rm_control (before_aux i now r m)).
Proof.
  unfold before_aux. rewrite take_rates_control, take_gear_control. apply rate_dynamic_drives.
Qed.

(** A gyro sample: the stages before, the auxiliary terms, the controller. *)
Lemma rate_Run_stages i m now r :
  ri_gyro i = Some (now, r) ->
  let m0 := match ri_params i with Some p => rate_parameters_updated p m | None => m end in
  exists p, fst (rate_Run i m) =
    fst (gyro_control i now r (rate_time_step now (rm_last_run m0)) p
           (take_aux now (ri_aux i) (before_aux i now r m0))) /\
    snd (rate_Run i m) =
    snd (gyro_control i now r (rate_time_step now (rm_last_run m0)) p
           (take_aux now (ri_aux i) (before_aux i now r m0))).
Proof.
  intros E. cbv zeta. unfold rate_Run. rewrite E. unfold run_gyro. cbv zeta.
  generalize (match ri_params i with Some p => rate_parameters_updated p m | None => m end).
  clear m. intros m. rewrite <- gyro_prepare_aux. destruct (gyro_prepare i now r m) as [m' p].
  by exists p.
Qed.

(** The operations of a parameter update: the limits are the parameter's. *)
Definition limit_is (lim : vec3 f32) (o : rate_op) : Prop :=
  match o with op_setIntegratorLimit l => l = lim | op_setAttitudeAux _ _ _ => False | _ => True end.

Lemma plain_limit_is lim o : plain_op o -> limit_is lim o.
Proof. by destruct o. Qed.

Lemma rate_parameters_drives p m :
  drives (limit_is (rp_int_lim p)) (rm_control m) (rm_control (rate_parameters_updated p m)).
Proof.
  unfold rate_parameters_updated. cbv zeta.
  drive (op_setTauSFilterTimeConstant (ESO_TAUS_TAU p)). drive (op_setTauSLimitNm (ESO_TAUS_LIM p)).
  drive (op_setTauSControlAxisScale (rp_taus_ctl p)). drive (op_setTauSObserverAxisScale (rp_taus_obs p)).
  drive (op_setTauSAxisScale (rp_taus_k p)). drive (op_setTauSScale (ESO_TAUS_K p)).
  drive (op_setIntegralScale (ESO_RATE_I_SC p)). drive (op_setMaxTorque (ESO_MAX_TORQUE p)).
  drive (op_setKBeta (ESO_K_BETA p)). drive (op_setESOBandwidth (rp_rate_bw p)).
  etransitivity; [|eapply (drives_op _ (op_setInertiaDiagonal _)); exact Logic.I].
  drive (op_setFeedForwardGain (rp_rate_ff p)).
  etransitivity; [|eapply (drives_op _ (op_setIntegratorLimit (rp_int_lim p))); reflexivity].
  etransitivity; [|eapply (drives_op _ (op_setGains _ _ _)); exact Logic.I]. done.
Qed.

(** Without a parameter change, [take_aux] sets the message's terms or none. *)
Definition aux_is (lim : vec3 f32) (a : option rate_aux) (o : rate_op) : Prop :=
  match o with
  | op_setIntegratorLimit l => l = lim
  | op_setAttitudeAux w b t =>
      (w = v3_zero /\ b = v3_zero /\ t = v3_zero) \/
      exists x, a = Some x /\ (w, b, t) = (aux_omega_r_dot x, aux_beta_v x, aux_tau_s x)
  | _ => True
  end.

Lemma limit_is_aux_is lim a o : limit_is lim o -> aux_is lim a o.
Proof. by destruct o. Qed.

Lemma take_aux_drives lim now a m :
  drives (aux_is lim a) (rm_control m) (rm_control (take_aux now a m)).
Proof.
  assert (Z0 : forall k : rate_module, drives (aux_is lim a) (rm_control k)
            (rm_control (if (rm_last_aux k =? 0) || (ESO_AUX_TIMEOUT <? u64 (now - rm_last_aux k))
                         then k <| rm_control := setAttitudeAux v3_zero v3_zero v3_zero (rm_control k) |>
                         else k))).
  { intros k. case_match; [|done].
    apply (drives_op _ (op_setAttitudeAux v3_zero v3_zero v3_zero)). by left. }
  unfold take_aux. cbv zeta. etransitivity; [|apply Z0]. destruct a as [a|]; [|done].
  case_match; [|done].
  apply (drives_op _ (op_setAttitudeAux (aux_omega_r_dot a) (aux_beta_v a) (aux_tau_s a))).
  right. by exists a.
Qed.

(** A whole run: the limit set, if any, is the new parameter's, and the auxiliary terms set
    are zero or the new message's. *)
Lemma rate_Run_drives lim i m :
  (forall p, ri_params i = Some p -> rp_int_lim p = lim) ->
  drives (aux_is lim (ri_aux i)) (rm_control m) (rm_control (fst (rate_Run i m))).
Proof.
  intros Hp. set (m0 := match ri_params i with Some p => rate_parameters_updated p m | None => m end).
  assert (H0 : drives (aux_is lim (ri_aux i)) (rm_control m) (rm_control m0)).
  { unfold m0. destruct (ri_params i) as [p|]; [|done].
    eapply drives_mono; [apply limit_is_aux_is|]. rewrite <- (Hp p eq_refl). apply rate_parameters_drives. }
  destruct (ri_gyro i) as [[now r]|] eqn:Eg.
  - destruct (rate_Run_stages i m now r Eg) as (p & -> & _). fold m0.
    etransitivity; [exact H0|].
    etransitivity; [eapply drives_mono; [|apply (before_aux_drives i now r m0)];
                    intros; by apply limit_is_aux_is, plain_limit_is|].
    etransitivity; [apply (take_aux_drives lim now (ri_aux i))|].
    eapply drives_mono; [|apply gyro_control_drives].
    intros. by apply limit_is_aux_is, plain_limit_is.
  - unfold rate_Run. rewrite Eg. exact H0.
Qed.

(** Runs in sequence. *)
Definition rate_Runs (ins : list rate_in) (m : rate_module) : rate_module :=
  fold_left (fun m i => fst (rate_Run i m)) ins m.

Lemma rate_Runs_inv (Q : rate_in -> Prop) (I : ESORateControl -> Prop) ins m :
  (forall i m, Q i -> I (rm_control m) -> I (rm_control (fst (rate_Run i m)))) ->
  Forall Q ins -> I (rm_control m) -> I (rm_control (rate_Runs ins m)).
Proof.
  intros HI HQ. revert m. induction HQ as [|i ins Hi _ IH]; intros m Hm; [done|].
  apply IH. by apply HI.
Qed.

Lemma int_inv_set lim c o :
  (forall i, fle f0 (proj i lim) = true) -> (forall l, o = op_setIntegratorLimit l -> l = lim) ->
  int_inv lim c -> int_inv lim (rate_exec c o).
Proof.
  intros Hl Ho Hc. destruct o as [| l | | | | | | | | | | | | | | | | | |]; try by apply int_inv_exec.
  rewrite (Ho l eq_refl). split; [done|]. apply Hc.
Qed.

(** A parameter update sets the limits and leaves the integral. *)
Lemma rate_parameters_limit p m :
  let c := rm_control (rate_parameters_updated p m) in
  lim_int (rc_params c) = rp_int_lim p /\ rate_int c = rate_int (rm_control m).
Proof.
  set (I := fun c => lim_int (rc_params c) = rp_int_lim p /\ rate_int c = rate_int (rm_control m)).
  change (I (rm_control (rate_parameters_updated p m))). unfold rate_parameters_updated. cbv zeta.
  assert (HI : forall o c, I c -> match o with
            | op_setIntegratorLimit _ | op_resetIntegral | op_update _ _ _ _ _ => True
            | _ => I (rate_exec c o) end).
  { intros o c [H1 H2]. destruct o; try done; simpl;
      unfold setKBeta, setMaxTorque, setIntegralScale, setTauSScale, setTauSLimitNm,
        setTauSFilterTimeConstant, setInertiaMatrix, on_params; repeat case_match; done. }
  apply (HI (op_setTauSFilterTimeConstant _)), (HI (op_setTauSLimitNm _)),
    (HI (op_setTauSControlAxisScale _)), (HI (op_setTauSObserverAxisScale _)),
    (HI (op_setTauSAxisScale _)), (HI (op_setTauSScale _)), (HI (op_setIntegralScale _)),
    (HI (op_setMaxTorque _)), (HI (op_setKBeta _)), (HI (op_setESOBandwidth _)),
    (HI (op_setInertiaDiagonal _)), (HI (op_setFeedForwardGain _)). done.
Qed.

(** With integrator limits that are not negative, the integral of every axis stays within
    its limit through every sequence of runs of the rate module, from its construction on:
    whatever gyro samples, setpoints, modes, allocator and arm messages arrive, and with
    parameter updates in between as long as they keep the limits. *)
Theorem rate_module_integral_bounded (p : rate_module_params) (ins : list rate_in) :
  (forall i, fle f0 (proj i (rp_int_lim p)) = true) ->
  Forall (fun i => forall p', ri_params i = Some p' -> rp_int_lim p' = rp_int_lim p) ins ->
  int_inv (rp_int_lim p) (rm_control (rate_Runs ins (rate_module_new p))).
Proof.
  intros Hl Hi. eapply rate_Runs_inv; [|exact Hi|].
  - intros i m Hp Hm. eapply drives_inv; [|apply (rate_Run_drives (rp_int_lim p) i m Hp)|exact Hm].
    intros c o Ho Hc. apply int_inv_set; [done| |done]. by intros l ->.
  - unfold rate_module_new. set (m := mkRateModule _ _ _ _ _ _ _ _ _ _ _ _ _ _ _ _ _ _ _).
    assert (Hz : forall ax, proj ax (rate_int (rm_control m)) = f0) by (by intros []).
    clearbody m. destruct (rate_parameters_limit p m) as [E1 E2]. split; [exact E1|].
    intros ax. rewrite E2, Hz. by apply zero_within.
Qed.

(** ** What reaches the actuators *)

Lemma or_zero_in_range x :
  x = fnan \/ fle (fneg f1) x = true /\ fle x f1 = true ->
  fle (fneg f1) (or_zero x) = true /\ fle (or_zero x) f1 = true.
Proof. unfold or_zero. intros [-> | Hx]; [done|]. by destruct (PX4_ISFINITE x). Qed.

Lemma or_zero_finite x : PX4_ISFINITE (or_zero x) = true.
Proof. unfold or_zero. by destruct (PX4_ISFINITE x) eqn:E. Qed.

(** Controls that may be published: torques in range, a finite throttle. *)
Definition controls_sane (a : actuator_controls) : Prop :=
  PX4_ISFINITE (ctl_throttle a) = true /\
  forall ax, fle (fneg f1) (proj ax (ctl_torque a)) = true /\ fle (proj ax (ctl_torque a)) f1 = true.

Lemma publish_unscaled i now dt u m :
  ESO_BAT_SCALE_EN (rm_params m) = false ->
  let out := publish_controls i now dt u m in
  rm_params (fst out) = rm_params m /\ ro_actuators (snd out) = Some (actuators_of u now m) /\
  ro_torque (snd out) = (if rm_is_vtol m then None else Some (v3_map or_zero u)) /\
  ro_thrust (snd out) = (if rm_is_vtol m then None else Some (publishThrustSetpoint m)).
Proof.
  intros E. unfold publish_controls, battery_stage, updateActuatorControlsStatus. cbv zeta. rewrite E.
  by destruct (fgt _ (flit 5 10)).
Qed.

(** The module the controller is run on, and the torque it returns. *)
Lemma run_rate_control_publishes i now r dt m :
  exists k u,
    rm_params k = rm_params m /\ rm_thrust_sp k = rm_thrust_sp m /\ rm_is_vtol k = rm_is_vtol m /\
    run_rate_control i now r dt m = publish_controls i now dt u k /\
    forall ax, proj ax u = fnan \/ fle (fneg f1) (proj ax u) = true /\ fle (proj ax u) f1 = true.
Proof.
  unfold run_rate_control. cbv zeta.
  assert (F : rm_params (take_allocator i (reset_if_disarmed m)) = rm_params m /\
              rm_thrust_sp (take_allocator i (reset_if_disarmed m)) = rm_thrust_sp m /\
              rm_is_vtol (take_allocator i (reset_if_disarmed m)) = rm_is_vtol m).
  { unfold take_allocator, reset_if_disarmed, saturation. by repeat case_match. }
  revert F. generalize (take_allocator i (reset_if_disarmed m)). intros k (F1 & F2 & F3).
  pose proof (update_output_range r (rm_rates_sp k) (ri_accel i) dt (rm_maybe_landed k || rm_landed k)
                (rm_control k)) as HU.
  destruct (rate_update _ _ _ _ _ _) as [c u]. exists (k <| rm_control := c |>), u.
  repeat split; done.
Qed.

Lemma sane_actuators u now m :
  (forall ax, proj ax u = fnan \/ fle (fneg f1) (proj ax u) = true /\ fle (proj ax u) f1 = true) ->
  controls_sane (actuators_of u now m).
Proof.
  intros Hu. split; [apply or_zero_finite|]. intros ax. unfold actuators_of. cbn [ctl_torque].
  rewrite proj_map. apply or_zero_in_range, Hu.
Qed.

Lemma gyro_control_sane i now r dt p m a :
  ro_actuators (snd (gyro_control i now r dt p m)) = Some a ->
  ESO_BAT_SCALE_EN (rm_params (fst (gyro_control i now r dt p m))) = false ->
  controls_sane a /\
  (ro_torque (snd (gyro_control i now r dt p m)) = None \/
   ro_torque (snd (gyro_control i now r dt p m)) = Some (ctl_torque a)).
Proof.
  unfold gyro_control. cbv zeta. destruct (flag_control_rates_enabled (rm_mode m) && _).
  - destruct (run_rate_control_publishes i now r dt m) as (k & u & H1 & H2 & H3 & -> & Hu).
    destruct (publish_frame i now dt u k) as (_ & HP & _). pose proof (publish_unscaled i now dt u k) as HU.
    destruct (publish_controls i now dt u k) as [k' out]. cbn [fst snd ro_actuators ro_torque] in *.
    intros Ha Hb. rewrite HP in Hb. destruct (HU Hb) as (_ & E & Et & _). rewrite E in Ha.
    injection Ha as <-. split; [by apply sane_actuators|]. rewrite Et.
    destruct (rm_is_vtol k); auto.
  - case_match; [|done]. cbn. intros [= <-] _. split; [|by left]. split; [done|]. by intros [].
Qed.

(** C8 (bounds). Without battery scaling, whatever the gyro samples, setpoints, controller state, joint
    angles and messages are (NaN and infinities included), every actuator command the rate
    module publishes has a torque on each axis that is a number between -1 and 1 and a finite
    throttle, and the torque setpoint published beside it is the same torque. *)
Theorem rate_actuators_sane (i : rate_in) (m : rate_module) (a : actuator_controls) :
  ro_actuators (snd (rate_Run i m)) = Some a ->
  ESO_BAT_SCALE_EN (rm_params (fst (rate_Run i m))) = false ->
  controls_sane a /\
  (ro_torque (snd (rate_Run i m)) = None \/ ro_torque (snd (rate_Run i m)) = Some (ctl_torque a)).
Proof.
  destruct (ri_gyro i) as [[now r]|] eqn:Eg.
  - destruct (rate_Run_stages i m now r Eg) as (p & -> & ->). apply gyro_control_sane.
  - unfold rate_Run. by rewrite Eg.
Qed.

(** ** Auxiliary terms *)

Definition aux_unset (c : ESORateControl) : Prop :=
  omega_r_dot c = v3_zero /\ beta_v c = v3_zero /\ tau_s c = v3_zero.

Lemma update_aux_frame r sp a dt l c :
  aux_unset c -> aux_unset (fst (rate_update r sp a dt l c)).
Proof.
  intros Hc. destruct (update_chain r sp a dt l c) as (base & f & v & ->).
  assert (H1 : aux_unset (rate_prepare f v l c)) by (unfold rate_prepare; by destruct l).
  revert H1. generalize (rate_prepare f v l c). intros c1 H1.
  assert (H2 : aux_unset (rate_observe r base dt c1)) by exact H1.
  revert H2. generalize (rate_observe r base dt c1). intros c2 H2.
  assert (H3 : aux_unset (rate_integrate (v3_sub sp r) dt l c2))
    by (unfold rate_integrate; by destruct (integrates l dt)).
  revert H3. by generalize (rate_integrate (v3_sub sp r) dt l c2).
Qed.

Lemma exec_aux_unset lim c o : aux_is lim None o -> aux_unset c -> aux_unset (rate_exec c o).
Proof.
  intros Ho Hc. destruct o; simpl;
    try (unfold setKBeta, setMaxTorque, setIntegralScale, setTauSScale, setTauSLimitNm,
           setTauSFilterTimeConstant, setInertiaMatrix, on_params; repeat case_match; exact Hc).
  - destruct Ho as [(-> & -> & ->) | (x & [=] & _)]. done.
  - done.
  - by apply update_aux_frame.
Qed.

Lemma take_aux_future now a m :
  0 <= now < aux_timestamp a -> aux_timestamp a < 2 ^ 63 ->
  aux_unset (rm_control (take_aux now (Some a) m)).
Proof.
  intros Hn Hb. unfold take_aux. cbv zeta.
  assert (E : (u64 (now - aux_timestamp a) <=? ESO_AUX_TIMEOUT) = false).
  { apply Z.leb_gt. unfold u64, ESO_AUX_TIMEOUT. rewrite <- (Z.mod_add _ 1) by done.
    rewrite Z.mod_small; lia. }
  change (rm_last_aux (m <| rm_last_aux := aux_timestamp a |>)) with (aux_timestamp a).
  rewrite E. change (rm_last_aux (m <| rm_last_aux := aux_timestamp a |>)) with (aux_timestamp a).
  assert (E' : (ESO_AUX_TIMEOUT <? u64 (now - aux_timestamp a)) = true)
    by (apply Z.ltb_lt; apply Z.leb_gt in E; lia).
  rewrite E', orb_true_r. done.
Qed.

(** An auxiliary message of the attitude controller that is stamped later than the gyro sample
    of the run that reads it is lost: the age is computed without sign and wraps, the message
    counts as stale, and the terms stay zero for that run and all later ones until another
    message arrives, also when the message is recent by then. *)
Theorem aux_newer_than_sample_lost (i : rate_in) (m : rate_module) (a : rate_aux) (now : Z)
    (rates : vec3 f32) (later : list rate_in) :
  ri_gyro i = Some (now, rates) -> ri_aux i = Some a ->
  0 <= now < aux_timestamp a -> aux_timestamp a < 2 ^ 63 ->
  Forall (fun j => ri_aux j = None) later ->
  aux_unset (rm_control (rate_Runs later (fst (rate_Run i m)))).
Proof.
  intros Hg Ha Hn Hb Hl. eapply rate_Runs_inv; [|exact Hl|].
  - intros j k Hj Hk.
    set (l := match ri_params j with Some p => rp_int_lim p | None => v3_zero end).
    eapply drives_inv; [|apply (rate_Run_drives l j k)|exact Hk].
    + rewrite Hj. intros c o. apply exec_aux_unset.
    + intros p E. unfold l. by rewrite E.
  - destruct (rate_Run_stages i m now rates Hg) as (p & -> & _). rewrite Ha.
    eapply drives_inv; [|apply gyro_control_drives|by apply take_aux_future].
    intros c o Ho. apply (exec_aux_unset v3_zero), limit_is_aux_is, plain_limit_is, Ho.
Qed.

End Rate.

(** ** From the position failsafe to the motors *)

Section Failsafe.
Context `{Libm}.

(** The attitude module holds a setpoint that is not a number. *)
Definition holds_nan (m : att_module) : Prop :=
  ac_setpoint_q (am_control m) = q_nan /\ v_z (am_thrust_setpoint_body m) = fnan.

Lemma quat_mul_nan (q : quat f32) : quat_normalize (quat_mul q q_nan) = q_nan.
Proof. apply normalize_nan. left. unfold quat_mul. cbn. by autorewrite with f32. Qed.

Lemma take_setpoint_nan i ts cmd m :
  ai_setpoint i = Some (ts, cmd) -> am_last_attitude_setpoint m < ts ->
  quat_nan (q_d cmd) -> v_z (thrust_body cmd) = fnan -> holds_nan (take_setpoint i m).
Proof.
  intros Hi Ht Hq Hz. unfold take_setpoint. rewrite Hi. apply Z.ltb_lt in Ht. rewrite Ht.
  split; [|exact Hz]. apply normalize_nan. left. apply Hq.
Qed.

Lemma heading_nan v m : holds_nan m -> holds_nan (follow_heading_reset v m).
Proof.
  intros [Hq Hz]. unfold follow_heading_reset. case_match; [done|]. cbv zeta.
  case_match; [|done]. split; [|done].
  change (quat_normalize (quat_mul (va_delta_q_reset v) (ac_setpoint_q (am_control m))) = q_nan).
  rewrite Hq. apply quat_mul_nan.
Qed.

Lemma manage_nan m : holds_nan m -> holds_nan (manage_derivative m).
Proof. unfold manage_derivative. by case_match. Qed.

Lemma topics_nan i m : holds_nan m -> holds_nan (take_topics i m).
Proof. done. Qed.

Lemma last_run_nan t m :
  am_last_attitude_setpoint (m <| am_last_run := t |>) = am_last_attitude_setpoint m.
Proof. done. Qed.

Lemma prepare_nan i v ts cmd m :
  ai_setpoint i = Some (ts, cmd) -> am_last_attitude_setpoint m < ts ->
  quat_nan (q_d cmd) -> v_z (thrust_body cmd) = fnan -> holds_nan (att_prepare i v m).
Proof.
  intros Hi Ht Hq Hz. unfold att_prepare. cbv zeta.
  refine (manage_nan _ (topics_nan i _ (heading_nan v _ (take_setpoint_nan i ts cmd _ Hi _ Hq Hz)))).
  rewrite last_run_nan. exact Ht.
Qed.

Lemma configured_last i m :
  am_last_attitude_setpoint (att_configured i m) = am_last_attitude_setpoint m.
Proof.
  unfold att_configured, update_dynamic_parameters.
  assert (E : am_last_attitude_setpoint
                (match ai_params i with Some p => parameters_updated p m | None => m end)
              = am_last_attitude_setpoint m).
  { destruct (ai_params i); [|done]. unfold parameters_updated. by destruct (resolveModelProfile _). }
  rewrite <- E. generalize (match ai_params i with Some p => parameters_updated p m | None => m end).
  intros k. destruct (ai_joints i) as [js|]; [|done]. destruct (negb (js_valid js)); [done|].
  destruct (computeSystemCoM _ _) as [arm com]. by destruct (computeSystemInertia _ _).
Qed.

Lemma control_stage_rates i q dt m :
  fst (snd (control_stage i q dt m)) =
  mkRatesSetpoint (ai_time i)
    (add_autotune i (rate_reference (am_control m) (dcm_of_quat (current_attitude q))))
    (am_thrust_setpoint_body m).
Proof.
  unfold control_stage. destruct (att_update_parts q (ai_omega i) dt (am_control m)) as [<- _].
  by destruct (att_update q (ai_omega i) dt (am_control m)).
Qed.

(** Running on such a setpoint publishes no rotation and no thrust. *)
Lemma run_prepared_nan i q dt m rsp :
  holds_nan m -> stabilized (am_mode m) = false -> ai_autotune i = None ->
  ao_rates (snd (run_prepared i q dt m)) = Some rsp ->
  rs_rates rsp = V3 f0 f0 f0 /\ v_z (rs_thrust_body rsp) = fnan.
Proof.
  intros [Hq Hz] Hs Ha Hr.
  destruct (proj2 (run_publishes_both _ _ _ _) (ex_intro _ _ Hr)) as [a Haux].
  destruct (run_prepared_out _ _ _ _ _ _ Hr Haux) as (_ & Hc & _).
  destruct (manual_stage_frame i q dt m) as (_ & _ & Hf). destruct (Hf Hs) as [F1 F2].
  revert Hc F1 F2. generalize (fst (manual_stage i q dt m)). intros k Hc F1 F2.
  pose proof (control_stage_rates i q dt k) as E. rewrite Hc, F1, F2 in E. cbn [fst] in E.
  rewrite (rates_nan_setpoint (am_control m) _ Hq) in E. unfold add_autotune in E. rewrite Ha in E.
  rewrite E. split; [reflexivity|exact Hz].
Qed.

Lemma att_Run_nan i ts cmd m rsp :
  ai_setpoint i = Some (ts, cmd) -> am_last_attitude_setpoint m < ts ->
  quat_nan (q_d cmd) -> v_z (thrust_body cmd) = fnan ->
  ao_rates (snd (att_Run i m)) = Some rsp ->
  stabilized (am_mode (fst (att_Run i m))) = false -> ai_autotune i = None ->
  rs_rates rsp = V3 f0 f0 f0 /\ v_z (rs_thrust_body rsp) = fnan.
Proof.
  intros Hi Ht Hq Hz Hr Hs Ha. destruct (ai_attitude i) as [v|] eqn:Ev;
    [|by unfold att_Run in Hr; rewrite Ev in Hr].
  rewrite (att_Run_attitude i v m Ev) in Hr, Hs. rewrite <- (configured_last i m) in Ht.
  revert Hr Hs Ht. generalize (att_configured i m). clear m. intros m Hr Hs Ht.
  pose proof (prepare_nan i v ts cmd m Hi Ht Hq Hz) as HN. revert Hr Hs HN.
  unfold run_attitude. cbv zeta. generalize (att_prepare i v m).
  generalize (att_time_step (va_timestamp_sample v) (am_last_run m)). clear m Ht.
  intros dt m Hr Hs HN.
  destruct (proj2 (run_publishes_both _ _ _ _) (ex_intro _ _ Hr)) as [a Haux].
  destruct (run_prepared_out _ _ _ _ _ _ Hr Haux) as (_ & _ & Hm). rewrite Hm in Hs.
  exact (run_prepared_nan i (va_q v) dt m rsp HN Hs Ha Hr).
Qed.

(** The rate module's mode and thrust setpoint along a run. *)
Lemma take_aux_frame now a m :
  rm_mode (take_aux now a m) = rm_mode m /\ rm_thrust_sp (take_aux now a m) = rm_thrust_sp m.
Proof. unfold take_aux. cbv zeta. destruct a; repeat case_match; done. Qed.

Lemma gyro_control_mode i now r dt p m : rm_mode (fst (gyro_control i now r dt p m)) = rm_mode m.
Proof.
  unfold gyro_control. cbv zeta. destruct (flag_control_rates_enabled (rm_mode m) && _); [|by case_match].
  assert (E : rm_mode (fst (run_rate_control i now r dt m)) = rm_mode m).
  { unfold run_rate_control. cbv zeta.
    assert (F : rm_mode (take_allocator i (reset_if_disarmed m)) = rm_mode m)
      by (unfold take_allocator, reset_if_disarmed, saturation; by repeat case_match).
    revert F. generalize (take_allocator i (reset_if_disarmed m)). intros k <-.
    destruct (rate_update _ _ _ _ _ _) as [c u]. by destruct (publish_frame i now dt u (k <| rm_control := c |>)) as (_ & _ & ->). }
  by destruct (run_rate_control i now r dt m).
Qed.

Definition acro (k : rate_mode) : bool := rm_manual_enabled k && negb (rm_attitude_enabled k).

Lemma before_aux_thrust i now r rsp m :
  ri_rates_sp i = Some rsp -> acro (rm_mode (before_aux i now r m)) = false ->
  rm_thrust_sp (before_aux i now r m) = fneg (v_z (rs_thrust_body rsp)).
Proof.
  intros Hr. unfold before_aux.
  generalize (take_gear i (rate_take_topics i ((rate_update_dynamic i m) <| rm_last_run := now |>))).
  clear m. intros m. unfold take_rates. fold (acro (rm_mode m)). rewrite Hr.
  destruct (acro (rm_mode m)) eqn:E; [|done].
  destruct (ri_manual i); cbn [fst]; [|by rewrite E]. intros Ha. exfalso. revert Ha.
  by change (acro (rm_mode m) = false -> False); rewrite E.
Qed.

Lemma gyro_control_no_thrust i now r dt p m a :
  rm_thrust_sp m = fnan ->
  ro_actuators (snd (gyro_control i now r dt p m)) = Some a ->
  ESO_BAT_SCALE_EN (rm_params (fst (gyro_control i now r dt p m))) = false ->
  ctl_throttle a = f0 /\
  (ro_thrust (snd (gyro_control i now r dt p m)) = None \/
   ro_thrust (snd (gyro_control i now r dt p m)) = Some (V3 f0 f0 f0)).
Proof.
  intros Ht. unfold gyro_control. cbv zeta. destruct (flag_control_rates_enabled (rm_mode m) && _).
  - destruct (run_rate_control_publishes i now r dt m) as (k & u & H1 & H2 & H3 & -> & _).
    destruct (publish_frame i now dt u k) as (_ & HP & _). pose proof (publish_unscaled i now dt u k) as HU.
    destruct (publish_controls i now dt u k) as [k' out]. cbn [fst snd ro_actuators ro_thrust] in *.
    intros Ha Hb. rewrite HP in Hb. destruct (HU Hb) as (_ & E & _ & Et). rewrite E in Ha.
    injection Ha as <-. rewrite Et. unfold actuators_of, publishThrustSetpoint. cbn [ctl_throttle].
    rewrite H2, Ht. split; [done|]. destruct (rm_is_vtol k); auto.
  - case_match; [|done]. cbn. intros [= <-] _. auto.
Qed.

Lemma rate_Run_no_thrust j k rsp a :
  ri_rates_sp j = Some rsp -> v_z (rs_thrust_body rsp) = fnan ->
  acro (rm_mode (fst (rate_Run j k))) = false ->
  ro_actuators (snd (rate_Run j k)) = Some a ->
  ESO_BAT_SCALE_EN (rm_params (fst (rate_Run j k))) = false ->
  ctl_throttle a = f0 /\
  (ro_thrust (snd (rate_Run j k)) = None \/ ro_thrust (snd (rate_Run j k)) = Some (V3 f0 f0 f0)).
Proof.
  intros Hr Hz. destruct (ri_gyro j) as [[now r]|] eqn:Eg; [|unfold rate_Run; by rewrite Eg].
  destruct (rate_Run_stages j k now r Eg) as (p & -> & ->). rewrite gyro_control_mode.
  generalize (match ri_params j with Some p => rate_parameters_updated p k | None => k end).
  intros m. destruct (take_aux_frame now (ri_aux j) (before_aux j now r m)) as [E1 E2].
  rewrite E1. intros Hm. pose proof (before_aux_thrust j now r rsp m Hr Hm) as Et.
  rewrite Hz in Et. apply gyro_control_no_thrust. by rewrite E2, Et.
Qed.

(** C7 (error). The three modules in sequence: once the position module's failsafe is active, the attitude
    setpoint it publishes makes the attitude module command no rotation and makes the rate
    module publish a throttle and a thrust of zero: the failsafe that is to stop the vehicle
    or let it descend slowly takes the thrust away. *)
Theorem failsafe_cuts_thrust (land_speed dt : f32) (s : PositionControlStates)
    (sp : local_position_setpoint) (c : ESOPositionControl) (ts : Z) (i : att_in) (m : att_module)
    (rsp : rates_setpoint) (j : rate_in) (k : rate_module) (a : actuator_controls) :
  let c1 := setInputSetpoint (failsafe_setpoint land_speed s sp) c in
  let cmd := getAttitudeSetpoint (fst (pos_update dt c1)) attitude_setpoint_zero in
  inputValid c1 = true ->
  ai_setpoint i = Some (ts, cmd) -> am_last_attitude_setpoint m < ts ->
  ao_rates (snd (att_Run i m)) = Some rsp ->
  stabilized (am_mode (fst (att_Run i m))) = false -> ai_autotune i = None ->
  ri_rates_sp j = Some rsp -> acro (rm_mode (fst (rate_Run j k))) = false ->
  ro_actuators (snd (rate_Run j k)) = Some a ->
  ESO_BAT_SCALE_EN (rm_params (fst (rate_Run j k))) = false ->
  rs_rates rsp = V3 f0 f0 f0 /\ ctl_throttle a = f0 /\
  (ro_thrust (snd (rate_Run j k)) = None \/ ro_thrust (snd (rate_Run j k)) = Some (V3 f0 f0 f0)).
Proof.
  cbv zeta. intros Hv Hi Ht Hr Hs Ha Hj Hk Hact Hb.
  destruct (failsafe_update land_speed dt s sp c) as [_ HN]. destruct (HN Hv) as [Hx _].
  destruct (attitude_nan _ attitude_setpoint_zero Hx) as [Hq Hz].
  destruct (att_Run_nan i ts _ m rsp Hi Ht Hq Hz Hr Hs Ha) as [H1 H2]. split; [exact H1|].
  exact (rate_Run_no_thrust j k rsp a Hj H2 Hk Hact Hb).
Qed.

End Failsafe.

(** ** Concrete vehicles *)

Definition demo_att_params : att_params :=
  mkAttParams (f32_of_Z 6) (f32_of_Z 6) (f32_of_Z 3) (flit 4 10) (f32_of_Z 220) (f32_of_Z 220)
    (f32_of_Z 200) (f32_of_Z 150) (f32_of_Z 35) (flit 8 100) f1 (flit 5 10) 0 0 (flit 1 10)
    (f32_of_Z 2) v3_zero (V3 (flit 1 100) (flit 1 100) (flit 1 100)) 0.

Definition demo_attitude : vehicle_attitude :=
  mkVehicleAttitude 1000000 1000000 (Quat f1 f0 f0 f0) (Quat f1 f0 f0 f0) 0.

(** Armed, position controlled, one attitude estimate and a setpoint. *)
Definition demo_att_in (sp : attitude_setpoint) : att_in :=
  mkAttIn None None (Some demo_attitude) v3_zero (Some (999000, sp)) None
    (Some (mkAttMode true true false true true true)) (Some false) None None 1000500.

Definition demo_rate_params : rate_module_params :=
  let tenth := V3 (flit 1 10) (flit 1 10) (flit 1 10) in
  mkRateModuleParams v3_ones tenth tenth v3_zero tenth v3_zero
    (V3 (flit 45 1000) (flit 45 1000) (flit 8 100)) (V3 (f32_of_Z 30) (f32_of_Z 30) (f32_of_Z 30))
    (flit 5 10) (flit 15 10) (flit 2 10) f0 v3_ones v3_ones v3_ones (flit 3 10) (flit 1 10)
    (V3 (f32_of_Z 360) (f32_of_Z 360) (f32_of_Z 200)) (flit 69 100) (flit 69 100) (flit 7 10)
    (flit 7 10) false 0 0.

(** One gyro sample of an armed vehicle in flight. *)
Definition demo_rate_in (now : Z) (sp : option rates_setpoint) (aux : option rate_aux) : rate_in :=
  mkRateIn None (Some (now, V3 (flit 1 10) f0 f0)) None v3_zero
    (Some (mkRateMode true false true true false)) (Some (false, false)) None None None sp aux None
    None 1001000.

#[local] Existing Instance demo_libm.

(** A vehicle that takes off pitched: the first run of the controller. *)
Lemma att_no_derivative_spike_witness :
  let m := att_module_new demo_att_params false false in
  let i := demo_att_in (attitude_setpoint_zero <| q_d := Quat (flit 9 10) f0 (flit 4 10) f0 |>) in
  exists aux, ao_aux (snd (att_Run i m)) = Some aux /\ aux_omega_r_dot aux = v3_zero.
Proof.
  intros m i. destruct (ao_aux (snd (att_Run i m))) as [aux|] eqn:E.
  - exists aux. split; [done|]. apply (att_no_derivative_spike i m aux E).
    right; left. reflexivity.
  - vm_compute in E. discriminate E.
Defined.

Lemma rate_module_integral_bounded_witness :
  int_inv (rp_int_lim demo_rate_params)
    (rm_control (rate_Runs [demo_rate_in 1000000 None None;
                            demo_rate_in 1001000 None None] (rate_module_new demo_rate_params))).
Proof.
  apply rate_module_integral_bounded.
  - by intros [].
  - by repeat constructor.
Defined.

(** A gyro sample that is not a number on one axis. *)
Lemma rate_actuators_sane_witness :
  let i := (demo_rate_in 1000000 None None) <| ri_gyro := Some (1000000, V3 fnan f1 f0) |> in
  exists a, ro_actuators (snd (rate_Run i (rate_module_new demo_rate_params))) = Some a /\ controls_sane a.
Proof.
  intros i. destruct (ro_actuators (snd (rate_Run i (rate_module_new demo_rate_params)))) as [a|] eqn:E.
  - exists a. split; [done|].
    apply (rate_actuators_sane i (rate_module_new demo_rate_params) a E). by vm_compute.
  - vm_compute in E. discriminate E.
Defined.

(** A message stamped half a millisecond after the sample, and a sample two milliseconds later. *)
Lemma aux_newer_than_sample_lost_witness :
  let a := mkRateAux 1000500 v3_zero v3_ones v3_ones v3_ones in
  aux_unset (rm_control (rate_Runs [demo_rate_in 1002000 None None]
    (fst (rate_Run (demo_rate_in 1000000 None (Some a)) (rate_module_new demo_rate_params))))).
Proof.
  intros a. apply (aux_newer_than_sample_lost _ _ a 1000000 (V3 (flit 1 10) f0 f0)); try done.
  by constructor.
Defined.

(** Stop and wait on the tuned position controller, in position control, all the way down. *)
Lemma failsafe_cuts_thrust_witness :
  let s := mkStates nan3 pv0 pv0 f0 in
  let c1 := setInputSetpoint (failsafe_setpoint f1 s setpoint_zero) (setState s demo_control) in
  let cmd := getAttitudeSetpoint (fst (pos_update (flit 1 50) c1)) attitude_setpoint_zero in
  exists rsp a,
    ao_rates (snd (att_Run (demo_att_in cmd) (att_module_new demo_att_params false false))) = Some rsp /\
    ro_actuators (snd (rate_Run (demo_rate_in 1000600 (Some rsp) None)
                         (rate_module_new demo_rate_params))) = Some a /\
    ctl_throttle a = f0.
Proof.
  intros s c1 cmd.
  destruct (ao_rates (snd (att_Run (demo_att_in cmd) (att_module_new demo_att_params false false))))
    as [rsp|] eqn:E; [|vm_compute in E; discriminate E].
  destruct (ro_actuators (snd (rate_Run (demo_rate_in 1000600 (Some rsp) None)
                                 (rate_module_new demo_rate_params)))) as [a|] eqn:Ea;
    [|vm_compute in E; injection E as <-; vm_compute in Ea; discriminate Ea].
  exists rsp, a. split; [done|]. split; [done|].
  apply (failsafe_cuts_thrust f1 (flit 1 50) s setpoint_zero (setState s demo_control) 999000
           (demo_att_in cmd) (att_module_new demo_att_params false false) rsp
           (demo_rate_in 1000600 (Some rsp) None) (rate_module_new demo_rate_params) a);
    try exact E; try exact Ea; try reflexivity; try (by vm_compute).
Defined.
