(* ===== verification/O1Heap.v ===== *)
(** * The O(1) heap of the UAVCAN v1 driver

    src/src/drivers/uavcan_v1/o1heap/o1heap.c and o1heap.h, at the 32-bit width of the
    firmware: a constant-time allocator over one arena.  The arena is a doubly linked chain of
    fragments; free fragments of similar size are kept in doubly linked bins, and a bit mask
    tells which bins are not empty.  Memory is a map from addresses to the fragments that have
    been written there; reading where no fragment was written, writing through the null
    pointer and a failed assertion are [None].  The links of the free list overlap the user
    data of an allocated fragment. *)
From stdpp Require Import gmap.
From coqutil Require Import Datatypes.RecordSettersUsingExistingGetters.
From S2P Require Import Prelude.
Local Open Scope Z_scope.

Module O1Heap.

(** ** Constants *)

Definition NULL : Z := 0.
Definition O1HEAP_ALIGNMENT : Z := 16.
Definition FRAGMENT_SIZE_MIN : Z := 32.
Definition SIZE_MAX : Z := 2 ^ 32 - 1.
Definition FRAGMENT_SIZE_MAX : Z := Z.shiftr SIZE_MAX 1 + 1.
Definition NUM_BINS_MAX : Z := 32.

(** ** Data *)

Record Fragment := mkFragment {
  next : Z;
  prev : Z;
  size : Z;
  used : bool;
  next_free : Z;
  prev_free : Z
}.

Record O1HeapDiagnostics := mkDiagnostics {
  capacity : Z;
  allocated : Z;
  peak_allocated : Z;
  peak_request_size : Z;
  oom_count : Z
}.

(** Calls of the critical section hooks, newest first. *)
Inductive hook_call := cs_enter | cs_leave.

Record O1HeapInstance := mkHeap {
  handle : Z;                          (** the address of the instance, the arena's base *)
  bins : list Z;
  nonempty_bin_mask : Z;
  critical_section_enter : bool;       (** the hook is not NULL *)
  critical_section_leave : bool;
  diagnostics : O1HeapDiagnostics;
  mem : gmap Z Fragment;
  calls : list hook_call
}.

(** 32 bins, the mask, two hooks, padding to eight bytes and the diagnostics, padded up. *)
Definition sizeof_O1HeapInstance : Z := 168.
Definition INSTANCE_SIZE_PADDED : Z :=
  Z.land (sizeof_O1HeapInstance + O1HEAP_ALIGNMENT - 1) (u32 (Z.lnot (O1HEAP_ALIGNMENT - 1))).

(** ** Memory and hooks *)

Definition fragment0 : Fragment := mkFragment 0 0 0 false 0 0.

Definition load (h : O1HeapInstance) (a : Z) : option Fragment := mem h !! a.

Definition store (a : Z) (g : Fragment -> Fragment) (h : O1HeapInstance) : option O1HeapInstance :=
  if a =? NULL then None
  else Some (h <| mem := <[a := g (default fragment0 (mem h !! a))]> (mem h) |>).

Definition on_diagnostics (g : O1HeapDiagnostics -> O1HeapDiagnostics) (h : O1HeapInstance)
  : O1HeapInstance := h <| diagnostics := g (diagnostics h) |>.

Definition invoke_enter (h : O1HeapInstance) : O1HeapInstance :=
  if critical_section_enter h then h <| calls := cs_enter :: calls h |> else h.

Definition invoke_leave (h : O1HeapInstance) : O1HeapInstance :=
  if critical_section_leave h then h <| calls := cs_leave :: calls h |> else h.

Notation "'O1HEAP_ASSERT' b ;; k" := (if b then k else None)
  (at level 100, b at level 99, k at level 200, right associativity).

(** ** Bit arithmetic *)

Definition isPowerOf2 (x : Z) : bool := Z.land x (u32 (x - 1)) =? 0.

Fixpoint log2Floor_loop (fuel : nat) (tmp y : Z) : Z :=
  match fuel with
  | O => y
  | S fuel => if 1 <? tmp then log2Floor_loop fuel (Z.shiftr tmp 1) (u8 (y + 1)) else y
  end.

Definition log2Floor (x : Z) : Z := log2Floor_loop 32 x 0.

Definition log2Ceil (x : Z) : Z := u8 (log2Floor x + (if isPowerOf2 x then 0 else 1)).

Definition pow2 (power : Z) : Z := u32 (Z.shiftl 1 power).

(** ** Links and bins *)

Definition interlink (left right : Z) (h : O1HeapInstance) : option O1HeapInstance :=
  h ← (if left =? NULL then Some h else store left (fun f => f <| next := right |>) h);
  if right =? NULL then Some h else store right (fun f => f <| prev := left |>) h.

(** The bin of a size: rounded down. *)
Definition bin_index (s : Z) : Z := log2Floor (s / FRAGMENT_SIZE_MIN).

Definition rebin (fragment : Z) (h : O1HeapInstance) : option O1HeapInstance :=
  f ← load h fragment;
  O1HEAP_ASSERT (FRAGMENT_SIZE_MIN <=? size f) ;;
  O1HEAP_ASSERT (size f mod FRAGMENT_SIZE_MIN =? 0) ;;
  let idx := bin_index (size f) in
  O1HEAP_ASSERT (idx <? NUM_BINS_MAX) ;;
  first ← bins h !! Z.to_nat idx;
  h ← store fragment (fun f => f <| next_free := first |> <| prev_free := NULL |>) h;
  h ← (if first =? NULL then Some h else store first (fun f => f <| prev_free := fragment |>) h);
  Some (h <| bins := <[Z.to_nat idx := fragment]> (bins h) |>
          <| nonempty_bin_mask := Z.lor (nonempty_bin_mask h) (pow2 idx) |>).

Definition unbin (fragment : Z) (h : O1HeapInstance) : option O1HeapInstance :=
  f ← load h fragment;
  O1HEAP_ASSERT (FRAGMENT_SIZE_MIN <=? size f) ;;
  O1HEAP_ASSERT (size f mod FRAGMENT_SIZE_MIN =? 0) ;;
  let idx := bin_index (size f) in
  O1HEAP_ASSERT (idx <? NUM_BINS_MAX) ;;
  h ← (if next_free f =? NULL then Some h
       else store (next_free f) (fun g => g <| prev_free := prev_free f |>) h);
  h ← (if prev_free f =? NULL then Some h
       else store (prev_free f) (fun g => g <| next_free := next_free f |>) h);
  first ← bins h !! Z.to_nat idx;
  if first =? fragment then
    O1HEAP_ASSERT (prev_free f =? NULL) ;;
    let h := h <| bins := <[Z.to_nat idx := next_free f]> (bins h) |> in
    Some (if next_free f =? NULL
          then h <| nonempty_bin_mask := Z.land (nonempty_bin_mask h) (u32 (Z.lnot (pow2 idx))) |>
          else h)
  else Some h.

(** ** Initialisation *)

(** [while ((capacity % FRAGMENT_SIZE_MIN) != 0) capacity--] *)
Fixpoint round_capacity (fuel : nat) (cap : Z) : option Z :=
  if cap mod FRAGMENT_SIZE_MIN =? 0 then Some cap
  else match fuel with
       | O => None
       | S fuel => O1HEAP_ASSERT (0 <? cap) ;; round_capacity fuel (cap - 1)
       end.

(** [Some None]: NULL is returned. *)
Definition o1heapInit (base size : Z) (enter leave : bool) : option (option O1HeapInstance) :=
  if negb (base =? NULL) && (base mod O1HEAP_ALIGNMENT =? 0)
     && (INSTANCE_SIZE_PADDED + FRAGMENT_SIZE_MIN <=? size) then
    O1HEAP_ASSERT (base mod 4 =? 0) ;;
    let cap := size - INSTANCE_SIZE_PADDED in
    let cap := if FRAGMENT_SIZE_MAX <? cap then FRAGMENT_SIZE_MAX else cap in
    cap ← round_capacity (Z.to_nat FRAGMENT_SIZE_MIN) cap;
    O1HEAP_ASSERT ((FRAGMENT_SIZE_MIN <=? cap) && (cap <=? FRAGMENT_SIZE_MAX)) ;;
    let frag := u32 (base + INSTANCE_SIZE_PADDED) in
    O1HEAP_ASSERT (frag mod O1HEAP_ALIGNMENT =? 0) ;;
    let h := mkHeap base (replicate (Z.to_nat NUM_BINS_MAX) NULL) 0 enter leave
               (mkDiagnostics cap 0 0 0 0) ∅ [] in
    h ← store frag (fun _ => mkFragment NULL NULL cap false NULL NULL) h;
    h ← rebin frag h;
    O1HEAP_ASSERT (negb (nonempty_bin_mask h =? 0)) ;;
    Some (Some h)
  else Some None.

(** ** Allocation *)

(** The fragment is split if it is too large. *)
Definition split_fragment (frag fragment_size leftover : Z) (h : O1HeapInstance) : option O1HeapInstance :=
  if FRAGMENT_SIZE_MIN <=? leftover then
    let new_frag := u32 (frag + fragment_size) in
    O1HEAP_ASSERT (new_frag mod O1HEAP_ALIGNMENT =? 0) ;;
    h ← store new_frag (fun f => f <| size := leftover |> <| used := false |>) h;
    f ← load h frag;
    h ← interlink new_frag (next f) h;
    h ← interlink frag new_frag h;
    rebin new_frag h
  else Some h.

(** The fragment taken from its bin becomes the allocation. *)
Definition take_fragment (frag fragment_size amount : Z) (h : O1HeapInstance) : option (O1HeapInstance * Z) :=
  f ← load h frag;
  O1HEAP_ASSERT (fragment_size <=? size f) ;;
  O1HEAP_ASSERT (size f mod FRAGMENT_SIZE_MIN =? 0) ;;
  O1HEAP_ASSERT (negb (used f)) ;;
  h ← unbin frag h;
  let leftover := u32 (size f - fragment_size) in
  h ← store frag (fun f => f <| size := fragment_size |>) h;
  O1HEAP_ASSERT (leftover <? capacity (diagnostics h)) ;;
  O1HEAP_ASSERT (leftover mod FRAGMENT_SIZE_MIN =? 0) ;;
  h ← split_fragment frag fragment_size leftover h;
  O1HEAP_ASSERT (allocated (diagnostics h) mod FRAGMENT_SIZE_MIN =? 0) ;;
  let h := on_diagnostics (fun d => d <| allocated := u32 (allocated d + fragment_size) |>) h in
  O1HEAP_ASSERT (allocated (diagnostics h) <=? capacity (diagnostics h)) ;;
  let h := on_diagnostics (fun d => if peak_allocated d <? allocated d
                                    then d <| peak_allocated := allocated d |> else d) h in
  f ← load h frag;
  O1HEAP_ASSERT (u32 (amount + O1HEAP_ALIGNMENT) <=? size f) ;;
  h ← store frag (fun f => f <| used := true |>) h;
  Some (h, u32 (frag + O1HEAP_ALIGNMENT)).

(** The smallest bin that is not empty and not smaller than the given one. *)
Definition smallest_bin_mask (mask optimal_bin_index : Z) : Z :=
  let candidate_bin_mask := u32 (Z.lnot (u32 (pow2 optimal_bin_index - 1))) in
  let suitable_bins := Z.land mask candidate_bin_mask in
  Z.land suitable_bins (u32 (Z.lnot (u32 (suitable_bins - 1)))).

Definition fragment_size_for (amount : Z) : Z := pow2 (log2Ceil (u32 (amount + O1HEAP_ALIGNMENT))).

Definition try_allocate (amount : Z) (h : O1HeapInstance) : option (O1HeapInstance * Z) :=
  if (0 <? amount) && (amount <=? u32 (capacity (diagnostics h) - O1HEAP_ALIGNMENT)) then
    let fragment_size := fragment_size_for amount in
    O1HEAP_ASSERT (fragment_size <=? FRAGMENT_SIZE_MAX) ;;
    O1HEAP_ASSERT (FRAGMENT_SIZE_MIN <=? fragment_size) ;;
    O1HEAP_ASSERT (u32 (amount + O1HEAP_ALIGNMENT) <=? fragment_size) ;;
    O1HEAP_ASSERT (isPowerOf2 fragment_size) ;;
    let optimal_bin_index := log2Ceil (fragment_size / FRAGMENT_SIZE_MIN) in
    O1HEAP_ASSERT (optimal_bin_index <? NUM_BINS_MAX) ;;
    let h := invoke_enter h in
    let smallest := smallest_bin_mask (nonempty_bin_mask h) optimal_bin_index in
    if smallest =? 0 then Some (h, NULL)
    else
      O1HEAP_ASSERT (isPowerOf2 smallest) ;;
      let bin := log2Floor smallest in
      O1HEAP_ASSERT (optimal_bin_index <=? bin) ;;
      O1HEAP_ASSERT (bin <? NUM_BINS_MAX) ;;
      frag ← bins h !! Z.to_nat bin;
      O1HEAP_ASSERT (negb (frag =? NULL)) ;;
      take_fragment frag fragment_size amount h
  else Some (invoke_enter h, NULL).

Definition o1heapAllocate (h : O1HeapInstance) (amount : Z) : option (O1HeapInstance * Z) :=
  O1HEAP_ASSERT (capacity (diagnostics h) <=? FRAGMENT_SIZE_MAX) ;;
  '(h, out) ← try_allocate amount h;
  let h := on_diagnostics (fun d => if peak_request_size d <? amount
                                    then d <| peak_request_size := amount |> else d) h in
  let h := on_diagnostics (fun d => if (out =? NULL) && (0 <? amount)
                                    then d <| oom_count := u64 (oom_count d + 1) |> else d) h in
  Some (invoke_leave h, out).

(** ** Release *)

Definition is_free (a : Z) (h : O1HeapInstance) : option bool :=
  if a =? NULL then Some false else f ← load h a; Some (negb (used f)).

Definition grow (a amount : Z) : O1HeapInstance -> option O1HeapInstance :=
  store a (fun f => f <| size := u32 (size f + amount) |>).

Definition drop_fragment (a : Z) : O1HeapInstance -> option O1HeapInstance :=
  store a (fun f => f <| size := 0 |>).

(** [O1HEAP_ASSERT((a->header.size % FRAGMENT_SIZE_MIN) == 0U)] *)
Definition assert_aligned (a : Z) (h : O1HeapInstance) : option O1HeapInstance :=
  f ← load h a;
  O1HEAP_ASSERT (size f mod FRAGMENT_SIZE_MIN =? 0) ;;
  Some h.

(** Merging with the neighbours that are free. *)
Definition merge (frag : Z) (f : Fragment) (h : O1HeapInstance) : option O1HeapInstance :=
  join_left ← is_free (prev f) h;
  join_right ← is_free (next f) h;
  if join_left && join_right then
    h ← unbin (prev f) h;
    h ← unbin (next f) h;
    n ← load h (next f);
    h ← grow (prev f) (u32 (size f + size n)) h;
    h ← drop_fragment frag h;
    h ← drop_fragment (next f) h;
    h ← assert_aligned (prev f) h;
    h ← interlink (prev f) (next n) h;
    rebin (prev f) h
  else if join_left then
    h ← unbin (prev f) h;
    h ← grow (prev f) (size f) h;
    h ← drop_fragment frag h;
    h ← assert_aligned (prev f) h;
    h ← interlink (prev f) (next f) h;
    rebin (prev f) h
  else if join_right then
    h ← unbin (next f) h;
    n ← load h (next f);
    h ← grow frag (size n) h;
    h ← drop_fragment (next f) h;
    h ← assert_aligned frag h;
    h ← interlink frag (next n) h;
    rebin frag h
  else rebin frag h.

Definition o1heapFree (h : O1HeapInstance) (pointer : Z) : option O1HeapInstance :=
  O1HEAP_ASSERT (capacity (diagnostics h) <=? FRAGMENT_SIZE_MAX) ;;
  if pointer =? NULL then Some h
  else
    let frag := u32 (pointer - O1HEAP_ALIGNMENT) in
    let arena := handle h + INSTANCE_SIZE_PADDED in
    let cap := capacity (diagnostics h) in
    O1HEAP_ASSERT (frag mod 4 =? 0) ;;
    O1HEAP_ASSERT (u32 arena <=? frag) ;;
    O1HEAP_ASSERT (frag <=? u32 (arena + cap - FRAGMENT_SIZE_MIN)) ;;
    f ← load h frag;
    O1HEAP_ASSERT (used f) ;;
    O1HEAP_ASSERT (next f mod 4 =? 0) ;;
    O1HEAP_ASSERT (prev f mod 4 =? 0) ;;
    O1HEAP_ASSERT (FRAGMENT_SIZE_MIN <=? size f) ;;
    O1HEAP_ASSERT (size f <=? cap) ;;
    O1HEAP_ASSERT (size f mod FRAGMENT_SIZE_MIN =? 0) ;;
    let h := invoke_enter h in
    h ← store frag (fun f => f <| used := false |>) h;
    O1HEAP_ASSERT (size f <=? allocated (diagnostics h)) ;;
    let h := on_diagnostics (fun d => d <| allocated := u32 (allocated d - size f) |>) h in
    h ← merge frag f h;
    Some (invoke_leave h).

(** ** Self-diagnosis *)

Definition mask_matches_bin (mask : Z) (i : nat) (b : Z) : bool :=
  Bool.eqb (negb (Z.land mask (pow2 (u8 (Z.of_nat i))) =? 0)) (negb (b =? NULL)).

Definition masks_match (h : O1HeapInstance) : bool :=
  forallb (fun ib : nat * Z => mask_matches_bin (nonempty_bin_mask h) (fst ib) (snd ib))
    (zip (seq 0 (length (bins h))) (bins h)).

Definition diagnostics_valid (d : O1HeapDiagnostics) : bool :=
  (capacity d <=? FRAGMENT_SIZE_MAX) && (FRAGMENT_SIZE_MIN <=? capacity d)
  && (capacity d mod FRAGMENT_SIZE_MIN =? 0)
  && (allocated d <=? capacity d) && (allocated d mod FRAGMENT_SIZE_MIN =? 0)
  && (peak_allocated d <=? capacity d) && (allocated d <=? peak_allocated d)
  && (peak_allocated d mod FRAGMENT_SIZE_MIN =? 0)
  && ((peak_request_size d <? capacity d) || (0 <? oom_count d))
  && (if peak_request_size d =? 0
      then (peak_allocated d =? 0) && (allocated d =? 0) && (oom_count d =? 0)
      else (u32 (peak_request_size d + O1HEAP_ALIGNMENT) <=? peak_allocated d) || (0 <? oom_count d)).

Definition o1heapDoInvariantsHold (h : O1HeapInstance) : O1HeapInstance * bool :=
  let h := invoke_enter h in
  let valid := masks_match h in
  let diag := diagnostics h in
  let h := invoke_leave h in
  (h, valid && diagnostics_valid diag).

Definition o1heapGetDiagnostics (h : O1HeapInstance) : O1HeapInstance * O1HeapDiagnostics :=
  (invoke_leave (invoke_enter h), diagnostics h).

End O1Heap.
