(* ===== verification/O1HeapBits.v ===== *)
(** * Bit arithmetic of the O(1) heap

    The logarithm loop, the power-of-two test and the search for the smallest suitable bin,
    against [Z.log2], [Z.log2_up] and the bits of the mask. *)
From S2P Require Import Prelude O1Heap.
Import O1Heap.
Local Open Scope Z_scope.

Module O1HeapBits.

Lemma log2Floor_loop_spec fuel x y :
  0 <= x < 2 ^ Z.of_nat fuel -> 0 <= y -> y + Z.log2 x < 256 ->
  log2Floor_loop fuel x y = y + Z.log2 x.
Proof.
  revert x y. induction fuel as [|fuel IH]; intros x y Hx Hy Hb.
  - assert (x = 0) as -> by (cbn in Hx; lia). simpl. lia.
  - cbn [log2Floor_loop]. destruct (Z.ltb_spec 1 x) as [H1|H1].
    + assert (E : Z.log2 x = Z.log2 (Z.shiftr x 1) + 1).
      { rewrite Z.log2_shiftr by lia. pose proof (Z.log2_le_mono 2 x). change (Z.log2 2) with 1 in *. lia. }
      rewrite IH.
      * rewrite wrap_small by (split; pose proof (Z.log2_nonneg (Z.shiftr x 1)); lia). lia.
      * rewrite Z.shiftr_div_pow2 by lia. change (2 ^ 1) with 2.
        rewrite Nat2Z.inj_succ, Z.pow_succ_r in Hx by lia.
        split; [apply Z.div_pos; lia|apply Z.div_lt_upper_bound; lia].
      * apply wrap_fits; lia.
      * rewrite wrap_small by (split; pose proof (Z.log2_nonneg (Z.shiftr x 1)); lia). lia.
    + assert (Z.log2 x = 0) by (apply Z.log2_null; lia). lia.
Qed.

Lemma log2_bound x : 0 <= x < 2 ^ 32 -> 0 <= Z.log2 x < 32.
Proof.
  intros Hx. split; [apply Z.log2_nonneg|]. destruct (Z.eq_dec x 0) as [->|]; [done|].
  apply Z.log2_lt_pow2; lia.
Qed.

Lemma log2Floor_spec x : 0 <= x < 2 ^ 32 -> log2Floor x = Z.log2 x.
Proof.
  intros Hx. pose proof (log2_bound x Hx). unfold log2Floor. rewrite log2Floor_loop_spec; lia.
Qed.

Lemma pow2_spec p : 0 <= p < 32 -> pow2 p = 2 ^ p.
Proof.
  intros Hp. unfold pow2. rewrite Z.shiftl_1_l. apply wrap_small. split; [lia|].
  apply Z.pow_lt_mono_r; lia.
Qed.

(** ** The lowest bit *)

Lemma testbit_split a b n j : 0 <= n -> 0 <= b < 2 ^ n -> 0 <= j ->
  Z.testbit (a * 2 ^ n + b) j = if j <? n then Z.testbit b j else Z.testbit a (j - n).
Proof.
  intros Hn Hb Hj. destruct (Z.ltb_spec j n).
  - rewrite <- (Z.mod_pow2_bits_low (a * 2 ^ n + b) n) by lia.
    rewrite Z.add_comm, Z_mod_plus_full, Z.mod_small by lia. done.
  - replace j with (j - n + n) at 1 by lia. rewrite <- Z.div_pow2_bits by lia.
    rewrite Z.div_add_l by lia. rewrite Z.div_small by lia. by rewrite Z.add_0_r.
Qed.

Lemma lowest_bit x : 0 < x -> exists i q, 0 <= i /\ 0 <= q /\ x = q * 2 ^ (i + 1) + 2 ^ i.
Proof.
  induction x as [x IH] using (well_founded_induction (Z.lt_wf 0)). intros Hx.
  destruct (Z.Even_or_Odd x) as [[k ->]|[k ->]].
  - destruct (IH k) as (i & q & Hi & Hq & ->); [lia|lia|]. exists (i + 1), q.
    split; [lia|]. split; [lia|]. rewrite !Z.pow_add_r by lia. lia.
  - exists 0, k. split; [lia|]. split; [lia|]. change (2 ^ (0 + 1)) with 2. lia.
Qed.

Lemma low_bits i j : 0 <= i -> 0 <= j -> Z.testbit (2 ^ i - 1) j = (j <? i).
Proof.
  intros Hi Hj. rewrite Z.sub_1_r, <- Z.ones_equiv.
  rewrite Z.testbit_ones by lia. destruct (Z.leb_spec 0 j); [done|lia].
Qed.

Lemma pow2_testbit i j : 0 <= i -> Z.testbit (2 ^ i) j = (i =? j).
Proof. intros. by apply Z.pow2_bits_eqb. Qed.

(** [x & ~(x - 1)] is the lowest bit of [x]. *)
Lemma isolate_lowest w x i q :
  0 <= i -> 0 <= q -> x = q * 2 ^ (i + 1) + 2 ^ i -> x < 2 ^ w -> 0 <= w ->
  Z.land x (wrap w (Z.lnot (wrap w (x - 1)))) = 2 ^ i.
Proof.
  intros Hi Hq E Hx Hw. apply Z.bits_inj'. intros j Hj.
  assert (Hp : 0 < 2 ^ i) by lia. assert (Hp1 : 2 ^ i < 2 ^ (i + 1)) by (apply Z.pow_lt_mono_r; lia).
  assert (Hx0 : 0 < x) by nia.
  rewrite Z.land_spec, wrap_testbit, Z.lnot_spec, wrap_testbit, pow2_testbit by lia.
  assert (E1 : Z.testbit x j = if j <? i + 1 then (i =? j) else Z.testbit q (j - (i + 1))).
  { rewrite E, testbit_split by lia. destruct (j <? i + 1); [|done]. by apply pow2_testbit. }
  assert (E2 : Z.testbit (x - 1) j = if j <? i + 1 then (j <? i) else Z.testbit q (j - (i + 1))).
  { replace (x - 1) with (q * 2 ^ (i + 1) + (2 ^ i - 1)) by lia. rewrite testbit_split by lia.
    destruct (j <? i + 1); [|done]. by apply low_bits. }
  assert (Hw' : Z.testbit x j = true -> j < w).
  { intros Hb. destruct (Z.lt_ge_cases j w); [done|]. exfalso.
    rewrite Z.bits_above_log2 in Hb; [done|lia|]. pose proof (Z.log2_lt_pow2 x w Hx0). lia. }
  rewrite E2. destruct (Z.testbit x j) eqn:Eb.
  - specialize (Hw' eq_refl). replace (j <? w) with true by (symmetry; by apply Z.ltb_lt).
    destruct (Z.ltb_spec j (i + 1)).
    + symmetry in E1. apply Z.eqb_eq in E1. subst j. rewrite Z.eqb_refl.
      rewrite Z.ltb_irrefl. done.
    + rewrite <- E1. cbn. symmetry. apply Z.eqb_neq. lia.
  - cbn. destruct (Z.ltb_spec j (i + 1)); [done|]. symmetry. apply Z.eqb_neq. lia.
Qed.

(** ** Powers of two *)

Lemma isPowerOf2_pow p : 0 <= p < 32 -> isPowerOf2 (2 ^ p) = true.
Proof.
  intros Hp. unfold isPowerOf2. apply Z.eqb_eq.
  assert (0 < 2 ^ p < 2 ^ 32) by (split; [lia|apply Z.pow_lt_mono_r; lia]).
  rewrite wrap_small by (split; lia). apply Z.bits_inj'. intros j Hj.
  rewrite Z.land_spec, pow2_testbit, low_bits, Z.bits_0 by lia.
  destruct (Z.eqb_spec p j) as [->|]; [by rewrite Z.ltb_irrefl|done].
Qed.

Lemma isPowerOf2_not x : 0 < x < 2 ^ 32 -> isPowerOf2 x = true -> x = 2 ^ Z.log2 x.
Proof.
  intros Hx Hp. unfold isPowerOf2 in Hp. apply Z.eqb_eq in Hp. rewrite wrap_small in Hp by (split; lia).
  destruct (Z.eq_dec x (2 ^ Z.log2 x)) as [|Hn]; [done|]. exfalso.
  assert (Hl : 2 ^ Z.log2 x <= x) by (apply Z.log2_spec; lia).
  assert (E : Z.log2 (x - 1) = Z.log2 x).
  { apply Z.log2_unique; [apply Z.log2_nonneg|]. pose proof (Z.log2_spec x ltac:(lia)). lia. }
  assert (Hb : Z.testbit (Z.land x (x - 1)) (Z.log2 x) = true).
  { rewrite Z.land_spec, Z.bit_log2 by lia. rewrite <- E, Z.bit_log2; [done|].
    assert (0 < 2 ^ Z.log2 x) by (apply Z.pow_pos_nonneg; [lia|apply Z.log2_nonneg]). lia. }
  rewrite Hp, Z.bits_0 in Hb. done.
Qed.

Lemma log2Ceil_spec x : 0 < x <= 2 ^ 31 -> log2Ceil x = Z.log2_up x.
Proof.
  intros Hx. pose proof (log2_bound x). unfold log2Ceil. rewrite log2Floor_spec by lia.
  destruct (isPowerOf2 x) eqn:E.
  - pose proof (isPowerOf2_not x ltac:(lia) E) as Ex. rewrite wrap_small by (split; lia).
    rewrite Ex at 2. rewrite Z.log2_up_pow2 by apply Z.log2_nonneg. lia.
  - rewrite wrap_small by (split; lia). pose proof (Z.le_log2_log2_up x).
    pose proof (Z.le_log2_up_succ_log2 x).
    destruct (Z.eq_dec (Z.log2 x) (Z.log2_up x)) as [Eq|]; [|lia]. exfalso.
    apply Z.log2_log2_up_exact in Eq as [b Eb]; [|lia]. subst x.
    assert (0 <= b < 32).
    { assert (0 <= b) by (destruct (Z.lt_ge_cases b 0); [rewrite Z.pow_neg_r in Hx; lia|done]).
      split; [done|]. rewrite Z.log2_pow2 in H by done. lia. }
    by rewrite isPowerOf2_pow in E.
Qed.

(** ** The search for a bin *)

Lemma candidate_testbit k j : 0 <= k < 32 -> 0 <= j ->
  Z.testbit (u32 (Z.lnot (u32 (pow2 k - 1)))) j = (k <=? j) && (j <? 32).
Proof.
  intros Hk Hj. rewrite wrap_testbit, Z.lnot_spec, wrap_testbit, pow2_spec, low_bits by lia.
  destruct (Z.ltb_spec j k), (Z.ltb_spec j 32), (Z.leb_spec k j); cbn; done || lia.
Qed.

Lemma smallest_bin_spec mask k :
  fits 32 mask -> 0 <= k < 32 ->
  let s := smallest_bin_mask mask k in
  (s = 0 -> forall i, k <= i -> Z.testbit mask i = false) /\
  (s <> 0 -> exists i, k <= i < 32 /\ s = 2 ^ i /\ Z.testbit mask i = true).
Proof.
  intros Hm Hk. cbv zeta. unfold smallest_bin_mask.
  set (x := Z.land mask (u32 (Z.lnot (u32 (pow2 k - 1))))).
  assert (Hb : forall j, 0 <= j -> Z.testbit x j = Z.testbit mask j && ((k <=? j) && (j <? 32))).
  { intros j Hj. unfold x. by rewrite Z.land_spec, candidate_testbit. }
  assert (Hx : fits 32 x).
  { apply fits_land_l; [lia|done|]. apply (wrap_fits 32); lia. }
  destruct (Z.eq_dec x 0) as [E0|E0].
  - rewrite E0. split; [|done]. intros _ i Hi. specialize (Hb i). rewrite E0, Z.bits_0 in Hb.
    destruct (Z.lt_ge_cases i 32).
    + destruct (Z.leb_spec k i), (Z.ltb_spec i 32); try lia. rewrite andb_true_r in Hb. symmetry.
      apply Hb. lia.
    + destruct Hm as [Hm1 Hm2]. destruct (Z.eq_dec mask 0) as [->|]; [apply Z.bits_0|].
      apply Z.bits_above_log2; [done|]. pose proof (Z.log2_lt_pow2 mask 32). lia.
  - destruct (lowest_bit x) as (i & q & Hi & Hq & E); [destruct Hx; lia|].
    rewrite (isolate_lowest 32 x i q) by (destruct Hx; lia).
    assert (Hxi : Z.testbit x i = true).
    { rewrite E, testbit_split; [| lia | split; [lia|apply Z.pow_lt_mono_r; lia] | lia].
      destruct (Z.ltb_spec i (i + 1)); [|lia]. rewrite pow2_testbit by lia. apply Z.eqb_refl. }
    rewrite Hb in Hxi by lia. apply andb_true_iff in Hxi as [H1 H2].
    apply andb_true_iff in H2 as [H2 H3]. apply Z.leb_le in H2. apply Z.ltb_lt in H3.
    split; [lia|]. intros _. exists i. done.
Qed.

End O1HeapBits.
