(* ===== verification/O1HeapBins.v ===== *)
(** * The linked structures of the O(1) heap

    Two doubly linked structures share the fragments: the chain of neighbours (next, prev) and
    the free list of each bin (next_free, prev_free).  Both are segments of one generic theory;
    on top of it, [bins_ok] states what the 32 bins and the mask hold, and [rebin] and [unbin]
    are shown to add and remove exactly one fragment and to leave the headers alone. *)
From stdpp Require Import gmap.
From coqutil Require Import Datatypes.RecordSettersUsingExistingGetters.
From S2P Require Import Prelude O1Heap O1HeapBits.
Import O1Heap O1HeapBits.
Local Open Scope Z_scope.

Module O1HeapBins.

(** ** Doubly linked segments *)

(** The last address of a segment whose predecessor is [p]. *)
Fixpoint lst (p : Z) (xs : list Z) : Z :=
  match xs with [] => p | x :: xs => lst x xs end.

(** [xs] is linked through the (next, previous) pairs of [get], from [p] and towards [n]. *)
Fixpoint seg (get : Z -> option (Z * Z)) (p : Z) (xs : list Z) (n : Z) : Prop :=
  match xs with
  | [] => True
  | x :: xs => get x = Some (hd n xs, p) /\ seg get x xs n
  end.

(** What linking [left] to [right] makes of the cell at [z]. *)
Definition relink (left right : Z) (get : Z -> option (Z * Z)) (z : Z) : option (Z * Z) :=
  let c := if z =? left then (fun c => (right, c.2)) <$> get z else get z in
  if z =? right then (fun c => (c.1, left)) <$> c else c.

Lemma hd_app (n : Z) xs ys : hd n (xs ++ ys) = hd (hd n ys) xs.
Proof. by destruct xs. Qed.

Lemma lst_app p xs ys : lst p (xs ++ ys) = lst (lst p xs) ys.
Proof. revert p. induction xs as [|x xs IH]; intros p; [done|apply IH]. Qed.

Lemma lst_in p x xs : lst p (x :: xs) ∈ x :: xs.
Proof.
  revert p x. induction xs as [|y xs IH]; intros p x; [by left|]. right. apply (IH x y).
Qed.

Lemma hd_in n x (xs : list Z) : hd n (x :: xs) ∈ x :: xs.
Proof. by left. Qed.

Lemma seg_app get p xs ys n :
  seg get p (xs ++ ys) n <-> seg get p xs (hd n ys) /\ seg get (lst p xs) ys n.
Proof.
  revert p. induction xs as [|x xs IH]; intros p; simpl; [tauto|].
  rewrite IH, hd_app. tauto.
Qed.

Section Segments.
Context (get get' : Z -> option (Z * Z)).

Lemma seg_frame p xs n :
  (forall x, x ∈ xs -> get' x = get x) -> seg get p xs n -> seg get' p xs n.
Proof.
  revert p. induction xs as [|x xs IH]; intros p Hg; simpl; [done|]. intros [H1 H2].
  split; [rewrite Hg by (by left); done|]. apply IH; [|done]. intros y Hy. apply Hg. by right.
Qed.

(** The cell before the end of a segment gives its links. *)
Lemma seg_at p xs a ys n :
  seg get p (xs ++ a :: ys) n -> get a = Some (hd n ys, lst p xs).
Proof. rewrite seg_app. intros [_ [H _]]. done. Qed.

Lemma seg_last p xs n n' :
  NoDup xs ->
  (forall x, x ∈ xs -> get' x = if x =? lst p xs then (fun c => (n', c.2)) <$> get x else get x) ->
  seg get p xs n -> seg get' p xs n'.
Proof.
  revert p. induction xs as [|x xs IH]; intros p Hnd Hg; [done|].
  apply NoDup_cons in Hnd as [Hx Hnd]. intros [H1 H2]. simpl. split.
  - rewrite Hg by (by left). rewrite H1. destruct xs as [|y xs]; [by rewrite Z.eqb_refl|].
    destruct (Z.eqb_spec x (lst p (x :: y :: xs))) as [E|]; [|done].
    exfalso. apply Hx. rewrite E. apply (lst_in x).
  - apply IH; [done| |done]. intros z Hz. apply Hg. by right.
Qed.

Lemma seg_first p p' xs n :
  NoDup xs ->
  (forall x, x ∈ xs -> get' x = if x =? hd n xs then (fun c => (c.1, p')) <$> get x else get x) ->
  seg get p xs n -> seg get' p' xs n.
Proof.
  intros Hnd Hg. destruct xs as [|x xs]; [done|]. intros [H1 H2].
  apply NoDup_cons in Hnd as [Hx Hnd]. split.
  - rewrite Hg by (by left). cbn [hd]. by rewrite Z.eqb_refl, H1.
  - eapply seg_frame; [|exact H2]. intros y Hy. rewrite Hg by (by right). cbn [hd].
    destruct (Z.eqb_spec y x); [by subst|done].
Qed.

(** Linking the end of one segment to the start of another joins them. *)
Lemma seg_join p l r n x y :
  NoDup (l ++ r) -> (l = [] -> p ∉ r) -> (r = [] -> n ∉ l) ->
  (forall z, z ∈ l ++ r -> get' z = relink (lst p l) (hd n r) get z) ->
  seg get p l x -> seg get y r n -> seg get' p (l ++ r) n.
Proof.
  intros Hnd Hl Hr Hg Sl Sr. apply NoDup_app in Hnd as (Nl & Hd & Nr).
  assert (Hhd : forall z, z ∈ l -> z <> hd n r).
  { intros z Hz ->. destruct r as [|b r]; [by apply Hr|]. apply (Hd _ Hz), hd_in. }
  assert (Hls : forall z, z ∈ r -> z <> lst p l).
  { intros z Hz ->. destruct l as [|b l]; [by apply Hl|]. apply (Hd _ (lst_in p b l) Hz). }
  assert (Sl' : seg get' p l (hd n r)).
  { apply (seg_last p l x); [done| |done]. intros z Hz. rewrite Hg by (apply elem_of_app; by left).
    unfold relink. destruct (Z.eqb_spec z (hd n r)); [by destruct (Hhd z)|done]. }
  assert (Sr' : seg get' (lst p l) r n).
  { apply (seg_first y); [done| |done]. intros z Hz. rewrite Hg by (apply elem_of_app; by right).
    unfold relink. destruct (Z.eqb_spec z (lst p l)); [by destruct (Hls z)|done]. }
  by apply seg_app.
Qed.

End Segments.

(** ** Views of the memory *)

Definition lnk (m : gmap Z Fragment) (a : Z) : option (Z * Z) := (fun f => (next f, prev f)) <$> m !! a.
Definition flk (m : gmap Z Fragment) (a : Z) : option (Z * Z) :=
  (fun f => (next_free f, prev_free f)) <$> m !! a.
Definition dat (m : gmap Z Fragment) (a : Z) : option (Z * bool) := (fun f => (size f, used f)) <$> m !! a.

(** The headers of two memories are the same. *)
Definition same_headers (m m' : gmap Z Fragment) : Prop :=
  forall a, lnk m' a = lnk m a /\ dat m' a = dat m a.

Definition with_mem (h : O1HeapInstance) (m : gmap Z Fragment) : O1HeapInstance :=
  mkHeap (handle h) (bins h) (nonempty_bin_mask h) (critical_section_enter h)
    (critical_section_leave h) (diagnostics h) m (calls h).

Definition with_bins (h : O1HeapInstance) (bs : list Z) (mask : Z) (m : gmap Z Fragment) : O1HeapInstance :=
  mkHeap (handle h) bs mask (critical_section_enter h)
    (critical_section_leave h) (diagnostics h) m (calls h).

Lemma store_ok a g h f :
  a <> NULL -> mem h !! a = Some f -> store a g h = Some (with_mem h (<[a := g f]> (mem h))).
Proof.
  intros Ha Hm. unfold store. destruct (Z.eqb_spec a NULL); [done|]. by rewrite Hm.
Qed.

Lemma store_new a g h :
  a <> NULL -> store a g h = Some (with_mem h (<[a := g (default fragment0 (mem h !! a))]> (mem h))).
Proof. intros Ha. unfold store. by destruct (Z.eqb_spec a NULL). Qed.

Lemma lnk_insert m a f z : lnk (<[a := f]> m) z = if z =? a then Some (next f, prev f) else lnk m z.
Proof.
  unfold lnk. destruct (Z.eqb_spec z a) as [->|]; [by rewrite lookup_insert_eq|].
  by rewrite lookup_insert_ne by done.
Qed.

Lemma flk_insert m a f z :
  flk (<[a := f]> m) z = if z =? a then Some (next_free f, prev_free f) else flk m z.
Proof.
  unfold flk. destruct (Z.eqb_spec z a) as [->|]; [by rewrite lookup_insert_eq|].
  by rewrite lookup_insert_ne by done.
Qed.

Lemma dat_insert m a f z : dat (<[a := f]> m) z = if z =? a then Some (size f, used f) else dat m z.
Proof.
  unfold dat. destruct (Z.eqb_spec z a) as [->|]; [by rewrite lookup_insert_eq|].
  by rewrite lookup_insert_ne by done.
Qed.

Lemma interlink_ok h l r :
  (l <> NULL -> is_Some (mem h !! l)) -> (r <> NULL -> is_Some (mem h !! r)) ->
  exists m, interlink l r h = Some (with_mem h m) /\
    (forall z, z <> NULL -> lnk m z = relink l r (lnk (mem h)) z) /\
    (forall z, flk m z = flk (mem h) z) /\ (forall z, dat m z = dat (mem h) z).
Proof.
  intros Hl Hr. unfold interlink.
  assert (E1 : exists m, (if l =? NULL then Some h else store l (fun f => f <| next := r |>) h)
                         = Some (with_mem h m) /\
     (forall z, z <> NULL -> lnk m z = if z =? l then (fun c => (r, c.2)) <$> lnk (mem h) z else lnk (mem h) z) /\
     (forall z, flk m z = flk (mem h) z) /\ (forall z, dat m z = dat (mem h) z) /\
     (r <> NULL -> is_Some (m !! r))).
  { destruct (Z.eqb_spec l NULL) as [->|Hn].
    - exists (mem h). split; [by destruct h|]. split; [|done]. intros z Hz.
      destruct (Z.eqb_spec z NULL); done.
    - destruct (Hl Hn) as [f Ef]. eexists. split; [by apply (store_ok _ _ _ f)|].
      split; [|split; [|split]].
      + intros z _. rewrite lnk_insert. destruct (Z.eqb_spec z l) as [->|]; [|done].
        unfold lnk. by rewrite Ef.
      + intros z. rewrite flk_insert. destruct (Z.eqb_spec z l) as [->|]; [|done].
        unfold flk. by rewrite Ef.
      + intros z. rewrite dat_insert. destruct (Z.eqb_spec z l) as [->|]; [|done].
        unfold dat. by rewrite Ef.
      + intros Hrn. destruct (decide (r = l)) as [->|]; [by rewrite lookup_insert_eq|].
        rewrite lookup_insert_ne by done. by apply Hr. }
  destruct E1 as (m & -> & L1 & F1 & D1 & R1). cbn [option_bind mbind].
  destruct (Z.eqb_spec r NULL) as [->|Hn].
  - exists m. split; [done|]. split; [|done]. intros z Hz. rewrite L1 by done. unfold relink.
    destruct (Z.eqb_spec z NULL); done.
  - destruct (R1 Hn) as [f Ef]. eexists. split; [by apply (store_ok _ _ (with_mem h m) f)|].
    cbn [mem with_mem]. split; [|split].
    + intros z Hz. rewrite lnk_insert. unfold relink. destruct (Z.eqb_spec z r) as [->|]; [|by apply L1].
      rewrite <- L1 by done. unfold lnk. by rewrite Ef.
    + intros z. rewrite flk_insert, <- F1. destruct (Z.eqb_spec z r) as [->|]; [|done].
      unfold flk. by rewrite Ef.
    + intros z. rewrite dat_insert, <- D1. destruct (Z.eqb_spec z r) as [->|]; [|done].
      unfold dat. by rewrite Ef.
Qed.

(** ** What the bins hold *)

(** The sizes a fragment can have. *)
Definition valid_size (s : Z) : Prop := FRAGMENT_SIZE_MIN <= s <= FRAGMENT_SIZE_MAX /\ s mod FRAGMENT_SIZE_MIN = 0.

Lemma valid_size_bin s : valid_size s -> bin_index s = Z.log2 (s / 32) /\ 0 <= bin_index s <= 26.
Proof.
  intros [Hs _]. unfold bin_index. change FRAGMENT_SIZE_MIN with 32 in *.
  change FRAGMENT_SIZE_MAX with (2 ^ 31) in *.
  assert (1 <= s / 32 <= 2 ^ 26).
  { split; [apply Z.div_le_lower_bound; lia|apply Z.div_le_upper_bound; lia]. }
  rewrite log2Floor_spec by lia. split; [done|]. split; [apply Z.log2_nonneg|].
  change 26 with (Z.log2 (2 ^ 26)). apply Z.log2_le_mono. lia.
Qed.

(** [Fr a s]: the fragment at [a] is free and has size [s].  [B i] lists bin [i]. *)
Record bins_hold (bs : list Z) (mask : Z) (m : gmap Z Fragment) (Fr : Z -> Z -> Prop)
    (B : nat -> list Z) : Prop := {
  bh_length : length bs = 32%nat;
  bh_mask : fits 32 mask;
  bh_head : forall i, (i < 32)%nat -> bs !! i = Some (hd NULL (B i));
  bh_seg : forall i, (i < 32)%nat -> seg (flk m) NULL (B i) NULL;
  bh_nodup : forall i, NoDup (B i);
  bh_in : forall i a, a ∈ B i <-> exists s, Fr a s /\ Z.to_nat (bin_index s) = i;
  bh_bit : forall i, Z.testbit mask (Z.of_nat i) = negb (hd NULL (B i) =? NULL);
  bh_fun : forall a s s', Fr a s -> Fr a s' -> s = s';
  bh_valid : forall a s, Fr a s -> valid_size s /\ a <> NULL
}.

Definition bins_ok (bs : list Z) (mask : Z) (m : gmap Z Fragment) (Fr : Z -> Z -> Prop) : Prop :=
  exists B, bins_hold bs mask m Fr B.

Lemma bins_ok_ext bs mask m m' Fr Fr' :
  (forall a s, Fr a s <-> Fr' a s) -> (forall a s, Fr a s -> flk m' a = flk m a) ->
  bins_ok bs mask m Fr -> bins_ok bs mask m' Fr'.
Proof.
  intros HF Hm [B []]. exists B. constructor; try done.
  - intros i Hi. eapply seg_frame; [|by apply bh_seg0]. intros x Hx. apply bh_in0 in Hx as (s & Hs & _).
    by apply (Hm x s).
  - intros i a. rewrite bh_in0. by setoid_rewrite HF.
  - intros a s s' H1 H2. apply HF in H1, H2. by apply (bh_fun0 a).
  - intros a s H1. apply HF in H1. by apply bh_valid0.
Qed.

Lemma bins_null bs mask m Fr B i : bins_hold bs mask m Fr B -> NULL ∉ B i.
Proof. intros [] Hn. apply bh_in0 in Hn as (s & Hs & _). by apply bh_valid0 in Hs as [_ ?]. Qed.

Lemma lor_pow2_bit mask i j : 0 <= i < 32 -> 0 <= j ->
  Z.testbit (Z.lor mask (pow2 i)) j = Z.testbit mask j || (i =? j).
Proof. intros Hi Hj. by rewrite Z.lor_spec, pow2_spec, pow2_testbit by lia. Qed.

Lemma clear_pow2_bit mask i j : fits 32 mask -> 0 <= i < 32 -> 0 <= j ->
  Z.testbit (Z.land mask (u32 (Z.lnot (pow2 i)))) j = Z.testbit mask j && negb (i =? j).
Proof.
  intros Hm Hi Hj. rewrite Z.land_spec, wrap_testbit, Z.lnot_spec, pow2_spec, pow2_testbit by lia.
  destruct (Z.ltb_spec j 32) as [|Hge]; [by rewrite andb_true_r|].
  by rewrite (fits_testbit 32) by (done || lia).
Qed.

Lemma bin_nat_eqb s i : valid_size s -> (bin_index s =? Z.of_nat i) = bool_decide (Z.to_nat (bin_index s) = i).
Proof.
  intros Hs. destruct (valid_size_bin s Hs) as [_ Hb]. case_bool_decide; [apply Z.eqb_eq|apply Z.eqb_neq]; lia.
Qed.

(** The contents of a bin replaced. *)
Definition set_bin (B : nat -> list Z) (i : nat) (xs : list Z) (j : nat) : list Z :=
  if bool_decide (i = j) then xs else B j.

(** Replacing the list of one bin, with its head, its links and its bit. *)
Lemma bins_hold_set bs mask m Fr B m' mask' Fr' i xs :
  bins_hold bs mask m Fr B -> (i < 32)%nat ->
  seg (flk m') NULL xs NULL -> NoDup xs ->
  (forall j a, j <> i -> a ∈ B j -> flk m' a = flk m a) ->
  fits 32 mask' ->
  (forall j, Z.testbit mask' (Z.of_nat j)
     = if bool_decide (i = j) then negb (hd NULL xs =? NULL) else Z.testbit mask (Z.of_nat j)) ->
  (forall a, a ∈ xs <-> exists s, Fr' a s /\ Z.to_nat (bin_index s) = i) ->
  (forall a s, Z.to_nat (bin_index s) <> i -> Fr' a s <-> Fr a s) ->
  (forall a s s', Fr' a s -> Fr' a s' -> s = s') ->
  (forall a s, Fr' a s -> valid_size s /\ a <> NULL) ->
  bins_hold (<[i := hd NULL xs]> bs) mask' m' Fr' (set_bin B i xs).
Proof.
  intros [] Hi Hs Hn Hm Hf Hb Hin Hout Hfun Hval. constructor; try done; unfold set_bin.
  - by rewrite length_insert.
  - intros j Hj. case_bool_decide as E; [subst; apply list_lookup_insert_eq; lia|].
    rewrite list_lookup_insert_ne by done. by apply bh_head0.
  - intros j Hj. case_bool_decide as E; [done|]. eapply seg_frame; [|by apply bh_seg0].
    intros x Hx. by apply (Hm j).
  - intros j. by case_bool_decide.
  - intros j a. case_bool_decide as E; [subst; apply Hin|]. rewrite bh_in0.
    split; intros (s & H1 & H2); exists s; (split; [|done]); apply (Hout a s); congruence.
  - intros j. rewrite Hb. case_bool_decide; [done|apply bh_bit0].
Qed.

Section OneBin.
Context (bs : list Z) (mask : Z) (m : gmap Z Fragment) (Fr : Z -> Z -> Prop) (B : nat -> list Z).
Context (HB : bins_hold bs mask m Fr B).

(** A fragment is in one bin only. *)
Lemma bin_unique a i j : a ∈ B i -> a ∈ B j -> i = j.
Proof using HB.
  rewrite !(bh_in _ _ _ _ _ HB). intros (s & Hs & <-) (s' & Hs' & <-).
  by rewrite (bh_fun _ _ _ _ _ HB _ _ _ Hs Hs').
Qed.

(** The members of a bin are in memory. *)
Lemma bin_member i a : (i < 32)%nat -> a ∈ B i -> exists f, m !! a = Some f.
Proof using HB.
  intros Hi Ha. pose proof (bh_seg _ _ _ _ _ HB i Hi) as Hs.
  apply list_elem_of_split in Ha as (xs & ys & E). rewrite E in Hs. apply seg_at in Hs.
  unfold flk in Hs. destruct (m !! a); [by eexists|done].
Qed.

Lemma bin_head i : hd NULL (B i) <> NULL -> hd NULL (B i) ∈ B i.
Proof using. destruct (B i); [done|by left]. Qed.

(** The bins after a fragment became the head of its list. *)
Lemma rebin_hold m' a s :
  a <> NULL -> valid_size s -> (forall s, ~ Fr a s) ->
  let i := Z.to_nat (bin_index s) in let first := hd NULL (B i) in
  flk m' a = Some (first, NULL) ->
  (first <> NULL -> flk m' first = (fun c => (c.1, a)) <$> flk m first) ->
  (forall z, z <> a -> z <> first -> flk m' z = flk m z) ->
  bins_hold (<[i := a]> bs) (Z.lor mask (pow2 (bin_index s))) m'
    (fun x t => Fr x t \/ (x = a /\ t = s)) (set_bin B i (a :: B i)).
Proof using HB.
  intros Hn Hv Hfresh i first Fa Ff Fo. destruct (valid_size_bin _ Hv) as [_ Hb].
  assert (Hi : (i < 32)%nat) by lia.
  assert (HaB : forall j, a ∉ B j).
  { intros j Hj. apply (bh_in _ _ _ _ _ HB) in Hj as (t & Ht & _). by apply (Hfresh t). }
  change a with (hd NULL (a :: B i)) at 1.
  apply (bins_hold_set bs mask m Fr); try done.
  - split; [done|]. apply (seg_first (flk m) (flk m') NULL); [apply HB| |by apply HB].
    intros x Hx. fold first. destruct (Z.eqb_spec x first) as [->|Hx'].
    + apply Ff. intros E. rewrite E in Hx. by apply (bins_null _ _ _ _ _ i HB).
    + apply Fo; [|done]. intros ->. by apply (HaB i).
  - apply NoDup_cons. split; [apply HaB|apply HB].
  - intros j x Hj Hx. apply Fo; intros ->; [by apply (HaB j)|].
    apply Hj, (bin_unique first); [done|]. apply bin_head. intros E. fold first in E. rewrite E in Hx.
    by apply (bins_null _ _ _ _ _ j HB).
  - apply fits_lor; [lia|apply HB|]. apply (wrap_fits 32). lia.
  - intros j. rewrite lor_pow2_bit, bin_nat_eqb by (done || lia). fold i. cbn [hd].
    rewrite (proj2 (Z.eqb_neq a NULL) Hn). case_bool_decide; [apply orb_true_r|apply orb_false_r].
  - intros x. rewrite elem_of_cons, (bh_in _ _ _ _ _ HB). split.
    + intros [->|(t & Ht & Et)]; [exists s|exists t]; auto.
    + intros (t & [Ht|[-> ->]] & Et); [right; by exists t|by left].
  - intros x t Ht. split; [intros [|[-> ->]]; [done|]|by left]. by destruct Ht.
  - intros x t t' [H1|[-> ->]] [H2|[H3 H4]]; subst; try done; [by apply (bh_fun _ _ _ _ _ HB x)| |].
    + by destruct (Hfresh t).
    + by destruct (Hfresh t').
  - intros x t [H1|[-> ->]]; [by apply (bh_valid _ _ _ _ _ HB)|by split].
Qed.

(** The bins after a fragment was taken out of its list. *)
Lemma unbin_hold m' mask' a s l r :
  Fr a s ->
  let i := Z.to_nat (bin_index s) in
  B i = l ++ a :: r ->
  (forall z, z <> NULL -> flk m' z = relink (lst NULL l) (hd NULL r) (flk m) z) ->
  fits 32 mask' ->
  (forall j, Z.testbit mask' (Z.of_nat j)
     = if bool_decide (i = j) then negb (hd NULL (l ++ r) =? NULL) else Z.testbit mask (Z.of_nat j)) ->
  bins_hold (<[i := hd NULL (l ++ r)]> bs) mask' m' (fun x t => Fr x t /\ x <> a) (set_bin B i (l ++ r)).
Proof using HB.
  intros Ha i EB Fm Hf Hbit. destruct (bh_valid _ _ _ _ _ HB a s Ha) as [Hv Hn].
  destruct (valid_size_bin _ Hv) as [_ Hb]. assert (Hi : (i < 32)%nat) by lia.
  pose proof (bh_nodup _ _ _ _ _ HB i) as Hnd. rewrite EB in Hnd.
  assert (Hnd' : NoDup (l ++ r) /\ a ∉ l ++ r).
  { rewrite <- Permutation_middle in Hnd. apply NoDup_cons in Hnd as [? ?]. done. }
  destruct Hnd' as [Hlr Halr].
  assert (Hmem : forall x, x ∈ B i <-> x ∈ l ++ r \/ x = a).
  { intros x. rewrite EB, !elem_of_app, elem_of_cons. tauto. }
  assert (HN : NULL ∉ l ++ r).
  { intros H. apply (bins_null _ _ _ _ _ i HB). apply Hmem. by left. }
  pose proof (bh_seg _ _ _ _ _ HB i Hi) as Hs. rewrite EB in Hs. apply seg_app in Hs as [Hs1 [_ Hs2]].
  apply (bins_hold_set bs mask m Fr); try done.
  - apply (seg_join (flk m) (flk m') NULL l r NULL a a); try done.
    + intros _ H. apply HN, elem_of_app. by right.
    + intros _ H. apply HN, elem_of_app. by left.
    + intros z Hz. apply Fm. by intros ->.
  - intros j x Hj Hx.
    assert (Hout : x ∉ B i) by (intros H; by apply Hj, (bin_unique x)).
    assert (x <> NULL) by (intros ->; by apply (bins_null _ _ _ _ _ j HB)).
    rewrite Fm by done. unfold relink.
    destruct (Z.eqb_spec x (lst NULL l)) as [E|_].
    { exfalso. destruct l as [|b l]; [done|]. apply Hout, Hmem. left. apply elem_of_app. left.
      rewrite E. apply lst_in. }
    destruct (Z.eqb_spec x (hd NULL r)) as [E|_]; [|done].
    exfalso. destruct r as [|b r]; [done|]. apply Hout, Hmem. left. apply elem_of_app. right.
    rewrite E. apply hd_in.
  - intros x. split.
    + intros Hx. destruct (proj1 (bh_in _ _ _ _ _ HB i x)) as (t & Ht & Et); [apply Hmem; by left|].
      exists t. split; [|done]. split; [done|]. by intros ->.
    + intros (t & [Ht Hxa] & Et). destruct (proj1 (Hmem x)) as [|]; [|done|done].
      apply (bh_in _ _ _ _ _ HB). by exists t.
  - intros x t Ht. split; [by intros [? _]|]. intros H. split; [done|]. intros ->.
    apply Ht. by rewrite (bh_fun _ _ _ _ _ HB a t s H Ha).
  - intros x t t' [H1 _] [H2 _]. by apply (bh_fun _ _ _ _ _ HB x).
  - intros x t [H1 _]. by apply (bh_valid _ _ _ _ _ HB).
Qed.

End OneBin.

(** A store into the links of the free list leaves the headers. *)
Lemma store_free_link h a g f :
  (forall f, next (g f) = next f /\ prev (g f) = prev f /\ size (g f) = size f /\ used (g f) = used f) ->
  a <> NULL -> mem h !! a = Some f ->
  exists m, store a g h = Some (with_mem h m) /\ same_headers (mem h) m /\
    m !! a = Some (g f) /\ (forall z, z <> a -> m !! z = mem h !! z).
Proof.
  intros Hg Ha Hf. exists (<[a := g f]> (mem h)). split; [by apply store_ok|].
  split; [|split; [apply lookup_insert_eq|intros z Hz; by apply lookup_insert_ne]].
  destruct (Hg f) as (E1 & E2 & E3 & E4). intros z. rewrite lnk_insert, dat_insert, E1, E2, E3, E4.
  destruct (Z.eqb_spec z a) as [->|]; [|done]. unfold lnk, dat. by rewrite Hf.
Qed.

Lemma same_headers_trans m1 m2 m3 : same_headers m1 m2 -> same_headers m2 m3 -> same_headers m1 m3.
Proof. intros H1 H2 a. destruct (H1 a) as [<- <-]. apply H2. Qed.

(** The links that [rebin] writes: the fragment becomes the head of the list. *)
Lemma rebin_links h a f first :
  mem h !! a = Some f -> a <> NULL -> a <> first -> (first <> NULL -> is_Some (mem h !! first)) ->
  exists m,
    (forall k : O1HeapInstance -> option O1HeapInstance,
      (h ← store a (fun f => f <| next_free := first |> <| prev_free := NULL |>) h;
       h ← (if first =? NULL then Some h else store first (fun f => f <| prev_free := a |>) h);
       k h) = k (with_mem h m)) /\
    same_headers (mem h) m /\ flk m a = Some (first, NULL) /\
    (first <> NULL -> flk m first = (fun c => (c.1, a)) <$> flk (mem h) first) /\
    (forall z, z <> a -> z <> first -> flk m z = flk (mem h) z).
Proof.
  intros Ha Hn Hne Hf.
  destruct (store_free_link h a (fun f => f <| next_free := first |> <| prev_free := NULL |>) f)
    as (m1 & -> & S1 & A1 & O1); [done..|]. cbn [mbind option_bind].
  destruct (Z.eqb_spec first NULL) as [E|E].
  - exists m1. split; [done|]. split; [done|]. split; [unfold flk; by rewrite A1|].
    split; [done|]. intros z Hz _. unfold flk. by rewrite O1.
  - destruct (Hf E) as [g Eg].
    destruct (store_free_link (with_mem h m1) first (fun f => f <| prev_free := a |>) g)
      as (m2 & -> & S2 & A2 & O2); [done|done|cbn; by rewrite O1|]. cbn [mem with_mem] in *.
    exists m2. split; [done|]. split; [by eapply same_headers_trans|]. unfold flk.
    split; [rewrite O2, A1 by done; done|]. split; [by rewrite A2, Eg|].
    intros z H1 H2. by rewrite O2, O1.
Qed.

(** [rebin] adds one fragment to the free ones. *)
Lemma rebin_ok h a f Fr :
  bins_ok (bins h) (nonempty_bin_mask h) (mem h) Fr ->
  mem h !! a = Some f -> a <> NULL -> valid_size (size f) -> (forall s, ~ Fr a s) ->
  exists bs mask m, rebin a h = Some (with_bins h bs mask m) /\
    bins_ok bs mask m (fun x s => Fr x s \/ (x = a /\ s = size f)) /\ same_headers (mem h) m.
Proof.
  intros [B HB] Ha Hn Hv Hfresh. destruct (valid_size_bin _ Hv) as [_ Hb].
  assert (HaB : forall j, a ∉ B j).
  { intros j Hj. apply (bh_in _ _ _ _ _ HB) in Hj as (s & Hs & _). by apply (Hfresh s). }
  set (i := Z.to_nat (bin_index (size f))). assert (Hi : (i < 32)%nat) by lia.
  set (first := hd NULL (B i)).
  destruct (rebin_links h a f first) as (m & Em & Sm & Fa & Ff & Fo); [done|done| | |].
  { intros E. unfold first in E. destruct (B i) eqn:EB; [done|]. apply (HaB i). rewrite EB, E. by left. }
  { intros E. destruct (bin_member _ _ _ _ _ HB i first Hi (bin_head B i E)) as [g ->]. done. }
  unfold rebin, load. rewrite Ha. cbn [mbind option_bind].
  rewrite (proj2 (Z.leb_le _ _) (proj1 (proj1 Hv))), (proj2 Hv), Z.eqb_refl.
  rewrite (proj2 (Z.ltb_lt (bin_index (size f)) NUM_BINS_MAX)) by (unfold NUM_BINS_MAX; lia).
  fold i. rewrite (bh_head _ _ _ _ _ HB i Hi). cbn [mbind option_bind]. fold first.
  do 3 eexists. split; [rewrite Em; reflexivity|]. split; [|exact Sm]. eexists. by apply (rebin_hold _ _ (mem h)).
Qed.

(** The links that [unbin] writes: the neighbours in the list are linked to each other. *)
Lemma unbin_links h nx pv :
  (nx <> NULL -> is_Some (mem h !! nx)) -> (pv <> NULL -> is_Some (mem h !! pv)) ->
  exists m,
    (forall k : O1HeapInstance -> option O1HeapInstance,
      (h ← (if nx =? NULL then Some h else store nx (fun g => g <| prev_free := pv |>) h);
       h ← (if pv =? NULL then Some h else store pv (fun g => g <| next_free := nx |>) h);
       k h) = k (with_mem h m)) /\
    same_headers (mem h) m /\
    (forall z, z <> NULL -> flk m z = relink pv nx (flk (mem h)) z).
Proof.
  intros Hn Hp.
  assert (E1 : exists m,
    (if nx =? NULL then Some h else store nx (fun g => g <| prev_free := pv |>) h) = Some (with_mem h m) /\
    same_headers (mem h) m /\ (pv <> NULL -> is_Some (m !! pv)) /\
    (forall z, z <> NULL -> flk m z = if z =? nx then (fun c => (c.1, pv)) <$> flk (mem h) z else flk (mem h) z)).
  { destruct (Z.eqb_spec nx NULL) as [->|E].
    - exists (mem h). split; [by destruct h|]. split; [done|]. split; [done|]. intros z Hz.
      by destruct (Z.eqb_spec z NULL).
    - destruct (Hn E) as [f Ef].
      destruct (store_free_link h nx (fun g => g <| prev_free := pv |>) f) as (m & -> & S & A & O); [done..|].
      exists m. split; [done|]. split; [done|]. split.
      + intros Hpn. destruct (decide (pv = nx)) as [->|]; [by rewrite A|]. rewrite O by done. by apply Hp.
      + intros z Hz. unfold flk. destruct (Z.eqb_spec z nx) as [->|]; [by rewrite A, Ef|by rewrite O]. }
  destruct E1 as (m1 & -> & S1 & P1 & F1). cbn [mbind option_bind]. unfold relink.
  destruct (Z.eqb_spec pv NULL) as [->|E].
  - exists m1. split; [done|]. split; [done|]. intros z Hz. rewrite F1 by done.
    by destruct (Z.eqb_spec z NULL).
  - destruct (P1 E) as [g Eg].
    destruct (store_free_link (with_mem h m1) pv (fun f => f <| next_free := nx |>) g)
      as (m2 & -> & S2 & A2 & O2); [done..|]. cbn [mem with_mem] in *.
    exists m2. split; [done|]. split; [by eapply same_headers_trans|]. intros z Hz.
    destruct (Z.eqb_spec z pv) as [->|Hzp].
    + unfold flk at 1. rewrite A2. specialize (F1 pv Hz). unfold flk at 1 in F1. rewrite Eg in F1.
      destruct (flk (mem h) pv) as [[u v]|]; destruct (Z.eqb_spec pv nx); cbn in *;
        unfold RecordSettersUsingExistingGetters.const; congruence.
    + rewrite <- F1 by done. unfold flk. by rewrite O2.
Qed.

Lemma lst_member p xs : lst p xs = p \/ lst p xs ∈ xs.
Proof. destruct xs; [by left|right; apply lst_in]. Qed.

(** [unbin] removes one fragment from the free ones. *)
Lemma unbin_ok h a f Fr :
  bins_ok (bins h) (nonempty_bin_mask h) (mem h) Fr ->
  mem h !! a = Some f -> Fr a (size f) ->
  exists bs mask m, unbin a h = Some (with_bins h bs mask m) /\
    bins_ok bs mask m (fun x s => Fr x s /\ x <> a) /\ same_headers (mem h) m.
Proof.
  intros [B HB] Ha HF. destruct (bh_valid _ _ _ _ _ HB a _ HF) as [Hv Hn].
  destruct (valid_size_bin _ Hv) as [_ Hb].
  set (i := Z.to_nat (bin_index (size f))). assert (Hi : (i < 32)%nat) by lia.
  assert (HaB : a ∈ B i) by (apply (bh_in _ _ _ _ _ HB); eauto).
  apply list_elem_of_split in HaB as (l & r & EB).
  pose proof (bh_seg _ _ _ _ _ HB i Hi) as Hs. rewrite EB in Hs. apply seg_at in Hs.
  unfold flk in Hs. rewrite Ha in Hs. injection Hs as En Ep.
  assert (HM : forall x, x ∈ l \/ x ∈ r -> is_Some (mem h !! x)).
  { intros x Hx. destruct (bin_member _ _ _ _ _ HB i x Hi) as [g ->]; [|done].
    rewrite EB, elem_of_app, elem_of_cons. tauto. }
  destruct (unbin_links h (next_free f) (prev_free f)) as (m & Em & Sm & Fm).
  { rewrite En. intros E. apply HM. right. destruct r; [done|apply hd_in]. }
  { rewrite Ep. intros E. apply HM. left. by destruct (lst_member NULL l). }
  unfold unbin, load. rewrite Ha. cbn [mbind option_bind].
  rewrite (proj2 (Z.leb_le _ _) (proj1 (proj1 Hv))), (proj2 Hv), Z.eqb_refl.
  rewrite (proj2 (Z.ltb_lt (bin_index (size f)) NUM_BINS_MAX)) by (unfold NUM_BINS_MAX; lia).
  rewrite Em. fold i. cbn [bins with_mem]. rewrite (bh_head _ _ _ _ _ HB i Hi). cbn [mbind option_bind].
  rewrite En, Ep in *.
  pose proof (unbin_hold _ _ _ _ _ HB m) as Hnew. fold i in Hnew.
  rewrite EB. destruct l as [|b l]; cbn [app hd].
  - rewrite Z.eqb_refl. cbn [lst]. rewrite Z.eqb_refl. destruct (Z.eqb_spec (hd NULL r) NULL) as [Er|Er].
    + exists (<[i := hd NULL r]> (bins h)),
        (Z.land (nonempty_bin_mask h) (u32 (Z.lnot (pow2 (bin_index (size f)))))), m.
      split; [reflexivity|]. split; [|exact Sm]. eexists.
      apply (Hnew _ a (size f) [] r); try done.
      * apply fits_land_l; [lia|apply HB|]. apply (wrap_fits 32). lia.
      * intros j. rewrite clear_pow2_bit, bin_nat_eqb; [|done|apply HB|lia|lia]. fold i. cbn [app].
        rewrite Er. case_bool_decide; [by rewrite andb_false_r|apply andb_true_r].
    + do 3 eexists. split; [reflexivity|]. split; [|exact Sm]. eexists.
      apply (Hnew _ a (size f) [] r); try done; [apply HB|]. intros j. cbn [app].
      case_bool_decide as Ej; [rewrite <- Ej|done]. fold i.
      rewrite (bh_bit _ _ _ _ _ HB), EB. cbn [app hd].
      rewrite (proj2 (Z.eqb_neq _ _) Hn), (proj2 (Z.eqb_neq _ _) Er). done.
  - assert (Hba : b <> a).
    { pose proof (bh_nodup _ _ _ _ _ HB i) as Hnd. rewrite EB in Hnd. intros ->.
      apply NoDup_cons in Hnd as [Hnd _]. apply Hnd, elem_of_app. right. by left. }
    rewrite (proj2 (Z.eqb_neq _ _) Hba). do 3 eexists. split; [reflexivity|]. split; [|exact Sm].
    cbn [bins nonempty_bin_mask mem with_mem].
    rewrite <- (list_insert_id (bins h) i b) by (rewrite (bh_head _ _ _ _ _ HB i Hi), EB; done).
    eexists. apply (Hnew _ a (size f) (b :: l) r); try done; [apply HB|]. intros j.
    case_bool_decide as Ej; [rewrite <- Ej|done]. fold i. by rewrite (bh_bit _ _ _ _ _ HB), EB.
Qed.

End O1HeapBins.
