(* ===== verification/O1HeapLayout.v ===== *)
(** * The chain of fragments of the O(1) heap

    The arena as a list of blocks: [chain] ties the list to the headers in memory.  Each
    step of allocation and release on the headers is shown to change the list as intended:
    a block is resized or marked, a block is split in two, neighbours are joined. *)
From stdpp Require Import gmap.
From coqutil Require Import Datatypes.RecordSettersUsingExistingGetters.
From S2P Require Import Prelude O1Heap O1HeapBits O1HeapBins.
Import O1Heap O1HeapBits O1HeapBins.
Local Open Scope Z_scope.

Module O1HeapLayout.

Record block := mkBlock { baddr : Z; bsize : Z; bused : bool }.

#[export] Instance block_eq_dec : EqDecision block.
Proof. solve_decision. Defined.

(** The headers in memory describe the blocks, in order. *)
Record chain (m : gmap Z Fragment) (L : list block) : Prop := {
  ch_seg : seg (lnk m) NULL (map baddr L) NULL;
  ch_dat : forall b, b ∈ L -> dat m (baddr b) = Some (bsize b, bused b);
  ch_nodup : NoDup (map baddr L);
  ch_null : NULL ∉ map baddr L
}.

(** The free blocks, as the bins see them. *)
Definition frees (L : list block) (a s : Z) : Prop := mkBlock a s false ∈ L.

Definition bins_of (h : O1HeapInstance) (Fr : Z -> Z -> Prop) : Prop :=
  bins_ok (bins h) (nonempty_bin_mask h) (mem h) Fr.

(** The address of the block before and after a place in the list. *)
Definition addr_before (l : list block) : Z := lst NULL (map baddr l).
Definition addr_after (r : list block) : Z := hd NULL (map baddr r).

Lemma dat_inv m a s u : dat m a = Some (s, u) -> exists f, m !! a = Some f /\ size f = s /\ used f = u.
Proof. unfold dat. destruct (m !! a) as [f|]; [|done]. intros [= <- <-]. by exists f. Qed.

Lemma addr_in b L : b ∈ L -> baddr b ∈ map baddr L.
Proof. intros H. apply list_elem_of_fmap. by exists b. Qed.

Section Chain.
Context (m : gmap Z Fragment).

Lemma chain_not_null L b : chain m L -> b ∈ L -> baddr b <> NULL.
Proof using. intros H Hb E. apply (ch_null _ _ H). rewrite <- E. by apply addr_in. Qed.

(** What the header of a block holds. *)
Lemma chain_load l b r :
  chain m (l ++ b :: r) ->
  exists f, m !! baddr b = Some f /\ next f = addr_after r /\ prev f = addr_before l /\
            size f = bsize b /\ used f = bused b.
Proof using.
  intros H. destruct (dat_inv m (baddr b) (bsize b) (bused b)) as (f & Ef & Es & Eu).
  { apply (ch_dat _ _ H). apply elem_of_app. right. by left. }
  exists f. split; [done|]. pose proof (ch_seg _ _ H) as Hs. rewrite map_app in Hs. cbn [map] in Hs.
  apply seg_at in Hs. unfold lnk in Hs. rewrite Ef in Hs. by injection Hs as -> ->.
Qed.

Lemma chain_in_memory L b : chain m L -> b ∈ L -> is_Some (m !! baddr b).
Proof using.
  intros H Hb. destruct (dat_inv _ _ _ _ (ch_dat _ _ H b Hb)) as (f & -> & _). done.
Qed.

Lemma chain_before l r : chain m (l ++ r) -> addr_before l <> NULL -> is_Some (m !! addr_before l).
Proof using.
  intros H Hn. unfold addr_before in *. destruct (lst_member NULL (map baddr l)) as [|Hin]; [done|].
  apply list_elem_of_fmap in Hin as (b & -> & Hb). apply (chain_in_memory (l ++ r)); [done|].
  apply elem_of_app. by left.
Qed.

Lemma chain_after l r : chain m (l ++ r) -> addr_after r <> NULL -> is_Some (m !! addr_after r).
Proof using.
  intros H Hn. unfold addr_after in *. destruct r as [|b r]; [done|]. apply (chain_in_memory (l ++ b :: r)); [done|].
  apply elem_of_app. right. by left.
Qed.

(** The address determines the block. *)
Lemma chain_addr_inj L b b' : chain m L -> b ∈ L -> b' ∈ L -> baddr b = baddr b' -> b = b'.
Proof using.
  intros H Hb Hb' E. pose proof (ch_dat _ _ H b Hb) as D. pose proof (ch_dat _ _ H b' Hb') as D'.
  rewrite E in D. rewrite D in D'. destruct b, b'; simplify_eq/=. done.
Qed.

End Chain.

Lemma chain_same m m' L : same_headers m m' -> chain m L -> chain m' L.
Proof.
  intros HS []. constructor; try done.
  - eapply seg_frame; [|exact ch_seg0]. intros x _. apply HS.
  - intros b Hb. rewrite (proj2 (HS _)). by apply ch_dat0.
Qed.

(** A store that changes the size or the mark of one block. *)
Lemma store_chain h l b r g s u :
  chain (mem h) (l ++ b :: r) ->
  (forall f, next (g f) = next f /\ prev (g f) = prev f /\
             next_free (g f) = next_free f /\ prev_free (g f) = prev_free f) ->
  (forall f, size f = bsize b -> used f = bused b -> size (g f) = s /\ used (g f) = u) ->
  exists m, store (baddr b) g h = Some (with_mem h m) /\
    chain m (l ++ mkBlock (baddr b) s u :: r) /\ (forall z, flk m z = flk (mem h) z).
Proof.
  intros H Hg Hd. destruct (chain_load _ _ _ _ H) as (f & Ef & _ & _ & Es & Eu).
  destruct (Hd f Es Eu) as [Es' Eu']. destruct (Hg f) as (G1 & G2 & G3 & G4).
  assert (Hin : b ∈ l ++ b :: r) by (apply elem_of_app; right; by left).
  exists (<[baddr b := g f]> (mem h)). split; [apply store_ok; [|done]; by eapply chain_not_null|].
  assert (EL : map baddr (l ++ mkBlock (baddr b) s u :: r) = map baddr (l ++ b :: r)) by (by rewrite !map_app).
  split.
  - constructor; rewrite ?EL; [|intros c Hc|apply H|apply H].
    + eapply seg_frame; [|apply H]. intros x _. rewrite lnk_insert, G1, G2.
      destruct (Z.eqb_spec x (baddr b)) as [->|]; [|done]. unfold lnk. by rewrite Ef.
    + rewrite dat_insert, Es', Eu'. destruct (Z.eqb_spec (baddr c) (baddr b)) as [Ec|Ec].
      * apply elem_of_app in Hc. rewrite elem_of_cons in Hc.
        assert (c = mkBlock (baddr b) s u) as ->; [|done].
        destruct Hc as [Hc|[Hc|Hc]]; [|done|]; exfalso; pose proof (ch_nodup _ _ H) as Hnd;
          rewrite map_app in Hnd; cbn [map] in Hnd; apply NoDup_app in Hnd as (_ & N1 & N2).
        -- apply (N1 (baddr c)); [by apply addr_in|]. rewrite Ec. by left.
        -- apply NoDup_cons in N2 as [N2 _]. apply N2. rewrite <- Ec. by apply addr_in.
      * apply (ch_dat _ _ H). apply elem_of_app in Hc as [Hc|Hc]; apply elem_of_app; [by left|right].
        apply elem_of_cons in Hc as [->|Hc]; [done|by right].
  - intros z. rewrite flk_insert, G3, G4. destruct (Z.eqb_spec z (baddr b)) as [->|]; [|done].
    unfold flk. by rewrite Ef.
Qed.

(** Linking a block to a later one takes out those between. *)
Lemma interlink_drop h l b mid r :
  chain (mem h) (l ++ b :: mid ++ r) ->
  exists m, interlink (baddr b) (addr_after r) h = Some (with_mem h m) /\
    chain m (l ++ b :: r) /\ (forall z, flk m z = flk (mem h) z).
Proof.
  intros H.
  destruct (interlink_ok h (baddr b) (addr_after r)) as (m & Em & Lm & Fm & Dm).
  { intros _. apply (chain_in_memory _ _ _ H). apply elem_of_app. right. by left. }
  { apply (chain_after _ (l ++ b :: mid)). by rewrite <- app_assoc. }
  exists m. split; [done|]. split; [|done].
  assert (Hsub : forall c, c ∈ l ++ b :: r -> c ∈ l ++ b :: mid ++ r).
  { intros c. rewrite !elem_of_app, !elem_of_cons, elem_of_app. tauto. }
  assert (HN : NULL ∉ map baddr (l ++ b :: r)).
  { intros Hn. apply list_elem_of_fmap in Hn as (c & E & Hc). by apply (chain_not_null _ _ c H (Hsub c Hc)). }
  pose proof (ch_nodup _ _ H) as Hnd. pose proof (ch_seg _ _ H) as Hs.
  assert (EL : forall r, map baddr (l ++ b :: r) = map baddr (l ++ [b]) ++ map baddr r).
  { intros r'. rewrite <- map_app, <- app_assoc. done. }
  rewrite EL in Hnd, Hs. rewrite (map_app baddr mid r) in Hnd, Hs. rewrite app_assoc in Hs.
  assert (Hnd' : NoDup (map baddr (l ++ [b]) ++ map baddr r)).
  { rewrite Permutation_app_swap_app in Hnd. by apply NoDup_app in Hnd as (_ & _ & ?). }
  rewrite EL in HN. apply seg_app in Hs as [Hs1 Hs2]. apply seg_app in Hs1 as [Hs1 _].
  constructor; rewrite ?(EL r); [|intros c Hc; rewrite Dm; by apply (ch_dat _ _ H), Hsub|done|done].
  eapply (seg_join (lnk (mem h))); [done|by destruct l| |intros z Hz|exact Hs1|exact Hs2].
  - intros _ Hn. apply HN, elem_of_app. by left.
  - rewrite Lm by (by intros ->). by rewrite map_app, lst_app.
Qed.

(** Linking a new block in behind another. *)
Lemma interlink_insert h l b r new s u :
  chain (mem h) (l ++ b :: r) -> new <> NULL -> new ∉ map baddr (l ++ b :: r) ->
  dat (mem h) new = Some (s, u) ->
  exists m, (forall k : O1HeapInstance -> option O1HeapInstance,
      (h ← interlink new (addr_after r) h; h ← interlink (baddr b) new h; k h) = k (with_mem h m)) /\
    chain m (l ++ b :: mkBlock new s u :: r) /\ (forall z, flk m z = flk (mem h) z).
Proof.
  intros H Hn Hfresh Hd. destruct (dat_inv _ _ _ _ Hd) as (f & Ef & _ & _).
  assert (Hb : b ∈ l ++ b :: r) by (apply elem_of_app; right; by left).
  assert (Hbn : new <> baddr b) by (intros ->; by apply Hfresh, addr_in).
  destruct (interlink_ok h new (addr_after r)) as (m1 & -> & L1 & F1 & D1).
  { intros _. by rewrite Ef. }
  { apply (chain_after _ (l ++ [b])). by rewrite <- app_assoc. }
  cbn [mbind option_bind].
  destruct (interlink_ok (with_mem h m1) (baddr b) new) as (m2 & Em & L2 & F2 & D2); cbn [mem with_mem] in *.
  { intros _. destruct (dat_inv m1 (baddr b) (bsize b) (bused b)) as (g & -> & _); [|done].
    rewrite D1. by apply (ch_dat _ _ H). }
  { intros _. destruct (dat_inv m1 new s u) as (g & -> & _); [by rewrite D1|done]. }
  rewrite Em. exists m2. split; [done|]. split; [|intros z; by rewrite F2, F1].
  pose proof (ch_nodup _ _ H) as Hnd. pose proof (ch_seg _ _ H) as Hs. pose proof (ch_null _ _ H) as HN.
  assert (EL : forall r, map baddr (l ++ b :: r) = map baddr (l ++ [b]) ++ map baddr r).
  { intros r'. rewrite <- map_app, <- app_assoc. done. }
  rewrite EL in Hnd, Hs, HN, Hfresh. apply seg_app in Hs as [Hs1 Hs2].
  assert (Hr : NoDup (new :: map baddr r)).
  { apply NoDup_cons. split; [|by apply NoDup_app in Hnd as (_ & _ & ?)].
    intros Hi. apply Hfresh, elem_of_app. by right. }
  assert (Hnew : NoDup (map baddr (l ++ [b]) ++ new :: map baddr r)).
  { rewrite <- Permutation_middle. by apply NoDup_cons. }
  assert (HNnew : NULL ∉ map baddr (l ++ [b]) ++ new :: map baddr r).
  { rewrite elem_of_app, elem_of_cons. rewrite elem_of_app in HN. intros [?|[?|?]]; [tauto|congruence|tauto]. }
  assert (S1 : seg (lnk m1) (prev f) ([new] ++ map baddr r) NULL).
  { eapply (seg_join (lnk (mem h))); [done|done| |intros z Hz|split;[|done]|exact Hs2].
    - intros _ Hi. apply list_elem_of_singleton in Hi. congruence.
    - apply L1. intros ->. apply HNnew, elem_of_app. by right.
    - unfold lnk. by rewrite Ef. }
  constructor; rewrite ?(EL (mkBlock new s u :: r)); cbn [map baddr]; [|intros c Hc|done|done].
  - eapply (seg_join (lnk m1)); [done|by destruct l|done|intros z Hz| |exact S1].
    + rewrite L2 by (by intros ->). by rewrite map_app, lst_app.
    + eapply seg_frame; [|exact Hs1]. intros x Hx.
      assert (x <> NULL) by (intros ->; apply HN, elem_of_app; by left).
      rewrite L1 by done. unfold relink. destruct (Z.eqb_spec x new) as [->|].
      { exfalso. apply Hfresh, elem_of_app. by left. }
      destruct (Z.eqb_spec x (addr_after r)) as [E|]; [|done]. exfalso.
      apply NoDup_app in Hnd as (_ & Hd' & _). apply (Hd' x Hx). unfold addr_after in E.
      destruct (map baddr r); [done|]. rewrite E. by left.
  - rewrite D2, D1. rewrite elem_of_app, !elem_of_cons in Hc.
    destruct Hc as [Hc|[->|[->|Hc]]]; [|by apply (ch_dat _ _ H)|done|]; apply (ch_dat _ _ H);
      rewrite elem_of_app, elem_of_cons; auto.
Qed.

(** ** Free blocks and bins *)

Lemma frees_app l r x t : frees (l ++ r) x t <-> frees l x t \/ frees r x t.
Proof. apply elem_of_app. Qed.

Lemma frees_cons b r x t :
  frees (b :: r) x t <-> (x = baddr b /\ t = bsize b /\ bused b = false) \/ frees r x t.
Proof.
  unfold frees. rewrite elem_of_cons. split; intros [H|H]; [left; by rewrite <- H|by right| |by right].
  left. destruct b, H as (-> & -> & H); cbn in *. by rewrite H.
Qed.

Lemma frees_nil x t : frees [] x t <-> False.
Proof. unfold frees. by rewrite elem_of_nil. Qed.

Lemma frees_minus m l b r x t :
  chain m (l ++ b :: r) -> frees (l ++ b :: r) x t /\ x <> baddr b <-> frees (l ++ r) x t.
Proof.
  intros H. rewrite !frees_app, frees_cons. split.
  - intros [[?|[(-> & _)|?]] ?]; tauto.
  - intros Hx. split; [tauto|]. intros ->. pose proof (ch_nodup _ _ H) as Hnd. rewrite map_app in Hnd.
    apply NoDup_app in Hnd as (_ & H1 & H2). cbn [map] in *. apply NoDup_cons in H2 as [H2 _].
    destruct Hx as [Hx|Hx]; apply addr_in in Hx; [|done]. apply (H1 _ Hx). by left.
Qed.

Lemma bins_keep bs mask m m' Fr :
  (forall z, flk m' z = flk m z) -> bins_ok bs mask m Fr -> bins_ok bs mask m' Fr.
Proof. intros H. by apply bins_ok_ext. Qed.

Lemma bins_iff bs mask m Fr Fr' :
  (forall a s, Fr a s <-> Fr' a s) -> bins_ok bs mask m Fr -> bins_ok bs mask m Fr'.
Proof. intros H. by apply bins_ok_ext. Qed.

(** Taking a free block of the list out of its bin. *)
Lemma unbin_block h l b r Fr :
  chain (mem h) (l ++ b :: r) -> bins_of h Fr -> Fr (baddr b) (bsize b) ->
  exists bs mask m, unbin (baddr b) h = Some (with_bins h bs mask m) /\
    bins_ok bs mask m (fun x s => Fr x s /\ x <> baddr b) /\ chain m (l ++ b :: r).
Proof.
  intros H HB HF. destruct (chain_load _ _ _ _ H) as (f & Ef & _ & _ & Es & _).
  destruct (unbin_ok h (baddr b) f Fr) as (bs & mask & m & E & Hb & S); [done|done|by rewrite Es|].
  exists bs, mask, m. split; [done|]. split; [done|]. by eapply chain_same.
Qed.

(** Putting a block of the list into its bin. *)
Lemma rebin_block h l b r Fr :
  chain (mem h) (l ++ b :: r) -> bins_of h Fr -> (forall s, ~ Fr (baddr b) s) -> valid_size (bsize b) ->
  exists bs mask m, rebin (baddr b) h = Some (with_bins h bs mask m) /\
    bins_ok bs mask m (fun x s => Fr x s \/ (x = baddr b /\ s = bsize b)) /\ chain m (l ++ b :: r).
Proof.
  intros H HB HF Hv. destruct (chain_load _ _ _ _ H) as (f & Ef & _ & _ & Es & _).
  destruct (rebin_ok h (baddr b) f Fr) as (bs & mask & m & E & Hb & S); [done|done| |by rewrite Es|done|].
  { apply (chain_not_null _ _ _ H). apply elem_of_app. right. by left. }
  rewrite Es in Hb. exists bs, mask, m. split; [done|]. split; [done|]. by eapply chain_same.
Qed.

(** ** Splitting *)

Lemma chain_frame m m' L : (forall x, x ∈ map baddr L -> m' !! x = m !! x) -> chain m L -> chain m' L.
Proof.
  intros HS []. constructor; try done.
  - eapply seg_frame; [|exact ch_seg0]. intros x Hx. unfold lnk. by rewrite HS.
  - intros b Hb. rewrite <- ch_dat0 by done. unfold dat. by rewrite HS by (by apply addr_in).
Qed.

Lemma split_ok h l b r lo Fr :
  let new := baddr b + bsize b in
  chain (mem h) (l ++ b :: r) -> bins_of h Fr -> fits 32 new -> new <> NULL ->
  new ∉ map baddr (l ++ b :: r) -> (forall s, ~ Fr new s) -> new mod O1HEAP_ALIGNMENT = 0 -> valid_size lo ->
  exists bs mask m, split_fragment (baddr b) (bsize b) lo h = Some (with_bins h bs mask m) /\
    chain m (l ++ b :: mkBlock new lo false :: r) /\
    bins_ok bs mask m (fun x s => Fr x s \/ (x = new /\ s = lo)).
Proof.
  intros new H HB Hf Hn Hin HF Ha Hv. unfold split_fragment.
  rewrite (proj2 (Z.leb_le _ _) (proj1 (proj1 Hv))). fold new. rewrite wrap_small by done.
  rewrite Ha, Z.eqb_refl, store_new by done. cbn [mbind option_bind].
  set (m1 := <[new := _]> (mem h)).
  assert (C1 : chain m1 (l ++ b :: r)).
  { eapply chain_frame; [|exact H]. intros x Hx. apply lookup_insert_ne. by intros <-. }
  unfold load. cbn [mem with_mem]. destruct (chain_load _ _ _ _ C1) as (f & -> & En & _).
  cbn [mbind option_bind]. rewrite En.
  destruct (interlink_insert (with_mem h m1) l b r new lo false) as (m2 & Em & C2 & F2); [done..| |].
  { cbn [mem with_mem]. unfold m1. by rewrite dat_insert, Z.eqb_refl. }
  rewrite Em.
  destruct (rebin_block (with_mem h m2) (l ++ [b]) (mkBlock new lo false) r Fr)
    as (bs & mask & m3 & E3 & B3 & C3); [by rewrite <- app_assoc| |done|done|].
  { eapply bins_ok_ext; [done| |exact HB]. intros x s Hx. cbn [mem with_mem] in *. rewrite F2. unfold m1.
    rewrite flk_insert. destruct (Z.eqb_spec x new) as [->|]; [by destruct (HF s)|done]. }
  exists bs, mask, m3. split; [exact E3|]. split; [by rewrite <- app_assoc in C3|done].
Qed.

(** ** Taking a block *)

Definition with_all (h : O1HeapInstance) (bs : list Z) (mask : Z) (m : gmap Z Fragment)
    (d : O1HeapDiagnostics) : O1HeapInstance :=
  mkHeap (handle h) bs mask (critical_section_enter h) (critical_section_leave h) d m (calls h).

(** The accounting of an allocation of [fs] bytes. *)
Definition alloc_diag (fs : Z) (d : O1HeapDiagnostics) : O1HeapDiagnostics :=
  let d := d <| allocated := u32 (allocated d + fs) |> in
  if peak_allocated d <? allocated d then d <| peak_allocated := allocated d |> else d.

(** What is left of a block of size [s] at [a] after [fs] bytes of it were taken. *)
Definition leftover (a s fs : Z) : list block :=
  if fs <? s then [mkBlock (a + fs) (s - fs) false] else [].

Lemma multiple_gap x y : x < y -> x mod 32 = 0 -> y mod 32 = 0 -> 32 <= y - x /\ (y - x) mod 32 = 0.
Proof. intros H Hx Hy. apply Z.mod_divide in Hx as [u ->], Hy as [v ->]; [|lia..].
  split; [lia|]. rewrite <- Z.mul_sub_distr_r. apply Z.mod_mul. lia.
Qed.

Section Take.
Context (h : O1HeapInstance) (l r : list block) (a s fs amount : Z).
Context (HC : chain (mem h) (l ++ mkBlock a s false :: r)).
Context (HB : bins_of h (frees (l ++ mkBlock a s false :: r))).
Context (Hs : valid_size s) (Hfs : valid_size fs) (Hle : fs <= s).
Context (Ha : a mod 16 = 0) (Ha0 : 0 < a) (Hend : a + s <= 2 ^ 32).
Context (Hgap : fs < s -> a + fs ∉ map baddr (l ++ mkBlock a s false :: r)).

(** The block is out of its bin, resized, and the rest is a free block of its own. *)
Lemma take_split bs mask m :
  chain m (l ++ mkBlock a fs false :: r) ->
  bins_ok bs mask m (fun x t => frees (l ++ mkBlock a s false :: r) x t /\ x <> a) ->
  exists bs' mask' m',
    split_fragment a fs (s - fs) (with_bins h bs mask m) = Some (with_bins h bs' mask' m') /\
    chain m' (l ++ mkBlock a fs false :: leftover a s fs ++ r) /\
    bins_ok bs' mask' m' (frees (l ++ leftover a s fs ++ r)).
Proof using HC Hs Hfs Hle Ha Ha0 Hend Hgap.
  intros C1 B1. change FRAGMENT_SIZE_MIN with 32 in *. unfold valid_size in *.
  change FRAGMENT_SIZE_MIN with 32 in *. unfold leftover. destruct (Z.ltb_spec fs s) as [Hlt|Hge].
  - destruct (multiple_gap fs s) as [G1 G2]; [lia|apply Hfs|apply Hs|].
    destruct (split_ok (with_bins h bs mask m) l (mkBlock a fs false) r (s - fs)
      (fun x t => frees (l ++ mkBlock a s false :: r) x t /\ x <> a)) as (bs' & mask' & m' & E & C2 & B2);
      cbn [baddr bsize] in *; try done.
    + unfold fits. lia.
    + unfold NULL. lia.
    + specialize (Hgap Hlt). by rewrite map_app in *.
    + intros t [Ht _]. apply addr_in in Ht. by apply Hgap.
    + destruct Hfs as [_ Hm]. change O1HEAP_ALIGNMENT with 16. apply Z.mod_divide in Hm as [u Hu]; [|lia].
      rewrite Hu, <- Z.add_mod_idemp_l, Ha, Z.add_0_l by lia. replace (u * 32) with (u * 2 * 16) by lia.
      apply Z.mod_mul. lia.
    + unfold valid_size. change FRAGMENT_SIZE_MIN with 32 in *. lia.
    + exists bs', mask', m'. split; [exact E|]. split; [done|]. eapply bins_iff; [|exact B2]. intros x t. cbn beta.
      pose proof (frees_minus _ _ _ _ x t HC) as Hmin. cbn [baddr] in Hmin. rewrite Hmin.
      cbn [app]. rewrite !frees_app, frees_cons. cbn [baddr bsize bused]. tauto.
  - assert (fs = s) as -> by lia. exists bs, mask, m. unfold split_fragment.
    rewrite (proj2 (Z.leb_gt _ _)) by (change FRAGMENT_SIZE_MIN with 32; lia).
    split; [done|]. split; [done|]. eapply bins_iff; [|exact B1]. intros x t. cbn beta.
    pose proof (frees_minus _ _ _ _ x t HC) as Hmin. done.
Qed.

Lemma take_ok :
  0 <= amount -> amount + 16 <= fs -> s <= capacity (diagnostics h) <= FRAGMENT_SIZE_MAX ->
  0 <= allocated (diagnostics h) -> allocated (diagnostics h) mod 32 = 0 ->
  allocated (diagnostics h) + fs <= capacity (diagnostics h) ->
  exists bs mask m,
    take_fragment a fs amount h = Some (with_all h bs mask m (alloc_diag fs (diagnostics h)), a + 16) /\
    chain m (l ++ mkBlock a fs true :: leftover a s fs ++ r) /\
    bins_ok bs mask m (frees (l ++ mkBlock a fs true :: leftover a s fs ++ r)).
Proof using All.
  intros Ham Ham' Hcap Hal Halm Hsum.
  destruct (chain_load _ _ _ _ HC) as (f & Ef & _ & _ & Es & Eu). cbn [baddr bsize bused] in *.
  assert (HM : FRAGMENT_SIZE_MAX = 2 ^ 31) by done.
  pose proof Hs as [[S1 S2] S3]. pose proof Hfs as [[F1 F2] F3]. change FRAGMENT_SIZE_MIN with 32 in *.
  unfold take_fragment, load. rewrite Ef. cbn [mbind option_bind]. rewrite Es, Eu. change FRAGMENT_SIZE_MIN with 32.
  rewrite (proj2 (Z.leb_le _ _) Hle), S3, Z.eqb_refl. cbn [negb].
  destruct (unbin_block h l (mkBlock a s false) r _ HC HB) as (bs1 & mask1 & m1 & E1 & B1 & C1).
  { apply frees_app. right. by apply frees_cons; left. }
  cbn [baddr] in *. rewrite E1. cbn [mbind option_bind].
  destruct (store_chain (with_bins h bs1 mask1 m1) l (mkBlock a s false) r (fun f => f <| size := fs |>) fs false)
    as (m2 & E2 & C2 & F2'); [done|done|done|]. cbn [baddr] in *. rewrite E2. cbn [mbind option_bind].
  cbn [diagnostics with_mem with_bins]. rewrite wrap_small by (unfold fits; lia).
  rewrite (proj2 (Z.ltb_lt _ _)) by lia.
  assert ((s - fs) mod 32 = 0) as ->.
  { destruct (Z.eq_dec fs s) as [->|]; [by rewrite Z.sub_diag|]. by apply multiple_gap; [lia|..]. }
  rewrite Z.eqb_refl.
  destruct (take_split bs1 mask1 m2) as (bs3 & mask3 & m3 & E3 & C3 & B3); [done|by eapply bins_keep|].
  change (with_mem (with_bins h bs1 mask1 m1) m2) with (with_bins h bs1 mask1 m2).
  rewrite E3. cbn [mbind option_bind]. cbn [diagnostics with_bins]. rewrite Halm, Z.eqb_refl.
  unfold on_diagnostics. cbn [diagnostics with_bins].
  assert (Eall : u32 (allocated (diagnostics h) + fs) = allocated (diagnostics h) + fs).
  { apply wrap_small. unfold fits. lia. }
  destruct (store_chain (with_all h bs3 mask3 m3 (alloc_diag fs (diagnostics h))) l (mkBlock a fs false)
    (leftover a s fs ++ r) (fun f => f <| used := true |>) fs true) as (m4 & E4 & C4 & F4); [done|done|done|].
  destruct (chain_load _ _ _ _ C3) as (g & Eg & _ & _ & Esg & _). cbn [baddr bsize] in *.
  match goal with |- context [allocated ?d <=? _] =>
    change (allocated d) with (u32 (allocated (diagnostics h) + fs)) end.
  match goal with |- context [_ <=? capacity ?d] => change (capacity d) with (capacity (diagnostics h)) end.
  rewrite (proj2 (Z.leb_le (u32 _) _)) by (rewrite Eall; exact Hsum).
  match goal with |- context [mem ?x !! a] => change (mem x) with m3 end.
  rewrite Eg. cbn [mbind option_bind]. rewrite Esg, wrap_small by (change O1HEAP_ALIGNMENT with 16; unfold fits; lia).
  rewrite (proj2 (Z.leb_le _ _)) by (change O1HEAP_ALIGNMENT with 16; lia).
  match goal with |- context [store a _ ?x] =>
    change x with (with_all h bs3 mask3 m3 (alloc_diag fs (diagnostics h))) end.
  rewrite E4. cbn [mbind option_bind]. change O1HEAP_ALIGNMENT with 16.
  rewrite wrap_small by (unfold fits; lia).
  exists bs3, mask3, m4. split; [reflexivity|]. split; [done|].
  eapply bins_iff; [|eapply bins_keep; [exact F4|exact B3]]. intros x t.
  rewrite !frees_app, frees_cons, frees_app. split; [tauto|]. by intros [?|[(_ & _ & ?)|?]]; [tauto|..|tauto].
Qed.

End Take.

(** ** Merging *)

(** The list before a freed block, with a free block at its end taken off: what is left, the
    address the joined block starts at, and the bytes gained. *)
Definition left_part (l : list block) (a : Z) : list block * Z * Z :=
  match last l with
  | Some b => if bused b then (l, a, 0) else (removelast l, baddr b, bsize b)
  | None => (l, a, 0)
  end.

Definition right_part (r : list block) : list block * Z :=
  match r with
  | b :: r' => if bused b then (r, 0) else (r', bsize b)
  | [] => ([], 0)
  end.

(** The blocks after [s] bytes at [a] were freed between [l] and [r]. *)
Definition merge_list (l : list block) (a s : Z) (r : list block) : list block :=
  let '(l1, a1, s1) := left_part l a in
  let '(r1, s2) := right_part r in
  l1 ++ mkBlock a1 (s1 + s + s2) false :: r1.

Lemma list_end {A} (l : list A) : l = [] \/ exists l0 x, l = l0 ++ [x].
Proof. induction l using rev_ind; [by left|right; eauto]. Qed.

Lemma addr_before_snoc l b : addr_before (l ++ [b]) = baddr b.
Proof. unfold addr_before. by rewrite map_app, lst_app. Qed.

Lemma left_part_snoc l b a :
  left_part (l ++ [b]) a = if bused b then (l ++ [b], a, 0) else (l, baddr b, bsize b).
Proof. unfold left_part. by rewrite last_snoc, removelast_last. Qed.

Lemma is_free_block h L b : chain (mem h) L -> b ∈ L -> is_free (baddr b) h = Some (negb (bused b)).
Proof.
  intros H Hb. unfold is_free, load. rewrite (proj2 (Z.eqb_neq _ _) (chain_not_null _ _ _ H Hb)).
  destruct (dat_inv _ _ _ _ (ch_dat _ _ H b Hb)) as (f & -> & _ & <-). done.
Qed.

(** The end of each merge: the joined block is linked past the absorbed ones and binned. *)
Lemma finish_join h l b mid r Fr :
  chain (mem h) (l ++ b :: mid ++ r) -> bins_of h Fr -> (forall s, ~ Fr (baddr b) s) -> valid_size (bsize b) ->
  exists bs mask m,
    (h ← assert_aligned (baddr b) h; h ← interlink (baddr b) (addr_after r) h; rebin (baddr b) h)
      = Some (with_bins h bs mask m) /\
    chain m (l ++ b :: r) /\ bins_ok bs mask m (fun x s => Fr x s \/ (x = baddr b /\ s = bsize b)).
Proof.
  intros H HB HF Hv. unfold assert_aligned, load.
  destruct (chain_load _ _ _ _ H) as (f & -> & _ & _ & Es & _). cbn [mbind option_bind].
  rewrite Es, (proj2 Hv), Z.eqb_refl. cbn [mbind option_bind].
  destruct (interlink_drop h l b mid r H) as (m1 & -> & C1 & F1). cbn [mbind option_bind].
  destruct (rebin_block (with_mem h m1) l b r Fr) as (bs & mask & m & -> & HB2 & C2); [done| |done|done|].
  { by eapply bins_keep. }
  by exists bs, mask, m.
Qed.

Lemma frees_ne m l b r x t : chain m (l ++ b :: r) -> frees l x t \/ frees r x t -> x <> baddr b.
Proof. intros H Hx. apply (frees_minus _ _ _ _ _ t H). by apply frees_app. Qed.

Lemma valid_fits s : valid_size s -> u32 s = s.
Proof. intros [[H1 H2] _]. apply wrap_small. unfold fits. change FRAGMENT_SIZE_MIN with 32 in *.
  change FRAGMENT_SIZE_MAX with (2 ^ 31) in *. lia.
Qed.

Lemma grow_chain h l b r n :
  chain (mem h) (l ++ b :: r) -> valid_size (bsize b + n) ->
  exists m, grow (baddr b) n h = Some (with_mem h m) /\
    chain m (l ++ mkBlock (baddr b) (bsize b + n) (bused b) :: r) /\ (forall z, flk m z = flk (mem h) z).
Proof.
  intros H Hv. apply store_chain; [done|done|]. intros f E1 E2. split; [|done]. cbn.
  unfold RecordSettersUsingExistingGetters.const. rewrite E1. by apply valid_fits.
Qed.

Lemma drop_chain h l b r :
  chain (mem h) (l ++ b :: r) ->
  exists m, drop_fragment (baddr b) h = Some (with_mem h m) /\
    chain m (l ++ mkBlock (baddr b) 0 (bused b) :: r) /\ (forall z, flk m z = flk (mem h) z).
Proof. intros H. by apply store_chain. Qed.

Lemma join_left_ok h l p a s r :
  chain (mem h) (l ++ p :: mkBlock a s false :: r) -> bins_of h (frees (l ++ p :: r)) ->
  bused p = false -> valid_size (bsize p + s) ->
  exists bs mask m,
    (h ← unbin (baddr p) h; h ← grow (baddr p) s h; h ← drop_fragment a h;
     h ← assert_aligned (baddr p) h; h ← interlink (baddr p) (addr_after r) h; rebin (baddr p) h)
      = Some (with_bins h bs mask m) /\
    let L := l ++ mkBlock (baddr p) (bsize p + s) false :: r in chain m L /\ bins_ok bs mask m (frees L).
Proof.
  intros C HB Hu Hv. destruct p as [pa ps pu]. cbn [baddr bsize bused] in *. subst pu.
  destruct (unbin_block h l (mkBlock pa ps false) (mkBlock a s false :: r) _ C HB) as (bs1 & k1 & m1 & E1 & B1 & C1).
  { apply frees_app. right. by apply frees_cons; left. }
  cbn [baddr] in E1. rewrite E1. cbn [mbind option_bind].
  destruct (grow_chain (with_bins h bs1 k1 m1) l (mkBlock pa ps false) (mkBlock a s false :: r) s C1 Hv)
    as (m2 & E2 & C2 & F2). cbn [baddr bsize bused] in *. rewrite E2. cbn [mbind option_bind].
  destruct (drop_chain (with_bins h bs1 k1 m2) (l ++ [mkBlock pa (ps + s) false]) (mkBlock a s false) r)
    as (m3 & E3 & C3 & F3); [by rewrite <- app_assoc|]. cbn [baddr bsize bused] in *.
  change (with_mem (with_bins h bs1 k1 m1) m2) with (with_bins h bs1 k1 m2).
  rewrite E3. cbn [mbind option_bind]. rewrite <- app_assoc in C3.
  destruct (finish_join (with_bins h bs1 k1 m3) l (mkBlock pa (ps + s) false) [mkBlock a 0 false] r
    (fun x t => frees (l ++ mkBlock pa ps false :: r) x t /\ x <> pa)) as (bs4 & k4 & m4 & E4 & C4 & B4);
    [done| |by intros t [_ ?]|done|].
  { eapply bins_keep; [|exact B1]. intros z. by rewrite F3; cbn [mem with_bins]; rewrite F2. }
  change (with_mem (with_bins h bs1 k1 m2) m3) with (with_bins h bs1 k1 m3).
  exists bs4, k4, m4. split; [exact E4|]. split; [done|]. eapply bins_iff; [|exact B4]. intros x t. cbn beta.
  pose proof (frees_ne _ _ _ _ x t C4) as Hne. rewrite !frees_app, !frees_cons. cbn [baddr bsize bused] in *.
  split; [tauto|]. intros [Hl|[(-> & -> & _)|Hr]]; [left|by right|left]; split; try tauto; apply Hne; tauto.
Qed.

Lemma join_right_ok h l a s n r :
  chain (mem h) (l ++ mkBlock a s false :: n :: r) -> bins_of h (frees (l ++ n :: r)) ->
  bused n = false -> valid_size (s + bsize n) ->
  exists bs mask m,
    (h ← unbin (baddr n) h; g ← load h (baddr n); h ← grow a (size g) h; h ← drop_fragment (baddr n) h;
     h ← assert_aligned a h; h ← interlink a (next g) h; rebin a h)
      = Some (with_bins h bs mask m) /\
    let L := l ++ mkBlock a (s + bsize n) false :: r in chain m L /\ bins_ok bs mask m (frees L).
Proof.
  intros C HB Hu Hv. destruct n as [na ns nu]. cbn [baddr bsize bused] in *. subst nu.
  assert (C' : chain (mem h) ((l ++ [mkBlock a s false]) ++ mkBlock na ns false :: r)) by (by rewrite <- app_assoc).
  destruct (unbin_block h _ (mkBlock na ns false) r _ C' HB) as (bs1 & k1 & m1 & E1 & B1 & C1).
  { apply frees_app. right. by apply frees_cons; left. }
  cbn [baddr] in E1. rewrite E1. cbn [mbind option_bind]. unfold load. cbn [mem with_bins].
  destruct (chain_load _ _ _ _ C1) as (g & Eg & En & _ & Es & _). cbn [baddr bsize bused] in *.
  rewrite Eg. cbn [mbind option_bind]. rewrite Es, En. rewrite <- app_assoc in C1.
  destruct (grow_chain (with_bins h bs1 k1 m1) l (mkBlock a s false) (mkBlock na ns false :: r) ns C1 Hv)
    as (m2 & E2 & C2 & F2). cbn [baddr bsize bused] in *. rewrite E2. cbn [mbind option_bind].
  destruct (drop_chain (with_bins h bs1 k1 m2) (l ++ [mkBlock a (s + ns) false]) (mkBlock na ns false) r)
    as (m3 & E3 & C3 & F3); [by rewrite <- app_assoc|]. cbn [baddr bsize bused] in *.
  change (with_mem (with_bins h bs1 k1 m1) m2) with (with_bins h bs1 k1 m2).
  rewrite E3. cbn [mbind option_bind]. rewrite <- app_assoc in C3.
  destruct (finish_join (with_bins h bs1 k1 m3) l (mkBlock a (s + ns) false) [mkBlock na 0 false] r
    (fun x t => frees (l ++ mkBlock na ns false :: r) x t /\ x <> na)) as (bs4 & k4 & m4 & E4 & C4 & B4);
    [done| | |done|].
  { eapply bins_keep; [|exact B1]. intros z. by rewrite F3; cbn [mem with_bins]; rewrite F2. }
  { intros t [Ht _]. rewrite frees_app in Ht. by eapply frees_ne in C; [|exact Ht]. }
  change (with_mem (with_bins h bs1 k1 m2) m3) with (with_bins h bs1 k1 m3).
  exists bs4, k4, m4. split; [exact E4|]. split; [done|]. eapply bins_iff; [|exact B4]. intros x t. cbn beta.
  pose proof (frees_ne _ _ _ _ x t C') as Hne. rewrite frees_app in Hne.
  rewrite !frees_app, !frees_cons. cbn [baddr bsize bused] in *.
  split; [tauto|]. intros [Hl|[(-> & -> & _)|Hr]]; [left|by right|left]; split; try tauto; apply Hne; tauto.
Qed.

Lemma join_both_ok h l p a s n r :
  chain (mem h) (l ++ p :: mkBlock a s false :: n :: r) -> bins_of h (frees (l ++ p :: n :: r)) ->
  bused p = false -> bused n = false -> u32 (s + bsize n) = s + bsize n -> valid_size (bsize p + (s + bsize n)) ->
  exists bs mask m,
    (h ← unbin (baddr p) h; h ← unbin (baddr n) h; g ← load h (baddr n);
     h ← grow (baddr p) (u32 (s + size g)) h; h ← drop_fragment a h; h ← drop_fragment (baddr n) h;
     h ← assert_aligned (baddr p) h; h ← interlink (baddr p) (next g) h; rebin (baddr p) h)
      = Some (with_bins h bs mask m) /\
    let L := l ++ mkBlock (baddr p) (bsize p + (s + bsize n)) false :: r in
    chain m L /\ bins_ok bs mask m (frees L).
Proof.
  intros C HB Hu Hu' Hw Hv. destruct p as [pa ps pu], n as [na ns nu]. cbn [baddr bsize bused] in *. subst pu nu.
  set (P := mkBlock pa ps false) in *. set (A := mkBlock a s false) in *. set (N := mkBlock na ns false) in *.
  destruct (unbin_block h l P (A :: N :: r) _ C HB) as (bs0 & k0 & m0 & E0 & B0 & C0).
  { apply frees_app. right. by apply frees_cons; left. }
  cbn [baddr P] in E0. rewrite E0. cbn [mbind option_bind].
  assert (C' : chain m0 ((l ++ [P; A]) ++ N :: r)) by (by rewrite <- app_assoc).
  assert (Hpn : na <> pa).
  { pose proof (ch_nodup _ _ C) as Hnd. rewrite map_app in Hnd. apply NoDup_app in Hnd as (_ & _ & Hnd).
    intros E. cbn in Hnd. apply NoDup_cons in Hnd as [Hnd _]. apply Hnd. rewrite E. right. by left. }
  destruct (unbin_block (with_bins h bs0 k0 m0) _ N r _ C' B0) as (bs1 & k1 & m1 & E1 & B1 & C1).
  { split; [|done]. apply frees_app. right. apply frees_cons. right. by apply frees_cons; left. }
  cbn [baddr N] in E1. rewrite E1. cbn [mbind option_bind]. unfold load. cbn [mem with_bins].
  destruct (chain_load _ _ _ _ C1) as (g & Eg & En & _ & Es & _). cbn [baddr bsize bused N] in Eg, Es.
  rewrite Eg. cbn [mbind option_bind]. rewrite Es, En, Hw. rewrite <- app_assoc in C1. cbn [app] in C1.
  destruct (grow_chain (with_bins h bs1 k1 m1) l P (A :: N :: r) (s + ns) C1 Hv) as (m2 & E2 & C2 & F2).
  cbn [baddr bsize bused P] in E2, C2. change (with_bins (with_bins h bs0 k0 m0) bs1 k1 m1) with (with_bins h bs1 k1 m1).
  rewrite E2. cbn [mbind option_bind]. set (P' := mkBlock pa (ps + (s + ns)) false) in *.
  destruct (drop_chain (with_bins h bs1 k1 m2) (l ++ [P']) A (N :: r)) as (m3 & E3 & C3 & F3);
    [by rewrite <- app_assoc|]. cbn [baddr bsize bused A] in E3, C3.
  change (with_mem (with_bins h bs1 k1 m1) m2) with (with_bins h bs1 k1 m2).
  rewrite E3. cbn [mbind option_bind]. rewrite <- app_assoc in C3. cbn [app] in C3.
  destruct (drop_chain (with_bins h bs1 k1 m3) (l ++ [P'; mkBlock a 0 false]) N r) as (m4 & E4 & C4 & F4);
    [by rewrite <- app_assoc|]. cbn [baddr bsize bused N] in E4, C4.
  change (with_mem (with_bins h bs1 k1 m2) m3) with (with_bins h bs1 k1 m3).
  rewrite E4. cbn [mbind option_bind]. rewrite <- app_assoc in C4. cbn [app] in C4.
  destruct (finish_join (with_bins h bs1 k1 m4) l P' [mkBlock a 0 false; mkBlock na 0 false] r
    (fun x t => (frees (l ++ P :: N :: r) x t /\ x <> pa) /\ x <> na)) as (bs5 & k5 & m5 & E5 & C5 & B5);
    [done| |by intros t [[_ ?] _]|done|].
  { eapply bins_keep; [|exact B1]. intros z. rewrite F4. cbn [mem with_bins]. rewrite F3. cbn [mem with_bins].
    by rewrite F2. }
  change (with_mem (with_bins h bs1 k1 m3) m4) with (with_bins h bs1 k1 m4).
  exists bs5, k5, m5. split; [exact E5|]. split; [done|]. eapply bins_iff; [|exact B5]. intros x t. cbn beta.
  pose proof (frees_ne _ _ _ _ x t C5) as Hne. pose proof (frees_ne _ _ _ _ x t C') as Hne'.
  rewrite frees_app in Hne'. rewrite !frees_app, !frees_cons. cbn [baddr bsize bused P N P'] in *.
  split; [tauto|]. intros [Hl|[(-> & -> & _)|Hr]]; [left|by right|left];
    (split; [split|]; [tauto|apply Hne; tauto|apply Hne'; tauto]).
Qed.

(** Whether the block before joins, for the code and for the list. *)
Lemma left_cases h l r a :
  chain (mem h) (l ++ r) ->
  (is_free (addr_before l) h = Some false /\ left_part l a = (l, a, 0)) \/
  (exists l0 p, l = l0 ++ [p] /\ bused p = false /\ addr_before l = baddr p /\
     is_free (addr_before l) h = Some true /\ left_part l a = (l0, baddr p, bsize p)).
Proof.
  intros C. destruct (list_end l) as [->|(l0 & p & ->)]; [by left|].
  rewrite addr_before_snoc, left_part_snoc. rewrite (is_free_block h _ p C) by (rewrite !elem_of_app, elem_of_cons; auto).
  destruct (bused p) eqn:Up; [by left|right]. exists l0, p. auto.
Qed.

Lemma right_cases h l r :
  chain (mem h) (l ++ r) ->
  (is_free (addr_after r) h = Some false /\ right_part r = (r, 0)) \/
  (exists n r0, r = n :: r0 /\ bused n = false /\ addr_after r = baddr n /\
     is_free (addr_after r) h = Some true /\ right_part r = (r0, bsize n)).
Proof.
  intros C. destruct r as [|n r0]; [by left|]. unfold addr_after, right_part. cbn [map hd].
  rewrite (is_free_block h _ n C) by (rewrite elem_of_app, elem_of_cons; auto).
  destruct (bused n) eqn:Un; [by left|right]. exists n, r0. auto.
Qed.

(** Merging turns the freed block and its free neighbours into one block, in its bin. *)
Lemma merge_ok h l a s r f :
  let L := merge_list l a s r in
  chain (mem h) (l ++ mkBlock a s false :: r) -> bins_of h (frees (l ++ r)) ->
  prev f = addr_before l -> next f = addr_after r -> size f = s ->
  (forall b, b ∈ l ++ mkBlock a s false :: r -> 0 <= bsize b) ->
  (forall b, b ∈ L -> bused b = false -> valid_size (bsize b)) ->
  exists bs mask m, merge a f h = Some (with_bins h bs mask m) /\ chain m L /\ bins_ok bs mask m (frees L).
Proof.
  intros L C HB Ep En Es Hpos Hv. unfold merge, L, merge_list in *. rewrite Ep, En, Es.
  assert (C' : chain (mem h) ((l ++ [mkBlock a s false]) ++ r)) by (by rewrite <- app_assoc).
  destruct (left_cases h l _ a C) as [[-> EL]|(l0 & p & -> & Up & Eb & -> & EL)];
    destruct (right_cases h _ r C') as [[-> ER]|(n & r0 & -> & Un & Ea & -> & ER)];
    rewrite EL, ER in *; cbn [mbind option_bind andb];
    specialize (Hv _ (proj2 (elem_of_app _ _ _) (or_intror (list_elem_of_here _ _))) eq_refl); cbn [bsize] in Hv;
    rewrite <- ?app_assoc in *; cbn [app] in *.
  - rewrite Z.add_0_r, Z.add_0_l in *.
    destruct (rebin_block h l (mkBlock a s false) r _ C HB) as (bs & k & m & E & B & C2); [|done|].
    { intros t Ht. apply frees_app in Ht. by eapply frees_ne in C; [|exact Ht]. }
    exists bs, k, m. split; [done|]. split; [done|]. eapply bins_iff; [|exact B]. intros x t.
    rewrite !frees_app, frees_cons. cbn [baddr bsize bused]. tauto.
  - rewrite Z.add_0_l, Ea in *. apply join_right_ok; done.
  - rewrite Z.add_0_r, Eb in *. apply join_left_ok; done.
  - rewrite <- Z.add_assoc, Ea, Eb in *. apply join_both_ok; try done. apply wrap_small. unfold fits.
    destruct Hv as [[_ Hv] _]. change FRAGMENT_SIZE_MAX with (2 ^ 31) in Hv.
    pose proof (Hpos p ltac:(rewrite elem_of_app, !elem_of_cons; auto)).
    pose proof (Hpos n ltac:(rewrite elem_of_app, !elem_of_cons; auto)).
    pose proof (Hpos (mkBlock a s false) ltac:(rewrite elem_of_app, !elem_of_cons; auto)). cbn [bsize] in *. lia.
Qed.

End O1HeapLayout.
