(* ===== verification/O1HeapSpec.v ===== *)
(** * What the O(1) heap guarantees

    The invariant of the heap over the list of blocks, its preservation by initialisation,
    allocation, release and the client's writes, and the guarantees to the client: calls that
    follow the protocol never fail, allocations are fresh, aligned, disjoint and inside the
    arena, an allocation fails only when no free block is large enough, and when everything
    was released the arena is one block again. *)
From stdpp Require Import gmap.
From coqutil Require Import Datatypes.RecordSettersUsingExistingGetters.
From S2P Require Import Prelude O1Heap O1HeapBits O1HeapBins O1HeapLayout.
Import O1Heap O1HeapBits O1HeapBins O1HeapLayout.
Local Open Scope Z_scope.

Module O1HeapSpec.

(** ** Geometry *)

(** The blocks tile the addresses from [a] to [e]. *)
Fixpoint tiled (a : Z) (L : list block) (e : Z) : Prop :=
  match L with
  | [] => a = e
  | b :: L => baddr b = a /\ valid_size (bsize b) /\ tiled (a + bsize b) L e
  end.

Fixpoint used_bytes (L : list block) : Z :=
  match L with
  | [] => 0
  | b :: L => (if bused b then bsize b else 0) + used_bytes L
  end.

(** No two neighbours are free, behind a block that is used or not. *)
Fixpoint apart (u : bool) (L : list block) : Prop :=
  match L with
  | [] => True
  | b :: L => (u = true \/ bused b = true) /\ apart (bused b) L
  end.

Fixpoint last_used (u : bool) (L : list block) : bool :=
  match L with [] => u | b :: L => last_used (bused b) L end.

Definition coalesced (L : list block) : Prop := apart true L.

Lemma apart_app u l r : apart u (l ++ r) <-> apart u l /\ apart (last_used u l) r.
Proof.
  revert u. induction l as [|b l IH]; intros u; cbn [app apart last_used]; [tauto|]. rewrite IH. tauto.
Qed.

Lemma apart_used u L : apart u L -> apart true L.
Proof. destruct L as [|b L]; [done|]. intros [_ H]. split; [by left|done]. Qed.

Lemma last_used_snoc u l b : last_used u (l ++ [b]) = bused b.
Proof. revert u. induction l as [|c l IH]; intros u; [done|apply IH]. Qed.

Lemma tiled_app a l r e : tiled a (l ++ r) e <-> exists x, tiled a l x /\ tiled x r e.
Proof.
  revert a. induction l as [|b l IH]; intros a; cbn [app tiled].
  - split; [intros H; by exists a|intros (x & -> & H); done].
  - rewrite IH. split.
    + intros (H1 & H2 & x & H3 & H4). exists x. auto.
    + intros (x & (H1 & H2 & H3) & H4). split; [done|]. split; [done|]. by exists x.
Qed.

Lemma valid_pos s : valid_size s -> 32 <= s.
Proof. intros [[H _] _]. exact H. Qed.

Lemma tiled_le a L e : tiled a L e -> a <= e.
Proof.
  revert a. induction L as [|b L IH]; intros a; cbn [tiled]; [lia|].
  intros (_ & H2 & H3). apply IH in H3. pose proof (valid_pos _ H2). lia.
Qed.

Lemma tiled_split a l b r e :
  tiled a (l ++ b :: r) e <->
  tiled a l (baddr b) /\ valid_size (bsize b) /\ tiled (baddr b + bsize b) r e.
Proof.
  rewrite tiled_app. cbn [tiled]. split.
  - intros (x & H1 & <- & H2 & H3). done.
  - intros (H1 & H2 & H3). by exists (baddr b).
Qed.

Lemma tiled_in a L e b : tiled a L e -> b ∈ L ->
  a <= baddr b /\ baddr b + bsize b <= e /\ valid_size (bsize b) /\ (baddr b - a) mod 32 = 0.
Proof.
  intros H Hb. apply list_elem_of_split in Hb as (l & r & ->).
  apply tiled_split in H as (H1 & H2 & H3). pose proof (tiled_le _ _ _ H1). pose proof (tiled_le _ _ _ H3).
  split; [done|]. split; [done|]. split; [done|]. clear -H1. revert a H1.
  induction l as [|c l IH]; intros a; cbn [tiled]; [intros ->; by rewrite Z.sub_diag|].
  intros (_ & [_ Hv] & Ht). apply IH in Ht. change FRAGMENT_SIZE_MIN with 32 in Hv.
  replace (baddr b - a) with (baddr b - (a + bsize c) + bsize c) by lia.
  by rewrite <- Z.add_mod_idemp_l, Ht, Z.add_0_l by lia.
Qed.

(** Two blocks overlap only if they are the same. *)
Lemma tiled_disjoint a L e b b' : tiled a L e -> b ∈ L -> b' ∈ L ->
  b = b' \/ baddr b + bsize b <= baddr b' \/ baddr b' + bsize b' <= baddr b.
Proof.
  intros H Hb Hb'. apply list_elem_of_split in Hb as (l & r & ->).
  apply tiled_split in H as (H1 & H2 & H3). rewrite elem_of_app, elem_of_cons in Hb'.
  destruct Hb' as [Hb'|[->|Hb']]; [|by left|].
  - destruct (tiled_in _ _ _ _ H1 Hb') as (_ & ? & _). auto.
  - destruct (tiled_in _ _ _ _ H3 Hb') as (? & _ & _). auto.
Qed.

Lemma used_bytes_app l r : used_bytes (l ++ r) = used_bytes l + used_bytes r.
Proof. induction l as [|b l IH]; cbn [app used_bytes]; lia. Qed.

Lemma used_bytes_bounds a L e : tiled a L e -> 0 <= used_bytes L <= e - a /\ used_bytes L mod 32 = 0.
Proof.
  revert a. induction L as [|b L IH]; intros a; cbn [tiled used_bytes]; [intros ->; split; [lia|done]|].
  intros (_ & Hv & Ht). apply IH in Ht as [IH1 IH2]. pose proof (valid_pos _ Hv).
  split; [destruct (bused b); lia|]. rewrite Z.add_mod, IH2 by lia. destruct Hv as [_ Hv].
  change FRAGMENT_SIZE_MIN with 32 in Hv. destruct (bused b); [by rewrite Hv|done].
Qed.

(** A free block's bytes are not used ones. *)
Lemma used_bytes_free a l x s r e :
  tiled a (l ++ mkBlock x s false :: r) e -> used_bytes (l ++ mkBlock x s false :: r) + s <= e - a.
Proof.
  intros H. apply tiled_split in H as (H1 & H2 & H3). cbn [baddr bsize] in *.
  apply used_bytes_bounds in H1 as [H1 _], H3 as [H3 _]. rewrite used_bytes_app. cbn [used_bytes bused]. lia.
Qed.

(** ** The invariant *)

Definition arena (h : O1HeapInstance) : Z := handle h + INSTANCE_SIZE_PADDED.
Definition arena_end (h : O1HeapInstance) : Z := arena h + capacity (diagnostics h).

Record heap_inv (h : O1HeapInstance) (L : list block) : Prop := {
  hi_base : 0 < handle h /\ handle h mod 16 = 0;
  hi_cap : valid_size (capacity (diagnostics h));
  hi_end : arena_end h <= 2 ^ 32;
  hi_tiled : tiled (arena h) L (arena_end h);
  hi_chain : chain (mem h) L;
  hi_bins : bins_of h (frees L);
  hi_coalesced : coalesced L;
  hi_allocated : allocated (diagnostics h) = used_bytes L
}.

Lemma u_arith : INSTANCE_SIZE_PADDED = 176.
Proof. reflexivity. Qed.

Section Invariant.
Context (h : O1HeapInstance) (L : list block) (HI : heap_inv h L).

Lemma inv_block b : b ∈ L ->
  arena h <= baddr b /\ baddr b + bsize b <= arena_end h /\ valid_size (bsize b) /\ baddr b mod 16 = 0.
Proof using HI.
  intros Hb. destruct (tiled_in _ _ _ _ (hi_tiled _ _ HI) Hb) as (H1 & H2 & H3 & H4).
  split; [done|]. split; [done|]. split; [done|]. apply Z.mod_divide in H4 as [k Hk]; [|lia].
  destruct (hi_base _ _ HI) as [_ Hb16]. apply Z.mod_divide in Hb16 as [j Hj]; [|lia].
  unfold arena in *. rewrite u_arith in *. replace (baddr b) with ((2 * k + j + 11) * 16) by lia.
  apply Z.mod_mul. lia.
Qed.

Lemma inv_capacity : arena_end h - arena h = capacity (diagnostics h) /\ capacity (diagnostics h) <= 2 ^ 31.
Proof using HI.
  unfold arena_end. split; [lia|]. destruct (hi_cap _ _ HI) as [[_ H] _]. exact H.
Qed.

End Invariant.

(** ** Sizes and bins *)

(** The bytes that a request takes: with the header, rounded up to a power of two. *)
Definition rounded (amount : Z) : Z := 2 ^ Z.log2_up (amount + 16).

Lemma rounded_spec amount :
  0 < amount -> amount + 16 <= 2 ^ 31 ->
  5 <= Z.log2_up (amount + 16) <= 31 /\ amount + 16 <= rounded amount <= 2 ^ 31.
Proof.
  intros H1 H2. assert (Hl : 5 <= Z.log2_up (amount + 16) <= 31).
  { split; [change 5 with (Z.log2_up 17)|change 31 with (Z.log2_up (2 ^ 31))]; apply Z.log2_up_le_mono; lia. }
  split; [done|]. unfold rounded. split; [apply Z.log2_up_spec; lia|apply Z.pow_le_mono_r; lia].
Qed.

Lemma rounded_valid amount : 0 < amount -> amount + 16 <= 2 ^ 31 -> valid_size (rounded amount).
Proof.
  intros H1 H2. destruct (rounded_spec amount H1 H2) as [Hl Hr]. unfold valid_size.
  change FRAGMENT_SIZE_MAX with (2 ^ 31). change FRAGMENT_SIZE_MIN with 32. unfold rounded in *.
  replace (Z.log2_up (amount + 16)) with (Z.log2_up (amount + 16) - 5 + 5) in * by lia.
  rewrite Z.pow_add_r in * by lia. change (2 ^ 5) with 32 in *.
  split; [|apply Z.mod_mul; lia]. split; [|lia].
  assert (0 < 2 ^ (Z.log2_up (amount + 16) - 5)) by (apply Z.pow_pos_nonneg; lia). lia.
Qed.

Lemma fragment_size_ok amount :
  0 < amount -> amount + 16 <= 2 ^ 31 ->
  fragment_size_for amount = rounded amount /\ u32 (amount + O1HEAP_ALIGNMENT) = amount + 16 /\
  log2Ceil (rounded amount / FRAGMENT_SIZE_MIN) = Z.log2_up (amount + 16) - 5.
Proof.
  intros H1 H2. destruct (rounded_spec amount H1 H2) as [Hl Hr].
  assert (E : u32 (amount + O1HEAP_ALIGNMENT) = amount + 16).
  { change O1HEAP_ALIGNMENT with 16. apply wrap_small. unfold fits. lia. }
  split; [|split; [done|]].
  - unfold fragment_size_for. rewrite E, log2Ceil_spec, pow2_spec by lia. done.
  - unfold rounded. change FRAGMENT_SIZE_MIN with (2 ^ 5). rewrite <- Z.pow_sub_r by lia.
    assert (2 ^ (Z.log2_up (amount + 16) - 5) <= 2 ^ 31) by (apply Z.pow_le_mono_r; lia).
    rewrite log2Ceil_spec by lia. apply Z.log2_up_pow2. lia.
Qed.

(** A valid size belongs to bin [k] or a later one exactly when it is [2 ^ (k + 5)] or more. *)
Lemma bin_index_ge s k : valid_size s -> 0 <= k -> k <= bin_index s <-> 2 ^ (k + 5) <= s.
Proof.
  intros Hv Hk. destruct (valid_size_bin s Hv) as [-> _]. pose proof (valid_pos _ Hv).
  rewrite Z.pow_add_r by lia. change (2 ^ 5) with 32.
  assert (1 <= s / 32) by (apply Z.div_le_lower_bound; lia). rewrite <- Z.log2_le_pow2 by lia. split; intros Hx.
  - pose proof (Z.mul_div_le s 32). lia.
  - apply Z.div_le_lower_bound; lia.
Qed.

(** The search for a bin finds a free block that is large enough, if there is one. *)
Lemma select_bin h Fr k :
  bins_of h Fr -> 0 <= k < 32 ->
  let s := smallest_bin_mask (nonempty_bin_mask h) k in
  (s = 0 /\ (forall a t, Fr a t -> t < 2 ^ (k + 5))) \/
  (exists i a t, k <= i < 32 /\ s = 2 ^ i /\ bins h !! Z.to_nat i = Some a /\ Fr a t /\ 2 ^ (k + 5) <= t).
Proof.
  intros [B HB] Hk s. destruct (smallest_bin_spec _ k (bh_mask _ _ _ _ _ HB) Hk) as [H0 H1]. fold s in H0, H1.
  destruct (Z.eq_dec s 0) as [E|E].
  - left. split; [done|]. intros a t Ht. destruct (bh_valid _ _ _ _ _ HB a t Ht) as [Hv Hn].
    destruct (valid_size_bin t Hv) as [_ Hb]. apply Z.lt_nge. intros Hge. apply bin_index_ge in Hge; [|done|lia].
    assert (Hin : a ∈ B (Z.to_nat (bin_index t))) by (apply (bh_in _ _ _ _ _ HB); eauto).
    pose proof (bh_bit _ _ _ _ _ HB (Z.to_nat (bin_index t))) as Hbit. rewrite Z2Nat.id in Hbit by lia.
    rewrite H0 in Hbit by done. destruct (B (Z.to_nat (bin_index t))) as [|c cs] eqn:EB; [by apply elem_of_nil in Hin|].
    cbn [hd] in Hbit. destruct (Z.eqb_spec c NULL) as [->|]; [|done].
    apply (bins_null _ _ _ _ _ (Z.to_nat (bin_index t)) HB). rewrite EB. by left.
  - right. destruct (H1 E) as (i & Hi & Es & Hbit).
    pose proof (bh_bit _ _ _ _ _ HB (Z.to_nat i)) as Hb. rewrite Z2Nat.id, Hbit in Hb by lia.
    assert (Hn : hd NULL (B (Z.to_nat i)) <> NULL).
    { intros En. rewrite En in Hb. done. }
    apply bin_head in Hn as Hin. apply (bh_in _ _ _ _ _ HB) in Hin as (t & Ht & Et).
    exists i, (hd NULL (B (Z.to_nat i))), t. split; [done|]. split; [done|].
    split; [apply (bh_head _ _ _ _ _ HB); lia|]. split; [done|].
    destruct (bh_valid _ _ _ _ _ HB _ t Ht) as [Hv _]. apply bin_index_ge; [done|lia|].
    destruct (valid_size_bin t Hv) as [_ Hr]. lia.
Qed.

(** ** Allocation *)

(** The hooks that one transaction calls, newest first. *)
Definition transaction (h : O1HeapInstance) : list hook_call :=
  (if critical_section_leave h then [cs_leave] else []) ++ (if critical_section_enter h then [cs_enter] else []).

(** What every call leaves alone, and its one transaction. *)
Record call_frame (h h' : O1HeapInstance) : Prop := {
  cf_handle : handle h' = handle h;
  cf_enter : critical_section_enter h' = critical_section_enter h;
  cf_leave : critical_section_leave h' = critical_section_leave h;
  cf_calls : calls h' = transaction h ++ calls h
}.

(** The blocks and the pointer that a request may produce. *)
Inductive alloc_result (L : list block) (amount : Z) : list block -> Z -> Prop :=
| res_null :
    amount = 0 \/ (forall b, b ∈ L -> bused b = false -> bsize b < rounded amount) ->
    alloc_result L amount L NULL
| res_block l a s r :
    L = l ++ mkBlock a s false :: r -> 0 < amount -> rounded amount <= s ->
    alloc_result L amount (l ++ mkBlock a (rounded amount) true :: leftover a s (rounded amount) ++ r) (a + 16).

(** The accounting of a request. *)
Definition note_request (amount out : Z) (d : O1HeapDiagnostics) : O1HeapDiagnostics :=
  let d := if peak_request_size d <? amount then d <| peak_request_size := amount |> else d in
  if (out =? NULL) && (0 <? amount) then d <| oom_count := u64 (oom_count d + 1) |> else d.

Definition request_diag (amount out : Z) (d : O1HeapDiagnostics) : O1HeapDiagnostics :=
  note_request amount out (if out =? NULL then d else alloc_diag (rounded amount) d).

Lemma note_request_keeps amount out d :
  capacity (note_request amount out d) = capacity d /\ allocated (note_request amount out d) = allocated d /\
  peak_allocated (note_request amount out d) = peak_allocated d.
Proof.
  unfold note_request. cbv zeta.
  by destruct (peak_request_size d <? amount), ((out =? NULL) && (0 <? amount))%bool.
Qed.

Lemma alloc_diag_keeps fs d :
  capacity (alloc_diag fs d) = capacity d /\ allocated (alloc_diag fs d) = u32 (allocated d + fs).
Proof. unfold alloc_diag. cbv zeta. by destruct (_ <? _). Qed.

Definition with_calls (h : O1HeapInstance) (cs : list hook_call) : O1HeapInstance :=
  mkHeap (handle h) (bins h) (nonempty_bin_mask h) (critical_section_enter h)
    (critical_section_leave h) (diagnostics h) (mem h) cs.

Lemma enter_calls h :
  invoke_enter h = with_calls h ((if critical_section_enter h then [cs_enter] else []) ++ calls h).
Proof. by destruct h as [? ? ? [] ? ? ? ?]. Qed.

Lemma leave_calls h :
  invoke_leave h = with_calls h ((if critical_section_leave h then [cs_leave] else []) ++ calls h).
Proof. by destruct h as [? ? ? ? [] ? ? ?]. Qed.

(** The invariant only depends on the memory, the bins and two counters. *)
Lemma inv_same h h' L :
  handle h' = handle h -> bins h' = bins h -> nonempty_bin_mask h' = nonempty_bin_mask h -> mem h' = mem h ->
  capacity (diagnostics h') = capacity (diagnostics h) ->
  allocated (diagnostics h') = allocated (diagnostics h) -> heap_inv h L -> heap_inv h' L.
Proof.
  intros E1 E2 E3 E4 E5 E6 []. unfold arena_end, arena, bins_of in *.
  constructor; unfold arena_end, arena, bins_of; rewrite ?E1, ?E2, ?E3, ?E4, ?E5, ?E6; done.
Qed.

(** A block taken for a request keeps the invariant of the list. *)
Lemma taken_list a0 e l a s fs r :
  tiled a0 (l ++ mkBlock a s false :: r) e -> coalesced (l ++ mkBlock a s false :: r) ->
  valid_size fs -> fs <= s ->
  let L' := l ++ mkBlock a fs true :: leftover a s fs ++ r in
  tiled a0 L' e /\ coalesced L' /\ used_bytes L' = used_bytes (l ++ mkBlock a s false :: r) + fs.
Proof.
  intros HT HA Hv Hle L'. apply tiled_split in HT as (T1 & [[S1 S2] S3] & T3). cbn [baddr bsize] in *.
  apply apart_app in HA as [A1 [A2 A3]]. cbn [bused] in *.
  unfold L', coalesced, leftover. rewrite tiled_split, apart_app, !used_bytes_app. cbn [baddr bsize bused apart used_bytes].
  destruct (Z.ltb_spec fs s) as [Hlt|Hge].
  - cbn [app]. cbn [tiled apart used_bytes baddr bsize bused].
    replace (a + fs + (s - fs)) with (a + s) by lia. destruct Hv as [[F1 F2] F3].
    change FRAGMENT_SIZE_MIN with 32 in *. destruct (multiple_gap fs s Hlt F3 S3) as [G1 G2].
    split; [|split; [|lia]].
    + split; [done|]. split; [done|]. split; [done|]. split; [|done]. unfold valid_size.
      change FRAGMENT_SIZE_MIN with 32. lia.
    + split; [done|]. split; [by right|]. split; [by left|]. done.
  - assert (fs = s) as -> by lia. cbn [app]. split; [done|]. split; [|lia].
    split; [done|]. split; [by right|]. by eapply apart_used.
Qed.

(** Taking a block that is large enough serves the request and keeps the invariant. *)
Lemma serve_ok h l a s r amount cs :
  heap_inv h (l ++ mkBlock a s false :: r) -> 0 < amount <= capacity (diagnostics h) - 16 -> rounded amount <= s ->
  exists bs mask m,
    take_fragment a (rounded amount) amount (with_calls h cs)
      = Some (with_all (with_calls h cs) bs mask m (alloc_diag (rounded amount) (diagnostics h)), a + 16) /\
    heap_inv (with_all h bs mask m (alloc_diag (rounded amount) (diagnostics h)))
      (l ++ mkBlock a (rounded amount) true :: leftover a s (rounded amount) ++ r).
Proof.
  intros HI Ham Hle. destruct (inv_capacity _ _ HI) as [Hlen Hcap].
  assert (Hin : mkBlock a s false ∈ l ++ mkBlock a s false :: r) by (apply elem_of_app; right; by left).
  destruct (inv_block _ _ HI _ Hin) as (B1 & B2 & B3 & B4). cbn [baddr bsize] in *.
  destruct (hi_base _ _ HI) as [Hbase _]. pose proof (hi_end _ _ HI) as Hend.
  pose proof (rounded_valid amount ltac:(lia) ltac:(lia)) as Hv.
  pose proof (rounded_spec amount ltac:(lia) ltac:(lia)) as [_ Hr].
  pose proof (used_bytes_free _ _ _ _ _ _ (hi_tiled _ _ HI)) as Hfree.
  destruct (used_bytes_bounds _ _ _ (hi_tiled _ _ HI)) as [Hub Hum]. rewrite <- (hi_allocated _ _ HI) in *.
  assert (Hpos : 0 < a) by (unfold arena in B1; rewrite u_arith in B1; lia).
  destruct (take_ok (with_calls h cs) l r a s (rounded amount) amount) as (bs & mask & m & E & C & B);
    cbn [with_calls mem diagnostics] in *; try done; try lia.
  - apply HI.
  - apply HI.
  - intros Hlt Hi. apply list_elem_of_fmap in Hi as (b & Eb & Hb).
    destruct (tiled_disjoint _ _ _ _ _ (hi_tiled _ _ HI) Hin Hb) as [<-|[H|H]]; cbn [baddr bsize] in *;
      pose proof (valid_pos _ Hv); try lia. pose proof (inv_block _ _ HI b Hb) as (_ & _ & Hb3 & _).
    pose proof (valid_pos _ Hb3). lia.
  - change FRAGMENT_SIZE_MAX with (2 ^ 31). lia.
  - exists bs, mask, m. split; [exact E|].
    destruct (taken_list _ _ _ _ _ (rounded amount) _ (hi_tiled _ _ HI) (hi_coalesced _ _ HI) Hv Hle) as (T1 & T2 & T3).
    destruct (alloc_diag_keeps (rounded amount) (diagnostics h)) as [K1 K2].
    constructor; unfold arena_end, arena, bins_of in *; cbn [handle diagnostics mem bins nonempty_bin_mask with_all];
      rewrite ?K1, ?K2; try done; try apply HI.
    rewrite T3, <- (hi_allocated _ _ HI). apply wrap_small. unfold fits. lia.
Qed.

Lemma try_allocate_ok h L amount :
  heap_inv h L -> fits 32 amount ->
  exists bs mask m out L',
    try_allocate amount h = Some (with_all (invoke_enter h) bs mask m
      (if out =? NULL then diagnostics h else alloc_diag (rounded amount) (diagnostics h)), out) /\
    heap_inv (with_all h bs mask m
      (if out =? NULL then diagnostics h else alloc_diag (rounded amount) (diagnostics h))) L' /\
    alloc_result L amount L' out.
Proof.
  intros HI Ham. destruct (inv_capacity _ _ HI) as [Hlen Hcap]. pose proof (valid_pos _ (hi_cap _ _ HI)) as Hmin.
  assert (Hsmall : forall b, b ∈ L -> bsize b <= capacity (diagnostics h)).
  { intros b Hb. destruct (inv_block _ _ HI b Hb) as (? & ? & _). lia. }
  assert (Hnull : exists bs mask m, Some (invoke_enter h, NULL) = Some (with_all (invoke_enter h) bs mask m
      (if NULL =? NULL then diagnostics h else alloc_diag (rounded amount) (diagnostics h)), NULL) /\
      heap_inv (with_all h bs mask m (diagnostics h)) L).
  { exists (bins h), (nonempty_bin_mask h), (mem h). rewrite enter_calls. by destruct h. }
  destruct Hnull as (bs0 & mask0 & m0 & En & In).
  unfold try_allocate. rewrite wrap_small by (unfold fits; change O1HEAP_ALIGNMENT with 16; lia).
  change O1HEAP_ALIGNMENT with 16.
  destruct ((0 <? amount) && (amount <=? capacity (diagnostics h) - 16)) eqn:Hg.
  2:{ exists bs0, mask0, m0, NULL, L. split; [done|]. split; [done|]. apply res_null.
      destruct (Z.eq_dec amount 0) as [|Hz]; [by left|right]. intros b Hb _. specialize (Hsmall b Hb).
      unfold rounded. assert (amount + 16 <= 2 ^ Z.log2_up (amount + 16)) by (apply Z.log2_up_spec; unfold fits in *; lia).
      apply andb_false_iff in Hg as [Hg|Hg]; [apply Z.ltb_ge in Hg|apply Z.leb_gt in Hg]; unfold fits in *; lia. }
  apply andb_true_iff in Hg as [G1 G2]. apply Z.ltb_lt in G1. apply Z.leb_le in G2.
  destruct (fragment_size_ok amount) as (F1 & F2 & F3); [lia..|]. rewrite F1. change O1HEAP_ALIGNMENT with 16 in F2.
  rewrite F2, F3. destruct (rounded_spec amount) as [R1 R2]; [lia..|]. pose proof (rounded_valid amount G1 ltac:(lia)) as Hv.
  rewrite !(proj2 (Z.leb_le _ _)) by (apply Hv || lia).
  unfold rounded at 1. rewrite isPowerOf2_pow by lia. rewrite (proj2 (Z.ltb_lt _ _)) by (change NUM_BINS_MAX with 32; lia).
  set (k := Z.log2_up (amount + 16) - 5). assert (Ek : rounded amount = 2 ^ (k + 5)) by (unfold rounded, k; f_equal; lia).
  rewrite enter_calls in *. set (cs := _ ++ calls h) in *. cbn [nonempty_bin_mask bins with_calls].
  destruct (select_bin h (frees L) k (hi_bins _ _ HI) ltac:(lia)) as [[E0 H0]|(i & a & t & Hi & Es & Eb & Ht & Hge)].
  - rewrite E0. exists bs0, mask0, m0, NULL, L. split; [done|]. split; [done|]. apply res_null. right.
    intros [ba bsz bu] Hb Hu. cbn in Hu. subst bu. rewrite Ek. by apply (H0 ba).
  - rewrite Es. assert (0 < 2 ^ i < 2 ^ 32) by (split; [lia|apply Z.pow_lt_mono_r; lia]).
    rewrite (proj2 (Z.eqb_neq _ _)) by lia. rewrite isPowerOf2_pow, log2Floor_spec, Z.log2_pow2 by lia.
    rewrite (proj2 (Z.leb_le _ _)), (proj2 (Z.ltb_lt _ _)) by (change NUM_BINS_MAX with 32; lia).
    rewrite Eb. cbn [mbind option_bind]. apply (chain_not_null _ _ _ (hi_chain _ _ HI)) in Ht as Hn. cbn [baddr] in Hn.
    rewrite (proj2 (Z.eqb_neq _ _) Hn). cbn [negb]. apply list_elem_of_split in Ht as (l & r & ->).
    destruct (serve_ok h l a t r amount cs HI ltac:(lia) ltac:(lia)) as (bs & mask & m & E & HI').
    destruct (inv_block _ _ HI (mkBlock a t false)) as (B1 & _); [apply elem_of_app; right; by left|].
    destruct (hi_base _ _ HI) as [Hbase _]. unfold arena in B1. rewrite u_arith in B1. cbn [baddr] in B1.
    exists bs, mask, m, (a + 16), (l ++ mkBlock a (rounded amount) true :: leftover a t (rounded amount) ++ r).
    rewrite (proj2 (Z.eqb_neq (a + 16) NULL)) by (unfold NULL; lia).
    split; [exact E|]. split; [done|]. apply res_block; [done|lia|lia].
Qed.

(** A request always returns, keeps the invariant and is accounted for. *)
Lemma allocate_ok h L amount :
  heap_inv h L -> fits 32 amount ->
  exists h' out L', o1heapAllocate h amount = Some (h', out) /\ heap_inv h' L' /\
    alloc_result L amount L' out /\ diagnostics h' = request_diag amount out (diagnostics h) /\ call_frame h h'.
Proof.
  intros HI Ham. destruct (try_allocate_ok h L amount HI Ham) as (bs & mask & m & out & L' & E & HI' & HR).
  unfold o1heapAllocate. rewrite (proj2 (Z.leb_le _ _)) by apply (hi_cap _ _ HI). rewrite E. cbn [mbind option_bind].
  do 3 eexists. split; [reflexivity|]. rewrite leave_calls, enter_calls.
  split; [|split; [exact HR|split; [reflexivity|constructor; try reflexivity]]].
  - eapply inv_same; [..|exact HI']; try reflexivity.
    + exact (proj1 (note_request_keeps amount out _)).
    + exact (proj1 (proj2 (note_request_keeps amount out _))).
  - unfold transaction. cbn. by rewrite app_assoc.
Qed.

(** ** Release *)

Lemma merge_list_ok a0 e l a s r :
  tiled a0 (l ++ mkBlock a s true :: r) e -> coalesced (l ++ mkBlock a s true :: r) -> e - a0 <= FRAGMENT_SIZE_MAX ->
  let L' := merge_list l a s r in
  tiled a0 L' e /\ coalesced L' /\ used_bytes L' = used_bytes (l ++ mkBlock a s true :: r) - s.
Proof.
  intros HT HA He. apply tiled_split in HT as (T1 & Hv & T3). cbn [baddr bsize] in *.
  apply apart_app in HA as [A1 [_ A3]]. cbn [bused] in A3. rewrite used_bytes_app. cbn [used_bytes bused bsize].
  unfold merge_list.
  assert (HL : exists l1 a1 s1, left_part l a = (l1, a1, s1) /\ tiled a0 l1 a1 /\ a1 + s1 = a /\ 0 <= s1 /\
    s1 mod 32 = 0 /\ apart true l1 /\ last_used true l1 = true /\ used_bytes l1 = used_bytes l).
  { destruct (list_end l) as [->|(l0 & p & ->)].
    - exists [], a, 0. repeat split; try done; try lia.
    - rewrite left_part_snoc. destruct (bused p) eqn:Up.
      + exists (l0 ++ [p]), a, 0. repeat split; try done; try lia. by rewrite last_used_snoc.
      + apply tiled_split in T1 as (T1 & Vp & Tp). apply apart_app in A1 as [A1 [A2 _]]. cbn [tiled] in Tp.
        exists l0, (baddr p), (bsize p). rewrite used_bytes_app. cbn [used_bytes]. rewrite Up.
        pose proof (valid_pos _ Vp). destruct Vp as [_ Vp].
        repeat split; try done; try lia. destruct A2 as [|A2]; [done|congruence]. }
  assert (HR : exists r1 s2, right_part r = (r1, s2) /\ tiled (a + s + s2) r1 e /\ 0 <= s2 /\ s2 mod 32 = 0 /\
    apart false r1 /\ used_bytes r1 = used_bytes r).
  { destruct r as [|n r0]; [exists [], 0; rewrite Z.add_0_r; repeat split; done|].
    unfold right_part. destruct T3 as (N1 & Vn & N3). destruct A3 as [_ A3]. cbn [used_bytes].
    destruct (bused n) eqn:Un; rewrite ?Un in A3; [exists (n :: r0), 0|exists r0, (bsize n)].
    - rewrite Z.add_0_r. cbn [tiled apart used_bytes]. rewrite Un. auto 10 with lia.
    - pose proof (valid_pos _ Vn). destruct Vn as [_ Vn]. repeat split; try done; lia. }
  destruct HL as (l1 & a1 & s1 & -> & HL1 & HL2 & HL3 & HL4 & HL5 & HL6 & HL7).
  destruct HR as (r1 & s2 & -> & HR1 & HR2 & HR3 & HR4 & HR5). cbv zeta.
  unfold coalesced. rewrite tiled_split, apart_app, used_bytes_app. cbn [baddr bsize bused apart used_bytes].
  replace (a1 + (s1 + s + s2)) with (a + s + s2) by lia. rewrite HL6.
  pose proof (tiled_le _ _ _ HL1). pose proof (tiled_le _ _ _ HR1). pose proof (valid_pos _ Hv).
  split; [|split; [|lia]].
  - split; [done|]. split; [|done]. destruct Hv as [_ Hv]. unfold valid_size. change FRAGMENT_SIZE_MIN with 32 in *.
    split; [lia|]. rewrite Z.add_mod, HR3, Z.add_0_r, (Z.add_mod s1), HL4, Hv by lia. done.
  - repeat split; auto.
Qed.

Lemma mod_of_16 x : x mod 16 = 0 -> x mod 4 = 0.
Proof. intros H. apply Z.mod_divide in H as [k ->]; [|lia]. replace (k * 16) with (k * 4 * 4) by lia. apply Z.mod_mul. lia. Qed.

(** The addresses that the chain holds are aligned. *)
Lemma neighbours_aligned h l b r :
  heap_inv h (l ++ b :: r) -> addr_after r mod 4 = 0 /\ addr_before l mod 4 = 0.
Proof.
  intros HI. split.
  - unfold addr_after. destruct r as [|n r]; [done|]. apply mod_of_16.
    apply (inv_block _ _ HI). rewrite elem_of_app, !elem_of_cons. auto.
  - destruct (list_end l) as [->|(l0 & p & ->)]; [done|]. rewrite addr_before_snoc. apply mod_of_16.
    apply (inv_block _ _ HI). rewrite !elem_of_app, elem_of_cons. auto.
Qed.

(** The size of a used block is accounted for. *)
Lemma used_accounted h l a s r :
  heap_inv h (l ++ mkBlock a s true :: r) ->
  s <= allocated (diagnostics h) /\ 0 <= allocated (diagnostics h) <= capacity (diagnostics h).
Proof.
  intros HI. destruct (inv_capacity _ _ HI) as [Hlen _]. rewrite (hi_allocated _ _ HI).
  destruct (used_bytes_bounds _ _ _ (hi_tiled _ _ HI)) as [Hub _]. split; [|lia].
  rewrite used_bytes_app. cbn [used_bytes bused bsize].
  pose proof (hi_tiled _ _ HI) as HT. apply tiled_split in HT as (T1 & _ & T2).
  apply used_bytes_bounds in T1, T2. lia.
Qed.

(** The checks of o1heapFree pass on a used block. *)
Lemma free_checks h l a s r :
  heap_inv h (l ++ mkBlock a s true :: r) ->
  exists f, prev f = addr_before l /\ next f = addr_after r /\ size f = s /\
    o1heapFree h (a + 16) =
      (h ← store a (fun f => f <| used := false |>) (invoke_enter h);
       O1HEAP_ASSERT (s <=? allocated (diagnostics h)) ;;
       let h := on_diagnostics (fun d => d <| allocated := u32 (allocated d - s) |>) h in
       h ← merge a f h;
       Some (invoke_leave h)).
Proof.
  intros HI. destruct (inv_capacity _ _ HI) as [Hlen Hcap].
  assert (Hin : mkBlock a s true ∈ l ++ mkBlock a s true :: r) by (apply elem_of_app; right; by left).
  destruct (inv_block _ _ HI _ Hin) as (B1 & B2 & B3 & B4). cbn [baddr bsize] in *. pose proof (valid_pos _ B3) as B5.
  destruct (hi_base _ _ HI) as [Hbase _]. pose proof (hi_end _ _ HI) as Hend.
  destruct (neighbours_aligned _ _ _ _ HI) as [N1 N2].
  destruct (chain_load _ _ _ _ (hi_chain _ _ HI)) as (f & Ef & En & Ep & Es & Eu). cbn [baddr bsize bused] in *.
  exists f. split; [done|]. split; [done|]. split; [done|].
  unfold o1heapFree. rewrite (proj2 (Z.leb_le _ _)) by apply (hi_cap _ _ HI).
  unfold arena_end, arena in *. rewrite u_arith in *. rewrite (proj2 (Z.eqb_neq _ _)) by (unfold NULL; lia).
  change O1HEAP_ALIGNMENT with 16. replace (a + 16 - 16) with a by lia.
  rewrite (wrap_small 32 a), (wrap_small 32 (handle h + 176)), (wrap_small 32 (_ - FRAGMENT_SIZE_MIN))
    by (unfold fits; change FRAGMENT_SIZE_MIN with 32; lia).
  rewrite (mod_of_16 a B4), Z.eqb_refl. rewrite !(proj2 (Z.leb_le _ _)) by (change FRAGMENT_SIZE_MIN with 32; lia).
  unfold load. rewrite Ef. cbn [mbind option_bind]. rewrite Eu, En, Ep, N1, N2, Z.eqb_refl, Es.
  rewrite (proj2 (Z.leb_le FRAGMENT_SIZE_MIN s)) by (change FRAGMENT_SIZE_MIN with 32; lia).
  rewrite (proj2 (Z.leb_le s (capacity _))) by lia. by rewrite (proj2 B3), Z.eqb_refl.
Qed.

(** Releasing a used block returns and keeps the invariant. *)
Lemma free_ok h l a s r :
  heap_inv h (l ++ mkBlock a s true :: r) ->
  exists h', o1heapFree h (a + 16) = Some h' /\ heap_inv h' (merge_list l a s r) /\
    diagnostics h' = (diagnostics h) <| allocated := allocated (diagnostics h) - s |> /\ call_frame h h'.
Proof.
  intros HI. destruct (inv_capacity _ _ HI) as [Hlen Hcap]. destruct (used_accounted _ _ _ _ _ HI) as [Hs Hub].
  destruct (merge_list_ok _ _ l a s r (hi_tiled _ _ HI) (hi_coalesced _ _ HI)) as (M1 & M2 & M3).
  { change FRAGMENT_SIZE_MAX with (2 ^ 31). lia. }
  assert (Hpos : forall b, b ∈ l ++ mkBlock a s true :: r -> 0 <= bsize b).
  { intros b Hb. destruct (inv_block _ _ HI b Hb) as (_ & _ & Hv & _). pose proof (valid_pos _ Hv). lia. }
  assert (Hs0 : 0 <= s) by (apply (Hpos (mkBlock a s true)); apply elem_of_app; right; by left).
  destruct (free_checks _ _ _ _ _ HI) as (f & Ep & En & Es & ->). rewrite enter_calls. set (cs := _ ++ calls h).
  destruct (store_chain (with_calls h cs) l (mkBlock a s true) r (fun f => f <| used := false |>) s false)
    as (m1 & E1 & C1 & F1); [apply HI|done|done|]. cbn [baddr] in E1, C1. rewrite E1. cbn [mbind option_bind].
  rewrite (proj2 (Z.leb_le s _)) by exact Hs.
  set (d' := (diagnostics h) <| allocated := u32 (allocated (diagnostics h) - s) |>).
  destruct (merge_ok (with_all (with_calls h cs) (bins h) (nonempty_bin_mask h) m1 d') l a s r f)
    as (bs & mask & m & E & C & B); cbn [with_all mem] in *; try done.
  { eapply bins_ok_ext; [| |exact (hi_bins _ _ HI)]; [|intros; apply F1]. intros x t.
    rewrite !frees_app, frees_cons. cbn [bused]. split; [|tauto]. by intros [?|[(_ & _ & ?)|?]]; [tauto|..|tauto]. }
  { intros b. rewrite elem_of_app, elem_of_cons. intros [Hb|[->|Hb]]; [|cbn; lia|]; apply Hpos;
      rewrite elem_of_app, elem_of_cons; auto. }
  { intros b Hb _. by apply (tiled_in _ _ _ _ M1) in Hb as (_ & _ & ? & _). }
  match goal with |- context [merge a f ?x] =>
    change x with (with_all (with_calls h cs) (bins h) (nonempty_bin_mask h) m1 d') end.
  rewrite E. cbn [mbind option_bind]. eexists. split; [reflexivity|]. rewrite leave_calls.
  assert (Ed : d' = (diagnostics h) <| allocated := allocated (diagnostics h) - s |>).
  { unfold d'. rewrite wrap_small; [done|]. unfold fits. lia. }
  split; [|split; [exact Ed|]].
  - constructor; unfold arena_end, arena, bins_of; try done; try apply HI.
    change (u32 (allocated (diagnostics h) - s) = used_bytes (merge_list l a s r)).
    rewrite M3, <- (hi_allocated _ _ HI). apply wrap_small. unfold fits. lia.
  - constructor; try reflexivity. unfold transaction. cbn. unfold cs. by rewrite app_assoc.
Qed.

Lemma free_null h : valid_size (capacity (diagnostics h)) -> o1heapFree h NULL = Some h.
Proof. intros Hv. unfold o1heapFree. by rewrite (proj2 (Z.leb_le _ _)) by apply Hv. Qed.

End O1HeapSpec.
