(* ===== verification/O1HeapClient.v ===== *)
(** * The O(1) heap and its client

    Executions of a client that follows the protocol: it releases only what it was given and
    writes only into the bytes it asked for.  [request], [exec] and [reach] describe what such
    a client does with the functions of o1heap.c; [spec_step] is an allocator as its client
    sees it, a map of the live allocations.  The heap implements it, never fails an assertion,
    loses nothing and answers its own self-test with true. *)
From stdpp Require Import gmap.
From coqutil Require Import Datatypes.RecordSettersUsingExistingGetters.
From S2P Require Import Prelude O1Heap O1HeapBits O1HeapBins O1HeapLayout O1HeapSpec.
Import O1Heap O1HeapBits O1HeapBins O1HeapLayout O1HeapSpec.
Local Open Scope Z_scope.

Module O1HeapClient.

(** ** Executions *)

Inductive request := Allocate (amount : Z) | Free (pointer : Z).

Definition exec (h : O1HeapInstance) (r : request) : option (O1HeapInstance * Z) :=
  match r with
  | Allocate amount => o1heapAllocate h amount
  | Free pointer => h ← o1heapFree h pointer; Some (h, NULL)
  end.

(** The live allocations, each with the amount that was asked for. *)
Definition permitted (live : gmap Z Z) (r : request) : Prop :=
  match r with
  | Allocate amount => fits 32 amount
  | Free pointer => pointer = NULL \/ is_Some (live !! pointer)
  end.

Definition update (live : gmap Z Z) (r : request) (out : Z) : gmap Z Z :=
  match r with
  | Allocate amount => if out =? NULL then live else <[out := amount]> live
  | Free pointer => delete pointer live
  end.

(** Some live allocation has a byte from [lo] to below [hi]. *)
Definition touches (live : gmap Z Z) (lo hi : Z) : Prop :=
  exists p n, live !! p = Some n /\ p < hi /\ lo < p + n.

(** The client writes into its allocations: a header (16 bytes) or a pair of links (8 bytes)
    that shares no byte with them is left alone. *)
Definition client_write (live : gmap Z Z) (h h' : O1HeapInstance) : Prop :=
  exists m, h' = with_mem h m /\
    (forall x, ~ touches live x (x + 16) -> lnk m x = lnk (mem h) x /\ dat m x = dat (mem h) x) /\
    (forall x, ~ touches live (x + 16) (x + 24) -> flk m x = flk (mem h) x).

(** The states after [k] steps over an arena of [size] bytes at [base]. *)
Inductive reach (base size : Z) (enter leave : bool) : nat -> O1HeapInstance -> gmap Z Z -> Prop :=
| reach_init h :
    0 <= base -> 0 <= size -> base + size <= 2 ^ 32 ->
    o1heapInit base size enter leave = Some (Some h) -> reach base size enter leave 0 h ∅
| reach_call k h live r h' out :
    reach base size enter leave k h live -> permitted live r -> exec h r = Some (h', out) ->
    reach base size enter leave (S k) h' (update live r out)
| reach_write k h live h' :
    reach base size enter leave k h live -> client_write live h h' -> reach base size enter leave (S k) h' live
| reach_test k h live :
    reach base size enter leave k h live -> reach base size enter leave (S k) (o1heapDoInvariantsHold h).1 live
| reach_sample k h live :
    reach base size enter leave k h live -> reach base size enter leave (S k) (o1heapGetDiagnostics h).1 live.

(** ** The allocator as its client sees it *)

(** Requests are served out of the bytes from [lo] to below [hi], clear of what is live. *)
Inductive spec_step (lo hi : Z) (live : gmap Z Z) : request -> Z -> gmap Z Z -> Prop :=
| spec_oom amount : spec_step lo hi live (Allocate amount) NULL live
| spec_serve amount p :
    0 < amount -> p mod O1HEAP_ALIGNMENT = 0 -> lo <= p -> p + amount <= hi ->
    (forall q n, live !! q = Some n -> p + amount <= q \/ q + n <= p) ->
    spec_step lo hi live (Allocate amount) p (<[p := amount]> live)
| spec_release p :
    p = NULL \/ is_Some (live !! p) -> spec_step lo hi live (Free p) NULL (delete p live).

(** ** Initialisation *)

Lemma round_capacity_ok fuel cap :
  0 <= cap -> cap mod 32 <= Z.of_nat fuel -> round_capacity fuel cap = Some (cap - cap mod 32).
Proof.
  revert cap. induction fuel as [|fuel IH]; intros cap Hc Hf; cbn [round_capacity]; change FRAGMENT_SIZE_MIN with 32;
    pose proof (Z.mod_pos_bound cap 32 ltac:(lia)); destruct (Z.eqb_spec (cap mod 32) 0) as [E|E].
  - by rewrite E, Z.sub_0_r.
  - lia.
  - by rewrite E, Z.sub_0_r.
  - assert (0 < cap) by (destruct (Z.eq_dec cap 0) as [->|]; [done|lia]).
    rewrite (proj2 (Z.ltb_lt _ _)) by lia.
    assert (Em : (cap - 1) mod 32 = cap mod 32 - 1).
    { rewrite (Z.div_mod cap 32) at 1 by lia.
      replace (32 * (cap / 32) + cap mod 32 - 1) with (cap mod 32 - 1 + cap / 32 * 32) by lia.
      rewrite Z_mod_plus_full. apply Z.mod_small. lia. }
    rewrite IH by lia. f_equal. lia.
Qed.

Lemma bins_nonempty bs mask m Fr a s : bins_ok bs mask m Fr -> Fr a s -> mask <> 0.
Proof.
  intros [B HB] Ha ->. assert (Hin : a ∈ B (Z.to_nat (bin_index s))) by (apply (bh_in _ _ _ _ _ HB); eauto).
  pose proof (bh_bit _ _ _ _ _ HB (Z.to_nat (bin_index s))) as Hb. rewrite Z.bits_0 in Hb.
  pose proof (bins_null _ _ _ _ _ (Z.to_nat (bin_index s)) HB) as Hn.
  destruct (B (Z.to_nat (bin_index s))) as [|c cs]; [by apply elem_of_nil in Hin|]. cbn [hd] in Hb.
  destruct (Z.eqb_spec c NULL) as [->|]; [|done]. apply Hn. by left.
Qed.

Lemma bins_empty m : bins_ok (replicate (Z.to_nat NUM_BINS_MAX) NULL) 0 m (fun _ _ => False).
Proof.
  exists (fun _ => []). constructor; try done.
  - intros i Hi. apply lookup_replicate. done.
  - intros i. constructor.
  - intros i a. split; [by intros ?%elem_of_nil|]. by intros (s & [] & _).
  - intros i. apply Z.bits_0.
Qed.

(** The conditions under which an arena is accepted. *)
Definition arena_accepted (base size : Z) : bool :=
  negb (base =? NULL) && (base mod O1HEAP_ALIGNMENT =? 0) && (INSTANCE_SIZE_PADDED + FRAGMENT_SIZE_MIN <=? size).

Definition init_capacity (size : Z) : Z :=
  let cap := Z.min (size - INSTANCE_SIZE_PADDED) FRAGMENT_SIZE_MAX in cap - cap mod 32.

Lemma init_capacity_le size : init_capacity size <= size - INSTANCE_SIZE_PADDED.
Proof.
  unfold init_capacity. cbv zeta.
  pose proof (Z.mod_pos_bound (Z.min (size - INSTANCE_SIZE_PADDED) FRAGMENT_SIZE_MAX) 32). lia.
Qed.

Lemma init_capacity_valid size :
  INSTANCE_SIZE_PADDED + FRAGMENT_SIZE_MIN <= size -> valid_size (init_capacity size).
Proof.
  unfold init_capacity, valid_size. cbv zeta. rewrite u_arith. change FRAGMENT_SIZE_MIN with 32.
  change FRAGMENT_SIZE_MAX with (2 ^ 31). intros Hs. set (cap := Z.min (size - 176) (2 ^ 31)).
  pose proof (Z.mod_pos_bound cap 32 ltac:(lia)). pose proof (Z.div_mod cap 32 ltac:(lia)).
  assert (1 <= cap / 32) by (apply Z.div_le_lower_bound; lia). split; [lia|].
  replace (cap - cap mod 32) with (cap / 32 * 32) by lia. apply Z.mod_mul. lia.
Qed.

(** One fragment linked to nothing. *)
Lemma single_chain m a s : a <> NULL ->
  chain (<[a := mkFragment NULL NULL s false NULL NULL]> m) [mkBlock a s false].
Proof.
  intros Ha. constructor; cbn [map baddr seg hd].
  - split; [|done]. by rewrite lnk_insert, Z.eqb_refl.
  - intros b ->%list_elem_of_singleton. cbn [baddr]. by rewrite dat_insert, Z.eqb_refl.
  - apply NoDup_singleton.
  - rewrite list_elem_of_singleton. congruence.
Qed.

Lemma init_ok base size enter leave :
  0 <= base -> 0 <= size -> base + size <= 2 ^ 32 -> arena_accepted base size = true ->
  exists h, o1heapInit base size enter leave = Some (Some h) /\
    heap_inv h [mkBlock (base + INSTANCE_SIZE_PADDED) (init_capacity size) false] /\
    diagnostics h = mkDiagnostics (init_capacity size) 0 0 0 0 /\ calls h = [] /\
    handle h = base /\ critical_section_enter h = enter /\ critical_section_leave h = leave.
Proof.
  intros Hb Hs Hend Hacc. unfold o1heapInit. unfold arena_accepted in Hacc. rewrite Hacc.
  apply andb_true_iff in Hacc as [Hacc H3]. apply andb_true_iff in Hacc as [H1 H2].
  apply negb_true_iff, Z.eqb_neq in H1. apply Z.eqb_eq in H2. apply Z.leb_le in H3.
  pose proof (init_capacity_valid size H3) as Hv. pose proof (init_capacity_le size) as Hle.
  rewrite u_arith in *. change O1HEAP_ALIGNMENT with 16 in *. change FRAGMENT_SIZE_MIN with 32 in H3.
  unfold NULL in H1. rewrite (mod_of_16 base H2), Z.eqb_refl.
  set (cap0 := if FRAGMENT_SIZE_MAX <? size - 176 then FRAGMENT_SIZE_MAX else size - 176).
  assert (Ec : cap0 = Z.min (size - 176) FRAGMENT_SIZE_MAX).
  { unfold cap0. destruct (Z.ltb_spec FRAGMENT_SIZE_MAX (size - 176)); lia. }
  assert (Hc0 : 0 <= cap0) by (change FRAGMENT_SIZE_MAX with (2 ^ 31) in Ec; lia).
  pose proof (Z.mod_pos_bound cap0 32 ltac:(lia)) as Hm.
  rewrite round_capacity_ok by (rewrite ?Z2Nat.id; change FRAGMENT_SIZE_MIN with 32; lia). cbn [mbind option_bind].
  replace (cap0 - cap0 mod 32) with (init_capacity size) by (unfold init_capacity; by rewrite u_arith, Ec).
  set (cap := init_capacity size) in *. rewrite !(proj2 (Z.leb_le _ _)) by apply Hv. cbn [andb].
  assert (Hpos : 0 < cap) by (pose proof (valid_pos _ Hv); lia). rewrite wrap_small by (unfold fits; lia).
  assert (Ha : (base + 176) mod 16 = 0) by (rewrite <- Z.add_mod_idemp_l, H2 by lia; done).
  rewrite Ha, Z.eqb_refl, store_new by (unfold NULL; lia). cbn [mbind option_bind].
  set (h0 := with_mem _ _).
  destruct (rebin_block h0 [] (mkBlock (base + 176) cap false) [] (fun _ _ => False)) as (bs & mask & m & E & B & C);
    [apply single_chain; unfold NULL; lia|apply bins_empty|tauto|done|].
  cbn [baddr bsize app] in *. rewrite E. cbn [mbind option_bind].
  pose proof (bins_nonempty _ _ _ _ (base + 176) cap B (or_intror (conj eq_refl eq_refl))) as Hmask.
  cbn [nonempty_bin_mask with_bins]. rewrite (proj2 (Z.eqb_neq _ _) Hmask). cbn [negb].
  eexists. split; [reflexivity|]. split; [|done].
  constructor; unfold arena_end, arena, bins_of; cbn [handle diagnostics mem bins nonempty_bin_mask with_bins]; rewrite ?u_arith; try done.
  - split; [unfold h0; cbn; lia|done].
  - unfold h0. cbn. lia.
  - eapply bins_iff; [|exact B]. intros x t. unfold frees. cbn beta. rewrite list_elem_of_singleton.
    split; [by intros [[]|[-> ->]]|]. intros [= -> ->]. by right.
  - unfold coalesced. cbn. auto.
Qed.

(** ** The live allocations are the used blocks *)

Record owns (L : list block) (live : gmap Z Z) : Prop := {
  ow_used : forall p n, live !! p = Some n -> exists s, mkBlock (p - 16) s true ∈ L /\ 0 < n /\ n + 16 <= s;
  ow_live : forall b, b ∈ L -> bused b = true -> is_Some (live !! (baddr b + 16))
}.

Lemma in_middle {A} (l r : list A) b x : x ∈ l ++ b :: r <-> x ∈ l \/ x = b \/ x ∈ r.
Proof. by rewrite elem_of_app, elem_of_cons. Qed.

Lemma in_leftover a s fs b : b ∈ leftover a s fs -> bused b = false.
Proof. unfold leftover. destruct (fs <? s); [|by intros ?%elem_of_nil]. by intros ->%list_elem_of_singleton. Qed.

(** The used blocks after a request was served. *)
Lemma used_taken l a s fs r b :
  bused b = true ->
  b ∈ l ++ mkBlock a fs true :: leftover a s fs ++ r <-> b = mkBlock a fs true \/ b ∈ l ++ mkBlock a s false :: r.
Proof.
  intros Hu. rewrite !in_middle, elem_of_app. split.
  - intros [H|[H|[H|H]]]; auto. apply in_leftover in H. congruence.
  - intros [H|[H|[H|H]]]; auto. subst b. done.
Qed.

(** The used blocks after a block was released. *)
Lemma used_left l a b : bused b = true -> b ∈ (left_part l a).1.1 <-> b ∈ l.
Proof.
  intros Hu. destruct (list_end l) as [->|(l0 & p & ->)]; [done|]. rewrite left_part_snoc.
  destruct (bused p) eqn:Up; [done|]. cbn [fst]. rewrite in_middle, elem_of_nil. split; [tauto|].
  intros [H|[->|[]]]; [done|congruence].
Qed.

Lemma used_right r b : bused b = true -> b ∈ (right_part r).1 <-> b ∈ r.
Proof.
  intros Hu. destruct r as [|n r]; [done|]. cbn [right_part]. destruct (bused n) eqn:Un; [done|]. cbn [fst].
  rewrite elem_of_cons. split; [tauto|]. intros [->|H]; [congruence|done].
Qed.

Lemma used_merged l a s r b : bused b = true -> b ∈ merge_list l a s r <-> b ∈ l \/ b ∈ r.
Proof.
  intros Hu. unfold merge_list. rewrite <- (used_left l a b Hu), <- (used_right r b Hu).
  destruct (left_part l a) as [[l1 a1] s1], (right_part r) as [r1 s2]. cbn [fst]. rewrite in_middle.
  split; [intros [H|[->|H]]; [tauto|done|tauto]|tauto].
Qed.

Lemma owns_alloc h L amount L' out live :
  heap_inv h L -> owns L live -> alloc_result L amount L' out -> owns L' (update live (Allocate amount) out).
Proof.
  intros HI HO HR. cbn [update]. destruct HR as [Hn|l a s r -> Ham Hle]; [done|].
  destruct (inv_block _ _ HI (mkBlock a s false)) as (B1 & _); [by rewrite in_middle; auto|].
  destruct (hi_base _ _ HI) as [Hb _]. unfold arena in B1. rewrite u_arith in B1. cbn [baddr] in B1.
  rewrite (proj2 (Z.eqb_neq (a + 16) NULL)) by (unfold NULL; lia). constructor.
  - intros p n. rewrite lookup_insert. case_decide as E.
    + intros [= <-]. subst p. replace (a + 16 - 16) with a by lia. exists (rounded amount).
      rewrite used_taken by done. split; [by left|]. split; [done|].
      apply Z.log2_up_spec. lia.
    + intros Hp. destruct (ow_used _ _ HO p n Hp) as (t & Ht & Hn). exists t. rewrite used_taken by done. auto.
  - intros b Hin Hu. apply used_taken in Hin as [->|Hin]; [|  |done].
    + cbn [baddr]. by rewrite lookup_insert_eq.
    + rewrite lookup_insert. case_decide; [done|]. by apply (ow_live _ _ HO).
Qed.

Lemma owns_free h l a s r live :
  heap_inv h (l ++ mkBlock a s true :: r) -> owns (l ++ mkBlock a s true :: r) live ->
  owns (merge_list l a s r) (delete (a + 16) live).
Proof.
  intros HI HO. constructor.
  - intros p n Hp. apply lookup_delete_Some in Hp as [Hne Hp].
    destruct (ow_used _ _ HO p n Hp) as (t & Ht & Hn). exists t. rewrite used_merged by done. split; [|done].
    rewrite in_middle in Ht. destruct Ht as [|[[= E _]|]]; auto. lia.
  - intros b Hin Hu. apply used_merged in Hin; [|done].
    assert (HinL : b ∈ l ++ mkBlock a s true :: r) by (rewrite in_middle; tauto).
    rewrite lookup_delete_ne; [by apply (ow_live _ _ HO)|].
    intros E. assert (Ea : baddr b = a) by lia. pose proof (ch_nodup _ _ (hi_chain _ _ HI)) as Hnd.
    rewrite map_app in Hnd. apply NoDup_app in Hnd as (_ & N1 & N2). cbn [map baddr] in *.
    apply NoDup_cons in N2 as [N2 _]. destruct Hin as [Hin|Hin]; apply addr_in in Hin; rewrite Ea in Hin; [|done].
    apply (N1 _ Hin). by left.
Qed.

(** The bytes of a live allocation lie in its block, behind the header. *)
Lemma untouched h L live b lo hi :
  heap_inv h L -> owns L live -> b ∈ L -> baddr b <= lo -> hi <= baddr b + bsize b ->
  hi <= baddr b + 16 \/ bused b = false -> ~ touches live lo hi.
Proof.
  intros HI HO Hb Hlo Hhi Hcase (p & n & Hp & H1 & H2). destruct (ow_used _ _ HO p n Hp) as (s & Hs & Hn & Hle).
  destruct (tiled_disjoint _ _ _ _ _ (hi_tiled _ _ HI) Hb Hs) as [->|[H|H]]; cbn [baddr bsize bused] in *; [|lia..].
  destruct Hcase; [lia|done].
Qed.

Lemma write_ok h h' L live :
  heap_inv h L -> owns L live -> client_write live h h' -> heap_inv h' L.
Proof.
  intros HI HO (m & -> & Hh & Hf).
  assert (Hhd : forall b, b ∈ L -> lnk m (baddr b) = lnk (mem h) (baddr b) /\ dat m (baddr b) = dat (mem h) (baddr b)).
  { intros b Hb. apply Hh. destruct (inv_block _ _ HI b Hb) as (_ & _ & Hv & _). pose proof (valid_pos _ Hv).
    eapply untouched; [done|done|exact Hb|lia|lia|left; lia]. }
  destruct HI as [H1 H2 H3 H4 [C1 C2 C3 C4] H6 H7 H8] eqn:EHI.
  constructor; try done; unfold bins_of in *; cbn [mem with_mem bins nonempty_bin_mask].
  - constructor; try done.
    + eapply seg_frame; [|exact C1]. intros x Hx. apply list_elem_of_fmap in Hx as (b & -> & Hb). by apply Hhd.
    + intros b Hb. rewrite (proj2 (Hhd b Hb)). by apply C2.
  - eapply bins_ok_ext; [done| |exact H6]. intros a s Ha. apply Hf.
    destruct (inv_block _ _ HI _ Ha) as (_ & _ & Hv & _). pose proof (valid_pos _ Hv). cbn [bsize] in *.
    eapply untouched; [done|done|exact Ha|cbn [baddr bsize]; lia|cbn [baddr bsize]; lia|by right].
Qed.

(** ** The diagnostics *)

(** The counters after [k] steps, as long as the 64-bit counter cannot have wrapped. *)
Record diag_inv (d : O1HeapDiagnostics) (k : nat) : Prop := {
  di_peak : allocated d <= peak_allocated d <= capacity d;
  di_mod : peak_allocated d mod 32 = 0;
  di_oom : 0 <= oom_count d <= Z.of_nat k;
  di_req : 0 <= peak_request_size d < 2 ^ 32;
  di_zero : peak_request_size d = 0 -> peak_allocated d = 0 /\ oom_count d = 0;
  di_served : oom_count d = 0 -> peak_request_size d = 0 \/ peak_request_size d + 16 <= peak_allocated d
}.

Lemma diag_later d k : diag_inv d k -> diag_inv d (S k).
Proof. intros []. constructor; try done. lia. Qed.

Lemma request_diag_fields amount out d :
  let d0 := if out =? NULL then d else alloc_diag (rounded amount) d in
  let d' := request_diag amount out d in
  capacity d' = capacity d /\ allocated d' = allocated d0 /\ peak_allocated d' = peak_allocated d0 /\
  peak_request_size d' = Z.max (peak_request_size d) amount /\
  oom_count d' = (if (out =? NULL) && (0 <? amount) then u64 (oom_count d + 1) else oom_count d).
Proof.
  cbv zeta. unfold request_diag.
  set (d0 := if out =? NULL then d else alloc_diag (rounded amount) d).
  assert (E : capacity d0 = capacity d /\ peak_request_size d0 = peak_request_size d /\ oom_count d0 = oom_count d).
  { unfold d0, alloc_diag. cbv zeta. destruct (out =? NULL); [done|]. by destruct (_ <? _). }
  destruct E as (<- & <- & <-). unfold note_request. cbv zeta.
  destruct (Z.ltb_spec (peak_request_size d0) amount) as [Hlt|Hge];
    [rewrite Z.max_r by lia|rewrite Z.max_l by lia]; by destruct ((out =? NULL) && (0 <? amount))%bool.
Qed.

Lemma alloc_diag_peak fs d : peak_allocated (alloc_diag fs d) = Z.max (peak_allocated d) (u32 (allocated d + fs)).
Proof.
  unfold alloc_diag. cbv zeta.
  match goal with |- context [peak_allocated (if ?c then _ else _)] =>
    change c with (peak_allocated d <? u32 (allocated d + fs)) end.
  destruct (Z.ltb_spec (peak_allocated d) (u32 (allocated d + fs))); [rewrite Z.max_r by lia|rewrite Z.max_l by lia]; done.
Qed.

Lemma diag_request h h' L L' amount out k :
  heap_inv h L -> heap_inv h' L' -> diagnostics h' = request_diag amount out (diagnostics h) ->
  alloc_result L amount L' out -> fits 32 amount -> Z.of_nat (S k) < 2 ^ 64 ->
  diag_inv (diagnostics h) k -> diag_inv (diagnostics h') (S k).
Proof.
  intros HI HI' Ed HR Ham Hk [D1 D2 D3 D4 D5 D6].
  destruct (request_diag_fields amount out (diagnostics h)) as (E1 & E2 & E3 & E4 & E5). rewrite <- Ed in *.
  unfold fits in Ham. destruct HR as [Hn|l a s r -> Hpos Hle].
  - cbn [Z.eqb NULL] in *. change (NULL =? NULL) with true in *. cbn [andb] in *.
    constructor; rewrite ?E1, ?E2, ?E3, ?E4, ?E5; try done; destruct (Z.ltb_spec 0 amount) as [Hp|Hp]; try lia.
    all: rewrite ?wrap_small by (unfold fits; lia); lia.
  - destruct (inv_block _ _ HI (mkBlock a s false)) as (B1 & B2 & _); [by rewrite in_middle; auto|].
    destruct (hi_base _ _ HI) as [Hb _]. unfold arena in B1. rewrite u_arith in B1. cbn [baddr bsize] in *.
    rewrite (proj2 (Z.eqb_neq (a + 16) NULL)) in * by (unfold NULL; lia). cbn [andb] in *.
    rewrite alloc_diag_peak in E3. rewrite (proj2 (alloc_diag_keeps _ _)) in E2.
    rewrite <- E2 in E3. pose proof (hi_allocated _ _ HI') as HA.
    destruct (used_bytes_bounds _ _ _ (hi_tiled _ _ HI')) as [HU HM]. rewrite <- HA in HU, HM.
    destruct (inv_capacity _ _ HI') as [Hc _]. rewrite E1 in Hc.
    assert (Hnew : rounded amount <= allocated (diagnostics h')).
    { rewrite HA, used_bytes_app. cbn [used_bytes bused bsize]. rewrite used_bytes_app.
      pose proof (hi_tiled _ _ HI') as HT. apply tiled_split in HT as (T1 & _ & T2). apply tiled_app in T2 as (x & T2 & T3).
      apply used_bytes_bounds in T1, T2, T3. lia. }
    assert (amount + 16 <= rounded amount) by (apply Z.log2_up_spec; lia).
    constructor; rewrite ?E1, ?E3, ?E4, ?E5; try lia.
    destruct (Z.max_spec (peak_allocated (diagnostics h)) (allocated (diagnostics h'))) as [[_ ->]|[_ ->]]; done.
Qed.

(** ** Every execution *)

(** What holds between two states of an execution, whatever the step. *)
Record step_frame (h h' : O1HeapInstance) : Prop := {
  sf_handle : handle h' = handle h;
  sf_capacity : capacity (diagnostics h') = capacity (diagnostics h);
  sf_transaction : transaction h' = transaction h;
  sf_calls : calls h' = calls h \/ calls h' = transaction h ++ calls h
}.

Lemma frame_of_call h h' :
  call_frame h h' -> capacity (diagnostics h') = capacity (diagnostics h) -> step_frame h h'.
Proof. intros [C1 C2 C3 C4] Hc. constructor; [done|done| |by right]. unfold transaction. by rewrite C2, C3. Qed.

(** Every permitted call returns and keeps everything. *)
Lemma exec_ok h L live r :
  heap_inv h L -> owns L live -> permitted live r ->
  exists h' out L', exec h r = Some (h', out) /\ heap_inv h' L' /\ owns L' (update live r out) /\ step_frame h h' /\
    (forall k, Z.of_nat (S k) < 2 ^ 64 -> diag_inv (diagnostics h) k -> diag_inv (diagnostics h') (S k)) /\
    match r with Allocate amount => alloc_result L amount L' out | Free _ => out = NULL end.
Proof.
  intros HI HO HP. destruct r as [amount|p]; cbn [exec permitted update] in *.
  - destruct (allocate_ok h L amount HI HP) as (h' & out & L' & E & HI' & HR & Hd & HF).
    exists h', out, L'. split; [done|]. split; [done|]. split; [by apply (owns_alloc h L)|].
    split; [apply frame_of_call; [done|rewrite Hd; apply request_diag_fields]|]. split; [|done].
    intros k Hk. by apply (diag_request h h' L L' amount out k).
  - destruct HP as [->|[n Hn]].
    + rewrite free_null by apply HI. exists h, NULL, L. split; [done|]. split; [done|].
      rewrite delete_id; [|apply eq_None_not_Some; intros [n Hn]].
      * split; [done|]. split; [constructor; auto|]. split; [|done]. intros k _. apply diag_later.
      * destruct (ow_used _ _ HO _ _ Hn) as (s & Hs & _). apply (inv_block _ _ HI) in Hs as (H1 & _).
        destruct (hi_base _ _ HI) as [Hb _]. unfold arena in H1. rewrite u_arith in H1. cbn [baddr] in H1. unfold NULL in H1. lia.
    + destruct (ow_used _ _ HO _ _ Hn) as (s & Hs & Hpos & Hle). apply list_elem_of_split in Hs as (l & r & ->).
      destruct (free_ok h l (p - 16) s r HI) as (h' & E & HI' & Hd & HF). replace (p - 16 + 16) with p in E by lia.
      rewrite E. exists h', NULL, (merge_list l (p - 16) s r). split; [done|]. split; [done|].
      split; [replace (delete p live) with (delete (p - 16 + 16) live) by (f_equal; lia); by apply (owns_free h)|].
      split; [apply frame_of_call; [done|by rewrite Hd]|]. split; [|done].
      intros k _ [D1 D2 D3 D4 D5 D6]. rewrite Hd. constructor; [|exact D2| |exact D4|exact D5|exact D6].
      * change (allocated (diagnostics h) - s <= peak_allocated (diagnostics h) <= capacity (diagnostics h)). lia.
      * change (0 <= oom_count (diagnostics h) <= Z.of_nat (S k)). lia.
Qed.

Section Reachable.
Context {base size : Z} {enter leave : bool}.

Record reach_facts (k : nat) (h : O1HeapInstance) (L : list block) (live : gmap Z Z) : Prop := {
  rf_inv : heap_inv h L;
  rf_owns : owns L live;
  rf_handle : handle h = base;
  rf_capacity : capacity (diagnostics h) = init_capacity size;
  rf_diag : Z.of_nat k < 2 ^ 64 -> diag_inv (diagnostics h) k;
  rf_calls : exists n, calls h = concat (replicate n (transaction h))
}.

Lemma facts_step k h h' L L' live live' :
  reach_facts k h L live -> step_frame h h' -> heap_inv h' L' -> owns L' live' ->
  (Z.of_nat (S k) < 2 ^ 64 -> diag_inv (diagnostics h) k -> diag_inv (diagnostics h') (S k)) ->
  reach_facts (S k) h' L' live'.
Proof.
  intros [R1 R2 R3 R4 R5 [n R6]] [S1 S2 S3 S4] HI HO HD. constructor; try done; try congruence.
  - intros Hk. apply HD; [done|]. apply R5. lia.
  - rewrite S3. destruct S4 as [->| ->]; [by exists n|]. exists (S n). cbn. by rewrite R6.
Qed.

Lemma query_frame h : step_frame h (invoke_leave (invoke_enter h)).
Proof.
  rewrite leave_calls, enter_calls. constructor; try done. right. unfold transaction. cbn. by rewrite app_assoc.
Qed.

Lemma query_inv h L : heap_inv h L -> heap_inv (invoke_leave (invoke_enter h)) L.
Proof. rewrite leave_calls, enter_calls. by apply inv_same. Qed.

Lemma reach_inv k h live : reach base size enter leave k h live -> exists L, reach_facts k h L live.
Proof.
  induction 1 as [h Hb Hs Hend E|k h live r h' out HR (L & IH) HP E|k h live h' HR (L & IH) HW
                 |k h live HR (L & IH)|k h live HR (L & IH)].
  - destruct (arena_accepted base size) eqn:Hacc.
    2:{ unfold o1heapInit in E. unfold arena_accepted in Hacc. by rewrite Hacc in E. }
    destruct (init_ok base size enter leave Hb Hs Hend Hacc) as (h' & E' & HI & Hd & Hc & Hh & _).
    rewrite E in E'. injection E' as <-. eexists. split; [exact HI| |done|by rewrite Hd| |exists 0%nat; by rewrite Hc].
    + constructor; [done|]. by intros b ->%list_elem_of_singleton.
    + intros _. pose proof (valid_pos _ (hi_cap _ _ HI)) as Hcap. rewrite Hd in *. cbn in Hcap.
      constructor; cbn; try done; lia.
  - destruct (exec_ok h L live r (rf_inv _ _ _ _ IH) (rf_owns _ _ _ _ IH) HP)
      as (h2 & out2 & L' & E2 & HI & HO & HF & HD & _). rewrite E in E2. injection E2 as <- <-.
    exists L'. eapply facts_step; eauto.
  - exists L. destruct (HW) as (m & -> & _). eapply facts_step; [exact IH|by constructor; auto| | |intros _; apply diag_later].
    + by apply (write_ok h _ L live); [apply IH|apply IH|].
    + apply IH.
  - exists L. eapply facts_step; [exact IH|apply query_frame|apply query_inv, IH|apply IH|].
    intros _ HD. cbn [fst o1heapDoInvariantsHold]. rewrite leave_calls, enter_calls. by apply diag_later.
  - exists L. eapply facts_step; [exact IH|apply query_frame|apply query_inv, IH|apply IH|].
    intros _ HD. cbn [fst o1heapGetDiagnostics]. rewrite leave_calls, enter_calls. by apply diag_later.
Qed.

End Reachable.

(** ** The self-test *)

Lemma land_pow2_bit mask i : 0 <= i < 32 -> negb (Z.land mask (pow2 i) =? 0) = Z.testbit mask i.
Proof.
  intros Hi. rewrite pow2_spec by done.
  assert (E : Z.land mask (2 ^ i) = if Z.testbit mask i then 2 ^ i else 0).
  { apply Z.bits_inj'. intros j Hj. rewrite Z.land_spec, pow2_testbit by lia.
    destruct (Z.eqb_spec i j) as [->|Hne].
    - destruct (Z.testbit mask j); [by rewrite pow2_testbit, Z.eqb_refl by lia|by rewrite Z.bits_0].
    - rewrite andb_false_r. destruct (Z.testbit mask i); [|by rewrite Z.bits_0].
      rewrite pow2_testbit by lia. symmetry. by apply Z.eqb_neq. }
  rewrite E. destruct (Z.testbit mask i); [|done]. apply negb_true_iff, Z.eqb_neq.
  assert (0 < 2 ^ i) by (apply Z.pow_pos_nonneg; lia). lia.
Qed.

Lemma masks_match_ok h Fr : bins_of h Fr -> masks_match h = true.
Proof.
  intros [B HB]. unfold masks_match. apply forallb_forall. intros [i b] Hib. apply list_elem_of_In in Hib.
  apply list_elem_of_lookup in Hib as [j Hj]. apply lookup_zip_with_Some in Hj as (x & y & [= -> ->] & Hx & Hy).
  apply lookup_seq in Hx as [-> Hlt]. rewrite (bh_length _ _ _ _ _ HB) in Hlt. cbn [Nat.add fst snd].
  rewrite (bh_head _ _ _ _ _ HB j Hlt) in Hy. injection Hy as <-.
  unfold mask_matches_bin. rewrite wrap_small by (unfold fits; lia). rewrite land_pow2_bit by lia.
  rewrite (bh_bit _ _ _ _ _ HB j). apply eqb_reflx.
Qed.

Lemma query_bins h Fr cs : bins_of h Fr -> bins_of (with_calls h cs) Fr.
Proof. done. Qed.

Lemma diagnostics_valid_ok h L k :
  heap_inv h L -> diag_inv (diagnostics h) k -> diagnostics_valid (diagnostics h) = true.
Proof.
  intros HI [D1 D2 D3 D4 D5 D6]. destruct (hi_cap _ _ HI) as [[C1 C2] C3].
  destruct (used_bytes_bounds _ _ _ (hi_tiled _ _ HI)) as [U1 U2]. rewrite <- (hi_allocated _ _ HI) in U1, U2.
  unfold diagnostics_valid. change FRAGMENT_SIZE_MIN with 32 in *. change FRAGMENT_SIZE_MAX with (2 ^ 31) in *.
  rewrite C3, D2, U2. rewrite !(proj2 (Z.leb_le _ _)) by lia. cbn [andb Z.eqb].
  apply andb_true_iff. split.
  - apply orb_true_iff. destruct (Z.ltb_spec 0 (oom_count (diagnostics h))); [by right|left]. apply Z.ltb_lt. lia.
  - destruct (Z.eqb_spec (peak_request_size (diagnostics h)) 0) as [E|E].
    + destruct (D5 E) as [E1 E2]. rewrite E1, E2. replace (allocated (diagnostics h)) with 0 by lia. done.
    + apply orb_true_iff. destruct (Z.ltb_spec 0 (oom_count (diagnostics h))); [by right|left]. apply Z.leb_le.
      change O1HEAP_ALIGNMENT with 16. rewrite wrap_small by (unfold fits; lia). lia.
Qed.

(** ** Empty heaps and large requests *)

(** Without live allocations, the arena is one free block. *)
Lemma nothing_live h L :
  heap_inv h L -> owns L ∅ ->
  L = [mkBlock (arena h) (capacity (diagnostics h)) false] /\ allocated (diagnostics h) = 0.
Proof.
  intros HI HO.
  assert (Hfree : forall b, b ∈ L -> bused b = false).
  { intros b Hb. destruct (bused b) eqn:Hu; [|done]. by destruct (ow_live _ _ HO b Hb Hu) as [n Hn]. }
  pose proof (hi_tiled _ _ HI) as HT. pose proof (hi_coalesced _ _ HI) as HA. pose proof (valid_pos _ (hi_cap _ _ HI)).
  rewrite (hi_allocated _ _ HI). unfold arena_end in HT.
  destruct L as [|b [|b' L]]; cbn [tiled] in HT.
  - lia.
  - destruct HT as (T1 & T2 & T3). destruct b as [ba bs bu]. cbn [baddr bsize] in *.
    assert (bu = false) as -> by (apply (Hfree (mkBlock ba bs bu)); by left).
    subst ba. split; [do 2 f_equal; lia|done].
  - exfalso. destruct HA as [_ [[Hu|Hu] _]];
      [rewrite (Hfree b) in Hu by (by left)|rewrite (Hfree b') in Hu by (right; by left)]; done.
Qed.

Lemma rounded_fits amount cap :
  0 < amount -> 0 < cap -> amount + 16 <= 2 ^ Z.log2 cap <-> rounded amount <= cap.
Proof.
  intros Ha Hc. unfold rounded. pose proof (Z.log2_nonneg cap). pose proof (Z.log2_up_nonneg (amount + 16)).
  rewrite (Z.log2_up_le_pow2 (amount + 16)) by lia. split; intros Hle.
  - transitivity (2 ^ Z.log2 cap); [apply Z.pow_le_mono_r; lia|]. apply Z.log2_spec. lia.
  - apply Z.log2_le_pow2; lia.
Qed.

(** ** The guarantees *)

(** C3 (refinement). Refinement.  In every execution, every call that the client may make returns without
    failing an assertion, and what it returns is a step of the allocator that the client sees:
    an allocation is aligned to 16 bytes, lies inside the given memory behind the instance and
    shares no byte with any other live one, whatever the client wrote into its own. *)
Theorem o1heap_refines base size enter leave k h live r :
  reach base size enter leave k h live -> permitted live r ->
  exists h' out, exec h r = Some (h', out) /\
    spec_step (base + INSTANCE_SIZE_PADDED) (base + size) live r out (update live r out).
Proof.
  intros HR HP. destruct (reach_inv k h live HR) as (L & HF). pose proof (rf_inv _ _ _ _ HF) as HI.
  pose proof (rf_owns _ _ _ _ HF) as HO.
  destruct (exec_ok h L live r HI HO HP) as (h' & out & L' & E & HI' & HO' & _ & _ & Hout).
  exists h', out. split; [done|]. destruct r as [amount|p]; [|subst out; by apply spec_release].
  cbn [update]. destruct Hout as [|l a s r -> Hpos Hle]; [apply spec_oom|].
  assert (Hin : mkBlock a s false ∈ l ++ mkBlock a s false :: r) by (rewrite in_middle; auto).
  destruct (inv_block _ _ HI _ Hin) as (B1 & B2 & B3 & B4). cbn [baddr bsize] in *.
  destruct (hi_base _ _ HI) as [Hb _]. unfold arena_end, arena in *.
  rewrite (rf_handle _ _ _ _ HF), (rf_capacity _ _ _ _ HF) in *.
  assert (Hround : amount + 16 <= rounded amount) by (apply Z.log2_up_spec; lia).
  rewrite (proj2 (Z.eqb_neq (a + 16) NULL)) by (unfold NULL; rewrite u_arith in B1; lia).
  apply spec_serve; [done| |lia| |].
  - change O1HEAP_ALIGNMENT with 16. rewrite Z.add_mod, B4 by lia. done.
  - pose proof (init_capacity_le size). lia.
  - intros q n Hq. destruct (ow_used _ _ HO q n Hq) as (t & Ht & Hn & Hnt).
    destruct (tiled_disjoint _ _ _ _ _ (hi_tiled _ _ HI) Hin Ht) as [Eq|[H|H]]; cbn [baddr bsize] in *; [done|lia|lia].
Qed.

(** C25 (functional). Completeness.  The arena is always tiled by fragments, and a request for at least one byte
    is refused exactly when no free fragment is as large as the amount with its header,
    rounded up to a power of two. *)
Theorem o1heap_alloc_complete base size enter leave k h live amount :
  reach base size enter leave k h live -> 0 < amount < 2 ^ 32 ->
  exists L h' out,
    chain (mem h) L /\ tiled (arena h) L (arena_end h) /\ o1heapAllocate h amount = Some (h', out) /\
    (out = NULL <-> forall b, b ∈ L -> bused b = false -> bsize b < rounded amount).
Proof.
  intros HR Ham. destruct (reach_inv k h live HR) as (L & HF). pose proof (rf_inv _ _ _ _ HF) as HI.
  destruct (allocate_ok h L amount HI) as (h' & out & L' & E & _ & Hout & _); [unfold fits; lia|].
  exists L, h', out. split; [apply HI|]. split; [apply HI|]. split; [done|].
  destruct Hout as [[H|H]|l a s r -> Hpos Hle]; [lia|done|].
  assert (Hin : mkBlock a s false ∈ l ++ mkBlock a s false :: r) by (rewrite in_middle; auto).
  destruct (inv_block _ _ HI _ Hin) as (B1 & _). destruct (hi_base _ _ HI) as [Hb _].
  unfold arena in B1. rewrite u_arith in B1. cbn [baddr] in B1. split.
  - unfold NULL. lia.
  - intros Hno. specialize (Hno _ Hin eq_refl). cbn [bsize] in Hno. lia.
Qed.

(** C24 (safety). Nothing is lost.  When the client has released everything, the arena is one free fragment
    of the full capacity again, linked to nothing, and nothing is accounted as allocated,
    however the requests and releases were ordered. *)
Theorem o1heap_no_leak base size enter leave k h :
  reach base size enter leave k h ∅ ->
  chain (mem h) [mkBlock (base + INSTANCE_SIZE_PADDED) (init_capacity size) false] /\
  allocated (diagnostics h) = 0.
Proof.
  intros HR. destruct (reach_inv k h ∅ HR) as (L & HF).
  destruct (nothing_live h L (rf_inv _ _ _ _ HF) (rf_owns _ _ _ _ HF)) as [-> HA].
  split; [|done]. pose proof (hi_chain _ _ (rf_inv _ _ _ _ HF)) as HC.
  unfold arena in HC. by rewrite (rf_handle _ _ _ _ HF), (rf_capacity _ _ _ _ HF) in HC.
Qed.

(** The self-test of the heap answers true in every execution of fewer than 2 ^ 64 steps (the
    counter of failed requests has 64 bits), and the critical section hooks have been called
    in matching pairs, one pair for each transaction. *)
Theorem o1heap_invariants_hold base size enter leave k h live :
  reach base size enter leave k h live -> Z.of_nat k < 2 ^ 64 ->
  (o1heapDoInvariantsHold h).2 = true /\ exists n, calls h = concat (replicate n (transaction h)).
Proof.
  intros HR Hk. destruct (reach_inv k h live HR) as (L & HF). split; [|apply HF].
  unfold o1heapDoInvariantsHold. cbv zeta. cbn [snd]. rewrite enter_calls. apply andb_true_iff. split.
  - exact (masks_match_ok _ _ (query_bins _ _ _ (hi_bins _ _ (rf_inv _ _ _ _ HF)))).
  - exact (diagnostics_valid_ok h L k (rf_inv _ _ _ _ HF) (rf_diag _ _ _ _ HF Hk)).
Qed.

(** The largest request.  Whenever nothing is live, a request is served exactly when the amount
    and the header fit into the largest power of two that the capacity holds.  The header file
    promises the capacity less the alignment, which is more whenever the capacity is not a
    power of two. *)
Theorem o1heap_fresh_limit base size enter leave k h amount :
  reach base size enter leave k h ∅ -> 0 < amount < 2 ^ 32 ->
  exists h' out, o1heapAllocate h amount = Some (h', out) /\
    (out <> NULL <-> amount + O1HEAP_ALIGNMENT <= 2 ^ Z.log2 (capacity (diagnostics h))).
Proof.
  intros HR Ham. destruct (reach_inv k h ∅ HR) as (L & HF). pose proof (rf_inv _ _ _ _ HF) as HI.
  destruct (allocate_ok h L amount HI) as (h' & out & L' & E & _ & Hout & _); [unfold fits; lia|].
  exists h', out. split; [done|]. change O1HEAP_ALIGNMENT with 16.
  destruct (nothing_live h L HI (rf_owns _ _ _ _ HF)) as [EL _]. pose proof (valid_pos _ (hi_cap _ _ HI)) as Hcap.
  rewrite (rounded_fits amount (capacity (diagnostics h))) by lia.
  subst L. destruct Hout as [[H|H]|l a s r EL Hpos Hle]; [lia| |].
  - split; [done|]. intros Hle. specialize (H _ (list_elem_of_here _ _) eq_refl). cbn [bsize] in H. lia.
  - assert (Hin : mkBlock a s false ∈ [mkBlock (arena h) (capacity (diagnostics h)) false]).
    { rewrite EL, in_middle. auto. }
    apply list_elem_of_singleton in Hin as [= -> ->]. destruct (hi_base _ _ HI) as [Hb _].
    split; [done|]. intros _. unfold arena, NULL. rewrite u_arith. lia.
Qed.

(** ** A heap of the size that the UAVCAN driver gives it *)

Definition driver_base : Z := 0x20000000.
Definition driver_size : Z := 8192.

Definition driver_heap : O1HeapInstance :=
  match o1heapInit driver_base driver_size true true with
  | Some (Some h) => h
  | _ => mkHeap 0 [] 0 false false (mkDiagnostics 0 0 0 0 0) ∅ []
  end.

Definition after (h : O1HeapInstance) (r : request) : O1HeapInstance :=
  match exec h r with Some (h', _) => h' | None => h end.

Definition answer (h : O1HeapInstance) (r : request) : Z :=
  match exec h r with Some (_, out) => out | None => 0 end.

(** Two allocations, the first of them released. *)
Definition driver_heap1 : O1HeapInstance := after driver_heap (Allocate 100).
Definition driver_heap2 : O1HeapInstance := after driver_heap1 (Allocate 40).
Definition first_pointer : Z := answer driver_heap (Allocate 100).
Definition second_pointer : Z := answer driver_heap1 (Allocate 40).

Lemma driver_reach : reach driver_base driver_size true true 0 driver_heap ∅.
Proof. apply reach_init; [done|done|done|]. vm_compute. reflexivity. Qed.

Lemma driver_reach2 :
  reach driver_base driver_size true true 2 driver_heap2 (<[second_pointer := 40]> (<[first_pointer := 100]> ∅)).
Proof.
  change (<[second_pointer := 40]> (<[first_pointer := 100]> ∅))
    with (update (update ∅ (Allocate 100) first_pointer) (Allocate 40) second_pointer).
  apply (reach_call _ _ _ _ 1 driver_heap1); [|done|vm_compute; reflexivity].
  apply (reach_call _ _ _ _ 0 driver_heap); [apply driver_reach|done|vm_compute; reflexivity].
Qed.

Lemma driver_reach3 :
  reach driver_base driver_size true true 4 (after (after driver_heap2 (Free first_pointer)) (Free second_pointer)) ∅.
Proof.
  replace (∅ : gmap Z Z) with (update (update (<[second_pointer := 40]> (<[first_pointer := 100]> ∅)) (Free first_pointer) 0)
    (Free second_pointer) 0) by (vm_compute; reflexivity).
  apply (reach_call _ _ _ _ 3 (after driver_heap2 (Free first_pointer))); [|right; vm_compute; by eexists|vm_compute; reflexivity].
  apply (reach_call _ _ _ _ 2 driver_heap2); [apply driver_reach2|right; vm_compute; by eexists|vm_compute; reflexivity].
Qed.

Lemma o1heap_refines_witness :
  exists h' out, exec driver_heap2 (Allocate 60) = Some (h', out) /\
    spec_step (driver_base + INSTANCE_SIZE_PADDED) (driver_base + driver_size)
      (<[second_pointer := 40]> (<[first_pointer := 100]> ∅)) (Allocate 60) out
      (update (<[second_pointer := 40]> (<[first_pointer := 100]> ∅)) (Allocate 60) out).
Proof. apply (o1heap_refines driver_base driver_size true true 2); [apply driver_reach2|split; done]. Defined.

Lemma o1heap_alloc_complete_witness :
  exists L h' out, chain (mem driver_heap2) L /\ tiled (arena driver_heap2) L (arena_end driver_heap2) /\
    o1heapAllocate driver_heap2 4000 = Some (h', out) /\
    (out = NULL <-> forall b, b ∈ L -> bused b = false -> bsize b < rounded 4000).
Proof. apply (o1heap_alloc_complete driver_base driver_size true true 2 _ _ _ driver_reach2); done. Defined.

Lemma o1heap_no_leak_witness :
  chain (mem (after (after driver_heap2 (Free first_pointer)) (Free second_pointer)))
    [mkBlock (driver_base + INSTANCE_SIZE_PADDED) (init_capacity driver_size) false] /\
  allocated (diagnostics (after (after driver_heap2 (Free first_pointer)) (Free second_pointer))) = 0.
Proof. exact (o1heap_no_leak driver_base driver_size true true 4 _ driver_reach3). Defined.

Lemma o1heap_invariants_hold_witness :
  (o1heapDoInvariantsHold driver_heap2).2 = true /\
  exists n, calls driver_heap2 = concat (replicate n (transaction driver_heap2)).
Proof. apply (o1heap_invariants_hold driver_base driver_size true true 2 _ _ driver_reach2). done. Defined.

(** The driver's heap has a capacity of 8000 bytes after rounding, and refuses 4096. *)
Lemma o1heap_fresh_limit_witness :
  exists h' out, o1heapAllocate driver_heap 4096 = Some (h', out) /\
    (out <> NULL <-> 4096 + O1HEAP_ALIGNMENT <= 2 ^ Z.log2 (capacity (diagnostics driver_heap))).
Proof. apply (o1heap_fresh_limit driver_base driver_size true true 0 _ _ driver_reach); done. Defined.

Lemma driver_limit :
  capacity (diagnostics driver_heap) = 8000 /\ answer driver_heap (Allocate 4080) <> NULL /\
  answer driver_heap (Allocate 4081) = NULL.
Proof. vm_compute. done. Qed.

End O1HeapClient.
