(* ===== verification/NavState.v ===== *)
(** * Main state and navigation state of the commander

    src/src/modules/commander/state_machine_helper.cpp and .h: what the pilot asked for (the
    main state), what the vehicle should do (the navigation state), and the failsafe decisions
    that lead from one to the other.  The messages vehicle_status, vehicle_status_flags,
    actuator_armed and commander_state are records with the fields the code uses; one time
    stands for the calls of hrt_absolute_time within a function; messages to the user are left
    out. *)
From coqutil Require Import Datatypes.RecordSettersUsingExistingGetters.
From S2P Require Import Prelude Float32.
Local Open Scope Z_scope.

Module NavState.

(** ** Data *)

Inductive transition_result_t := TRANSITION_DENIED | TRANSITION_NOT_CHANGED | TRANSITION_CHANGED.

Inductive main_state_t :=
| MAIN_STATE_MANUAL | MAIN_STATE_ALTCTL | MAIN_STATE_POSCTL | MAIN_STATE_AUTO_MISSION
| MAIN_STATE_AUTO_LOITER | MAIN_STATE_AUTO_RTL | MAIN_STATE_ACRO | MAIN_STATE_OFFBOARD
| MAIN_STATE_STAB | MAIN_STATE_AUTO_TAKEOFF | MAIN_STATE_AUTO_LAND | MAIN_STATE_AUTO_FOLLOW_TARGET
| MAIN_STATE_AUTO_PRECLAND | MAIN_STATE_ORBIT | MAIN_STATE_AUTO_VTOL_TAKEOFF | MAIN_STATE_MAX
| MAIN_STATE_OTHER (v : Z).            (** any other byte *)

Inductive navigation_state_t :=
| NAVIGATION_STATE_MANUAL | NAVIGATION_STATE_ALTCTL | NAVIGATION_STATE_POSCTL
| NAVIGATION_STATE_AUTO_MISSION | NAVIGATION_STATE_AUTO_LOITER | NAVIGATION_STATE_AUTO_RTL
| NAVIGATION_STATE_AUTO_LANDENGFAIL | NAVIGATION_STATE_ACRO | NAVIGATION_STATE_DESCEND
| NAVIGATION_STATE_TERMINATION | NAVIGATION_STATE_OFFBOARD | NAVIGATION_STATE_STAB
| NAVIGATION_STATE_AUTO_TAKEOFF | NAVIGATION_STATE_AUTO_LAND | NAVIGATION_STATE_AUTO_FOLLOW_TARGET
| NAVIGATION_STATE_AUTO_PRECLAND | NAVIGATION_STATE_ORBIT | NAVIGATION_STATE_AUTO_VTOL_TAKEOFF.

Inductive arming_state_t :=
| ARMING_STATE_INIT | ARMING_STATE_STANDBY | ARMING_STATE_ARMED | ARMING_STATE_STANDBY_ERROR
| ARMING_STATE_SHUTDOWN | ARMING_STATE_IN_AIR_RESTORE.

Inductive vehicle_type_t :=
| VEHICLE_TYPE_UNKNOWN | VEHICLE_TYPE_ROTARY_WING | VEHICLE_TYPE_FIXED_WING | VEHICLE_TYPE_ROVER
| VEHICLE_TYPE_AIRSHIP.

#[export] Instance main_state_eq_dec : EqDecision main_state_t.
Proof. solve_decision. Defined.
#[export] Instance navigation_state_eq_dec : EqDecision navigation_state_t.
Proof. solve_decision. Defined.
#[export] Instance arming_state_eq_dec : EqDecision arming_state_t.
Proof. solve_decision. Defined.
#[export] Instance vehicle_type_eq_dec : EqDecision vehicle_type_t.
Proof. solve_decision. Defined.

Record vehicle_status := mkStatus {
  nav_state : navigation_state_t;
  nav_state_timestamp : Z;
  arming_state : arming_state_t;
  hil_on : bool;                         (** hil_state is HIL_STATE_ON *)
  failsafe : bool;
  failsafe_timestamp : Z;
  vehicle_type : vehicle_type_t;
  is_vtol : bool;
  vtol_fw_permanent_stab : bool;
  in_transition_mode : bool;
  rc_signal_lost : bool;
  data_link_lost : bool;
  engine_failure : bool;
  mission_failure : bool;
  geofence_violated : bool;
  latest_arming_reason : Z;
  latest_disarming_reason : Z;
  armed_time : Z;
  takeoff_time : Z
}.

Record vehicle_status_flags := mkFlags {
  angular_velocity_valid : bool;
  attitude_valid : bool;
  local_altitude_valid : bool;
  local_position_valid : bool;
  local_velocity_valid : bool;
  global_position_valid : bool;
  home_position_valid : bool;
  auto_mission_available : bool;
  offboard_control_signal_lost : bool;
  rc_signal_found_once : bool;
  vtol_transition_failure : bool;
  system_sensors_initialized : bool;
  flight_terminated : bool;
  usb_connected : bool;
  power_input_valid : bool;
  battery_healthy : bool;
  avoidance_system_required : bool;
  avoidance_system_valid : bool;
  escs_error : bool;
  escs_failure : bool;
  circuit_breaker_engaged_usb_check : bool;
  circuit_breaker_engaged_power_check : bool;
  circuit_breaker_engaged_posfailure_check : bool;
  circuit_breaker_vtol_fw_arming_check : bool;
  circuit_breaker_flight_termination_disabled : bool
}.

Record actuator_armed := mkArmed {
  armed : bool;
  ready_to_arm : bool;
  lockdown : bool;
  manual_lockdown : bool;
  force_failsafe : bool
}.

Record commander_state := mkInternal {
  main_state : main_state_t;
  main_state_changes : Z;
  internal_timestamp : Z
}.

(** The three messages the failsafe logic reads and writes. *)
Record nav_ctx := mkCtx {
  status : vehicle_status;
  arm : actuator_armed;
  internal : commander_state
}.

(** *** Configuration *)

(** The enumerations of the failsafe actions; the last constructor stands for the other
    integers that a parameter can hold. *)
Inductive link_loss_actions_t :=
| LL_DISABLED | LL_AUTO_LOITER | LL_AUTO_RTL | LL_AUTO_LAND | LL_TERMINATE | LL_LOCKDOWN | LL_OTHER (v : Z).

Inductive quadchute_actions_t := QC_NO_ACTION | QC_AUTO_RTL | QC_AUTO_LAND | QC_AUTO_LOITER | QC_OTHER (v : Z).

Inductive offboard_loss_actions_t :=
| OL_DISABLED | OL_AUTO_LAND | OL_AUTO_LOITER | OL_AUTO_RTL | OL_TERMINATE | OL_LOCKDOWN | OL_OTHER (v : Z).

Inductive offboard_loss_rc_actions_t :=
| OR_DISABLED | OR_MANUAL_POSITION | OR_MANUAL_ALTITUDE | OR_MANUAL_ATTITUDE | OR_AUTO_RTL
| OR_AUTO_LAND | OR_AUTO_LOITER | OR_TERMINATE | OR_LOCKDOWN | OR_OTHER (v : Z).

Inductive position_nav_loss_actions_t := PL_ALTITUDE_MANUAL | PL_LAND_TERMINATE | PL_OTHER (v : Z).

Definition link_loss_code (a : link_loss_actions_t) : Z :=
  match a with
  | LL_DISABLED => 0 | LL_AUTO_LOITER => 1 | LL_AUTO_RTL => 2 | LL_AUTO_LAND => 3
  | LL_TERMINATE => 5 | LL_LOCKDOWN => 6 | LL_OTHER v => v
  end.

Definition RCL_EXCEPT_MISSION : Z := Z.shiftl 1 0.
Definition RCL_EXCEPT_HOLD : Z := Z.shiftl 1 1.
Definition RCL_EXCEPT_OFFBOARD : Z := Z.shiftl 1 2.

(** The arguments of [set_nav_state] that are not messages. *)
Record nav_config := mkConfig {
  data_link_loss_act : link_loss_actions_t;
  mission_finished : bool;
  stay_in_failsafe : bool;
  landed : bool;
  rc_loss_act : link_loss_actions_t;
  offb_loss_act : offboard_loss_actions_t;
  quadchute_act : quadchute_actions_t;
  offb_loss_rc_act : offboard_loss_rc_actions_t;
  posctl_nav_loss_act : position_nav_loss_actions_t;
  param_com_rcl_act_t : f32;
  param_com_rcl_except : Z
}.

(** ** Time *)

Definition one_s : Z := 1000000.

Definition hrt_elapsed_time (now ts : Z) : Z := u64 (now - ts).

(** [hrt_elapsed_time(&ts) < delay * 1_s], in single precision. *)
Definition elapsed_less (now ts : Z) (delay : f32) : bool :=
  flt (f32_of_Z (hrt_elapsed_time now ts)) (fmul delay (f32_of_Z one_s)).

(** ** Main state *)

Definition rotary_wing (s : vehicle_status) : bool := bool_decide (vehicle_type s = VEHICLE_TYPE_ROTARY_WING).

(** The conditions of each main state. *)
Definition main_state_allowed (s : vehicle_status) (new_main_state : main_state_t)
    (f : vehicle_status_flags) : bool :=
  match new_main_state with
  | MAIN_STATE_MANUAL | MAIN_STATE_STAB | MAIN_STATE_ACRO => true
  | MAIN_STATE_ALTCTL => local_altitude_valid f || global_position_valid f
  | MAIN_STATE_POSCTL => local_position_valid f || global_position_valid f
  | MAIN_STATE_AUTO_LOITER => global_position_valid f
  | MAIN_STATE_AUTO_FOLLOW_TARGET | MAIN_STATE_ORBIT | MAIN_STATE_AUTO_VTOL_TAKEOFF => rotary_wing s
  | MAIN_STATE_AUTO_MISSION => global_position_valid f && auto_mission_available f
  | MAIN_STATE_AUTO_RTL => global_position_valid f && home_position_valid f
  | MAIN_STATE_AUTO_TAKEOFF | MAIN_STATE_AUTO_LAND => local_position_valid f
  | MAIN_STATE_AUTO_PRECLAND => local_position_valid f && global_position_valid f && rotary_wing s
  | MAIN_STATE_OFFBOARD => negb (offboard_control_signal_lost f)
  | MAIN_STATE_MAX | MAIN_STATE_OTHER _ => false
  end.

Definition main_state_transition (now : Z) (s : vehicle_status) (new_main_state : main_state_t)
    (f : vehicle_status_flags) (i : commander_state) : transition_result_t * commander_state :=
  if main_state_allowed s new_main_state f then
    if bool_decide (main_state i = new_main_state) then (TRANSITION_NOT_CHANGED, i)
    else (TRANSITION_CHANGED, mkInternal new_main_state (u16 (main_state_changes i + 1)) now)
  else (TRANSITION_DENIED, i).

(** ** Failsafe reactions *)

Definition set_nav (n : navigation_state_t) (c : nav_ctx) : nav_ctx :=
  c <| status := (status c) <| nav_state := n |> |>.

Definition set_main (m : main_state_t) (c : nav_ctx) : nav_ctx :=
  c <| internal := (internal c) <| main_state := m |> |>.

Definition set_force_failsafe (b : bool) (c : nav_ctx) : nav_ctx :=
  c <| arm := (arm c) <| force_failsafe := b |> |>.

Definition set_lockdown (b : bool) (c : nav_ctx) : nav_ctx :=
  c <| arm := (arm c) <| lockdown := b |> |>.

Definition go_main (now : Z) (m : main_state_t) (f : vehicle_status_flags) (c : nav_ctx) : nav_ctx :=
  c <| internal := snd (main_state_transition now (status c) m f (internal c)) |>.

Definition is_armed (c : nav_ctx) : bool := bool_decide (arming_state (status c) = ARMING_STATE_ARMED).

Definition enable_failsafe (now : Z) (old_failsafe : bool) (c : nav_ctx) : nav_ctx :=
  let s := status c in
  let s := if negb old_failsafe && bool_decide (arming_state s = ARMING_STATE_ARMED) then
             if (failsafe_timestamp s =? 0) || (30 * one_s <? hrt_elapsed_time now (failsafe_timestamp s))
             then s <| failsafe_timestamp := now |> else s
           else s in
  c <| status := s <| failsafe := true |> |>.

(** Falls back when the position estimate a mode needs is missing; true if it did. *)
Definition check_invalid_pos_nav_state (now : Z) (old_failsafe : bool) (f : vehicle_status_flags)
    (use_rc using_global_pos : bool) (c : nav_ctx) : bool * nav_ctx :=
  let fallback_required :=
    if using_global_pos && negb (global_position_valid f) then true
    else negb using_global_pos && (negb (local_position_valid f) || negb (local_velocity_valid f)) in
  if fallback_required then
    let n := if use_rc then
               if rotary_wing (status c) && local_position_valid f then NAVIGATION_STATE_POSCTL
               else if local_altitude_valid f then NAVIGATION_STATE_ALTCTL
               else NAVIGATION_STATE_STAB
             else if local_position_valid f then NAVIGATION_STATE_AUTO_LAND
             else if local_altitude_valid f then NAVIGATION_STATE_DESCEND
             else NAVIGATION_STATE_TERMINATION in
    (true, enable_failsafe now old_failsafe (set_nav n c))
  else (false, c).

(** The cases of [set_link_loss_nav_state], each falling through to the next. *)
Definition link_loss_terminate (c : nav_ctx) : nav_ctx :=
  set_force_failsafe true (set_nav NAVIGATION_STATE_TERMINATION c).

Definition link_loss_land (now : Z) (f : vehicle_status_flags) (c : nav_ctx) : nav_ctx :=
  if global_position_valid f then
    set_nav NAVIGATION_STATE_AUTO_LAND (go_main now MAIN_STATE_AUTO_LAND f c)
  else if local_position_valid f then set_nav NAVIGATION_STATE_AUTO_LAND c
  else if local_altitude_valid f then set_nav NAVIGATION_STATE_DESCEND c
  else link_loss_terminate c.

Definition link_loss_loiter (now : Z) (f : vehicle_status_flags) (c : nav_ctx) : nav_ctx :=
  if global_position_valid f then set_nav NAVIGATION_STATE_AUTO_LOITER c
  else link_loss_land now f c.

Definition link_loss_rtl (now : Z) (f : vehicle_status_flags) (c : nav_ctx) : nav_ctx :=
  if global_position_valid f && home_position_valid f then
    set_nav NAVIGATION_STATE_AUTO_RTL (go_main now MAIN_STATE_AUTO_RTL f c)
  else link_loss_loiter now f c.

Definition set_link_loss_nav_state (now : Z) (f : vehicle_status_flags) (link_loss_act : link_loss_actions_t)
    (ll_delay : f32) (c : nav_ctx) : nav_ctx :=
  let delayed := elapsed_less now (failsafe_timestamp (status c)) ll_delay in
  let act := match link_loss_act with
             | LL_DISABLED => LL_DISABLED
             | a => if delayed then LL_AUTO_LOITER else a
             end in
  match act with
  | LL_DISABLED => c
  | LL_AUTO_RTL => link_loss_rtl now f c
  | LL_AUTO_LOITER => link_loss_loiter now f c
  | LL_AUTO_LAND => link_loss_land now f c
  | LL_TERMINATE => link_loss_terminate c
  | LL_LOCKDOWN => set_lockdown true c
  | LL_OTHER _ => c
  end.

Definition reset_link_loss_globals (old_failsafe : bool) (link_loss_act : link_loss_actions_t) (c : nav_ctx) : nav_ctx :=
  if old_failsafe then
    match link_loss_act with
    | LL_TERMINATE => set_force_failsafe false c
    | LL_LOCKDOWN => set_lockdown false c
    | _ => c
    end
  else c.

Definition set_quadchute_nav_state (f : vehicle_status_flags) (quadchute_act : quadchute_actions_t) (c : nav_ctx)
  : nav_ctx :=
  match quadchute_act with
  | QC_NO_ACTION => c
  | QC_AUTO_RTL | QC_OTHER _ =>
      if global_position_valid f && home_position_valid f then set_nav NAVIGATION_STATE_AUTO_RTL c else c
  | QC_AUTO_LAND => if global_position_valid f then set_nav NAVIGATION_STATE_AUTO_LAND c else c
  | QC_AUTO_LOITER => if global_position_valid f then set_nav NAVIGATION_STATE_AUTO_LOITER c else c
  end.

(** If none of the actions worked, try to mitigate. *)
Definition mitigate (f : vehicle_status_flags) (c : nav_ctx) : nav_ctx :=
  if local_altitude_valid f then set_nav NAVIGATION_STATE_DESCEND c
  else set_nav NAVIGATION_STATE_TERMINATION c.

(** The land, hold and return cases of both offboard loss reactions. *)
Definition offboard_land (f : vehicle_status_flags) (c : nav_ctx) : nav_ctx :=
  if global_position_valid f then set_nav NAVIGATION_STATE_AUTO_LAND c else mitigate f c.

Definition offboard_loiter (f : vehicle_status_flags) (c : nav_ctx) : nav_ctx :=
  if global_position_valid f then set_nav NAVIGATION_STATE_AUTO_LOITER c else offboard_land f c.

Definition offboard_rtl (f : vehicle_status_flags) (c : nav_ctx) : nav_ctx :=
  if global_position_valid f && home_position_valid f then set_nav NAVIGATION_STATE_AUTO_RTL c
  else offboard_loiter f c.

Definition set_offboard_loss_nav_state (f : vehicle_status_flags) (offboard_loss_act : offboard_loss_actions_t)
    (c : nav_ctx) : nav_ctx :=
  match offboard_loss_act with
  | OL_DISABLED => c
  | OL_TERMINATE => set_force_failsafe true (set_nav NAVIGATION_STATE_TERMINATION c)
  | OL_LOCKDOWN => set_lockdown true c
  | OL_AUTO_RTL => offboard_rtl f c
  | OL_AUTO_LOITER => offboard_loiter f c
  | OL_AUTO_LAND => offboard_land f c
  | OL_OTHER _ => mitigate f c
  end.

Definition manual_altitude (f : vehicle_status_flags) (c : nav_ctx) : nav_ctx :=
  if local_altitude_valid f then set_nav NAVIGATION_STATE_ALTCTL c else set_nav NAVIGATION_STATE_MANUAL c.

Definition manual_position (f : vehicle_status_flags) (c : nav_ctx) : nav_ctx :=
  if rotary_wing (status c) && local_position_valid f then set_nav NAVIGATION_STATE_POSCTL c
  else if global_position_valid f then set_nav NAVIGATION_STATE_POSCTL c
  else manual_altitude f c.

Definition set_offboard_loss_rc_nav_state (f : vehicle_status_flags)
    (offboard_loss_rc_act : offboard_loss_rc_actions_t) (c : nav_ctx) : nav_ctx :=
  match offboard_loss_rc_act with
  | OR_DISABLED => c
  | OR_TERMINATE => set_force_failsafe true (set_nav NAVIGATION_STATE_TERMINATION c)
  | OR_LOCKDOWN => set_lockdown true c
  | OR_MANUAL_POSITION => manual_position f c
  | OR_MANUAL_ALTITUDE => manual_altitude f c
  | OR_MANUAL_ATTITUDE => set_nav NAVIGATION_STATE_MANUAL c
  | OR_AUTO_RTL => offboard_rtl f c
  | OR_AUTO_LOITER => offboard_loiter f c
  | OR_AUTO_LAND => offboard_land f c
  | OR_OTHER _ => mitigate f c
  end.

Definition reset_offboard_loss_globals (old_failsafe : bool) (offboard_loss_act : offboard_loss_actions_t)
    (offboard_loss_rc_act : offboard_loss_rc_actions_t) (c : nav_ctx) : nav_ctx :=
  if old_failsafe then
    let terminate := match offboard_loss_act, offboard_loss_rc_act with
                     | OL_TERMINATE, _ | _, OR_TERMINATE => true | _, _ => false end in
    let lock := match offboard_loss_act, offboard_loss_rc_act with
                | OL_LOCKDOWN, _ | _, OR_LOCKDOWN => true | _, _ => false end in
    let c := if terminate then set_force_failsafe false c else c in
    if lock then set_lockdown false c else c
  else c.

(** ** The navigation state *)

Section Decision.
Context (now : Z) (g : nav_config) (f : vehicle_status_flags) (old_failsafe : bool).

Definition data_link_loss_act_configured : bool := 0 <? link_loss_code (data_link_loss_act g).

Definition rcl_except (bit : Z) : bool := negb (Z.land (param_com_rcl_except g) bit =? 0).

Definition failsafe_link (act : link_loss_actions_t) (delay : f32) (c : nav_ctx) : nav_ctx :=
  set_link_loss_nav_state now f act delay (enable_failsafe now old_failsafe c).

Definition invalid_pos (use_rc using_global_pos : bool) (c : nav_ctx) : bool * nav_ctx :=
  check_invalid_pos_nav_state now old_failsafe f use_rc using_global_pos c.

(** [is_armed && check_invalid_pos_nav_state(...)]: the check only runs while armed. *)
Definition armed_invalid_pos (using_global_pos : bool) (c : nav_ctx) : bool * nav_ctx :=
  if is_armed c then invalid_pos false using_global_pos c else (false, c).

(** Manual modes without position control require RC. *)
Definition nav_manual (c : nav_ctx) : nav_ctx :=
  if rc_signal_lost (status c) && is_armed c then failsafe_link (rc_loss_act g) (param_com_rcl_act_t g) c
  else set_nav (match main_state (internal c) with
                | MAIN_STATE_ACRO => NAVIGATION_STATE_ACRO
                | MAIN_STATE_MANUAL => NAVIGATION_STATE_MANUAL
                | MAIN_STATE_STAB => NAVIGATION_STATE_STAB
                | MAIN_STATE_ALTCTL => NAVIGATION_STATE_ALTCTL
                | _ => NAVIGATION_STATE_MANUAL
                end) c.

Definition nav_posctl (c : nav_ctx) : nav_ctx :=
  let rc_fallback_allowed := match posctl_nav_loss_act g with PL_LAND_TERMINATE => false | _ => true end
                             || negb (is_armed c) in
  if rc_signal_lost (status c) && is_armed c then failsafe_link (rc_loss_act g) (param_com_rcl_act_t g) c
  else let '(fell_back, c) := invalid_pos rc_fallback_allowed
                                (bool_decide (vehicle_type (status c) = VEHICLE_TYPE_FIXED_WING)) c in
       if fell_back then c else set_nav NAVIGATION_STATE_POSCTL c.

(** The conditions of the link loss reactions of the automatic modes. *)
Definition data_link_react (c : nav_ctx) : bool :=
  data_link_lost (status c) && data_link_loss_act_configured && is_armed c && negb (landed g).

Definition rc_react (except : Z) (c : nav_ctx) : bool :=
  rc_signal_lost (status c) && negb (rcl_except except) && rc_signal_found_once f && is_armed c && negb (landed g).

Definition all_links_react (except : Z) (c : nav_ctx) : bool :=
  rc_signal_lost (status c) && negb (rcl_except except) && data_link_lost (status c)
  && negb data_link_loss_act_configured && is_armed c && negb (landed g).

Definition nav_mission (c : nav_ctx) : nav_ctx :=
  let '(fell_back, c) := armed_invalid_pos true c in
  if fell_back then c
  else if engine_failure (status c) then set_nav NAVIGATION_STATE_AUTO_LANDENGFAIL c
  else if vtol_transition_failure f then set_quadchute_nav_state f (quadchute_act g) c
  else if mission_failure (status c) then set_nav NAVIGATION_STATE_AUTO_RTL c
  else if data_link_react c then failsafe_link (data_link_loss_act g) f0 c
  else if rc_react RCL_EXCEPT_MISSION c then failsafe_link (rc_loss_act g) (param_com_rcl_act_t g) c
  else if all_links_react RCL_EXCEPT_MISSION c then failsafe_link (rc_loss_act g) f0 c
  else if rc_signal_lost (status c) && rcl_except RCL_EXCEPT_MISSION && data_link_lost (status c)
          && negb data_link_loss_act_configured && is_armed c && negb (landed g) && mission_finished g
       then failsafe_link LL_AUTO_RTL f0 c
  else if negb (stay_in_failsafe g) then set_nav NAVIGATION_STATE_AUTO_MISSION c
  else c.

(** Hold and takeoff: the same reactions, with another requirement on the position. *)
Definition nav_hold (using_global_pos : bool) (n : navigation_state_t) (c : nav_ctx) : nav_ctx :=
  if engine_failure (status c) then set_nav NAVIGATION_STATE_AUTO_LANDENGFAIL c
  else
    let '(fell_back, c) := armed_invalid_pos using_global_pos c in
    if fell_back then c
    else if vtol_transition_failure f then set_quadchute_nav_state f (quadchute_act g) c
    else if data_link_react c then failsafe_link (data_link_loss_act g) f0 c
    else if rc_react RCL_EXCEPT_HOLD c then failsafe_link (rc_loss_act g) (param_com_rcl_act_t g) c
    else if all_links_react RCL_EXCEPT_HOLD c then failsafe_link (rc_loss_act g) f0 c
    else set_nav n c.

(** Return, follow, land and precision land: only the position and the engine count. *)
Definition nav_auto (using_global_pos : bool) (n : navigation_state_t) (c : nav_ctx) : nav_ctx :=
  if engine_failure (status c) then set_nav NAVIGATION_STATE_AUTO_LANDENGFAIL c
  else
    let '(fell_back, c) := armed_invalid_pos using_global_pos c in
    if fell_back then c else set_nav n c.

Definition nav_orbit (c : nav_ctx) : nav_ctx :=
  if engine_failure (status c) then
    set_main MAIN_STATE_POSCTL (set_nav NAVIGATION_STATE_AUTO_LANDENGFAIL c)
  else
    let '(fell_back, c) := armed_invalid_pos true c in
    if fell_back then set_main MAIN_STATE_POSCTL c
    else if data_link_react c then
      set_main MAIN_STATE_POSCTL
        (enable_failsafe now old_failsafe (set_link_loss_nav_state now f (data_link_loss_act g) f0 c))
    else if rc_signal_lost (status c) && data_link_lost (status c) && negb data_link_loss_act_configured && is_armed c
    then set_main MAIN_STATE_POSCTL (failsafe_link (rc_loss_act g) f0 c)
    else set_nav NAVIGATION_STATE_ORBIT c.

Definition nav_offboard (c : nav_ctx) : nav_ctx :=
  if offboard_control_signal_lost f then
    let c' := enable_failsafe now old_failsafe c in
    if rc_signal_lost (status c) then set_offboard_loss_nav_state f (offb_loss_act g) c'
    else if rcl_except RCL_EXCEPT_OFFBOARD then set_offboard_loss_nav_state f (offb_loss_act g) c'
    else set_offboard_loss_rc_nav_state f (offb_loss_rc_act g) c'
  else if rc_signal_lost (status c) && negb (rcl_except RCL_EXCEPT_OFFBOARD)
  then failsafe_link (rc_loss_act g) (param_com_rcl_act_t g) c
  else set_nav NAVIGATION_STATE_OFFBOARD c.

Definition decide_nav_state (c : nav_ctx) : nav_ctx :=
  match main_state (internal c) with
  | MAIN_STATE_ACRO | MAIN_STATE_MANUAL | MAIN_STATE_STAB | MAIN_STATE_ALTCTL => nav_manual c
  | MAIN_STATE_POSCTL => nav_posctl c
  | MAIN_STATE_AUTO_MISSION => nav_mission c
  | MAIN_STATE_AUTO_LOITER => nav_hold true NAVIGATION_STATE_AUTO_LOITER c
  | MAIN_STATE_AUTO_RTL => nav_auto true NAVIGATION_STATE_AUTO_RTL c
  | MAIN_STATE_AUTO_FOLLOW_TARGET => nav_auto true NAVIGATION_STATE_AUTO_FOLLOW_TARGET c
  | MAIN_STATE_ORBIT => nav_orbit c
  | MAIN_STATE_AUTO_TAKEOFF => nav_hold false NAVIGATION_STATE_AUTO_TAKEOFF c
  | MAIN_STATE_AUTO_VTOL_TAKEOFF => nav_hold false NAVIGATION_STATE_AUTO_VTOL_TAKEOFF c
  | MAIN_STATE_AUTO_LAND => nav_auto false NAVIGATION_STATE_AUTO_LAND c
  | MAIN_STATE_AUTO_PRECLAND => nav_auto false NAVIGATION_STATE_AUTO_PRECLAND c
  | MAIN_STATE_OFFBOARD => nav_offboard c
  | MAIN_STATE_MAX | MAIN_STATE_OTHER _ => c
  end.

End Decision.

Definition reset_globals (g : nav_config) (old_failsafe : bool) (c : nav_ctx) : nav_ctx :=
  reset_offboard_loss_globals old_failsafe (offb_loss_act g) (offb_loss_rc_act g)
    (reset_link_loss_globals old_failsafe (data_link_loss_act g)
       (reset_link_loss_globals old_failsafe (rc_loss_act g) c)).

(** Returns whether the navigation state changed. *)
Definition set_nav_state (now : Z) (g : nav_config) (f : vehicle_status_flags) (c : nav_ctx) : bool * nav_ctx :=
  let nav_state_old := nav_state (status c) in
  let old_failsafe := failsafe (status c) in
  let c := c <| status := (status c) <| failsafe := false |> |> in
  let c := reset_globals g old_failsafe c in
  let c := decide_nav_state now g f old_failsafe c in
  (negb (bool_decide (nav_state (status c) = nav_state_old)), c).

(** ** Battery and propeller failsafes *)

Inductive battery_warning_t :=
| BATTERY_WARNING_NONE | BATTERY_WARNING_LOW | BATTERY_WARNING_CRITICAL | BATTERY_WARNING_EMERGENCY
| BATTERY_WARNING_FAILED | BATTERY_WARNING_OTHER (v : Z).

Inductive low_battery_action_t := LB_WARNING | LB_RETURN | LB_LAND | LB_RETURN_OR_LAND | LB_OTHER (v : Z).

(** [MAIN_STATE_MAX]: no action. *)
Definition get_battery_failsafe_action (m : main_state_t) (w : battery_warning_t) (a : low_battery_action_t)
  : main_state_t :=
  let already_landing := match m with MAIN_STATE_AUTO_LAND | MAIN_STATE_AUTO_PRECLAND => true | _ => false end in
  let already_landing_or_rtl := already_landing || match m with MAIN_STATE_AUTO_RTL => true | _ => false end in
  let rtl := if already_landing_or_rtl then MAIN_STATE_MAX else MAIN_STATE_AUTO_RTL in
  let land := if already_landing then MAIN_STATE_MAX else MAIN_STATE_AUTO_LAND in
  match w, a with
  | BATTERY_WARNING_CRITICAL, (LB_RETURN | LB_RETURN_OR_LAND) => rtl
  | BATTERY_WARNING_CRITICAL, LB_LAND => land
  | BATTERY_WARNING_EMERGENCY, LB_RETURN => rtl
  | BATTERY_WARNING_EMERGENCY, (LB_RETURN_OR_LAND | LB_LAND) => land
  | _, _ => MAIN_STATE_MAX
  end.

Inductive imbalanced_propeller_action_t := IP_DISABLED | IP_WARNING | IP_RETURN | IP_LAND | IP_OTHER (v : Z).

Definition imbalanced_prop_failsafe (now : Z) (f : vehicle_status_flags) (a : imbalanced_propeller_action_t)
    (i : commander_state) : commander_state :=
  let go m := i <| main_state := m |> <| internal_timestamp := now |> in
  let landing := match main_state i with MAIN_STATE_AUTO_LAND | MAIN_STATE_AUTO_PRECLAND => true | _ => false end in
  let returning := match main_state i with MAIN_STATE_AUTO_RTL => true | _ => false end in
  match a with
  | IP_DISABLED | IP_WARNING | IP_OTHER _ => i
  | IP_RETURN =>
      if global_position_valid f && home_position_valid f
      then (if returning || landing then i else go MAIN_STATE_AUTO_RTL)
      else (if landing then i else go MAIN_STATE_AUTO_LAND)
  | IP_LAND => if landing then i else go MAIN_STATE_AUTO_LAND
  end.

End NavState.
