(* ===== verification/ArmState.v ===== *)
(** * Arming of the vehicle

    src/src/modules/commander/Arming: the arming state machine (ArmStateMachine), the checks
    before arming (PreFlightCheck.cpp and checks/preArmCheck.cpp), and the safety button
    (Safety.cpp).  The checks of single sensors read sensor topics; their results are inputs.
    Health flags for the ground station and messages to the user are left out. *)
From coqutil Require Import Datatypes.RecordSettersUsingExistingGetters.
From S2P Require Import Prelude NavState.
Import NavState.
Local Open Scope Z_scope.

Module ArmState.

(** ** Data *)

Record vehicle_control_mode := mkMode {
  flag_armed : bool;
  flag_multicopter_position_control_enabled : bool;
  flag_control_manual_enabled : bool;
  flag_control_auto_enabled : bool;
  flag_control_offboard_enabled : bool;
  flag_control_rates_enabled : bool;
  flag_control_attitude_enabled : bool;
  flag_control_acceleration_enabled : bool;
  flag_control_velocity_enabled : bool;
  flag_control_position_enabled : bool;
  flag_control_altitude_enabled : bool;
  flag_control_climb_rate_enabled : bool;
  flag_control_termination_enabled : bool
}.

Record safety := mkSafety { safety_switch_available : bool; safety_off : bool }.

Record arm_requirements_t := mkRequirements {
  req_arm_authorization : bool;
  req_esc_check : bool;
  req_global_position : bool;
  req_mission : bool;
  req_geofence : bool
}.

Inductive arm_disarm_reason_t :=
| transition_to_standby | rc_stick | rc_switch | command_internal | command_external | mission_start
| safety_button | auto_disarm_land | auto_disarm_preflight | kill_switch | lockdown_reason
| failure_detector | shutdown | unit_test | rc_button.

Definition reason_code (r : arm_disarm_reason_t) : Z :=
  match r with
  | transition_to_standby => 0 | rc_stick => 1 | rc_switch => 2 | command_internal => 3
  | command_external => 4 | mission_start => 5 | safety_button => 6 | auto_disarm_land => 7
  | auto_disarm_preflight => 8 | kill_switch => 9 | lockdown_reason => 10 | failure_detector => 11
  | shutdown => 12 | unit_test => 13 | rc_button => 14
  end.

(** ** The preflight check *)

(** The results of the checks of single sensors and the parameters that select them.  Those
    that look at whether the check precedes arming are functions of it. *)
Record sensor_checks := mkChecks {
  chk_airframe : bool;
  chk_sdcard : bool;
  sys_has_mag : bool;
  chk_mag : bool;                       (** all instances and their availability *)
  chk_mag_consistency : bool;
  chk_accel : bool;
  chk_gyro : bool;
  chk_imu_consistency : bool;
  circuit_breaker_engaged_airspd_check : bool;
  airspeed_optional : bool;
  chk_airspeed : bool -> bool;
  rc_in_mode_0 : bool;
  chk_rc_calibration : bool;
  chk_power : bool -> bool;
  mc_estimator_ekf2 : bool;             (** SYS_MC_EST_GROUP is 2 *)
  chk_ekf2 : bool;
  chk_failure_detector : bool -> bool;
  chk_manual_control : bool;
  chk_mode : bool;
  chk_cpu : bool;
  chk_parachute : bool;
  arm_auth_accepted : bool              (** arm_auth_check() accepts *)
}.

Definition airspeed_failed (k : sensor_checks) (s : vehicle_status) (prearm : bool) : bool :=
  negb (circuit_breaker_engaged_airspd_check k)
  && (bool_decide (vehicle_type s = VEHICLE_TYPE_FIXED_WING) || is_vtol s)
  && negb (chk_airspeed k prearm) && negb (airspeed_optional k).

Definition estimator_failed (k : sensor_checks) (s : vehicle_status) (v : vehicle_control_mode) : bool :=
  (if rotary_wing s && negb (is_vtol s) then mc_estimator_ekf2 k else true)
  && (flag_control_attitude_enabled v || flag_control_velocity_enabled v || flag_control_position_enabled v)
  && negb (chk_ekf2 k).

Definition preflightCheck (k : sensor_checks) (s : vehicle_status) (f : vehicle_status_flags)
    (v : vehicle_control_mode) (prearm : bool) : bool :=
  let failed := negb (chk_airframe k) || negb (chk_sdcard k) in
  let failed := failed || (sys_has_mag k && (negb (chk_mag k) || negb (chk_mag_consistency k))) in
  let failed := failed || negb (chk_accel k) in
  let failed := failed || negb (chk_gyro k) in
  let failed := failed || negb (chk_imu_consistency k) in
  let failed := failed || airspeed_failed k s prearm in
  let failed := failed || (rc_in_mode_0 k && negb (chk_rc_calibration k)) in
  let failed := failed || (power_input_valid f && negb (circuit_breaker_engaged_power_check f) && negb (chk_power k prearm)) in
  let failed := failed || estimator_failed k s v in
  let failed := failed || negb (chk_failure_detector k prearm) in
  let failed := failed || negb (chk_manual_control k) in
  let failed := failed || negb (chk_mode k) in
  let failed := failed || negb (chk_cpu k) in
  let failed := failed || negb (chk_parachute k) in
  negb failed.

(** ** The check before arming *)

(** The checks on the estimates that the controllers need. *)
Definition estimates_ok (f : vehicle_status_flags) (v : vehicle_control_mode) (s : vehicle_status) : bool :=
  negb (flag_control_rates_enabled v && negb (angular_velocity_valid f))
  && negb (flag_control_attitude_enabled v && negb (attitude_valid f))
  && negb (flag_control_velocity_enabled v && negb (local_velocity_valid f))
  && negb (flag_control_position_enabled v && negb (local_position_valid f))
  && negb (flag_control_manual_enabled v && rc_signal_lost s).

Definition power_ok (f : vehicle_status_flags) : bool :=
  circuit_breaker_engaged_power_check f || (power_input_valid f && battery_healthy f).

Definition requirements_ok (f : vehicle_status_flags) (r : arm_requirements_t) : bool :=
  negb (req_mission r && (negb (auto_mission_available f) || negb (global_position_valid f)))
  && negb (req_global_position r && negb (circuit_breaker_engaged_posfailure_check f)
           && (negb (global_position_valid f) || negb (home_position_valid f))).

Definition vtol_ok (f : vehicle_status_flags) (s : vehicle_status) : bool :=
  negb (is_vtol s && (in_transition_mode s
                      || (negb (circuit_breaker_vtol_fw_arming_check f) && negb (rotary_wing s)))).

Definition preArmCheck (k : sensor_checks) (f : vehicle_status_flags) (v : vehicle_control_mode) (sf : safety)
    (r : arm_requirements_t) (s : vehicle_status) : bool :=
  let prearm_ok := estimates_ok f v s in
  let prearm_ok := prearm_ok && negb (flight_terminated f) in
  let prearm_ok := prearm_ok && negb (negb (circuit_breaker_engaged_usb_check f) && usb_connected f) in
  let prearm_ok := prearm_ok && power_ok f in
  let prearm_ok := prearm_ok && requirements_ok f r in
  let prearm_ok := prearm_ok && negb (safety_switch_available sf && negb (safety_off sf)) in
  let prearm_ok := prearm_ok && negb (avoidance_system_required f && negb (avoidance_system_valid f)) in
  let prearm_ok := prearm_ok && negb (req_esc_check r && (escs_error f || escs_failure f)) in
  let prearm_ok := prearm_ok && vtol_ok f s in
  let prearm_ok := prearm_ok && negb (req_geofence r && geofence_violated s) in
  prearm_ok && negb (req_arm_authorization r && negb (arm_auth_accepted k)).

(** ** The arming state machine *)

(** [arming_transitions[new][current]] *)
Definition arming_transitions (new current : arming_state_t) : bool :=
  match new, current with
  | ARMING_STATE_INIT, (ARMING_STATE_INIT | ARMING_STATE_STANDBY | ARMING_STATE_STANDBY_ERROR) => true
  | ARMING_STATE_STANDBY, (ARMING_STATE_INIT | ARMING_STATE_STANDBY | ARMING_STATE_ARMED) => true
  | ARMING_STATE_ARMED, (ARMING_STATE_STANDBY | ARMING_STATE_ARMED | ARMING_STATE_IN_AIR_RESTORE) => true
  | ARMING_STATE_STANDBY_ERROR,
    (ARMING_STATE_INIT | ARMING_STATE_STANDBY | ARMING_STATE_ARMED | ARMING_STATE_STANDBY_ERROR) => true
  | ARMING_STATE_SHUTDOWN,
    (ARMING_STATE_INIT | ARMING_STATE_STANDBY | ARMING_STATE_STANDBY_ERROR | ARMING_STATE_SHUTDOWN
     | ARMING_STATE_IN_AIR_RESTORE) => true
  | _, _ => false
  end.

(** What the machine reads and writes: the status, the arming message, the flags and its own
    time of the last check. *)
Record arm_ctx := mkArmCtx {
  ac_status : vehicle_status;
  ac_armed : actuator_armed;
  ac_flags : vehicle_status_flags;
  ac_last_preflight_check : Z
}.

Section Transition.
Context (now : Z) (k : sensor_checks) (v : vehicle_control_mode) (sf : safety) (req : arm_requirements_t).
Context (new : arming_state_t) (fRunPreArmChecks : bool) (calling_reason : arm_disarm_reason_t).

Definition to_armed : bool := bool_decide (new = ARMING_STATE_ARMED).
Definition to_standby : bool := bool_decide (new = ARMING_STATE_STANDBY).

(** The check that precedes arming: its result and the flags. *)
Definition run_preflight (a : arm_ctx) : bool * arm_ctx :=
  if fRunPreArmChecks && to_armed && negb (hil_on (ac_status a)) then
    let ok := preflightCheck k (ac_status a) (ac_flags a) v true in
    (ok, if ok then a <| ac_flags := (ac_flags a) <| system_sensors_initialized := true |> |> else a)
  else (true, a).

(** The check is repeated at most once a second as long as the sensors fail. *)
Definition rerun_preflight (a : arm_ctx) : arm_ctx :=
  if negb (system_sensors_initialized (ac_flags a)) && fRunPreArmChecks && (to_armed || to_standby)
     && negb (hil_on (ac_status a)) then
    if (ac_last_preflight_check a =? 0) || (1000 * 1000 <? hrt_elapsed_time now (ac_last_preflight_check a)) then
      let ok := preflightCheck k (ac_status a) (ac_flags a) v
                  (negb (bool_decide (arming_state (ac_status a) = ARMING_STATE_ARMED))) in
      a <| ac_flags := (ac_flags a) <| system_sensors_initialized := ok |> |>
        <| ac_last_preflight_check := now |>
    else a
  else a.

(** The table and the secondary validation. *)
Definition transition_valid (preflight_check_ret : bool) (a : arm_ctx) : bool :=
  arming_transitions new (arming_state (ac_status a))
  && (if to_armed && negb (bool_decide (arming_state (ac_status a) = ARMING_STATE_IN_AIR_RESTORE)) then
        let prearm_check_ret :=
          if fRunPreArmChecks && preflight_check_ret
          then preArmCheck k (ac_flags a) v sf req (ac_status a) else true in
        preflight_check_ret && prearm_check_ret
      else true).

(** Hardware in the loop: locked down, standby always possible. *)
Definition hil_rules (valid : bool) (a : arm_ctx) : bool * arm_ctx :=
  if hil_on (ac_status a) then
    let s := ac_status a in
    let s := if bool_decide (arming_state s = ARMING_STATE_STANDBY_ERROR)
             then s <| arming_state := ARMING_STATE_STANDBY |> else s in
    (valid || to_standby,
     a <| ac_status := s |> <| ac_armed := (ac_armed a) <| lockdown := true |> |>
       <| ac_flags := (ac_flags a) <| system_sensors_initialized := true |> |>)
  else (valid, a).

(** Standby needs initialised sensors. *)
Definition standby_rules (valid : bool) (a : arm_ctx) : bool :=
  if negb (hil_on (ac_status a)) && to_standby
     && negb (bool_decide (arming_state (ac_status a) = ARMING_STATE_STANDBY_ERROR))
     && negb (system_sensors_initialized (ac_flags a))
  then false else valid.

Definition finish_transition (a : arm_ctx) : arm_ctx :=
  let was_armed := armed (ac_armed a) in
  let ar := (ac_armed a) <| armed := to_armed |> <| ready_to_arm := to_armed || to_standby |> in
  let s := (ac_status a) <| arming_state := new |> in
  let s := if was_armed && negb (armed ar) then s <| latest_disarming_reason := reason_code calling_reason |>
           else if negb was_armed && armed ar then s <| latest_arming_reason := reason_code calling_reason |>
           else s in
  let s := s <| armed_time := if to_armed then now else 0 |> in
  a <| ac_status := s |> <| ac_armed := ar |>.

Definition arming_state_transition (a : arm_ctx) : transition_result_t * arm_ctx :=
  if bool_decide (new = arming_state (ac_status a)) then (TRANSITION_NOT_CHANGED, a)
  else
    let '(preflight_check_ret, a) := run_preflight a in
    let a := rerun_preflight a in
    let valid := transition_valid preflight_check_ret a in
    let '(valid, a) := hil_rules valid a in
    if standby_rules valid a then (TRANSITION_CHANGED, finish_transition a) else (TRANSITION_DENIED, a).

End Transition.

(** ** The safety button *)

(** [triggered]: the queued events of the button. *)
Definition safetyButtonHandler (safety_disabled advertised : bool) (triggered : list bool) (s : safety) : safety :=
  if safety_disabled then mkSafety true true
  else
    let s := if negb (safety_switch_available s) && advertised then s <| safety_switch_available := true |> else s in
    fold_left (fun s t => s <| safety_off := safety_off s || t |>) triggered s.

Definition enableSafety (s : safety) : safety := s <| safety_off := false |>.

End ArmState.
