(* ===== verification/Commander.v ===== *)
(** * The commander: arming, termination, geofence and battery reactions

    src/src/modules/commander/Commander.cpp: the parts of the class that decide whether the
    vehicle is armed, locked down or terminated and which mode it flies: [arm], [disarm],
    [executeActionRequest], the flight termination command, and the stages of [run] that react
    to auto disarm, battery, geofence, mission and failure detector, set the navigation state
    and derive the control mode.  What a stage reads from topics and parameters is its
    argument; messages, tunes and LEDs are left out. *)
From coqutil Require Import Datatypes.RecordSettersUsingExistingGetters.
From S2P Require Import Prelude Float32 Takeoff NavState ArmState.
Import NavState ArmState.
Local Open Scope Z_scope.

Module Commander.

(** ** State *)

Record commander := mkCommander {
  cm_nav : nav_ctx;                         (** _status, _armed and _internal_state *)
  cm_flags : vehicle_status_flags;
  cm_mode : vehicle_control_mode;
  cm_safety : safety;                       (** _safety, the copy of the topic *)
  cm_safety_handler : safety;               (** the state of _safety_handler *)
  cm_previous_safety_off : bool;
  cm_requirements : arm_requirements_t;
  cm_last_preflight_check : Z;
  cm_last_disarmed_timestamp : Z;
  cm_was_armed : bool;
  cm_have_taken_off_since_arming : bool;
  cm_flight_termination_triggered : bool;
  cm_lockdown_triggered : bool;
  cm_imbalanced_propeller_check_triggered : bool;
  cm_geofence_loiter_on : bool;
  cm_geofence_rtl_on : bool;
  cm_geofence_land_on : bool;
  cm_geofence_warning_action_on : bool;
  cm_geofence_violated_prev : bool;
  cm_battery_warning : battery_warning_t;
  cm_battery_failsafe_timestamp : Z;
  cm_rtl_time_actions_done : bool;
  cm_rc_calibration_in_progress : bool;
  cm_calibration_enabled : bool;
  cm_is_throttle_above_center : bool;
  cm_is_throttle_low : bool;
  cm_landed : bool;
  cm_maybe_landed : bool;
  cm_ground_rover : bool;
  cm_auto_disarm_landed : Hysteresis;
  cm_auto_disarm_killed : Hysteresis
}.

Definition cm_status (m : commander) : vehicle_status := status (cm_nav m).
Definition cm_armed (m : commander) : actuator_armed := arm (cm_nav m).
Definition cm_main (m : commander) : main_state_t := main_state (internal (cm_nav m)).

Definition on_nav (g : nav_ctx -> nav_ctx) (m : commander) : commander := m <| cm_nav := g (cm_nav m) |>.
Definition on_arm (g : actuator_armed -> actuator_armed) : commander -> commander :=
  on_nav (fun c => c <| arm := g (arm c) |>).

(** ** Parameters *)

Record com_params := mkParams {
  com_force_safety : bool;
  gf_action_is_rtl : bool;              (** GF_ACTION is to return *)
  com_disarm_land : f32;
  com_disarm_preflight : f32;
  com_lkdown_tko : f32;                 (** seconds after takeoff in which a failure locks down *)
  com_imb_prop_act : imbalanced_propeller_action_t;
  com_bat_act_t : f32;
  com_low_bat_act : low_battery_action_t;
  com_rc_override : Z;
  mode_switch_mapped : bool;            (** RC_MAP_FLTMODE or RC_MAP_MODE_SW is set *)
  takeoff_to_mission : bool;            (** COM_TAKEOFF_ACT is 1 *)
  board_has_power_control : bool
}.

(** [param * 1_s] as a time: the product is truncated. *)
Definition seconds (x : f32) : Z :=
  match fmul x (f32_of_Z one_s) with
  | SpecFloat.S754_finite false man e => if 0 <=? e then Zpos man * 2 ^ e else Zpos man / 2 ^ (- e)
  | _ => 0
  end.

Definition commanded_by_rc (r : arm_disarm_reason_t) : bool :=
  match r with rc_stick | rc_switch | rc_button => true | _ => false end.

Definition is_rc_switch (r : arm_disarm_reason_t) : bool := match r with rc_switch => true | _ => false end.

Definition denied (r : transition_result_t) : bool := match r with TRANSITION_DENIED => true | _ => false end.
Definition changed (r : transition_result_t) : bool := match r with TRANSITION_CHANGED => true | _ => false end.

Section Stage.
Context (now : Z) (k : sensor_checks) (p : com_params).

(** [main_state_transition] on the members. *)
Definition switch_main (n : main_state_t) (m : commander) : transition_result_t * commander :=
  let '(r, i) := main_state_transition now (cm_status m) n (cm_flags m) (internal (cm_nav m)) in
  (r, on_nav (fun c => c <| internal := i |>) m).

(** [_arm_state_machine.arming_state_transition] on the members. *)
Definition transition_with (sf : safety) (req : arm_requirements_t) (new : arming_state_t) (run_checks : bool)
    (reason : arm_disarm_reason_t) (m : commander) : transition_result_t * commander :=
  let '(r, a) := arming_state_transition now k (cm_mode m) sf req new run_checks reason
                   (mkArmCtx (cm_status m) (cm_armed m) (cm_flags m) (cm_last_preflight_check m)) in
  (r, m <| cm_nav := (cm_nav m) <| status := ac_status a |> <| arm := ac_armed a |> |>
        <| cm_flags := ac_flags a |> <| cm_last_preflight_check := ac_last_preflight_check a |>).

Definition arming_transition (new : arming_state_t) (run_checks : bool) (reason : arm_disarm_reason_t)
    (m : commander) : transition_result_t * commander :=
  transition_with (cm_safety m) (cm_requirements m) new run_checks reason m.

(** ** Arming and disarming *)

(** The denials before the state machine is asked. *)
Definition arm_denied (reason : arm_disarm_reason_t) (m : commander) : bool :=
  let v := cm_mode m in
  let lost := rc_signal_lost (cm_status m) in
  (if flag_control_manual_enabled v then
     (flag_control_climb_rate_enabled v && negb lost && cm_is_throttle_above_center m)
     || (negb (flag_control_climb_rate_enabled v) && negb lost && negb (cm_is_throttle_low m)
         && negb (bool_decide (vehicle_type (cm_status m) = VEHICLE_TYPE_ROVER)))
   else commanded_by_rc reason)
  || (gf_action_is_rtl p && negb (home_position_valid (cm_flags m))).

(** A grace period for rearming with the switch. *)
Definition in_grace_period (reason : arm_disarm_reason_t) (m : commander) : bool :=
  is_rc_switch reason && (hrt_elapsed_time now (cm_last_disarmed_timestamp m) <? 5 * one_s).

Definition arm_vehicle (reason : arm_disarm_reason_t) (run_preflight_checks : bool) (m : commander)
  : transition_result_t * commander :=
  let run_preflight_checks := if in_grace_period reason m then false else run_preflight_checks in
  if run_preflight_checks && negb (armed (cm_armed m)) && arm_denied reason m
  then (TRANSITION_DENIED, m)
  else arming_transition ARMING_STATE_ARMED run_preflight_checks reason m.

(** Landed, or a multicopter whose thrust the pilot sets and who asks for it. *)
Definition disarm_permitted (reason : arm_disarm_reason_t) (m : commander) : bool :=
  let landed := cm_landed m || cm_maybe_landed m || cm_ground_rover m in
  let mc_manual_thrust_mode := rotary_wing (cm_status m) && flag_control_manual_enabled (cm_mode m)
                               && negb (flag_control_climb_rate_enabled (cm_mode m)) in
  landed || (mc_manual_thrust_mode && commanded_by_rc reason).

Definition disarm_vehicle (reason : arm_disarm_reason_t) (forced : bool) (m : commander)
  : transition_result_t * commander :=
  if negb forced && negb (disarm_permitted reason m) then (TRANSITION_DENIED, m)
  else
    let '(r, m) := arming_transition ARMING_STATE_STANDBY false reason m in
    (r, if changed r && com_force_safety p
        then m <| cm_safety_handler := enableSafety (cm_safety_handler m) |> else m).

Definition shutdown_if_allowed (m : commander) : bool * commander :=
  let '(r, m) := arming_transition ARMING_STATE_SHUTDOWN false shutdown m in
  (negb (denied r), m).

(** The transition out of INIT that [run] attempts in every cycle. *)
Definition try_standby (m : commander) : commander :=
  if negb (cm_calibration_enabled m) && bool_decide (arming_state (cm_status m) = ARMING_STATE_INIT)
  then snd (arming_transition ARMING_STATE_STANDBY true transition_to_standby m) else m.

(** ** Land detector and safety *)

Definition land_detector_stage (landed maybe_landed : bool) (m : commander) : commander :=
  let was_landed := cm_landed m in
  let m := m <| cm_landed := landed |> <| cm_maybe_landed := maybe_landed |> in
  let takeoff_at t := on_nav (fun c => c <| status := (status c) <| takeoff_time := t |> |>) in
  if armed (cm_armed m) then
    if negb was_landed && landed then takeoff_at 0 m
    else if was_landed && negb landed then (takeoff_at now m) <| cm_have_taken_off_since_arming := true |>
    else m
  else m.

(** [advertised], [triggered]: the safety button; [safety_disabled]: CBRK_IO_SAFETY; [tick]: a
    second has passed since the last publication. *)
Definition safety_stage (safety_disabled advertised : bool) (triggered : list bool) (tick : bool)
    (m : commander) : commander :=
  let h := safetyButtonHandler safety_disabled advertised triggered (cm_safety_handler m) in
  let published := tick || negb (eqb (safety_off h) (cm_previous_safety_off m)) in
  let m := m <| cm_safety_handler := h |> <| cm_previous_safety_off := safety_off h |> in
  if published then
    let m := m <| cm_safety := h |> in
    if armed (cm_armed m) && safety_switch_available h && negb (safety_off h) && negb (hil_on (cm_status m))
    then snd (disarm_vehicle safety_button false m) else m
  else m.

(** ** Auto disarm *)

Definition auto_disarm_landing (m : commander) : commander :=
  if fgt (com_disarm_land p) f0 || fgt (com_disarm_preflight p) f0 then
    let m :=
      if fgt (com_disarm_land p) f0 && cm_have_taken_off_since_arming m then
        m <| cm_auto_disarm_landed := set_state_and_update (cm_landed m) now
               (set_hysteresis_time_from false (seconds (com_disarm_land p)) (cm_auto_disarm_landed m)) |>
      else if fgt (com_disarm_preflight p) f0 && negb (cm_have_taken_off_since_arming m) then
        m <| cm_auto_disarm_landed := set_state_and_update true now
               (set_hysteresis_time_from false (seconds (com_disarm_preflight p)) (cm_auto_disarm_landed m)) |>
      else m in
    if hy_state (cm_auto_disarm_landed m) then
      snd (disarm_vehicle (if cm_have_taken_off_since_arming m then auto_disarm_land else auto_disarm_preflight)
             false m)
    else m
  else m.

(** Killed, or locked down outside of a simulation. *)
Definition to_be_disarmed (m : commander) : bool :=
  manual_lockdown (cm_armed m) || (negb (hil_on (cm_status m)) && lockdown (cm_armed m)).

Definition auto_disarm_kill (m : commander) : commander :=
  let m := m <| cm_auto_disarm_killed := set_state_and_update (to_be_disarmed m) now (cm_auto_disarm_killed m) |> in
  if hy_state (cm_auto_disarm_killed m) then
    snd (disarm_vehicle (if manual_lockdown (cm_armed m) then kill_switch else lockdown_reason) true m)
  else m.

Definition auto_disarm_stage (m : commander) : commander :=
  if armed (cm_armed m) then auto_disarm_kill (auto_disarm_landing m)
  else m <| cm_auto_disarm_landed := set_state_and_update false now (cm_auto_disarm_landed m) |>
         <| cm_auto_disarm_killed := set_state_and_update false now (cm_auto_disarm_killed m) |>.

(** ** Termination *)

Definition terminate_flight (m : commander) : commander :=
  on_arm (fun a => a <| force_failsafe := true |>) (m <| cm_flight_termination_triggered := true |>).

Definition lock_down (m : commander) : commander :=
  on_arm (fun a => a <| lockdown := true |>) (m <| cm_lockdown_triggered := true |>).

(** VEHICLE_CMD_DO_FLIGHTTERMINATION *)
Definition flight_termination_command (param1 : f32) (m : commander) : commander :=
  if fgt param1 (flit 3 2) then if cm_lockdown_triggered m then m else lock_down m
  else if fgt param1 (flit 1 2) then if cm_flight_termination_triggered m then m else terminate_flight m
  else on_arm (fun a => a <| force_failsafe := false |> <| lockdown := false |>)
         (m <| cm_lockdown_triggered := false |> <| cm_flight_termination_triggered := false |>).

(** Termination that the mission result requests. *)
Definition mission_termination_stage (flight_termination : bool) (m : commander) : commander :=
  if armed (cm_armed m) && flight_termination && negb (circuit_breaker_flight_termination_disabled (cm_flags m)) then
    if negb (cm_flight_termination_triggered m) && negb (cm_lockdown_triggered m) then terminate_flight m else m
  else m.

(** *** Failure detector *)

Record fd_flags := mkFd {
  fd_roll : bool; fd_pitch : bool; fd_alt : bool; fd_ext : bool; fd_arm_escs : bool; fd_imbalanced_prop : bool
}.

Definition fd_escs (d : fd_flags) (m : commander) : commander :=
  if fd_arm_escs d && (hrt_elapsed_time now (armed_time (cm_status m)) <? 500000)
  then snd (disarm_vehicle failure_detector false m) else m.

Definition fd_critical (d : fd_flags) (m : commander) : commander :=
  if fd_roll d || fd_pitch d || fd_alt d || fd_ext d then
    let is_right_after_takeoff := elapsed_less now (takeoff_time (cm_status m)) (com_lkdown_tko p) in
    if is_right_after_takeoff && negb (cm_lockdown_triggered m) then lock_down m
    else if negb (circuit_breaker_flight_termination_disabled (cm_flags m))
            && negb (cm_flight_termination_triggered m) && negb (cm_lockdown_triggered m)
    then terminate_flight m else m
  else m.

Definition fd_propeller (d : fd_flags) (m : commander) : commander :=
  if fd_imbalanced_prop d && negb (cm_imbalanced_propeller_check_triggered m) then
    on_nav (fun c => c <| internal := imbalanced_prop_failsafe now (cm_flags m) (com_imb_prop_act p) (internal c) |>)
      (m <| cm_imbalanced_propeller_check_triggered := true |>)
  else m.

(** What happens when the failure detector reports a change. *)
Definition failure_detector_stage (d : fd_flags) (m : commander) : commander :=
  if armed (cm_armed m) then fd_propeller d (fd_critical d (fd_escs d m)) else m.

(** ** Geofence *)

Inductive geofence_action_t := GF_NONE | GF_WARN | GF_LOITER | GF_RTL | GF_TERMINATE | GF_LAND | GF_OTHER (v : Z).

Definition gf_enabled (a : geofence_action_t) : bool := match a with GF_NONE => false | _ => true end.

(** The reaction when the fence is crossed. *)
Definition geofence_react (a : geofence_action_t) (m : commander) : commander :=
  match a with
  | GF_LOITER => let '(r, m) := switch_main MAIN_STATE_AUTO_LOITER m in
                 if changed r then m <| cm_geofence_loiter_on := true |> else m
  | GF_RTL => let '(r, m) := switch_main MAIN_STATE_AUTO_RTL m in
              if changed r then m <| cm_geofence_rtl_on := true |> else m
  | GF_LAND => let '(r, m) := switch_main MAIN_STATE_AUTO_LAND m in
               if changed r then m <| cm_geofence_land_on := true |> else m
  | GF_TERMINATE => if negb (cm_flight_termination_triggered m) && negb (cm_lockdown_triggered m)
                    then terminate_flight m else m
  | GF_NONE | GF_WARN | GF_OTHER _ => m
  end.

Definition geofence_flags (m : commander) : commander :=
  let still s := bool_decide (cm_main m = s) in
  let m := m <| cm_geofence_loiter_on := cm_geofence_loiter_on m && still MAIN_STATE_AUTO_LOITER |>
             <| cm_geofence_rtl_on := cm_geofence_rtl_on m && still MAIN_STATE_AUTO_RTL |>
             <| cm_geofence_land_on := cm_geofence_land_on m && still MAIN_STATE_AUTO_LAND |> in
  m <| cm_geofence_warning_action_on := cm_geofence_warning_action_on m
         || (cm_geofence_loiter_on m || cm_geofence_rtl_on m || cm_geofence_land_on m) |>.

Definition geofence_stage (violated : bool) (a : geofence_action_t) (m : commander) : commander :=
  let m := on_nav (fun c => c <| status := (status c) <| geofence_violated := violated |> |>) m in
  let in_low_battery_failsafe_delay := negb (cm_battery_failsafe_timestamp m =? 0) in
  if armed (cm_armed m) && gf_enabled a && negb in_low_battery_failsafe_delay then
    let m := if violated && negb (cm_geofence_violated_prev m) then geofence_react a m else m in
    geofence_flags (m <| cm_geofence_violated_prev := violated |>)
  else m <| cm_geofence_loiter_on := false |> <| cm_geofence_rtl_on := false |>
         <| cm_geofence_land_on := false |> <| cm_geofence_warning_action_on := false |>
         <| cm_geofence_violated_prev := false |>.

(** Earlier in the cycle: the warning ends when the mode was left. *)
Definition geofence_warning_stage (m : commander) : commander :=
  match cm_main m with
  | MAIN_STATE_AUTO_RTL | MAIN_STATE_AUTO_LOITER | MAIN_STATE_AUTO_LAND => m
  | _ => m <| cm_geofence_warning_action_on := false |>
  end.

(** ** Battery *)

Definition warning_code (w : battery_warning_t) : Z :=
  match w with
  | BATTERY_WARNING_NONE => 0 | BATTERY_WARNING_LOW => 1 | BATTERY_WARNING_CRITICAL => 2
  | BATTERY_WARNING_EMERGENCY => 3 | BATTERY_WARNING_FAILED => 4 | BATTERY_WARNING_OTHER v => v
  end.

(** What [battery_status_check] gathers from the battery and return-time topics. *)
Record battery_in := mkBattery {
  worst_warning : battery_warning_t;
  batteries_ok : bool;                  (** published, connected and without fault *)
  rtl_time_short : bool                 (** a fresh, valid time to return reaches the time left, off the ground *)
}.

Definition battery_action (m : commander) : main_state_t :=
  get_battery_failsafe_action (cm_main m) (cm_battery_warning m) (com_low_bat_act p).

Definition no_action (a : main_state_t) : bool := match a with MAIN_STATE_MAX => true | _ => false end.

Definition rtl_time_stage (b : battery_in) (m : commander) : commander :=
  if rtl_time_short b && armed (cm_armed m) && negb (cm_rtl_time_actions_done m)
     && negb (bool_decide (cm_main m = MAIN_STATE_AUTO_RTL)) && negb (bool_decide (cm_main m = MAIN_STATE_AUTO_LAND))
  then (snd (switch_main MAIN_STATE_AUTO_RTL m)) <| cm_rtl_time_actions_done := true |>
  else m.

(** The warning got worse while armed: start the delay. *)
Definition battery_worse (m : commander) : commander :=
  let action := battery_action m in
  let m := m <| cm_battery_failsafe_timestamp := now |> in
  if fgt (com_bat_act_t p) f0 && negb (no_action action)
  then snd (switch_main MAIN_STATE_AUTO_LOITER m) else m.

(** The delay is over: act. *)
Definition battery_react (m : commander) : commander :=
  if negb (cm_battery_failsafe_timestamp m =? 0)
     && fgt (f32_of_Z (hrt_elapsed_time now (cm_battery_failsafe_timestamp m))) (fmul (com_bat_act_t p) (f32_of_Z one_s))
     && (bool_decide (cm_main m = MAIN_STATE_AUTO_LOITER) || flag_control_auto_enabled (cm_mode m)) then
    let m := m <| cm_battery_failsafe_timestamp := 0 |> in
    let action := battery_action m in
    if no_action action then m
    else on_nav (fun c => c <| internal := mkInternal action (u16 (main_state_changes (internal c) + 1)) now |>) m
  else m.

Definition battery_increased (b : battery_in) (m : commander) : bool :=
  armed (cm_armed m) && (warning_code (cm_battery_warning m) <? warning_code (worst_warning b)).

Definition battery_update (b : battery_in) (m : commander) : bool :=
  if armed (cm_armed m) then battery_increased b m
  else negb (warning_code (cm_battery_warning m) =? warning_code (worst_warning b)).

(** An emergency shuts the system down where the board can. *)
Definition battery_shutdown (update : bool) (m : commander) : commander :=
  if update && (warning_code (cm_battery_warning m) =? 3) && board_has_power_control p
  then snd (shutdown_if_allowed m) else m.

Definition battery_stage (b : battery_in) (m : commander) : commander :=
  let m := rtl_time_stage b m in
  let increased := battery_increased b m in
  let update := battery_update b m in
  let m := if update then m <| cm_battery_warning := worst_warning b |> else m in
  let m := m <| cm_flags := (cm_flags m) <| battery_healthy :=
                  batteries_ok b && (warning_code (cm_battery_warning m) =? 0) |> |> in
  let m := if increased then battery_worse m else m in
  battery_shutdown update (battery_react m).

End Stage.

End Commander.
