(* ===== verification/CommanderLoop.v ===== *)
(** * The commander: commands, pilot requests and the main loop

    src/src/modules/commander/Commander.cpp: [handle_command], [executeActionRequest], the
    stages of [run] that handle the mission result, manual control and the navigation state,
    [update_control_mode], and the main loop as a sequence of events.  One event is one stage
    of the loop with what it reads from topics; the loop runs them in the order of [cycle].
    Commands that only answer, start a worker or set the home position are left out. *)
From coqutil Require Import Datatypes.RecordSettersUsingExistingGetters.
From S2P Require Import Prelude Float32 Takeoff NavState ArmState Commander.
Import NavState ArmState Commander.
Local Open Scope Z_scope.

Module CommanderLoop.

(** ** Control mode *)

Record offboard_control_mode := mkOffboard {
  ob_position : bool; ob_velocity : bool; ob_acceleration : bool; ob_attitude : bool; ob_body_rate : bool
}.

Definition stabilization_required (s : vehicle_status) (vtol_in_trans_mode : bool) : bool :=
  rotary_wing s || vtol_fw_permanent_stab s
  || (vtol_in_trans_mode && bool_decide (vehicle_type s = VEHICLE_TYPE_FIXED_WING)).

Definition mode_none (armed_ : bool) : vehicle_control_mode :=
  mkMode armed_ false false false false false false false false false false false false.

Definition mode_position (v : vehicle_control_mode) : vehicle_control_mode :=
  v <| flag_control_rates_enabled := true |> <| flag_control_attitude_enabled := true |>
    <| flag_control_altitude_enabled := true |> <| flag_control_climb_rate_enabled := true |>
    <| flag_control_position_enabled := true |> <| flag_control_velocity_enabled := true |>.

Definition mode_attitude (v : vehicle_control_mode) : vehicle_control_mode :=
  v <| flag_control_rates_enabled := true |> <| flag_control_attitude_enabled := true |>.

Definition mode_offboard (o : offboard_control_mode) (v : vehicle_control_mode) : vehicle_control_mode :=
  let v := v <| flag_control_offboard_enabled := true |> in
  if ob_position o then (mode_position v) <| flag_control_acceleration_enabled := true |>
  else if ob_velocity o then
    (mode_attitude v) <| flag_control_velocity_enabled := true |> <| flag_control_altitude_enabled := true |>
      <| flag_control_climb_rate_enabled := true |> <| flag_control_acceleration_enabled := true |>
  else if ob_acceleration o then (mode_attitude v) <| flag_control_acceleration_enabled := true |>
  else if ob_attitude o then mode_attitude v
  else if ob_body_rate o then v <| flag_control_rates_enabled := true |>
  else v.

Definition mode_of (s : vehicle_status) (o : offboard_control_mode) (vtol_in_trans_mode : bool)
    (v : vehicle_control_mode) : vehicle_control_mode :=
  let manual := v <| flag_control_manual_enabled := true |> in
  let auto := v <| flag_control_auto_enabled := true |> in
  match nav_state s with
  | NAVIGATION_STATE_MANUAL =>
      manual <| flag_control_rates_enabled := stabilization_required s vtol_in_trans_mode |>
             <| flag_control_attitude_enabled := stabilization_required s vtol_in_trans_mode |>
  | NAVIGATION_STATE_STAB => mode_attitude manual
  | NAVIGATION_STATE_ALTCTL =>
      (mode_attitude manual) <| flag_control_altitude_enabled := true |> <| flag_control_climb_rate_enabled := true |>
  | NAVIGATION_STATE_POSCTL => mode_position manual
  | NAVIGATION_STATE_AUTO_RTL | NAVIGATION_STATE_AUTO_FOLLOW_TARGET | NAVIGATION_STATE_AUTO_LAND
  | NAVIGATION_STATE_AUTO_LANDENGFAIL | NAVIGATION_STATE_AUTO_PRECLAND | NAVIGATION_STATE_AUTO_MISSION
  | NAVIGATION_STATE_AUTO_LOITER | NAVIGATION_STATE_AUTO_TAKEOFF | NAVIGATION_STATE_AUTO_VTOL_TAKEOFF =>
      mode_position auto
  | NAVIGATION_STATE_ACRO => manual <| flag_control_rates_enabled := true |>
  | NAVIGATION_STATE_DESCEND => (mode_attitude auto) <| flag_control_climb_rate_enabled := true |>
  | NAVIGATION_STATE_TERMINATION => v <| flag_control_termination_enabled := true |>
  | NAVIGATION_STATE_OFFBOARD => mode_offboard o v
  | NAVIGATION_STATE_ORBIT => mode_position v
  end.

Definition update_control_mode (s : vehicle_status) (a : actuator_armed) (o : offboard_control_mode)
    (vtol_in_trans_mode : bool) : vehicle_control_mode :=
  let v := mode_of s o vtol_in_trans_mode (mode_none (armed a)) in
  v <| flag_multicopter_position_control_enabled :=
         rotary_wing s && (flag_control_altitude_enabled v || flag_control_climb_rate_enabled v
                           || flag_control_position_enabled v || flag_control_velocity_enabled v
                           || flag_control_acceleration_enabled v) |>.

(** ** Commands *)

Inductive cmd_result := RESULT_ACCEPTED | RESULT_TEMPORARILY_REJECTED | RESULT_DENIED | RESULT_UNSUPPORTED.

Record arm_command := mkArmCommand {
  ac_action : Z;                        (** param1, rounded *)
  ac_forced : bool;                     (** param2 is the magic number 21196 *)
  ac_from_io : bool;                    (** from this system, with 1234 in param3 *)
  ac_from_external : bool
}.

(** The parameters of a calibration command, truncated to int. *)
Record calibration := mkCalibration { c1 : Z; c2 : Z; c3 : Z; c4 : Z; c5 : Z; c6 : Z; c7 : Z }.

Inductive vehicle_command :=
| CMD_DO_REPOSITION (switch_mode : bool)
| CMD_DO_SET_MODE (base_mode custom_main_mode custom_sub_mode : Z)
| CMD_COMPONENT_ARM_DISARM (a : arm_command)
| CMD_DO_FLIGHTTERMINATION (param1 : f32)
| CMD_NAV_RETURN_TO_LAUNCH
| CMD_NAV_TAKEOFF
| CMD_NAV_VTOL_TAKEOFF
| CMD_NAV_LAND
| CMD_NAV_PRECLAND
| CMD_MISSION_START (first_item_valid : bool)
| CMD_DO_ORBIT
| CMD_PREFLIGHT_REBOOT_SHUTDOWN (param1 : Z) (request_ok : bool)
| CMD_PREFLIGHT_CALIBRATION (busy from_external battery_disconnected : bool) (c : calibration).

(** [None]: the autopilot has no such mode. *)
Definition auto_sub_mode (sub : Z) : option main_state_t :=
  if sub =? 0 then Some MAIN_STATE_AUTO_MISSION
  else if sub =? 3 then Some MAIN_STATE_AUTO_LOITER
  else if sub =? 4 then Some MAIN_STATE_AUTO_MISSION
  else if sub =? 5 then Some MAIN_STATE_AUTO_RTL
  else if sub =? 2 then Some MAIN_STATE_AUTO_TAKEOFF
  else if sub =? 6 then Some MAIN_STATE_AUTO_LAND
  else if sub =? 8 then Some MAIN_STATE_AUTO_FOLLOW_TARGET
  else if sub =? 9 then Some MAIN_STATE_AUTO_PRECLAND
  else None.

(** The main state a mode command asks for; [Some MAIN_STATE_MAX]: none, and no complaint. *)
Definition desired_main_state (base main sub : Z) : option main_state_t :=
  let has b := negb (Z.land base b =? 0) in
  if has 1 then
    if main =? 1 then Some MAIN_STATE_MANUAL
    else if main =? 2 then Some MAIN_STATE_ALTCTL
    else if main =? 3 then Some MAIN_STATE_POSCTL
    else if main =? 4 then auto_sub_mode sub
    else if main =? 5 then Some MAIN_STATE_ACRO
    else if main =? 7 then Some MAIN_STATE_STAB
    else if main =? 6 then Some MAIN_STATE_OFFBOARD
    else Some MAIN_STATE_MAX
  else if has 4 then Some MAIN_STATE_AUTO_MISSION
  else if has 64 then
    if has 8 then Some MAIN_STATE_POSCTL
    else if has 16 then Some MAIN_STATE_STAB
    else Some MAIN_STATE_MANUAL
  else Some MAIN_STATE_MAX.

Definition accept_if (b : bool) : cmd_result := if b then RESULT_ACCEPTED else RESULT_TEMPORARILY_REJECTED.

Section Loop.
Context (now : Z) (k : sensor_checks) (p : com_params).

Definition mode_command (n : main_state_t) (m : commander) : cmd_result * commander :=
  let '(r, m) := switch_main now n m in (accept_if (negb (denied r)), m).

(** Takeoff: being in the mode already is fine too. *)
Definition takeoff_command (n : main_state_t) (m : commander) : cmd_result * commander :=
  let '(r, m) := switch_main now n m in (accept_if (changed r || bool_decide (cm_main m = n)), m).

Definition set_mode_command (base main sub : Z) (m : commander) : cmd_result * commander :=
  match desired_main_state base main sub with
  | None => (RESULT_TEMPORARILY_REJECTED, m)
  | Some MAIN_STATE_MAX => (RESULT_ACCEPTED, m)
  | Some n => mode_command n m
  end.

Definition in_air_restore (a : arm_command) (m : commander) : commander :=
  if negb (ac_forced a) && ac_from_io a && (ac_action a =? 1)
  then on_nav (fun c => c <| status := (status c) <| arming_state := ARMING_STATE_IN_AIR_RESTORE |> |>) m
  else m.

Definition arm_disarm_command (a : arm_command) (m : commander) : cmd_result * commander :=
  if negb (ac_action a =? 1) && negb (ac_action a =? 0) then (RESULT_UNSUPPORTED, m)
  else
    let m := in_air_restore a m in
    let reason := if ac_from_external a then command_external else command_internal in
    let '(r, m) := if ac_action a =? 1 then arm_vehicle now k p reason (ac_from_external a || negb (ac_forced a)) m
                   else disarm_vehicle now k p reason (ac_forced a) m in
    (accept_if (negb (denied r)), m).

Definition mission_start_command (first_item_valid : bool) (m : commander) : cmd_result * commander :=
  if auto_mission_available (cm_flags m) && first_item_valid then
    let '(r, m) := switch_main now MAIN_STATE_AUTO_MISSION m in
    if denied r then (RESULT_TEMPORARILY_REJECTED, m)
    else let '(r, m) := arm_vehicle now k p mission_start true m in (accept_if (negb (denied r)), m)
  else (RESULT_DENIED, m).

Definition orbit_command (m : commander) : cmd_result * commander :=
  if in_transition_mode (cm_status m) then (RESULT_TEMPORARILY_REJECTED, m)
  else if bool_decide (vehicle_type (cm_status m) = VEHICLE_TYPE_FIXED_WING)
  then mode_command MAIN_STATE_AUTO_LOITER m
  else mode_command MAIN_STATE_ORBIT m.

(** Reboot, shutdown and reboot to the bootloader all need SHUTDOWN to be allowed. *)
Definition reboot_command (param1 : Z) (request_ok : bool) (m : commander) : cmd_result * commander :=
  if param1 =? 0 then (RESULT_ACCEPTED, m)
  else if (param1 =? 1) || (param1 =? 3) || ((param1 =? 2) && board_has_power_control p) then
    let '(allowed, m) := shutdown_if_allowed now k m in
    (if allowed && request_ok then RESULT_ACCEPTED else RESULT_DENIED, m)
  else (RESULT_DENIED, m).

(** What a calibration command starts once the vehicle is in INIT; [None]: no answer. *)
Definition start_calibration (battery_disconnected : bool) (c : calibration) (m : commander)
  : option cmd_result * commander :=
  let task := (Some RESULT_ACCEPTED, m <| cm_calibration_enabled := true |>) in
  if c1 c =? 1 then task
  else if (c1 c =? 3) || (c5 c =? 3) || (c7 c =? 3) then (None, m)
  else if c2 c =? 1 then task
  else if c3 c =? 1 then task
  else if c4 c =? 1 then (Some RESULT_ACCEPTED, m <| cm_rc_calibration_in_progress := true |>)
  else if c4 c =? 2 then task
  else if c5 c =? 1 then task
  else if c5 c =? 2 then task
  else if c5 c =? 4 then task
  else if (c6 c =? 1) || (c6 c =? 2) then task
  else if c7 c =? 1 then (if battery_disconnected then task else (Some RESULT_DENIED, m))
  else if c4 c =? 0 then (Some RESULT_ACCEPTED, m <| cm_rc_calibration_in_progress := false |>)
  else (Some RESULT_UNSUPPORTED, m).

Definition no_safety : safety := mkSafety false false.
Definition no_requirements : arm_requirements_t := mkRequirements false false false false false.

Definition calibration_command (busy from_external battery_disconnected : bool) (c : calibration) (m : commander)
  : option cmd_result * commander :=
  match arming_state (cm_status m) with
  | ARMING_STATE_ARMED | ARMING_STATE_SHUTDOWN => (Some RESULT_TEMPORARILY_REJECTED, m)
  | _ =>
      if busy then (Some RESULT_TEMPORARILY_REJECTED, m)
      else
        let '(r, m) := transition_with now k no_safety no_requirements ARMING_STATE_INIT false
                         (if from_external then command_external else command_internal) m in
        if denied r then (Some RESULT_DENIED, m) else start_calibration battery_disconnected c m
  end.

Definition answered (r : cmd_result * commander) : option cmd_result * commander := (Some (fst r), snd r).

Definition handle_command (c : vehicle_command) (m : commander) : option cmd_result * commander :=
  match c with
  | CMD_DO_REPOSITION sw => answered (if sw then mode_command MAIN_STATE_AUTO_LOITER m else (RESULT_ACCEPTED, m))
  | CMD_DO_SET_MODE b mm sm => answered (set_mode_command b mm sm m)
  | CMD_COMPONENT_ARM_DISARM a =>
      let '(r, m) := arm_disarm_command a m in
      (match r with RESULT_UNSUPPORTED => None | _ => Some r end, m)
  | CMD_DO_FLIGHTTERMINATION p1 => (Some RESULT_ACCEPTED, flight_termination_command p1 m)
  | CMD_NAV_RETURN_TO_LAUNCH =>
      let '(r, m) := switch_main now MAIN_STATE_AUTO_RTL m in (Some (accept_if (changed r)), m)
  | CMD_NAV_TAKEOFF => answered (takeoff_command MAIN_STATE_AUTO_TAKEOFF m)
  | CMD_NAV_VTOL_TAKEOFF => answered (takeoff_command MAIN_STATE_AUTO_VTOL_TAKEOFF m)
  | CMD_NAV_LAND => answered (mode_command MAIN_STATE_AUTO_LAND m)
  | CMD_NAV_PRECLAND => answered (mode_command MAIN_STATE_AUTO_PRECLAND m)
  | CMD_MISSION_START v => answered (mission_start_command v m)
  | CMD_DO_ORBIT => answered (orbit_command m)
  | CMD_PREFLIGHT_REBOOT_SHUTDOWN p1 ok => answered (reboot_command p1 ok m)
  | CMD_PREFLIGHT_CALIBRATION busy ext bat c => calibration_command busy ext bat c m
  end.

(** ** Requests of the pilot *)

Inductive action_source := SOURCE_RC_STICK_GESTURE | SOURCE_RC_SWITCH | SOURCE_RC_BUTTON | SOURCE_RC_MODE_SLOT
| SOURCE_OTHER (v : Z).

Inductive action_t :=
| ACTION_DISARM | ACTION_ARM | ACTION_TOGGLE_ARMING | ACTION_UNKILL | ACTION_KILL
| ACTION_SWITCH_MODE (mode : main_state_t) | ACTION_VTOL_TRANSITION_TO_MULTICOPTER
| ACTION_VTOL_TRANSITION_TO_FIXEDWING | ACTION_OTHER (v : Z).

Definition action_reason (s : action_source) : arm_disarm_reason_t :=
  match s with
  | SOURCE_RC_STICK_GESTURE => rc_stick
  | SOURCE_RC_SWITCH => rc_switch
  | SOURCE_RC_BUTTON => rc_button
  | SOURCE_RC_MODE_SLOT | SOURCE_OTHER _ => transition_to_standby
  end.

Definition from_rc (s : action_source) : bool := match s with SOURCE_OTHER _ => false | _ => true end.

(** The first mode of the switch holds even without an estimate. *)
Definition force_first_mode (s : action_source) (mode : main_state_t) (m : commander) : commander :=
  let allowed := match s, mode with
                 | SOURCE_RC_MODE_SLOT, (MAIN_STATE_ALTCTL | MAIN_STATE_POSCTL) => true | _, _ => false end in
  if allowed && negb (armed (cm_armed m)) && (main_state_changes (internal (cm_nav m)) =? 0)
  then on_nav (fun c => c <| internal := (internal c) <| main_state := mode |>
                                          <| main_state_changes := u16 (main_state_changes (internal c) + 1) |> |>) m
  else m.

Definition executeActionRequest (s : action_source) (a : action_t) (m : commander) : commander :=
  if cm_rc_calibration_in_progress m && from_rc s then m
  else
    let reason := action_reason s in
    match a with
    | ACTION_DISARM => snd (disarm_vehicle now k p reason false m)
    | ACTION_ARM => snd (arm_vehicle now k p reason true m)
    | ACTION_TOGGLE_ARMING =>
        if armed (cm_armed m) then snd (disarm_vehicle now k p reason false m)
        else snd (arm_vehicle now k p reason true m)
    | ACTION_UNKILL =>
        if is_rc_switch reason && manual_lockdown (cm_armed m)
        then on_arm (fun a => a <| manual_lockdown := false |>) m else m
    | ACTION_KILL =>
        if is_rc_switch reason && negb (manual_lockdown (cm_armed m))
        then on_arm (fun a => a <| manual_lockdown := true |>) m else m
    | ACTION_SWITCH_MODE mode => snd (switch_main now mode (force_first_mode s mode m))
    | ACTION_VTOL_TRANSITION_TO_MULTICOPTER | ACTION_VTOL_TRANSITION_TO_FIXEDWING | ACTION_OTHER _ => m
    end.

(** ** Other stages of the loop *)

(** The mission result: available, failed, takeoff finished. *)
Record mission_in := mkMission {
  mi_ok : bool; mi_valid : bool; mi_failure : bool; mi_finished : bool; mi_timestamp : Z
}.

Definition mission_result_stage (i : mission_in) (m : commander) : commander :=
  let m := m <| cm_flags := (cm_flags m) <| auto_mission_available := mi_ok i && mi_valid i |> |> in
  let m := if mi_ok i
           then on_nav (fun c => c <| status := (status c) <| mission_failure := mi_failure i |> |>) m else m in
  let taking_off := match nav_state (cm_status m) with
                    | NAVIGATION_STATE_AUTO_TAKEOFF | NAVIGATION_STATE_AUTO_VTOL_TAKEOFF => true | _ => false end in
  if armed (cm_armed m) && negb (cm_landed m) && taking_off
     && (nav_state_timestamp (cm_status m) <=? mi_timestamp i) && mi_finished i then
    if takeoff_to_mission p && auto_mission_available (cm_flags m)
    then snd (switch_main now MAIN_STATE_AUTO_MISSION m)
    else snd (switch_main now MAIN_STATE_AUTO_LOITER m)
  else m.

(** Manual control. *)
Record manual_in := mkManual {
  mc_valid : bool; mc_z : f32; mc_sticks_moving : bool; mc_is_mavlink : bool
}.

(** A valid setpoint; the first one selects position control. *)
Definition manual_valid (i : manual_in) (m : commander) : commander :=
  let m := m <| cm_flags := (cm_flags m) <| rc_signal_found_once := true |> |> in
  let first := negb (armed (cm_armed m)) && (mc_is_mavlink i || negb (mode_switch_mapped p))
               && (main_state_changes (internal (cm_nav m)) =? 0) in
  let m := if first
           then on_nav (fun c => c <| internal := (internal c) <| main_state := MAIN_STATE_POSCTL |>
                    <| main_state_changes := u16 (main_state_changes (internal c) + 1) |> |>) m
           else m in
  (on_nav (fun c => c <| status := (status c) <| rc_signal_lost := false |> |>) m)
    <| cm_is_throttle_above_center := fgt (mc_z i) (flit 3 5) |>
    <| cm_is_throttle_low := flt (mc_z i) (flit 1 10) |>.

Definition manual_lost (m : commander) : commander :=
  if rc_signal_found_once (cm_flags m)
  then on_nav (fun c => c <| status := (status c) <| rc_signal_lost := true |> |>) m else m.

Definition override_enabled (m : commander) : bool :=
  (negb (Z.land (com_rc_override p) 1 =? 0) && flag_control_auto_enabled (cm_mode m))
  || (negb (Z.land (com_rc_override p) 2 =? 0) && flag_control_offboard_enabled (cm_mode m)).

(** The pilot takes over by moving the sticks. *)
Definition stick_override (in_low_battery_failsafe_delay : bool) (i : manual_in) (m : commander) : commander :=
  if rotary_wing (cm_status m) && negb in_low_battery_failsafe_delay && negb (cm_geofence_warning_action_on m)
     && armed (cm_armed m) && negb (cm_rc_calibration_in_progress m) && mc_valid i && mc_sticks_moving i
     && override_enabled m then
    let '(r, m) := switch_main now MAIN_STATE_POSCTL m in
    if denied r then snd (switch_main now MAIN_STATE_ALTCTL m) else m
  else m.

Definition manual_control_stage (i : manual_in) (m : commander) : commander :=
  let in_low_battery_failsafe_delay := negb (cm_battery_failsafe_timestamp m =? 0) in
  stick_override in_low_battery_failsafe_delay i (if mc_valid i then manual_valid i m else manual_lost m).

(** Without radio control, wait in hold. *)
Definition wait_stage (m : commander) : commander :=
  if negb (armed (cm_armed m)) && rc_signal_lost (cm_status m) && bool_decide (cm_main m = MAIN_STATE_MANUAL)
     && global_position_valid (cm_flags m)
  then snd (switch_main now MAIN_STATE_AUTO_LOITER m) else m.

(** The tail of the loop: arming changes, then the navigation state. *)
Definition arming_change (m : commander) : commander :=
  let m := if eqb (cm_was_armed m) (armed (cm_armed m)) then m
           else if armed (cm_armed m)
                then (if cm_landed m then m else m <| cm_have_taken_off_since_arming := true |>)
                else m <| cm_last_disarmed_timestamp := now |> in
  if armed (cm_armed m) then m
  else m <| cm_have_taken_off_since_arming := false |> <| cm_imbalanced_propeller_check_triggered := false |>.

Definition nav_stage (g : nav_config) (m : commander) : commander :=
  let m := m <| cm_flags := (cm_flags m) <| flight_terminated :=
                  force_failsafe (cm_armed m) || manual_lockdown (cm_armed m) |> |> in
  let m := arming_change m in
  let '(nav_state_changed, c) := set_nav_state now (g <| landed := cm_landed m |>) (cm_flags m) (cm_nav m) in
  let c := if nav_state_changed then c <| status := (status c) <| nav_state_timestamp := now |> |> else c in
  m <| cm_nav := c |> <| cm_was_armed := armed (arm c) |>.

(** When the states are published. *)
Definition publish_stage (o : offboard_control_mode) (vtol_in_trans_mode : bool) (m : commander) : commander :=
  (on_nav (fun c => c <| internal := (internal c) <| internal_timestamp := now |> |>) m)
    <| cm_mode := update_control_mode (cm_status m) (cm_armed m) o vtol_in_trans_mode |>.

(** New parameters. *)
Definition parameters_stage (kill_disarm : f32) (r : arm_requirements_t) (m : commander) : commander :=
  m <| cm_requirements := r |>
    <| cm_auto_disarm_killed := set_hysteresis_time_from false (seconds kill_disarm) (cm_auto_disarm_killed m) |>.

(** ** The loop *)

(** What the other checks of the loop write: estimates, links, power and vehicle type. *)
Record inputs := mkInputs { in_status : vehicle_status; in_flags : vehicle_status_flags }.

Definition inputs_stage (i : inputs) (m : commander) : commander :=
  let s := in_status i in
  let f := cm_flags m in
  let m := on_nav (fun c => c <| status := (status c)
             <| vehicle_type := vehicle_type s |> <| is_vtol := is_vtol s |>
             <| vtol_fw_permanent_stab := vtol_fw_permanent_stab s |> <| in_transition_mode := in_transition_mode s |>
             <| data_link_lost := data_link_lost s |> <| engine_failure := engine_failure s |> |>) m in
  m <| cm_flags := (in_flags i)
         <| auto_mission_available := auto_mission_available f |>
         <| rc_signal_found_once := rc_signal_found_once f |>
         <| system_sensors_initialized := system_sensors_initialized f |>
         <| flight_terminated := flight_terminated f |>
         <| battery_healthy := battery_healthy f |> |>.

Inductive event :=
| ev_parameters (kill_disarm : f32) (r : arm_requirements_t)
| ev_inputs (i : inputs)
| ev_power_button
| ev_land_detector (landed maybe_landed : bool)
| ev_safety (safety_disabled advertised : bool) (triggered : list bool) (tick : bool)
| ev_auto_disarm
| ev_geofence_warning
| ev_battery (b : battery_in)
| ev_standby
| ev_mission_result (i : mission_in)
| ev_geofence (violated : bool) (a : geofence_action_t)
| ev_mission_termination (flight_termination : bool)
| ev_manual_control (i : manual_in)
| ev_wait
| ev_command (c : vehicle_command)
| ev_action (s : action_source) (a : action_t)
| ev_failure_detector (d : fd_flags)
| ev_nav (g : nav_config)
| ev_publish (o : offboard_control_mode) (vtol_in_trans_mode : bool)
| ev_worker_done.

Definition step (e : event) (m : commander) : commander :=
  match e with
  | ev_parameters kd r => parameters_stage kd r m
  | ev_inputs i => inputs_stage i m
  | ev_power_button => if board_has_power_control p then snd (shutdown_if_allowed now k m) else m
  | ev_land_detector l ml => land_detector_stage now l ml m
  | ev_safety d a t tick => safety_stage now k p d a t tick m
  | ev_auto_disarm => auto_disarm_stage now k p m
  | ev_geofence_warning => geofence_warning_stage m
  | ev_battery b => battery_stage now k p b m
  | ev_standby => try_standby now k m
  | ev_mission_result i => mission_result_stage i m
  | ev_geofence v a => geofence_stage now v a m
  | ev_mission_termination t => mission_termination_stage t m
  | ev_manual_control i => manual_control_stage i m
  | ev_wait => wait_stage m
  | ev_command c => snd (handle_command c m)
  | ev_action s a => executeActionRequest s a m
  | ev_failure_detector d => failure_detector_stage now k p d m
  | ev_nav g => nav_stage g m
  | ev_publish o t => publish_stage o t m
  | ev_worker_done => m <| cm_calibration_enabled := false |>
  end.

End Loop.

(** One pass of the loop: the topics that were updated, in the order of the code. *)
Record cycle_in := mkCycle {
  cy_parameters : option (f32 * arm_requirements_t);
  cy_offboard_power : inputs;           (** the checks at the three places where the loop makes them *)
  cy_vtol_estimates : inputs;
  cy_links_engine : inputs;
  cy_power_button : bool;
  cy_landed : option (bool * bool);
  cy_safety_disabled : bool; cy_button_advertised : bool; cy_button : list bool; cy_safety_tick : bool;
  cy_battery : option battery_in;
  cy_mission : option mission_in;
  cy_violated : bool; cy_geofence_action : geofence_action_t;
  cy_mission_termination : bool;
  cy_manual : option manual_in;
  cy_command : option vehicle_command;
  cy_request : option (action_source * action_t);
  cy_failure : option fd_flags;
  cy_nav : nav_config;
  cy_publish : option (offboard_control_mode * bool);
  cy_worker_done : bool
}.

Definition updated {A} (o : option A) (e : A -> event) : list event :=
  match o with Some a => [e a] | None => [] end.

Definition cycle (i : cycle_in) : list event :=
  updated (cy_parameters i) (fun '(kd, r) => ev_parameters kd r)
  ++ (if cy_power_button i then [ev_power_button] else [])
  ++ [ev_inputs (cy_offboard_power i)]
  ++ updated (cy_landed i) (fun '(l, ml) => ev_land_detector l ml)
  ++ [ev_safety (cy_safety_disabled i) (cy_button_advertised i) (cy_button i) (cy_safety_tick i);
      ev_inputs (cy_vtol_estimates i); ev_auto_disarm; ev_geofence_warning]
  ++ updated (cy_battery i) ev_battery
  ++ [ev_standby]
  ++ updated (cy_mission i) ev_mission_result
  ++ [ev_geofence (cy_violated i) (cy_geofence_action i); ev_mission_termination (cy_mission_termination i)]
  ++ updated (cy_manual i) ev_manual_control
  ++ [ev_inputs (cy_links_engine i); ev_wait]
  ++ updated (cy_command i) ev_command
  ++ updated (cy_request i) (fun '(s, a) => ev_action s a)
  ++ updated (cy_failure i) ev_failure_detector
  ++ [ev_nav (cy_nav i)]
  ++ updated (cy_publish i) (fun '(o, t) => ev_publish o t)
  ++ (if cy_worker_done i then [ev_worker_done] else []).

(** An event with its time and the results of the sensor checks then. *)
Record tick := mkTick { tk_now : Z; tk_checks : sensor_checks; tk_event : event }.

Definition do_tick (p : com_params) (m : commander) (t : tick) : commander :=
  step (tk_now t) (tk_checks t) p (tk_event t) m.

Definition runs (p : com_params) (l : list tick) (m : commander) : commander := fold_left (do_tick p) l m.

Definition pass (t : Z) (k : sensor_checks) (i : cycle_in) : list tick := map (mkTick t k) (cycle i).

(** ** Start *)

Definition zero_flags : vehicle_status_flags :=
  mkFlags false false false false false false false false true false false true false false true
    false false false false false false false false false false.

Definition initial_status (hil : bool) (now : Z) : vehicle_status :=
  mkStatus NAVIGATION_STATE_MANUAL now ARMING_STATE_INIT hil false 0 VEHICLE_TYPE_UNKNOWN false false false
    true true false false false 0 0 0 0.

(** [hil]: started with -h. *)
Definition initial (hil ground_rover : bool) (now : Z) : commander :=
  mkCommander
    (mkCtx (initial_status hil now) (mkArmed false false false false false) (mkInternal MAIN_STATE_MANUAL 0 0))
    zero_flags (mode_none false) no_safety no_safety false no_requirements 0 0 false false false false false
    false false false false false BATTERY_WARNING_NONE 0 false false false false false true false ground_rover
    (Hysteresis_new false) (Hysteresis_new false).

End CommanderLoop.
