(* ===== verification/NavStateSpec.v ===== *)
(** * What the failsafe logic of the commander promises

    The mode that [set_nav_state] picks has the estimates it needs; the reaction to a lost link
    is the best mode of a ladder that is still available; a reaction to a lost data link in
    orbit ends after one cycle; and a termination is lifted by the reset of another failsafe. *)
From coqutil Require Import Datatypes.RecordSettersUsingExistingGetters.
From S2P Require Import Prelude Float32 NavState.
Import NavState.
Local Open Scope Z_scope.

Module NavStateSpec.

(** ** Modes and their estimates *)

(** What a mode needs. *)
Definition supported (f : vehicle_status_flags) (n : navigation_state_t) : bool :=
  match n with
  | NAVIGATION_STATE_MANUAL | NAVIGATION_STATE_STAB | NAVIGATION_STATE_ACRO | NAVIGATION_STATE_TERMINATION
  | NAVIGATION_STATE_AUTO_LANDENGFAIL => true
  | NAVIGATION_STATE_ALTCTL | NAVIGATION_STATE_DESCEND => local_altitude_valid f
  | NAVIGATION_STATE_POSCTL | NAVIGATION_STATE_AUTO_LAND => local_position_valid f || global_position_valid f
  | NAVIGATION_STATE_AUTO_TAKEOFF | NAVIGATION_STATE_AUTO_VTOL_TAKEOFF | NAVIGATION_STATE_AUTO_PRECLAND =>
      local_position_valid f && local_velocity_valid f
  | NAVIGATION_STATE_AUTO_MISSION | NAVIGATION_STATE_AUTO_LOITER
  | NAVIGATION_STATE_AUTO_FOLLOW_TARGET | NAVIGATION_STATE_ORBIT => global_position_valid f
  | NAVIGATION_STATE_AUTO_RTL => global_position_valid f && home_position_valid f
  | NAVIGATION_STATE_OFFBOARD => negb (offboard_control_signal_lost f)
  end.

(** The modes that the code enters without all of it: altitude control when it is the main
    state, and a return, with a global position, when it is the main state or the mission
    has failed ([mf]). *)
Definition unchecked (f : vehicle_status_flags) (m : main_state_t) (mf : bool) (n : navigation_state_t) : bool :=
  match n with
  | NAVIGATION_STATE_ALTCTL => bool_decide (m = MAIN_STATE_ALTCTL)
  | NAVIGATION_STATE_AUTO_RTL =>
      global_position_valid f &&
      (bool_decide (m = MAIN_STATE_AUTO_RTL) || bool_decide (m = MAIN_STATE_AUTO_MISSION) && mf)
  | _ => false
  end.

(** Either the mode was kept or the new one is supported, or one of the unchecked ones. *)
Definition settled (f : vehicle_status_flags) (m : main_state_t) (mf : bool) (old : navigation_state_t) (c : nav_ctx) : Prop :=
  nav_state (status c) = old \/ supported f (nav_state (status c)) || unchecked f m mf (nav_state (status c)) = true.

Section Settled.
Context (now : Z) (g : nav_config) (f : vehicle_status_flags) (old_failsafe : bool).

Lemma enable_failsafe_nav o c : nav_state (status (enable_failsafe now o c)) = nav_state (status c).
Proof. by unfold enable_failsafe; repeat case_match. Qed.

Lemma enable_failsafe_arm o c : arm (enable_failsafe now o c) = arm c.
Proof. done. Qed.

Lemma enable_failsafe_internal o c : internal (enable_failsafe now o c) = internal c.
Proof. done. Qed.

Lemma enable_failsafe_on o c : failsafe (status (enable_failsafe now o c)) = true.
Proof. done. Qed.

Lemma settled_kept m mf old c : nav_state (status c) = old -> settled f m mf old c.
Proof. by left. Qed.

Lemma settled_set m mf old n c : supported f n || unchecked f m mf n = true -> settled f m mf old (set_nav n c).
Proof. by right. Qed.

Lemma settled_main m mf old n c : settled f m mf old c -> settled f m mf old (set_main n c).
Proof. done. Qed.

Lemma settled_failsafe m mf old o c : settled f m mf old c -> settled f m mf old (enable_failsafe now o c).
Proof. by unfold settled; rewrite enable_failsafe_nav. Qed.

End Settled.


(** A boolean goal follows from the conditions that were tested on the way. *)
Ltac by_tests :=
  repeat match goal with
         | H : _ && _ = true |- _ => apply andb_true_iff in H as [? ?]
         | H : negb _ = true |- _ => apply negb_true_iff in H
         | H : negb _ = false |- _ => apply negb_false_iff in H
         | H : _ || _ = false |- _ => apply orb_false_iff in H as [? ?]
         end;
  repeat match goal with
         | H : ?x = true |- context [?x] => rewrite H
         | H : ?x = false |- context [?x] => rewrite H
         end;
  rewrite ?orb_true_r, ?andb_true_r; done.

Ltac settle := repeat case_match; simplify_eq/=; first [by left | right; simpl; by_tests].

Section Reactions.
Context (now : Z) (g : nav_config) (f : vehicle_status_flags) (old_failsafe : bool).

Lemma settled_link m mf old act delay c :
  nav_state (status c) = old -> settled f m mf old (set_link_loss_nav_state now f act delay c).
Proof.
  intros E. unfold set_link_loss_nav_state, link_loss_rtl, link_loss_loiter, link_loss_land, link_loss_terminate.
  settle.
Qed.

Lemma settled_quadchute m mf old act c :
  nav_state (status c) = old -> settled f m mf old (set_quadchute_nav_state f act c).
Proof. intros E. unfold set_quadchute_nav_state. settle. Qed.

Lemma settled_offboard m mf old act c :
  nav_state (status c) = old -> settled f m mf old (set_offboard_loss_nav_state f act c).
Proof.
  intros E. unfold set_offboard_loss_nav_state, offboard_rtl, offboard_loiter, offboard_land, mitigate. settle.
Qed.

Lemma settled_offboard_rc m mf old act c :
  nav_state (status c) = old -> settled f m mf old (set_offboard_loss_rc_nav_state f act c).
Proof.
  intros E. unfold set_offboard_loss_rc_nav_state, manual_position, manual_altitude, offboard_rtl, offboard_loiter,
    offboard_land, mitigate. settle.
Qed.

(** The position check either moves to a supported mode or leaves everything, with the position valid. *)
Lemma invalid_pos_settled m mf old use_rc glob c b c' :
  invalid_pos now f old_failsafe use_rc glob c = (b, c') ->
  (b = true /\ settled f m mf old c') \/
  (b = false /\ c' = c /\ (if glob then global_position_valid f else local_position_valid f && local_velocity_valid f) = true).
Proof.
  unfold invalid_pos, check_invalid_pos_nav_state. intros E.
  destruct glob, (global_position_valid f) eqn:Hg, (local_position_valid f) eqn:Hl, (local_velocity_valid f) eqn:Hv; cbn in E;
    repeat case_match; injection E as <- <-;
    first [by right | left; split; [done|]; right; rewrite enable_failsafe_nav; cbn; by_tests].
Qed.

Lemma armed_invalid_pos_settled m mf old glob c b c' :
  is_armed c = true -> armed_invalid_pos now f old_failsafe glob c = (b, c') ->
  (b = true /\ settled f m mf old c') \/
  (b = false /\ c' = c /\ (if glob then global_position_valid f else local_position_valid f && local_velocity_valid f) = true).
Proof. unfold armed_invalid_pos. intros ->. apply invalid_pos_settled. Qed.

Lemma settled_failsafe_link m mf old act delay c :
  nav_state (status c) = old -> settled f m mf old (failsafe_link now f old_failsafe act delay c).
Proof. intros E. apply settled_link. by rewrite enable_failsafe_nav. Qed.

End Reactions.

Create HintDb nav discriminated.
#[export] Hint Resolve enable_failsafe_nav settled_kept settled_set settled_main settled_failsafe settled_link settled_quadchute
  settled_offboard settled_offboard_rc settled_failsafe_link : nav.

Section Decide.
Context (now : Z) (g : nav_config) (f : vehicle_status_flags) (old_failsafe : bool).

(** The position check at the head of an automatic mode. *)
Ltac position_check :=
  match goal with
  | |- context [armed_invalid_pos ?n ?ff ?o ?gl ?c] =>
      let E := fresh "E" in
      destruct (armed_invalid_pos n ff o gl c) as [? ?] eqn:E;
      eapply armed_invalid_pos_settled in E as [[-> ?]|(-> & -> & ?)]; [eassumption| |done]
  | |- context [invalid_pos ?n ?ff ?o ?r ?gl ?c] =>
      let E := fresh "E" in
      destruct (invalid_pos n ff o r gl c) as [? ?] eqn:E;
      eapply invalid_pos_settled in E as [[-> ?]|(-> & -> & ?)]; [done|]
  end.

Ltac pick := repeat case_match; eauto with nav; try (right; simpl; by_tests).

Lemma nav_manual_settled mf c :
  settled f (main_state (internal c)) mf (nav_state (status c)) (nav_manual now g f old_failsafe c).
Proof. unfold nav_manual. case_match; [eauto with nav|]. right. simpl.
  destruct (main_state (internal c)); try done. apply orb_true_r.
Qed.

Lemma nav_posctl_settled m mf c : settled f m mf (nav_state (status c)) (nav_posctl now g f old_failsafe c).
Proof.
  unfold nav_posctl. case_match; [eauto with nav|].
  position_check. right. simpl. case_match; by_tests.
Qed.

Lemma nav_mission_settled c :
  is_armed c = true ->
  settled f MAIN_STATE_AUTO_MISSION (mission_failure (status c)) (nav_state (status c)) (nav_mission now g f old_failsafe c).
Proof. intros A. unfold nav_mission. position_check. pick. Qed.

Lemma nav_hold_settled m mf (glob : bool) n c :
  is_armed c = true ->
  ((if glob then global_position_valid f else local_position_valid f && local_velocity_valid f) = true ->
   supported f n || unchecked f m mf n = true) ->
  settled f m mf (nav_state (status c)) (nav_hold now g f old_failsafe glob n c).
Proof. intros A S. unfold nav_hold. destruct (engine_failure (status c)); [by right|]. position_check. pick. Qed.

Lemma nav_auto_settled m mf (glob : bool) n c :
  is_armed c = true ->
  ((if glob then global_position_valid f else local_position_valid f && local_velocity_valid f) = true ->
   supported f n || unchecked f m mf n = true) ->
  settled f m mf (nav_state (status c)) (nav_auto now f old_failsafe glob n c).
Proof. intros A S. unfold nav_auto. destruct (engine_failure (status c)); [by right|]. position_check. eauto with nav. Qed.

Lemma nav_orbit_settled m mf c :
  is_armed c = true -> settled f m mf (nav_state (status c)) (nav_orbit now g f old_failsafe c).
Proof. intros A. unfold nav_orbit. destruct (engine_failure (status c)); [by right|]. position_check. pick. Qed.

Lemma nav_offboard_settled m mf c : settled f m mf (nav_state (status c)) (nav_offboard now g f old_failsafe c).
Proof. unfold nav_offboard. pick. Qed.

Lemma decide_settled c :
  is_armed c = true ->
  settled f (main_state (internal c)) (mission_failure (status c)) (nav_state (status c))
    (decide_nav_state now g f old_failsafe c).
Proof.
  intros A. unfold decide_nav_state.
  destruct (main_state (internal c)) eqn:E; try (by left); rewrite <- ?E;
    first [ apply nav_manual_settled | apply nav_posctl_settled | rewrite E; by apply nav_mission_settled
          | by apply nav_orbit_settled | apply nav_offboard_settled
          | apply nav_hold_settled; [done|]; rewrite ?E; intros H; simpl; by_tests
          | apply nav_auto_settled; [done|]; rewrite ?E; intros H; simpl; by_tests ].
Qed.

End Decide.

Lemma reset_link_frame o a c :
  status (reset_link_loss_globals o a c) = status c /\ internal (reset_link_loss_globals o a c) = internal c.
Proof. by unfold reset_link_loss_globals; repeat case_match. Qed.

Lemma reset_globals_frame g o c :
  status (reset_globals g o c) = status c /\ internal (reset_globals g o c) = internal c.
Proof.
  assert (forall a b c, status (reset_offboard_loss_globals o a b c) = status c /\
                        internal (reset_offboard_loss_globals o a b c) = internal c) as H
    by (intros a b c'; unfold reset_offboard_loss_globals; by repeat case_match).
  unfold reset_globals.
  by rewrite !(proj1 (H _ _ _)), !(proj2 (H _ _ _)), !(proj1 (reset_link_frame _ _ _)), !(proj2 (reset_link_frame _ _ _)).
Qed.

(** [set_nav_state] decides on this context. *)
Definition entering (g : nav_config) (c : nav_ctx) : nav_ctx :=
  reset_globals g (failsafe (status c)) (c <| status := (status c) <| failsafe := false |> |>).

Lemma set_nav_state_decides now g f c :
  snd (set_nav_state now g f c) = decide_nav_state now g f (failsafe (status c)) (entering g c).
Proof. done. Qed.

Lemma entering_frame g c :
  status (entering g c) = (status c) <| failsafe := false |> /\ internal (entering g c) = internal c.
Proof. unfold entering. split; [by rewrite (proj1 (reset_globals_frame _ _ _))|by rewrite (proj2 (reset_globals_frame _ _ _))]. Qed.

Lemma entering_nav g c : nav_state (status (entering g c)) = nav_state (status c).
Proof. by rewrite (proj1 (entering_frame g c)). Qed.

Lemma entering_armed g c : is_armed (entering g c) = is_armed c.
Proof. unfold is_armed. by rewrite (proj1 (entering_frame g c)). Qed.

Lemma entering_main g c : main_state (internal (entering g c)) = main_state (internal c).
Proof. by rewrite (proj2 (entering_frame g c)). Qed.

Lemma entering_mission g c : mission_failure (status (entering g c)) = mission_failure (status c).
Proof. by rewrite (proj1 (entering_frame g c)). Qed.

(** C6 (safety). While armed, every change of the navigation state leads to a mode that has what it
    needs: a global position for missions, hold, follow and orbit, also a home for a return; a
    local position and velocity for a takeoff and a precision landing; a local or global
    position for position control and landing; an altitude for altitude control and a descent;
    a live stream of setpoints for offboard.  There are two exceptions, where the code does not
    look: altitude control when it is the main state, and the home of a return, which has a
    global position, when returning is the main state or the mission has failed. *)
Theorem nav_change_supported now g f c (n := nav_state (status (snd (set_nav_state now g f c))))
    (m := main_state (internal c)) :
  is_armed c = true ->
  fst (set_nav_state now g f c) = true ->
  supported f n = true \/
  (n = NAVIGATION_STATE_ALTCTL /\ m = MAIN_STATE_ALTCTL) \/
  (n = NAVIGATION_STATE_AUTO_RTL /\ global_position_valid f = true /\
   (m = MAIN_STATE_AUTO_RTL \/ m = MAIN_STATE_AUTO_MISSION /\ mission_failure (status c) = true)).
Proof.
  intros A C. rewrite <- (entering_armed g) in A.
  destruct (decide_settled now g f (failsafe (status c)) (entering g c) A) as [E|E].
  - rewrite entering_nav in E. unfold set_nav_state in C. simpl in C.
    apply negb_true_iff, bool_decide_eq_false in C. by destruct C.
  - rewrite entering_main, entering_mission, <- set_nav_state_decides in E. fold n m in E.
    apply orb_true_iff in E as [E|E]; [by left|]. right. destruct n; try discriminate E; cbn in E.
    + left. by apply bool_decide_eq_true in E.
    + right. apply andb_true_iff in E as [G E]. apply orb_true_iff in E as [E|E]; [by apply bool_decide_eq_true in E; auto|].
      apply andb_true_iff in E as [E F]. apply bool_decide_eq_true in E. auto 6.
Qed.

(** ** A lost link *)

Definition ladder : list navigation_state_t :=
  [NAVIGATION_STATE_AUTO_RTL; NAVIGATION_STATE_AUTO_LOITER; NAVIGATION_STATE_AUTO_LAND; NAVIGATION_STATE_DESCEND;
   NAVIGATION_STATE_TERMINATION].

Definition available (f : vehicle_status_flags) (n : navigation_state_t) : bool :=
  match n with
  | NAVIGATION_STATE_AUTO_RTL => global_position_valid f && home_position_valid f
  | NAVIGATION_STATE_AUTO_LOITER => global_position_valid f
  | NAVIGATION_STATE_AUTO_LAND => global_position_valid f || local_position_valid f
  | NAVIGATION_STATE_DESCEND => local_altitude_valid f
  | NAVIGATION_STATE_TERMINATION => true
  | _ => false
  end.

(** The rungs an action allows; [None]: it does not choose a mode. *)
Definition rungs (a : link_loss_actions_t) : option (list navigation_state_t) :=
  match a with
  | LL_AUTO_RTL => Some ladder
  | LL_AUTO_LOITER => Some (drop 1 ladder)
  | LL_AUTO_LAND => Some (drop 2 ladder)
  | LL_TERMINATE => Some (drop 4 ladder)
  | LL_DISABLED | LL_LOCKDOWN | LL_OTHER _ => None
  end.

(** The action within and after the delay. *)
Definition effective (delayed : bool) (a : link_loss_actions_t) : link_loss_actions_t :=
  if delayed then LL_AUTO_LOITER else a.

Definition picks (f : vehicle_status_flags) (a : link_loss_actions_t) (c : nav_ctx) : Prop :=
  exists l, rungs a = Some l /\ find (available f) l = Some (nav_state (status c)) /\
            (nav_state (status c) = NAVIGATION_STATE_TERMINATION -> force_failsafe (arm c) = true).

Lemma picks_set f l n c a :
  rungs a = Some l -> find (available f) l = Some n -> n <> NAVIGATION_STATE_TERMINATION -> picks f a (set_nav n c).
Proof. intros E F N. by exists l. Qed.

Lemma link_terminate_picks f a l c :
  rungs a = Some l -> find (available f) l = Some NAVIGATION_STATE_TERMINATION -> picks f a (link_loss_terminate c).
Proof. by exists l. Qed.

Lemma link_loss_picks now f a delay c :
  rungs a <> None ->
  picks f (effective (elapsed_less now (failsafe_timestamp (status c)) delay) a)
    (set_link_loss_nav_state now f a delay c).
Proof.
  intros R. unfold set_link_loss_nav_state, effective.
  destruct a; simpl in R; try done; destruct (elapsed_less _ _ _);
    unfold link_loss_rtl, link_loss_loiter, link_loss_land;
    destruct (global_position_valid f) eqn:G, (home_position_valid f) eqn:H, (local_position_valid f) eqn:L,
      (local_altitude_valid f) eqn:Al; simpl;
    first [ eapply picks_set; [done| |done]; simpl; by rewrite ?G, ?H, ?L, ?Al
          | eapply link_terminate_picks; [done|]; simpl; by rewrite ?G, ?H, ?L, ?Al ].
Qed.

(** The modes that the pilot flies by hand. *)
Definition hand_flown (m : main_state_t) : bool :=
  match m with
  | MAIN_STATE_MANUAL | MAIN_STATE_STAB | MAIN_STATE_ACRO | MAIN_STATE_ALTCTL | MAIN_STATE_POSCTL => true
  | _ => false
  end.

Lemma set_link_loss_status now f a delay c :
  failsafe_timestamp (status (set_link_loss_nav_state now f a delay c)) = failsafe_timestamp (status c) /\
  failsafe (status (set_link_loss_nav_state now f a delay c)) = failsafe (status c).
Proof.
  unfold set_link_loss_nav_state, link_loss_rtl, link_loss_loiter, link_loss_land, link_loss_terminate.
  by repeat case_match.
Qed.

Lemma hand_flown_reacts now g f o c :
  hand_flown (main_state (internal c)) = true -> rc_signal_lost (status c) = true -> is_armed c = true ->
  decide_nav_state now g f o c = failsafe_link now f o (rc_loss_act g) (param_com_rcl_act_t g) c.
Proof.
  intros H R A. unfold decide_nav_state, nav_manual, nav_posctl. rewrite R, A.
  by destruct (main_state (internal c)).
Qed.

(** C21 (functional). Radio lost while the pilot flies: the vehicle goes into failsafe and picks the best mode
    that is available, starting from the configured action (from hold during the delay) down
    to termination, and termination sets the outputs to their failsafe values. *)
Theorem rc_loss_best_mode now g f c (c' := snd (set_nav_state now g f c)) :
  hand_flown (main_state (internal c)) = true ->
  is_armed c = true -> rc_signal_lost (status c) = true ->
  rungs (rc_loss_act g) <> None ->
  failsafe (status c') = true /\
  picks f (effective (elapsed_less now (failsafe_timestamp (status c')) (param_com_rcl_act_t g)) (rc_loss_act g)) c'.
Proof.
  intros H A R K. subst c'. rewrite set_nav_state_decides.
  rewrite hand_flown_reacts; [|by rewrite entering_main|by rewrite (proj1 (entering_frame g c))|by rewrite entering_armed].
  unfold failsafe_link.
  rewrite (proj1 (set_link_loss_status _ _ _ _ _)), (proj2 (set_link_loss_status _ _ _ _ _)).
  split; [done|]. by apply link_loss_picks.
Qed.

(** ** Termination *)

(** The actuators are told to go to their failsafe values only with this mode. *)
Definition forced_with_mode (b : bool) (c : nav_ctx) : Prop :=
  force_failsafe (arm c) = b \/
  (force_failsafe (arm c) = true /\ nav_state (status c) = NAVIGATION_STATE_TERMINATION).

Section Force.
Context (now : Z) (g : nav_config) (f : vehicle_status_flags) (o : bool).

Ltac force := repeat case_match; first [by left | by right].

Lemma force_main b n c : forced_with_mode b c -> forced_with_mode b (set_main n c).
Proof. done. Qed.

Lemma force_enable b o' c : forced_with_mode b c -> forced_with_mode b (enable_failsafe now o' c).
Proof. unfold forced_with_mode. by rewrite enable_failsafe_nav. Qed.

Lemma force_link a delay c d :
  arm d = arm c -> forced_with_mode (force_failsafe (arm c)) (set_link_loss_nav_state now f a delay d).
Proof.
  intros <-. unfold set_link_loss_nav_state, link_loss_rtl, link_loss_loiter, link_loss_land, link_loss_terminate. force.
Qed.

Lemma force_failsafe_link a delay c d :
  arm d = arm c -> forced_with_mode (force_failsafe (arm c)) (failsafe_link now f o a delay d).
Proof. intros <-. by apply force_link. Qed.

Lemma force_quadchute a c d :
  arm d = arm c -> forced_with_mode (force_failsafe (arm c)) (set_quadchute_nav_state f a d).
Proof. intros <-. unfold set_quadchute_nav_state. force. Qed.

Lemma force_offboard a c d :
  arm d = arm c -> forced_with_mode (force_failsafe (arm c)) (set_offboard_loss_nav_state f a d).
Proof. intros <-. unfold set_offboard_loss_nav_state, offboard_rtl, offboard_loiter, offboard_land, mitigate. force. Qed.

Lemma force_offboard_rc a c d :
  arm d = arm c -> forced_with_mode (force_failsafe (arm c)) (set_offboard_loss_rc_nav_state f a d).
Proof.
  intros <-. unfold set_offboard_loss_rc_nav_state, manual_position, manual_altitude, offboard_rtl, offboard_loiter,
    offboard_land, mitigate. force.
Qed.

Lemma invalid_pos_arm r gl c b c' : invalid_pos now f o r gl c = (b, c') -> arm c' = arm c.
Proof. unfold invalid_pos, check_invalid_pos_nav_state. intros E. repeat case_match; by simplify_eq/=. Qed.

Lemma armed_invalid_pos_arm gl c b c' : armed_invalid_pos now f o gl c = (b, c') -> arm c' = arm c.
Proof. unfold armed_invalid_pos. case_match; [apply invalid_pos_arm|intros E; by simplify_eq]. Qed.

Ltac arm_check :=
  match goal with
  | |- context [armed_invalid_pos ?n ?ff ?oo ?gl ?c] =>
      let E := fresh "E" in destruct (armed_invalid_pos n ff oo gl c) as [? ?] eqn:E;
      apply armed_invalid_pos_arm in E; rewrite <- E
  | |- context [invalid_pos ?n ?ff ?oo ?r ?gl ?c] =>
      let E := fresh "E" in destruct (invalid_pos n ff oo r gl c) as [? ?] eqn:E;
      apply invalid_pos_arm in E; rewrite <- E
  end.

Ltac forced :=
  repeat case_match; repeat first [apply force_main | apply force_enable];
  first [ by left | by apply force_failsafe_link | by apply force_link | by apply force_quadchute ].

Lemma decide_force c : forced_with_mode (force_failsafe (arm c)) (decide_nav_state now g f o c).
Proof.
  unfold decide_nav_state, nav_manual, nav_posctl, nav_mission, nav_hold, nav_auto, nav_orbit.
  destruct (main_state (internal c)); try (by left).
  all: try solve [forced | arm_check; forced | case_match; [by left|]; arm_check; forced].
  unfold nav_offboard. repeat case_match;
      first [ by apply force_offboard | by apply force_offboard_rc | by apply force_failsafe_link | by left ].
Qed.

End Force.

Definition is_terminate_ll (a : link_loss_actions_t) : bool := match a with LL_TERMINATE => true | _ => false end.
Definition is_terminate_ol (a : offboard_loss_actions_t) : bool := match a with OL_TERMINATE => true | _ => false end.
Definition is_terminate_or (a : offboard_loss_rc_actions_t) : bool := match a with OR_TERMINATE => true | _ => false end.

(** Some link loss is configured to terminate the flight. *)
Definition terminating (g : nav_config) : bool :=
  is_terminate_ll (rc_loss_act g) || is_terminate_ll (data_link_loss_act g)
  || is_terminate_ol (offb_loss_act g) || is_terminate_or (offb_loss_rc_act g).

Lemma reset_globals_force g o c :
  force_failsafe (arm (reset_globals g o c)) = force_failsafe (arm c) && negb (o && terminating g).
Proof.
  unfold reset_globals, reset_offboard_loss_globals, reset_link_loss_globals, terminating.
  destruct o; [|by rewrite andb_true_r].
  destruct (rc_loss_act g), (data_link_loss_act g), (offb_loss_act g), (offb_loss_rc_act g); simpl;
    unfold set_force_failsafe, set_lockdown, RecordSettersUsingExistingGetters.const; simpl;
    by rewrite ?andb_true_r, ?andb_false_r.
Qed.

(** A failsafe with a terminating action configured lifts every termination when it ends:
    whoever asked for it, unless the new mode is termination the outputs are released. *)
Theorem termination_lifted now g f c (c' := snd (set_nav_state now g f c)) :
  failsafe (status c) = true -> terminating g = true ->
  nav_state (status c') <> NAVIGATION_STATE_TERMINATION ->
  force_failsafe (arm c') = false.
Proof.
  intros F T N. subst c'. rewrite set_nav_state_decides in *.
  destruct (decide_force now g f (failsafe (status c)) (entering g c)) as [E|[_ E]]; [|done].
  rewrite E. unfold entering. by rewrite reset_globals_force, F, T, andb_false_r.
Qed.

(** Without such an action a termination stays. *)
Lemma termination_kept now g f c :
  terminating g = false -> force_failsafe (arm c) = true ->
  force_failsafe (arm (snd (set_nav_state now g f c))) = true.
Proof.
  intros T F. rewrite set_nav_state_decides.
  destruct (decide_force now g f (failsafe (status c)) (entering g c)) as [E|[E _]]; [|done].
  rewrite E. unfold entering. rewrite reset_globals_force, T, andb_false_r. by rewrite andb_true_r.
Qed.

(** ** What the decision leaves alone *)

(** Arming and the kill switch are not its business. *)
Definition nav_keeps (c c' : nav_ctx) : Prop :=
  arming_state (status c') = arming_state (status c) /\ hil_on (status c') = hil_on (status c) /\
  armed (arm c') = armed (arm c) /\ manual_lockdown (arm c') = manual_lockdown (arm c).

Section Keeps.
Context (now : Z) (g : nav_config) (f : vehicle_status_flags) (o : bool) (c : nav_ctx).

Lemma keeps_refl : nav_keeps c c.
Proof. done. Qed.

Lemma keeps_set_nav n d : nav_keeps c d -> nav_keeps c (set_nav n d).
Proof. done. Qed.

Lemma keeps_set_main n d : nav_keeps c d -> nav_keeps c (set_main n d).
Proof. done. Qed.

Lemma keeps_go_main n d : nav_keeps c d -> nav_keeps c (go_main now n f d).
Proof. done. Qed.

Lemma keeps_force b d : nav_keeps c d -> nav_keeps c (set_force_failsafe b d).
Proof. done. Qed.

Lemma keeps_lockdown b d : nav_keeps c d -> nav_keeps c (set_lockdown b d).
Proof. done. Qed.

Lemma keeps_enable o' d : nav_keeps c d -> nav_keeps c (enable_failsafe now o' d).
Proof. unfold enable_failsafe. by repeat case_match. Qed.

Ltac keep :=
  repeat case_match;
  repeat first [ assumption | apply keeps_set_nav | apply keeps_set_main | apply keeps_go_main | apply keeps_force
               | apply keeps_lockdown | apply keeps_enable ].

Lemma keeps_link a delay d : nav_keeps c d -> nav_keeps c (set_link_loss_nav_state now f a delay d).
Proof.
  intros K. unfold set_link_loss_nav_state, link_loss_rtl, link_loss_loiter, link_loss_land, link_loss_terminate. keep.
Qed.

Lemma keeps_quadchute a d : nav_keeps c d -> nav_keeps c (set_quadchute_nav_state f a d).
Proof. intros K. unfold set_quadchute_nav_state. keep. Qed.

Lemma keeps_offboard a d : nav_keeps c d -> nav_keeps c (set_offboard_loss_nav_state f a d).
Proof.
  intros K. unfold set_offboard_loss_nav_state, offboard_rtl, offboard_loiter, offboard_land, mitigate. keep.
Qed.

Lemma keeps_offboard_rc a d : nav_keeps c d -> nav_keeps c (set_offboard_loss_rc_nav_state f a d).
Proof.
  intros K. unfold set_offboard_loss_rc_nav_state, manual_position, manual_altitude, offboard_rtl, offboard_loiter,
    offboard_land, mitigate. keep.
Qed.

Lemma keeps_invalid_pos r gl d : nav_keeps c d -> nav_keeps c (snd (invalid_pos now f o r gl d)).
Proof. intros K. unfold invalid_pos, check_invalid_pos_nav_state. cbv zeta. destruct (if _ && _ then _ else _); cbn [snd]; keep. Qed.

Lemma keeps_armed_invalid_pos gl d : nav_keeps c d -> nav_keeps c (snd (armed_invalid_pos now f o gl d)).
Proof. intros K. unfold armed_invalid_pos. case_match; [by apply keeps_invalid_pos|done]. Qed.

Lemma keeps_failsafe_link a delay d : nav_keeps c d -> nav_keeps c (failsafe_link now f o a delay d).
Proof. intros K. by apply keeps_link, keeps_enable. Qed.

Lemma keeps_reset_link a d : nav_keeps c d -> nav_keeps c (reset_link_loss_globals o a d).
Proof. intros K. unfold reset_link_loss_globals. keep. Qed.

Lemma keeps_reset d : nav_keeps c d -> nav_keeps c (reset_globals g o d).
Proof.
  intros K. unfold reset_globals, reset_offboard_loss_globals.
  assert (nav_keeps c (reset_link_loss_globals o (data_link_loss_act g) (reset_link_loss_globals o (rc_loss_act g) d))) as K'
    by (by do 2 apply keeps_reset_link).
  revert K'. generalize (reset_link_loss_globals o (data_link_loss_act g) (reset_link_loss_globals o (rc_loss_act g) d)).
  intros e K'. keep.
Qed.

Ltac keep_all :=
  repeat case_match;
  repeat first [ assumption | apply keeps_set_nav | apply keeps_set_main | apply keeps_failsafe_link | apply keeps_enable
               | apply keeps_link | apply keeps_quadchute | apply keeps_offboard | apply keeps_offboard_rc ].

(** A mode whose position is checked first. *)
Lemma keeps_checked gl d (K : bool -> nav_ctx -> nav_ctx) :
  nav_keeps c d -> (forall b e, nav_keeps c e -> nav_keeps c (K b e)) ->
  nav_keeps c (let '(b, e) := armed_invalid_pos now f o gl d in K b e).
Proof. intros H HK. pose proof (keeps_armed_invalid_pos gl d H). destruct (armed_invalid_pos _ _ _ _ _). by apply HK. Qed.

Lemma keeps_decide d : nav_keeps c d -> nav_keeps c (decide_nav_state now g f o d).
Proof.
  intros K. unfold decide_nav_state, nav_manual, nav_mission, nav_hold, nav_auto, nav_orbit, nav_offboard.
  destruct (main_state (internal d)); try assumption;
    try solve [keep_all | apply keeps_checked; [done|]; intros b e Ke; keep_all
              | destruct (engine_failure (status d)); [keep_all|]; apply keeps_checked; [done|]; intros b e Ke; keep_all].
  unfold nav_posctl. cbv zeta.
  pose proof (keeps_invalid_pos
    (match posctl_nav_loss_act g with PL_LAND_TERMINATE => false | _ => true end || negb (is_armed d))
    (bool_decide (vehicle_type (status d) = VEHICLE_TYPE_FIXED_WING)) d K) as Ki.
  destruct (invalid_pos _ _ _ _ _ _). keep_all.
Qed.

End Keeps.

Lemma set_nav_state_keeps now g f c : nav_keeps c (snd (set_nav_state now g f c)).
Proof. rewrite set_nav_state_decides. apply keeps_decide. by apply keeps_reset. Qed.

(** ** Orbit *)

Lemma nav_orbit_link_loss now g f o c :
  is_armed c = true -> engine_failure (status c) = false -> data_link_lost (status c) = true ->
  global_position_valid f = true -> data_link_loss_act g = LL_AUTO_LOITER -> landed g = false ->
  nav_orbit now g f o c = set_main MAIN_STATE_POSCTL (enable_failsafe now o (set_nav NAVIGATION_STATE_AUTO_LOITER c)).
Proof.
  intros A E D G L Ld.
  assert (armed_invalid_pos now f o true c = (false, c)) as P.
  { unfold armed_invalid_pos, invalid_pos, check_invalid_pos_nav_state. by rewrite A, G. }
  unfold nav_orbit, data_link_react, data_link_loss_act_configured, set_link_loss_nav_state, link_loss_loiter.
  rewrite E, P, A, G, D, L, Ld. by destruct (elapsed_less _ _ _).
Qed.

Lemma nav_posctl_flies now g f o c :
  rc_signal_lost (status c) = false -> vehicle_type (status c) = VEHICLE_TYPE_ROTARY_WING ->
  local_position_valid f = true -> local_velocity_valid f = true ->
  nav_posctl now g f o c = set_nav NAVIGATION_STATE_POSCTL c.
Proof.
  intros R V P W. unfold nav_posctl, invalid_pos, check_invalid_pos_nav_state. by rewrite R, V, P, W.
Qed.

(** Losing the data link in orbit starts the configured reaction, but the main state becomes
    position control, so that the next decision, with the radio alive and a position, drops the
    failsafe and the reaction although the link is still lost. *)
Theorem orbit_reaction_lasts_one_cycle t1 t2 g f c
    (c1 := snd (set_nav_state t1 g f c)) (c2 := snd (set_nav_state t2 g f c1)) :
  main_state (internal c) = MAIN_STATE_ORBIT -> is_armed c = true -> engine_failure (status c) = false ->
  vehicle_type (status c) = VEHICLE_TYPE_ROTARY_WING ->
  rc_signal_lost (status c) = false -> data_link_lost (status c) = true ->
  global_position_valid f = true -> local_position_valid f = true -> local_velocity_valid f = true ->
  data_link_loss_act g = LL_AUTO_LOITER -> landed g = false ->
  (failsafe (status c1) = true /\ nav_state (status c1) = NAVIGATION_STATE_AUTO_LOITER) /\
  (failsafe (status c2) = false /\ nav_state (status c2) = NAVIGATION_STATE_POSCTL /\
   data_link_lost (status c2) = true).
Proof.
  intros M A E V R D G P W L Ld. subst c2 c1. rewrite !set_nav_state_decides.
  destruct (entering_frame g c) as [Es Ei].
  assert (decide_nav_state t1 g f (failsafe (status c)) (entering g c)
          = set_main MAIN_STATE_POSCTL (enable_failsafe t1 (failsafe (status c))
              (set_nav NAVIGATION_STATE_AUTO_LOITER (entering g c)))) as ->.
  { unfold decide_nav_state. rewrite Ei, M. apply nav_orbit_link_loss; rewrite ?Es; try done.
    by rewrite entering_armed. }
  split; [split; [done|exact (enable_failsafe_nav t1 (failsafe (status c)) (set_nav _ _))]|].
  set (c1 := set_main _ _).
  assert (Hs : rc_signal_lost (status c1) = false /\ vehicle_type (status c1) = VEHICLE_TYPE_ROTARY_WING
               /\ data_link_lost (status c1) = true).
  { subst c1. unfold enable_failsafe, set_main, set_nav. simpl. rewrite Es. simpl. by repeat case_match. }
  destruct Hs as (Hr & Hv & Hd). destruct (entering_frame g c1) as [Es1 Ei1].
  unfold decide_nav_state. rewrite Ei1. simpl (main_state (internal c1)).
  rewrite nav_posctl_flies; rewrite ?Es1; try done. simpl. by rewrite Es1.
Qed.

(** ** Concrete flights *)

Definition flight_flags (glob home loc alt : bool) : vehicle_status_flags :=
  mkFlags true true alt loc loc glob home true false true false true false false true true false false false false
    false false false false false.

Definition flight_status (n : navigation_state_t) (failsafe_on rc_lost dl_lost : bool) : vehicle_status :=
  mkStatus n 0 ARMING_STATE_ARMED false failsafe_on 5000000 VEHICLE_TYPE_ROTARY_WING false false false rc_lost dl_lost
    false false false 0 0 1 0.

Definition flight (n : navigation_state_t) (m : main_state_t) (failsafe_on rc_lost dl_lost terminated : bool) : nav_ctx :=
  mkCtx (flight_status n failsafe_on rc_lost dl_lost) (mkArmed true true false false terminated) (mkInternal m 1 0).

Definition flight_config (dl rc : link_loss_actions_t) : nav_config :=
  mkConfig dl false false false rc OL_AUTO_LAND QC_AUTO_RTL OR_MANUAL_POSITION PL_ALTITUDE_MANUAL (flit 5 1) 0.

(** Losing the position in a mission leads to a mode that still works. *)
Lemma nav_change_supported_witness :
  let f := flight_flags false false false true in
  let c := flight NAVIGATION_STATE_AUTO_MISSION MAIN_STATE_AUTO_MISSION false false false false in
  let g := flight_config LL_AUTO_RTL LL_AUTO_RTL in
  nav_state (status (snd (set_nav_state 9000000 g f c))) = NAVIGATION_STATE_DESCEND /\
  supported f (nav_state (status (snd (set_nav_state 9000000 g f c)))) = true.
Proof.
  intros f c g. split; [vm_compute; reflexivity|].
  destruct (nav_change_supported 9000000 g f c) as [S|[[E _]|[E _]]];
    [vm_compute; reflexivity|vm_compute; reflexivity|exact S|vm_compute in E; discriminate|vm_compute in E; discriminate].
Defined.

(** The second exception occurs: returning without a home. *)
Example return_without_home :
  let f := flight_flags true false true true in
  let c := flight NAVIGATION_STATE_AUTO_LOITER MAIN_STATE_AUTO_RTL false false false false in
  let n := nav_state (status (snd (set_nav_state 9000000 (flight_config LL_AUTO_RTL LL_AUTO_RTL) f c))) in
  n = NAVIGATION_STATE_AUTO_RTL /\ supported f n = false.
Proof. vm_compute. by split. Qed.

(** Radio lost in position control without a home: after the delay, hold. *)
Lemma rc_loss_best_mode_witness :
  let f := flight_flags true false true true in
  let c := flight NAVIGATION_STATE_POSCTL MAIN_STATE_POSCTL false true false false in
  let g := flight_config LL_AUTO_RTL LL_AUTO_RTL in
  let c' := snd (set_nav_state 60000000 g f c) in
  nav_state (status c') = NAVIGATION_STATE_AUTO_LOITER /\
  failsafe (status c') = true /\
  picks f (effective (elapsed_less 60000000 (failsafe_timestamp (status c')) (param_com_rcl_act_t g)) (rc_loss_act g)) c'.
Proof.
  intros f c g c'. split; [vm_compute; reflexivity|].
  apply (rc_loss_best_mode 60000000 g f c); [vm_compute; reflexivity..|discriminate].
Defined.

(** Terminated during the delay of a radio loss, released when the radio is back. *)
Lemma termination_lifted_witness :
  let f := flight_flags true true true true in
  let c := flight NAVIGATION_STATE_AUTO_LOITER MAIN_STATE_POSCTL true false false true in
  let g := flight_config LL_DISABLED LL_TERMINATE in
  force_failsafe (arm c) = true /\ force_failsafe (arm (snd (set_nav_state 6000000 g f c))) = false.
Proof.
  intros f c g. split; [reflexivity|].
  apply (termination_lifted 6000000 g f c); [reflexivity|reflexivity|vm_compute; discriminate].
Defined.

Lemma orbit_reaction_lasts_one_cycle_witness :
  let f := flight_flags true true true true in
  let c := flight NAVIGATION_STATE_ORBIT MAIN_STATE_ORBIT false false true false in
  let g := flight_config LL_AUTO_LOITER LL_AUTO_RTL in
  let c1 := snd (set_nav_state 6000000 g f c) in
  let c2 := snd (set_nav_state 6010000 g f c1) in
  (failsafe (status c1) = true /\ nav_state (status c1) = NAVIGATION_STATE_AUTO_LOITER) /\
  (failsafe (status c2) = false /\ nav_state (status c2) = NAVIGATION_STATE_POSCTL /\
   data_link_lost (status c2) = true).
Proof.
  intros f c g c1 c2. apply (orbit_reaction_lasts_one_cycle 6000000 6010000 g f c); reflexivity.
Defined.

End NavStateSpec.
