(* ===== verification/ArmStateSpec.v ===== *)
(** * What the arming state machine promises

    The vehicle arms exactly when the table allows it and the checks pass (or it resumes in the
    air); the arming message and the arming state agree; the sensor flag is never lost, so that
    disarming cannot be refused; and the safety button never turns safety back on. *)
From coqutil Require Import Datatypes.RecordSettersUsingExistingGetters.
From S2P Require Import Prelude NavState ArmState.
Import NavState ArmState.
Local Open Scope Z_scope.

Module ArmStateSpec.

(** ** What a transition leaves alone *)

(** The fields that no transition touches. *)
Definition same_rest (a a' : arm_ctx) : Prop :=
  hil_on (ac_status a') = hil_on (ac_status a) /\
  nav_state (ac_status a') = nav_state (ac_status a) /\
  failsafe (ac_status a') = failsafe (ac_status a) /\
  takeoff_time (ac_status a') = takeoff_time (ac_status a) /\
  manual_lockdown (ac_armed a') = manual_lockdown (ac_armed a) /\
  force_failsafe (ac_armed a') = force_failsafe (ac_armed a) /\
  ac_flags a' = (ac_flags a) <| system_sensors_initialized := system_sensors_initialized (ac_flags a') |>.

Lemma flags_eta f : f <| system_sensors_initialized := system_sensors_initialized f |> = f.
Proof. by destruct f. Qed.

Lemma same_rest_refl a : same_rest a a.
Proof. unfold same_rest. by rewrite flags_eta. Qed.

Lemma same_rest_trans a b c : same_rest a b -> same_rest b c -> same_rest a c.
Proof.
  intros (H1 & H2 & H3 & H4 & H5 & H6 & H7) (G1 & G2 & G3 & G4 & G5 & G6 & G7).
  unfold same_rest. split_and!; try congruence. rewrite G7, H7. done.
Qed.

Section Transition.
Context (now : Z) (k : sensor_checks) (v : vehicle_control_mode) (sf : safety) (req : arm_requirements_t).
Context (new : arming_state_t) (chk : bool) (reason : arm_disarm_reason_t).

(** The context after the checks, before the rules of the simulation. *)
Definition checked (a : arm_ctx) : arm_ctx := rerun_preflight now k v new chk (snd (run_preflight k v new chk a)).
Definition preflight_result (a : arm_ctx) : bool := fst (run_preflight k v new chk a).

Lemma transition_unfold a :
  arming_state_transition now k v sf req new chk reason a =
    if bool_decide (new = arming_state (ac_status a)) then (TRANSITION_NOT_CHANGED, a)
    else
      let h := hil_rules new (transition_valid k v sf req new chk (preflight_result a) (checked a)) (checked a) in
      if standby_rules new (fst h) (snd h) then (TRANSITION_CHANGED, finish_transition now new reason (snd h))
      else (TRANSITION_DENIED, snd h).
Proof.
  unfold arming_state_transition, checked, preflight_result.
  destruct (bool_decide _); [done|]. destruct (run_preflight k v new chk a) as [ok b]; simpl.
  by destruct (hil_rules _ _ _).
Qed.

Lemma checked_frame a :
  ac_status (checked a) = ac_status a /\ ac_armed (checked a) = ac_armed a /\
  ac_flags (checked a) = (ac_flags a) <| system_sensors_initialized := system_sensors_initialized (ac_flags (checked a)) |>.
Proof.
  unfold checked, run_preflight, rerun_preflight.
  repeat case_match; simpl; split_and!; try done; by rewrite flags_eta.
Qed.

Lemma checked_same a : same_rest a (checked a).
Proof.
  destruct (checked_frame a) as (E1 & E2 & E3). unfold same_rest. rewrite E1, E2.
  split_and!; done.
Qed.

Lemma checked_sensors a :
  system_sensors_initialized (ac_flags a) = true -> system_sensors_initialized (ac_flags (checked a)) = true.
Proof.
  intros S. unfold checked.
  assert (system_sensors_initialized (ac_flags (snd (run_preflight k v new chk a))) = true) as R.
  { unfold run_preflight. case_match; [|done]. cbn [snd]. by case_match. }
  unfold rerun_preflight. by rewrite R.
Qed.

(** The context after the rules of the simulation. *)
Definition ruled (a : arm_ctx) : arm_ctx := snd (hil_rules new true (checked a)).
Definition ruled_valid (a : arm_ctx) : bool :=
  standby_rules new (transition_valid k v sf req new chk (preflight_result a) (checked a)
                     || (hil_on (ac_status a) && to_standby new)) (ruled a).

Lemma transition_shape a :
  arming_state_transition now k v sf req new chk reason a =
    if bool_decide (new = arming_state (ac_status a)) then (TRANSITION_NOT_CHANGED, a)
    else if ruled_valid a then (TRANSITION_CHANGED, finish_transition now new reason (ruled a))
    else (TRANSITION_DENIED, ruled a).
Proof.
  rewrite transition_unfold. destruct (bool_decide _); [done|].
  unfold ruled_valid, ruled, hil_rules. rewrite (proj1 (checked_frame a)).
  destruct (hil_on (ac_status a)); cbn [fst snd andb]; [done|]. by rewrite orb_false_r.
Qed.

Lemma ruled_same a : same_rest a (ruled a).
Proof.
  eapply same_rest_trans; [apply checked_same|]. unfold ruled, hil_rules.
  destruct (hil_on (ac_status (checked a))) eqn:H; [|apply same_rest_refl]. cbn [snd].
  unfold same_rest. by case_match.
Qed.

Lemma ruled_sensors a :
  system_sensors_initialized (ac_flags a) = true -> system_sensors_initialized (ac_flags (ruled a)) = true.
Proof. intros S. unfold ruled, hil_rules. case_match; [done|]. by apply checked_sensors. Qed.

Lemma ruled_armed a : armed (ac_armed (ruled a)) = armed (ac_armed a).
Proof.
  unfold ruled, hil_rules. case_match; cbn [snd]; by rewrite <- (proj1 (proj2 (checked_frame a))).
Qed.

(** A simulation recovers from an error; otherwise the state stays until the end. *)
Lemma ruled_state a :
  arming_state (ac_status (ruled a)) =
    if hil_on (ac_status a) && bool_decide (arming_state (ac_status a) = ARMING_STATE_STANDBY_ERROR)
    then ARMING_STATE_STANDBY else arming_state (ac_status a).
Proof.
  unfold ruled, hil_rules. rewrite !(proj1 (checked_frame a)).
  destruct (hil_on (ac_status a)); cbn [snd andb]; [|by rewrite (proj1 (checked_frame a))].
  by case_match.
Qed.

(** ** The state after a transition *)

Lemma transition_same a :
  same_rest a (snd (arming_state_transition now k v sf req new chk reason a)).
Proof.
  rewrite transition_shape. destruct (bool_decide _); [apply same_rest_refl|].
  destruct (ruled_valid a); [|apply ruled_same].
  eapply same_rest_trans; [apply ruled_same|]. cbn [snd].
  unfold same_rest, finish_transition. by repeat case_match; cbn; rewrite ?flags_eta.
Qed.

Lemma transition_sensors a :
  system_sensors_initialized (ac_flags a) = true ->
  system_sensors_initialized (ac_flags (snd (arming_state_transition now k v sf req new chk reason a))) = true.
Proof.
  intros S. rewrite transition_shape. destruct (bool_decide _); [done|].
  by destruct (ruled_valid a); apply ruled_sensors.
Qed.

(** The message and the state agree. *)
Definition consistent (s : vehicle_status) (ar : actuator_armed) : Prop :=
  armed ar = bool_decide (arming_state s = ARMING_STATE_ARMED).

Lemma finish_state a : arming_state (ac_status (finish_transition now new reason a)) = new.
Proof. unfold finish_transition. by repeat case_match. Qed.

Lemma finish_armed a : armed (ac_armed (finish_transition now new reason a)) = to_armed new.
Proof. done. Qed.

Lemma transition_consistent a :
  consistent (ac_status a) (ac_armed a) ->
  let a' := snd (arming_state_transition now k v sf req new chk reason a) in consistent (ac_status a') (ac_armed a').
Proof.
  unfold consistent. intros C. rewrite transition_shape. destruct (bool_decide (new = _)) eqn:N; [done|].
  destruct (ruled_valid a); cbn [snd].
  - by rewrite finish_state, finish_armed.
  - rewrite ruled_armed, ruled_state, C. destruct (hil_on (ac_status a)); [|done]. cbn [andb].
    destruct (bool_decide (arming_state _ = ARMING_STATE_STANDBY_ERROR)) eqn:B; [|done].
    apply bool_decide_eq_true in B. by rewrite B.
Qed.

Lemma transition_changed a :
  fst (arming_state_transition now k v sf req new chk reason a) = TRANSITION_CHANGED ->
  arming_state (ac_status (snd (arming_state_transition now k v sf req new chk reason a))) = new.
Proof.
  rewrite transition_shape. destruct (bool_decide _); [done|]. destruct (ruled_valid a); [|done].
  intros _. apply finish_state.
Qed.

Lemma transition_not_changed a :
  new = arming_state (ac_status a) ->
  arming_state_transition now k v sf req new chk reason a = (TRANSITION_NOT_CHANGED, a).
Proof. intros E. unfold arming_state_transition. by rewrite bool_decide_eq_true_2. Qed.

End Transition.

(** ** Arming *)

Lemma preArmCheck_sensors k f v sf r s b :
  preArmCheck k (f <| system_sensors_initialized := b |>) v sf r s = preArmCheck k f v sf r s.
Proof. done. Qed.

Lemma standby_rules_armed b a : standby_rules ARMING_STATE_ARMED b a = b.
Proof. unfold standby_rules. change (to_standby ARMING_STATE_ARMED) with false. by rewrite andb_false_r. Qed.

(** C22 (functional). Arming with checks succeeds exactly in two cases: from standby with the
    prearm check passed and either the preflight check passed or HIL on, that is in a
    hardware-in-the-loop simulation the preflight check may fail; or when the vehicle
    resumes in the air, and then without any check. *)
Theorem arming_needs_checks now k v sf req reason a :
  fst (arming_state_transition now k v sf req ARMING_STATE_ARMED true reason a) = TRANSITION_CHANGED <->
  arming_state (ac_status a) = ARMING_STATE_IN_AIR_RESTORE \/
  (arming_state (ac_status a) = ARMING_STATE_STANDBY /\
   (hil_on (ac_status a) = true \/ preflightCheck k (ac_status a) (ac_flags a) v true = true) /\
   preArmCheck k (ac_flags a) v sf req (ac_status a) = true).
Proof.
  rewrite transition_shape. unfold ruled_valid. rewrite standby_rules_armed.
  unfold transition_valid, preflight_result.
  destruct (checked_frame now k v ARMING_STATE_ARMED true a) as (E1 & _ & E3).
  rewrite E1, E3, preArmCheck_sensors. unfold run_preflight.
  generalize (ruled now k v ARMING_STATE_ARMED true a) as r.
  generalize (finish_transition now ARMING_STATE_ARMED reason) as fin. intros fin r.
  destruct (hil_on (ac_status a)), (preflightCheck k (ac_status a) (ac_flags a) v true),
    (preArmCheck k (ac_flags a) v sf req (ac_status a)), (arming_state (ac_status a));
    vm_compute; intuition congruence.
Qed.

(** Disarming is never refused to a vehicle whose sensors were initialised once. *)
Lemma disarming_never_refused now k v sf req reason a :
  system_sensors_initialized (ac_flags a) = true -> arming_state (ac_status a) = ARMING_STATE_ARMED ->
  fst (arming_state_transition now k v sf req ARMING_STATE_STANDBY false reason a) = TRANSITION_CHANGED.
Proof.
  intros S A. rewrite transition_shape. unfold ruled_valid, standby_rules, transition_valid.
  rewrite (proj1 (checked_frame now k v ARMING_STATE_STANDBY false a)), A.
  rewrite (ruled_sensors now k v ARMING_STATE_STANDBY false a S). cbn [negb]. by rewrite andb_false_r.
Qed.

(** A vehicle that shuts down stays so, outside of a simulation. *)
Lemma shutdown_is_final now k v sf req new chk reason a :
  hil_on (ac_status a) = false -> arming_state (ac_status a) = ARMING_STATE_SHUTDOWN ->
  arming_state (ac_status (snd (arming_state_transition now k v sf req new chk reason a))) = ARMING_STATE_SHUTDOWN.
Proof.
  intros H A. rewrite transition_shape. destruct (bool_decide _) eqn:N; [done|]. apply bool_decide_eq_false in N.
  rewrite A in N. assert (ruled_valid now k v sf req new chk a = false) as ->.
  { unfold ruled_valid, transition_valid. rewrite (proj1 (checked_frame now k v new chk a)), A, H.
    assert (arming_transitions new ARMING_STATE_SHUTDOWN = false) as -> by (by destruct new).
    unfold standby_rules. by case_match. }
  cbn [snd]. rewrite ruled_state, H. done.
Qed.

(** ** The safety button *)

Lemma safety_button_monotone d adv l s :
  safety_off s = true -> safety_off (safetyButtonHandler d adv l s) = true.
Proof.
  intros O. unfold safetyButtonHandler. destruct d; [done|].
  assert (forall s, safety_off s = true ->
    safety_off (fold_left (fun s t => s <| safety_off := safety_off s || t |>) l s) = true) as F.
  { induction l as [|t l IH]; intros s' O'; simpl; [done|]. apply IH. cbn.
    unfold RecordSettersUsingExistingGetters.const. by rewrite O'. }
  apply F. by case_match.
Qed.

End ArmStateSpec.
