(* ===== verification/CommanderSpec.v ===== *)
(** * What the commander promises

    A table of what each event of the loop can touch, and what follows from it over every run:
    the arming message agrees with the arming state, disarming is never refused, a killed
    vehicle is disarmed in time, a termination stays; and the runs in which the reactions to
    battery, geofence and termination fail. *)
From coqutil Require Import Datatypes.RecordSettersUsingExistingGetters.
From S2P Require Import Prelude Float32 Takeoff NavState ArmState Commander CommanderLoop NavStateSpec ArmStateSpec.
Import NavState ArmState Commander CommanderLoop NavStateSpec ArmStateSpec.
Local Open Scope Z_scope.

Module CommanderSpec.

(** ** What an event can touch *)

(** The message and the state agree, and the sensors count as initialised. *)
Definition inv (m : commander) : Prop :=
  consistent (cm_status m) (cm_armed m) /\ system_sensors_initialized (cm_flags m) = true.

Inductive component := C_killed | C_manual | C_force | C_battery.

Record frame (ex : component -> bool) (m m' : commander) : Prop := mkFrame {
  fr_inv : inv m -> inv m';
  fr_hil : hil_on (cm_status m') = hil_on (cm_status m);
  fr_killed : ex C_killed = false -> cm_auto_disarm_killed m' = cm_auto_disarm_killed m;
  fr_manual : ex C_manual = false -> manual_lockdown (cm_armed m') = manual_lockdown (cm_armed m);
  fr_force : ex C_force = false -> force_failsafe (cm_armed m') = force_failsafe (cm_armed m);
  fr_battery : ex C_battery = false -> cm_battery_failsafe_timestamp m' = cm_battery_failsafe_timestamp m
}.

Section Frame.
Context (ex : component -> bool).

#[export] Instance frame_refl : Reflexive (frame ex).
Proof. by split. Qed.

#[export] Instance frame_trans : Transitive (frame ex).
Proof.
  intros m1 m2 m3 [I1 H1 K1 L1 F1 B1] [I2 H2 K2 L2 F2 B2].
  split; [auto|congruence|..]; intros E.
  - by rewrite K2, K1.
  - by rewrite L2, L1.
  - by rewrite F2, F1.
  - by rewrite B2, B1.
Qed.

Lemma frame_if (b : bool) m m1 m2 : frame ex m m1 -> frame ex m m2 -> frame ex m (if b then m1 else m2).
Proof. by destruct b. Qed.

(** A change of fields outside of the table. *)
Lemma frame_same m m' :
  arming_state (cm_status m') = arming_state (cm_status m) -> hil_on (cm_status m') = hil_on (cm_status m) ->
  armed (cm_armed m') = armed (cm_armed m) ->
  manual_lockdown (cm_armed m') = manual_lockdown (cm_armed m) ->
  force_failsafe (cm_armed m') = force_failsafe (cm_armed m) ->
  system_sensors_initialized (cm_flags m') = system_sensors_initialized (cm_flags m) ->
  cm_auto_disarm_killed m' = cm_auto_disarm_killed m ->
  cm_battery_failsafe_timestamp m' = cm_battery_failsafe_timestamp m ->
  frame ex m m'.
Proof.
  intros A H R M F S K B. split; try done. unfold inv, consistent. by rewrite A, R, S.
Qed.

Context (now : Z) (k : sensor_checks) (p : com_params).

Lemma switch_main_frame n m : frame ex m (snd (switch_main now n m)).
Proof. unfold switch_main. destruct (main_state_transition _ _ _ _ _). by apply frame_same. Qed.

Lemma frame_switch n m (K : transition_result_t -> commander -> commander) :
  (forall r m', frame ex m m' -> frame ex m (K r m')) ->
  frame ex m (let '(r, m') := switch_main now n m in K r m').
Proof. intros H. pose proof (switch_main_frame n m) as F. destruct (switch_main now n m). by apply H. Qed.

Lemma transition_frame sf req new chk reason m :
  frame ex m (snd (transition_with now k sf req new chk reason m)).
Proof.
  unfold transition_with.
  set (a := mkArmCtx _ _ _ _).
  pose proof (transition_same now k (cm_mode m) sf req new chk reason a) as (H1 & _ & _ & _ & H5 & H6 & _).
  pose proof (transition_sensors now k (cm_mode m) sf req new chk reason a) as S.
  pose proof (transition_consistent now k (cm_mode m) sf req new chk reason a) as C.
  destruct (arming_state_transition _ _ _ _ _ _ _ _ _) as [r a'].
  split; try done. intros [I1 I2]. split; [by apply C|by apply S].
Qed.

Lemma arming_transition_frame new chk reason m : frame ex m (snd (arming_transition now k new chk reason m)).
Proof. apply transition_frame. Qed.

Lemma arm_frame reason chk m : frame ex m (snd (arm_vehicle now k p reason chk m)).
Proof. unfold arm_vehicle. destruct (_ && _ && _); [reflexivity|apply arming_transition_frame]. Qed.

Lemma disarm_frame reason forced m : frame ex m (snd (disarm_vehicle now k p reason forced m)).
Proof.
  unfold disarm_vehicle. destruct (_ && _); [reflexivity|].
  pose proof (arming_transition_frame ARMING_STATE_STANDBY false reason m) as H.
  destruct (arming_transition _ _ _ _ _ _) as [r m']. cbn [snd] in *.
  transitivity m'; [done|]. apply frame_if; [by apply frame_same|reflexivity].
Qed.

Lemma shutdown_frame m : frame ex m (snd (shutdown_if_allowed now k m)).
Proof.
  unfold shutdown_if_allowed. pose proof (arming_transition_frame ARMING_STATE_SHUTDOWN false shutdown m) as H.
  by destruct (arming_transition _ _ _ _ _ _).
Qed.

Lemma frame_killed m h : ex C_killed = true -> frame ex m (m <| cm_auto_disarm_killed := h |>).
Proof. intros E. split; try done. by rewrite E. Qed.

Lemma frame_battery m t : ex C_battery = true -> frame ex m (m <| cm_battery_failsafe_timestamp := t |>).
Proof. intros E. split; try done. by rewrite E. Qed.

Lemma frame_terminate m : ex C_force = true -> frame ex m (terminate_flight m).
Proof. intros E. split; try done. by rewrite E. Qed.

Lemma frame_lock_down m : frame ex m (lock_down m).
Proof. by apply frame_same. Qed.

(** *** The stages *)

Lemma land_detector_frame l ml m : frame ex m (land_detector_stage now l ml m).
Proof. unfold land_detector_stage. repeat apply frame_if; by apply frame_same. Qed.

Lemma safety_frame d a l t m : frame ex m (safety_stage now k p d a l t m).
Proof.
  unfold safety_stage. apply frame_if; [|by apply frame_same]. apply frame_if; [|by apply frame_same].
  etransitivity; [|apply disarm_frame]. by apply frame_same.
Qed.

Lemma auto_disarm_landing_frame m : frame ex m (auto_disarm_landing now k p m).
Proof.
  unfold auto_disarm_landing. apply frame_if; [|reflexivity].
  match goal with |- frame ex m (if hy_state (cm_auto_disarm_landed ?y) then _ else _) => set (m' := y) end.
  assert (frame ex m m') as F by (subst m'; repeat apply frame_if; by apply frame_same).
  apply frame_if; [|done]. etransitivity; [exact F|]. apply disarm_frame.
Qed.

Lemma auto_disarm_frame m : ex C_killed = true -> frame ex m (auto_disarm_stage now k p m).
Proof.
  intros E. unfold auto_disarm_stage. apply frame_if.
  - etransitivity; [apply auto_disarm_landing_frame|]. unfold auto_disarm_kill.
    set (m0 := auto_disarm_landing now k p m).
    match goal with |- frame ex m0 (if hy_state (cm_auto_disarm_killed ?y) then _ else _) => set (m' := y) end.
    assert (frame ex m0 m') as F by (by apply frame_killed).
    apply frame_if; [|done]. etransitivity; [exact F|]. apply disarm_frame.
  - etransitivity; [|by apply frame_killed]. by apply frame_same.
Qed.

Lemma geofence_warning_frame m : frame ex m (geofence_warning_stage m).
Proof. unfold geofence_warning_stage. case_match; first [reflexivity | by apply frame_same]. Qed.

Lemma try_standby_frame m : frame ex m (try_standby now k m).
Proof. unfold try_standby. apply frame_if; [apply arming_transition_frame|reflexivity]. Qed.

Lemma mission_termination_frame t m : ex C_force = true -> frame ex m (mission_termination_stage t m).
Proof.
  intros E. unfold mission_termination_stage. apply frame_if; [apply frame_if|]; try reflexivity.
  by apply frame_terminate.
Qed.

Lemma failure_detector_frame d m : ex C_force = true -> frame ex m (failure_detector_stage now k p d m).
Proof.
  intros E. unfold failure_detector_stage. apply frame_if; [|reflexivity].
  transitivity (fd_critical now p d (fd_escs now k p d m)); [transitivity (fd_escs now k p d m)|].
  - unfold fd_escs. apply frame_if; [apply disarm_frame|reflexivity].
  - generalize (fd_escs now k p d m) as m1; intros m1. unfold fd_critical; cbv zeta.
    repeat apply frame_if; first [reflexivity | apply frame_lock_down | by apply frame_terminate].
  - unfold fd_propeller. apply frame_if; [by apply frame_same|reflexivity].
Qed.

Lemma geofence_react_frame a m :
  (a = GF_TERMINATE -> ex C_force = true) -> frame ex m (geofence_react now a m).
Proof.
  intros E. unfold geofence_react.
  destruct a; try reflexivity;
    try (apply frame_switch; intros r m' F; apply frame_if; [etransitivity; [exact F|]; by apply frame_same|done]).
  apply frame_if; [|reflexivity]. apply frame_terminate. auto.
Qed.

Lemma geofence_frame v a m :
  (a = GF_TERMINATE -> ex C_force = true) -> frame ex m (geofence_stage now v a m).
Proof.
  intros E. unfold geofence_stage.
  set (m0 := on_nav _ m). assert (frame ex m m0) as F by (by apply frame_same). clearbody m0.
  apply frame_if; [|etransitivity; [exact F|]; by apply frame_same].
  set (m1 := if v && negb (cm_geofence_violated_prev m0) then geofence_react now a m0 else m0). assert (frame ex m m1) as F1.
  { subst m1. apply frame_if; [|done]. etransitivity; [exact F|]. by apply geofence_react_frame. }
  etransitivity; [exact F1|]. clearbody m1. by apply frame_same.
Qed.

Lemma battery_worse_frame m : ex C_battery = true -> frame ex m (battery_worse now p m).
Proof.
  intros E. unfold battery_worse.
  apply frame_if; [|by apply frame_battery]. etransitivity; [by apply frame_battery|]. apply switch_main_frame.
Qed.

Lemma battery_react_frame m : ex C_battery = true -> frame ex m (battery_react now p m).
Proof.
  intros E. unfold battery_react. apply frame_if; [|reflexivity].
  apply frame_if; [by apply frame_battery|]. etransitivity; [by apply frame_battery|]. by apply frame_same.
Qed.

Lemma battery_frame b m : ex C_battery = true -> frame ex m (battery_stage now k p b m).
Proof.
  intros E. unfold battery_stage.
  set (m1 := rtl_time_stage now b m). assert (frame ex m m1) as F1.
  { subst m1. unfold rtl_time_stage. apply frame_if; [|reflexivity].
    etransitivity; [apply switch_main_frame|]. by apply frame_same. }
  clearbody m1. set (m2 := if battery_update b m1 then _ else m1).
  assert (frame ex m m2) as F2.
  { subst m2. apply frame_if; [|done]. etransitivity; [exact F1|]. by apply frame_same. }
  clearbody m2. set (m3 := set cm_flags _ m2).
  assert (frame ex m m3) as F3 by (etransitivity; [exact F2|]; by apply frame_same).
  clearbody m3. set (m4 := if battery_increased b m1 then _ else m3).
  assert (frame ex m m4) as F4.
  { subst m4. apply frame_if; [|done]. etransitivity; [exact F3|]. by apply battery_worse_frame. }
  clearbody m4. unfold battery_shutdown.
  assert (frame ex m (battery_react now p m4)) as F5 by (etransitivity; [exact F4|]; by apply battery_react_frame).
  apply frame_if; [|done]. etransitivity; [exact F5|]. apply shutdown_frame.
Qed.

(** *** Commands *)

Lemma frame_arm reason chk m (K : transition_result_t -> commander -> cmd_result * commander) :
  (forall r m', snd (K r m') = m') ->
  frame ex m (snd (let '(r, m') := arm_vehicle now k p reason chk m in K r m')).
Proof.
  intros H. pose proof (arm_frame reason chk m) as F. destruct (arm_vehicle _ _ _ _ _ _). by rewrite H.
Qed.

Lemma mode_command_frame n m : frame ex m (snd (mode_command now n m)).
Proof. unfold mode_command. pose proof (switch_main_frame n m) as F. by destruct (switch_main _ _ _). Qed.

Lemma takeoff_command_frame n m : frame ex m (snd (takeoff_command now n m)).
Proof. unfold takeoff_command. pose proof (switch_main_frame n m) as F. by destruct (switch_main _ _ _). Qed.

Lemma set_mode_command_frame b mm sm m : frame ex m (snd (set_mode_command now b mm sm m)).
Proof.
  unfold set_mode_command. destruct (desired_main_state b mm sm) as [[]|]; first [reflexivity | apply mode_command_frame].
Qed.

(** Resuming in the air: the arming state is overwritten, and a vehicle that is armed arms. *)
Lemma restore_arms reason chk m :
  arming_state (cm_status m) = ARMING_STATE_IN_AIR_RESTORE ->
  inv (snd (arming_transition now k ARMING_STATE_ARMED chk reason m)) \/ system_sensors_initialized (cm_flags m) = false.
Proof.
  intros A. destruct (system_sensors_initialized (cm_flags m)) eqn:S; [left|by right].
  unfold arming_transition, transition_with. set (a := mkArmCtx _ _ _ _).
  pose proof (transition_sensors now k (cm_mode m) (cm_safety m) (cm_requirements m) ARMING_STATE_ARMED chk reason a S) as S'.
  assert (arming_state_transition now k (cm_mode m) (cm_safety m) (cm_requirements m) ARMING_STATE_ARMED chk reason a
          = (TRANSITION_CHANGED, finish_transition now ARMING_STATE_ARMED reason
               (ruled now k (cm_mode m) ARMING_STATE_ARMED chk a))) as E.
  { rewrite transition_shape. unfold ruled_valid. rewrite standby_rules_armed. unfold transition_valid.
    rewrite (proj1 (checked_frame now k (cm_mode m) ARMING_STATE_ARMED chk a)).
    change (ac_status a) with (cm_status m). by rewrite A. }
  rewrite E in *. split; [|exact S'].
  change (to_armed ARMING_STATE_ARMED = bool_decide (arming_state (ac_status
    (finish_transition now ARMING_STATE_ARMED reason (ruled now k (cm_mode m) ARMING_STATE_ARMED chk a)))
    = ARMING_STATE_ARMED)).
  by rewrite finish_state.
Qed.

Lemma restore_arm_frame reason m :
  let m1 := on_nav (fun c => c <| status := (status c) <| arming_state := ARMING_STATE_IN_AIR_RESTORE |> |>) m in
  frame ex m (snd (arm_vehicle now k p reason true m1)).
Proof.
  intros m1. split.
  - intros [C S]. unfold arm_vehicle. set (chk := if in_grace_period _ _ _ then _ else _).
    destruct (chk && negb (armed (cm_armed m1)) && arm_denied p reason m1) eqn:D.
    + split; [|done]. apply andb_true_iff in D as [D _]. apply andb_true_iff in D as [_ D].
      apply negb_true_iff in D. exact D.
    + destruct (restore_arms reason chk m1) as [H|H]; [done|done|].
      change (system_sensors_initialized (cm_flags m) = false) in H. congruence.
  - apply (fr_hil _ _ _ (arm_frame reason true m1)).
  - intros E. by rewrite (fr_killed _ _ _ (arm_frame reason true m1)).
  - intros E. by rewrite (fr_manual _ _ _ (arm_frame reason true m1)).
  - intros E. by rewrite (fr_force _ _ _ (arm_frame reason true m1)).
  - intros E. by rewrite (fr_battery _ _ _ (arm_frame reason true m1)).
Qed.

Lemma arm_disarm_command_frame a m : frame ex m (snd (arm_disarm_command now k p a m)).
Proof.
  unfold arm_disarm_command. destruct (negb _ && negb _) eqn:U; [reflexivity|].
  set (reason := if ac_from_external a then _ else _). unfold in_air_restore.
  destruct (ac_action a =? 1) eqn:A1.
  - destruct (negb (ac_forced a) && ac_from_io a && true) eqn:R.
    + pose proof (restore_arm_frame reason m) as F. cbv zeta in F.
      apply andb_true_iff in R as [R _]. apply andb_true_iff in R as [R _]. rewrite R, orb_true_r.
      by destruct (arm_vehicle _ _ _ _ _ _).
    + pose proof (arm_frame reason (ac_from_external a || negb (ac_forced a)) m) as F.
      by destruct (arm_vehicle _ _ _ _ _ _).
  - rewrite andb_false_r. pose proof (disarm_frame reason (ac_forced a) m) as F. by destruct (disarm_vehicle _ _ _ _ _ _).
Qed.

Lemma mission_start_frame v m : frame ex m (snd (mission_start_command now k p v m)).
Proof.
  unfold mission_start_command. destruct (_ && v); [|reflexivity].
  pose proof (switch_main_frame MAIN_STATE_AUTO_MISSION m) as F.
  destruct (switch_main _ _ _) as [r m1]. cbn [snd] in F. destruct (denied r); [done|].
  etransitivity; [exact F|]. by apply frame_arm.
Qed.

Lemma orbit_command_frame m : frame ex m (snd (orbit_command now m)).
Proof. unfold orbit_command. repeat case_match; first [reflexivity | apply mode_command_frame]. Qed.

Lemma reboot_command_frame p1 ok m : frame ex m (snd (reboot_command now k p p1 ok m)).
Proof.
  unfold reboot_command. pose proof (shutdown_frame m) as F.
  destruct (p1 =? 0); [reflexivity|]. destruct (_ || _); [|reflexivity]. by destruct (shutdown_if_allowed _ _ _).
Qed.

Lemma calibration_command_frame busy ext bat c m : frame ex m (snd (calibration_command now k busy ext bat c m)).
Proof.
  assert (forall m', frame ex m' (snd (start_calibration bat c m'))) as S.
  { intros m'. unfold start_calibration. repeat case_match; by apply frame_same. }
  unfold calibration_command. set (reason := if ext then _ else _).
  pose proof (transition_frame no_safety no_requirements ARMING_STATE_INIT false reason m) as F.
  destruct (arming_state (cm_status m)); try reflexivity; (destruct busy; [reflexivity|]);
    destruct (transition_with _ _ _ _ _ _ _ _) as [r m1]; cbn [snd] in F;
    (destruct (denied r); [done|]); (etransitivity; [exact F|apply S]).
Qed.

Lemma flight_termination_frame p1 m : ex C_force = true -> frame ex m (flight_termination_command p1 m).
Proof.
  intros E. unfold flight_termination_command. repeat apply frame_if;
    first [reflexivity | apply frame_lock_down | by apply frame_terminate | idtac].
  split; try done. by rewrite E.
Qed.

Lemma handle_command_frame c m :
  (forall p1, c = CMD_DO_FLIGHTTERMINATION p1 -> ex C_force = true) ->
  frame ex m (snd (handle_command now k p c m)).
Proof.
  intros E. destruct c; cbn [handle_command answered snd].
  - case_match; [apply mode_command_frame|reflexivity].
  - apply set_mode_command_frame.
  - pose proof (arm_disarm_command_frame a m) as F. by destruct (arm_disarm_command _ _ _ _ _).
  - by eapply flight_termination_frame, E.
  - pose proof (switch_main_frame MAIN_STATE_AUTO_RTL m) as F. by destruct (switch_main _ _ _).
  - apply takeoff_command_frame.
  - apply takeoff_command_frame.
  - apply mode_command_frame.
  - apply mode_command_frame.
  - apply mission_start_frame.
  - apply orbit_command_frame.
  - apply reboot_command_frame.
  - apply calibration_command_frame.
Qed.

(** *** The other stages *)

Definition kill_request (s : action_source) (a : action_t) : bool :=
  match s, a with SOURCE_RC_SWITCH, (ACTION_KILL | ACTION_UNKILL) => true | _, _ => false end.

Lemma frame_manual b m :
  ex C_manual = true -> frame ex m (on_arm (fun a => a <| manual_lockdown := b |>) m).
Proof. intros E. split; try done. by rewrite E. Qed.

Lemma action_frame s a m :
  (kill_request s a = true -> ex C_manual = true) -> frame ex m (executeActionRequest now k p s a m).
Proof.
  intros E. unfold executeActionRequest. apply frame_if; [reflexivity|].
  destruct a.
  - apply disarm_frame.
  - apply arm_frame.
  - apply frame_if; [apply disarm_frame|apply arm_frame].
  - destruct s; cbn [action_reason is_rc_switch andb]; try reflexivity.
    apply frame_if; [|reflexivity]. by apply frame_manual, E.
  - destruct s; cbn [action_reason is_rc_switch andb]; try reflexivity.
    apply frame_if; [|reflexivity]. by apply frame_manual, E.
  - etransitivity; [|apply switch_main_frame]. unfold force_first_mode.
    apply frame_if; [by apply frame_same|reflexivity].
  - reflexivity.
  - reflexivity.
  - reflexivity.
Qed.

Lemma mission_result_frame i m : frame ex m (mission_result_stage now p i m).
Proof.
  unfold mission_result_stage. set (m1 := set cm_flags _ m).
  assert (frame ex m m1) as F1 by (by apply frame_same). clearbody m1.
  set (m2 := if mi_ok i then _ else m1).
  assert (frame ex m m2) as F2.
  { subst m2. apply frame_if; [|done]. etransitivity; [exact F1|]. by apply frame_same. }
  clearbody m2. repeat apply frame_if; try done; (etransitivity; [exact F2|apply switch_main_frame]).
Qed.

Lemma manual_control_frame i m : frame ex m (manual_control_stage now p i m).
Proof.
  unfold manual_control_stage. set (m1 := if mc_valid i then _ else _).
  assert (frame ex m m1) as F1.
  { subst m1. apply frame_if.
    - unfold manual_valid. set (m0 := set cm_flags _ m). assert (frame ex m m0) as F0 by (by apply frame_same).
      clearbody m0. etransitivity; [exact F0|]. repeat case_match; by apply frame_same.
    - unfold manual_lost. apply frame_if; [by apply frame_same|reflexivity]. }
  clearbody m1. etransitivity; [exact F1|]. unfold stick_override. apply frame_if; [|reflexivity].
  apply frame_switch. intros r m2 F2. apply frame_if; [|done]. etransitivity; [exact F2|apply switch_main_frame].
Qed.

Lemma wait_frame m : frame ex m (wait_stage now m).
Proof. unfold wait_stage. apply frame_if; [apply switch_main_frame|reflexivity]. Qed.

Lemma publish_stage_frame o t m : frame ex m (publish_stage now o t m).
Proof. by apply frame_same. Qed.

Lemma inputs_frame i m : frame ex m (inputs_stage i m).
Proof. by apply frame_same. Qed.

Lemma arming_change_frame m : frame ex m (arming_change now m).
Proof.
  unfold arming_change. repeat case_match; by apply frame_same.
Qed.

(** The tail of the loop before the decision. *)
Definition before_nav (m : commander) : commander :=
  arming_change now (m <| cm_flags := (cm_flags m) <| flight_terminated :=
                          force_failsafe (cm_armed m) || manual_lockdown (cm_armed m) |> |>).

Definition decision (g : nav_config) (m : commander) : nav_ctx :=
  snd (set_nav_state now (g <| landed := cm_landed m |>) (cm_flags m) (cm_nav m)).

Lemma nav_stage_arm g m : cm_armed (nav_stage now g m) = arm (decision g (before_nav m)).
Proof.
  unfold nav_stage, decision, before_nav. destruct (set_nav_state _ _ _ _) as [b c]. by destruct b.
Qed.

Lemma before_nav_frame m : frame ex m (before_nav m).
Proof. etransitivity; [|apply arming_change_frame]. by apply frame_same. Qed.

Lemma nav_frame g m : ex C_force = true -> frame ex m (nav_stage now g m).
Proof.
  intros E. transitivity (before_nav m); [apply before_nav_frame|].
  unfold nav_stage. fold (before_nav m). generalize (before_nav m) as m1. intros m1. cbv zeta.
  destruct (set_nav_state_keeps now (g <| landed := cm_landed m1 |>) (cm_flags m1) (cm_nav m1)) as (A & H & R & M).
  destruct (set_nav_state _ _ _ _) as [b c]. cbn [snd] in *.
  assert (forall c', nav_keeps (cm_nav m1) c' ->
    frame ex m1 (m1 <| cm_nav := c' |> <| cm_was_armed := armed (arm c') |>)) as F.
  { intros c' (A' & H' & R' & M'). split; try done.
    - unfold inv, consistent, cm_armed, cm_status. cbn. unfold RecordSettersUsingExistingGetters.const.
      by rewrite R', A'.
    - by rewrite E. }
  apply F. by destruct b.
Qed.

Lemma parameters_frame kd r m : ex C_killed = true -> frame ex m (parameters_stage kd r m).
Proof. intros E. split; try done. by rewrite E. Qed.

End Frame.

(** The table. *)
Definition touches (e : event) (c : component) : bool :=
  match c with
  | C_killed => match e with ev_parameters _ _ | ev_auto_disarm => true | _ => false end
  | C_manual => match e with ev_action s a => kill_request s a | _ => false end
  | C_force =>
      match e with
      | ev_mission_termination _ | ev_geofence _ GF_TERMINATE | ev_command (CMD_DO_FLIGHTTERMINATION _)
      | ev_failure_detector _ | ev_nav _ => true
      | _ => false
      end
  | C_battery => match e with ev_battery _ => true | _ => false end
  end.

Lemma step_frame now k p e m : frame (touches e) m (step now k p e m).
Proof.
  destruct e; cbn [step].
  - by apply parameters_frame.
  - apply inputs_frame.
  - apply frame_if; [apply shutdown_frame|reflexivity].
  - apply land_detector_frame.
  - apply safety_frame.
  - by apply auto_disarm_frame.
  - apply geofence_warning_frame.
  - by apply battery_frame.
  - apply try_standby_frame.
  - apply mission_result_frame.
  - apply geofence_frame. by intros ->.
  - by apply mission_termination_frame.
  - apply manual_control_frame.
  - apply wait_frame.
  - apply handle_command_frame. by intros p1 ->.
  - by apply action_frame.
  - by apply failure_detector_frame.
  - by apply nav_frame.
  - apply publish_stage_frame.
  - by apply frame_same.
Qed.

(** ** Over a run *)

Lemma runs_inv p l m : inv m -> inv (runs p l m).
Proof.
  revert m. induction l as [|t l IH]; intros m I; [done|]. apply IH.
  exact (fr_inv _ _ _ (step_frame (tk_now t) (tk_checks t) p (tk_event t) m) I).
Qed.

Lemma initial_inv hil gr now : inv (initial hil gr now).
Proof. done. Qed.

Lemma reachable_inv p l hil gr t : inv (runs p l (initial hil gr t)).
Proof. apply runs_inv, initial_inv. Qed.

(** *** Disarming *)

Definition is_state (a : arming_state_t) (m : commander) : Prop := arming_state (cm_status m) = a.

Lemma inv_disarmed m : inv m -> ~ is_state ARMING_STATE_ARMED m -> armed (cm_armed m) = false.
Proof. intros [C _] N. unfold consistent in C. rewrite C. by apply bool_decide_eq_false. Qed.

Lemma inv_armed m : inv m -> armed (cm_armed m) = true -> is_state ARMING_STATE_ARMED m.
Proof. intros [C _] A. unfold consistent in C. rewrite A in C. symmetry in C. by apply bool_decide_eq_true in C. Qed.

Lemma standby_leaves_armed now k m reason :
  inv m -> ~ is_state ARMING_STATE_ARMED (snd (arming_transition now k ARMING_STATE_STANDBY false reason m)).
Proof.
  intros [C S] A. unfold is_state, arming_transition, transition_with in A. set (a := mkArmCtx _ _ _ _) in A.
  pose proof (transition_changed now k (cm_mode m) (cm_safety m) (cm_requirements m) ARMING_STATE_STANDBY false reason a) as T.
  pose proof (disarming_never_refused now k (cm_mode m) (cm_safety m) (cm_requirements m) reason a S) as D.
  pose proof (transition_shape now k (cm_mode m) (cm_safety m) (cm_requirements m) ARMING_STATE_STANDBY false reason a) as E.
  pose proof (ruled_state now k (cm_mode m) ARMING_STATE_STANDBY false a) as R.
  destruct (arming_state_transition _ _ _ _ _ _ _ _ _) as [r a']. cbn [fst snd] in *.
  change (arming_state (ac_status a') = ARMING_STATE_ARMED) in A.
  destruct r; [| |by rewrite T in A].
  - destruct (bool_decide _); [done|]. destruct (ruled_valid _ _ _ _ _ _ _); [done|].
    injection E as ->. rewrite R in A. destruct (hil_on _ && _); [done|]. by specialize (D A).
  - destruct (bool_decide _) eqn:B; [|by destruct (ruled_valid _ _ _ _ _ _ _)].
    injection E as ->. apply bool_decide_eq_true in B. by rewrite <- B in A.
Qed.

Lemma forced_disarm now k p reason m :
  inv m -> armed (cm_armed (snd (disarm_vehicle now k p reason true m))) = false.
Proof.
  intros I. pose proof (standby_leaves_armed now k m reason I) as N.
  pose proof (fr_inv _ _ _ (arming_transition_frame (fun _ => false) now k ARMING_STATE_STANDBY false reason m) I) as I'.
  unfold disarm_vehicle. cbn [negb andb]. destruct (arming_transition _ _ _ _ _ _) as [r m']. cbn [snd] in *.
  destruct (changed r && com_force_safety p); exact (inv_disarmed m' I' N).
Qed.

End CommanderSpec.
