(* ===== verification/CommanderClaims.v ===== *)
(** * Safety of the commander over whole runs

    Properties of every run of the loop: arming message and state agree and a forced disarm
    works, a killed vehicle is disarmed in time, a termination stays, the control mode is a
    hierarchy; and the runs in which a reaction does not come: a battery warning in manual
    flight blinds the geofence, a zero battery delay disables the action, a rejected in-air
    restore lets the vehicle arm without checks. *)
From coqutil Require Import Datatypes.RecordSettersUsingExistingGetters.
From S2P Require Import Prelude Float32 Takeoff NavState ArmState Commander CommanderLoop NavStateSpec ArmStateSpec CommanderSpec.
Import NavState ArmState Commander CommanderLoop NavStateSpec ArmStateSpec CommanderSpec.
Local Open Scope Z_scope.

Module CommanderClaims.

(** ** Arming *)

(** C5 (invariant). After every run of the loop the published arming flag is on exactly in the arming state
    ARMED, the sensors count as initialised, and a forced disarm (kill switch, lockdown,
    command) leaves the vehicle disarmed whatever the sensor checks say. *)
Theorem commander_can_always_disarm p l hil gr t now k reason
    (m := runs p l (initial hil gr t)) :
  armed (cm_armed m) = bool_decide (arming_state (cm_status m) = ARMING_STATE_ARMED) /\
  system_sensors_initialized (cm_flags m) = true /\
  armed (cm_armed (snd (disarm_vehicle now k p reason true m))) = false.
Proof.
  pose proof (reachable_inv p l hil gr t) as I. fold m in I. split_and!; [apply I|apply I|by apply forced_disarm].
Qed.

(** ** The kill switch *)

Section Kill.
Context (p : com_params) (t0 : Z) (tt T : Z).

(** The hysteresis has been waiting since [t0]. *)
Definition waiting : Hysteresis := mkHysteresis t0 tt T false true.

Definition killed (m : commander) : Prop :=
  inv m /\ manual_lockdown (cm_armed m) = true /\ cm_auto_disarm_killed m = waiting.

Lemma waiting_update now :
  set_state_and_update true now waiting = if T <=? u64 (now - t0) then hy_with_state true waiting else waiting.
Proof. done. Qed.

(** The stage while killed: disarmed, or still waiting. *)
Lemma auto_disarm_kill_killed now k m :
  killed m ->
  armed (cm_armed (auto_disarm_kill now k p m)) = false \/
  (killed (auto_disarm_kill now k p m) /\ u64 (now - t0) < T).
Proof.
  intros (I & M & W). unfold auto_disarm_kill, to_be_disarmed. rewrite M, W, waiting_update. cbn [orb].
  destruct (T <=? u64 (now - t0)) eqn:E.
  - left. set (m' := set cm_auto_disarm_killed _ m). assert (inv m') as I' by (exact I).
    change (hy_state (cm_auto_disarm_killed m')) with true. by apply forced_disarm.
  - right. apply Z.leb_gt in E. split; [|done]. by split_and!.
Qed.

(** The first stage that sees the switch starts the wait. *)
Lemma auto_disarm_kill_start k m last :
  manual_lockdown (cm_armed m) = true -> cm_auto_disarm_killed m = mkHysteresis last tt T false false ->
  auto_disarm_kill t0 k p m = auto_disarm_kill t0 k p (m <| cm_auto_disarm_killed := waiting |>).
Proof.
  intros M W. unfold auto_disarm_kill, to_be_disarmed.
  change (manual_lockdown (cm_armed (m <| cm_auto_disarm_killed := waiting |>))) with (manual_lockdown (cm_armed m)).
  change (cm_auto_disarm_killed (m <| cm_auto_disarm_killed := waiting |>)) with waiting.
  rewrite M, W. reflexivity.
Qed.

Lemma auto_disarm_killed now k m :
  armed (cm_armed m) = true -> killed m ->
  armed (cm_armed (auto_disarm_stage now k p m)) = false \/
  (killed (auto_disarm_stage now k p m) /\ u64 (now - t0) < T).
Proof.
  intros A (I & M & W). unfold auto_disarm_stage. rewrite A.
  pose proof (auto_disarm_landing_frame (fun _ => false) now k p m) as F.
  apply auto_disarm_kill_killed. split_and!.
  - by apply F.
  - by rewrite (fr_manual _ _ _ F).
  - by rewrite (fr_killed _ _ _ F).
Qed.

(** Nothing in between releases the kill switch or changes the delay. *)
Definition stays_killed (t : tick) : Prop :=
  match tk_event t with
  | ev_parameters _ _ => False
  | ev_action s a => kill_request s a = false
  | _ => True
  end.

Lemma tick_killed m t :
  stays_killed t -> armed (cm_armed m) = true -> killed m ->
  armed (cm_armed (do_tick p m t)) = false \/ killed (do_tick p m t).
Proof.
  intros S A K. destruct t as [now k e]. unfold do_tick. cbn [tk_now tk_checks tk_event] in *.
  destruct (decide (touches e C_killed = true)) as [E|E].
  - destruct e; try done. destruct (auto_disarm_killed now k m A K) as [?|[? _]]; [by left|by right].
  - right. apply not_true_is_false in E. pose proof (step_frame now k p e m) as F. destruct K as (I & M & W).
    split_and!; [by apply F| |by rewrite (fr_killed _ _ _ F)].
    rewrite (fr_manual _ _ _ F); [done|]. by destruct e.
Qed.

(** At some point of the run the vehicle is disarmed. *)
Definition gets_disarmed (l : list tick) (m : commander) : Prop :=
  exists l1 l2, l = l1 ++ l2 /\ armed (cm_armed (runs p l1 m)) = false.

Lemma gets_disarmed_now l m : armed (cm_armed m) = false -> gets_disarmed l m.
Proof. intros A. by exists [], l. Qed.

Lemma gets_disarmed_cons t l m : gets_disarmed l (do_tick p m t) -> gets_disarmed (t :: l) m.
Proof. intros (l1 & l2 & -> & A). by exists (t :: l1), l2. Qed.

Lemma killed_run l m t1 k1 :
  Forall stays_killed l -> killed m -> T <= u64 (t1 - t0) ->
  gets_disarmed (l ++ [mkTick t1 k1 ev_auto_disarm]) m.
Proof.
  intros S. revert m. induction S as [|t l St S IH]; intros m K L;
    (destruct (armed (cm_armed m)) eqn:A; [|by apply gets_disarmed_now]).
  - apply gets_disarmed_cons, gets_disarmed_now.
    destruct (auto_disarm_killed t1 k1 m A K) as [|[_ ?]]; [done|lia].
  - apply gets_disarmed_cons. destruct (tick_killed m t St A K) as [A'|K']; [by apply gets_disarmed_now|by apply IH].
Qed.

End Kill.

Lemma killed_gets_disarmed p m l t0 k0 t1 k1 :
  inv m -> manual_lockdown (cm_armed m) = true ->
  hy_state (cm_auto_disarm_killed m) = false -> hy_requested_state (cm_auto_disarm_killed m) = false ->
  Forall stays_killed l ->
  hy_time_from_false_us (cm_auto_disarm_killed m) <= u64 (t1 - t0) ->
  gets_disarmed p (mkTick t0 k0 ev_auto_disarm :: l ++ [mkTick t1 k1 ev_auto_disarm]) m.
Proof.
  intros I M H R S L.
  destruct (armed (cm_armed m)) eqn:A; [|by apply gets_disarmed_now]. apply gets_disarmed_cons.
  change (do_tick p m (mkTick t0 k0 ev_auto_disarm)) with (auto_disarm_stage t0 k0 p m).
  pose proof (auto_disarm_landing_frame (fun _ => false) t0 k0 p m) as F.
  unfold auto_disarm_stage. rewrite A.
  assert (Hm : inv (auto_disarm_landing t0 k0 p m)) by (by apply F).
  assert (Hl : manual_lockdown (cm_armed (auto_disarm_landing t0 k0 p m)) = true) by (by rewrite (fr_manual _ _ _ F)).
  assert (Hk : cm_auto_disarm_killed (auto_disarm_landing t0 k0 p m) = cm_auto_disarm_killed m)
    by (by rewrite (fr_killed _ _ _ F)).
  destruct (cm_auto_disarm_killed m) as [last tt T st rq] eqn:Ek. cbn in H, R, L. subst st rq.
  rewrite (auto_disarm_kill_start p t0 tt T k0 _ last Hl Hk).
  destruct (auto_disarm_kill_killed p t0 tt T t0 k0
    ((auto_disarm_landing t0 k0 p m) <| cm_auto_disarm_killed := waiting t0 tt T |>)) as [D|[K _]].
  - by split_and!.
  - by apply gets_disarmed_now.
  - by apply (killed_run p t0 tt T).
Qed.

(** A vehicle whose kill switch is engaged is disarmed: from the first pass of the auto disarm
    stage that sees the switch, whatever events follow (other than releasing the switch or
    changing the parameters), the first pass after the delay COM_KILL_DISARM finds or leaves
    the vehicle disarmed. *)
Theorem killed_vehicle_is_disarmed p l0 hil gr tb l t0 k0 t1 k1
    (m := runs p l0 (initial hil gr tb)) :
  manual_lockdown (cm_armed m) = true ->
  hy_state (cm_auto_disarm_killed m) = false -> hy_requested_state (cm_auto_disarm_killed m) = false ->
  Forall stays_killed l ->
  hy_time_from_false_us (cm_auto_disarm_killed m) <= u64 (t1 - t0) ->
  gets_disarmed p (mkTick t0 k0 ev_auto_disarm :: l ++ [mkTick t1 k1 ev_auto_disarm]) m.
Proof. apply killed_gets_disarmed, reachable_inv. Qed.

(** ** Termination *)

Definition forced (m : commander) : Prop := force_failsafe (cm_armed m) = true.

(** The events that may lift a termination. *)
Definition keeps_termination (e : event) : bool :=
  match e with
  | ev_nav g => negb (terminating g)
  | ev_command (CMD_DO_FLIGHTTERMINATION p1) => fgt p1 (flit 1 2)
  | _ => true
  end.

Lemma failure_detector_forced now k p d m : forced m -> forced (failure_detector_stage now k p d m).
Proof.
  intros F. unfold failure_detector_stage. destruct (armed (cm_armed m)); [|done].
  assert (forced (fd_escs now k p d m)) as F1.
  { unfold fd_escs. case_match; [|done]. unfold forced.
    by rewrite (fr_force _ _ _ (disarm_frame (fun _ => false) now k p failure_detector false m)). }
  generalize dependent (fd_escs now k p d m). intros m1 F1.
  assert (forced (fd_critical now p d m1)) as F2 by (unfold fd_critical; by repeat case_match).
  generalize dependent (fd_critical now p d m1). intros m2 F2. unfold fd_propeller. by case_match.
Qed.

Lemma step_forced now k p e m : keeps_termination e = true -> forced m -> forced (step now k p e m).
Proof.
  intros K F. destruct (touches e C_force) eqn:T.
  2: { unfold forced. by rewrite (fr_force _ _ _ (step_frame now k p e m) T). }
  destruct e; try done; cbn [step].
  - destruct a; try done. unfold geofence_stage.
    set (m0 := on_nav _ m). assert (forced m0) as F0 by done. clearbody m0.
    destruct (_ && _ && _); [|done]. set (m1 := if _ && negb (cm_geofence_violated_prev m0) then _ else m0).
    assert (forced m1) as F1 by (subst m1; case_match; [|done]; unfold geofence_react; by case_match).
    clearbody m1. exact F1.
  - unfold mission_termination_stage. by repeat case_match.
  - destruct c; try done. cbn [handle_command snd]. unfold flight_termination_command. cbn in K. rewrite K.
    by repeat case_match.
  - by apply failure_detector_forced.
  - unfold forced. rewrite nav_stage_arm. unfold decision. apply termination_kept.
    + by apply negb_true_iff in K.
    + exact (eq_trans (fr_force _ _ _ (before_nav_frame (fun _ => false) now m) eq_refl) F).
Qed.

(** C23 (safety). Termination stays: once the outputs are forced to their failsafe values, no event of the
    loop releases them, as long as no link loss action is to terminate and no command lifts
    the termination. *)
Theorem termination_stays p l m :
  force_failsafe (cm_armed m) = true ->
  Forall (fun t => keeps_termination (tk_event t) = true) l ->
  force_failsafe (cm_armed (runs p l m)) = true.
Proof.
  intros F H. revert m F. induction H as [|t l K H IH]; intros m F; [done|]. apply IH. by apply step_forced.
Qed.

(** ** Battery and geofence *)

Lemma warning_only_no_action p m : com_low_bat_act p = LB_WARNING -> battery_action p m = MAIN_STATE_MAX.
Proof. intros E. unfold battery_action. rewrite E. by destruct (cm_battery_warning m). Qed.

(** The pilot flies: neither hold nor an automatic mode. *)
Definition flown_by_hand (m : commander) : Prop :=
  cm_main m <> MAIN_STATE_AUTO_LOITER /\ flag_control_auto_enabled (cm_mode m) = false.

Lemma battery_react_by_hand now p m : flown_by_hand m -> battery_react now p m = m.
Proof. intros [N A]. unfold battery_react. rewrite A, bool_decide_eq_false_2 by done. by rewrite andb_false_r. Qed.

(** The state of the stage before the reaction, in three steps. *)
Definition battery_noted (b : battery_in) (m : commander) : commander :=
  let m1 := if battery_update b m then m <| cm_battery_warning := worst_warning b |> else m in
  m1 <| cm_flags := (cm_flags m1) <| battery_healthy := batteries_ok b && (warning_code (cm_battery_warning m1) =? 0) |> |>.

Lemma battery_stage_unfold now k p b m :
  rtl_time_short b = false ->
  battery_stage now k p b m =
    battery_shutdown now k p (battery_update b m)
      (battery_react now p (if battery_increased b m then battery_worse now p (battery_noted b m) else battery_noted b m)).
Proof. intros R. unfold battery_stage, rtl_time_stage. rewrite R. done. Qed.

Lemma battery_noted_by_hand b m : flown_by_hand m -> flown_by_hand (battery_noted b m).
Proof. unfold battery_noted, flown_by_hand, cm_main. by case_match. Qed.

Lemma shutdown_timestamp now k p u m :
  cm_battery_failsafe_timestamp (battery_shutdown now k p u m) = cm_battery_failsafe_timestamp m.
Proof.
  unfold battery_shutdown. case_match; [|done].
  by rewrite (fr_battery _ _ _ (shutdown_frame (fun _ => false) now k m)).
Qed.

Lemma battery_worse_warning_only now p m :
  com_low_bat_act p = LB_WARNING -> battery_worse now p m = m <| cm_battery_failsafe_timestamp := now |>.
Proof. intros W. unfold battery_worse. rewrite (warning_only_no_action _ _ W). by rewrite andb_false_r. Qed.

Lemma battery_stage_by_hand now k p b m :
  rtl_time_short b = false -> com_low_bat_act p = LB_WARNING -> flown_by_hand m ->
  cm_battery_failsafe_timestamp (battery_stage now k p b m) =
    if battery_increased b m then now else cm_battery_failsafe_timestamp m.
Proof.
  intros R W H. rewrite (battery_stage_unfold _ _ _ _ _ R), shutdown_timestamp.
  pose proof (battery_noted_by_hand b m H) as H1.
  assert (cm_battery_failsafe_timestamp (battery_noted b m) = cm_battery_failsafe_timestamp m) as E
    by (unfold battery_noted; by case_match).
  generalize dependent (battery_noted b m). intros m1 H1 E.
  destruct (battery_increased b m); [|by rewrite battery_react_by_hand].
  rewrite (battery_worse_warning_only _ _ _ W). by rewrite battery_react_by_hand.
Qed.

(** Every battery report of the run comes while the pilot flies and the time to return is
    not the issue. *)
Fixpoint by_hand_run (p : com_params) (m : commander) (l : list tick) : Prop :=
  match l with
  | [] => True
  | t :: l => match tk_event t with
              | ev_battery b => flown_by_hand m /\ rtl_time_short b = false /\ tk_now t <> 0
              | _ => True
              end /\ by_hand_run p (do_tick p m t) l
  end.

Lemma delay_never_ends p l m :
  com_low_bat_act p = LB_WARNING -> by_hand_run p m l -> cm_battery_failsafe_timestamp m <> 0 ->
  cm_battery_failsafe_timestamp (runs p l m) <> 0.
Proof.
  intros W. revert m. induction l as [|t l IH]; intros m B N; [done|]. destruct B as [Ht H]. apply IH; [done|].
  destruct t as [now k e]. unfold do_tick. cbn [tk_now tk_checks tk_event] in *.
  destruct (touches e C_battery) eqn:T; [|by rewrite (fr_battery _ _ _ (step_frame now k p e m) T)].
  destruct e; try done. destruct Ht as (Hh & R & Hn). cbn [step].
  rewrite battery_stage_by_hand by done. by case_match.
Qed.

(** The stage with a delay running: nothing but flags. *)
Lemma geofence_blind now v a m :
  cm_battery_failsafe_timestamp m <> 0 ->
  cm_main (geofence_stage now v a m) = cm_main m /\ cm_armed (geofence_stage now v a m) = cm_armed m.
Proof.
  intros N. unfold geofence_stage. cbn -[geofence_react]. apply Z.eqb_neq in N.
  by rewrite N, andb_false_r.
Qed.

(** With the default COM_LOW_BAT_ACT (warning only), a battery warning that gets worse in
    manual flight starts a delay that never ends while the pilot flies: from then on the
    geofence stage changes neither the mode nor the outputs, whatever its action is and
    however far the vehicle is outside. *)
Theorem battery_warning_blinds_geofence p m t k b l now v a
    (m1 := battery_stage t k p b m) :
  com_low_bat_act p = LB_WARNING -> t <> 0 ->
  flown_by_hand m -> rtl_time_short b = false -> battery_increased b m = true ->
  by_hand_run p m1 l ->
  cm_main (geofence_stage now v a (runs p l m1)) = cm_main (runs p l m1) /\
  cm_armed (geofence_stage now v a (runs p l m1)) = cm_armed (runs p l m1).
Proof.
  intros W T H R I B. apply geofence_blind, delay_never_ends; [done|done|]. subst m1.
  rewrite battery_stage_by_hand by done. by rewrite I.
Qed.

(** With COM_BAT_ACT_T = 0 a battery report in manual flight never changes the mode, whatever
    the level and the configured action. *)
Theorem zero_battery_delay_never_acts now k p b m :
  com_bat_act_t p = f0 -> rtl_time_short b = false -> flown_by_hand m ->
  cm_main (battery_stage now k p b m) = cm_main m.
Proof.
  intros Z R H. rewrite (battery_stage_unfold _ _ _ _ _ R).
  assert (forall u m, cm_main (battery_shutdown now k p u m) = cm_main m) as S.
  { intros u m'. unfold battery_shutdown. case_match; [|done]. unfold shutdown_if_allowed, arming_transition, transition_with.
    by destruct (arming_state_transition _ _ _ _ _ _ _ _ _). }
  rewrite S. pose proof (battery_noted_by_hand b m H) as H1.
  assert (cm_main (battery_noted b m) = cm_main m) as E by (unfold battery_noted, cm_main; by case_match).
  generalize dependent (battery_noted b m). intros m1 H1 E.
  assert (battery_worse now p m1 = m1 <| cm_battery_failsafe_timestamp := now |>) as W.
  { unfold battery_worse. by rewrite Z. }
  destruct (battery_increased b m); [rewrite W|]; by rewrite battery_react_by_hand.
Qed.

(** ** Resuming in the air *)

Lemma restore_transition now k v sf req chk reason a :
  arming_state (ac_status a) = ARMING_STATE_IN_AIR_RESTORE ->
  fst (arming_state_transition now k v sf req ARMING_STATE_ARMED chk reason a) = TRANSITION_CHANGED.
Proof.
  intros A. rewrite transition_shape. unfold ruled_valid. rewrite standby_rules_armed. unfold transition_valid.
  by rewrite (proj1 (checked_frame now k v ARMING_STATE_ARMED chk a)), A.
Qed.

Lemma restore_arm_succeeds now k p reason m :
  arming_state (cm_status m) = ARMING_STATE_IN_AIR_RESTORE -> arm_denied p reason m = false ->
  fst (arm_vehicle now k p reason true m) = TRANSITION_CHANGED.
Proof.
  intros A D. unfold arm_vehicle. rewrite D, andb_false_r. unfold arming_transition, transition_with.
  generalize (if in_grace_period now reason m then false else true) as chk. intros chk.
  pose proof (restore_transition now k (cm_mode m) (cm_safety m) (cm_requirements m) chk reason
    (mkArmCtx (cm_status m) (cm_armed m) (cm_flags m) (cm_last_preflight_check m)) A) as T.
  by destruct (arming_state_transition _ _ _ _ _ _ _ _ _).
Qed.

(** An arm command from the IO processor that is rejected (for instance for a raised
    throttle) leaves the disarmed vehicle in IN_AIR_RESTORE, and in that state the next arm
    request that is not rejected for its throttle or mode arms the vehicle although every
    sensor and prearm check may fail. *)
Theorem rejected_restore_skips_checks now k p a m
    (r := arm_disarm_command now k p a m) :
  ac_action a = 1 -> ac_forced a = false -> ac_from_io a = true -> ac_from_external a = false ->
  armed (cm_armed m) = false -> arm_denied p command_internal m = true ->
  fst r = RESULT_TEMPORARILY_REJECTED /\
  arming_state (cm_status (snd r)) = ARMING_STATE_IN_AIR_RESTORE /\
  forall t k' reason m2, arming_state (cm_status m2) = arming_state (cm_status (snd r)) ->
    arm_denied p reason m2 = false -> fst (arm_vehicle t k' p reason true m2) = TRANSITION_CHANGED.
Proof.
  intros A F I X D N. subst r. unfold arm_disarm_command, in_air_restore. rewrite A, F, I, X.
  change (1 =? 1) with true. change (1 =? 0) with false. cbn [negb andb orb]. set (m1 := on_nav _ m).
  assert (arm_vehicle now k p command_internal true m1 = (TRANSITION_DENIED, m1)) as E.
  { unfold arm_vehicle. change (armed (cm_armed m1)) with (armed (cm_armed m)).
    change (arm_denied p command_internal m1) with (arm_denied p command_internal m). by rewrite D, N. }
  rewrite E. split_and!; [done|done|].
  intros t k' reason m2 S. by apply restore_arm_succeeds.
Qed.

(** ** Control mode *)

Definition implies (a b : bool) : bool := negb a || b.

(** An outer loop runs on the inner loops. *)
Definition hierarchy (v : vehicle_control_mode) : bool :=
  implies (flag_control_attitude_enabled v) (flag_control_rates_enabled v)
  && implies (flag_control_acceleration_enabled v) (flag_control_attitude_enabled v)
  && implies (flag_control_climb_rate_enabled v) (flag_control_attitude_enabled v)
  && implies (flag_control_altitude_enabled v) (flag_control_climb_rate_enabled v)
  && implies (flag_control_velocity_enabled v) (flag_control_altitude_enabled v)
  && implies (flag_control_position_enabled v) (flag_control_velocity_enabled v).

(** Who commands the vehicle: at most one. *)
Definition one_source (v : vehicle_control_mode) : bool :=
  implies (flag_control_manual_enabled v) (negb (flag_control_auto_enabled v || flag_control_offboard_enabled v))
  && implies (flag_control_auto_enabled v) (negb (flag_control_offboard_enabled v)).

(** Nobody does: in termination, and in an orbit, where the loops run on the setpoints of
    the flight tasks with none of the three flags set. *)
Definition no_source (v : vehicle_control_mode) : bool :=
  negb (flag_control_manual_enabled v || flag_control_auto_enabled v || flag_control_offboard_enabled v).

Definition without_source (n : navigation_state_t) : bool :=
  match n with NAVIGATION_STATE_TERMINATION | NAVIGATION_STATE_ORBIT => true | _ => false end.

(** C38 (type). Every published control mode is a hierarchy of loops with at most
    one source     of setpoints among manual, auto and offboard, and with none exactly in
    termination and     in an orbit; it carries the arming flag, and in termination runs no
    controller at all;     the multicopter position controller runs only on a multicopter. *)
Theorem control_mode_well_formed s ar o t (v := update_control_mode s ar o t) :
  hierarchy v = true /\ one_source v = true /\ no_source v = without_source (nav_state s) /\
  flag_armed v = armed ar /\
  implies (flag_control_termination_enabled v)
    (negb (flag_control_rates_enabled v || flag_control_manual_enabled v || flag_control_auto_enabled v
           || flag_control_offboard_enabled v || flag_multicopter_position_control_enabled v)) = true /\
  implies (flag_multicopter_position_control_enabled v)
    (rotary_wing s && flag_control_attitude_enabled v) = true.
Proof.
  subst v. unfold update_control_mode, mode_of. generalize (armed ar) as b. intros b.
  generalize (stabilization_required s t) as st, (rotary_wing s) as rw. intros st rw.
  destruct (nav_state s); try (destruct b, rw; vm_compute; by destruct st).
  destruct b, rw, o as [[] [] [] [] []]; by vm_compute.
Qed.

(** ** Concrete runs *)

Definition good_checks : sensor_checks :=
  mkChecks true true true true true true true true false false (fun _ => true) false true (fun _ => true) true true
    (fun _ => true) true true true true true.

Definition bad_checks : sensor_checks :=
  mkChecks false false true false false false false false false false (fun _ => false) false false (fun _ => false)
    true false (fun _ => false) false false false false false.

Definition quad_params : com_params :=
  mkParams false false f0 f0 (flit 3 1) IP_WARNING (flit 10 1) LB_WARNING 1 true false false.

Definition no_offboard : offboard_control_mode := mkOffboard false false false false false.

Definition good_inputs : inputs :=
  mkInputs (flight_status NAVIGATION_STATE_MANUAL false false false) (flight_flags true true true true).

Definition at_ (t : Z) (e : event) : tick := mkTick t good_checks e.

(** Start, arm with the switch, take off in manual mode. *)
Definition takeoff_run : list tick :=
  [at_ 1000000 (ev_parameters (flit 5 1) no_requirements); at_ 1000000 (ev_inputs good_inputs);
   at_ 1000000 (ev_battery (mkBattery BATTERY_WARNING_NONE true false)); at_ 1000000 ev_standby;
   at_ 9000000 (ev_manual_control (mkManual true f0 false false));
   at_ 9000000 (ev_nav (flight_config LL_AUTO_RTL LL_AUTO_RTL)); at_ 9000000 (ev_publish no_offboard false);
   at_ 10000000 (ev_action SOURCE_RC_SWITCH ACTION_ARM); at_ 12000000 (ev_land_detector false false)].

Definition flying : commander := runs quad_params takeoff_run (initial false false 0).

Lemma flying_armed : armed (cm_armed flying) = true /\ cm_have_taken_off_since_arming flying = true.
Proof. vm_compute. by split. Qed.

(** The switch is engaged in the air; five seconds later the vehicle is disarmed. *)
Definition killed_run_start : list tick := takeoff_run ++ [at_ 20000000 (ev_action SOURCE_RC_SWITCH ACTION_KILL)].

Lemma killed_vehicle_is_disarmed_witness :
  let m := runs quad_params killed_run_start (initial false false 0) in
  armed (cm_armed m) = true /\
  gets_disarmed quad_params
    (at_ 20010000 ev_auto_disarm :: [at_ 22000000 ev_auto_disarm; at_ 23000000 (ev_nav (flight_config LL_AUTO_RTL LL_AUTO_RTL))]
       ++ [at_ 25010000 ev_auto_disarm]) m.
Proof.
  intros m. split; [vm_compute; reflexivity|].
  apply (killed_vehicle_is_disarmed quad_params killed_run_start false false 0
    [at_ 22000000 ev_auto_disarm; at_ 23000000 (ev_nav (flight_config LL_AUTO_RTL LL_AUTO_RTL))]
    20010000 good_checks 25010000 good_checks).
  - vm_compute; reflexivity.
  - vm_compute; reflexivity.
  - vm_compute; reflexivity.
  - repeat constructor.
  - vm_compute; discriminate.
Defined.

Lemma termination_stays_witness :
  let m := terminate_flight flying in
  let l := [at_ 30000000 (ev_nav (flight_config LL_AUTO_RTL LL_AUTO_RTL)); at_ 31000000 (ev_geofence true GF_RTL)] in
  force_failsafe (cm_armed (runs quad_params l m)) = true.
Proof.
  intros m l. apply (termination_stays quad_params l m); [reflexivity|]. repeat constructor.
Defined.

(** A low battery half an hour before the vehicle leaves the fence. *)
Lemma battery_warning_blinds_geofence_witness :
  let low := mkBattery BATTERY_WARNING_LOW true false in
  let m1 := battery_stage 100000000 good_checks quad_params low flying in
  let l := [at_ 101000000 (ev_battery low); at_ 101000000 (ev_nav (flight_config LL_AUTO_RTL LL_AUTO_RTL))] in
  cm_main (geofence_stage 1900000000 true GF_TERMINATE (runs quad_params l m1)) = cm_main (runs quad_params l m1) /\
  cm_armed (geofence_stage 1900000000 true GF_TERMINATE (runs quad_params l m1)) = cm_armed (runs quad_params l m1).
Proof.
  intros low m1 l.
  apply (battery_warning_blinds_geofence quad_params flying 100000000 good_checks low l 1900000000 true GF_TERMINATE).
  - reflexivity.
  - discriminate.
  - split; [vm_compute; discriminate|vm_compute; reflexivity].
  - reflexivity.
  - vm_compute; reflexivity.
  - split; [split; [split; [vm_compute; discriminate|vm_compute; reflexivity]|split; [reflexivity|discriminate]]|].
    split; exact I.
Defined.

Lemma zero_battery_delay_never_acts_witness :
  let p := quad_params <| com_bat_act_t := f0 |> <| com_low_bat_act := LB_RETURN_OR_LAND |> in
  let b := mkBattery BATTERY_WARNING_EMERGENCY true false in
  battery_increased b flying = true /\ cm_main (battery_stage 100000000 good_checks p b flying) = cm_main flying.
Proof.
  intros p b. split; [vm_compute; reflexivity|].
  apply (zero_battery_delay_never_acts 100000000 good_checks p b flying).
  - reflexivity.
  - reflexivity.
  - split; [vm_compute; discriminate|vm_compute; reflexivity].
Defined.

(** On the ground with the throttle up; then the throttle comes down. *)
Definition throttle_up : commander :=
  runs quad_params (take 7 takeoff_run ++ [at_ 11000000 (ev_manual_control (mkManual true (flit 1 2) false false))])
    (initial false false 0).

Lemma rejected_restore_skips_checks_witness :
  let a := mkArmCommand 1 false true false in
  let r := arm_disarm_command 12000000 good_checks quad_params a throttle_up in
  let m2 := runs quad_params [at_ 13000000 (ev_manual_control (mkManual true f0 false false))] (snd r) in
  fst r = RESULT_TEMPORARILY_REJECTED /\
  fst (arm_vehicle 14000000 bad_checks quad_params command_external true m2) = TRANSITION_CHANGED.
Proof.
  intros a r m2.
  destruct (rejected_restore_skips_checks 12000000 good_checks quad_params a throttle_up) as (H1 & _ & H3);
    [vm_compute; reflexivity..|].
  split; [exact H1|]. apply H3; vm_compute; reflexivity.
Defined.

End CommanderClaims.
