(* ===== verification/Uorb.v ===== *)
(** * The message bus

    src/platforms/common/uORB.  A topic has up to [ORB_MULTI_MAX_INSTANCES] nodes
    (uORBDeviceNode.cpp), each with a queue of the latest messages and a 32-bit count of
    publications, the generation.  Subscriptions (Subscription.cpp, SubscriptionInterval.hpp)
    remember the generation they have read.  Publishers claim a node from the device master
    (uORBDeviceMaster.cpp) through the manager (uORBManager.cpp).  Messages are values of a
    type with a zero, the cleared buffer.  Callbacks, the link to other processors, the file
    descriptor interface and the subscriber count, which is only printed, are left out. *)
From stdpp Require Import gmap.
From coqutil Require Import Datatypes.RecordSettersUsingExistingGetters.
From S2P Require Import Prelude.
Local Open Scope Z_scope.

Module Uorb.

(** ** Nodes *)

Definition shift_or (n value : Z) : Z := Z.lor value (Z.shiftr value n).

Definition round_pow_of_two_8 (n : Z) : Z :=
  if n =? 0 then 1
  else
    let value := shift_or 4 (shift_or 2 (shift_or 1 (u8 (n - 1)))) in
    let value := if value =? 255 then Z.shiftr value 1 else value in
    u8 (value + 1).

Section Bus.
Context {A : Type} (zero : A) (ORB_MULTI_MAX_INSTANCES : Z).

Record node := mkNode {
  nd_data : option (list A);
  nd_data_valid : bool;
  nd_generation : Z;
  nd_advertised : bool;
  nd_queue_size : Z
}.

(** The constructor; the device master passes no queue size. *)
Definition DeviceNode (queue_size : Z) : node := mkNode None false 0 false (round_pow_of_two_8 queue_size).

(** [write]: a buffer that is missing is allocated, outside of interrupts only.  It is
    cleared before the check that there is one. *)
Inductive write_result := written (n : node) | enomem | null_memset.

Definition slot (n : node) (generation : Z) : nat := Z.to_nat (generation mod nd_queue_size n).

Definition put (x : A) (buffer : list A) (n : node) : node :=
  n <| nd_data := Some (<[slot n (nd_generation n) := x]> buffer) |>
    <| nd_generation := u32 (nd_generation n + 1) |> <| nd_data_valid := true |>.

Definition write (interrupt allocated : bool) (x : A) (n : node) : write_result :=
  match nd_data n with
  | Some buffer => written (put x buffer n)
  | None =>
      if interrupt then enomem
      else if allocated then written (put x (replicate (Z.to_nat (nd_queue_size n)) zero) n)
      else null_memset
  end.

Definition is_in_range (left value right : Z) : bool :=
  if right >? left then (left <=? value) && (value <=? right) else (left <=? value) || (value <=? right).

(** [copy]: the message and the new generation of the reader. *)
Definition copy (n : node) (generation : Z) : option (A * Z) :=
  match nd_data n with
  | None => None
  | Some buffer =>
      if nd_queue_size n =? 1 then
        x ← buffer !! 0%nat; Some (x, nd_generation n)
      else
        let current := nd_generation n in
        let generation := if current =? generation then u32 (generation - 1) else generation in
        let generation := if is_in_range (u32 (current - nd_queue_size n)) generation (u32 (current - 1))
                          then generation else u32 (current - nd_queue_size n) in
        x ← buffer !! slot n generation; Some (x, u32 (generation + 1))
  end.

Definition updates_available (n : node) (generation : Z) : Z := u32 (nd_generation n - generation).

Definition get_initial_generation (n : node) : Z :=
  u32 (nd_generation n - (if nd_data_valid n then 1 else 0)).

Definition update_queue_size (queue_size : Z) (n : node) : option node :=
  if nd_queue_size n =? queue_size then Some n
  else if match nd_data n with Some _ => true | None => false end || (nd_queue_size n >? queue_size) || (queue_size >? 255)
  then None
  else Some (n <| nd_queue_size := round_pow_of_two_8 queue_size |>).

Definition mark_as_advertised (n : node) : node := n <| nd_advertised := true |>.
Definition unadvertise (n : node) : node := n <| nd_advertised := false |>.

(** ** The device master *)

(** The nodes of one topic, by instance. *)
Definition topic := gmap Z node.

Definition deviceNodeExists (t : topic) (instance : Z) : bool :=
  (instance <=? ORB_MULTI_MAX_INSTANCES - 1) && match t !! instance with Some _ => true | None => false end.

Definition getDeviceNode (t : topic) (instance : Z) : option node :=
  if deviceNodeExists t instance then t !! instance else None.

(** One attempt of [advertise]; [multi] is an advertiser or subscriber that passes an instance. *)
Definition claim (is_advertiser multi : bool) (group_tries : Z) (t : topic) : option topic :=
  match t !! group_tries with
  | None =>
      let n := DeviceNode 1 in
      Some (<[group_tries := if is_advertiser then mark_as_advertised n else n]> t)
  | Some n =>
      if negb (nd_advertised n) || (is_advertiser && negb multi) || negb is_advertiser
      then Some (if is_advertiser then <[group_tries := mark_as_advertised n]> t else t)
      else None
  end.

Fixpoint claim_loop (tries : nat) (is_advertiser multi : bool) (group_tries : Z) (t : topic) : option (Z * topic) :=
  match tries with
  | O => None
  | S tries =>
      match claim is_advertiser multi group_tries t with
      | Some t => Some (group_tries, t)
      | None => claim_loop tries is_advertiser multi (group_tries + 1) t
      end
  end.

(** [None] is -ENOMEM. *)
Definition advertise (is_advertiser : bool) (instance : option Z) (t : topic) : option (Z * topic) :=
  match instance with
  | None => claim_loop 1 is_advertiser false 0 t
  | Some i => if ORB_MULTI_MAX_INSTANCES <=? i then None
              else claim_loop (Z.to_nat (ORB_MULTI_MAX_INSTANCES - i)) is_advertiser true i t
  end.

(** [node_open] of an advertiser: a single instance opens node 0 if there is one. *)
Definition open_advertiser (multi : bool) (t : topic) : option (Z * topic) :=
  if multi then advertise true (Some 0) t
  else match t !! 0 with
       | Some n => Some (0, <[0 := mark_as_advertised n]> t)
       | None => advertise true None t
       end.

Definition set_queue_size (queue_size i : Z) (t : topic) : topic :=
  match t !! i with
  | Some n => match update_queue_size queue_size n with Some n => <[i := n]> t | None => t end
  | None => t
  end.

(** [orb_advertise_multi] without an initial message; a queue size that is refused is only
    reported. *)
Definition orb_advertise_multi (multi : bool) (queue_size : Z) (t : topic) : option (Z * topic) :=
  '(i, t) ← open_advertiser multi t; Some (i, set_queue_size queue_size i t).

(** [publish] to the node that was claimed; [None] is an error. *)
Definition publish (interrupt allocated : bool) (i : Z) (x : A) (t : topic) : option topic :=
  n ← t !! i;
  match write interrupt allocated x n with written n => Some (<[i := n]> t) | _ => None end.

(** ** Subscriptions *)

Record Subscription := mkSubscription {
  su_valid : bool;                      (** the node pointer is set *)
  su_last_generation : Z;
  su_instance : Z
}.

Definition subscribe (t : topic) (s : Subscription) : Subscription :=
  if su_valid s then s
  else match getDeviceNode t (su_instance s) with
       | Some n => s <| su_valid := true |> <| su_last_generation := get_initial_generation n |>
       | None => s
       end.

(** The constructor subscribes when the node already exists. *)
Definition Subscription_new (t : topic) (instance : Z) : Subscription :=
  subscribe t (mkSubscription false 0 instance).

Definition unsubscribe (s : Subscription) : Subscription := s <| su_valid := false |> <| su_last_generation := 0 |>.

(** The node of a valid subscription. *)
Definition su_node (t : topic) (s : Subscription) : option node :=
  if su_valid s then t !! su_instance s else None.

Definition su_advertised (t : topic) (s : Subscription) : bool * Subscription :=
  let s := subscribe t s in
  (match su_node t s with Some n => nd_advertised n | None => false end, s).

Definition su_updated (t : topic) (s : Subscription) : bool * Subscription :=
  let s := subscribe t s in
  (match su_node t s with
   | Some n => nd_advertised n && negb (updates_available n (su_last_generation s) =? 0)
   | None => false
   end, s).

Definition orb_data_copy (n : node) (generation : Z) (only_if_updated : bool) : option (A * Z) :=
  if negb (nd_advertised n) then None
  else if only_if_updated && (updates_available n generation =? 0) then None
  else copy n generation.

Definition su_read (only_if_updated : bool) (t : topic) (s : Subscription) : option A * Subscription :=
  let s := subscribe t s in
  match n ← su_node t s; orb_data_copy n (su_last_generation s) only_if_updated with
  | Some (x, g) => (Some x, s <| su_last_generation := g |>)
  | None => (None, s)
  end.

Definition su_update := su_read true.
Definition su_copy := su_read false.

Definition ChangeInstance (t : topic) (instance : Z) (s : Subscription) : bool * Subscription :=
  if instance =? su_instance s then (true, s)
  else if deviceNodeExists t (su_instance s)
  then (true, subscribe t ((unsubscribe s) <| su_instance := instance |>))
  else (false, s).

(** ** Subscriptions with an interval *)

Record SubscriptionInterval := mkInterval {
  si_subscription : Subscription;
  si_last_update : Z;
  si_interval_us : Z
}.

Definition u64_constrain (val min_val max_val : Z) : Z :=
  if val <? min_val then min_val else if val >? max_val then max_val else val.

Definition si_updated (now : Z) (t : topic) (s : SubscriptionInterval) : bool * SubscriptionInterval :=
  let '(adv, sub) := su_advertised t (si_subscription s) in
  let s := s <| si_subscription := sub |> in
  if adv && (si_interval_us s <=? u64 (now - si_last_update s)) then
    let '(r, sub) := su_updated t sub in (r, s <| si_subscription := sub |>)
  else (false, s).

Definition si_copy (now : Z) (t : topic) (s : SubscriptionInterval) : option A * SubscriptionInterval :=
  let '(r, sub) := su_copy t (si_subscription s) in
  let s := s <| si_subscription := sub |> in
  match r with
  | Some x =>
      (Some x, s <| si_last_update := u64_constrain (u64 (si_last_update s + si_interval_us s))
                                        (u64 (now - si_interval_us s)) now |>)
  | None => (None, s)
  end.

Definition si_update (now : Z) (t : topic) (s : SubscriptionInterval) : option A * SubscriptionInterval :=
  let '(r, s) := si_updated now t s in if r then si_copy now t s else (None, s).

End Bus.

Arguments node : clear implicits.
Arguments topic : clear implicits.
Arguments write_result : clear implicits.

End Uorb.
