(* ===== verification/UorbSpec.v ===== *)
(** * What the message bus promises

    Against a specification in which a topic is the list of all its messages and a reader a
    position in it, the nodes and subscriptions deliver the messages in order, each at most
    once, and lose only those that the queue no longer holds, across the wrap of the 32-bit
    generation ([uorb_refines], [uorb_delivers_all]).  Publishers of instances get nodes of
    their own; an interval limits the rate.  Changing the instance can strand a subscription. *)
From stdpp Require Import gmap.
From coqutil Require Import Datatypes.RecordSettersUsingExistingGetters.
From S2P Require Import Prelude Uorb.
Import Uorb.
Local Open Scope Z_scope.

Module UorbSpec.

(** ** Queue sizes *)

Definition pow_ok (n : Z) : bool :=
  let q := round_pow_of_two_8 n in
  existsb (fun k => q =? 2 ^ k) [0; 1; 2; 3; 4; 5; 6; 7] && (if n <=? 128 then n <=? q else q =? 128)
  && ((n =? 0) || (q <? 2 * n)).

Lemma pow_ok_all : forallb pow_ok (Z.of_nat <$> seq 0 256) = true.
Proof. vm_compute. reflexivity. Qed.

Lemma round_pow_spec n :
  0 <= n < 256 ->
  (exists k, 0 <= k <= 7 /\ round_pow_of_two_8 n = 2 ^ k) /\
  (n <= 128 -> n <= round_pow_of_two_8 n) /\ (128 < n -> round_pow_of_two_8 n = 128).
Proof.
  intros H. pose proof pow_ok_all as P. rewrite forallb_forall in P.
  assert (pow_ok n = true) as Q.
  { apply P, list_elem_of_In, list_elem_of_fmap. exists (Z.to_nat n). split; [lia|]. apply elem_of_seq. lia. }
  unfold pow_ok in Q. apply andb_true_iff in Q as [Q _]. apply andb_true_iff in Q as [Q1 Q2].
  split.
  - apply existsb_exists in Q1 as (k & I & E). exists k. apply Z.eqb_eq in E. split; [|done].
    cbn in I. intuition lia.
  - destruct (Z.leb_spec n 128); split; intros; lia.
Qed.

(** ** Arithmetic of generations *)

Definition len {A} (h : list A) : Z := Z.of_nat (length h).

Lemma wrap_sub c l : 0 <= l < 2 ^ 32 -> u32 (c - l) = if l <=? u32 c then u32 c - l else u32 c - l + 2 ^ 32.
Proof.
  intros L. unfold wrap. pose proof (Z.mod_pos_bound c (2 ^ 32) ltac:(lia)) as B.
  rewrite Zminus_mod, (Z.mod_small l) by lia. destruct (Z.leb_spec l (c mod 2 ^ 32)).
  - apply Z.mod_small. lia.
  - rewrite <- (Z_mod_plus_full _ 1). apply Z.mod_small. lia.
Qed.

Lemma wrap_sub_l c l : u32 (u32 c - l) = u32 (c - l).
Proof. unfold wrap. apply Zminus_mod_idemp_l. Qed.

Lemma wrap_add_l c l : u32 (u32 c + l) = u32 (c + l).
Proof. unfold wrap. apply Zplus_mod_idemp_l. Qed.

(** The range check is right although the numbers wrap. *)
Lemma in_range_spec c q l :
  2 <= q <= 128 -> 1 <= l < 2 ^ 32 -> is_in_range (u32 (c - q)) (u32 (c - l)) (u32 (c - 1)) = (l <=? q).
Proof.
  intros Q L. rewrite !wrap_sub by lia.
  assert (0 <= u32 c < 2 ^ 32) as B by (apply wrap_fits; lia). revert B. generalize (u32 c). intros z B.
  unfold is_in_range. destruct (Z.leb_spec l q); repeat (case_match; try lia).
Qed.

Lemma wrap_mod_pow k z : 0 <= k <= 32 -> u32 z mod 2 ^ k = z mod 2 ^ k.
Proof.
  intros K. unfold wrap. apply Z.mod_mod_divide.
  exists (2 ^ (32 - k)). rewrite <- Z.pow_add_r by lia. f_equal. lia.
Qed.

Lemma mod_apart q a b : 0 < q -> 0 < b - a < q -> a mod q <> b mod q.
Proof.
  intros Q D E. assert ((b - a) mod q = 0) as Z by (by rewrite Zminus_mod, E, Z.sub_diag).
  rewrite Z.mod_small in Z; lia.
Qed.

(** ** Nodes *)

Section Bus.
Context {A : Type} (zero : A) (max : Z).
Implicit Types (n : node A) (h : list A) (t : topic A).

Lemma topic_insert_eq t i n : (<[i := n]> t : topic A) !! i = Some n.
Proof. apply (lookup_insert_eq (M := gmap Z)). Qed.

Lemma topic_insert_ne t i j n : i <> j -> (<[i := n]> t : topic A) !! j = t !! j.
Proof. apply (lookup_insert_ne (M := gmap Z)). Qed.

(** The node has published [h] and holds its last messages. *)
Record holds (q : Z) (h : list A) (n : node A) : Prop := mkHolds {
  ho_size : nd_queue_size n = q;
  ho_generation : nd_generation n = u32 (len h);
  ho_valid : nd_data_valid n = negb (len h =? 0);
  ho_data : match nd_data n with
            | None => h = []
            | Some b => h <> [] /\ length b = Z.to_nat q /\
                forall j x, h !! j = Some x -> len h - q <= Z.of_nat j -> b !! Z.to_nat (Z.of_nat j mod q) = Some x
            end
}.

Definition queue_size (q : Z) : Prop := exists k, 0 <= k <= 7 /\ q = 2 ^ k.

Lemma queue_size_bounds q : queue_size q -> 1 <= q <= 128.
Proof.
  intros (k & K & ->). split; [apply (Z.pow_le_mono_r 2 0 k); lia|].
  change 128 with (2 ^ 7). apply Z.pow_le_mono_r; lia.
Qed.

Lemma slot_spec q n z : queue_size q -> nd_queue_size n = q -> slot n (u32 z) = Z.to_nat (z mod q).
Proof. intros (k & K & ->) E. unfold slot. rewrite E, wrap_mod_pow by lia. done. Qed.

Lemma put_holds q h x b n :
  queue_size q -> nd_queue_size n = q -> nd_generation n = u32 (len h) -> length b = Z.to_nat q ->
  (forall j y, h !! j = Some y -> len h - q <= Z.of_nat j -> b !! Z.to_nat (Z.of_nat j mod q) = Some y) ->
  holds q (h ++ [x]) (put x b n).
Proof.
  intros Q E G L H. pose proof (queue_size_bounds q Q) as B.
  assert (len (h ++ [x]) = len h + 1) as Le by (unfold len; rewrite length_app; cbn; lia).
  assert (0 <= len h) as L0 by (unfold len; lia).
  split; cbn; unfold RecordSettersUsingExistingGetters.const.
  - done.
  - by rewrite G, wrap_add_l, Le.
  - rewrite Le. destruct (Z.eqb_spec (len h + 1) 0); [lia|done].
  - rewrite G, (slot_spec q) by done. split; [by destruct h|]. split; [by rewrite length_insert|].
    intros j y Hj Hr. rewrite Le in Hr. pose proof (Z.mod_pos_bound (len h) q ltac:(lia)) as M.
    pose proof (Z.mod_pos_bound (Z.of_nat j) q ltac:(lia)) as Mj.
    apply lookup_snoc_Some in Hj as [[Hl Hj]|[-> ->]].
    + rewrite list_lookup_insert_ne; [apply H; [done|lia]|].
      intros F. apply (mod_apart q (Z.of_nat j) (len h)); unfold len in *; lia.
    + fold (len h). apply list_lookup_insert_eq. lia.
Qed.

Lemma write_holds q h x i a n n' :
  queue_size q -> holds q h n -> write zero i a x n = written n' -> holds q (h ++ [x]) n'.
Proof.
  intros Q [S G V D] W. unfold write in W. destruct (nd_data n) as [b|].
  - injection W as <-. destruct D as (_ & L & H). by apply put_holds.
  - destruct i; [done|]. destruct a; [|done]. injection W as <-. subst h.
    apply put_holds; try done. by rewrite length_replicate, S.
Qed.

(** A thread that finds memory can always publish. *)
Lemma write_total x n : exists n', write zero false true x n = written n'.
Proof. unfold write. destruct (nd_data n); eauto. Qed.

Lemma put_advertised x b n : nd_advertised (put x b n) = nd_advertised n.
Proof. done. Qed.

Lemma write_advertised i a x n n' : write zero i a x n = written n' -> nd_advertised n' = nd_advertised n.
Proof. unfold write. intros W. repeat case_match; simplify_eq; done. Qed.

(** ** Reading *)

(** The position a reader at [r] reads next. *)
Definition next (q l r : Z) : Z := if r =? l then l - 1 else Z.max r (l - q).

Lemma copy_holds q h n r :
  queue_size q -> holds q h n -> h <> [] -> 0 <= r <= len h -> len h - r < 2 ^ 32 ->
  exists x, h !! Z.to_nat (next q (len h) r) = Some x /\
    copy n (u32 r) = Some (x, u32 (next q (len h) r + 1)).
Proof.
  intros Q [S G V D] Hh R L. pose proof (queue_size_bounds q Q) as B.
  assert (0 < len h) as L0 by (unfold len; destruct h; cbn; [done|lia]).
  assert (0 <= next q (len h) r < len h) as N.
  { unfold next. destruct (Z.eqb_spec r (len h)); lia. }
  destruct (lookup_lt_is_Some_2 h (Z.to_nat (next q (len h) r))) as [x Hx]; [unfold len in *; lia|].
  exists x. split; [done|]. unfold copy. destruct (nd_data n) as [b|]; [|done]. destruct D as (_ & Lb & H).
  rewrite S. destruct (Z.eqb_spec q 1) as [->|Q1].
  - assert (next 1 (len h) r = len h - 1) as E by (unfold next; destruct (Z.eqb_spec r (len h)); lia).
    rewrite E in *. specialize (H _ _ Hx ltac:(lia)). rewrite Z.mod_1_r in H.
    change (Z.to_nat 0) with 0%nat in H. rewrite H. cbn. rewrite G. do 3 f_equal. lia.
  - rewrite G.
    assert (exists l, 1 <= l < 2 ^ 32 /\ next q (len h) r = len h - Z.min l q /\
      (if u32 (len h) =? u32 r then u32 (u32 r - 1) else u32 r) = u32 (len h - l)) as (l & Hl & E & ->).
    { unfold next. destruct (Z.eqb_spec r (len h)) as [->|Hr].
      - exists 1. rewrite Z.eqb_refl, wrap_sub_l. split_and!; [lia..|done].
      - exists (len h - r). split_and!; [lia..|]. replace (len h - (len h - r)) with r by lia.
        destruct (Z.eqb_spec (u32 (len h)) (u32 r)) as [F|_]; [|done]. exfalso.
        revert F. replace r with (len h - (len h - r)) by lia. rewrite wrap_sub by lia.
        case_match; lia. }
    rewrite !(wrap_sub_l (len h)), in_range_spec by lia.
    assert ((if l <=? q then u32 (len h - l) else u32 (len h - q)) = u32 (next q (len h) r)) as ->.
    { rewrite E. destruct (Z.leb_spec l q); do 2 f_equal; lia. }
    rewrite (slot_spec q) by done. specialize (H _ _ Hx ltac:(lia)). rewrite Z2Nat.id in H by lia.
    rewrite H. cbn. by rewrite wrap_add_l.
Qed.

Lemma updates_spec q h n r :
  holds q h n -> 0 <= r <= len h -> len h - r < 2 ^ 32 -> (updates_available n (u32 r) =? 0) = (r =? len h).
Proof.
  intros [_ G _ _] R L. unfold updates_available. rewrite G, wrap_sub_l.
  replace (u32 (len h - u32 r)) with (len h - r).
  - destruct (Z.eqb_spec r (len h)), (Z.eqb_spec (len h - r) 0); lia.
  - unfold wrap. rewrite Zminus_mod_idemp_r. symmetry. apply Z.mod_small. lia.
Qed.

(** ** The specification: a list and a position *)

(** A reader that has not subscribed yet starts with the latest message. *)
Definition position (h : list A) (r : option Z) : Z := default (if len h =? 0 then 0 else len h - 1) r.

Definition spec_read (q : Z) (h : list A) (r : option Z) : option A * option Z :=
  let r := position h r in
  if r =? len h then (None, Some r) else (h !! Z.to_nat (Z.max r (len h - q)), Some (Z.max r (len h - q) + 1)).

Inductive op := op_publish (x : A) | op_read.

(** What the reads of a run return. *)
Fixpoint spec_run (q : Z) (h : list A) (r : option Z) (l : list op) : list (option A) :=
  match l with
  | [] => []
  | op_publish x :: l => spec_run q (h ++ [x]) r l
  | op_read :: l => let '(y, r) := spec_read q h r in y :: spec_run q h r l
  end.

Fixpoint bus_run (i : Z) (t : topic A) (s : Subscription) (l : list op) : list (option A) :=
  match l with
  | [] => []
  | op_publish x :: l => match publish zero false true i x t with Some t => bus_run i t s l | None => [] end
  | op_read :: l => let '(y, s) := su_update max t s in y :: bus_run i t s l
  end.

(** The reader is never 2^32 messages behind. *)
Fixpoint lag_ok (q : Z) (h : list A) (r : option Z) (l : list op) : Prop :=
  match l with
  | [] => True
  | op_publish x :: l => lag_ok q (h ++ [x]) r l
  | op_read :: l => len h - position h r < 2 ^ 32 /\ lag_ok q h (snd (spec_read q h r)) l
  end.

Record related (q i : Z) (h : list A) (r : option Z) (t : topic A) (s : Subscription) : Prop := mkRelated {
  re_node : exists n, t !! i = Some n /\ holds q h n /\ nd_advertised n = true;
  re_range : 0 <= i <= max - 1;
  re_instance : su_instance s = i;
  re_reader : match r with
              | None => su_valid s = false
              | Some r => su_valid s = true /\ su_last_generation s = u32 r /\ 0 <= r <= len h
              end
}.

(** Reading first subscribes. *)
Lemma subscribe_related q i h r t s :
  related q i h r t s -> related q i h (Some (position h r)) t (subscribe max t s).
Proof.
  intros [(n & T & H & Adv) R I P]. destruct r as [r|]; cbn [position default].
  - unfold subscribe. rewrite (proj1 P). split; eauto.
  - assert (subscribe max t s = s <| su_valid := true |> <| su_last_generation := get_initial_generation n |>) as ->.
    { unfold subscribe, getDeviceNode, deviceNodeExists. rewrite P, I, T.
      destruct (Z.leb_spec i (max - 1)); [done|lia]. }
    split; [eauto|done|done|]. split; [done|]. cbn. unfold RecordSettersUsingExistingGetters.const.
    unfold get_initial_generation. destruct H as [_ G V _]. rewrite G, V, wrap_sub_l.
    assert (0 <= len h) by (unfold len; lia).
    destruct (Z.eqb_spec (len h) 0) as [E|E]; cbn [negb]; (split; [|lia]); [by rewrite E|done].
Qed.

Lemma read_related q i h r t s :
  queue_size q -> related q i h r t s -> len h - position h r < 2 ^ 32 ->
  fst (su_update max t s) = fst (spec_read q h r) /\
  related q i h (snd (spec_read q h r)) t (snd (su_update max t s)).
Proof.
  intros Q Re L. apply subscribe_related in Re as Re'. unfold su_update, su_read, spec_read.
  generalize dependent (subscribe max t s). intros s' Re'. generalize dependent (position h r). intros p L Re'.
  destruct Re' as [(n & T & H & Adv) R I (V & G & B)]. unfold su_node. rewrite V, I, T. cbn [mbind option_bind].
  unfold orb_data_copy. rewrite Adv, G. cbn [negb andb]. rewrite (updates_spec q h n p H B L).
  destruct (Z.eqb_spec p (len h)) as [E|E].
  - cbn [fst snd]. split; [done|]. split; eauto.
  - destruct (copy_holds q h n p Q H) as (x & Hx & C); [intros ->; cbn in *; unfold len in *; cbn in *; lia|done|done|].
    assert (next q (len h) p = Z.max p (len h - q)) as N by (unfold next; destruct (Z.eqb_spec p (len h)); lia).
    rewrite N in *. pose proof (queue_size_bounds q Q).
    rewrite C. cbn [fst snd]. split; [done|]. split; eauto. split; [done|]. split; [done|]. lia.
Qed.

Lemma publish_related q i h r t s x :
  queue_size q -> related q i h r t s ->
  exists t', publish zero false true i x t = Some t' /\ related q i (h ++ [x]) r t' s.
Proof.
  intros Q [(n & T & H & Adv) R I P]. unfold publish. rewrite T. cbn [mbind option_bind].
  destruct (write_total x n) as [n' W]. rewrite W. eexists. split; [done|]. split; [|done|done|].
  - exists n'. rewrite topic_insert_eq. split; [done|]. split; [by eapply write_holds|].
    by rewrite (write_advertised _ _ _ _ _ W).
  - destruct r as [r|]; [|done]. unfold len in *. rewrite length_app. cbn. intuition lia.
Qed.

Lemma run_related q i l : forall h r t s,
  queue_size q -> related q i h r t s -> lag_ok q h r l -> bus_run i t s l = spec_run q h r l.
Proof.
  induction l as [|[x|] l IH]; intros h r t s Q Re L; [done| |].
  - destruct (publish_related q i h r t s x Q Re) as (t' & E & Re'). cbn [bus_run spec_run]. rewrite E. by apply IH.
  - destruct L as [L0 L]. destruct (read_related q i h r t s Q Re L0) as [E Re'].
    cbn [bus_run spec_run]. destruct (su_update max t s) as [y s'], (spec_read q h r) as [y' r'].
    cbn [fst snd] in *. subst y'. f_equal. by apply IH.
Qed.

(** *** Advertising *)

Lemma claim_loop_spec (adv : bool) tries : forall g t i t',
  claim_loop tries adv true g t = Some (i, t') ->
  g <= i < g + Z.of_nat tries /\ claim adv true i t = Some t' /\
  (forall j, g <= j < i -> claim adv true j t = None).
Proof.
  induction tries as [|tries IH]; intros g t i t' E; [done|]. cbn [claim_loop] in E.
  destruct (claim adv true g t) as [t0|] eqn:C.
  - injection E as <- <-. split_and!; [lia|lia|done|]. intros j J. lia.
  - destruct (IH _ _ _ _ E) as (B & C' & N). split_and!; [lia|lia|done|].
    intros j J. destruct (Z.eq_dec j g) as [->|]; [done|]. apply N. lia.
Qed.

Lemma claim_loop_none (adv : bool) tries : forall g t,
  claim_loop tries adv true g t = None ->
  forall j, g <= j < g + Z.of_nat tries -> claim adv true j t = None.
Proof.
  induction tries as [|tries IH]; intros g t E j J; [lia|]. cbn [claim_loop] in E.
  destruct (claim adv true g t) as [t0|] eqn:C; [done|].
  destruct (Z.eq_dec j g) as [->|]; [done|]. apply (IH (g + 1)); [done|lia].
Qed.

(** An instance that another publisher owns. *)
Definition owned (t : topic A) (i : Z) : Prop := exists n, t !! i = Some n /\ nd_advertised n = true.

Lemma claim_none i t : claim true true i t = None <-> owned t i.
Proof.
  unfold claim, owned. destruct (t !! i) as [n|]; cbn [negb andb]; rewrite ?orb_false_r.
  - destruct (nd_advertised n) eqn:E; cbn; split; intros H; try done; [eauto|].
    by destruct H as (n' & [= <-] & ?); congruence.
  - split; [done|]. by intros (? & ? & _).
Qed.

Lemma claim_some i t t' :
  claim true true i t = Some t' ->
  ~ owned t i /\ owned t' i /\ forall j, j <> i -> t' !! j = t !! j.
Proof.
  intros C. split; [rewrite <- claim_none; congruence|].
  unfold claim in C. destruct (t !! i) as [n|].
  - case_match; [|done]. injection C as <-. split; [eexists; by rewrite topic_insert_eq|].
    intros j J. by rewrite topic_insert_ne.
  - injection C as <-. split; [eexists; by rewrite topic_insert_eq|]. intros j J. by rewrite topic_insert_ne.
Qed.

(** The first publisher of an instance gets an empty node with its queue size. *)
Lemma advertise_holds multi qs t0 i t :
  0 <= qs < 256 -> 1 <= max -> orb_advertise_multi max multi qs t0 = Some (i, t) -> t0 !! i = None ->
  related (round_pow_of_two_8 qs) i [] None t (mkSubscription false 0 i).
Proof.
  intros Q M E F. unfold orb_advertise_multi in E.
  destruct (open_advertiser max multi t0) as [[i1 t1]|] eqn:O; [|done]. injection E as -> <-.
  assert (t1 !! i = Some (mark_as_advertised (DeviceNode 1)) /\ 0 <= i <= max - 1) as [T R].
  { unfold open_advertiser in O. destruct multi.
    - unfold advertise in O. destruct (Z.leb_spec max 0); [lia|].
      destruct (claim_loop_spec _ _ _ _ _ _ O) as (B & C & _). split; [|lia].
      unfold claim in C. rewrite F in C. injection C as <-. apply topic_insert_eq.
    - destruct (t0 !! 0) as [n|] eqn:Z0; [injection O as <- _; congruence|].
      unfold advertise in O. cbn [claim_loop] in O. unfold claim in O. rewrite Z0 in O. injection O as <- <-.
      split; [apply topic_insert_eq|lia]. }
  destruct (round_pow_spec qs Q) as ((k & K & E) & _).
  split; [|done|done|done]. unfold set_queue_size, update_queue_size. rewrite T.
  change (nd_queue_size (mark_as_advertised (DeviceNode 1))) with 1.
  change (nd_data (mark_as_advertised (DeviceNode 1))) with (@None (list A)). cbn [orb].
  destruct (Z.eqb_spec 1 qs) as [<-|N].
  - eexists. rewrite topic_insert_eq. split; [done|]. by split.
  - destruct (Z.gtb_spec 1 qs); cbn [orb].
    + assert (qs = 0) as -> by lia. eexists. split; [exact T|]. by split.
    + destruct (Z.gtb_spec qs 255); [lia|]. eexists. rewrite topic_insert_eq. split; [done|]. by split.
Qed.

(** The topic after the messages [h]. *)
Definition published (i : Z) (h : list A) (t : topic A) : topic A :=
  fold_left (fun t x => default t (publish zero false true i x t)) h t.

Lemma published_related q i t s h' : forall h,
  queue_size q -> related q i h None t s -> related q i (h ++ h') None (published i h' t) s.
Proof.
  revert t. induction h' as [|x h' IH]; intros t h Q Re; [by rewrite app_nil_r|].
  destruct (publish_related q i h None t s x Q Re) as (t' & E & Re').
  unfold published. rewrite Prelude.fold_left_cons. rewrite E. rewrite cons_middle, app_assoc. by apply IH.
Qed.

(** A reader constructed before the instance exists has no position yet; one constructed
    after the messages [h] starts with the last of them, or with the first to come. *)
Lemma new_absent t0 i : t0 !! i = None -> Subscription_new max t0 i = mkSubscription false 0 i.
Proof.
  intros F. unfold Subscription_new, subscribe, getDeviceNode, deviceNodeExists. cbn [su_valid su_instance].
  by rewrite F, andb_false_r.
Qed.

Lemma new_related q i t h : queue_size q -> related q i [] None t (mkSubscription false 0 i) ->
  related q i h (Some (position h None)) (published i h t) (Subscription_new max (published i h t) i).
Proof. intros Q Re. apply subscribe_related. exact (published_related q i t _ h [] Q Re). Qed.

(** ** Delivery *)

(** The reader has at most [q] unread messages whenever it reads, and at the end. *)
Fixpoint keeps_up (q : Z) (h : list A) (r : Z) (l : list op) : Prop :=
  match l with
  | [] => len h - r <= q
  | op_publish x :: l => keeps_up q (h ++ [x]) r l
  | op_read :: l => len h - r <= q /\ keeps_up q h (Z.min (r + 1) (len h)) l
  end.

Definition messages (l : list op) : list A := omap (fun o => match o with op_publish x => Some x | op_read => None end) l.

Lemma spec_read_keeps q h r :
  0 <= r <= len h -> len h - r <= q ->
  spec_read q h (Some r) = (if r =? len h then None else h !! Z.to_nat r, Some (Z.min (r + 1) (len h))).
Proof.
  intros R L. unfold spec_read. change (position h (Some r)) with r. cbv zeta. destruct (Z.eqb_spec r (len h)) as [->|N].
  - by rewrite Z.min_r by lia.
  - by rewrite Z.max_l, Z.min_l by lia.
Qed.

Lemma drain q k : forall h r,
  0 <= r <= len h -> len h - r <= q -> len h - r <= Z.of_nat k ->
  omap id (spec_run q h (Some r) (replicate k op_read)) = drop (Z.to_nat r) h.
Proof.
  induction k as [|k IH]; intros h r R L K; cbn [replicate spec_run].
  - rewrite drop_ge; [done|]. unfold len in *. lia.
  - rewrite spec_read_keeps by lia. destruct (Z.eqb_spec r (len h)) as [->|N]; cbn.
    + rewrite IH by lia. f_equal. lia.
    + destruct (lookup_lt_is_Some_2 h (Z.to_nat r)) as [x Hx]; [unfold len in *; lia|].
      rewrite Hx. cbn. rewrite IH by lia. rewrite (drop_S _ _ _ Hx). do 2 f_equal. lia.
Qed.

Lemma delivers q k l : forall h r,
  0 <= r <= len h -> keeps_up q h r l -> q <= Z.of_nat k ->
  omap id (spec_run q h (Some r) (l ++ replicate k op_read)) = drop (Z.to_nat r) (h ++ messages l).
Proof.
  induction l as [|[x|] l IH]; intros h r R K Q.
  - cbn [app messages omap]. rewrite app_nil_r. cbn in K. apply drain; lia.
  - cbn [app spec_run]. rewrite IH; [by rewrite <- app_assoc| |done|done].
    unfold len in *. rewrite length_app. cbn. lia.
  - destruct K as [L K]. cbn [app spec_run]. rewrite spec_read_keeps by lia.
    change (messages (op_read :: l)) with (messages l).
    destruct (Z.eqb_spec r (len h)) as [->|N]; cbn.
    + rewrite IH by (done || lia). f_equal. lia.
    + destruct (lookup_lt_is_Some_2 h (Z.to_nat r)) as [x Hx]; [unfold len in *; lia|].
      rewrite Hx. cbn. rewrite IH by (done || lia).
      rewrite (drop_S (h ++ messages l) x (Z.to_nat r)) by (by apply lookup_app_l_Some). do 2 f_equal. lia.
Qed.

Lemma drain_lag q k : forall h r, q < 2 ^ 32 -> 0 <= r <= len h -> len h - r <= q ->
  lag_ok q h (Some r) (replicate k op_read).
Proof.
  induction k as [|k IH]; intros h r Q R L; [done|]. cbn [replicate lag_ok]. rewrite spec_read_keeps by lia.
  split; [cbn; lia|]. apply IH; lia.
Qed.

Lemma keeps_lag q k l : forall h r,
  q < 2 ^ 32 -> 0 <= r <= len h -> keeps_up q h r l -> lag_ok q h (Some r) (l ++ replicate k op_read).
Proof.
  induction l as [|[x|] l IH]; intros h r Q R K.
  - cbn in K. by apply drain_lag.
  - cbn [app lag_ok]. apply IH; [done| |done]. unfold len in *. rewrite length_app. cbn. lia.
  - destruct K as [L K]. cbn [app lag_ok]. rewrite spec_read_keeps by lia. split; [cbn; lia|]. apply IH; [done|lia|done].
Qed.

(** C4 (refinement). A topic is the list of its messages: after the first publisher has
    advertised an instance, for every interleaving of publications and reads, the reads
    return what a reader of the list returns that takes the messages in order and skips
    those that are more than the queue size behind.  A subscription constructed before the
    instance exists starts with the latest message when it first reads; one constructed
    after the messages [h] starts where its constructor subscribed, with the last of [h],
    or with the first to come when [h] is empty.  The generation may wrap; the reader must
    not be 2^32 messages behind when it reads. *)
Theorem uorb_refines multi qs t0 i t h l (q := round_pow_of_two_8 qs) :
  0 <= qs < 256 -> 1 <= max -> orb_advertise_multi max multi qs t0 = Some (i, t) -> t0 !! i = None ->
  (lag_ok q [] None l ->
   bus_run i t (Subscription_new max t0 i) l = spec_run q [] None l) /\
  (lag_ok q h (Some (position h None)) l ->
   bus_run i (published i h t) (Subscription_new max (published i h t) i) l
   = spec_run q h (Some (position h None)) l).
Proof.
  intros Q M E F. destruct (round_pow_spec qs Q) as (P & _).
  pose proof (advertise_holds multi qs t0 i t Q M E F) as Re.
  split; intros L; (apply run_related; [done| |done]).
  - by rewrite new_absent.
  - by apply new_related.
Qed.

(** C17 (functional). Nothing is lost, doubled or reordered for a reader that subscribes first and then never
    has more unread messages than the queue holds: with the reads that empty the queue at the
    end it gets exactly the published messages. *)
Theorem uorb_delivers_all multi qs t0 i t tc l (q := round_pow_of_two_8 qs) :
  0 <= qs < 256 -> 1 <= max -> orb_advertise_multi max multi qs t0 = Some (i, t) -> t0 !! i = None ->
  tc = t0 \/ tc = t -> keeps_up q [] 0 l ->
  omap id (bus_run i t (Subscription_new max tc i) (op_read :: l ++ replicate (Z.to_nat q) op_read)) = messages l.
Proof.
  intros Q M E F C K. destruct (round_pow_spec qs Q) as (P & _). pose proof (queue_size_bounds q P) as B.
  pose proof (advertise_holds multi qs t0 i t Q M E F) as Re.
  assert (exists r, position [] r = 0 /\ related q i [] r t (Subscription_new max tc i)) as (r & R & Re').
  { destruct C as [->| ->]; [exists None; by rewrite new_absent|].
    exists (Some 0). split; [done|]. exact (new_related q i t [] P Re). }
  assert (spec_read q [] r = (None, Some 0)) as S by (unfold spec_read; rewrite R; done).
  rewrite (run_related q i _ [] r); [|done|done|].
  - cbn [spec_run]. rewrite S. cbn [omap list_omap id].
    rewrite delivers; [by rewrite drop_0|done|done|lia].
  - cbn [lag_ok]. rewrite R, S. split; [done|]. cbn [snd]. apply keeps_lag; [lia|done|done].
Qed.

(** A publisher that asks for an instance of its own gets the lowest one that no other
    publisher owns, the others keep theirs, and it is refused only if all are taken. *)
Theorem advertise_own_instance t :
  0 <= max ->
  match advertise max true (Some 0) t with
  | Some (i, t') => 0 <= i < max /\ ~ owned t i /\ owned t' i /\
                    (forall j, j <> i -> t' !! j = t !! j) /\ (forall j, 0 <= j < i -> owned t j)
  | None => forall j, 0 <= j < max -> owned t j
  end.
Proof.
  intros M. unfold advertise. destruct (Z.leb_spec max 0); [intros j J; lia|].
  destruct (claim_loop _ true true 0 t) as [[i t']|] eqn:E.
  - destruct (claim_loop_spec _ _ _ _ _ _ E) as (B & C & N). destruct (claim_some _ _ _ C) as (O & O' & S).
    split_and!; [lia|lia|done|done|done|]. intros j J. by apply claim_none, N.
  - intros j J. apply claim_none, (claim_loop_none true _ _ _ E). lia.
Qed.

(** [ChangeInstance] asks whether the instance exists that the subscription is about to leave.
    It thus moves to an instance that does not exist and reports success; from there nothing
    can be read, and no other instance can be chosen until that one appears. *)
Theorem change_instance_strands t s i :
  i <> su_instance s -> deviceNodeExists max t (su_instance s) = true -> deviceNodeExists max t i = false ->
  let s' := snd (ChangeInstance max t i s) in
  fst (ChangeInstance max t i s) = true /\ su_copy max t s' = (None, s') /\
  forall j, j <> i -> ChangeInstance max t j s' = (false, s').
Proof.
  intros N E F. unfold ChangeInstance at 1 2. destruct (Z.eqb_spec i (su_instance s)); [done|]. rewrite E.
  assert (forall s0, su_instance s0 = i -> su_valid s0 = false -> subscribe max t s0 = s0) as S.
  { intros s0 I V. unfold subscribe, getDeviceNode. by rewrite V, I, F. }
  rewrite S by done. cbn [fst snd]. set (s' := (unsubscribe s) <| su_instance := i |>).
  split; [done|]. split.
  - unfold su_copy, su_read. rewrite S by done. done.
  - intros j J. unfold ChangeInstance. change (su_instance s') with i. destruct (Z.eqb_spec j i); [done|].
    by rewrite F.
Qed.

(** ** Rates *)

(** A poll at a time, with the topic as it is then. *)
Fixpoint polls (l : list (Z * topic A)) (s : SubscriptionInterval) : list (option A) * SubscriptionInterval :=
  match l with
  | [] => ([], s)
  | (now, t) :: l =>
      let '(y, s) := si_update max now t s in
      let '(ys, s) := polls l s in (y :: ys, s)
  end.

Fixpoint times_from (t0 : Z) (l : list (Z * topic A)) : Prop :=
  match l with [] => True | (now, _) :: l => t0 <= now < 2 ^ 64 /\ times_from now l end.

Definition last_time (t0 : Z) (l : list (Z * topic A)) : Z := default t0 (fst <$> last l).

Lemma update_interval now t s :
  0 <= si_last_update s <= now -> now < 2 ^ 64 -> 0 <= si_interval_us s ->
  let '(y, s') := si_update max now t s in
  si_interval_us s' = si_interval_us s /\
  si_last_update s' <= now /\
  si_last_update s + (match y with Some _ => si_interval_us s | None => 0 end) <= si_last_update s'.
Proof.
  intros L T I. unfold si_update, si_updated.
  destruct (su_advertised max t (si_subscription s)) as [adv sub].
  set (s1 := s <| si_subscription := sub |>).
  assert (si_interval_us s1 = si_interval_us s /\ si_last_update s1 = si_last_update s) as [I1 L1] by done.
  rewrite <- I1 in I |- *. rewrite <- L1 in L |- *. clearbody s1. clear I1 L1.
  destruct (adv && _) eqn:E; [|cbn; lia]. apply andb_true_iff in E as [_ E].
  rewrite wrap_small in E by (unfold fits; lia). apply Z.leb_le in E.
  destruct (su_updated max t sub) as [r sub']. set (s2 := s1 <| si_subscription := sub' |>).
  assert (si_interval_us s2 = si_interval_us s1 /\ si_last_update s2 = si_last_update s1) as [I2 L2] by done.
  rewrite <- I2 in I, E |- *. rewrite <- L2 in L, E |- *. clearbody s2. clear I2 L2.
  destruct r; [|cbn; lia]. unfold si_copy. destruct (su_copy max t (si_subscription s2)) as [[x|] sub''];
    cbn; unfold RecordSettersUsingExistingGetters.const; [|lia].
  split; [done|]. unfold u64_constrain. rewrite !wrap_small by (unfold fits; lia).
  destruct (Z.ltb_spec (si_last_update s2 + si_interval_us s2) (now - si_interval_us s2)); [lia|].
  destruct (Z.gtb_spec (si_last_update s2 + si_interval_us s2) now); lia.
Qed.

Definition delivered (ys : list (option A)) : Z := len (omap id ys).

(** The interval limits the rate: over any sequence of polls, [n] messages take at least [n]
    intervals from the last update on. *)
Theorem interval_limits_rate l start s :
  0 <= si_last_update s <= start -> 0 <= si_interval_us s -> times_from start l ->
  delivered (fst (polls l s)) * si_interval_us s <= last_time start l - si_last_update s.
Proof.
  intros L I T.
  assert (si_last_update s + delivered (fst (polls l s)) * si_interval_us s <= si_last_update (snd (polls l s))
    <= last_time start l) as H; [|lia].
  revert start s L I T. induction l as [|[now t] l IH]; intros start s L I T.
  - cbn. unfold delivered, len. cbn. lia.
  - destruct T as [T0 T]. cbn [polls]. pose proof (update_interval now t s ltac:(lia) ltac:(lia) I) as U.
    destruct (si_update max now t s) as [y s']. destruct U as (E & U1 & U2).
    specialize (IH now s' ltac:(case_match; lia) ltac:(lia) T).
    destruct (polls l s') as [ys s'']. cbn [fst snd] in *. rewrite E in IH.
    assert (last_time start ((now, t) :: l) = last_time now l) as ->.
    { unfold last_time. destruct l as [|p l]; [done|]. rewrite last_cons_cons.
      destruct (last (p :: l)) eqn:X; [done|]. by apply last_None in X. }
    unfold delivered, len in *. destruct y; cbn in *; lia.
Qed.

End Bus.

(** ** A topic with a queue of four *)

Definition numbers : topic Z := default ∅ (snd <$> orb_advertise_multi 10 false 3 ∅).

Lemma numbers_advertised : orb_advertise_multi 10 false 3 (∅ : topic Z) = Some (0, numbers).
Proof. reflexivity. Qed.

(** The reader subscribes late, keeps up, then falls behind and loses two messages. *)
Definition late_reader : list (op (A := Z)) :=
  [op_publish 1; op_publish 2; op_read; op_read; op_publish 3; op_publish 4; op_publish 5; op_publish 6;
   op_publish 7; op_publish 8; op_read; op_read; op_read; op_read; op_read].

(** The same run for a subscription constructed before the topic is advertised, which
    starts with the latest message; for one constructed on the empty topic, which starts
    with the first; and for one constructed after two other messages. *)
Lemma uorb_refines_witness :
  bus_run 0 10 0 numbers (Subscription_new 10 (∅ : topic Z) 0) late_reader
  = [Some 2; None; Some 5; Some 6; Some 7; Some 8; None] /\
  bus_run 0 10 0 numbers (Subscription_new 10 numbers 0) late_reader
  = [Some 1; Some 2; Some 5; Some 6; Some 7; Some 8; None] /\
  bus_run 0 10 0 (published 0 0 [11; 12] numbers) (Subscription_new 10 (published 0 0 [11; 12] numbers) 0)
    [op_publish 1; op_read; op_read; op_read] = [Some 12; Some 1; None].
Proof.
  assert (0 <= 3 < 256) as Q by lia. assert (1 <= 10) as M by lia.
  pose proof (fun h l => uorb_refines 0 10 false 3 ∅ 0 numbers h l Q M numbers_advertised eq_refl) as R.
  split_and!.
  - etransitivity; [apply (proj1 (R [] late_reader)); vm_compute; repeat split|reflexivity].
  - etransitivity; [apply (proj2 (R [] late_reader)); vm_compute; repeat split|reflexivity].
  - etransitivity; [apply (proj2 (R [11; 12] _)); vm_compute; repeat split|reflexivity].
Defined.

Lemma uorb_delivers_all_witness :
  omap id (bus_run 0 10 0 numbers (Subscription_new 10 (∅ : topic Z) 0)
    (op_read :: [op_publish 1; op_publish 2; op_read; op_publish 3; op_publish 4] ++ replicate 4 op_read)) = [1; 2; 3; 4].
Proof.
  apply (uorb_delivers_all 0 10 false 3 ∅ 0 numbers ∅ [op_publish 1; op_publish 2; op_read; op_publish 3; op_publish 4]).
  - lia.
  - lia.
  - apply numbers_advertised.
  - reflexivity.
  - by left.
  - vm_compute. split; discriminate.
Defined.

Lemma advertise_own_instance_witness :
  exists t, advertise 10 true (Some 0) numbers = Some (1, t) /\ ~ owned numbers 1 /\ owned t 1.
Proof.
  pose proof (advertise_own_instance 10 numbers ltac:(lia)) as H. revert H.
  destruct (advertise 10 true (Some 0) numbers) as [[i t]|] eqn:E; [|vm_compute in E; discriminate].
  assert (i = 1) as -> by (vm_compute in E; congruence). intros (_ & N & O & _). exists t. done.
Defined.

Lemma change_instance_strands_witness :
  let s := snd (ChangeInstance 10 numbers 1 (Subscription_new 10 numbers 0)) in ChangeInstance 10 numbers 0 s = (false, s).
Proof.
  apply (change_instance_strands 10 numbers (Subscription_new 10 numbers 0) 1); [discriminate|reflexivity|reflexivity|discriminate].
Defined.

(** Messages every 100 us, read at most every 250 us. *)
Definition numbers_at (n : Z) : topic Z :=
  fold_left (fun t x => default t (publish 0 false true 0 x t)) (Z.of_nat <$> seq 0 (Z.to_nat n)) numbers.

Lemma interval_limits_rate_witness :
  let l := (fun i => (1000 + 100 * i, numbers_at (i + 1))) <$> [0; 1; 2; 3; 4; 5] in
  let s := mkInterval (Subscription_new 10 numbers 0) 500 250 in
  delivered (fst (polls 10 l s)) = 4 /\ 4 * 250 <= last_time 1000 l - 500.
Proof.
  intros l s. assert (delivered (fst (polls 10 l s)) = 4) as E by (vm_compute; reflexivity). split; [done|].
  rewrite <- E. apply (interval_limits_rate 10 l 1000 s).
  - vm_compute. split; discriminate.
  - vm_compute. discriminate.
  - vm_compute. repeat split; discriminate.
Defined.

End UorbSpec.
