(* ===== verification/ManualControl.v ===== *)
(** * Manual control

    src/src/modules/manual_control: the selector that chooses one of the pilot's inputs
    (ManualControlSelector.cpp), the detection of moving sticks (MovingDiff.hpp), and the work
    item that turns stick gestures and switch changes into requests to the commander
    (ManualControl.cpp).  What a run publishes is a list in the order of the code.  The flaps
    and auxiliary channels, which are passed through, and the callbacks that schedule the work
    item are left out. *)
From coqutil Require Import Datatypes.RecordSettersUsingExistingGetters.
From S2P Require Import Prelude Float32 Takeoff AttModule NavState ArmState Commander CommanderLoop.
Import NavState ArmState Commander CommanderLoop.
Local Open Scope Z_scope.

Module ManualControl.

(** ** Data *)

Record manual_control_setpoint := mkSetpoint {
  sp_timestamp : Z;
  sp_timestamp_sample : Z;
  sp_valid : bool;
  sp_data_source : Z;
  sp_x : f32; sp_y : f32; sp_z : f32; sp_r : f32;
  sp_sticks_moving : bool
}.

Definition SOURCE_UNKNOWN : Z := 0.
Definition SOURCE_RC : Z := 1.
Definition SOURCE_MAVLINK_0 : Z := 2.
Definition SOURCE_MAVLINK_5 : Z := 7.

(** A switch position: none, on, middle, off. *)
Definition SWITCH_POS_NONE : Z := 0.
Definition SWITCH_POS_ON : Z := 1.
Definition SWITCH_POS_MIDDLE : Z := 2.
Definition SWITCH_POS_OFF : Z := 3.

Record manual_control_switches := mkSwitches {
  mode_slot : Z;
  arm_switch : Z;
  return_switch : Z;
  loiter_switch : Z;
  offboard_switch : Z;
  kill_switch_pos : Z;                  (** kill_switch *)
  gear_switch : Z;
  transition_switch : Z;
  photo_switch : Z;
  video_switch : Z
}.

(** ** The selector *)

Record selector := mkSelector {
  sel_setpoint : manual_control_setpoint;
  sel_timeout : Z;
  sel_rc_in_mode : Z;
  sel_instance : Z;
  sel_first_valid_source : Z
}.

Definition source_matched (s : selector) (src : Z) : bool :=
  ((sel_rc_in_mode s =? 0) && (src =? SOURCE_RC))
  || ((sel_rc_in_mode s =? 1) && (SOURCE_MAVLINK_0 <=? src) && (src <=? SOURCE_MAVLINK_5))
  || (sel_rc_in_mode s =? 2)
  || ((sel_rc_in_mode s =? 3)
      && ((src =? sel_first_valid_source s) || (sel_first_valid_source s =? SOURCE_UNKNOWN))).

Definition fresh (s : selector) (sample now : Z) : bool :=
  (sample <=? now) && (u64 (now - sample) <? sel_timeout s).

Definition isInputValid (s : selector) (input : manual_control_setpoint) (now : Z) : bool :=
  fresh s (sp_timestamp_sample input) now && source_matched s (sp_data_source input).

Definition updateValidityOfChosenInput (now : Z) (s : selector) : selector :=
  if isInputValid s (sel_setpoint s) now then s
  else s <| sel_setpoint := (sel_setpoint s) <| sp_valid := false |> |> <| sel_instance := -1 |>.

Definition updateWithNewInputSample (now : Z) (input : manual_control_setpoint) (instance : Z) (s : selector)
  : selector :=
  let s := updateValidityOfChosenInput now s in
  let update_existing_input := sp_valid (sel_setpoint s)
                               && (sp_data_source input =? sp_data_source (sel_setpoint s)) in
  let start_using_new_input := negb (sp_valid (sel_setpoint s)) in
  if isInputValid s input now && (update_existing_input || start_using_new_input) then
    let s := s <| sel_setpoint := input <| sp_valid := true |> |> <| sel_instance := instance |> in
    if sel_first_valid_source s =? SOURCE_UNKNOWN
    then s <| sel_first_valid_source := sp_data_source (sel_setpoint s) |> else s
  else s.

(** ** Moving sticks *)

Record MovingDiff := mkDiff { md_filter : AlphaFilter; md_last_value : f32 }.

Definition md_new : MovingDiff := mkDiff (mkAlphaFilter f0 f0) fnan.

Definition md_update (value dt_s : f32) (d : MovingDiff) : f32 * MovingDiff :=
  if negb (PX4_ISFINITE value) || flt dt_s FLT_EPSILON then (fnan, d)
  else
    let f := af_setParameters dt_s (flit 1 10) (md_filter d) in
    let f := if PX4_ISFINITE (md_last_value d)
             then af_update (fdiv (fsub value (md_last_value d)) dt_s) f else f in
    (af_state f, mkDiff f value).

Definition md_reset (d : MovingDiff) : MovingDiff := mkDiff (af_reset f0 (md_filter d)) fnan.

(** ** The work item *)

Record manual_params := mkManualParams {
  man_arm_gesture : bool;
  com_arm_swisbtn : bool;
  com_rc_stick_ov : f32;
  com_fltmode : Z -> Z                  (** COM_FLTMODE1 to 6 *)
}.

(** The parameters that are stored on an update. *)
Record stored_params := mkStored {
  com_rc_arm_hyst : Z;
  com_rc_in_mode : Z;
  com_rc_loss_t : f32
}.

Record manual_control := mkManualControl {
  mn_selector : selector;
  mn_published_invalid_once : bool;
  mn_x_diff : MovingDiff;
  mn_y_diff : MovingDiff;
  mn_z_diff : MovingDiff;
  mn_r_diff : MovingDiff;
  mn_stick_arm : Hysteresis;
  mn_stick_disarm : Hysteresis;
  mn_button : Hysteresis;
  mn_previous_switches : manual_control_switches;
  mn_previous_switches_initialized : bool;
  mn_last_time : Z;
  mn_image_sequence : Z;
  mn_video_recording : bool
}.

Inductive published :=
| pub_request (a : action_t) (s : action_source)
| pub_landing_gear (up : bool)
| pub_camera_mode (video : bool)
| pub_photo (sequence : Z)
| pub_video (start : bool)
| pub_setpoint (sp : manual_control_setpoint).

Definition main_state_of_code (v : Z) : main_state_t :=
  if v =? 0 then MAIN_STATE_MANUAL else if v =? 1 then MAIN_STATE_ALTCTL
  else if v =? 2 then MAIN_STATE_POSCTL else if v =? 3 then MAIN_STATE_AUTO_MISSION
  else if v =? 4 then MAIN_STATE_AUTO_LOITER else if v =? 5 then MAIN_STATE_AUTO_RTL
  else if v =? 6 then MAIN_STATE_ACRO else if v =? 7 then MAIN_STATE_OFFBOARD
  else if v =? 8 then MAIN_STATE_STAB else if v =? 10 then MAIN_STATE_AUTO_TAKEOFF
  else if v =? 11 then MAIN_STATE_AUTO_LAND else if v =? 12 then MAIN_STATE_AUTO_FOLLOW_TARGET
  else if v =? 13 then MAIN_STATE_AUTO_PRECLAND else if v =? 14 then MAIN_STATE_ORBIT
  else if v =? 15 then MAIN_STATE_AUTO_VTOL_TAKEOFF else if v =? 16 then MAIN_STATE_MAX
  else MAIN_STATE_OTHER v.

Definition s8 (v : Z) : Z := if u8 v <? 128 then u8 v else u8 v - 256.

(** [sendActionRequest] with a mode; unassigned slots are -1. *)
Definition request_mode (mode : Z) (s : action_source) : list published :=
  if s8 mode <? 0 then [] else [pub_request (ACTION_SWITCH_MODE (main_state_of_code (s8 mode))) s].

Definition evaluateModeSlot (p : manual_params) (slot : Z) : list published :=
  if (1 <=? slot) && (slot <=? 6) then request_mode (com_fltmode p slot) SOURCE_RC_MODE_SLOT else [].

(** The gestures of both sticks in the lower corners. *)
Definition right_stick_centered (i : manual_control_setpoint) : bool :=
  flt (fabs (sp_x i)) (flit 1 10) && flt (fabs (sp_y i)) (flit 1 10).
Definition left_stick_lower_right (i : manual_control_setpoint) : bool :=
  flt (sp_z i) (flit 1 10) && fgt (sp_r i) (flit 9 10).
Definition left_stick_lower_left (i : manual_control_setpoint) : bool :=
  flt (sp_z i) (flit 1 10) && flt (sp_r i) (fneg (flit 9 10)).

Definition rising (before after : Hysteresis) : bool := negb (hy_state before) && hy_state after.

Definition processStickArming (p : manual_params) (i : manual_control_setpoint) (m : manual_control)
  : list published * manual_control :=
  let arm := set_state_and_update (left_stick_lower_right i && right_stick_centered i) (sp_timestamp i) (mn_stick_arm m) in
  let disarm := set_state_and_update (left_stick_lower_left i && right_stick_centered i) (sp_timestamp i)
                  (mn_stick_disarm m) in
  ((if man_arm_gesture p && rising (mn_stick_arm m) arm then [pub_request ACTION_ARM SOURCE_RC_STICK_GESTURE] else [])
   ++ (if man_arm_gesture p && rising (mn_stick_disarm m) disarm
       then [pub_request ACTION_DISARM SOURCE_RC_STICK_GESTURE] else []),
   m <| mn_stick_arm := arm |> <| mn_stick_disarm := disarm |>).

(** Whether the sticks move.  The disjunction stops at the first axis that does, and the
    filters behind it are not updated. *)
Definition sticks_moving (now : Z) (p : manual_params) (m : manual_control) : bool * manual_control :=
  let sp := sel_setpoint (mn_selector m) in
  let dt_s := fdiv (f32_of_Z (u64 (now - mn_last_time m))) (f32_of_Z 1000000) in
  let minimum := fmul (flit 1 100) (com_rc_stick_ov p) in
  let '(dx, x) := md_update (sp_x sp) dt_s (mn_x_diff m) in
  let m := m <| mn_x_diff := x |> in
  let '(rpy_moving, m) :=
    if fgt (fabs dx) minimum then (true, m)
    else
      let '(dy, y) := md_update (sp_y sp) dt_s (mn_y_diff m) in
      let m := m <| mn_y_diff := y |> in
      if fgt (fabs dy) minimum then (true, m)
      else
        let '(dr, r) := md_update (sp_r sp) dt_s (mn_r_diff m) in
        (fgt (fabs dr) minimum, m <| mn_r_diff := r |>) in
  let '(dz, z) := md_update (sp_z sp) dt_s (mn_z_diff m) in
  (rpy_moving || fgt (fmul (fabs dz) (f32_of_Z 2)) minimum, m <| mn_z_diff := z |>).

(** *** Switches *)

Definition changed_to (pos : Z) (new old : Z) : bool := negb (new =? old) && (new =? pos).

(** A two-position switch that selects a mode and otherwise returns to the slot. *)
Definition mode_switch (p : manual_params) (mode slot new old : Z) : list published :=
  if changed_to SWITCH_POS_ON new old then request_mode mode SOURCE_RC_SWITCH
  else if changed_to SWITCH_POS_OFF new old then evaluateModeSlot p slot else [].

Definition on_off (on off : list published) (new old : Z) : list published :=
  if changed_to SWITCH_POS_ON new old then on else if changed_to SWITCH_POS_OFF new old then off else [].

Definition request_switch (a : action_t) : list published := [pub_request a SOURCE_RC_SWITCH].

Definition arm_button (now : Z) (sw : manual_control_switches) (m : manual_control)
  : list published * manual_control :=
  let b := set_state_and_update (arm_switch sw =? SWITCH_POS_ON) now (mn_button m) in
  (if rising (mn_button m) b then [pub_request ACTION_TOGGLE_ARMING SOURCE_RC_BUTTON] else [],
   m <| mn_button := b |>).

(** The requests for the commander, after the mode slot and the arming switch. *)
Definition switch_requests (p : manual_params) (sw old : manual_control_switches) : list published :=
  mode_switch p 5 (mode_slot sw) (return_switch sw) (return_switch old)
  ++ mode_switch p 4 (mode_slot sw) (loiter_switch sw) (loiter_switch old)
  ++ mode_switch p 7 (mode_slot sw) (offboard_switch sw) (offboard_switch old)
  ++ on_off (request_switch ACTION_KILL) (request_switch ACTION_UNKILL) (kill_switch_pos sw) (kill_switch_pos old)
  ++ (if gear_switch old =? SWITCH_POS_NONE then []
      else on_off [pub_landing_gear true] [pub_landing_gear false] (gear_switch sw) (gear_switch old))
  ++ on_off (request_switch ACTION_VTOL_TRANSITION_TO_FIXEDWING) (request_switch ACTION_VTOL_TRANSITION_TO_MULTICOPTER)
       (transition_switch sw) (transition_switch old).

Definition camera_switches (sw : manual_control_switches) (m : manual_control) : list published * manual_control :=
  let old := mn_previous_switches m in
  let '(o1, m) := if changed_to SWITCH_POS_ON (photo_switch sw) (photo_switch old)
                  then ([pub_camera_mode false; pub_photo (mn_image_sequence m)],
                        m <| mn_image_sequence := u32 (mn_image_sequence m + 1) |>)
                  else ([], m) in
  if changed_to SWITCH_POS_ON (video_switch sw) (video_switch old)
  then (o1 ++ [pub_camera_mode true; pub_video (negb (mn_video_recording m))],
        m <| mn_video_recording := negb (mn_video_recording m) |>)
  else (o1, m).

Definition switches_changed (now : Z) (p : manual_params) (sw : manual_control_switches) (m : manual_control)
  : list published * manual_control :=
  let old := mn_previous_switches m in
  let slot := if mode_slot sw =? mode_slot old then [] else evaluateModeSlot p (mode_slot sw) in
  let '(arming, m) :=
    if com_arm_swisbtn p then arm_button now sw m
    else (on_off (request_switch ACTION_ARM) (request_switch ACTION_DISARM) (arm_switch sw) (arm_switch old), m) in
  let '(camera, m) := camera_switches sw m in
  (slot ++ arming ++ switch_requests p sw old ++ camera, m).

(** Switches count only while the chosen input is the radio. *)
Definition processSwitches (now : Z) (p : manual_params) (sw : manual_control_switches) (m : manual_control)
  : list published * manual_control :=
  if sp_data_source (sel_setpoint (mn_selector m)) =? SOURCE_RC then
    let '(o, m) := if mn_previous_switches_initialized m then switches_changed now p sw m
                   else (evaluateModeSlot p (mode_slot sw), m) in
    (o, m <| mn_previous_switches_initialized := true |> <| mn_previous_switches := sw |>)
  else ([], m <| mn_previous_switches_initialized := false |>).

(** *** Run *)

Definition store_params (q : stored_params) (m : manual_control) : manual_control :=
  let t := u64 (com_rc_arm_hyst q * 1000) in
  m <| mn_stick_arm := set_hysteresis_time_from false t (mn_stick_arm m) |>
    <| mn_stick_disarm := set_hysteresis_time_from false t (mn_stick_disarm m) |>
    <| mn_button := set_hysteresis_time_from false t (mn_button m) |>
    <| mn_selector := (mn_selector m) <| sel_rc_in_mode := com_rc_in_mode q |>
                        <| sel_timeout := seconds (com_rc_loss_t q) |> |>.

(** The inputs that have a new sample, in the order of their instances. *)
Definition select_inputs (now : Z) (inputs : list (Z * manual_control_setpoint)) (s : selector) : selector :=
  fold_left (fun s '(i, input) => updateWithNewInputSample now input i s) inputs
    (updateValidityOfChosenInput now s).

Definition on_setpoint (g : manual_control_setpoint -> manual_control_setpoint) (m : manual_control) : manual_control :=
  m <| mn_selector := (mn_selector m) <| sel_setpoint := g (sel_setpoint (mn_selector m)) |> |>.

Definition run_valid (now : Z) (p : manual_params) (switches : option manual_control_switches) (m : manual_control)
  : list published * manual_control :=
  let m := m <| mn_published_invalid_once := false |> in
  let '(o1, m) := processStickArming p (sel_setpoint (mn_selector m)) m in
  let '(moving, m) := sticks_moving now p m in
  let m := on_setpoint (fun sp => sp <| sp_sticks_moving := moving |>) m in
  let '(o2, m) := match switches with Some sw => processSwitches now p sw m | None => ([], m) end in
  let m := on_setpoint (fun sp => sp <| sp_timestamp := now |>) m in
  (o1 ++ o2 ++ [pub_setpoint (sel_setpoint (mn_selector m))], m).

Definition run_invalid (now : Z) (m : manual_control) : list published * manual_control :=
  let o := if mn_published_invalid_once m then [] else [pub_setpoint (sel_setpoint (mn_selector m))] in
  (o, m <| mn_published_invalid_once := true |>
        <| mn_x_diff := md_reset (mn_x_diff m) |> <| mn_y_diff := md_reset (mn_y_diff m) |>
        <| mn_z_diff := md_reset (mn_z_diff m) |> <| mn_r_diff := md_reset (mn_r_diff m) |>
        <| mn_stick_arm := set_state_and_update false now (mn_stick_arm m) |>
        <| mn_stick_disarm := set_state_and_update false now (mn_stick_disarm m) |>
        <| mn_button := set_state_and_update false now (mn_button m) |>).

Record run_in := mkRun {
  ri_now : Z;
  ri_params : manual_params;
  ri_update : option stored_params;
  ri_inputs : list (Z * manual_control_setpoint);
  ri_switches : option manual_control_switches
}.

Definition Run (i : run_in) (m : manual_control) : list published * manual_control :=
  let m := match ri_update i with Some q => store_params q m | None => m end in
  let m := m <| mn_selector := select_inputs (ri_now i) (ri_inputs i) (mn_selector m) |> in
  let '(o, m) := if sp_valid (sel_setpoint (mn_selector m)) then run_valid (ri_now i) (ri_params i) (ri_switches i) m
                 else run_invalid (ri_now i) m in
  (o, m <| mn_last_time := ri_now i |>).

(** ** What the commander receives *)

(** The action_request topic holds one message: of what a run publishes, the commander sees
    the last request. *)
Definition newest (o : list published) : option (action_source * action_t) :=
  fold_left (fun r x => match x with pub_request a s => Some (s, a) | _ => r end) o None.

Definition receive (now : Z) (k : sensor_checks) (p : com_params) (o : list published) (c : commander) : commander :=
  match newest o with Some (s, a) => executeActionRequest now k p s a c | None => c end.

Definition manual_of (sp : manual_control_setpoint) : manual_in :=
  mkManual (sp_valid sp) (sp_z sp) (sp_sticks_moving sp) (SOURCE_RC <? sp_data_source sp).

(** ** Start *)

Definition no_setpoint : manual_control_setpoint := mkSetpoint 0 0 false SOURCE_UNKNOWN f0 f0 f0 f0 false.
Definition no_switches : manual_control_switches := mkSwitches 0 0 0 0 0 0 0 0 0 0.

Definition manual_initial : manual_control :=
  mkManualControl (mkSelector no_setpoint 0 0 (-1) SOURCE_UNKNOWN) false md_new md_new md_new md_new
    (Hysteresis_new false) (Hysteresis_new false) (Hysteresis_new false) no_switches false 0 0 false.

End ManualControl.
