(* ===== verification/ManualControlSpec.v ===== *)
(** * From the pilot's switches to the commander

    The input that the selector publishes is fresh and of a permitted source, and is kept as
    long as it is fresh; a lost input is reported and makes the commander mark the radio as
    lost; the kill switch reaches the commander and disarms the vehicle.  Only a change of the
    kill switch counts, and one that moves together with the transition switch is overwritten
    in the topic, which holds one message. *)
From coqutil Require Import Datatypes.RecordSettersUsingExistingGetters.
From S2P Require Import Prelude Float32 Takeoff AttModule NavState ArmState Commander CommanderLoop.
From S2P Require Import NavStateSpec ArmStateSpec CommanderSpec CommanderClaims Uorb UorbSpec ManualControl.
Import NavState ArmState Commander CommanderLoop NavStateSpec CommanderSpec CommanderClaims ManualControl.
Local Open Scope Z_scope.

Module ManualControlSpec.

(** ** The selector *)

(** What is chosen as valid is valid now. *)
Definition sound (now : Z) (s : selector) : Prop :=
  sp_valid (sel_setpoint s) = true -> isInputValid s (sel_setpoint s) now = true.

Lemma validity_sound now s : sound now (updateValidityOfChosenInput now s).
Proof. unfold updateValidityOfChosenInput, sound. by destruct (isInputValid s (sel_setpoint s) now) eqn:E. Qed.

(** Choosing a source for the first time does not exclude it. *)
Lemma first_source_valid now s sp :
  isInputValid s sp now = true ->
  isInputValid (s <| sel_first_valid_source := sp_data_source sp |>) sp now = true.
Proof.
  unfold isInputValid, fresh, source_matched. cbn. unfold RecordSettersUsingExistingGetters.const.
  rewrite Z.eqb_refl. rewrite !andb_true_iff, !orb_true_iff, !andb_true_iff. tauto.
Qed.

Lemma sample_sound now input i s : sound now (updateWithNewInputSample now input i s).
Proof.
  unfold updateWithNewInputSample. pose proof (validity_sound now s) as S.
  set (s1 := updateValidityOfChosenInput now s) in *. clearbody s1. cbv zeta.
  destruct (isInputValid s1 input now) eqn:V; [|done]. destruct (_ || _); [|done]. cbn [andb].
  intros _. case_match.
  - apply (first_source_valid now (s1 <| sel_setpoint := input <| sp_valid := true |> |> <| sel_instance := i |>)
      (input <| sp_valid := true |>)). exact V.
  - exact V.
Qed.

Lemma select_sound now l s : sound now (select_inputs now l s).
Proof.
  unfold select_inputs. pose proof (validity_sound now s) as S. revert S.
  generalize (updateValidityOfChosenInput now s). induction l as [|[i x] l IH]; intros s0 S; [done|].
  apply IH, sample_sound.
Qed.

(** While the chosen input is valid nobody takes over. *)
Definition holds (now src : Z) (s : selector) : Prop :=
  sp_valid (sel_setpoint s) = true /\ sp_data_source (sel_setpoint s) = src /\ isInputValid s (sel_setpoint s) now = true.

Lemma validity_holds now src s : holds now src s -> updateValidityOfChosenInput now s = s.
Proof. intros (_ & _ & V). unfold updateValidityOfChosenInput. by rewrite V. Qed.

Lemma sample_holds now src input i s : holds now src s -> holds now src (updateWithNewInputSample now input i s).
Proof.
  intros H. pose proof (sample_sound now input i s) as S. unfold updateWithNewInputSample in *.
  rewrite (validity_holds _ _ _ H) in *. destruct H as (V & E & I). cbv zeta in *.
  rewrite V in *. rewrite orb_false_r in *. cbn [andb] in *.
  destruct (isInputValid s input now && (sp_data_source input =? sp_data_source (sel_setpoint s))) eqn:B; [|done].
  apply andb_true_iff in B as [_ B]. apply Z.eqb_eq in B. rewrite E in B.
  split_and!; [by case_match|by case_match|]. apply S. by case_match.
Qed.

Lemma select_holds now src l s : holds now src s -> holds now src (select_inputs now l s).
Proof.
  intros H. unfold select_inputs. rewrite (validity_holds _ _ _ H). revert s H.
  induction l as [|[i x] l IH]; intros s H; [done|]. by apply IH, sample_holds.
Qed.

(** ** What a run publishes *)

(** A command; one that kills only if [kill]. *)
Definition is_command (kill : bool) (x : published) : Prop :=
  match x with pub_setpoint _ => False | pub_request ACTION_KILL _ => kill = true | _ => True end.

(** The selector after the inputs of a run. *)
Definition selected (i : run_in) (m : manual_control) : manual_control :=
  let m := match ri_update i with Some q => store_params q m | None => m end in
  m <| mn_selector := select_inputs (ri_now i) (ri_inputs i) (mn_selector m) |>.

Lemma Run_unfold i m :
  Run i m =
    let r := if sp_valid (sel_setpoint (mn_selector (selected i m)))
             then run_valid (ri_now i) (ri_params i) (ri_switches i) (selected i m)
             else run_invalid (ri_now i) (selected i m) in
    (fst r, (snd r) <| mn_last_time := ri_now i |>).
Proof.
  unfold Run. cbv zeta. fold (selected i m). destruct (sp_valid _).
  - by destruct (run_valid _ _ _ _).
  - by destruct (run_invalid _ _).
Qed.

Lemma on_off_same on off pos : on_off on off pos pos = [].
Proof. unfold on_off, changed_to. by rewrite Z.eqb_refl. Qed.

Section Commands.
Context (kill : bool).

Lemma sticks_commands p i m : Forall (is_command kill) (fst (processStickArming p i m)).
Proof. unfold processStickArming. cbn [fst]. repeat case_match; repeat constructor. Qed.

Lemma sticks_selector p i m : mn_selector (snd (processStickArming p i m)) = mn_selector m.
Proof. done. Qed.

Lemma moving_selector now p m : mn_selector (snd (sticks_moving now p m)) = mn_selector m.
Proof. unfold sticks_moving. by repeat case_match; simplify_eq/=. Qed.

Lemma moving_switches now p m :
  mn_previous_switches (snd (sticks_moving now p m)) = mn_previous_switches m /\
  mn_previous_switches_initialized (snd (sticks_moving now p m)) = mn_previous_switches_initialized m.
Proof. unfold sticks_moving. by repeat case_match; simplify_eq/=. Qed.

Lemma mode_commands mode src : Forall (is_command kill) (request_mode mode src).
Proof. unfold request_mode. case_match; repeat constructor. Qed.

Lemma slot_commands p slot : Forall (is_command kill) (evaluateModeSlot p slot).
Proof. unfold evaluateModeSlot. case_match; [apply mode_commands|constructor]. Qed.

Lemma mode_switch_commands p mode slot new old : Forall (is_command kill) (mode_switch p mode slot new old).
Proof. unfold mode_switch. repeat case_match; first [apply mode_commands | apply slot_commands | constructor]. Qed.

Lemma on_off_commands on off new old :
  Forall (is_command kill) on -> Forall (is_command kill) off -> Forall (is_command kill) (on_off on off new old).
Proof. intros A B. unfold on_off. repeat case_match; done || constructor. Qed.

Definition may_kill (sw old : manual_control_switches) : Prop :=
  kill = true \/ kill_switch_pos sw = kill_switch_pos old.

Lemma request_commands p sw old : may_kill sw old -> Forall (is_command kill) (switch_requests p sw old).
Proof.
  intros [K|K]; unfold switch_requests; repeat (apply Forall_app; split); try apply mode_switch_commands;
    try (apply on_off_commands; repeat constructor; done);
    try (case_match; [constructor|apply on_off_commands; repeat constructor]).
  rewrite K, on_off_same. constructor.
Qed.

Lemma camera_frame sw m :
  Forall (is_command kill) (fst (camera_switches sw m)) /\ mn_selector (snd (camera_switches sw m)) = mn_selector m.
Proof. unfold camera_switches. repeat case_match; simplify_eq/=; split; try done; repeat constructor. Qed.

Lemma switches_changed_frame now p sw m :
  may_kill sw (mn_previous_switches m) ->
  Forall (is_command kill) (fst (switches_changed now p sw m)) /\
  mn_selector (snd (switches_changed now p sw m)) = mn_selector m.
Proof.
  intros K. unfold switches_changed.
  assert (exists o m1, (if com_arm_swisbtn p then arm_button now sw m
    else (on_off (request_switch ACTION_ARM) (request_switch ACTION_DISARM) (arm_switch sw)
            (arm_switch (mn_previous_switches m)), m)) = (o, m1)
    /\ Forall (is_command kill) o /\ mn_selector m1 = mn_selector m) as (o & m1 & -> & C & S).
  { destruct (com_arm_swisbtn p); unfold arm_button; eexists _, _; (split; [reflexivity|]); (split; [|reflexivity]).
    - case_match; repeat constructor.
    - apply on_off_commands; repeat constructor. }
  destruct (camera_frame sw m1) as [C' S']. destruct (camera_switches sw m1) as [o' m2]. cbn [fst snd] in *.
  split; [|by rewrite S'].
  apply Forall_app; split; [case_match; [constructor|apply slot_commands]|].
  apply Forall_app; split; [done|]. apply Forall_app; split; [by apply request_commands|done].
Qed.

Lemma switches_frame now p sw m :
  (mn_previous_switches_initialized m = true -> may_kill sw (mn_previous_switches m)) ->
  Forall (is_command kill) (fst (processSwitches now p sw m)) /\
  mn_selector (snd (processSwitches now p sw m)) = mn_selector m.
Proof.
  intros K. unfold processSwitches. destruct (_ =? SOURCE_RC); [|by split; [constructor|]].
  destruct (mn_previous_switches_initialized m).
  - destruct (switches_changed_frame now p sw m (K eq_refl)) as [C S]. by destruct (switches_changed now p sw m).
  - split; [apply slot_commands|done].
Qed.

(** A valid run publishes commands and then the setpoint, with the chosen sample. *)
Lemma run_valid_shape now p sw m :
  (forall sw', sw = Some sw' -> mn_previous_switches_initialized m = true -> may_kill sw' (mn_previous_switches m)) ->
  exists o sp, fst (run_valid now p sw m) = o ++ [pub_setpoint sp] /\ Forall (is_command kill) o /\
    sp_timestamp_sample sp = sp_timestamp_sample (sel_setpoint (mn_selector m)) /\
    sp_data_source sp = sp_data_source (sel_setpoint (mn_selector m)) /\
    sp_valid sp = sp_valid (sel_setpoint (mn_selector m)) /\
    mn_selector (snd (run_valid now p sw m)) = (mn_selector m) <| sel_setpoint := sp |>.
Proof.
  intros K. unfold run_valid. set (m0 := m <| mn_published_invalid_once := false |>).
  pose proof (sticks_commands p (sel_setpoint (mn_selector m0)) m0) as C1.
  pose proof (sticks_selector p (sel_setpoint (mn_selector m0)) m0) as S1.
  assert (mn_previous_switches (snd (processStickArming p (sel_setpoint (mn_selector m0)) m0)) = mn_previous_switches m
    /\ mn_previous_switches_initialized (snd (processStickArming p (sel_setpoint (mn_selector m0)) m0))
       = mn_previous_switches_initialized m) as [P1 N1] by done.
  destruct (processStickArming _ _ _) as [o1 m1]. cbn [fst snd] in *.
  pose proof (moving_selector now p m1) as S2. pose proof (moving_switches now p m1) as [P2 N2].
  destruct (sticks_moving now p m1) as [mv m2]. cbn [snd] in *.
  set (m3 := on_setpoint _ m2).
  assert (exists o2 m4, (match sw with Some sw => processSwitches now p sw m3 | None => ([], m3) end) = (o2, m4) /\
          Forall (is_command kill) o2 /\ mn_selector m4 = mn_selector m3) as (o2 & m4 & E & C2 & S4).
  { destruct sw as [sw|]; [|by exists [], m3].
    destruct (switches_frame now p sw m3) as [C S].
    { subst m3. cbn. rewrite N2, N1, P2, P1. by apply K. }
    destruct (processSwitches now p sw m3) as [o m']. by exists o, m'. }
  rewrite E. cbn [fst snd].
  eexists (o1 ++ o2), _. split; [by rewrite app_assoc|]. split; [by apply Forall_app|].
  cbn. unfold RecordSettersUsingExistingGetters.const. rewrite S4. subst m3. cbn.
  unfold RecordSettersUsingExistingGetters.const. rewrite S2, S1. by split_and!.
Qed.

End Commands.

(** C31 (safety). Whatever the module publishes as the pilot's valid input was sampled less than the timeout
    ago, not in the future, and comes from a source that COM_RC_IN_MODE permits. *)
Theorem published_input_fresh i m sp (s := mn_selector (snd (Run i m))) :
  In (pub_setpoint sp) (fst (Run i m)) -> sp_valid sp = true ->
  fresh s (sp_timestamp_sample sp) (ri_now i) = true /\ source_matched s (sp_data_source sp) = true.
Proof.
  subst s. rewrite Run_unfold. cbv zeta. cbn [fst snd].
  pose proof (select_sound (ri_now i) (ri_inputs i)
    (mn_selector (match ri_update i with Some q => store_params q m | None => m end))) as S.
  change (select_inputs _ _ _) with (mn_selector (selected i m)) in S.
  generalize dependent (selected i m). intros m1 S I V.
  destruct (sp_valid (sel_setpoint (mn_selector m1))) eqn:E.
  - destruct (run_valid_shape true (ri_now i) (ri_params i) (ri_switches i) m1) as (o & sp' & P & C & T & D & W & M);
      [by left|].
    rewrite P in I. apply in_app_or in I as [I|[I|[]]].
    + rewrite Forall_forall in C. by apply list_elem_of_In, C in I.
    + injection I as ->. change (mn_selector ((snd (run_valid (ri_now i) (ri_params i) (ri_switches i) m1))
        <| mn_last_time := ri_now i |>)) with (mn_selector (snd (run_valid (ri_now i) (ri_params i) (ri_switches i) m1))).
      rewrite M, T, D. specialize (S E). by apply andb_true_iff in S.
  - cbn in I. case_match; [done|]. destruct I as [I|[]]. injection I as <-. congruence.
Qed.

(** ** Requests to the commander *)

Definition is_request (x : published) : bool := match x with pub_request _ _ => true | _ => false end.

Lemma newest_app l1 l2 : newest (l1 ++ l2) = match newest l2 with Some r => Some r | None => newest l1 end.
Proof.
  induction l2 as [|x l IH] using rev_ind; [by rewrite app_nil_r|]. rewrite app_assoc. unfold newest in *.
  rewrite !(fold_left_app _ _ [x]). cbn [fold_left]. by destruct x.
Qed.

Lemma newest_none l : Forall (fun x => is_request x = false) l -> newest l = None.
Proof. unfold newest. generalize (@None (action_source * action_t)). induction 1 as [|x l Hx F IH]; [done|]. by destruct x. Qed.

(** *** The topic *)

Definition requests (o : list published) : list (action_source * action_t) :=
  omap (fun x => match x with pub_request a s => Some (s, a) | _ => None end) o.

Lemma newest_requests o : newest o = last (requests o).
Proof.
  induction o as [|x o IH] using rev_ind; [done|]. rewrite newest_app. unfold requests in *. rewrite omap_app.
  destruct x; cbn; rewrite ?app_nil_r, ?last_snoc; done.
Qed.

Lemma read_last {A} (l h : list A) :
  UorbSpec.spec_run 1 h (Some (UorbSpec.len h)) (map UorbSpec.op_publish l ++ [UorbSpec.op_read]) = [last l].
Proof.
  assert (forall (l h : list A) r, UorbSpec.spec_run 1 h r (map UorbSpec.op_publish l ++ [UorbSpec.op_read])
    = [fst (UorbSpec.spec_read 1 (h ++ l) r)]) as E.
  { clear. induction l as [|x l IH]; intros h r; cbn [map app UorbSpec.spec_run].
    - rewrite app_nil_r. by destruct (UorbSpec.spec_read 1 h r).
    - by rewrite IH, <- app_assoc. }
  rewrite E. f_equal. unfold UorbSpec.spec_read.
  change (UorbSpec.position (h ++ l) (Some (UorbSpec.len h))) with (UorbSpec.len h). cbv zeta.
  unfold UorbSpec.len. rewrite length_app. destruct l as [|x l] using rev_ind.
  - cbn. by rewrite Nat.add_0_r, Z.eqb_refl.
  - rewrite last_snoc, length_app. cbn [length]. destruct (Z.eqb_spec (Z.of_nat (length h))
      (Z.of_nat (length h + (length l + 1)))); [lia|]. cbn [fst].
    replace (Z.to_nat _) with (length (h ++ l)) by (rewrite length_app; lia). by rewrite app_assoc, list_lookup_middle.
Qed.

(** [newest] is what the topic delivers: a commander that has read all earlier requests and
    polls after the run, on a topic with the default queue of one message. *)
Lemma newest_is_read max i h t s o zero :
  UorbSpec.related max 1 i h (Some (UorbSpec.len h)) t s -> UorbSpec.len (requests o) < 2 ^ 32 ->
  UorbSpec.bus_run zero max i t s (map UorbSpec.op_publish (requests o) ++ [UorbSpec.op_read]) = [newest o].
Proof.
  intros R L. rewrite newest_requests, <- (read_last (requests o) h).
  apply UorbSpec.run_related; [by exists 0|done|]. clear R.
  assert (forall (l h' : list (action_source * action_t)) r, UorbSpec.len (h' ++ l) - r < 2 ^ 32 ->
    UorbSpec.lag_ok 1 h' (Some r) (map UorbSpec.op_publish l ++ [UorbSpec.op_read])) as H.
  { clear. induction l as [|x l IH]; intros h' r L; cbn [map app UorbSpec.lag_ok].
    - rewrite app_nil_r in L. by split.
    - apply IH. by rewrite <- app_assoc. }
  apply H. unfold UorbSpec.len in *. rewrite length_app. lia.
Qed.

Lemma camera_requests sw m : Forall (fun x => is_request x = false) (fst (camera_switches sw m)).
Proof. unfold camera_switches. repeat case_match; simplify_eq/=; repeat constructor. Qed.

Lemma gear_requests sw old :
  Forall (fun x => is_request x = false)
    (if gear_switch old =? SWITCH_POS_NONE then []
     else on_off [pub_landing_gear true] [pub_landing_gear false] (gear_switch sw) (gear_switch old)).
Proof. unfold on_off. repeat case_match; repeat constructor. Qed.

(** The requests of the switches end with those of the kill and the transition switch. *)
Lemma switches_changed_tail now p sw m :
  exists o1 o2 o3, Forall (fun x => is_request x = false) o2 /\ Forall (fun x => is_request x = false) o3 /\
    fst (switches_changed now p sw m) =
      o1 ++ on_off (request_switch ACTION_KILL) (request_switch ACTION_UNKILL)
              (kill_switch_pos sw) (kill_switch_pos (mn_previous_switches m))
         ++ o2 ++ on_off (request_switch ACTION_VTOL_TRANSITION_TO_FIXEDWING)
              (request_switch ACTION_VTOL_TRANSITION_TO_MULTICOPTER)
              (transition_switch sw) (transition_switch (mn_previous_switches m)) ++ o3.
Proof.
  unfold switches_changed. destruct (if com_arm_swisbtn p then _ else _) as [arming m1].
  pose proof (camera_requests sw m1) as C. destruct (camera_switches sw m1) as [o m2]. cbn [fst] in *.
  pose proof (gear_requests sw (mn_previous_switches m)) as G. unfold switch_requests.
  set (l1 := mode_switch _ 5 _ _ _). set (l2 := mode_switch _ 4 _ _ _). set (l3 := mode_switch _ 7 _ _ _).
  set (slot := if mode_slot sw =? mode_slot (mn_previous_switches m) then [] else evaluateModeSlot p (mode_slot sw)).
  exists (slot ++ arming ++ l1 ++ l2 ++ l3). eexists _, o. split; [exact G|]. split; [exact C|].
  by rewrite <- !app_assoc.
Qed.

(** The run of a pilot who flies with the radio. *)
Definition on_radio (i : run_in) (m : manual_control) : Prop :=
  holds (ri_now i) SOURCE_RC (mn_selector m) /\ ri_update i = None /\ mn_previous_switches_initialized m = true.

Lemma on_radio_run i m sw :
  on_radio i m -> ri_switches i = Some sw ->
  exists o m', mn_previous_switches m' = mn_previous_switches m /\
    fst (Run i m) = o ++ fst (switches_changed (ri_now i) (ri_params i) sw m')
                      ++ [pub_setpoint (sel_setpoint (mn_selector (snd (Run i m))))].
Proof.
  intros ((V & D & I) & U & N) W. rewrite Run_unfold. cbv zeta. cbn [fst snd].
  assert (holds (ri_now i) SOURCE_RC (mn_selector (selected i m))) as (V' & D' & _)
    by (unfold selected; rewrite U; by apply select_holds).
  assert (mn_previous_switches (selected i m) = mn_previous_switches m
    /\ mn_previous_switches_initialized (selected i m) = true) as [P' N'] by (unfold selected; by rewrite U).
  generalize dependent (selected i m). intros m1 V' D' P' N'. rewrite V', W.
  unfold run_valid. set (m2 := m1 <| mn_published_invalid_once := false |>).
  pose proof (sticks_selector (ri_params i) (sel_setpoint (mn_selector m2)) m2) as S1.
  assert (mn_previous_switches (snd (processStickArming (ri_params i) (sel_setpoint (mn_selector m2)) m2))
      = mn_previous_switches m1) as P1 by done.
  assert (mn_previous_switches_initialized (snd (processStickArming (ri_params i) (sel_setpoint (mn_selector m2)) m2))
      = true) as N1 by done.
  destruct (processStickArming _ _ _) as [o1 m3]. cbn [fst snd] in *.
  pose proof (moving_selector (ri_now i) (ri_params i) m3) as S2.
  pose proof (moving_switches (ri_now i) (ri_params i) m3) as [P2 N2].
  destruct (sticks_moving (ri_now i) (ri_params i) m3) as [mv m4]. cbn [snd] in *.
  set (m5 := on_setpoint _ m4). unfold processSwitches.
  replace (sp_data_source (sel_setpoint (mn_selector m5))) with SOURCE_RC.
  2: { subst m5. cbn. unfold RecordSettersUsingExistingGetters.const. by rewrite S2, S1. }
  replace (mn_previous_switches_initialized m5) with true by (subst m5; cbn; by rewrite N2, N1).
  exists o1, m5. split; [subst m5; cbn; congruence|]. cbn [Z.eqb SOURCE_RC Pos.eqb].
  by destruct (switches_changed _ _ _ m5).
Qed.

Lemma kill_is_newest i m sw :
  on_radio i m -> ri_switches i = Some sw ->
  changed_to SWITCH_POS_ON (kill_switch_pos sw) (kill_switch_pos (mn_previous_switches m)) = true ->
  transition_switch sw = transition_switch (mn_previous_switches m) ->
  newest (fst (Run i m)) = Some (SOURCE_RC_SWITCH, ACTION_KILL).
Proof.
  intros R W K T. destruct (on_radio_run i m sw R W) as (o & m' & P & ->).
  destruct (switches_changed_tail (ri_now i) (ri_params i) sw m') as (o1 & o2 & o3 & F2 & F3 & ->).
  rewrite P, <- T, on_off_same. unfold on_off at 1. rewrite K.
  by rewrite !newest_app, (newest_none o3), (newest_none o2).
Qed.

Lemma transition_is_newest i m sw :
  on_radio i m -> ri_switches i = Some sw ->
  changed_to SWITCH_POS_ON (transition_switch sw) (transition_switch (mn_previous_switches m)) = true
  \/ changed_to SWITCH_POS_OFF (transition_switch sw) (transition_switch (mn_previous_switches m)) = true ->
  exists a, newest (fst (Run i m)) = Some (SOURCE_RC_SWITCH, a) /\
    (a = ACTION_VTOL_TRANSITION_TO_FIXEDWING \/ a = ACTION_VTOL_TRANSITION_TO_MULTICOPTER).
Proof.
  intros R W T. destruct (on_radio_run i m sw R W) as (o & m' & P & ->).
  destruct (switches_changed_tail (ri_now i) (ri_params i) sw m') as (o1 & o2 & o3 & F2 & F3 & ->).
  rewrite P. rewrite !newest_app, (newest_none o3) by done.
  set (tr := on_off (request_switch ACTION_VTOL_TRANSITION_TO_FIXEDWING) _ _ _).
  assert (exists a, newest tr = Some (SOURCE_RC_SWITCH, a) /\
    (a = ACTION_VTOL_TRANSITION_TO_FIXEDWING \/ a = ACTION_VTOL_TRANSITION_TO_MULTICOPTER)) as (a & -> & A); [|by exists a].
  subst tr. unfold on_off.
  destruct T as [T|T].
  - rewrite T. eexists. split; [reflexivity|by left].
  - rewrite T. case_match; eexists; (split; [reflexivity|]); [by left|by right].
Qed.

(** C14 (liveness). The kill switch reaches the motors.  A pilot flies with the radio, whose input is
    valid, and no parameters change; the switch moves to on, whatever other inputs and switch
    changes come with it other than the transition switch.  The commander, which gets only the
    newest request and is not calibrating the radio, is in manual lockdown at once; and when it
    was not yet counting towards such a disarming, it has disarmed the vehicle by the first
    pass of its automatic disarming that comes COM_KILL_DISARM after the first one, whatever
    other events happen meanwhile than requests to kill or to revive and parameter updates. *)
Theorem kill_switch_disarms p l0 hil gr tb now k i mn sw l t0 k0 t1 k1
    (c := runs p l0 (initial hil gr tb)) :
  on_radio i mn -> ri_switches i = Some sw ->
  changed_to SWITCH_POS_ON (kill_switch_pos sw) (kill_switch_pos (mn_previous_switches mn)) = true ->
  transition_switch sw = transition_switch (mn_previous_switches mn) ->
  cm_rc_calibration_in_progress c = false ->
  hy_state (cm_auto_disarm_killed c) = false -> hy_requested_state (cm_auto_disarm_killed c) = false ->
  Forall stays_killed l ->
  hy_time_from_false_us (cm_auto_disarm_killed c) <= u64 (t1 - t0) ->
  let c' := receive now k p (fst (Run i mn)) c in
  manual_lockdown (cm_armed c') = true /\
  gets_disarmed p (mkTick t0 k0 ev_auto_disarm :: l ++ [mkTick t1 k1 ev_auto_disarm]) c'.
Proof.
  intros R W K T C H Q S L. unfold receive. rewrite (kill_is_newest i mn sw R W K T).
  pose proof (reachable_inv p l0 hil gr tb) as I. fold c in I. clearbody c.
  pose proof (step_frame now k p (ev_action SOURCE_RC_SWITCH ACTION_KILL) c) as F.
  change (step now k p (ev_action SOURCE_RC_SWITCH ACTION_KILL) c)
    with (executeActionRequest now k p SOURCE_RC_SWITCH ACTION_KILL c) in F.
  assert (manual_lockdown (cm_armed (executeActionRequest now k p SOURCE_RC_SWITCH ACTION_KILL c)) = true) as M.
  { unfold executeActionRequest. rewrite C. cbn. by destruct (manual_lockdown (cm_armed c)) eqn:E. }
  split; [exact M|].
  apply killed_gets_disarmed; [by apply F|exact M|by rewrite (fr_killed _ _ _ F)..|done|by rewrite (fr_killed _ _ _ F)].
Qed.

(** The topic holds one request.  When the transition switch moves together with the kill
    switch, its request replaces the one that kills, and the commander does nothing. *)
Theorem kill_lost_to_transition i mn sw now k p c :
  on_radio i mn -> ri_switches i = Some sw ->
  changed_to SWITCH_POS_ON (kill_switch_pos sw) (kill_switch_pos (mn_previous_switches mn)) = true ->
  changed_to SWITCH_POS_ON (transition_switch sw) (transition_switch (mn_previous_switches mn)) = true
  \/ changed_to SWITCH_POS_OFF (transition_switch sw) (transition_switch (mn_previous_switches mn)) = true ->
  In (pub_request ACTION_KILL SOURCE_RC_SWITCH) (fst (Run i mn)) /\ receive now k p (fst (Run i mn)) c = c.
Proof.
  intros R W K T. split.
  - destruct (on_radio_run i mn sw R W) as (o & m' & P & ->).
    destruct (switches_changed_tail (ri_now i) (ri_params i) sw m') as (o1 & o2 & o3 & _ & _ & ->).
    rewrite P. unfold on_off at 1. rewrite K. cbn [request_switch].
    apply in_or_app. right. apply in_or_app. left. apply in_or_app. right. by left.
  - unfold receive. destruct (transition_is_newest i mn sw R W T) as (a & -> & A).
    unfold executeActionRequest. case_match; [done|]. by destruct A as [-> | ->].
Qed.

(** ** A switch that is engaged from the start *)

Fixpoint runs_of (l : list run_in) (m : manual_control) : list published :=
  match l with [] => [] | i :: l => fst (Run i m) ++ runs_of l (snd (Run i m)) end.

(** Its position is known, if at all, as engaged. *)
Definition known_engaged (m : manual_control) : Prop :=
  mn_previous_switches_initialized m = true -> kill_switch_pos (mn_previous_switches m) = SWITCH_POS_ON.

Lemma camera_switches_frame sw m :
  mn_previous_switches (snd (camera_switches sw m)) = mn_previous_switches m.
Proof. unfold camera_switches. by repeat case_match; simplify_eq/=. Qed.

Lemma switches_engaged now p sw m :
  kill_switch_pos sw = SWITCH_POS_ON -> known_engaged (snd (processSwitches now p sw m)).
Proof.
  intros K. unfold processSwitches, known_engaged. destruct (_ =? SOURCE_RC); [|done].
  by destruct (if mn_previous_switches_initialized m then _ else _).
Qed.

Lemma run_valid_engaged now p sw m :
  (forall sw', sw = Some sw' -> kill_switch_pos sw' = SWITCH_POS_ON) -> known_engaged m ->
  known_engaged (snd (run_valid now p sw m)).
Proof.
  intros K E. unfold run_valid. set (m0 := m <| mn_published_invalid_once := false |>).
  assert (known_engaged (snd (processStickArming p (sel_setpoint (mn_selector m0)) m0))) as E1 by exact E.
  destruct (processStickArming _ _ _) as [o1 m1]. cbn [snd] in E1.
  pose proof (moving_switches now p m1) as [P2 N2].
  destruct (sticks_moving now p m1) as [mv m2]. cbn [snd] in *.
  set (m3 := on_setpoint _ m2).
  assert (known_engaged m3) as E3 by (unfold known_engaged in *; subst m3; cbn; by rewrite N2, P2).
  destruct sw as [sw|]; [|exact E3].
  pose proof (switches_engaged now p sw m3 (K sw eq_refl)) as E4. by destruct (processSwitches now p sw m3).
Qed.

Lemma run_engaged i m s :
  (forall sw, ri_switches i = Some sw -> kill_switch_pos sw = SWITCH_POS_ON) -> known_engaged m ->
  ~ In (pub_request ACTION_KILL s) (fst (Run i m)) /\ known_engaged (snd (Run i m)).
Proof.
  intros K E. rewrite Run_unfold. cbv zeta. cbn [fst snd].
  assert (known_engaged (selected i m)) as E1 by (unfold selected; by destruct (ri_update i)).
  generalize dependent (selected i m). intros m1 E1. destruct (sp_valid _).
  - split; [|by apply (run_valid_engaged (ri_now i) (ri_params i))].
    destruct (run_valid_shape false (ri_now i) (ri_params i) (ri_switches i) m1) as (o & sp & -> & C & _).
    { intros sw W N. right. by rewrite K, E1. }
    intros I. apply in_app_or in I as [I|[I|[]]]; [|done].
    rewrite Forall_forall in C. by apply list_elem_of_In, C in I.
  - split; [|exact E1]. unfold run_invalid. cbn [fst].
    destruct (mn_published_invalid_once m1); [by intros []|by intros [I|[]]].
Qed.

(** Only a change of the kill switch kills.  A switch that is engaged when the radio is first
    selected is not obeyed: as long as every message shows it engaged, the module does not
    publish one request to kill.  On the ground the preflight check refuses to arm then
    (manualControlCheck.cpp); a vehicle that is flown by other means when the radio takes over
    flies on. *)
Theorem engaged_kill_not_requested l s :
  Forall (fun i => forall sw, ri_switches i = Some sw -> kill_switch_pos sw = SWITCH_POS_ON) l ->
  ~ In (pub_request ACTION_KILL s) (runs_of l manual_initial).
Proof.
  intros F. assert (known_engaged manual_initial) as E by (intros H; discriminate H). revert E. generalize manual_initial as m.
  induction F as [|i l K F IH]; intros m E; cbn [runs_of]; [by intros []|].
  destruct (run_engaged i m s K E) as [N E']. intros I. apply in_app_or in I as [I|I]; [done|by apply (IH _ E')].
Qed.

(** ** The loss of the input *)

Definition stale (now : Z) (s : selector) : Prop :=
  0 <= sp_timestamp_sample (sel_setpoint s) <= now /\ now < 2 ^ 64 /\
  sel_timeout s <= now - sp_timestamp_sample (sel_setpoint s).

Lemma stale_invalid now s : stale now s -> isInputValid s (sel_setpoint s) now = false.
Proof.
  intros (B & C & T). unfold isInputValid, fresh. rewrite wrap_small by (unfold fits; lia).
  replace (_ - _ <? sel_timeout s) with false by lia. by rewrite andb_false_r.
Qed.

Lemma stale_run i m :
  ri_update i = None -> ri_inputs i = [] -> stale (ri_now i) (mn_selector m) ->
  let sp := (sel_setpoint (mn_selector m)) <| sp_valid := false |> in
  fst (Run i m) = (if mn_published_invalid_once m then [] else [pub_setpoint sp]) /\
  mn_selector (snd (Run i m)) = (mn_selector m) <| sel_setpoint := sp |> <| sel_instance := -1 |> /\
  mn_published_invalid_once (snd (Run i m)) = true.
Proof.
  intros U I S. pose proof (stale_invalid _ _ S) as V. unfold Run. rewrite U, I. unfold select_inputs. cbn [fold_left].
  unfold updateValidityOfChosenInput. by rewrite V.
Qed.

(** Runs without samples of any input and without a change of parameters. *)
Definition silent (i : run_in) : Prop := ri_update i = None /\ ri_inputs i = [].

Fixpoint run_times (t0 : Z) (l : list run_in) : Prop :=
  match l with [] => True | i :: l => t0 <= ri_now i < 2 ^ 64 /\ run_times (ri_now i) l end.

Lemma stale_later t t' s : stale t s -> t <= t' < 2 ^ 64 -> stale t' s.
Proof. unfold stale. lia. Qed.

Lemma stale_silence l : forall t m,
  mn_published_invalid_once m = true -> stale t (mn_selector m) -> Forall silent l -> run_times t l -> runs_of l m = [].
Proof.
  induction l as [|i l IH]; intros t m O S F T; [done|]. apply Forall_cons in F as [[U I] F]. destruct T as [T0 T].
  pose proof (stale_later _ _ _ S T0) as S'. destruct (stale_run i m U I S') as (P & Sel & Once).
  cbn [runs_of]. rewrite P, O. apply (IH (ri_now i)); [done| |done|done].
  rewrite Sel. destruct S' as (? & ? & ?). split_and!; cbn; unfold RecordSettersUsingExistingGetters.const; lia.
Qed.

(** C32 (functional). The setpoint of a pilot is reported as lost exactly once when no input sends any more:
    with no samples of any input and no change of parameters, the first run after the timeout
    of the setpoint publishes one invalid setpoint and nothing else, by which a commander that
    has found a radio before marks it as lost, and all later runs are silent. *)
Theorem rc_loss_reported i l mn now p c :
  mn_published_invalid_once mn = false -> stale (ri_now i) (mn_selector mn) ->
  silent i -> Forall silent l -> run_times (ri_now i) l ->
  rc_signal_found_once (cm_flags c) = true ->
  exists sp, fst (Run i mn) = [pub_setpoint sp] /\ sp_valid sp = false /\
    rc_signal_lost (cm_status (manual_control_stage now p (manual_of sp) c)) = true /\
    runs_of l (snd (Run i mn)) = [].
Proof.
  intros O S [U I] F T R. destruct (stale_run i mn U I S) as (P & Sel & Once). rewrite O in P.
  eexists. split; [exact P|]. split_and!; [done| |].
  - unfold manual_control_stage, stick_override, manual_lost. cbn [manual_of mc_valid sp_valid].
    rewrite R. by rewrite andb_false_r.
  - apply (stale_silence l (ri_now i)); [done| |done|done].
    rewrite Sel. destruct S as (? & ? & ?). split_and!; cbn; unfold RecordSettersUsingExistingGetters.const; lia.
Qed.

(** ** A flight with the radio *)

Definition radio_params : manual_params := mkManualParams true false (f32_of_Z 30) (fun _ => -1).
Definition radio_sample (t : Z) : Z * manual_control_setpoint :=
  (0, mkSetpoint t t true SOURCE_RC f0 f0 (flit 1 2) f0 false).
Definition positions (arm kill transition : Z) : manual_control_switches := mkSwitches 0 arm 3 3 3 kill 3 transition 3 3.

Definition radio_run (t : Z) (sw : option manual_control_switches) : run_in :=
  mkRun t radio_params None [radio_sample t] sw.
Definition radio_on (t : Z) (sw : manual_control_switches) : run_in :=
  mkRun t radio_params (Some (mkStored 1000 0 (flit 1 2))) [radio_sample t] (Some sw).

(** The radio is chosen and its switches are known, all released. *)
Definition piloted : manual_control := snd (Run (radio_on 19000000 (positions 3 3 3)) manual_initial).

Lemma piloted_on_radio t inputs sw :
  19000000 <= t < 19500000 -> on_radio (mkRun t radio_params None inputs sw) piloted.
Proof.
  intros T. unfold on_radio, holds. cbn [ri_now].
  assert (sel_timeout (mn_selector piloted) = 500000 /\ sp_timestamp_sample (sel_setpoint (mn_selector piloted)) = 19000000
    /\ source_matched (mn_selector piloted) (sp_data_source (sel_setpoint (mn_selector piloted))) = true) as (E1 & E2 & E3)
    by (vm_compute; by split_and!).
  split_and!; [vm_compute; reflexivity|vm_compute; reflexivity| |reflexivity|vm_compute; reflexivity].
  unfold isInputValid, fresh. rewrite E1, E2, E3, wrap_small by (unfold fits; lia). lia.
Qed.

Lemma kill_switch_disarms_witness :
  let o := fst (Run (radio_run 19020000 (Some (positions 3 SWITCH_POS_ON 3))) piloted) in
  let c' := receive 19030000 good_checks quad_params o flying in
  armed (cm_armed c') = true /\ manual_lockdown (cm_armed c') = true /\
  gets_disarmed quad_params
    (at_ 20010000 ev_auto_disarm :: [at_ 22000000 ev_auto_disarm] ++ [at_ 25010000 ev_auto_disarm]) c'.
Proof.
  intros o c'. split; [vm_compute; reflexivity|].
  apply (kill_switch_disarms quad_params takeoff_run false false 0 19030000 good_checks
    (radio_run 19020000 (Some (positions 3 SWITCH_POS_ON 3))) piloted (positions 3 SWITCH_POS_ON 3)
    [at_ 22000000 ev_auto_disarm] 20010000 good_checks 25010000 good_checks).
  - apply piloted_on_radio. lia.
  - reflexivity.
  - vm_compute; reflexivity.
  - vm_compute; reflexivity.
  - vm_compute; reflexivity.
  - vm_compute; reflexivity.
  - vm_compute; reflexivity.
  - repeat constructor.
  - vm_compute; discriminate.
Defined.

Lemma kill_lost_to_transition_witness :
  let o := fst (Run (radio_run 19020000 (Some (positions 3 SWITCH_POS_ON SWITCH_POS_ON))) piloted) in
  In (pub_request ACTION_KILL SOURCE_RC_SWITCH) o /\ receive 19030000 good_checks quad_params o flying = flying.
Proof.
  intros o. apply (kill_lost_to_transition (radio_run 19020000 (Some (positions 3 SWITCH_POS_ON SWITCH_POS_ON))) piloted
    (positions 3 SWITCH_POS_ON SWITCH_POS_ON) 19030000 good_checks quad_params flying).
  - apply piloted_on_radio. lia.
  - reflexivity.
  - vm_compute; reflexivity.
  - left. vm_compute; reflexivity.
Defined.

(** The switch is engaged, and the pilot asks to arm. *)
Lemma engaged_kill_not_requested_witness :
  let l := [radio_on 19000000 (positions 3 SWITCH_POS_ON 3); radio_run 19020000 (Some (positions 1 SWITCH_POS_ON 3))] in
  newest (runs_of l manual_initial) = Some (SOURCE_RC_SWITCH, ACTION_ARM) /\
  ~ In (pub_request ACTION_KILL SOURCE_RC_SWITCH) (runs_of l manual_initial).
Proof.
  intros l. split; [vm_compute; reflexivity|]. apply (engaged_kill_not_requested l SOURCE_RC_SWITCH).
  repeat (constructor; [intros sw E; injection E as <-; reflexivity|]). constructor.
Defined.

Lemma published_input_fresh_witness :
  exists sp, In (pub_setpoint sp) (fst (Run (radio_on 19000000 (positions 3 3 3)) manual_initial)) /\
    fresh (mn_selector piloted) (sp_timestamp_sample sp) 19000000 = true.
Proof.
  exists (sel_setpoint (mn_selector piloted)).
  assert (In (pub_setpoint (sel_setpoint (mn_selector piloted)))
    (fst (Run (radio_on 19000000 (positions 3 3 3)) manual_initial))) as I by (vm_compute; by left).
  split; [exact I|].
  apply (published_input_fresh (radio_on 19000000 (positions 3 3 3)) manual_initial _ I). vm_compute; reflexivity.
Defined.

Lemma rc_loss_reported_witness :
  let quiet t := mkRun t radio_params None [] None in
  exists sp, fst (Run (quiet 19600000) piloted) = [pub_setpoint sp] /\
    rc_signal_lost (cm_status (manual_control_stage 19600000 quad_params (manual_of sp) flying)) = true /\
    runs_of [quiet 19800000; quiet 20000000] (snd (Run (quiet 19600000) piloted)) = [].
Proof.
  intros quiet. destruct (rc_loss_reported (quiet 19600000) [quiet 19800000; quiet 20000000]
    piloted 19600000 quad_params flying) as (sp & P & _ & R & Q).
  - vm_compute; reflexivity.
  - split_and!; [vm_compute; discriminate|vm_compute; discriminate|vm_compute; reflexivity|vm_compute; discriminate].
  - by split.
  - by repeat constructor.
  - cbn. lia.
  - vm_compute; reflexivity.
  - exists sp. split; [exact P|]. split; [exact R|exact Q].
Defined.

End ManualControlSpec.
