(* ===== verification/FailureDetector.v ===== *)
(** * The failure detector

    src/src/modules/commander/failure_detector/FailureDetector.cpp: excessive roll and pitch,
    an external trigger, speed controllers that do not arm, and imbalanced propellers, each as
    a flag of the status that the commander reads.  What a topic delivers is an input; the
    topic of the inertial sensors, where the detector looks for the instance of the selected
    one, is a topic of the message bus. *)
From stdpp Require Import gmap.
From coqutil Require Import Datatypes.RecordSettersUsingExistingGetters.
From S2P Require Import Prelude Float32 Linalg ControlMath Takeoff AttModule NavState ArmState Commander Uorb.
Import NavState ArmState Commander Uorb.
Local Open Scope Z_scope.

Module FailureDetector.

#[export] Instance fd_flags_eq_dec : EqDecision fd_flags.
Proof. solve_decision. Defined.

(** The fields of vehicle_imu_status that are read. *)
Record imu_status := mkImu { im_timestamp : Z; im_accel_device_id : Z; im_var_accel : vec3 f32 }.
Definition imu_zero : imu_status := mkImu 0 0 (V3 f0 f0 f0).

Record fd_params := mkFdParams {
  FD_FAIL_P : Z;
  FD_FAIL_R : Z;
  FD_FAIL_R_TTRI : f32;
  FD_FAIL_P_TTRI : f32;
  FD_EXT_ATS_EN : bool;
  FD_EXT_ATS_TRIG : Z;
  FD_ESCS_EN : Z;
  FD_IMB_PROP_THR : Z
}.

Record FailureDetector := mkDetector {
  dt_status : fd_flags;
  dt_roll_failure : Hysteresis;
  dt_pitch_failure : Hysteresis;
  dt_ext_ats_failure : Hysteresis;
  dt_esc_failure : Hysteresis;
  dt_imbalanced_prop_lpf : AlphaFilter;
  dt_selected_accel_device_id : Z;
  dt_imu_status_timestamp_prev : Z;
  dt_imu_status_sub : Subscription
}.

(** What one call of [update] reads. *)
Record fd_in := mkFdIn {
  fi_now : Z;
  fi_attitude_enabled : bool;           (** flag_control_attitude_enabled *)
  fi_armed : bool;                      (** arming_state is ARMED *)
  fi_attitude : option (quat f32);
  fi_pulse_width : option Z;
  fi_esc : option (Z * Z);              (** esc_count, esc_armed_flags *)
  fi_selection : option Z;              (** accel_device_id *)
  fi_imu : topic imu_status
}.

Section Detector.
Context `{Libm} (ORB_MULTI_MAX_INSTANCES : Z) (p : fd_params).

(** ** Attitude *)

Definition exceeds (limit_deg : Z) (angle : f32) : bool :=
  let max_angle := fabs (math_radians (f32_of_Z limit_deg)) in
  fgt max_angle f0 && fgt (fabs angle) max_angle.

Definition roll_status (q : quat f32) : bool := exceeds (FD_FAIL_R p) (v_x (euler_of_quat q)).
Definition pitch_status (q : quat f32) : bool := exceeds (FD_FAIL_P p) (v_y (euler_of_quat q)).

Definition delayed (t now : Z) (b : bool) (h : Hysteresis) : Hysteresis :=
  set_state_and_update b now (set_hysteresis_time_from false t h).

Definition updateAttitudeStatus (i : fd_in) (d : FailureDetector) : FailureDetector :=
  match fi_attitude i with
  | None => d
  | Some q =>
      let roll := delayed (seconds (FD_FAIL_R_TTRI p)) (fi_now i) (roll_status q) (dt_roll_failure d) in
      let pitch := delayed (seconds (FD_FAIL_P_TTRI p)) (fi_now i) (pitch_status q) (dt_pitch_failure d) in
      d <| dt_roll_failure := roll |> <| dt_pitch_failure := pitch |>
        <| dt_status := (dt_status d) <| fd_roll := hy_state roll |> <| fd_pitch := hy_state pitch |> |>
  end.

(** ** External trigger and speed controllers *)

Definition updateExternalAtsStatus (i : fd_in) (d : FailureDetector) : FailureDetector :=
  match fi_pulse_width i with
  | None => d
  | Some w =>
      let ats_trigger_status := (u32 (FD_EXT_ATS_TRIG p) <=? w) && (w <? 3000) in
      let ext := delayed 100000 (fi_now i) ats_trigger_status (dt_ext_ats_failure d) in
      d <| dt_ext_ats_failure := ext |> <| dt_status := (dt_status d) <| fd_ext := hy_state ext |> |>
  end.

(** [esc_count] is at most 8, so that the shift is defined. *)
Definition all_escs_armed (esc_count : Z) : Z := Z.shiftl 1 esc_count - 1.

Definition updateEscsStatus (i : fd_in) (d : FailureDetector) : FailureDetector :=
  if fi_armed i then
    match fi_esc i with
    | None => d
    | Some (count, flags) =>
        let esc := delayed 300000 (fi_now i) (negb (all_escs_armed count =? flags)) (dt_esc_failure d) in
        let d := d <| dt_esc_failure := esc |> in
        if hy_state esc then d <| dt_status := (dt_status d) <| fd_arm_escs := true |> |> else d
    end
  else d <| dt_esc_failure := set_state_and_update false (fi_now i) (dt_esc_failure d) |>
         <| dt_status := (dt_status d) <| fd_arm_escs := false |> |>.

(** ** Imbalanced propellers *)

(** The loop over the instances. *)
Fixpoint find_imu (tries : nat) (i : Z) (t : topic imu_status) (selected : Z) (sub : Subscription) : Subscription :=
  match tries with
  | O => sub
  | S tries =>
      let '(ok, sub) := ChangeInstance ORB_MULTI_MAX_INSTANCES t i sub in
      if ok then
        let '(imu, sub) := su_copy ORB_MULTI_MAX_INSTANCES t sub in
        if match imu with Some s => im_accel_device_id s =? selected | None => false end then sub
        else find_imu tries (i + 1) t selected sub
      else find_imu tries (i + 1) t selected sub
  end.

Definition imbalance_metric (s : imu_status) : f32 :=
  let std_x := fsqrt (v_x (im_var_accel s)) in
  let std_y := fsqrt (v_y (im_var_accel s)) in
  let std_z := fsqrt (v_z (im_var_accel s)) in
  fsub (fdiv (fadd std_x std_y) (f32_of_Z 2)) std_z.

(** A sample of the selected sensor.  The time between samples is taken in microseconds. *)
Definition imbalance_sample (s : imu_status) (d : FailureDetector) : FailureDetector :=
  let dt := math_constrain (f32_of_Z (u64 (im_timestamp s - dt_imu_status_timestamp_prev d))) (flit 1 100) f1 in
  let lpf := af_update (imbalance_metric s) (af_setParameters dt (f32_of_Z 5) (dt_imbalanced_prop_lpf d)) in
  d <| dt_imu_status_timestamp_prev := im_timestamp s |> <| dt_imbalanced_prop_lpf := lpf |>
    <| dt_status := (dt_status d) <| fd_imbalanced_prop := fgt (af_state lpf) (f32_of_Z (FD_IMB_PROP_THR p)) |> |>.

(** The subscription after the search for the selected sensor. *)
Definition select_imu (t : topic imu_status) (selected : Z) (sub : Subscription) : Subscription :=
  let '(imu, sub) := su_copy ORB_MULTI_MAX_INSTANCES t sub in
  if im_accel_device_id (default imu_zero imu) =? selected then sub
  else find_imu (Z.to_nat ORB_MULTI_MAX_INSTANCES) 0 t selected sub.

Definition updateImbalancedPropStatus (i : fd_in) (d : FailureDetector) : FailureDetector :=
  let selected := default (dt_selected_accel_device_id d) (fi_selection i) in
  let d := d <| dt_selected_accel_device_id := selected |> in
  let '(updated, sub) := su_updated ORB_MULTI_MAX_INSTANCES (fi_imu i) (dt_imu_status_sub d) in
  let sub := select_imu (fi_imu i) selected sub in
  if updated then
    let '(imu, sub) := su_copy ORB_MULTI_MAX_INSTANCES (fi_imu i) sub in
    let d := d <| dt_imu_status_sub := sub |> in
    match imu with
    | Some s => if negb (im_accel_device_id s =? 0) && (im_accel_device_id s =? selected)
                then imbalance_sample s d else d
    | None => d
    end
  else d <| dt_imu_status_sub := sub |>.

(** ** Update *)

Definition reset_attitude (d : FailureDetector) : FailureDetector :=
  d <| dt_status := (dt_status d) <| fd_roll := false |> <| fd_pitch := false |> <| fd_alt := false |> <| fd_ext := false |> |>.

(** Whether the status has changed, and the new state. *)
Definition update (i : fd_in) (d : FailureDetector) : bool * FailureDetector :=
  let status_prev := dt_status d in
  let d := if fi_attitude_enabled i then
             let d := updateAttitudeStatus i d in
             if FD_EXT_ATS_EN p then updateExternalAtsStatus i d else d
           else reset_attitude d in
  let d := if FD_ESCS_EN p =? 0 then d else updateEscsStatus i d in
  let d := if FD_IMB_PROP_THR p >? 0 then updateImbalancedPropStatus i d else d in
  (negb (bool_decide (dt_status d = status_prev)), d).

Definition no_failures : fd_flags := mkFd false false false false false false.

(** The constructor; the subscription of the vibration status follows the topic as it is then. *)
Definition FailureDetector_new (imu : topic imu_status) : FailureDetector :=
  mkDetector no_failures (Hysteresis_new false) (Hysteresis_new false) (Hysteresis_new false) (Hysteresis_new false)
    (mkAlphaFilter f0 f0) 0 0 (Subscription_new ORB_MULTI_MAX_INSTANCES imu 0).

(** The commander passes its status and control mode, and reacts to a change. *)
Definition detect_and_react (now : Z) (k : sensor_checks) (cp : com_params) (i : fd_in) (d : FailureDetector) (c : commander)
  : FailureDetector * commander :=
  let i := i <| fi_attitude_enabled := flag_control_attitude_enabled (cm_mode c) |>
             <| fi_armed := bool_decide (arming_state (cm_status c) = ARMING_STATE_ARMED) |> in
  let '(changed, d) := update i d in
  (d, if changed then failure_detector_stage now k cp (dt_status d) c else c).

End Detector.

End FailureDetector.
