(* ===== verification/FailureDetectorSpec.v ===== *)
(** * What the failure detector detects

    Roll and pitch failures are flagged exactly when every attitude seen for the trigger time
    exceeded the limit ([attitude_failure_exact]), and reach the outputs through the commander
    ([attitude_failure_terminates]).  The time also runs while attitude control is off.  The
    filter of the propeller check does not depend on time, and the search for the selected
    sensor can lose the topic for good. *)
From stdpp Require Import gmap.
From coqutil Require Import Datatypes.RecordSettersUsingExistingGetters.
From S2P Require Import Prelude Float32 Linalg ControlMath Takeoff AttModule NavState ArmState Commander Uorb UorbSpec.
From S2P Require Import ArmStateSpec FailureDetector.
Import NavState ArmState ArmStateSpec Commander Uorb FailureDetector.
Local Open Scope Z_scope.

Module FailureDetectorSpec.

Section Detector.
Context `{Libm} (max : Z) (p : fd_params) (imu : topic imu_status).
Implicit Types (i : fd_in) (d : FailureDetector).

Definition pass i d : FailureDetector := snd (update max p i d).
Definition passes (l : list fd_in) d : FailureDetector := fold_left (fun d i => pass i d) l d.

(** ** What the parts leave alone *)

Definition same_attitude d d' : Prop :=
  dt_roll_failure d' = dt_roll_failure d /\ dt_pitch_failure d' = dt_pitch_failure d /\
  fd_roll (dt_status d') = fd_roll (dt_status d) /\ fd_pitch (dt_status d') = fd_pitch (dt_status d).

#[local] Instance same_attitude_trans : Transitive same_attitude.
Proof. intros d1 d2 d3 (A & B & C & D) (A' & B' & C' & D'). unfold same_attitude. intuition congruence. Qed.

Lemma ext_same i d : same_attitude d (updateExternalAtsStatus p i d).
Proof. unfold updateExternalAtsStatus. by case_match. Qed.

Lemma escs_same i d : same_attitude d (updateEscsStatus i d).
Proof. unfold updateEscsStatus. by repeat case_match. Qed.

Lemma prop_same i d : same_attitude d (updateImbalancedPropStatus max p i d).
Proof.
  unfold updateImbalancedPropStatus. destruct (su_updated _ _ _) as [u s]. destruct u; [|done].
  destruct (su_copy _ _ _) as [[x|] s']; [|done]. by case_match.
Qed.

Lemma same_if (b : bool) d d1 : same_attitude d d1 -> same_attitude d (if b then d1 else d).
Proof. by destruct b. Qed.

Lemma pass_same i d :
  same_attitude (if fi_attitude_enabled i then updateAttitudeStatus p i d else reset_attitude d) (pass i d).
Proof.
  unfold pass, update. cbn [snd].
  set (d1 := if fi_attitude_enabled i
             then (if FD_EXT_ATS_EN p then updateExternalAtsStatus p i (updateAttitudeStatus p i d) else updateAttitudeStatus p i d)
             else reset_attitude d).
  set (d2 := if FD_ESCS_EN p =? 0 then d1 else updateEscsStatus i d1).
  transitivity d1; [|transitivity d2].
  - subst d1. destruct (fi_attitude_enabled i); [|done]. apply same_if, ext_same.
  - subst d2. destruct (FD_ESCS_EN p =? 0); [done|apply escs_same].
  - apply same_if, prop_same.
Qed.

(** ** The delays *)

(** What a pass has seen of one angle: nothing without attitude control or a new attitude. *)
Definition seen (status : quat f32 -> bool) i : option bool :=
  if fi_attitude_enabled i then status <$> fi_attitude i else None.

(** The time of the first of the exceeding attitudes that were seen without interruption. *)
Definition since_step (status : quat f32 -> bool) (since : option Z) i : option Z :=
  match seen status i with
  | Some true => Some (default (fi_now i) since)
  | Some false => None
  | None => since
  end.

Definition exceeding_since (status : quat f32 -> bool) (l : list fd_in) : option Z :=
  fold_left (since_step status) l None.

Definition delay_step (t : Z) (status : quat f32 -> bool) i (h : Hysteresis) : Hysteresis :=
  match seen status i with Some b => delayed t (fi_now i) b h | None => h end.

Definition delay_inv (t : Z) (since : option Z) (last : Z) (h : Hysteresis) : Prop :=
  hy_time_from_true_us h = 0 /\ 0 <= last < 2 ^ 64 /\
  match since with
  | None => hy_state h = false /\ hy_requested_state h = false
  | Some t0 => hy_requested_state h = true /\ 0 <= t0 <= last /\
      (if hy_state h then t0 + t <= last else hy_last_time_to_change_state h = t0)
  end.

Lemma delay_inv_step t status since last i h :
  delay_inv t since last h -> last <= fi_now i < 2 ^ 64 ->
  delay_inv t (since_step status since i) (fi_now i) (delay_step t status i h).
Proof.
  intros (T & L & S) N. unfold since_step, delay_step.
  destruct (seen status i) as [[]|].
  - unfold delayed. pose proof (set_hysteresis_times true (fi_now i) (set_hysteresis_time_from false t h)) as [T1 _].
    pose proof (set_hysteresis_armed t since last (fi_now i) (set_hysteresis_time_from false t h) eq_refl
      ltac:(lia) ltac:(lia) S) as [R B].
    split; [by rewrite T1|]. split; [lia|]. split; [done|]. split; [|done].
    destruct since; cbn; lia.
  - unfold delayed. pose proof (set_hysteresis_times false (fi_now i) (set_hysteresis_time_from false t h)) as [T1 _].
    pose proof (set_hysteresis_disarmed (fi_now i) (set_hysteresis_time_from false t h) T) as D.
    split; [by rewrite T1|]. by split; [lia|].
  - split; [done|]. split; [lia|]. destruct since as [t0|]; [|done]. destruct S as (R & B & S).
    split; [done|]. split; [lia|]. destruct (hy_state h); [lia|done].
Qed.

(** When an exceeding attitude is seen the delay is over exactly after its time. *)
Lemma delay_exact t status since last i h t0 :
  delay_inv t since last h -> last <= fi_now i < 2 ^ 64 -> seen status i = Some true ->
  since_step status since i = Some t0 -> hy_state (delay_step t status i h) = (t <=? fi_now i - t0).
Proof.
  intros (T & L & S) N V S0. unfold since_step in S0. rewrite V in S0. injection S0 as <-.
  unfold delay_step, delayed. rewrite V.
  by apply (set_hysteresis_exact t since last); [|lia..|].
Qed.

Abbreviation roll_time := (seconds (FD_FAIL_R_TTRI p)).
Abbreviation pitch_time := (seconds (FD_FAIL_P_TTRI p)).

Lemma pass_delays i d :
  dt_roll_failure (pass i d) = delay_step roll_time (roll_status p) i (dt_roll_failure d) /\
  dt_pitch_failure (pass i d) = delay_step pitch_time (pitch_status p) i (dt_pitch_failure d).
Proof.
  destruct (pass_same i d) as (-> & -> & _). unfold delay_step, seen, updateAttitudeStatus.
  destruct (fi_attitude_enabled i); [|done]. by destruct (fi_attitude i).
Qed.

Lemma pass_flags i d q :
  fi_attitude_enabled i = true -> fi_attitude i = Some q ->
  fd_roll (dt_status (pass i d)) = hy_state (dt_roll_failure (pass i d)) /\
  fd_pitch (dt_status (pass i d)) = hy_state (dt_pitch_failure (pass i d)).
Proof.
  intros E Q. destruct (pass_same i d) as (-> & -> & -> & ->). rewrite E. unfold updateAttitudeStatus. by rewrite Q.
Qed.

Fixpoint times_from (t0 : Z) (l : list fd_in) : Prop :=
  match l with [] => True | i :: l => t0 <= fi_now i < 2 ^ 64 /\ times_from (fi_now i) l end.

Definition both_inv (sr sp : option Z) (last : Z) d : Prop :=
  delay_inv roll_time sr last (dt_roll_failure d) /\ delay_inv pitch_time sp last (dt_pitch_failure d).

Lemma both_inv_pass sr sp last i d :
  both_inv sr sp last d -> last <= fi_now i < 2 ^ 64 ->
  both_inv (since_step (roll_status p) sr i) (since_step (pitch_status p) sp i) (fi_now i) (pass i d).
Proof.
  intros [R P] N. destruct (pass_delays i d) as [Er Ep]. unfold both_inv. rewrite Er, Ep.
  split; by apply delay_inv_step with last.
Qed.

Lemma both_inv_new : both_inv None None 0 (FailureDetector_new max imu).
Proof. by repeat split. Qed.

Lemma passes_inv l : forall sr sp last d,
  both_inv sr sp last d -> times_from last l ->
  exists last', both_inv (fold_left (since_step (roll_status p)) l sr) (fold_left (since_step (pitch_status p)) l sp)
    last' (passes l d) /\ forall i, times_from last (l ++ [i]) -> last' <= fi_now i < 2 ^ 64.
Proof.
  induction l as [|j l IH]; intros sr sp last d I T.
  - exists last. split; [done|]. intros i [Ti _]. done.
  - destruct T as [Tj T]. destruct (IH _ _ _ _ (both_inv_pass _ _ _ j d I Tj) T) as (last' & I' & L).
    exists last'. split; [done|]. intros i [_ Ti]. by apply L.
Qed.

(** A flag follows its delay. *)
Definition flagged_exactly (t now : Z) (status : quat f32 -> bool) (l : list fd_in) (flag : bool) : Prop :=
  flag = true <-> exists t0, exceeding_since status l = Some t0 /\ t <= now - t0.

Lemma flag_exact t status since last i h flag :
  delay_inv t since last h -> last <= fi_now i < 2 ^ 64 -> (exists b, seen status i = Some b) ->
  flag = hy_state (delay_step t status i h) ->
  flag = true <-> exists t0, since_step status since i = Some t0 /\ t <= fi_now i - t0.
Proof.
  intros I N [b V] ->. destruct (since_step status since i) as [t0|] eqn:S.
  - destruct b.
    + rewrite (delay_exact t status since last i h t0 I N V S), Z.leb_le.
      split; [intros; by exists t0|]. by intros (t' & [= <-] & ?).
    + unfold since_step in S. by rewrite V in S.
  - pose proof (delay_inv_step t status since last i h I N) as (_ & _ & J). rewrite S in J.
    destruct J as [-> _]. split; [done|]. by intros (t0 & ? & _).
Qed.

Lemma times_snoc l : forall t0 i, times_from t0 (l ++ [i]) -> times_from t0 l.
Proof. induction l as [|j l IH]; intros t0 i T; [done|]. destruct T as [Tj T]. split; [done|]. by apply IH with i. Qed.

Lemma attitude_exact l i q (d := passes (l ++ [i]) (FailureDetector_new max imu)) :
  times_from 0 (l ++ [i]) -> fi_attitude_enabled i = true -> fi_attitude i = Some q ->
  flagged_exactly roll_time (fi_now i) (roll_status p) (l ++ [i]) (fd_roll (dt_status d)) /\
  flagged_exactly pitch_time (fi_now i) (pitch_status p) (l ++ [i]) (fd_pitch (dt_status d)).
Proof.
  intros T E Q. subst d. unfold passes, flagged_exactly, exceeding_since. rewrite !fold_left_app. cbn [fold_left].
  fold (passes l (FailureDetector_new max imu)).
  destruct (passes_inv l None None 0 _ both_inv_new (times_snoc _ _ _ T)) as (last & [R P] & L).
  specialize (L i T). destruct (pass_flags i (passes l (FailureDetector_new max imu)) q E Q) as [Fr Fp].
  destruct (pass_delays i (passes l (FailureDetector_new max imu))) as [Dr Dp]. rewrite Dr in Fr. rewrite Dp in Fp.
  split; eapply flag_exact; eauto; unfold seen; rewrite E, Q; eauto.
Qed.

(** C15 (functional). Roll and pitch are flagged exactly.  After every pass that sees an attitude under attitude
    control, from the construction on, the roll flag is set if and only if all the attitudes
    that were seen from some time on exceed the limit and that time is at least the trigger
    time ago; and so is the pitch flag. *)
Theorem attitude_failure_exact l i q (d := passes (l ++ [i]) (FailureDetector_new max imu)) :
  times_from 0 (l ++ [i]) -> fi_attitude_enabled i = true -> fi_attitude i = Some q ->
  flagged_exactly roll_time (fi_now i) (roll_status p) (l ++ [i]) (fd_roll (dt_status d)) /\
  flagged_exactly pitch_time (fi_now i) (pitch_status p) (l ++ [i]) (fd_pitch (dt_status d)).
Proof. apply attitude_exact. Qed.

(** ** The way to the outputs *)

Definition attitude_failed (f : fd_flags) : bool := fd_roll f || fd_pitch f.

(** A flag that is set was reported when it was raised. *)
Lemma failure_reported l :
  attitude_failed (dt_status (passes l (FailureDetector_new max imu))) = true ->
  exists l1 j l2, l = l1 ++ j :: l2 /\ fst (update max p j (passes l1 (FailureDetector_new max imu))) = true /\
    attitude_failed (dt_status (pass j (passes l1 (FailureDetector_new max imu)))) = true.
Proof.
  induction l as [|i l IH] using rev_ind; [done|]. unfold passes. rewrite fold_left_app. cbn [fold_left].
  fold (passes l (FailureDetector_new max imu)). intros F.
  destruct (attitude_failed (dt_status (passes l (FailureDetector_new max imu)))) eqn:E.
  - destruct (IH eq_refl) as (l1 & j & l2 & -> & R). exists l1, j, (l2 ++ [i]). by rewrite <- app_assoc.
  - exists l, i, []. split; [done|]. split; [|done].
    change (negb (bool_decide (dt_status (pass i (passes l (FailureDetector_new max imu)))
      = dt_status (passes l (FailureDetector_new max imu)))) = true).
    apply negb_true_iff, bool_decide_eq_false. intros S. by rewrite S, E in F.
Qed.

Lemma disarm_keeps now k cp reason forced c :
  let c' := snd (disarm_vehicle now k cp reason forced c) in
  cm_lockdown_triggered c' = cm_lockdown_triggered c /\
  cm_flight_termination_triggered c' = cm_flight_termination_triggered c /\
  circuit_breaker_flight_termination_disabled (cm_flags c')
  = circuit_breaker_flight_termination_disabled (cm_flags c).
Proof.
  unfold disarm_vehicle. destruct (_ && _); [done|]. unfold arming_transition, transition_with.
  set (a := mkArmCtx _ _ _ _).
  pose proof (transition_same now k (cm_mode c) (cm_safety c) (cm_requirements c) ARMING_STATE_STANDBY false reason a) as S.
  destruct (arming_state_transition _ _ _ _ _ _ _ _ _) as [r a']. cbn [snd] in S.
  assert (circuit_breaker_flight_termination_disabled (ac_flags a')
    = circuit_breaker_flight_termination_disabled (cm_flags c)) as B.
  { destruct S as (_ & _ & _ & _ & _ & _ & ->). done. }
  cbn [snd]. by case_match.
Qed.

(** What the commander does with an attitude failure, unless it may not or already did. *)
Lemma commander_cuts now k cp f c :
  attitude_failed f = true -> armed (cm_armed c) = true ->
  circuit_breaker_flight_termination_disabled (cm_flags c) = false ->
  cm_flight_termination_triggered c = false -> cm_lockdown_triggered c = false ->
  let c' := failure_detector_stage now k cp f c in
  force_failsafe (cm_armed c') = true \/ lockdown (cm_armed c') = true.
Proof.
  intros F A B T L. unfold failure_detector_stage. rewrite A.
  assert (exists c1, fd_escs now k cp f c = c1 /\ circuit_breaker_flight_termination_disabled (cm_flags c1) = false /\
    cm_flight_termination_triggered c1 = false /\ cm_lockdown_triggered c1 = false) as (c1 & -> & B1 & T1 & L1).
  { eexists. split; [done|]. unfold fd_escs. case_match; [|done].
    destruct (disarm_keeps now k cp failure_detector false c) as (-> & -> & ->). done. }
  unfold fd_critical. unfold attitude_failed in F. rewrite F. cbn [orb]. rewrite L1, B1, T1. cbn [negb andb].
  rewrite andb_true_r. destruct (elapsed_less _ _ _); unfold fd_propeller; case_match; auto.
Qed.

(** C16 (liveness). An attitude failure reaches the outputs: once every roll (or every pitch) that was seen for
    the trigger time exceeded its limit, some pass has reported a change with the flag set,
    and with it an armed commander that is allowed to terminate, and has not done so before,
    forces the outputs or locks the motors. *)
Theorem attitude_failure_terminates l i q t0 :
  times_from 0 (l ++ [i]) -> fi_attitude_enabled i = true -> fi_attitude i = Some q ->
  exceeding_since (roll_status p) (l ++ [i]) = Some t0 /\ roll_time <= fi_now i - t0 \/
  exceeding_since (pitch_status p) (l ++ [i]) = Some t0 /\ pitch_time <= fi_now i - t0 ->
  exists l1 j l2 (d := passes l1 (FailureDetector_new max imu)), l ++ [i] = l1 ++ j :: l2 /\ fst (update max p j d) = true /\
    forall now k cp c, armed (cm_armed c) = true ->
      circuit_breaker_flight_termination_disabled (cm_flags c) = false ->
      cm_flight_termination_triggered c = false -> cm_lockdown_triggered c = false ->
      let c' := failure_detector_stage now k cp (dt_status (pass j d)) c in
      force_failsafe (cm_armed c') = true \/ lockdown (cm_armed c') = true.
Proof.
  intros T E Q X. destruct (failure_reported (l ++ [i])) as (l1 & j & l2 & Eq & R & F).
  - destruct (attitude_exact l i q T E Q) as [[_ Xr] [_ Xp]]. unfold attitude_failed.
    destruct X as [X|X]; [rewrite Xr by eauto; done|rewrite Xp by eauto; apply orb_true_r].
  - exists l1, j, l2. split; [done|]. split; [done|]. intros. by apply commander_cuts.
Qed.

Lemma since_gap status gap since :
  Forall (fun i => fi_attitude_enabled i = false) gap -> fold_left (since_step status) gap since = since.
Proof.
  induction 1 as [|i l Hi F IH]; [done|]. cbn [fold_left].
  replace (since_step status since i) with since; [done|]. unfold since_step, seen. by rewrite Hi.
Qed.

(** The trigger time also runs while attitude control is off and nothing is checked: one
    exceeding roll before and one after such a time are a failure, however short the vehicle
    was tilted under attitude control. *)
Theorem trigger_time_spans_gaps i1 gap i2 q1 q2 :
  times_from 0 (i1 :: gap ++ [i2]) -> Forall (fun i => fi_attitude_enabled i = false) gap ->
  fi_attitude_enabled i1 = true -> fi_attitude i1 = Some q1 -> roll_status p q1 = true ->
  fi_attitude_enabled i2 = true -> fi_attitude i2 = Some q2 -> roll_status p q2 = true ->
  roll_time <= fi_now i2 - fi_now i1 ->
  fd_roll (dt_status (passes (i1 :: gap ++ [i2]) (FailureDetector_new max imu))) = true.
Proof.
  intros T G E1 Q1 R1 E2 Q2 R2 L.
  destruct (attitude_exact (i1 :: gap) i2 q2 T E2 Q2) as [[_ X] _]. apply X. exists (fi_now i1). split; [|done].
  unfold exceeding_since. cbn [fold_left app]. rewrite fold_left_app, (since_gap _ gap) by done. cbn [fold_left].
  unfold since_step, seen. by rewrite E1, Q1, E2, Q2; cbn; rewrite R1, R2.
Qed.

(** ** Imbalanced propellers *)

(** The filter of the propeller check does not know the time: for two samples of the same
    variances the new metric and the flag are the same whenever they are taken, from one
    microsecond to years after the last sample. *)
Theorem imbalance_filter_ignores_time d s s' :
  im_var_accel s = im_var_accel s' ->
  1 <= u64 (im_timestamp s - dt_imu_status_timestamp_prev d) ->
  1 <= u64 (im_timestamp s' - dt_imu_status_timestamp_prev d) ->
  dt_imbalanced_prop_lpf (imbalance_sample p s d) = dt_imbalanced_prop_lpf (imbalance_sample p s' d) /\
  dt_status (imbalance_sample p s d) = dt_status (imbalance_sample p s' d).
Proof.
  intros V T T'. unfold imbalance_sample.
  rewrite !(constrain_to_1 (f32_of_Z _)) by (done || by apply f32_of_Z_ge_1).
  assert (imbalance_metric s = imbalance_metric s') as -> by (unfold imbalance_metric; by rewrite V). done.
Qed.

(** Only the first instance of the topic exists. *)
Definition only_first (t : topic imu_status) : Prop :=
  deviceNodeExists max t 0 = true /\ forall j, 1 <= j -> deviceNodeExists max t j = false.

(** Its messages are not of the selected sensor. *)
Definition foreign (selected : Z) (t : topic imu_status) : Prop :=
  forall n b s, t !! 0 = Some n -> nd_data n = Some b -> In s b -> im_accel_device_id s <> selected.

(** The subscription has moved to an instance that does not exist. *)
Definition stranded (s : Subscription) : Prop := su_instance s = 1 /\ su_valid s = false.

Lemma stranded_subscribe t s : only_first t -> stranded s -> subscribe max t s = s.
Proof. intros [_ O] [I V]. unfold subscribe, getDeviceNode. by rewrite V, I, O. Qed.

Lemma stranded_copy t s : only_first t -> stranded s -> su_copy max t s = (None, s).
Proof.
  intros O S. unfold su_copy, su_read. rewrite stranded_subscribe by done. unfold su_node.
  by rewrite (proj2 S).
Qed.

Lemma stranded_updated t s : only_first t -> stranded s -> su_updated max t s = (false, s).
Proof.
  intros O S. unfold su_updated. rewrite stranded_subscribe by done. unfold su_node. by rewrite (proj2 S).
Qed.

Lemma stranded_find t sel s tries : forall (j : Z), only_first t -> stranded s -> find_imu max tries j t sel s = s.
Proof.
  induction tries as [|tries IH]; intros j O S; [done|]. cbn [find_imu]. unfold ChangeInstance.
  rewrite (proj1 S). destruct (j =? 1).
  - rewrite stranded_copy by done. by apply IH.
  - rewrite (proj2 O 1) by lia. by apply IH.
Qed.

Lemma stranded_select t sel s : only_first t -> stranded s -> select_imu max t sel s = s.
Proof.
  intros O S. unfold select_imu. rewrite stranded_copy by done. case_match; [done|]. by apply stranded_find.
Qed.

Lemma stranded_prop i d :
  only_first (fi_imu i) -> stranded (dt_imu_status_sub d) ->
  dt_status (updateImbalancedPropStatus max p i d) = dt_status d /\
  stranded (dt_imu_status_sub (updateImbalancedPropStatus max p i d)).
Proof.
  intros O S. unfold updateImbalancedPropStatus.
  change (dt_imu_status_sub (d <| dt_selected_accel_device_id := _ |>)) with (dt_imu_status_sub d).
  rewrite stranded_updated, stranded_select by done. done.
Qed.

(** *** How it gets there *)

Lemma copy_in n g (x : imu_status) g' b : nd_data n = Some b -> copy n g = Some (x, g') -> In x b.
Proof.
  intros B C. unfold copy in C. rewrite B in C. apply list_elem_of_In.
  destruct (nd_queue_size n =? 1); cbn in C.
  - destruct b as [|y b]; [done|]. injection C as <- _. by left.
  - destruct (b !! _) eqn:L in C; [|done]. injection C as <- _. by apply list_elem_of_lookup_2 in L.
Qed.

Lemma foreign_copy t sel s x s' :
  foreign sel t -> su_instance s = 0 -> su_copy max t s = (Some x, s') -> im_accel_device_id x <> sel.
Proof.
  intros F I C. unfold su_copy, su_read in C.
  assert (su_instance (subscribe max t s) = 0) as I' by (unfold subscribe; by repeat case_match).
  unfold su_node in C. destruct (su_valid (subscribe max t s)); [|done]. rewrite I' in C.
  destruct (t !! 0) as [n|] eqn:N; [|done]. cbn [mbind option_bind] in C. unfold orb_data_copy in C.
  destruct (negb (nd_advertised n)); [done|]. cbn [andb] in C.
  destruct (copy n _) as [[y g]|] eqn:Cn; [|done]. injection C as <- _.
  destruct (nd_data n) as [b|] eqn:B; [|by unfold copy in Cn; rewrite B in Cn].
  apply (F n b); [done|done|]. by eapply copy_in.
Qed.

Lemma copy_instance (t : topic imu_status) s : su_instance (snd (su_copy max t s)) = su_instance s.
Proof.
  unfold su_copy, su_read. assert (su_instance (subscribe max t s) = su_instance s) as E by (unfold subscribe; by repeat case_match).
  destruct (n ← _; _) as [[x g]|]; exact E.
Qed.

(** The search for a sensor that has no instance. *)
Lemma find_strands t sel s tries :
  only_first t -> foreign sel t -> su_instance s = 0 -> stranded (find_imu max (S (S tries)) 0 t sel s).
Proof.
  intros O F I. cbn [find_imu]. unfold ChangeInstance at 1. rewrite I. cbn [Z.eqb].
  pose proof (copy_instance t s) as I'. destruct (su_copy max t s) as [x s1] eqn:C. cbn [snd] in I'.
  assert (match x with Some y => im_accel_device_id y =? sel | None => false end = false) as ->.
  { destruct x as [x|]; [|done]. apply Z.eqb_neq. by eapply foreign_copy. }
  change (0 + 1) with 1. unfold ChangeInstance at 1. rewrite I', I. cbn [Z.eqb]. rewrite (proj1 O).
  set (s2 := subscribe _ _ _).
  assert (stranded s2) as S.
  { subst s2. rewrite stranded_subscribe; done. }
  rewrite stranded_copy by done. by rewrite stranded_find.
Qed.

Lemma subscribe_idem (t : topic imu_status) s : subscribe max t (subscribe max t s) = subscribe max t s.
Proof.
  unfold subscribe at 2 3. destruct (su_valid s) eqn:V; [unfold subscribe; by rewrite V|].
  destruct (getDeviceNode max t (su_instance s)) eqn:N; [done|]. unfold subscribe. by rewrite V, N.
Qed.

Lemma select_strands t sel s :
  2 <= max -> only_first t -> foreign sel t -> su_instance s = 0 ->
  sel <> 0 \/ (exists x, fst (su_copy max t s) = Some x) -> stranded (select_imu max t sel s).
Proof.
  intros M O F I D. unfold select_imu. pose proof (copy_instance t s) as I'.
  destruct (su_copy max t s) as [x s1] eqn:C. cbn [fst snd] in *.
  destruct (Z.eqb_spec (im_accel_device_id (default imu_zero x)) sel) as [E|_].
  - exfalso. destruct x as [x|]; cbn in E; [by eapply foreign_copy|]. destruct D as [|[? ?]]; [lia|done].
  - destruct (Z.to_nat max) as [|[|k]] eqn:K; [lia|lia|]. apply find_strands; [done|done|lia].
Qed.

Lemma strands_prop i d :
  2 <= max -> only_first (fi_imu i) -> su_instance (dt_imu_status_sub d) = 0 ->
  (let selected := default (dt_selected_accel_device_id d) (fi_selection i) in
   foreign selected (fi_imu i) /\ (selected <> 0 \/ exists s, fst (su_copy max (fi_imu i) (dt_imu_status_sub d)) = Some s)) ->
  stranded (dt_imu_status_sub (updateImbalancedPropStatus max p i d)).
Proof.
  intros M O I [F D]. unfold updateImbalancedPropStatus.
  change (dt_imu_status_sub (d <| dt_selected_accel_device_id := _ |>)) with (dt_imu_status_sub d).
  unfold su_updated. set (s0 := subscribe max (fi_imu i) (dt_imu_status_sub d)).
  assert (stranded (select_imu max (fi_imu i) (default (dt_selected_accel_device_id d) (fi_selection i)) s0)) as S.
  { apply select_strands; [done|done|done| |].
    - subst s0. unfold subscribe. by repeat case_match.
    - destruct D as [D|D]; [by left|right]. subst s0. unfold su_copy, su_read in *. by rewrite subscribe_idem. }
  destruct (match su_node _ _ with Some n => _ | None => false end); [|exact S].
  rewrite stranded_copy by done. exact S.
Qed.

(** The other parts of a pass do not touch the check. *)
Definition same_check d d' : Prop :=
  dt_imu_status_sub d' = dt_imu_status_sub d /\ dt_selected_accel_device_id d' = dt_selected_accel_device_id d /\
  fd_imbalanced_prop (dt_status d') = fd_imbalanced_prop (dt_status d).

#[local] Instance same_check_trans : Transitive same_check.
Proof. intros d1 d2 d3 (A & B & C) (A' & B' & C'). unfold same_check. intuition congruence. Qed.

Lemma pass_check i d :
  FD_IMB_PROP_THR p > 0 -> exists d', same_check d d' /\ pass i d = updateImbalancedPropStatus max p i d'.
Proof.
  intros P. unfold pass, update. destruct (Z.gtb_spec (FD_IMB_PROP_THR p) 0); [|lia]. cbn [snd].
  eexists. split; [|reflexivity].
  set (d1 := if fi_attitude_enabled i
             then (if FD_EXT_ATS_EN p then updateExternalAtsStatus p i (updateAttitudeStatus p i d) else updateAttitudeStatus p i d)
             else reset_attitude d).
  transitivity d1.
  - subst d1. destruct (fi_attitude_enabled i); [|done]. transitivity (updateAttitudeStatus p i d).
    + unfold updateAttitudeStatus. by case_match.
    + destruct (FD_EXT_ATS_EN p); [|done]. unfold updateExternalAtsStatus. by case_match.
  - destruct (_ =? 0); [done|]. unfold updateEscsStatus. by repeat case_match.
Qed.

Lemma stranded_passes l : forall d,
  FD_IMB_PROP_THR p > 0 -> Forall (fun j => only_first (fi_imu j)) l -> stranded (dt_imu_status_sub d) ->
  fd_imbalanced_prop (dt_status (passes l d)) = fd_imbalanced_prop (dt_status d).
Proof.
  induction l as [|i l IH]; intros d P O S; [done|]. inversion_clear O as [|? ? Oi Ol].
  destruct (pass_check i d P) as (d' & (A & _ & B) & E).
  destruct (stranded_prop i d' Oi) as [U S']; [by rewrite A|].
  change (passes (i :: l) d) with (passes l (pass i d)). rewrite E, IH by done. by rewrite U.
Qed.

(** The check of the propellers goes blind.  In a vehicle with one inertial sensor, one pass that
    finds a message of another sensor than the selected one (for example before the first
    selection) leaves the subscription at an instance that does not exist, and no later pass,
    whatever is selected or measured, changes the flag. *)
Theorem imbalance_check_goes_blind i l d :
  2 <= max -> FD_IMB_PROP_THR p > 0 -> su_instance (dt_imu_status_sub d) = 0 ->
  (let selected := default (dt_selected_accel_device_id d) (fi_selection i) in
   foreign selected (fi_imu i) /\ (selected <> 0 \/ exists s, fst (su_copy max (fi_imu i) (dt_imu_status_sub d)) = Some s)) ->
  Forall (fun j => only_first (fi_imu j)) (i :: l) ->
  fd_imbalanced_prop (dt_status (passes l (pass i d))) = fd_imbalanced_prop (dt_status (pass i d)).
Proof.
  intros M P I D O. inversion_clear O as [|? ? Oi Ol]. apply stranded_passes; [done|done|].
  destruct (pass_check i d P) as (d' & (A & B & _) & E). rewrite E.
  apply strands_prop; [done|done|by rewrite A|]. by rewrite A, B.
Qed.

End Detector.

(** ** A vehicle that rolls over *)

Definition fd_defaults : fd_params := mkFdParams 60 60 (flit 3 10) (flit 3 10) false 1900 1 30.
Definition level : quat f32 := Quat f1 f0 f0 f0.
Definition tilted : quat f32 := Quat f1 f1 f0 f0.
Definition attitude_at (t : Z) (q : quat f32) : fd_in := mkFdIn t true true (Some q) None None None ∅.
Definition acro_at (t : Z) : fd_in := mkFdIn t false true None None None None ∅.

Definition rollover : list fd_in :=
  [attitude_at 1000000 level; attitude_at 1010000 tilted; attitude_at 1200000 tilted; attitude_at 1300000 tilted].
Definition rollover_end : fd_in := attitude_at 1320000 tilted.

Lemma rollover_times : times_from 0 (rollover ++ [rollover_end]).
Proof. vm_compute. repeat split; discriminate. Qed.

Lemma rollover_since :
  exceeding_since (roll_status (H := demo_libm) fd_defaults) (rollover ++ [rollover_end]) = Some 1010000.
Proof. vm_compute. reflexivity. Qed.

Lemma attitude_failure_exact_witness :
  fd_roll (dt_status (passes (H := demo_libm) 10 fd_defaults (rollover ++ [rollover_end]) (FailureDetector_new 10 ∅))) = true.
Proof.
  destruct (attitude_failure_exact (H := demo_libm) 10 fd_defaults ∅ rollover rollover_end tilted
    rollover_times eq_refl eq_refl) as [[_ R] _].
  apply R. exists 1010000. split; [apply rollover_since|vm_compute; discriminate].
Defined.

Lemma attitude_failure_terminates_witness :
  exists l1 j l2, rollover ++ [rollover_end] = l1 ++ j :: l2 /\
    fst (update (H := demo_libm) 10 fd_defaults j (passes (H := demo_libm) 10 fd_defaults l1 (FailureDetector_new 10 ∅))) = true.
Proof.
  destruct (attitude_failure_terminates (H := demo_libm) 10 fd_defaults ∅ rollover rollover_end tilted 1010000
    rollover_times eq_refl eq_refl) as (l1 & j & l2 & E & U & _).
  - left. split; [apply rollover_since|vm_compute; discriminate].
  - by exists l1, j, l2.
Defined.

(** One tilted attitude before and one after five seconds of acrobatics. *)
Lemma trigger_time_spans_gaps_witness :
  fd_roll (dt_status (passes (H := demo_libm) 10 fd_defaults
    (attitude_at 1000000 tilted :: [acro_at 1010000; acro_at 6000000] ++ [attitude_at 6010000 tilted])
    (FailureDetector_new 10 ∅))) = true.
Proof.
  apply (trigger_time_spans_gaps (H := demo_libm) 10 fd_defaults ∅ (attitude_at 1000000 tilted)
    [acro_at 1010000; acro_at 6000000] (attitude_at 6010000 tilted) tilted tilted).
  - vm_compute. repeat split; discriminate.
  - repeat constructor.
  - reflexivity.
  - reflexivity.
  - vm_compute; reflexivity.
  - reflexivity.
  - reflexivity.
  - vm_compute; reflexivity.
  - vm_compute; discriminate.
Defined.

Definition shaking (t : Z) : imu_status := mkImu t 7 (V3 (f32_of_Z 40000) (f32_of_Z 40000) f1).

Lemma imbalance_filter_ignores_time_witness :
  dt_status (imbalance_sample fd_defaults (shaking 1) (FailureDetector_new 10 ∅))
  = dt_status (imbalance_sample fd_defaults (shaking 3600000000) (FailureDetector_new 10 ∅)).
Proof.
  apply (imbalance_filter_ignores_time fd_defaults (FailureDetector_new 10 ∅) (shaking 1) (shaking 3600000000)).
  - reflexivity.
  - vm_compute; discriminate.
  - vm_compute; discriminate.
Defined.

(** The sensor publishes, is selected a moment later, and shakes. *)
Definition imu_topic (t : Z) : topic imu_status :=
  {[ 0 := mkNode (Some [shaking t]) true (t / 1000) true 1 ]}.
Definition imu_at (t : Z) (selection : option Z) : fd_in := mkFdIn t false true None None None selection (imu_topic t).

Lemma imu_only_first t : only_first 10 (imu_topic t).
Proof.
  split; [reflexivity|]. intros j J. unfold deviceNodeExists.
  destruct (imu_topic t !! j) eqn:L; [|apply andb_false_r].
  apply (proj1 (lookup_singleton_Some (M := gmap Z) 0 j (mkNode (Some [shaking t]) true (t / 1000) true 1) n)) in L
    as [? _]. lia.
Qed.

Lemma imbalance_check_goes_blind_witness :
  let l := [imu_at 2000 (Some 7); imu_at 3000 None; imu_at 4000 None; imu_at 5000 None] in
  fd_imbalanced_prop (dt_status (passes (H := demo_libm) 10 fd_defaults l (FailureDetector_new 10 ∅))) = true /\
  fd_imbalanced_prop (dt_status (passes (H := demo_libm) 10 fd_defaults l
    (pass (H := demo_libm) 10 fd_defaults (imu_at 1000 None) (FailureDetector_new 10 ∅)))) = false.
Proof.
  intros l. split; [vm_compute; reflexivity|].
  etransitivity; [apply (imbalance_check_goes_blind (H := demo_libm) 10 fd_defaults (imu_at 1000 None) l
    (FailureDetector_new 10 ∅))|vm_compute; reflexivity].
  - lia.
  - reflexivity.
  - reflexivity.
  - split; [|right; exists (shaking 1000); vm_compute; reflexivity].
    intros n b s N B I. vm_compute in N. injection N as <-. vm_compute in B. injection B as <-.
    destruct I as [<-|[]]. vm_compute. discriminate.
  - repeat (constructor; [apply imu_only_first|]). constructor.
Defined.

End FailureDetectorSpec.
