(* ===== verification/RcUpdate.v ===== *)
(** * Radio input

    src/src/modules/rc_update: from the pulse widths of a receiver to the pilot's setpoint,
    the positions of the switches and the auxiliary outputs.  One message of input_rc is one
    run; the parameters are read as they are at that time.  The conversion of the calibration
    parameters to integers, parameters that are set from the radio, the topic rc_channels,
    which is for debugging, and warnings are left out. *)
From coqutil Require Import Datatypes.RecordSettersUsingExistingGetters.
From S2P Require Import Prelude Float32 Takeoff ManualControl.
Import ManualControl.
Local Open Scope Z_scope.

Module RcUpdate.

(** ** Data *)

#[export] Instance switches_eq_dec : EqDecision manual_control_switches.
Proof. solve_decision. Defined.

Definition RC_MAX_CHAN_COUNT : Z := 18.
Definition VALID_DATA_MIN_INTERVAL_US : Z := 1000000 / 3.
Definition MODE_SLOT_NUM : Z := 6.

(** The functions of channels. *)
Definition FUNCTION_THROTTLE : Z := 0.
Definition FUNCTION_ROLL : Z := 1.
Definition FUNCTION_PITCH : Z := 2.
Definition FUNCTION_YAW : Z := 3.
Definition FUNCTION_RETURN : Z := 4.
Definition FUNCTION_LOITER : Z := 5.
Definition FUNCTION_OFFBOARD : Z := 6.
Definition FUNCTION_FLAPS : Z := 7.
Definition FUNCTION_AUX_1 : Z := 8.
Definition FUNCTION_KILLSWITCH : Z := 17.
Definition FUNCTION_TRANSITION : Z := 18.
Definition FUNCTION_GEAR : Z := 19.
Definition FUNCTION_ARMSWITCH : Z := 20.
Definition FUNCTION_FLTBTN_SLOT_1 : Z := 21.

(** The calibration of a channel. *)
Record calibration := mkCal { cal_min : Z; cal_trim : Z; cal_max : Z; cal_dz : Z; cal_rev : bool }.

Record rc_params := mkRcParams {
  rc_cal : Z -> calibration;            (** by channel *)
  rc_map : Z -> Z;                      (** RC_MAP_* of a function, RC_MAP_PARAM* for 14 to 16 *)
  rc_map_failsafe : Z;
  rc_map_fltmode : Z;
  rc_map_fltm_btn : Z;
  rc_fails_thr : Z;
  rc_return_th : f32; rc_loiter_th : f32; rc_offb_th : f32; rc_killswitch_th : f32;
  rc_armswitch_th : f32; rc_trans_th : f32; rc_gear_th : f32
}.

Definition RC_INPUT_SOURCE_PX4FMU_PPM : Z := 1.
Definition RC_INPUT_SOURCE_PX4IO_PPM : Z := 2.

Record input_rc := mkInputRc {
  ir_timestamp_last_signal : Z;
  ir_channel_count : Z;
  ir_rc_failsafe : bool;
  ir_rc_lost : bool;
  ir_input_source : Z;
  ir_values : list Z                    (** 18 pulse widths *)
}.

(** A message of manual_control_switches with its times. *)
Record switches_msg := mkSwitchesMsg {
  sm_switches : manual_control_switches;
  sm_timestamp_sample : Z;
  sm_timestamp : Z;
  sm_switch_changes : Z
}.
Definition no_switches_msg : switches_msg := mkSwitchesMsg no_switches 0 0 0.

(** One auxiliary output: the last input, and whether the radio drives it. *)
Record aux_state := mkAux { aux_last : f32; aux_already_active : bool }.

Record RCUpdate := mkRc {
  ru_channels : list f32;
  ru_manual_switches_previous : switches_msg;
  ru_manual_switches_last_publish : switches_msg;
  ru_last_manual_control_input_publish : Z;
  ru_last_timestamp_signal : Z;
  ru_rc_values_previous : list Z;
  ru_aux : aux_state * aux_state * aux_state;
  ru_channel_count_previous : Z;
  ru_input_source_previous : Z;
  ru_potential_button_press_slot : Z;
  ru_button_pressed : Hysteresis;
  ru_rc_signal_lost : Hysteresis
}.

Inductive rc_published :=
| rc_input (sp : manual_control_setpoint)
| rc_actuators (control : list f32)
| rc_switches (s : switches_msg).

Section Rc.
Context (now : Z) (p : rc_params).

(** ** Functions *)

(** The channels of the mode buttons, in order. *)
Definition map_flight_modes_buttons : list Z :=
  firstn (Z.to_nat MODE_SLOT_NUM)
    (filter (fun c => Z.testbit (rc_map_fltm_btn p) c = true) (Z.of_nat <$> seq 0 (Z.to_nat RC_MAX_CHAN_COUNT))).

(** [_rc.function]. *)
Definition rc_function (func : Z) : Z :=
  if FUNCTION_FLTBTN_SLOT_1 <=? func
  then default (-1) (map_flight_modes_buttons !! Z.to_nat (func - FUNCTION_FLTBTN_SLOT_1))
  else s8 (rc_map p func - 1).

(** The channel that a function reads; the ranges of the parameters keep it below 18. *)
Definition channel (ch : list f32) (i : Z) : f32 := default f0 (ch !! Z.to_nat i).

Definition get_rc_value (ch : list f32) (func : Z) (min_value max_value : f32) : f32 :=
  if 0 <=? rc_function func then math_constrain (channel ch (rc_function func)) min_value max_value else f0.

Definition get_rc_sw2pos_position (ch : list f32) (func : Z) (on_th : f32) : Z :=
  if 0 <=? rc_function func then
    let on_inv := flt on_th f0 in
    let value := fadd (fmul (flit 1 2) (channel ch (rc_function func))) (flit 1 2) in
    if (if on_inv then flt value on_th else fgt value on_th) then SWITCH_POS_ON else SWITCH_POS_OFF
  else SWITCH_POS_NONE.

(** ** Signal *)

Definition value_of (i : input_rc) (c : Z) : Z := default 0 (ir_values i !! Z.to_nat c).

(** The values that some modems send on PPM when they lose the radio. *)
Definition modem_lost (i : input_rc) : bool :=
  forallb (fun c => ((c <? 12) && (999 <? value_of i c) && (value_of i c <? 1005)) || (value_of i c =? 0))
    (Z.of_nat <$> seq 0 16).

Definition failsafe_triggered (i : input_rc) : bool :=
  let fs_ch := if 0 <? rc_map_failsafe p then s8 (rc_map_failsafe p - 1) else rc_function (rc_map_failsafe p) in
  let thr := rc_fails_thr p in
  (0 <? thr) && (0 <=? fs_ch)
  && (((thr <? cal_min (rc_cal p fs_ch)) && (value_of i fs_ch <? thr))
      || ((cal_max (rc_cal p fs_ch) <? thr) && (thr <? value_of i fs_ch))).

Definition signal_lost (i : input_rc) : bool :=
  if ir_rc_lost i || ir_rc_failsafe i || (ir_channel_count i <? 4) then true
  else if ((ir_input_source i =? RC_INPUT_SOURCE_PX4FMU_PPM) || (ir_input_source i =? RC_INPUT_SOURCE_PX4IO_PPM))
          && (ir_channel_count i =? 16) then modem_lost i
  else failsafe_triggered i.

(** ** Scaling *)

Definition u16_constrain (val min_val max_val : Z) : Z :=
  if val <? min_val then min_val else if val >? max_val then max_val else val.

Definition constrained (c : Z) (v : Z) : Z := u16_constrain v (cal_min (rc_cal p c)) (cal_max (rc_cal p c)).

(** A constrained pulse width as a value of the channel. *)
Definition scaled (c : Z) (v : Z) : f32 :=
  let k := rc_cal p c in
  let x := if v >? cal_trim k + cal_dz k
           then fdiv (f32_of_Z (v - cal_trim k - cal_dz k)) (f32_of_Z (cal_max k - cal_trim k - cal_dz k))
           else if v <? cal_trim k - cal_dz k
           then fdiv (f32_of_Z (v - cal_trim k + cal_dz k)) (f32_of_Z (cal_trim k - cal_min k - cal_dz k))
           else f0 in
  let x := if cal_rev k then fneg x else x in
  if PX4_ISFINITE x then x else f0.

Definition limited (i : input_rc) : nat := Z.to_nat (Z.min (ir_channel_count i) RC_MAX_CHAN_COUNT).

(** The first channels of the message, constrained; the others as they are. *)
Definition constrained_values (i : input_rc) : list Z :=
  imap (fun c v => if (c <? limited i)%nat then constrained (Z.of_nat c) v else v) (ir_values i).

Definition scaled_channels (i : input_rc) (ch : list f32) : list f32 :=
  imap (fun c x => if (c <? limited i)%nat
                   then scaled (Z.of_nat c) (constrained (Z.of_nat c) (value_of i (Z.of_nat c))) else x) ch.

(** ** Switches *)

(** The slot of a mode channel; a value that does not fit is undefined. *)
Definition mode_slot_of (value : f32) : Z :=
  let slot_width_half := fdiv f1 (f32_of_Z MODE_SLOT_NUM) in
  let slot_min := fsub (fneg f1) (flit 5 100) in
  let slot_max := fadd f1 (flit 5 100) in
  let x := fadd (fadd (fdiv (fadd (fmul (fsub value slot_min) (f32_of_Z MODE_SLOT_NUM)) slot_width_half)
                        (fsub slot_max slot_min)) slot_width_half) f1 in
  let slot := u8 (default 0 (f32_to_u64 x)) in
  if slot >? MODE_SLOT_NUM then MODE_SLOT_NUM else slot.

(** The first pressed button. *)
Definition pressed_slot (ch : list f32) : option Z :=
  (fun s => s + 1) <$>
    head (filter (fun s => fgt (get_rc_value ch (FUNCTION_FLTBTN_SLOT_1 + s) (fneg f1) f1) (flit 1 2) = true)
            (Z.of_nat <$> seq 0 (Z.to_nat MODE_SLOT_NUM))).

Definition button_slot (ch : list f32) (r : RCUpdate) : Z * RCUpdate :=
  let '(consistent, slot) :=
    match pressed_slot ch with
    | Some s => (s =? ru_potential_button_press_slot r, s)
    | None => (false, ru_potential_button_press_slot r)
    end in
  let h := set_state_and_update consistent now (ru_button_pressed r) in
  (if hy_state h then slot else 0, r <| ru_potential_button_press_slot := slot |> <| ru_button_pressed := h |>).

Definition read_mode_slot (r : RCUpdate) : Z * RCUpdate :=
  let ch := ru_channels r in
  if 0 <? rc_map_fltmode p then (mode_slot_of (channel ch (rc_map_fltmode p - 1)), r)
  else if 0 <? rc_map_fltm_btn p then button_slot ch r else (0, r).

(** The photo and video switches exist on one board only. *)
Definition read_switches (slot : Z) (ch : list f32) : manual_control_switches :=
  mkSwitches slot
    (get_rc_sw2pos_position ch FUNCTION_ARMSWITCH (rc_armswitch_th p))
    (get_rc_sw2pos_position ch FUNCTION_RETURN (rc_return_th p))
    (get_rc_sw2pos_position ch FUNCTION_LOITER (rc_loiter_th p))
    (get_rc_sw2pos_position ch FUNCTION_OFFBOARD (rc_offb_th p))
    (get_rc_sw2pos_position ch FUNCTION_KILLSWITCH (rc_killswitch_th p))
    (get_rc_sw2pos_position ch FUNCTION_GEAR (rc_gear_th p))
    (get_rc_sw2pos_position ch FUNCTION_TRANSITION (rc_trans_th p)) 0 0.

Definition UpdateManualSwitches (timestamp_sample : Z) (r : RCUpdate) : list rc_published * RCUpdate :=
  let '(slot, r) := read_mode_slot r in
  let switches := read_switches slot (ru_channels r) in
  let prev := ru_manual_switches_previous r in
  let last := ru_manual_switches_last_publish r in
  let '(o, last) :=
    if bool_decide (switches = sm_switches prev)
       && (timestamp_sample <? u64 (sm_timestamp_sample prev + VALID_DATA_MIN_INTERVAL_US)) then
      let switches_changed := negb (bool_decide (switches = sm_switches last)) in
      if switches_changed || (1000000 <=? u64 (now - sm_timestamp last)) then
        let changes := if switches_changed then u32 (sm_switch_changes last + 1) else sm_switch_changes last in
        let msg := mkSwitchesMsg switches (sm_timestamp_sample prev) now changes in
        ([rc_switches msg], msg)
      else ([], last)
    else ([], last) in
  (o, r <| ru_manual_switches_last_publish := last |>
        <| ru_manual_switches_previous := mkSwitchesMsg switches timestamp_sample 0 0 |>).

(** ** The setpoint *)

(** An auxiliary output follows the radio after a large movement, until something else sets it. *)
Definition aux_update (control new : f32) (a : aux_state) : f32 * aux_state :=
  let major_movement := fgt (fabs (fsub (aux_last a) new)) (flit 1 10) in
  let active := if fgt (fabs (fsub (aux_last a) control)) (flit 1 10000) && negb major_movement
                then false else aux_already_active a in
  if active || major_movement then (new, mkAux new true) else (control, mkAux (aux_last a) active).

(** [group3]: a new message of actuator_controls_3, if there is one. *)
Definition UpdateManualControlInput (group3 : option (list f32)) (timestamp_sample : Z) (r : RCUpdate)
  : list rc_published * RCUpdate :=
  let value func := get_rc_value (ru_channels r) func (fneg f1) f1 in
  let sp := mkSetpoint now timestamp_sample false SOURCE_RC (value FUNCTION_PITCH) (value FUNCTION_ROLL)
              (value FUNCTION_THROTTLE) (value FUNCTION_YAW) false in
  let control i := default f0 (default [] group3 !! i) in
  let '(a1, a2, a3) := ru_aux r in
  let '(c5, a1) := aux_update (control 5%nat) (value FUNCTION_AUX_1) a1 in
  let '(c6, a2) := aux_update (control 6%nat) (value (FUNCTION_AUX_1 + 1)) a2 in
  let '(c7, a3) := aux_update (control 7%nat) (value (FUNCTION_AUX_1 + 2)) a3 in
  ([rc_input sp; rc_actuators [sp_y sp; sp_x sp; sp_r sp; sp_z sp; value FUNCTION_FLAPS; c5; c6; c7]],
   r <| ru_last_manual_control_input_publish := now |> <| ru_aux := (a1, a2, a3) |>).

(** ** Run *)

Definition values_changed (values : list Z) (n : nat) (r : RCUpdate) : bool :=
  negb (bool_decide (firstn n values = firstn n (ru_rc_values_previous r))).

(** A stable signal whose frames follow each other. *)
Definition regular (i : input_rc) (r : RCUpdate) : bool :=
  (ru_last_timestamp_signal r <? ir_timestamp_last_signal i)
  && (ir_timestamp_last_signal i <? u64 (ru_last_timestamp_signal r + VALID_DATA_MIN_INTERVAL_US)).

Definition run_stable (group3 : option (list f32)) (i : input_rc) (r : RCUpdate) : list rc_published * RCUpdate :=
  let '(o, r) :=
    if regular i r then
      let '(o1, r) :=
        if values_changed (constrained_values i) (limited i) r
           || (300000 <? u64 (now - ru_last_manual_control_input_publish r))
        then UpdateManualControlInput group3 (ir_timestamp_last_signal i) r else ([], r) in
      let '(o2, r) := UpdateManualSwitches (ir_timestamp_last_signal i) r in
      (o1 ++ o2, r)
    else ([], r) in
  (o, r <| ru_last_timestamp_signal := ir_timestamp_last_signal i |>).

Definition run_unstable (r : RCUpdate) : RCUpdate :=
  if sm_timestamp_sample (ru_manual_switches_last_publish r) =? 0 then r
  else r <| ru_manual_switches_last_publish := no_switches_msg |>.

Definition keep_values (i : input_rc) (r : RCUpdate) : RCUpdate :=
  r <| ru_rc_values_previous := firstn (limited i) (constrained_values i) ++ skipn (limited i) (ru_rc_values_previous r) |>.

Definition lost_update (i : input_rc) (h : Hysteresis) : Hysteresis :=
  set_state_and_update (signal_lost i) now (set_hysteresis_time_from true 100000 h).

Definition Run (group3 : option (list f32)) (i : input_rc) (r : RCUpdate) : list rc_published * RCUpdate :=
  let input_source_stable := ir_input_source i =? ru_input_source_previous r in
  let channel_count_stable := ir_channel_count i =? ru_channel_count_previous r in
  let h := lost_update i (ru_rc_signal_lost r) in
  let r := r <| ru_input_source_previous := ir_input_source i |> <| ru_channel_count_previous := ir_channel_count i |>
             <| ru_channels := scaled_channels i (ru_channels r) |> <| ru_rc_signal_lost := h |> in
  let '(o, r) := if input_source_stable && channel_count_stable && negb (hy_state h)
                 then run_stable group3 i r else ([], run_unstable r) in
  (o, keep_values i r).

End Rc.

Definition RCUpdate_new : RCUpdate :=
  let aux := mkAux f0 false in
  mkRc (replicate 18 f0) no_switches_msg no_switches_msg 0 0 (replicate 18 0) (aux, aux, aux) 0 0 0
    (set_hysteresis_time_from false 50000 (Hysteresis_new false)) (Hysteresis_new true).

End RcUpdate.
