(* ===== verification/RcUpdateSpec.v ===== *)
(** * What the radio input promises

    Sticks are published within -1 and 1 whatever the calibration ([radio_sticks_bounded]),
    and exactly while the signal has been good for 100 ms ([radio_publishes_exactly]).  A switch
    counts once two frames in a row agree, and so the kill switch of a pilot reaches the
    commander ([radio_kill_requested]).  A negative threshold turns a switch off for good. *)
From coqutil Require Import Datatypes.RecordSettersUsingExistingGetters.
From S2P Require Import Prelude Float32 Takeoff CommanderLoop ManualControl ManualControlSpec RcUpdate.
Import CommanderLoop ManualControl RcUpdate.
Local Open Scope Z_scope.

Module RcUpdateSpec.

(** One message of the receiver, with the parameters and the time at which it is handled. *)
Record frame := mkFrame {
  fr_now : Z; fr_params : rc_params; fr_group3 : option (list f32); fr_input : input_rc
}.

Definition handle (f : frame) (r : RCUpdate) : list rc_published * RCUpdate :=
  RcUpdate.Run (fr_now f) (fr_params f) (fr_group3 f) (fr_input f) r.
Definition frames (l : list frame) (r : RCUpdate) : RCUpdate := fold_left (fun r f => snd (handle f r)) l r.

Lemma frames_snoc l f r : frames (l ++ [f]) r = snd (handle f (frames l r)).
Proof. unfold frames. by rewrite fold_left_app. Qed.

(** ** The state of a run *)

(** The state in which a frame is published, and whether it may be. *)
Definition received (f : frame) (r : RCUpdate) : RCUpdate :=
  r <| ru_input_source_previous := ir_input_source (fr_input f) |>
    <| ru_channel_count_previous := ir_channel_count (fr_input f) |>
    <| ru_channels := scaled_channels (fr_params f) (fr_input f) (ru_channels r) |>
    <| ru_rc_signal_lost := lost_update (fr_now f) (fr_params f) (fr_input f) (ru_rc_signal_lost r) |>.

Definition same_receiver (f : frame) (r : RCUpdate) : bool :=
  (ir_input_source (fr_input f) =? ru_input_source_previous r) && (ir_channel_count (fr_input f) =? ru_channel_count_previous r).

Definition usable (f : frame) (r : RCUpdate) : bool := same_receiver f r && negb (hy_state (ru_rc_signal_lost (received f r))).

Lemma handle_unfold f r :
  handle f r =
    let '(o, r') := if usable f r then run_stable (fr_now f) (fr_params f) (fr_group3 f) (fr_input f) (received f r)
                    else ([], run_unstable (received f r)) in
    (o, keep_values (fr_params f) (fr_input f) r').
Proof. done. Qed.

(** What publishing leaves alone. *)
Definition same_signal (r r' : RCUpdate) : Prop :=
  ru_channels r' = ru_channels r /\ ru_rc_signal_lost r' = ru_rc_signal_lost r.

#[local] Instance same_signal_trans : Transitive same_signal.
Proof. intros r1 r2 r3 [A B] [A' B']. split; congruence. Qed.

Lemma input_state now p g t r :
  exists a, snd (UpdateManualControlInput now p g t r) = r <| ru_last_manual_control_input_publish := now |> <| ru_aux := a |>.
Proof.
  unfold UpdateManualControlInput. destruct (ru_aux r) as [[a1 a2] a3].
  do 3 (destruct (aux_update _ _ _)). by eexists.
Qed.

Lemma input_same now p g t r : same_signal r (snd (UpdateManualControlInput now p g t r)).
Proof. by destruct (input_state now p g t r) as [a ->]. Qed.

Lemma mode_slot_same now p r :
  same_signal r (snd (read_mode_slot now p r)) /\
  ru_manual_switches_previous (snd (read_mode_slot now p r)) = ru_manual_switches_previous r /\
  ru_manual_switches_last_publish (snd (read_mode_slot now p r)) = ru_manual_switches_last_publish r.
Proof.
  unfold read_mode_slot, button_slot. destruct (0 <? _); [done|]. destruct (0 <? _); [|done].
  by destruct (pressed_slot _ _).
Qed.

Lemma switches_same now p t r : same_signal r (snd (UpdateManualSwitches now p t r)).
Proof.
  unfold UpdateManualSwitches. pose proof (mode_slot_same now p r) as (S & _).
  destruct (read_mode_slot now p r) as [slot r']. cbn [snd] in S. transitivity r'; [done|]. by repeat case_match; simplify_eq/=.
Qed.

Lemma stable_same now p g i r : same_signal r (snd (run_stable now p g i r)).
Proof.
  unfold run_stable. destruct (regular i r); [|done].
  set (x := if _ || _ then UpdateManualControlInput _ _ _ _ _ else _).
  assert (same_signal r (snd x)) as S by (subst x; case_match; [apply input_same|done]).
  destruct x as [o1 r1]. pose proof (switches_same now p (ir_timestamp_last_signal i) r1) as S1.
  destruct (UpdateManualSwitches _ _ _ _) as [o2 r2]. cbn [snd] in *. transitivity r1; [done|]. by transitivity r2.
Qed.

Lemma handle_same f r : same_signal (received f r) (snd (handle f r)).
Proof.
  rewrite handle_unfold. destruct (usable f r).
  - pose proof (stable_same (fr_now f) (fr_params f) (fr_group3 f) (fr_input f) (received f r)) as S.
    destruct (run_stable _ _ _ _ _) as [o r']. cbn [snd] in *. transitivity r'; done.
  - unfold run_unstable. by case_match.
Qed.

Lemma handle_silent f r : usable f r = false \/ regular (fr_input f) r = false -> fst (handle f r) = [].
Proof.
  intros C. rewrite handle_unfold. destruct (usable f r) eqn:U; [|done]. destruct C as [|R]; [done|].
  unfold run_stable. assert (regular (fr_input f) (received f r) = false) as -> by exact R. done.
Qed.

(** ** Sticks *)

Definition finite_channels (ch : list f32) : Prop := Forall (fun x => PX4_ISFINITE x = true) ch.

Lemma scaled_finite p c v : PX4_ISFINITE (scaled p c v) = true.
Proof. unfold scaled. by case_match. Qed.

Lemma scaled_channels_finite p i ch : finite_channels ch -> finite_channels (scaled_channels p i ch).
Proof.
  intros F. unfold finite_channels, scaled_channels in *. rewrite Forall_lookup in *. intros c x.
  rewrite list_lookup_imap. destruct (ch !! c) as [y|] eqn:E; [|done]. cbn. intros [= <-].
  case_match; [apply scaled_finite|eauto].
Qed.

Lemma channels_step f r : ru_channels (snd (handle f r)) = scaled_channels (fr_params f) (fr_input f) (ru_channels r).
Proof. by destruct (handle_same f r) as [-> _]. Qed.

Lemma frames_finite l r : finite_channels (ru_channels r) -> finite_channels (ru_channels (frames l r)).
Proof.
  intros F. induction l as [|f l IH] using rev_ind; [done|].
  rewrite frames_snoc, channels_step. by apply scaled_channels_finite.
Qed.

Definition within (x : f32) : Prop := fle (fneg f1) x = true /\ fle x f1 = true.

Lemma get_rc_value_within p ch func : finite_channels ch -> within (get_rc_value p ch func (fneg f1) f1).
Proof.
  intros F. unfold get_rc_value. case_match; [|done]. apply constrain_in_range; [|done].
  unfold channel. destruct (ch !! _) as [x|] eqn:E; [|done]. cbn. apply finite_num.
  by apply (proj1 (Forall_lookup _ _) F _ _ E).
Qed.

Lemma switches_no_input now p t r sp : ~ In (rc_input sp) (fst (UpdateManualSwitches now p t r)).
Proof.
  unfold UpdateManualSwitches. destruct (read_mode_slot now p r) as [slot r'].
  repeat case_match; simplify_eq/=; try by intros []. all: by intros [?|[]].
Qed.

(** What is published as the input of the pilot. *)
Lemma input_published f r sp :
  In (rc_input sp) (fst (handle f r)) <->
  usable f r = true /\ regular (fr_input f) r = true /\
  (values_changed (constrained_values (fr_params f) (fr_input f)) (limited (fr_input f)) r
   || (300000 <? u64 (fr_now f - ru_last_manual_control_input_publish r))) = true /\
  In (rc_input sp) (fst (UpdateManualControlInput (fr_now f) (fr_params f) (fr_group3 f)
                           (ir_timestamp_last_signal (fr_input f)) (received f r))).
Proof.
  rewrite handle_unfold. destruct (usable f r); [|cbn; split; [done|by intros [? _]]].
  unfold run_stable. change (regular (fr_input f) (received f r)) with (regular (fr_input f) r).
  destruct (regular (fr_input f) r); [|cbn; split; [done|by intros (? & ? & _)]].
  change (values_changed _ _ (received f r)) with
    (values_changed (constrained_values (fr_params f) (fr_input f)) (limited (fr_input f)) r).
  change (ru_last_manual_control_input_publish (received f r)) with (ru_last_manual_control_input_publish r).
  set (b := _ || _). set (x := if b then _ else _).
  pose proof (fun r1 => switches_no_input (fr_now f) (fr_params f) (ir_timestamp_last_signal (fr_input f)) r1 sp) as N.
  destruct x as [o1 r1] eqn:E. specialize (N r1). destruct (UpdateManualSwitches _ _ _ r1) as [o2 r2]. cbn [fst] in *.
  rewrite in_app_iff. subst x. destruct b.
  - rewrite E. cbn [fst]. clear -N. intuition done.
  - injection E as <- <-. cbn. clear -N. intuition done.
Qed.

Lemma input_shape now p g t r :
  exists a, fst (UpdateManualControlInput now p g t r) =
    [rc_input (mkSetpoint now t false SOURCE_RC
       (get_rc_value p (ru_channels r) FUNCTION_PITCH (fneg f1) f1) (get_rc_value p (ru_channels r) FUNCTION_ROLL (fneg f1) f1)
       (get_rc_value p (ru_channels r) FUNCTION_THROTTLE (fneg f1) f1) (get_rc_value p (ru_channels r) FUNCTION_YAW (fneg f1) f1)
       false); rc_actuators a].
Proof. unfold UpdateManualControlInput. repeat case_match. by eexists. Qed.

(** Whatever the receiver sends and however the channels are calibrated, also
    when limits cross or the trim lies outside of them, every setpoint that is published has
    all four sticks between -1 and 1, and none of them is a NaN. *)
Theorem radio_sticks_bounded l f sp :
  In (rc_input sp) (fst (handle f (frames l RCUpdate_new))) ->
  Forall within [sp_x sp; sp_y sp; sp_z sp; sp_r sp].
Proof.
  rewrite input_published. intros (_ & _ & _ & I).
  assert (finite_channels (ru_channels (received f (frames l RCUpdate_new)))) as F.
  { apply scaled_channels_finite, frames_finite. vm_compute. by repeat constructor. }
  revert F I. generalize (received f (frames l RCUpdate_new)). intros r F.
  destruct (input_shape (fr_now f) (fr_params f) (fr_group3 f) (ir_timestamp_last_signal (fr_input f)) r) as [a ->].
  intros [[= <-]|[|[]]]; [|done]. cbn. repeat constructor; by apply get_rc_value_within.
Qed.

(** ** The signal *)

(** A delay seen from the other side: its states and times exchanged. *)
Definition flip (h : Hysteresis) : Hysteresis :=
  mkHysteresis (hy_last_time_to_change_state h) (hy_time_from_false_us h) (hy_time_from_true_us h)
    (negb (hy_state h)) (negb (hy_requested_state h)).

Lemma flip_update b now h : flip (set_state_and_update b now h) = set_state_and_update (negb b) now (flip h).
Proof.
  destruct h as [lst tt tf st rq]. unfold set_state_and_update, hysteresis_update, hy_with_state, flip.
  destruct b, st, rq; cbn; by repeat case_match.
Qed.

(** The time of the first of the good frames that came without interruption. *)
Definition good_step (since : option Z) (f : frame) : option Z :=
  if signal_lost (fr_params f) (fr_input f) then None else Some (default (fr_now f) since).
Definition good_since (l : list frame) : option Z := fold_left good_step l None.

Definition lost_inv (since : option Z) (last : Z) (h : Hysteresis) : Prop :=
  hy_time_from_true_us h = 0 /\ 0 <= last < 2 ^ 64 /\
  match since with
  | None => hy_state h = false /\ hy_requested_state h = false
  | Some t0 => hy_requested_state h = true /\ 0 <= t0 <= last /\
      (if hy_state h then t0 + 100000 <= last else hy_last_time_to_change_state h = t0)
  end.

Lemma flip_lost f h :
  flip (lost_update (fr_now f) (fr_params f) (fr_input f) h) =
  set_state_and_update (negb (signal_lost (fr_params f) (fr_input f))) (fr_now f)
    (set_hysteresis_time_from false 100000 (flip h)).
Proof. unfold lost_update. by rewrite flip_update. Qed.

Lemma lost_inv_step since last f h :
  lost_inv since last (flip h) -> last <= fr_now f < 2 ^ 64 ->
  lost_inv (good_step since f) (fr_now f) (flip (lost_update (fr_now f) (fr_params f) (fr_input f) h)).
Proof.
  intros (T & L & S) N. rewrite flip_lost. unfold good_step.
  set (h1 := set_hysteresis_time_from false 100000 (flip h)).
  destruct (signal_lost (fr_params f) (fr_input f)); cbn [negb].
  - pose proof (set_hysteresis_times false (fr_now f) h1) as [T1 _]. split; [by rewrite T1|]. split; [lia|].
    by apply set_hysteresis_disarmed.
  - pose proof (set_hysteresis_times true (fr_now f) h1) as [T1 _]. split; [by rewrite T1|]. split; [lia|].
    destruct (set_hysteresis_armed 100000 since last (fr_now f) h1 eq_refl ltac:(lia) ltac:(lia) S) as [R B].
    split; [done|]. split; [destruct since; cbn; lia|done].
Qed.

(** The signal counts exactly after 100 ms of good frames. *)
Lemma lost_exact since last f h :
  lost_inv since last (flip h) -> last <= fr_now f < 2 ^ 64 ->
  hy_state (lost_update (fr_now f) (fr_params f) (fr_input f) h) = false <->
  exists t0, good_step since f = Some t0 /\ 100000 <= fr_now f - t0.
Proof.
  intros (T & L & S) N. set (h' := lost_update _ _ _ h).
  assert (hy_state h' = negb (hy_state (flip h'))) as -> by (by cbn; rewrite negb_involutive).
  subst h'. rewrite flip_lost. unfold good_step. destruct (signal_lost (fr_params f) (fr_input f)); cbn [negb].
  - destruct (set_hysteresis_disarmed (fr_now f) (set_hysteresis_time_from false 100000 (flip h)) T) as [-> _].
    split; [done|by intros (? & ? & _)].
  - rewrite (set_hysteresis_exact 100000 since last) by (done || lia). rewrite negb_false_iff, Z.leb_le.
    split; [eauto|]. by intros (t0 & [= <-] & ?).
Qed.

Fixpoint times_from (t0 : Z) (l : list frame) : Prop :=
  match l with [] => True | f :: l => t0 <= fr_now f < 2 ^ 64 /\ times_from (fr_now f) l end.

Lemma frames_lost l : forall since last r,
  lost_inv since last (flip (ru_rc_signal_lost r)) -> times_from last l ->
  exists last', lost_inv (fold_left good_step l since) last' (flip (ru_rc_signal_lost (frames l r))) /\
    forall f, times_from last (l ++ [f]) -> last' <= fr_now f < 2 ^ 64.
Proof.
  induction l as [|g l IH]; intros since last r I T.
  - exists last. split; [done|]. by intros f [Tf _].
  - destruct T as [Tg T]. assert (lost_inv (good_step since g) (fr_now g) (flip (ru_rc_signal_lost (snd (handle g r))))) as I1.
    { destruct (handle_same g r) as [_ ->]. by apply lost_inv_step with last. }
    destruct (IH _ _ _ I1 T) as (last' & I' & L). exists last'. split; [done|]. intros f [_ Tf]. by apply L.
Qed.

Lemma frame_times_snoc l : forall t0 f, times_from t0 (l ++ [f]) -> times_from t0 l.
Proof. induction l as [|g l IH]; intros t0 f T; [done|]. destruct T as [Tg T]. split; [done|]. by apply IH with f. Qed.

Lemma usable_exact l f (r := frames l RCUpdate_new) :
  times_from 0 (l ++ [f]) ->
  usable f r = true <-> same_receiver f r = true /\ exists t0, good_since (l ++ [f]) = Some t0 /\ 100000 <= fr_now f - t0.
Proof.
  intros T. assert (lost_inv None 0 (flip (ru_rc_signal_lost RCUpdate_new))) as I0 by done.
  destruct (frames_lost l None 0 _ I0 (frame_times_snoc _ _ _ T)) as (last & I & L). specialize (L f T).
  subst r. unfold usable. rewrite andb_true_iff, negb_true_iff. generalize dependent (frames l RCUpdate_new). intros r I.
  change (ru_rc_signal_lost (received f r)) with (lost_update (fr_now f) (fr_params f) (fr_input f) (ru_rc_signal_lost r)).
  rewrite (lost_exact _ _ _ _ I L). unfold good_since. by rewrite fold_left_app.
Qed.

(** ** The history of the frames *)

(** The last frame of [l] that satisfies [P], which may look at the frames before it. *)
Fixpoint latest_rev (P : list frame -> frame -> bool) (l : list frame) : option frame :=
  match l with
  | [] => None
  | g :: l => if P (rev l) g then Some g else latest_rev P l
  end.
Definition latest (P : list frame -> frame -> bool) (l : list frame) : option frame := latest_rev P (rev l).

Lemma latest_snoc P l g : latest P (l ++ [g]) = if P l g then Some g else latest P l.
Proof. unfold latest. rewrite rev_unit. cbn [latest_rev]. by rewrite rev_involutive. Qed.

(** The source and the number of channels of the frame before. *)
Definition source_before (l : list frame) : Z := default 0 (ir_input_source ∘ fr_input <$> last l).
Definition count_before (l : list frame) : Z := default 0 (ir_channel_count ∘ fr_input <$> last l).

Definition good_for (l : list frame) (now : Z) : bool :=
  match good_since l with Some t0 => 100000 <=? now - t0 | None => false end.

(** After the frames [l], [f] is a frame of a stable receiver whose signal counts. *)
Definition stable_frame (l : list frame) (f : frame) : bool :=
  (ir_input_source (fr_input f) =? source_before l) && (ir_channel_count (fr_input f) =? count_before l)
  && good_for (l ++ [f]) (fr_now f).

(** The time of the signal in the last stable frame. *)
Definition signal_before (l : list frame) : Z :=
  match latest stable_frame l with Some g => ir_timestamp_last_signal (fr_input g) | None => 0 end.

(** Sticks are published for [f], and when they were last. *)
Definition sticks_sent (l : list frame) (f : frame) : bool :=
  existsb (fun o => match o with rc_input _ => true | _ => false end) (fst (handle f (frames l RCUpdate_new))).
Definition sent_before (l : list frame) : Z := match latest sticks_sent l with Some g => fr_now g | None => 0 end.

(** The pulse width of a channel in [f], constrained, and the one that came last. *)
Definition width (f : frame) (c : nat) : Z := constrained (fr_params f) (Z.of_nat c) (value_of (fr_input f) (Z.of_nat c)).
Definition width_before (l : list frame) (c : nat) : Z :=
  match latest (fun _ g => (c <? limited (fr_input g))%nat) l with Some g => width g c | None => 0 end.
Definition stick_moved (l : list frame) (f : frame) : bool :=
  existsb (fun c => negb (width f c =? width_before l c)) (seq 0 (limited (fr_input f))).

(** The message has 18 values. *)
Definition full (f : frame) : Prop := length (ir_values (fr_input f)) = 18%nat.

(** What a frame leaves in the members that the next one is compared with. *)
Definition sends (f : frame) (r : RCUpdate) : bool :=
  usable f r && regular (fr_input f) r &&
  (values_changed (constrained_values (fr_params f) (fr_input f)) (limited (fr_input f)) r
   || (300000 <? u64 (fr_now f - ru_last_manual_control_input_publish r))).

Definition compared (r : RCUpdate) : Z * Z * list Z :=
  (ru_input_source_previous r, ru_channel_count_previous r, ru_rc_values_previous r).

Lemma mode_slot_compared now p r (r' := snd (read_mode_slot now p r)) :
  compared r' = compared r /\ ru_last_timestamp_signal r' = ru_last_timestamp_signal r /\
  ru_last_manual_control_input_publish r' = ru_last_manual_control_input_publish r.
Proof.
  subst r'. unfold read_mode_slot, button_slot. destruct (0 <? _); [done|]. destruct (0 <? _); [|done].
  by destruct (pressed_slot _ _).
Qed.

Lemma switches_compared now p t r (r' := snd (UpdateManualSwitches now p t r)) :
  compared r' = compared r /\ ru_last_manual_control_input_publish r' = ru_last_manual_control_input_publish r.
Proof.
  subst r'. unfold UpdateManualSwitches. pose proof (mode_slot_compared now p r) as (C & _ & L).
  destruct (read_mode_slot now p r) as [slot r']. cbn [snd] in *. rewrite <- C, <- L. by repeat case_match; simplify_eq/=.
Qed.

Lemma stable_compared now p g i r (r' := snd (run_stable now p g i r)) :
  compared r' = compared r /\ ru_last_timestamp_signal r' = ir_timestamp_last_signal i /\
  ru_last_manual_control_input_publish r' =
    (if regular i r && (values_changed (constrained_values p i) (limited i) r
                        || (300000 <? u64 (now - ru_last_manual_control_input_publish r)))
     then now else ru_last_manual_control_input_publish r).
Proof.
  subst r'. unfold run_stable. destruct (regular i r); cbn [andb]; [|done].
  set (b := _ || _). set (x := if b then _ else _).
  assert (compared (snd x) = compared r /\ ru_last_manual_control_input_publish (snd x)
    = (if b then now else ru_last_manual_control_input_publish r)) as [C L].
  { subst x. destruct b; [|done]. by destruct (input_state now p g (ir_timestamp_last_signal i) r) as [a ->]. }
  destruct x as [o1 r1]. pose proof (switches_compared now p (ir_timestamp_last_signal i) r1) as [C' L'].
  destruct (UpdateManualSwitches _ _ _ _) as [o2 r2]. cbn [snd] in *. split; [by rewrite <- C, <- C'|]. split; [done|].
  by rewrite <- L, <- L'.
Qed.

Lemma handle_compared f r (r' := snd (handle f r)) :
  ru_input_source_previous r' = ir_input_source (fr_input f) /\
  ru_channel_count_previous r' = ir_channel_count (fr_input f) /\
  ru_rc_values_previous r' = firstn (limited (fr_input f)) (constrained_values (fr_params f) (fr_input f))
                             ++ skipn (limited (fr_input f)) (ru_rc_values_previous r) /\
  ru_last_timestamp_signal r' = (if usable f r then ir_timestamp_last_signal (fr_input f) else ru_last_timestamp_signal r) /\
  ru_last_manual_control_input_publish r' = (if sends f r then fr_now f else ru_last_manual_control_input_publish r).
Proof.
  subst r'. rewrite handle_unfold. unfold sends. destruct (usable f r); cbn [andb].
  - pose proof (stable_compared (fr_now f) (fr_params f) (fr_group3 f) (fr_input f) (received f r)) as (C & T & L).
    change (regular (fr_input f) (received f r)) with (regular (fr_input f) r) in L.
    change (values_changed ?v ?n (received f r)) with (values_changed v n r) in L.
    change (ru_last_manual_control_input_publish (received f r)) with (ru_last_manual_control_input_publish r) in L.
    destruct (run_stable _ _ _ _ _) as [o r']. cbn [snd] in *. unfold compared in C. injection C as C1 C2 C3.
    unfold keep_values. split_and!; [exact C1|exact C2| |exact T|exact L].
    cbn. unfold RecordSettersUsingExistingGetters.const. rewrite C3. done.
  - unfold run_unstable. by case_match.
Qed.

Lemma sticks_sent_sends l f : sticks_sent l f = sends f (frames l RCUpdate_new).
Proof.
  apply eq_true_iff_eq. unfold sticks_sent, sends. rewrite existsb_exists, !andb_true_iff.
  generalize (frames l RCUpdate_new). intros r. split.
  - intros ([sp|a|m] & I & E); try discriminate E. apply input_published in I as (U & R & V & _). done.
  - intros ((U & R) & V).
    destruct (input_shape (fr_now f) (fr_params f) (fr_group3 f) (ir_timestamp_last_signal (fr_input f)) (received f r)) as [a Ea].
    eexists (rc_input _). split; [|done]. apply input_published. split_and!; [done..|]. rewrite Ea. by left.
Qed.

Lemma good_for_spec l now : good_for l now = true <-> exists t0, good_since l = Some t0 /\ 100000 <= now - t0.
Proof.
  unfold good_for. destruct (good_since l) as [t|]; [|split; [done|by intros (? & ? & _)]].
  rewrite Z.leb_le. split; [eauto|by intros (t0 & [= <-] & ?)].
Qed.

Lemma width_lookup f c : full f -> (c < 18)%nat -> (c < limited (fr_input f))%nat ->
  constrained_values (fr_params f) (fr_input f) !! c = Some (width f c).
Proof.
  intros F C L. unfold constrained_values. rewrite list_lookup_imap.
  destruct (ir_values (fr_input f) !! c) as [v|] eqn:E; [|apply lookup_ge_None in E; unfold full in F; lia].
  cbn [fmap option_fmap option_map]. rewrite (proj2 (Nat.ltb_lt _ _) L). unfold width, value_of. by rewrite Nat2Z.id, E.
Qed.

Lemma limited_max i : (limited i <= 18)%nat.
Proof. unfold limited, RC_MAX_CHAN_COUNT. lia. Qed.

(** The members hold what the history says. *)
Record remembers (l : list frame) (r : RCUpdate) : Prop := mkRemembers {
  rm_source : ru_input_source_previous r = source_before l;
  rm_count : ru_channel_count_previous r = count_before l;
  rm_signal : ru_last_timestamp_signal r = signal_before l;
  rm_sent : ru_last_manual_control_input_publish r = sent_before l;
  rm_length : length (ru_rc_values_previous r) = 18%nat;
  rm_width : forall c, (c < 18)%nat -> ru_rc_values_previous r !! c = Some (width_before l c)
}.

Lemma usable_stable l f (r := frames l RCUpdate_new) :
  times_from 0 (l ++ [f]) -> remembers l r -> usable f r = stable_frame l f.
Proof.
  intros T M. apply eq_true_iff_eq. subst r. rewrite (usable_exact l f T). unfold stable_frame, same_receiver.
  rewrite (rm_source _ _ M), (rm_count _ _ M), !andb_true_iff, good_for_spec. tauto.
Qed.

Lemma keep_values_lookup (vs old : list Z) n c : (n <= length vs)%nat ->
  (firstn n vs ++ skipn n old) !! c = if (c <? n)%nat then vs !! c else old !! c.
Proof.
  intros N. destruct (Nat.ltb_spec c n).
  - rewrite lookup_app_l by (rewrite length_take; lia). apply lookup_take_lt. lia.
  - rewrite lookup_app_r by (rewrite length_take; lia). rewrite length_take, lookup_drop. f_equal. lia.
Qed.

Lemma frames_remember l : times_from 0 l -> Forall full l -> remembers l (frames l RCUpdate_new).
Proof.
  induction l as [|f l IH] using rev_ind; intros T F.
  - split; try done. intros c C. change (ru_rc_values_previous (frames [] RCUpdate_new)) with (replicate 18 0).
    by apply lookup_replicate_2.
  - apply Forall_app in F as [F Ff]. apply Forall_inv in Ff.
    specialize (IH (frame_times_snoc _ _ _ T) F). pose proof (usable_stable l f T IH) as U.
    pose proof (sticks_sent_sends l f) as S. rewrite frames_snoc. revert IH U S. generalize (frames l RCUpdate_new).
    intros r M U S. destruct (handle_compared f r) as (E1 & E2 & E3 & E4 & E5).
    assert (length (constrained_values (fr_params f) (fr_input f)) = 18%nat) as Lc
      by (unfold constrained_values; by rewrite length_imap).
    pose proof (limited_max (fr_input f)) as Lm. split.
    + rewrite E1. unfold source_before. by rewrite last_snoc.
    + rewrite E2. unfold count_before. by rewrite last_snoc.
    + rewrite E4, U. unfold signal_before. rewrite latest_snoc. destruct (stable_frame l f); [done|apply M].
    + rewrite E5, <- S. unfold sent_before. rewrite latest_snoc. destruct (sticks_sent l f); [done|apply M].
    + rewrite E3, length_app, length_take, length_drop, Lc, (rm_length _ _ M). lia.
    + intros c C. rewrite E3, keep_values_lookup by lia. unfold width_before. rewrite latest_snoc.
      destruct (Nat.ltb_spec c (limited (fr_input f))); [by apply width_lookup|by apply M].
Qed.

Lemma moved_changed l f r : full f -> remembers l r ->
  values_changed (constrained_values (fr_params f) (fr_input f)) (limited (fr_input f)) r = stick_moved l f.
Proof.
  intros F M. unfold values_changed, stick_moved. pose proof (limited_max (fr_input f)) as Lm. apply eq_true_iff_eq.
  rewrite negb_true_iff, bool_decide_eq_false, existsb_exists. split.
  - intros N. destruct (existsb (fun c => negb (width f c =? width_before l c)) (seq 0 (limited (fr_input f)))) eqn:E;
      [by apply existsb_exists in E|].
    exfalso. apply N. apply list_eq. intros c. destruct (decide (c < limited (fr_input f))%nat) as [L|L].
    + rewrite !lookup_take_lt by done. rewrite width_lookup, (rm_width _ _ M) by (done || lia). f_equal.
      assert (In c (seq 0 (limited (fr_input f)))) as I by (apply in_seq; lia).
      destruct (Z.eqb_spec (width f c) (width_before l c)) as [|D]; [done|].
      rewrite (proj2 (existsb_exists _ _)) in E; [done|]. exists c. split; [done|]. by apply negb_true_iff, Z.eqb_neq.
    + rewrite !lookup_take_ge by lia. done.
  - intros (c & I & D) E. apply in_seq in I. apply (f_equal (fun v => v !! c)) in E.
    rewrite !lookup_take_lt, width_lookup, (rm_width _ _ M) in E by (done || lia). injection E as E.
    apply negb_true_iff, Z.eqb_neq in D. done.
Qed.

Lemma times_end l : forall t0 f, times_from t0 (l ++ [f]) -> t0 <= fr_now f < 2 ^ 64.
Proof.
  induction l as [|h l IH]; intros t0 f [Th T]; [done|]. specialize (IH _ _ T). lia.
Qed.

Lemma times_snoc_last l : forall t0 f, 0 <= t0 -> times_from t0 (l ++ [f]) ->
  forall g, In g l -> 0 <= fr_now g <= fr_now f.
Proof.
  induction l as [|h l IH]; intros t0 f B T g I; [done|]. destruct T as [Th T]. destruct I as [->|I].
  - pose proof (times_end _ _ _ T). lia.
  - by apply (IH (fr_now h) f ltac:(lia) T).
Qed.

Lemma latest_in P l g : latest P l = Some g -> In g l.
Proof.
  unfold latest. intros E. apply in_rev. induction (rev l) as [|h k IH]; [done|]. cbn [latest_rev] in E.
  destruct (P (rev k) h); [injection E as ->; by left|right; auto].
Qed.

Lemma sent_before_range l f : times_from 0 (l ++ [f]) -> 0 <= sent_before l <= fr_now f.
Proof.
  intros T. pose proof (times_end _ _ _ T) as B.
  unfold sent_before. destruct (latest sticks_sent l) as [g|] eqn:E; [|lia].
  apply (times_snoc_last l 0 f ltac:(lia) T g). by apply latest_in in E.
Qed.

(** C29 (functional). When the sticks are published, told by the frames alone: after any frames [l], with times
    that do not decrease and 18 values each, the sticks of the frame [f] are published exactly if
    its source and channel count are those of the frame before it; every frame of the last
    100 ms, this one included, carried a signal; its signal is newer than that of the last frame
    that satisfied these two conditions, by less than a third of a second; and one of its
    constrained pulse widths differs from the last one received on that channel, or no sticks
    were published in the last 300 ms. *)
Theorem radio_publishes_exactly l f :
  times_from 0 (l ++ [f]) -> Forall full (l ++ [f]) ->
  sticks_sent l f = true <->
  stable_frame l f = true /\
  signal_before l < ir_timestamp_last_signal (fr_input f) < u64 (signal_before l + VALID_DATA_MIN_INTERVAL_US) /\
  (stick_moved l f = true \/ 300000 < fr_now f - sent_before l).
Proof.
  intros T F. apply Forall_app in F as [Fl Ff]. apply Forall_inv in Ff.
  pose proof (frames_remember l (frame_times_snoc _ _ _ T) Fl) as M.
  rewrite sticks_sent_sends. unfold sends. rewrite (usable_stable l f T M), (moved_changed l f _ Ff M).
  unfold regular. rewrite (rm_signal _ _ M), (rm_sent _ _ M), !andb_true_iff, orb_true_iff, !Z.ltb_lt.
  pose proof (sent_before_range l f T) as B.
  pose proof (times_end _ _ _ T) as B'.
  rewrite (wrap_small 64 (fr_now f - sent_before l)) by (unfold fits; lia). tauto.
Qed.

(** ** Switches *)

Definition reading (now : Z) (p : rc_params) (r : RCUpdate) : manual_control_switches :=
  read_switches p (fst (read_mode_slot now p r)) (ru_channels r).

(** The switches as a frame shows them. *)
Definition shown (f : frame) (r : RCUpdate) : manual_control_switches := reading (fr_now f) (fr_params f) (received f r).

Lemma reading_input now p g t r : reading now p (snd (UpdateManualControlInput now p g t r)) = reading now p r.
Proof.
  destruct (input_state now p g t r) as [a ->]. unfold reading. f_equal. unfold read_mode_slot, button_slot.
  cbn. destruct (0 <? _); [done|]. destruct (0 <? _); [|done]. by destruct (pressed_slot _ _).
Qed.

Definition agrees (now : Z) (p : rc_params) (t : Z) (r : RCUpdate) : bool :=
  bool_decide (reading now p r = sm_switches (ru_manual_switches_previous r))
  && (t <? u64 (sm_timestamp_sample (ru_manual_switches_previous r) + VALID_DATA_MIN_INTERVAL_US)).

Definition due (now : Z) (p : rc_params) (r : RCUpdate) : bool :=
  negb (bool_decide (reading now p r = sm_switches (ru_manual_switches_last_publish r)))
  || (1000000 <=? u64 (now - sm_timestamp (ru_manual_switches_last_publish r))).

Lemma switches_update now p t r :
  exists msg, sm_switches msg = reading now p r /\
    fst (UpdateManualSwitches now p t r) = (if agrees now p t r && due now p r then [rc_switches msg] else []) /\
    ru_manual_switches_previous (snd (UpdateManualSwitches now p t r)) = mkSwitchesMsg (reading now p r) t 0 0.
Proof.
  unfold UpdateManualSwitches, agrees, due, reading. destruct (mode_slot_same now p r) as ([Ec _] & Ep & El).
  destruct (read_mode_slot now p r) as [slot r']. cbn [fst snd] in *. rewrite Ec, Ep, El.
  destruct (_ && _) eqn:A; cbn [andb].
  - destruct (negb _ || _) eqn:D; eexists (mkSwitchesMsg (read_switches p slot (ru_channels r)) _ _ _); repeat split.
  - eexists (mkSwitchesMsg (read_switches p slot (ru_channels r)) 0 0 0). repeat split.
Unshelve. all: exact 0.
Qed.

(** The switches of a frame that is used. *)
Lemma handle_switches f r :
  usable f r = true -> regular (fr_input f) r = true ->
  exists o msg, (forall m, ~ In (rc_switches m) o) /\ sm_switches msg = shown f r /\
    fst (handle f r) = o ++ (if agrees (fr_now f) (fr_params f) (ir_timestamp_last_signal (fr_input f)) (received f r)
                                && due (fr_now f) (fr_params f) (received f r) then [rc_switches msg] else []) /\
    ru_manual_switches_previous (snd (handle f r)) =
      mkSwitchesMsg (shown f r) (ir_timestamp_last_signal (fr_input f)) 0 0 /\
    ru_last_timestamp_signal (snd (handle f r)) = ir_timestamp_last_signal (fr_input f).
Proof.
  intros U R. rewrite handle_unfold, U. unfold run_stable.
  change (regular (fr_input f) (received f r)) with (regular (fr_input f) r). rewrite R. unfold shown.
  generalize (received f r). intros r0. set (x := if _ || _ then _ else _).
  assert ((forall m, ~ In (rc_switches m) (fst x)) /\ reading (fr_now f) (fr_params f) (snd x) = reading (fr_now f) (fr_params f) r0
    /\ ru_manual_switches_previous (snd x) = ru_manual_switches_previous r0
    /\ ru_manual_switches_last_publish (snd x) = ru_manual_switches_last_publish r0) as (N & E & P & L).
  { subst x. case_match; [|split; [by intros ? []|done]]. rewrite reading_input. split.
    - destruct (input_shape (fr_now f) (fr_params f) (fr_group3 f) (ir_timestamp_last_signal (fr_input f)) r0) as [a ->].
      by intros m [?|[?|[]]].
    - by destruct (input_state (fr_now f) (fr_params f) (fr_group3 f) (ir_timestamp_last_signal (fr_input f)) r0) as [a ->]. }
  destruct x as [o r1]. cbn [fst snd] in *.
  destruct (switches_update (fr_now f) (fr_params f) (ir_timestamp_last_signal (fr_input f)) r1) as (msg & Em & Eo & Ep).
  destruct (UpdateManualSwitches _ _ _ r1) as [o2 r2]. cbn [fst snd] in *.
  exists o, msg. unfold agrees, due in *. rewrite E, P, L in *. subst o2. repeat split; done.
Qed.

(** A frame publishes switches only if the frame that was used before showed the same. *)
Lemma switches_agreed f r msg :
  In (rc_switches msg) (fst (handle f r)) ->
  sm_switches msg = shown f r /\ shown f r = sm_switches (ru_manual_switches_previous r).
Proof.
  intros I. destruct (usable f r) eqn:U; [|by rewrite (handle_silent f r) in I by by left].
  destruct (regular (fr_input f) r) eqn:R; [|by rewrite (handle_silent f r) in I by by right].
  destruct (handle_switches f r U R) as (o & msg' & N & Em & Eo & _). rewrite Eo, in_app_iff in I.
  destruct I as [I|I]; [by apply N in I|]. destruct (agrees _ _ _ _) eqn:A; [|done].
  destruct (due _ _ _); [|done]. destruct I as [[= ->]|[]]. split; [done|].
  unfold agrees in A. apply andb_true_iff in A as [A _]. by apply bool_decide_eq_true in A.
Qed.

(** Two frames in a row that show the same switches publish a change. *)
Lemma two_frames_publish f1 f2 r (r1 := snd (handle f1 r)) :
  usable f1 r = true -> regular (fr_input f1) r = true -> usable f2 r1 = true -> regular (fr_input f2) r1 = true ->
  shown f2 r1 = shown f1 r -> shown f2 r1 <> sm_switches (ru_manual_switches_last_publish r1) ->
  exists msg, In (rc_switches msg) (fst (handle f2 r1)) /\ sm_switches msg = shown f2 r1.
Proof.
  intros U1 R1 U2 R2 E C. destruct (handle_switches f1 r U1 R1) as (_ & _ & _ & _ & _ & P & T). fold r1 in P, T.
  destruct (handle_switches f2 r1 U2 R2) as (o & msg & _ & Em & -> & _). exists msg. split; [|done].
  apply in_or_app. right.
  assert (agrees (fr_now f2) (fr_params f2) (ir_timestamp_last_signal (fr_input f2)) (received f2 r1) = true) as ->.
  { unfold agrees. change (ru_manual_switches_previous (received f2 r1)) with (ru_manual_switches_previous r1).
    rewrite P. cbn [sm_switches sm_timestamp_sample]. unfold regular in R2. rewrite T in R2.
    apply andb_true_iff in R2 as [_ R2]. rewrite R2, andb_true_r. apply bool_decide_eq_true. exact E. }
  assert (due (fr_now f2) (fr_params f2) (received f2 r1) = true) as ->; [|by left].
  unfold due. change (ru_manual_switches_last_publish (received f2 r1)) with (ru_manual_switches_last_publish r1).
  unfold shown in C. by rewrite (bool_decide_eq_false_2 _ C).
Qed.

(** C30 (liveness). From the receiver to the commander.  Two frames in a row are usable and
    follow the signal before them, and both show the same switches and mode slot, with the
    kill switch engaged.  If manual control has the switches that were published last, with
    the kill switch not engaged and the transition switch where it is now, then the second
    frame publishes the switches, and manual control, flying with the radio and without a
    change of parameters when it gets them, requests the kill, and this is the request that
    the commander reads. *)
Theorem radio_kill_requested f1 f2 r mn (r1 := snd (handle f1 r)) :
  usable f1 r = true -> regular (fr_input f1) r = true -> usable f2 r1 = true -> regular (fr_input f2) r1 = true ->
  shown f2 r1 = shown f1 r -> kill_switch_pos (shown f2 r1) = SWITCH_POS_ON ->
  mn_previous_switches mn = sm_switches (ru_manual_switches_last_publish r1) ->
  kill_switch_pos (mn_previous_switches mn) <> SWITCH_POS_ON ->
  transition_switch (mn_previous_switches mn) = transition_switch (shown f2 r1) ->
  exists msg, In (rc_switches msg) (fst (handle f2 r1)) /\
    forall i, ManualControlSpec.on_radio i mn -> ri_switches i = Some (sm_switches msg) ->
      newest (fst (ManualControl.Run i mn)) = Some (SOURCE_RC_SWITCH, ACTION_KILL).
Proof.
  subst r1. intros U1 R1 U2 R2 E K P N T.
  destruct (two_frames_publish f1 f2 r U1 R1 U2 R2 E) as (msg & I & M); [congruence|].
  exists msg. split; [done|]. intros i O W. apply (ManualControlSpec.kill_is_newest i mn (sm_switches msg) O W); rewrite M.
  - unfold changed_to. rewrite K. apply andb_true_iff. split; [|done]. apply negb_true_iff, Z.eqb_neq. congruence.
  - done.
Qed.

(** ** Thresholds *)

(** The calibration of a channel that was never calibrated. *)
Definition default_calibration (rev : bool) : calibration := mkCal 1000 1500 2000 10 rev.

(** The value that a threshold is compared with, [0..1]. *)
Definition switch_value (x : f32) : f32 := fadd (fmul (flit 1 2) x) (flit 1 2).

Lemma default_values_positive :
  forallb (fun v => fle f0 (switch_value (scaled (mkRcParams (fun _ => default_calibration false) (fun _ => 0) 0 0 0 0 f0 f0 f0 f0 f0 f0 f0) 0 v))
    && fle f0 (switch_value (scaled (mkRcParams (fun _ => default_calibration true) (fun _ => 0) 0 0 0 0 f0 f0 f0 f0 f0 f0 f0) 0 v)))
    (Z.of_nat <$> seq 1000 1001) = true.
Proof. vm_compute. reflexivity. Qed.

Lemma default_positive p c rev v :
  rc_cal p c = default_calibration rev -> fle f0 (switch_value (scaled p c (constrained p c v))) = true.
Proof.
  intros C. pose proof default_values_positive as D. rewrite forallb_forall in D.
  assert (In (constrained p c v) (Z.of_nat <$> seq 1000 1001)) as I.
  { unfold constrained, u16_constrain. rewrite C. cbn [default_calibration cal_min cal_max].
    set (w := if _ <? _ then _ else _). assert (1000 <= w <= 2000) by (subst w; repeat case_match; lia).
    clearbody w. apply list_elem_of_In, list_elem_of_fmap. exists (Z.to_nat w). split; [lia|]. apply elem_of_seq. lia. }
  specialize (D _ I). apply andb_true_iff in D as [D0 D1]. unfold scaled in *. cbn [rc_cal] in D0, D1. rewrite C.
  by destruct rev.
Qed.

Lemma positive_not_below x th : fle f0 x = true -> flt th f0 = true -> flt x th = false.
Proof.
  intros X T. destruct (flt x th) eqn:E; [|done]. exfalso.
  destruct (fle_num _ _ X) as [_ Nx]. destruct (fle_num _ _ (flt_fle _ _ T)) as [Nt N0].
  pose proof (SFcompare_trans_le f0 x th) as H. rewrite (flt_not_fle th f0) in T by done.
  apply negb_true_iff in T. rewrite H in T; [done|done|by apply flt_fle].
Qed.

Lemma channel_scaled p i ch c :
  0 <= c -> channel (scaled_channels p i ch) c = scaled p c (constrained p c (value_of i c)) \/
            channel (scaled_channels p i ch) c = channel ch c.
Proof.
  intros C. unfold channel, scaled_channels. rewrite list_lookup_imap. destruct (ch !! Z.to_nat c) as [x|]; [|by right].
  cbn. rewrite Z2Nat.id by done. case_match; [by left|by right].
Qed.

Lemma frames_positive p c rev l :
  0 <= c -> rc_cal p c = default_calibration rev -> Forall (fun f => fr_params f = p) l ->
  fle f0 (switch_value (channel (ru_channels (frames l RCUpdate_new)) c)) = true.
Proof.
  intros C D. induction l as [|f l IH] using rev_ind; intros A.
  - cbn [frames fold_left RCUpdate_new ru_channels]. unfold channel. destruct (replicate 18 f0 !! Z.to_nat c) as [x|] eqn:E; [|done].
    apply lookup_replicate in E as [-> _]. done.
  - apply Forall_app in A as [A Af]. apply (proj1 (Forall_singleton _ _)) in Af. rewrite frames_snoc, channels_step, Af.
    destruct (channel_scaled p (fr_input f) (ru_channels (frames l RCUpdate_new)) c C) as [->| ->]; [|by apply IH].
    by apply default_positive with rev.
Qed.

(** C40 (error). The documentation of RC_KILLSWITCH_TH gives the sign of a threshold the meaning of a
    polarity, and a negative one reads as engaged below it.  The code compares a value between
    0 and 1 with the negative number: on a channel with the default limits, whichever way it is
    reversed, no frame ever publishes an engaged kill switch. *)
Theorem inverted_kill_switch_dead p rev l f msg :
  Forall (fun f => fr_params f = p) (l ++ [f]) ->
  0 <= rc_function p FUNCTION_KILLSWITCH -> rc_cal p (rc_function p FUNCTION_KILLSWITCH) = default_calibration rev ->
  flt (rc_killswitch_th p) f0 = true -> In (rc_switches msg) (fst (handle f (frames l RCUpdate_new))) ->
  kill_switch_pos (sm_switches msg) = SWITCH_POS_OFF.
Proof.
  intros A C D T I. apply switches_agreed in I as [-> _].
  pose proof (frames_positive p _ rev (l ++ [f]) C D A) as F. rewrite frames_snoc, channels_step in F.
  apply Forall_app in A as [_ A]. apply (proj1 (Forall_singleton _ _)) in A. unfold shown, reading. rewrite A in *.
  cbn [read_switches kill_switch_pos]. unfold get_rc_sw2pos_position.
  change (ru_channels (received f (frames l RCUpdate_new)))
    with (scaled_channels (fr_params f) (fr_input f) (ru_channels (frames l RCUpdate_new))). rewrite A, T.
  destruct (Z.leb_spec 0 (rc_function p FUNCTION_KILLSWITCH)); [|lia]. fold (switch_value (channel
    (scaled_channels p (fr_input f) (ru_channels (frames l RCUpdate_new))) (rc_function p FUNCTION_KILLSWITCH))).
  by rewrite (positive_not_below _ _ F T).
Qed.

(** ** A flight with the radio *)

(** Sticks on the first four channels, the kill switch on the fifth. *)
Definition example_map (func : Z) : Z :=
  if func =? FUNCTION_THROTTLE then 3 else if func =? FUNCTION_ROLL then 1 else if func =? FUNCTION_PITCH then 2
  else if func =? FUNCTION_YAW then 4 else if func =? FUNCTION_KILLSWITCH then 5 else 0.
Definition example_params (kill_th : f32) : rc_params :=
  mkRcParams (fun _ => default_calibration false) example_map 0 0 0 0 (flit 3 4) (flit 3 4) (flit 3 4) kill_th
    (flit 3 4) (flit 3 4) (flit 3 4).
Definition example_frame (kill_th : f32) (t roll kill : Z) : frame :=
  mkFrame t (example_params kill_th) None
    (mkInputRc t 8 false false 3 ([roll; 1500; 1200; 1500; kill] ++ replicate 13 1500)).

(** A good signal for 200 ms, the kill switch at rest. *)
Definition example_flight (kill_th : f32) : list frame :=
  map (fun k => example_frame kill_th (18800000 + 20000 * k) 1500 1000) [0; 1; 2; 3; 4; 5; 6; 7; 8; 9].
Definition example_radio : RCUpdate := frames (example_flight (flit 3 4)) RCUpdate_new.

Lemma radio_sticks_bounded_witness :
  exists sp, In (rc_input sp) (fst (handle (example_frame (flit 3 4) 19000000 1900 1000) example_radio)) /\
    Forall within [sp_x sp; sp_y sp; sp_z sp; sp_r sp].
Proof.
  eexists. split; [vm_compute; left; reflexivity|].
  apply (radio_sticks_bounded (example_flight (flit 3 4)) (example_frame (flit 3 4) 19000000 1900 1000)).
  vm_compute. left. reflexivity.
Defined.

(** A frame that moves a stick is published; the same frame again, 20 ms later, is not. *)
Lemma radio_publishes_exactly_witness :
  let l := example_flight (flit 3 4) in
  let f t := example_frame (flit 3 4) t 1900 1000 in
  sticks_sent l (f 19000000) = true /\ sticks_sent (l ++ [f 19000000]) (f 19020000) = false.
Proof.
  intros l f. split.
  - apply (radio_publishes_exactly l (f 19000000)); [cbn; lia|by repeat constructor|].
    split; [vm_compute; reflexivity|]. split; [vm_compute; split; reflexivity|]. left. vm_compute. reflexivity.
  - apply not_true_iff_false. intros E.
    apply (radio_publishes_exactly (l ++ [f 19000000]) (f 19020000)) in E as (_ & _ & [E|E]);
      [| |cbn; lia|by repeat constructor].
    + vm_compute in E. discriminate.
    + vm_compute in E. discriminate.
Defined.

Lemma radio_kill_requested_witness :
  let f t := example_frame (flit 3 4) t 1500 2000 in
  let mn := snd (ManualControl.Run (ManualControlSpec.radio_on 19000000
    (sm_switches (ru_manual_switches_last_publish example_radio))) manual_initial) in
  exists msg, In (rc_switches msg) (fst (handle (f 19020000) (snd (handle (f 19000000) example_radio)))) /\
    forall i, ManualControlSpec.on_radio i mn -> ri_switches i = Some (sm_switches msg) ->
      newest (fst (ManualControl.Run i mn)) = Some (SOURCE_RC_SWITCH, ACTION_KILL).
Proof.
  intros f mn. apply (radio_kill_requested (f 19000000) (f 19020000) example_radio mn); try (vm_compute; reflexivity).
  vm_compute. discriminate.
Defined.

Lemma inverted_kill_switch_dead_witness :
  exists msg, In (rc_switches msg) (fst (handle (example_frame (fneg (flit 1 4)) 18940000 1500 1000)
                                           (frames (firstn 7 (example_flight (fneg (flit 1 4)))) RCUpdate_new))) /\
    kill_switch_pos (sm_switches msg) = SWITCH_POS_OFF.
Proof.
  eexists. split; [vm_compute; left; reflexivity|].
  apply (inverted_kill_switch_dead (example_params (fneg (flit 1 4))) false (firstn 7 (example_flight (fneg (flit 1 4))))
    (example_frame (fneg (flit 1 4)) 18940000 1500 1000)).
  - repeat constructor.
  - vm_compute. discriminate.
  - reflexivity.
  - vm_compute. reflexivity.
  - vm_compute. left. reflexivity.
Defined.

End RcUpdateSpec.
