(* ===== verification/LandDetector.v ===== *)
(** * The land detector

    src/src/modules/land_detector: whether the vehicle is in free fall, touches the ground, may
    have landed or has landed, and the flight time that is stored when it is disarmed.  The
    virtual methods of the class are the type class [LandVehicle]; its instances are the five
    kinds of vehicle.  What a topic delivers is an input; the topic of the inertial sensors is
    one of the message bus.  The parameters are those in storage when they are read; the two
    that hold the flight time are state, because the detector writes them. *)
From stdpp Require Import gmap.
From coqutil Require Import Datatypes.RecordSettersUsingExistingGetters.
From S2P Require Import Prelude Float32 Linalg Takeoff NavState Uorb.
Import NavState Uorb.
Local Open Scope Z_scope.

Module LandDetector.

(** ** Data *)

Definition DIST_BOTTOM_SENSOR_RANGE : Z := 1.
Definition TAKEOFF_STATE_DISARMED : Z := 1.
Definition TAKEOFF_STATE_RAMPUP : Z := 4.
Definition TAKEOFF_STATE_FLIGHT : Z := 5.

(** The fields of vehicle_local_position that are read. *)
Record local_position := mkLocal {
  lp_timestamp : Z;
  lp_v_z_valid : bool; lp_v_xy_valid : bool;
  lp_vx : f32; lp_vy : f32; lp_vz : f32;
  lp_dist_bottom_valid : bool; lp_dist_bottom : f32;
  lp_dist_bottom_sensor_bitfield : Z
}.
Definition no_position : local_position := mkLocal 0 false false f0 f0 f0 false f0 0.

(** The fields of vehicle_imu_status that are read. *)
Record gyro_status := mkGyro {
  gy_timestamp : Z; gy_device_id : Z; gy_gyro_vibration_metric : f32; gy_accel_vibration_metric : f32
}.
Definition no_gyro : gyro_status := mkGyro 0 0 f0 f0.

Record land_detected := mkLandDetected {
  lm_timestamp : Z;
  lm_freefall : bool; lm_ground_contact : bool; lm_maybe_landed : bool; lm_landed : bool;
  lm_in_ground_effect : bool; lm_in_descend : bool; lm_has_low_throttle : bool;
  lm_vertical_movement : bool; lm_horizontal_movement : bool;
  lm_close_to_ground_or_skipped_check : bool; lm_at_rest : bool
}.

Record land_params := mkLandParams {
  MPC_LAND_SPEED : f32; MPC_MANTHR_MIN : f32; MPC_THR_MIN : f32; MPC_USE_HTE : Z; MPC_THR_HOVER : f32;
  MPC_LAND_CRWL : f32;
  LNDMC_TRIG_TIME : f32; LNDMC_ROT_MAX : f32; LNDMC_XY_VEL_MAX : f32; LNDMC_Z_VEL_MAX : f32; LNDMC_ALT_GND : f32;
  LNDFW_XYACC_MAX : f32; LNDFW_AIRSPD_MAX : f32; LNDFW_VEL_XY_MAX : f32; LNDFW_VEL_Z_MAX : f32
}.

(** What one run reads: [None] if a topic has nothing new. *)
Record land_in := mkLandIn {
  li_now : Z;
  li_param_update : bool; li_params : land_params;
  li_armed : option bool;
  li_acceleration : option (vec3 f32);
  li_angular_velocity : option (Z * vec3 f32);          (** with its timestamp_sample *)
  li_position : option local_position;
  li_status : option (vehicle_type_t * navigation_state_t);
  li_throttle : option f32;                             (** actuator_controls_0 *)
  li_climb_rate_enabled : option bool;                  (** vehicle_control_mode *)
  li_hover_thrust : option (bool * f32 * Z);            (** valid, hover_thrust, timestamp *)
  li_takeoff_state : option Z;
  li_trajectory_vz : option f32;
  li_airspeed : Z * f32;                                (** the last airspeed_validated *)
  li_gyro_selection : option Z;
  li_imu : topic gyro_status
}.

(** The members of [LandDetector] that a method of a vehicle may read. *)
Record land_base := mkLandBase {
  lb_freefall : Hysteresis;
  lb_landed : Hysteresis;
  lb_maybe_landed : Hysteresis;
  lb_ground_contact : Hysteresis;
  lb_ground_effect : Hysteresis;
  lb_position : local_position;
  lb_type : vehicle_type_t;
  lb_nav_state : navigation_state_t;
  lb_acceleration : vec3 f32;
  lb_angular_velocity : vec3 f32;
  lb_armed : bool;
  lb_dist_bottom_is_observable : bool
}.

Record land_flags := mkLandFlags {
  lf_in_descend : bool; lf_has_low_throttle : bool; lf_horizontal_movement : bool; lf_vertical_movement : bool;
  lf_close_to_ground_or_skipped_check : bool
}.

(** ** Vehicles *)

(** The virtual methods, on the members [V] of a derived class. *)
Class LandVehicle (V : Type) := {
  update_params : land_params -> V -> V;
  update_topics : land_in -> V -> V;
  get_freefall_state : land_base -> V -> bool;
  get_ground_contact_state : land_in -> land_base -> V -> bool * V;
  get_maybe_landed_state : land_in -> land_base -> V -> bool * V;
  get_landed_state : land_in -> land_base -> V -> bool * V;
  get_ground_effect_state : V -> bool;
  get_flags : V -> land_flags;
  set_hysteresis_factor : Z -> V -> land_base -> land_base
}.

Definition no_flags : land_flags := mkLandFlags false false false false false.

(** *** Multicopter *)

Record multicopter := mkMc {
  mc_params : land_params;
  mc_hoverThrottle : f32;
  mc_useHoverThrustEstimate : bool;
  mc_hover_thrust_estimate_last_valid : Z;
  mc_hover_thrust_estimate_valid : bool;
  mc_flag_control_climb_rate_enabled : bool;
  mc_hover_thrust_initialized : bool;
  mc_actuator_controls_throttle : f32;
  mc_takeoff_state : Z;
  mc_min_thrust_start : Z;
  mc_landed_time : Z;
  mc_in_descend : bool;
  mc_horizontal_movement : bool;
  mc_vertical_movement : bool;
  mc_has_low_throttle : bool;
  mc_close_to_ground_or_skipped_check : bool;
  mc_below_gnd_effect_hgt : bool
}.

Definition FREEFALL_TRIGGER_TIME_US : Z := 300000.
Definition LAND_DETECTOR_LAND_PHASE_TIME_US : Z := 2000000.
Definition DIST_FROM_GROUND_THRESHOLD : f32 := f1.

Definition mc_update_params (p : land_params) (v : multicopter) : multicopter :=
  let p := if fgt (LNDMC_Z_VEL_MAX p) (MPC_LAND_SPEED p) then p <| LNDMC_Z_VEL_MAX := MPC_LAND_SPEED p |> else p in
  let v := v <| mc_params := p |> <| mc_useHoverThrustEstimate := MPC_USE_HTE p =? 1 |> in
  if negb (mc_useHoverThrustEstimate v) || negb (mc_hover_thrust_initialized v)
  then v <| mc_hoverThrottle := MPC_THR_HOVER p |> <| mc_hover_thrust_initialized := true |> else v.

Definition mc_update_topics (i : land_in) (v : multicopter) : multicopter :=
  let v := v <| mc_actuator_controls_throttle := default (mc_actuator_controls_throttle v) (li_throttle i) |>
             <| mc_flag_control_climb_rate_enabled :=
                  default (mc_flag_control_climb_rate_enabled v) (li_climb_rate_enabled i) |> in
  let v := match li_hover_thrust i with
           | Some (true, thrust, t) =>
               if mc_useHoverThrustEstimate v
               then v <| mc_hoverThrottle := thrust |> <| mc_hover_thrust_estimate_last_valid := t |> else v
           | _ => v
           end in
  v <| mc_takeoff_state := default (mc_takeoff_state v) (li_takeoff_state i) |>.

Definition mc_freefall (b : land_base) : bool := flt (v3_norm (lb_acceleration b)) (f32_of_Z 2).

(** [a - b < 1_s] of two times. *)
Definition recent (now t : Z) : bool := u64 (now - t) <? 1000000.

Definition crawl_speed_threshold (p : land_params) : f32 := fmul (flit 9 10) (math_max (MPC_LAND_CRWL p) (flit 1 10)).

Definition mc_moves_vertically (now : Z) (l : local_position) (v : multicopter) : bool :=
  if recent now (lp_timestamp l) && lp_v_z_valid l then
    let p := mc_params v in
    let max_climb_rate :=
      if u64 (now - mc_landed_time v) <? LAND_DETECTOR_LAND_PHASE_TIME_US
      then fmul (LNDMC_Z_VEL_MAX p) (flit 5 2)
      else math_min (fmul (crawl_speed_threshold p) (flit 1 2)) (LNDMC_Z_VEL_MAX p) in
    fgt (fabs (lp_vz l)) max_climb_rate
  else true.

Definition mc_moves_horizontally (now : Z) (l : local_position) (v : multicopter) : bool :=
  recent now (lp_timestamp l) && lp_v_xy_valid l
  && (let v_xy := V2 (lp_vx l) (lp_vy l) in
      let limit := LNDMC_XY_VEL_MAX (mc_params v) in
      fgt (v2_dot v_xy v_xy) (fmul limit limit)).

Definition mc_below_ground_effect (now : Z) (l : local_position) (v : multicopter) : bool :=
  recent now (lp_timestamp l) && lp_dist_bottom_valid l && fgt (LNDMC_ALT_GND (mc_params v)) f0
  && flt (lp_dist_bottom l) (LNDMC_ALT_GND (mc_params v)).

Definition mc_low_throttle (v : multicopter) : bool :=
  let thr_pct_hover := if mc_hover_thrust_estimate_valid v then flit 6 10 else flit 3 10 in
  let min := MPC_THR_MIN (mc_params v) in
  fle (mc_actuator_controls_throttle v) (fadd min (fmul (fsub (mc_hoverThrottle v) min) thr_pct_hover)).

(** A descent is commanded; without a velocity setpoint it is not. *)
Definition mc_descends (vz : option f32) (v : multicopter) : bool :=
  mc_flag_control_climb_rate_enabled v
  && match vz with
     | Some x => PX4_ISFINITE x && fge x (crawl_speed_threshold (mc_params v))
     | None => mc_in_descend v
     end.

Definition is_close_to_ground (l : local_position) : bool :=
  lp_dist_bottom_valid l && flt (lp_dist_bottom l) DIST_FROM_GROUND_THRESHOLD.

Definition mc_ground_contact (i : land_in) (b : land_base) (v : multicopter) : bool * multicopter :=
  let l := lb_position b in
  let now := li_now i in
  let hte := recent now (mc_hover_thrust_estimate_last_valid v) in
  let v := v <| mc_vertical_movement := mc_moves_vertically now l v |>
             <| mc_horizontal_movement := mc_moves_horizontally now l v |>
             <| mc_below_gnd_effect_hgt := mc_below_ground_effect now l v |> in
  let v := if negb (mc_in_descend v) || hte then v <| mc_hover_thrust_estimate_valid := hte |> else v in
  let v := v <| mc_has_low_throttle := mc_low_throttle v |> in
  let v := v <| mc_in_descend := mc_descends (li_trajectory_vz i) v |> in
  let ground_contact :=
    if mc_flag_control_climb_rate_enabled v && negb (hy_state (lb_maybe_landed b)) && negb (hy_state (lb_landed b))
    then mc_has_low_throttle v && mc_in_descend v else mc_has_low_throttle v in
  let skip_close_to_ground_check := negb (lb_dist_bottom_is_observable b) || negb (lp_dist_bottom_valid l) in
  let v := v <| mc_close_to_ground_or_skipped_check := is_close_to_ground l || skip_close_to_ground_check |> in
  (if negb (lb_armed b) then true
   else mc_close_to_ground_or_skipped_check v && ground_contact && negb (mc_horizontal_movement v)
        && negb (mc_vertical_movement v), v).

Definition mc_min_throttle (v : multicopter) : f32 :=
  let p := mc_params v in
  if mc_flag_control_climb_rate_enabled v
  then fadd (MPC_THR_MIN p) (fmul (fsub (mc_hoverThrottle v) (MPC_THR_MIN p)) (flit 1 10))
  else fadd (MPC_MANTHR_MIN p) (flit 1 100).

Definition mc_rotates (now : Z) (b : land_base) (v : multicopter) : bool :=
  let landThresholdFactor := if u64 (now - mc_landed_time v) <? LAND_DETECTOR_LAND_PHASE_TIME_US then flit 5 2 else f1 in
  let max_rotation_scaled := fmul (math_radians (LNDMC_ROT_MAX (mc_params v))) landThresholdFactor in
  let w := lb_angular_velocity b in
  fgt (v2_norm (V2 (v_x w) (v_y w))) max_rotation_scaled.

Definition mc_maybe_landed (i : land_in) (b : land_base) (v : multicopter) : bool * multicopter :=
  let now := li_now i in
  if negb (lb_armed b) then (true, v)
  else if fle (mc_actuator_controls_throttle v) (mc_min_throttle v) then
    let v := if mc_min_thrust_start v =? 0 then v <| mc_min_thrust_start := now |> else v in
    (if hy_state (lb_freefall b) then false
     else if mc_rotates now b v then false
     else if recent now (lp_timestamp (lb_position b)) && lp_v_z_valid (lb_position b)
     then hy_state (lb_ground_contact b)
     else (0 <? mc_min_thrust_start v) && (8000000 <? u64 (now - mc_min_thrust_start v)), v)
  else (false, v <| mc_min_thrust_start := 0 |>).

Definition mc_landed (i : land_in) (b : land_base) (v : multicopter) : bool * multicopter :=
  let maybe := hy_state (lb_maybe_landed b) in
  let v := if negb maybe then v <| mc_landed_time := 0 |>
           else if mc_landed_time v =? 0 then v <| mc_landed_time := li_now i |> else v in
  (if negb (lb_armed b) then true else maybe, v).

Definition mc_ground_effect (v : multicopter) : bool :=
  (mc_in_descend v && negb (mc_horizontal_movement v))
  || (mc_below_gnd_effect_hgt v && (mc_takeoff_state v =? TAKEOFF_STATE_FLIGHT))
  || (mc_takeoff_state v =? TAKEOFF_STATE_RAMPUP).

(** [LNDMC_TRIG_TIME * 1_s / 3 * factor]. *)
Definition trigger_time (p : land_params) (factor : Z) : Z :=
  default 0 (f32_to_u64 (fmul (fdiv (fmul (LNDMC_TRIG_TIME p) (f32_of_Z 1000000)) (f32_of_Z 3)) (f32_of_Z factor))).

Definition mc_set_hysteresis_factor (factor : Z) (v : multicopter) (b : land_base) : land_base :=
  let t := trigger_time (mc_params v) factor in
  b <| lb_ground_contact := set_hysteresis_time_from false t (lb_ground_contact b) |>
    <| lb_landed := set_hysteresis_time_from false t (lb_landed b) |>
    <| lb_maybe_landed := set_hysteresis_time_from false t (lb_maybe_landed b) |>
    <| lb_freefall := set_hysteresis_time_from false FREEFALL_TRIGGER_TIME_US (lb_freefall b) |>.

Definition mc_flags (v : multicopter) : land_flags :=
  mkLandFlags (mc_in_descend v) (mc_has_low_throttle v) (mc_horizontal_movement v) (mc_vertical_movement v)
    (mc_close_to_ground_or_skipped_check v).

#[export] Instance Multicopter : LandVehicle multicopter := {|
  update_params := mc_update_params;
  update_topics := mc_update_topics;
  get_freefall_state b _ := mc_freefall b;
  get_ground_contact_state := mc_ground_contact;
  get_maybe_landed_state := mc_maybe_landed;
  get_landed_state := mc_landed;
  get_ground_effect_state := mc_ground_effect;
  get_flags := mc_flags;
  set_hysteresis_factor := mc_set_hysteresis_factor
|}.

(** *** VTOL *)

(** [VtolLandDetector] derives from the multicopter. *)
Record vtol := mkVtol { vt_mc : multicopter; vt_was_in_air : bool; vt_airspeed_filtered : f32 }.

Definition in_fixed_wing_mode (b : land_base) : bool := bool_decide (lb_type b = VEHICLE_TYPE_FIXED_WING).

Definition low_pass (old new : f32) (share : Z) : f32 := fadd (fmul (flit (100 - share) 100) old) (fmul (flit share 100) new).

Definition vt_maybe_landed (i : land_in) (b : land_base) (v : vtol) : bool * vtol :=
  if in_fixed_wing_mode b then (negb (lb_armed b), v)
  else let '(r, m) := mc_maybe_landed i b (vt_mc v) in (r, v <| vt_mc := m |>).

Definition vt_landed (i : land_in) (b : land_base) (v : vtol) : bool * vtol :=
  if in_fixed_wing_mode b then (negb (lb_armed b), v)
  else
    let '(landed, m) := mc_landed i b (vt_mc v) in
    let '(timestamp, true_airspeed_m_s) := li_airspeed i in
    let airspeed := if recent (li_now i) timestamp && PX4_ISFINITE true_airspeed_m_s
                    then low_pass (vt_airspeed_filtered v) true_airspeed_m_s 5 else f0 in
    let landed := if vt_was_in_air v && fgt airspeed (LNDFW_AIRSPD_MAX (mc_params m)) then false else landed in
    (landed, mkVtol m (negb landed) airspeed).

#[export] Instance Vtol : LandVehicle vtol := {|
  update_params p v := v <| vt_mc := mc_update_params p (vt_mc v) |>;
  update_topics i v := v <| vt_mc := mc_update_topics i (vt_mc v) |>;
  get_freefall_state b _ := negb (in_fixed_wing_mode b) && mc_freefall b;
  get_ground_contact_state i b v := let '(r, m) := mc_ground_contact i b (vt_mc v) in (r, v <| vt_mc := m |>);
  get_maybe_landed_state := vt_maybe_landed;
  get_landed_state := vt_landed;
  get_ground_effect_state v := mc_ground_effect (vt_mc v);
  get_flags v := mc_flags (vt_mc v);
  set_hysteresis_factor f v := mc_set_hysteresis_factor f (vt_mc v)
|}.

(** *** Fixed wing *)

Record fixedwing := mkFw {
  fw_params : land_params;
  fw_airspeed_filtered : f32;
  fw_velocity_xy_filtered : f32;
  fw_velocity_z_filtered : f32;
  fw_xy_accel_filtered : f32
}.

Definition LANDED_TRIGGER_TIME_US : Z := 2000000.
Definition FLYING_TRIGGER_TIME_US : Z := 0.

Definition or_old (new old : f32) : f32 := if PX4_ISFINITE new then new else old.

(** The filters and whether the airspeed is invalid. *)
Definition fw_filter (i : land_in) (b : land_base) (v : fixedwing) : bool * fixedwing :=
  let l := lb_position b in
  let '(timestamp, airspeed) := li_airspeed i in
  let airspeed_invalid := negb (PX4_ISFINITE airspeed) || (1000000 <? u64 (li_now i - timestamp)) in
  let speed := fsqrt (fadd (fmul (lp_vx l) (lp_vx l)) (fmul (lp_vy l) (lp_vy l))) in
  let a := lb_acceleration b in
  (airspeed_invalid,
   mkFw (fw_params v)
     (if airspeed_invalid then f0 else low_pass (fw_airspeed_filtered v) airspeed 5)
     (or_old (low_pass (fw_velocity_xy_filtered v) speed 3) (fw_velocity_xy_filtered v))
     (or_old (low_pass (fw_velocity_z_filtered v) (fabs (lp_vz l)) 1) (fw_velocity_z_filtered v))
     (fadd (fmul (fw_xy_accel_filtered v) (flit 8 10)) (fmul (v2_norm (V2 (v_x a) (v_y a))) (flit 18 100)))).

Definition fw_landed (i : land_in) (b : land_base) (v : fixedwing) : bool * fixedwing :=
  if negb (lb_armed b) then (true, v)
  else if recent (li_now i) (lp_timestamp (lb_position b)) then
    let '(airspeed_invalid, v) := fw_filter i b v in
    let p := fw_params v in
    let threshold x := if airspeed_invalid then fmul (flit 7 10) x else x in
    (flt (fw_airspeed_filtered v) (LNDFW_AIRSPD_MAX p)
     && flt (fw_velocity_xy_filtered v) (threshold (LNDFW_VEL_XY_MAX p))
     && flt (fw_velocity_z_filtered v) (threshold (LNDFW_VEL_Z_MAX p))
     && flt (fw_xy_accel_filtered v) (LNDFW_XYACC_MAX p), v)
  else (true, v).

#[export] Instance Fixedwing : LandVehicle fixedwing := {|
  update_params p v := v <| fw_params := p |>;
  update_topics _ v := v;
  get_freefall_state _ _ := false;
  get_ground_contact_state _ _ v := (false, v);
  get_maybe_landed_state _ _ v := (false, v);
  get_landed_state := fw_landed;
  get_ground_effect_state _ := false;
  get_flags _ := no_flags;
  set_hysteresis_factor _ _ b := b
|}.

(** *** Rover and airship *)

Inductive rover := rover_members.
Inductive airship := airship_members.

(** The detectors of both believe a landing as soon as it is requested. *)
Definition requested_landed (b : land_base) : bool :=
  if bool_decide (lb_nav_state b = NAVIGATION_STATE_AUTO_LAND) then true else negb (lb_armed b).

#[export] Instance Rover : LandVehicle rover := {|
  update_params _ v := v;
  update_topics _ v := v;
  get_freefall_state _ _ := false;
  get_ground_contact_state _ _ v := (true, v);
  get_maybe_landed_state _ _ v := (false, v);
  get_landed_state _ b v := (requested_landed b, v);
  get_ground_effect_state _ := false;
  get_flags _ := no_flags;
  set_hysteresis_factor _ _ b := b
|}.

#[export] Instance Airship : LandVehicle airship := {|
  update_params _ v := v;
  update_topics _ v := v;
  get_freefall_state _ _ := false;
  get_ground_contact_state _ _ v := (false, v);
  get_maybe_landed_state _ _ v := (false, v);
  get_landed_state _ b v := (requested_landed b, v);
  get_ground_effect_state _ := false;
  get_flags _ := no_flags;
  set_hysteresis_factor _ _ b := b
|}.

(** ** The detector *)

Record detector (V : Type) := mkLand {
  ld_base : land_base;
  ld_vehicle : V;
  ld_previous_armed : bool;
  ld_land_detected : land_detected;
  ld_takeoff_time : Z;
  ld_total_flight_time : Z;
  ld_time_last_move_detect : Z;
  ld_device_id_gyro : Z;
  ld_imu_sub : Subscription;
  ld_at_rest : bool;
  ld_flight_time_high : Z;              (** LND_FLIGHT_T_HI in storage, 32 bits signed *)
  ld_flight_time_low : Z                (** LND_FLIGHT_T_LO *)
}.
#[global] Arguments mkLand {V}.
#[global] Arguments ld_base {V}.
#[global] Arguments ld_vehicle {V}.
#[global] Arguments ld_previous_armed {V}.
#[global] Arguments ld_land_detected {V}.
#[global] Arguments ld_takeoff_time {V}.
#[global] Arguments ld_total_flight_time {V}.
#[global] Arguments ld_time_last_move_detect {V}.
#[global] Arguments ld_device_id_gyro {V}.
#[global] Arguments ld_imu_sub {V}.
#[global] Arguments ld_at_rest {V}.
#[global] Arguments ld_flight_time_high {V}.
#[global] Arguments ld_flight_time_low {V}.

Definition s32 (x : Z) : Z := if u32 x <? 2 ^ 31 then u32 x else u32 x - 2 ^ 32.

(** The total that the two parameters hold. *)
Definition stored_flight_time (high low : Z) : Z := Z.lor (u64 (Z.shiftl (u64 high) 32)) (u32 low).

Section Detector.
Context {V : Type} `{!LandVehicle V} (ORB_MULTI_MAX_INSTANCES : Z).
Implicit Types (d : detector V) (i : land_in).

Definition on_base (f : land_base -> land_base) d : detector V := d <| ld_base := f (ld_base d) |>.

(** *** Inputs *)

Definition read_params i d : detector V :=
  if li_param_update i || (lm_timestamp (ld_land_detected d) =? 0)
  then d <| ld_vehicle := update_params (li_params i) (ld_vehicle d) |>
         <| ld_total_flight_time := stored_flight_time (ld_flight_time_high d) (ld_flight_time_low d) |>
  else d.

Definition GYRO_NORM_MAX : f32 := math_radians (f32_of_Z 3).

Definition read_motion i d : detector V :=
  let d := on_base (fun b => b <| lb_armed := default (lb_armed b) (li_armed i) |>
                               <| lb_acceleration := default (lb_acceleration b) (li_acceleration i) |>) d in
  match li_angular_velocity i with
  | Some (t, w) =>
      let d := on_base (fun b => b <| lb_angular_velocity := w |>) d in
      if fgt (v3_norm w) GYRO_NORM_MAX then d <| ld_time_last_move_detect := t |> else d
  | None => d
  end.

Definition observable (b : land_base) : bool :=
  lb_dist_bottom_is_observable b
  || negb (Z.land (lp_dist_bottom_sensor_bitfield (lb_position b)) DIST_BOTTOM_SENSOR_RANGE =? 0).

Definition read_topics i d : detector V :=
  let d := read_motion i d in
  let d := on_base (fun b => b <| lb_position := default (lb_position b) (li_position i) |>
                               <| lb_type := default (lb_type b) (fst <$> li_status i) |>
                               <| lb_nav_state := default (lb_nav_state b) (snd <$> li_status i) |>) d in
  let d := d <| ld_vehicle := update_topics i (ld_vehicle d) |> in
  on_base (fun b => b <| lb_dist_bottom_is_observable := observable b |>) d.

(** *** The states *)

Definition factor (b : land_base) : Z :=
  if lb_dist_bottom_is_observable b && negb (lp_dist_bottom_valid (lb_position b)) then 3 else 1.

Definition detect_freefall i (b : land_base) (v : V) : land_base :=
  b <| lb_freefall := set_state_and_update (get_freefall_state b v) (li_now i) (lb_freefall b) |>.

Definition detect_contact i (b : land_base) (v : V) : land_base * V :=
  let '(r, v) := get_ground_contact_state i b v in
  (b <| lb_ground_contact := set_state_and_update r (li_now i) (lb_ground_contact b) |>, v).

Definition detect_maybe i (b : land_base) (v : V) : land_base * V :=
  let '(r, v) := get_maybe_landed_state i b v in
  (b <| lb_maybe_landed := set_state_and_update r (li_now i) (lb_maybe_landed b) |>, v).

Definition detect_landed i (b : land_base) (v : V) : land_base * V :=
  let '(r, v) := get_landed_state i b v in
  (b <| lb_landed := set_state_and_update r (li_now i) (lb_landed b) |>, v).

Definition detect i (b : land_base) (v : V) : land_base * V :=
  let b := set_hysteresis_factor (factor b) v b in
  let b := detect_freefall i b v in
  let '(b, v) := detect_contact i b v in
  let '(b, v) := detect_maybe i b v in
  let '(b, v) := detect_landed i b v in
  (b <| lb_ground_effect := set_state_and_update (get_ground_effect_state v) (li_now i) (lb_ground_effect b) |>, v).

(** *** Rest *)

(** The loop over the instances of the inertial sensors, with a new subscription for each. *)
Fixpoint find_gyro (tries : nat) (instance : Z) (t : topic gyro_status) (selected : Z) : option Z :=
  match tries with
  | O => None
  | S tries =>
      let s := default no_gyro (fst (su_copy ORB_MULTI_MAX_INSTANCES t (Subscription_new ORB_MULTI_MAX_INSTANCES t instance))) in
      if negb (gy_device_id s =? 0) && (gy_device_id s =? selected) then Some instance
      else find_gyro tries (instance + 1) t selected
  end.

Definition select_gyro i d : detector V :=
  match li_gyro_selection i with
  | Some selected =>
      if selected =? ld_device_id_gyro d then d
      else match find_gyro 4 0 (li_imu i) selected with
           | Some n => d <| ld_imu_sub := snd (ChangeInstance ORB_MULTI_MAX_INSTANCES (li_imu i) n (ld_imu_sub d)) |>
                         <| ld_device_id_gyro := selected |>
           | None => d
           end
  | None => d
  end.

Definition UpdateVehicleAtRest i d : detector V :=
  let d := select_gyro i d in
  let '(status, sub) := su_update ORB_MULTI_MAX_INSTANCES (li_imu i) (ld_imu_sub d) in
  let d := d <| ld_imu_sub := sub |> in
  let d := match status with
           | Some s => if fgt (gy_gyro_vibration_metric s) (flit 2 100) || fgt (gy_accel_vibration_metric s) (flit 12 10)
                       then d <| ld_time_last_move_detect := gy_timestamp s |> else d
           | None => d
           end in
  d <| ld_at_rest := 1000000 <? u64 (li_now i - ld_time_last_move_detect d) |>.

(** *** The message *)

Definition message i d : land_detected :=
  let b := ld_base d in
  let f := get_flags (ld_vehicle d) in
  mkLandDetected (li_now i) (hy_state (lb_freefall b)) (hy_state (lb_ground_contact b)) (hy_state (lb_maybe_landed b))
    (hy_state (lb_landed b)) (hy_state (lb_ground_effect b)) (lf_in_descend f) (lf_has_low_throttle f)
    (lf_vertical_movement f) (lf_horizontal_movement f) (lf_close_to_ground_or_skipped_check f)
    (hy_state (lb_landed b) && ld_at_rest d).

Definition must_publish i d : bool :=
  let old := ld_land_detected d in
  let new := message i d in
  (1000000 <=? u64 (li_now i - lm_timestamp old))
  || xorb (lm_landed old) (lm_landed new) || xorb (lm_freefall old) (lm_freefall new)
  || xorb (lm_maybe_landed old) (lm_maybe_landed new) || xorb (lm_ground_contact old) (lm_ground_contact new)
  || xorb (lm_in_ground_effect old) (lm_in_ground_effect new) || xorb (lm_at_rest old) (lm_at_rest new).

Definition publish_land i d : list land_detected * detector V :=
  if must_publish i d then
    let new := message i d in
    let takeoff := negb (lm_landed new) && lm_landed (ld_land_detected d) && (ld_takeoff_time d =? 0) in
    ([new], d <| ld_takeoff_time := if takeoff then li_now i else ld_takeoff_time d |> <| ld_land_detected := new |>)
  else ([], d).

(** *** The flight time *)

Definition store_flight_time i d : detector V :=
  let armed := lb_armed (ld_base d) in
  let d := if negb (ld_takeoff_time d =? 0) && negb armed && ld_previous_armed d then
             let total := u64 (ld_total_flight_time d + (li_now i - ld_takeoff_time d)) in
             d <| ld_total_flight_time := total |> <| ld_takeoff_time := 0 |>
               <| ld_flight_time_high := s32 (Z.shiftr total 32) |> <| ld_flight_time_low := s32 total |>
           else d in
  d <| ld_previous_armed := armed |>.

Definition Run i d : list land_detected * detector V :=
  let d := read_topics i (read_params i d) in
  let '(b, v) := detect i (ld_base d) (ld_vehicle d) in
  let d := UpdateVehicleAtRest i (d <| ld_base := b |> <| ld_vehicle := v |>) in
  let '(o, d) := publish_land i d in
  (o, store_flight_time i d).

End Detector.

(** ** Construction *)

Definition no_params : land_params := mkLandParams f0 f0 f0 0 f0 f0 f0 f0 f0 f0 f0 f0 f0 f0 f0.

Definition land_base_new : land_base :=
  mkLandBase (Hysteresis_new false) (Hysteresis_new true) (Hysteresis_new true) (Hysteresis_new true) (Hysteresis_new false)
    no_position VEHICLE_TYPE_UNKNOWN NAVIGATION_STATE_MANUAL (V3 f0 f0 f0) (V3 f0 f0 f0) false false.

(** The constructors; the subscription of the inertial sensor follows the topic as it is then. *)
Section Construction.
Context (ORB_MULTI_MAX_INSTANCES : Z) (imu : topic gyro_status).

Definition detector_new {V : Type} (b : land_base) (v : V) (high low : Z) : detector V :=
  mkLand b v false (mkLandDetected 0 false true true true true false false false false true true) 0 0 0 0
    (Subscription_new ORB_MULTI_MAX_INSTANCES imu 0) true high low.

Definition multicopter_members : multicopter :=
  mkMc no_params f0 false 0 false false false f0 TAKEOFF_STATE_DISARMED 0 0 false false false false false false.
Definition MulticopterLandDetector (high low : Z) : detector multicopter := detector_new land_base_new multicopter_members high low.

Definition VtolLandDetector (high low : Z) : detector vtol :=
  detector_new land_base_new (mkVtol multicopter_members false f0) high low.

Definition FixedwingLandDetector (high low : Z) : detector fixedwing :=
  detector_new (land_base_new <| lb_landed := set_hysteresis_time_from true FLYING_TRIGGER_TIME_US
                                   (set_hysteresis_time_from false LANDED_TRIGGER_TIME_US (lb_landed land_base_new)) |>)
    (mkFw no_params f0 f0 f0 f0) high low.

Definition RoverLandDetector (high low : Z) : detector rover := detector_new land_base_new rover_members high low.
Definition AirshipLandDetector (high low : Z) : detector airship := detector_new land_base_new airship_members high low.

End Construction.

End LandDetector.
