(* ===== verification/LandDetectorSpec.v ===== *)
(** * What the land detector promises

    The three stages of the multicopter's detector add up: a landing in flight is reported only
    after the vehicle was still on the ground for the whole trigger time
    ([landed_after_trigger_time]), and a landed vehicle may also have landed
    ([landed_maybe_landed]).  The flight time in storage is exact for every vehicle
    ([flight_time_exact]). *)
From stdpp Require Import gmap.
From coqutil Require Import Datatypes.RecordSettersUsingExistingGetters.
From S2P Require Import Prelude Float32 Linalg Takeoff NavState Uorb LandDetector.
Import NavState Uorb LandDetector.
Local Open Scope Z_scope.

Module LandDetectorSpec.

(** ** Stages *)

(** A delay that falls at once and, when it rises, does so [T] after a time not before [B]. *)
Definition stage (B T last : Z) (h : Hysteresis) : Prop :=
  0 <= B /\ last < 2 ^ 64 /\ (if hy_state h then B + T <= last else B <= hy_last_time_to_change_state h <= last).

Definition falls_at_once (h : Hysteresis) : Prop :=
  hy_time_from_true_us h = 0 /\ (hy_state h = true -> hy_requested_state h = true).

Lemma falls_update r now h : falls_at_once h -> falls_at_once (set_state_and_update r now h).
Proof.
  intros [T S]. pose proof (set_hysteresis_times r now h) as [T1 _]. split; [congruence|].
  destruct r.
  - intros _. destruct h as [lst tt tf st rq]. unfold set_state_and_update, hysteresis_update. by destruct st, rq; cbn; repeat case_match.
  - by destruct (set_hysteresis_disarmed now h T) as [-> _].
Qed.

Lemma falls_time b t h : b = false -> falls_at_once h -> falls_at_once (set_hysteresis_time_from b t h).
Proof. by intros ->. Qed.

(** A stage whose condition holds. *)
Lemma stage_true B T last now h :
  falls_at_once h -> T <= hy_time_from_false_us h -> 0 <= B <= now -> last <= now < 2 ^ 64 ->
  (hy_requested_state h = true -> stage B T last h) ->
  stage B T now (set_state_and_update true now h) /\ hy_requested_state (set_state_and_update true now h) = true.
Proof.
  intros [Tt S] Tf Bn L I. destruct h as [lst tt tf st rq]. unfold stage in *. cbn in *.
  unfold set_state_and_update, hysteresis_update. destruct st; cbn.
  - specialize (S eq_refl). subst rq. specialize (I eq_refl). cbn. lia.
  - destruct rq; cbn.
    + specialize (I eq_refl). rewrite wrap_small by (unfold fits; lia).
      destruct (Z.leb_spec tf (now - lst)); cbn; lia.
    + rewrite Z.sub_diag. change (u64 0) with 0. destruct (Z.leb_spec tf 0); cbn; lia.
Qed.

Lemma stage_false now h :
  falls_at_once h ->
  hy_state (set_state_and_update false now h) = false /\ hy_requested_state (set_state_and_update false now h) = false.
Proof. intros [T _]. by apply set_hysteresis_disarmed. Qed.

(** ** Stages in a row *)

Section Chain.
Context (T : Z).

(** Since [since] the vehicle is still; every stage waits for the one before. *)
Definition chain (since : option Z) (last : Z) (c m l : Hysteresis) : Prop :=
  0 <= last < 2 ^ 64 /\ (forall t, since = Some t -> 0 <= t <= last) /\
  falls_at_once c /\ falls_at_once m /\ falls_at_once l /\
  (hy_requested_state c = true -> exists t, since = Some t /\ stage t T last c) /\
  (hy_requested_state m = true -> exists t, since = Some t /\ hy_state c = true /\ stage (t + T) T last m) /\
  (hy_requested_state l = true -> exists t, since = Some t /\ hy_state m = true /\ stage (t + 2 * T) T last l).

(** A stage moves on: [B] is known when its condition holds. *)
Lemma stage_step B since last now r h :
  falls_at_once h -> T <= hy_time_from_false_us h -> last <= now < 2 ^ 64 ->
  (r = true -> exists t, since = Some t /\ 0 <= t + B <= now) ->
  (hy_requested_state h = true -> r = true -> exists t, since = Some t /\ stage (t + B) T last h) ->
  let h' := set_state_and_update r now h in
  falls_at_once h' /\
  (hy_requested_state h' = true -> r = true /\ exists t, since = Some t /\ 0 <= t + B <= now /\ stage (t + B) T now h').
Proof.
  intros F Tf N R I h'. split; [by apply falls_update|]. subst h'. destruct r.
  - intros _. split; [done|]. destruct (R eq_refl) as (t & -> & Bn). exists t. split; [done|]. split; [done|].
    apply (stage_true (t + B) T last); try done. intros Q. by destruct (I Q eq_refl) as (t' & [= ->] & S).
  - destruct (stage_false now h F) as [_ ->]. done.
Qed.

Lemma stage_up B now h : falls_at_once h -> stage B T now h -> hy_state h = true -> B + T <= now.
Proof. intros _ (_ & _ & S) E. by rewrite E in S. Qed.

Lemma chain_step since last now rc rm rl s c m l :
  chain since last c m l -> 0 <= T -> last <= now < 2 ^ 64 ->
  T <= hy_time_from_false_us c -> T <= hy_time_from_false_us m -> T <= hy_time_from_false_us l ->
  let c' := set_state_and_update rc now c in
  let m' := set_state_and_update rm now m in
  let l' := set_state_and_update rl now l in
  (rc = true -> s = true) -> (rm = true -> hy_state c' = true) -> (rl = true -> hy_state m' = true) ->
  chain (if s then Some (default now since) else None) now c' m' l'.
Proof.
  intros (L & D & Fc & Fm & Fl & C & M & K) T0 N Tc Tm Tl c' m' l' Rc Rm Rl.
  set (since' := if s then Some (default now since) else None).
  assert (forall t, since = Some t -> s = true -> since' = Some t) as Keep by (intros t -> ->; done).
  destruct (stage_step 0 since' last now rc c Fc Tc N) as [Fc' C'].
  { intros E. subst since'. rewrite (Rc E). exists (default now since). split; [done|]. destruct since; cbn; [specialize (D _ eq_refl)|]; lia. }
  { intros Q E. destruct (C Q) as (t & E' & S). exists t. rewrite Z.add_0_r. auto. }
  fold c' in Fc', C'.
  assert (hy_state c' = true -> rc = true /\ exists t, since' = Some t /\ 0 <= t /\ t + T <= now) as Uc.
  { intros E. destruct (C' (proj2 Fc' E)) as (? & t & E' & ? & S). split; [done|]. exists t. split; [done|].
    pose proof (stage_up _ _ _ Fc' S E). lia. }
  destruct (stage_step T since' last now rm m Fm Tm N) as [Fm' M'].
  { intros E. destruct (Uc (Rm E)) as (_ & t & ? & ?). exists t. split; [done|lia]. }
  { intros Q E. destruct (M Q) as (t & E' & _ & S). destruct (Uc (Rm E)) as [R _]. exists t. auto. }
  fold m' in Fm', M'.
  assert (hy_state m' = true -> rm = true /\ exists t, since' = Some t /\ 0 <= t /\ t + 2 * T <= now) as Um.
  { intros E. destruct (M' (proj2 Fm' E)) as (? & t & E' & ? & S). split; [done|]. destruct (Uc (Rm ltac:(done))) as (_ & t' & E'' & ?).
    exists t. split; [done|]. pose proof (stage_up _ _ _ Fm' S E). simplify_eq. lia. }
  destruct (stage_step (2 * T) since' last now rl l Fl Tl N) as [Fl' K'].
  { intros E. destruct (Um (Rl E)) as (_ & t & ? & ?). exists t. split; [done|lia]. }
  { intros Q E. destruct (K Q) as (t & E' & _ & S). destruct (Um (Rl E)) as [R _]. destruct (Uc (Rm R)) as [R' _]. exists t. auto. }
  fold l' in Fl', K'.
  split; [lia|]. split.
  { intros t E. subst since'. destruct s; [|done]. injection E as <-. destruct since; cbn; [specialize (D _ eq_refl)|]; lia. }
  split; [done|]. split; [done|]. split; [done|]. split_and!.
  - intros Q. destruct (C' Q) as (_ & t & ? & _ & S). exists t. by rewrite Z.add_0_r in S.
  - intros Q. destruct (M' Q) as (R & t & ? & _ & S). exists t. auto.
  - intros Q. destruct (K' Q) as (R & t & ? & _ & S). exists t. auto.
Qed.

Lemma chain_landed since last c m l :
  chain since last c m l -> hy_state l = true -> exists t, since = Some t /\ t + 3 * T <= last.
Proof.
  intros (_ & _ & _ & _ & Fl & _ & _ & K) E. destruct (K (proj2 Fl E)) as (t & E' & _ & S). exists t. split; [done|].
  pose proof (stage_up _ _ _ Fl S E). lia.
Qed.

End Chain.

Section Detector.
Context {V : Type} `{!LandVehicle V} (max : Z).

(** The part of a run that decides. *)
Definition inputs (i : land_in) (d : detector V) : detector V := read_topics i (read_params i d).
Definition decided (i : land_in) (d : detector V) : land_base * V := detect i (ld_base (inputs i d)) (ld_vehicle (inputs i d)).
Definition after (i : land_in) (d : detector V) : detector V := snd (LandDetector.Run max i d).

Lemma rest_keeps i (d : detector V) :
  ld_base (UpdateVehicleAtRest max i d) = ld_base d /\ ld_vehicle (UpdateVehicleAtRest max i d) = ld_vehicle d /\
  ld_land_detected (UpdateVehicleAtRest max i d) = ld_land_detected d /\
  ld_takeoff_time (UpdateVehicleAtRest max i d) = ld_takeoff_time d /\
  ld_total_flight_time (UpdateVehicleAtRest max i d) = ld_total_flight_time d /\
  ld_previous_armed (UpdateVehicleAtRest max i d) = ld_previous_armed d /\
  ld_flight_time_high (UpdateVehicleAtRest max i d) = ld_flight_time_high d /\
  ld_flight_time_low (UpdateVehicleAtRest max i d) = ld_flight_time_low d.
Proof.
  unfold UpdateVehicleAtRest. set (d1 := select_gyro max i d).
  assert (exists s g, d1 = d <| ld_imu_sub := s |> <| ld_device_id_gyro := g |>) as (s & g & E).
  { assert (exists s g, d = d <| ld_imu_sub := s |> <| ld_device_id_gyro := g |>) as E0
      by (exists (ld_imu_sub d), (ld_device_id_gyro d); by destruct d).
    subst d1. unfold select_gyro. destruct (li_gyro_selection i) as [sel|]; [|exact E0].
    destruct (sel =? _); [exact E0|]. destruct (find_gyro _ _ _ _ _); [|exact E0]. eexists _, _. reflexivity. }
  clearbody d1. subst d1. destruct (su_update _ _ _) as [[x|] sub].
  - destruct (fgt (gy_gyro_vibration_metric x) _ || _); by repeat split.
  - by repeat split.
Qed.

Lemma publish_keeps i (d : detector V) :
  ld_base (snd (publish_land i d)) = ld_base d /\ ld_vehicle (snd (publish_land i d)) = ld_vehicle d.
Proof. unfold publish_land. by destruct (must_publish i d). Qed.

Lemma store_keeps i (d : detector V) :
  ld_base (store_flight_time i d) = ld_base d /\ ld_vehicle (store_flight_time i d) = ld_vehicle d.
Proof. unfold store_flight_time. by destruct (_ && _ && _). Qed.

Lemma run_decided i (d : detector V) :
  ld_base (after i d) = fst (decided i d) /\ ld_vehicle (after i d) = snd (decided i d).
Proof.
  unfold after, LandDetector.Run, decided. fold (inputs i d).
  destruct (detect i (ld_base (inputs i d)) (ld_vehicle (inputs i d))) as [b v]. cbn [fst snd].
  destruct (rest_keeps i ((inputs i d) <| ld_base := b |> <| ld_vehicle := v |>)) as (Eb & Ev & _).
  set (d1 := UpdateVehicleAtRest _ _ _) in *. clearbody d1.
  change (ld_base d1 = b) in Eb. change (ld_vehicle d1 = v) in Ev.
  pose proof (publish_keeps i d1) as [Pb Pv]. destruct (publish_land i d1) as [o d2]. cbn [fst snd] in *.
  destruct (store_keeps i d2) as [Sb Sv]. split; congruence.
Qed.

Lemma published_states i (d : detector V) m :
  In m (fst (LandDetector.Run max i d)) ->
  lm_landed m = hy_state (lb_landed (ld_base (after i d))) /\
  lm_maybe_landed m = hy_state (lb_maybe_landed (ld_base (after i d))).
Proof.
  unfold after, LandDetector.Run. fold (inputs i d).
  destruct (detect i (ld_base (inputs i d)) (ld_vehicle (inputs i d))) as [b v]. set (d1 := UpdateVehicleAtRest _ _ _).
  clearbody d1. pose proof (publish_keeps i d1) as [Pb _]. unfold publish_land in *.
  destruct (must_publish i d1); [|done]. cbn [fst snd] in *.
  destruct (store_keeps i (d1 <| ld_takeoff_time := if negb (lm_landed (message i d1)) && lm_landed (ld_land_detected d1) && (ld_takeoff_time d1 =? 0)
     then li_now i else ld_takeoff_time d1 |> <| ld_land_detected := message i d1 |>)) as [-> _].
  rewrite Pb. intros [<-|[]]. done.
Qed.

End Detector.

(** ** The multicopter in flight *)

(** What a run leaves in the members of the vehicle. *)
Definition still (v : multicopter) : bool :=
  mc_has_low_throttle v && mc_close_to_ground_or_skipped_check v && negb (mc_horizontal_movement v)
  && negb (mc_vertical_movement v).

Lemma contact_still i b v :
  lb_armed b = true -> fst (mc_ground_contact i b v) = true -> still (snd (mc_ground_contact i b v)) = true.
Proof.
  intros A. unfold mc_ground_contact. rewrite A. cbn [negb fst snd].
  set (v1 := if negb _ || _ then _ else _). generalize v1. clear v1. intros v1. cbn.
  unfold still. cbn. unfold RecordSettersUsingExistingGetters.const.
  rewrite !andb_true_iff. intros [[[C G] Hm] Vm]. split_and!; try done. by destruct (_ && _ && _); [apply andb_true_iff in G as [G _]|].
Qed.

Lemma contact_keeps i b v : mc_params (snd (mc_ground_contact i b v)) = mc_params v.
Proof.
  unfold mc_ground_contact. cbn [snd]. set (v1 := if negb _ || _ then _ else _).
  assert (mc_params v1 = mc_params v) as <- by (subst v1; by case_match). done.
Qed.

Lemma maybe_keeps i b v :
  still (snd (mc_maybe_landed i b v)) = still v /\ mc_params (snd (mc_maybe_landed i b v)) = mc_params v.
Proof.
  unfold mc_maybe_landed. destruct (negb (lb_armed b)); [done|]. destruct (fle _ _); [|done]. cbn [snd].
  by destruct (mc_min_thrust_start v =? 0).
Qed.

Lemma landed_keeps i b v : still (snd (mc_landed i b v)) = still v /\ mc_params (snd (mc_landed i b v)) = mc_params v.
Proof. unfold mc_landed. cbn [snd]. by repeat case_match. Qed.

(** With a known velocity the vehicle may have landed only if it touches the ground. *)
Lemma maybe_contact i b v :
  lb_armed b = true -> lp_v_z_valid (lb_position b) = true -> recent (li_now i) (lp_timestamp (lb_position b)) = true ->
  fst (mc_maybe_landed i b v) = true -> hy_state (lb_ground_contact b) = true.
Proof.
  intros A Z R. unfold mc_maybe_landed. rewrite A. cbn [negb]. destruct (fle _ _); [|done]. cbn [fst].
  rewrite R, Z. cbn [andb]. destruct (hy_state (lb_freefall b)); [done|]. by destruct (mc_rotates _ _ _).
Qed.

Lemma detect_stages i b v (f := trigger_time (mc_params v) (factor b)) (r := detect (V := multicopter) i b v) :
  lb_armed b = true -> lp_v_z_valid (lb_position b) = true -> recent (li_now i) (lp_timestamp (lb_position b)) = true ->
  exists rc rm rl,
    lb_ground_contact (fst r) = set_state_and_update rc (li_now i) (set_hysteresis_time_from false f (lb_ground_contact b)) /\
    lb_maybe_landed (fst r) = set_state_and_update rm (li_now i) (set_hysteresis_time_from false f (lb_maybe_landed b)) /\
    lb_landed (fst r) = set_state_and_update rl (li_now i) (set_hysteresis_time_from false f (lb_landed b)) /\
    (rc = true -> still (snd r) = true) /\ (rm = true -> hy_state (lb_ground_contact (fst r)) = true) /\
    (rl = true -> hy_state (lb_maybe_landed (fst r)) = true) /\
    lb_armed (fst r) = true /\ mc_params (snd r) = mc_params v.
Proof.
  intros A Z R. subst r. unfold detect. cbn [set_hysteresis_factor Multicopter].
  set (b2 := detect_freefall i (mc_set_hysteresis_factor (factor b) v b) v).
  unfold detect_contact. cbn [get_ground_contact_state Multicopter].
  pose proof (contact_still i b2 v A) as Sc. pose proof (contact_keeps i b2 v) as Pc.
  destruct (mc_ground_contact i b2 v) as [rc v1]. cbn [fst snd] in *.
  set (b3 := b2 <| lb_ground_contact := _ |>). unfold detect_maybe. cbn [get_maybe_landed_state Multicopter].
  pose proof (maybe_contact i b3 v1 A Z R) as Cm. pose proof (maybe_keeps i b3 v1) as [Sm Pm].
  destruct (mc_maybe_landed i b3 v1) as [rm v2]. cbn [fst snd] in *.
  set (b4 := b3 <| lb_maybe_landed := _ |>). unfold detect_landed. cbn [get_landed_state Multicopter].
  pose proof (landed_keeps i b4 v2) as [Sl Pl].
  assert (fst (mc_landed i b4 v2) = hy_state (lb_maybe_landed b4)) as Cl.
  { unfold mc_landed. cbn [fst]. assert (lb_armed b4 = true) as -> by exact A. done. }
  destruct (mc_landed i b4 v2) as [rl v3]. cbn [fst snd] in *.
  exists rc, rm, rl. split; [reflexivity|]. split; [reflexivity|]. split; [reflexivity|].
  split; [intros E; cbn [snd]; rewrite Sl, Sm; auto|]. split; [exact Cm|]. split; [intros E; rewrite E in Cl; symmetry; exact Cl|].
  split; [exact A|cbn [snd]; congruence].
Qed.

Section Multicopter.
Context (max : Z) (T : Z).

Abbreviation mc_after := (after (V := multicopter) max).

(** The vehicle stays armed, its velocity is known, and every stage takes [T] at least. *)
Definition trigger_ok (p : land_params) : Prop := T <= trigger_time p 1 /\ T <= trigger_time p 3.
Definition in_flight (i : land_in) : Prop :=
  li_armed i <> Some false /\ trigger_ok (li_params i) /\
  exists l, li_position i = Some l /\ lp_v_z_valid l = true /\ recent (li_now i) (lp_timestamp l) = true.

(** Since when the vehicle is still, if it is. *)
Definition still_step (i : land_in) (d : detector multicopter) (since : option Z) : option Z :=
  if still (ld_vehicle (mc_after i d)) then Some (default (li_now i) since) else None.
Definition still_run (s : detector multicopter * option Z) (i : land_in) : detector multicopter * option Z :=
  (mc_after i (fst s), still_step i (fst s) (snd s)).
Definition still_since (l : list land_in) (d : detector multicopter) : option Z := snd (fold_left still_run l (d, None)).
Definition land_runs (l : list land_in) (d : detector multicopter) : detector multicopter :=
  fold_left (fun d i => mc_after i d) l d.

Lemma land_runs_cons i l d : land_runs (i :: l) d = land_runs l (mc_after i d).
Proof. unfold land_runs. by rewrite fold_left_cons. Qed.

Fixpoint times_from (t0 : Z) (l : list land_in) : Prop :=
  match l with [] => True | i :: l => t0 <= li_now i < 2 ^ 64 /\ times_from (li_now i) l end.

Definition flight_inv (since : option Z) (last : Z) (d : detector multicopter) : Prop :=
  lb_armed (ld_base d) = true /\ trigger_ok (mc_params (ld_vehicle d)) /\
  chain T since last (lb_ground_contact (ld_base d)) (lb_maybe_landed (ld_base d)) (lb_landed (ld_base d)).

Lemma params_trigger p v : trigger_ok p -> trigger_ok (mc_params (mc_update_params p v)).
Proof. intros H. unfold mc_update_params. by repeat case_match. Qed.

Lemma topics_params i v : mc_params (mc_update_topics i v) = mc_params v.
Proof. unfold mc_update_topics. by repeat case_match. Qed.

(** The state that a run decides on. *)
Lemma inputs_spec i d (d' := inputs (V := multicopter) i d) :
  lb_armed (ld_base d') = default (lb_armed (ld_base d)) (li_armed i) /\
  lb_position (ld_base d') = default (lb_position (ld_base d)) (li_position i) /\
  lb_ground_contact (ld_base d') = lb_ground_contact (ld_base d) /\
  lb_maybe_landed (ld_base d') = lb_maybe_landed (ld_base d) /\ lb_landed (ld_base d') = lb_landed (ld_base d) /\
  (trigger_ok (li_params i) -> trigger_ok (mc_params (ld_vehicle d)) -> trigger_ok (mc_params (ld_vehicle d'))).
Proof.
  subst d'. unfold inputs. set (d1 := read_params i d).
  assert (ld_base d1 = ld_base d /\ (trigger_ok (li_params i) -> trigger_ok (mc_params (ld_vehicle d)) ->
    trigger_ok (mc_params (ld_vehicle d1)))) as [<- P].
  { subst d1. unfold read_params. destruct (_ || _); [|done]. split; [done|]. intros H _. by apply params_trigger. }
  clearbody d1. unfold read_topics. set (d2 := read_motion i d1).
  assert (ld_vehicle d2 = ld_vehicle d1 /\ lb_armed (ld_base d2) = default (lb_armed (ld_base d1)) (li_armed i) /\
    lb_position (ld_base d2) = lb_position (ld_base d1) /\ lb_ground_contact (ld_base d2) = lb_ground_contact (ld_base d1) /\
    lb_maybe_landed (ld_base d2) = lb_maybe_landed (ld_base d1) /\ lb_landed (ld_base d2) = lb_landed (ld_base d1))
    as (Ev & <- & <- & <- & <- & <-).
  { subst d2. unfold read_motion. destruct (li_angular_velocity i) as [[t w]|]; [destruct (fgt _ _)|]; by repeat split. }
  clearbody d2. split_and!; try reflexivity. intros H1 H2.
  change (trigger_ok (mc_params (mc_update_topics i (ld_vehicle d2)))). rewrite topics_params, Ev. by apply P.
Qed.

Lemma flight_step since last i d :
  flight_inv since last d -> 0 <= T -> in_flight i -> last <= li_now i < 2 ^ 64 ->
  flight_inv (still_step i d since) (li_now i) (mc_after i d).
Proof.
  intros (A & P & C) T0 (Ai & Pi & l & El & Ez & Er) N. unfold still_step.
  destruct (run_decided max i d) as [Eb Ev]. destruct (inputs_spec i d) as (Ia & Ip & Ic & Im & Il & It).
  specialize (It Pi P). rewrite A in Ia. rewrite El in Ip. unfold flight_inv. rewrite Eb, Ev. unfold decided.
  generalize dependent (inputs i d). intros d1 Ia Ip Ic Im Il It.
  destruct (detect_stages i (ld_base d1) (ld_vehicle d1)) as (rc & rm & rl & E1 & E2 & E3 & Sc & Sm & Sl & A' & P').
  { rewrite Ia. by destruct (li_armed i) as [[]|]. }
  { by rewrite Ip. }
  { by rewrite Ip. }
  split; [done|]. split; [by rewrite P'|]. rewrite E1, E2, E3 in *. rewrite Ic, Im, Il in *.
  assert (T <= trigger_time (mc_params (ld_vehicle d1)) (factor (ld_base d1))) as Tf.
  { destruct It. unfold factor. by case_match. }
  apply (chain_step T since last (li_now i) rc rm rl); try done.
Qed.

(** Armed and in the air, with no stage of a landing begun. *)
Definition airborne (last : Z) (d : detector multicopter) : Prop :=
  0 <= last < 2 ^ 64 /\ lb_armed (ld_base d) = true /\ trigger_ok (mc_params (ld_vehicle d)) /\
  Forall (fun h => falls_at_once h /\ hy_requested_state h = false)
    [lb_ground_contact (ld_base d); lb_maybe_landed (ld_base d); lb_landed (ld_base d)].

Lemma airborne_inv last d : airborne last d -> flight_inv None last d.
Proof.
  intros (L & A & P & F). rewrite !Forall_cons in F. destruct F as ((F1 & R1) & (F2 & R2) & (F3 & R3) & _).
  split; [done|]. split; [done|]. split; [done|]. split; [done|]. split_and!; try done; congruence.
Qed.

Lemma flight_runs l : forall since last d,
  flight_inv since last d -> 0 <= T -> Forall in_flight l -> times_from last l ->
  exists last', flight_inv (snd (fold_left still_run l (d, since))) last' (land_runs l d) /\
    fst (fold_left still_run l (d, since)) = land_runs l d /\
    forall i, times_from last (l ++ [i]) -> last' <= li_now i < 2 ^ 64.
Proof.
  induction l as [|i l IH]; intros since last d I T0 F N.
  - exists last. split; [done|]. split; [done|]. by intros i [? _].
  - apply Forall_cons in F as [Fi F]. destruct N as [Ni N].
    destruct (IH _ _ _ (flight_step since last i d I T0 Fi Ni) T0 F N) as (last' & I' & E & L).
    exists last'. rewrite !fold_left_cons. assert (still_run (d, since) i = (mc_after i d, still_step i d since)) as -> by reflexivity.
    rewrite land_runs_cons.
    split; [exact I'|]. split; [exact E|]. intros j [_ Nj]. by apply L.
Qed.

Lemma land_times_snoc l : forall t0 i, times_from t0 (l ++ [i]) -> times_from t0 l.
Proof. induction l as [|j l IH]; intros t0 i N; [done|]. destruct N as [Nj N]. split; [done|]. by apply IH with i. Qed.

(** C19 (safety). A landing in flight is believed only after the whole trigger time.  The
    vehicle is armed and in the air with no stage of a landing begun, it stays armed, and
    every run has a recent position with a valid vertical velocity.  When a run reports that
    it has landed, then in every run of the last three stage times it had low throttle, a
    vertical velocity within its limit, no measured horizontal velocity above its limit (an
    unknown one counts as none), and a distance to the ground below the threshold or not
    checked, being not observable or invalid. *)
Theorem landed_after_trigger_time l i t0 d m :
  airborne t0 d -> 0 <= T -> Forall in_flight (l ++ [i]) -> times_from t0 (l ++ [i]) ->
  In m (fst (LandDetector.Run max i (land_runs l d))) -> lm_landed m = true ->
  exists t, still_since (l ++ [i]) d = Some t /\ 3 * T <= li_now i - t.
Proof.
  intros A T0 F N I M. apply airborne_inv in A. apply Forall_app in F as [F Fi]. apply Forall_inv in Fi.
  destruct (flight_runs l None t0 d A T0 F (land_times_snoc _ _ _ N)) as (last & J & E & L).
  destruct (flight_step _ last i (land_runs l d) J T0 Fi (L i N)) as (_ & _ & C).
  destruct (published_states max i _ m I) as [S _]. rewrite M in S.
  destruct (chain_landed _ _ _ _ _ _ C (eq_sym S)) as (t & Et & Lt). exists t. split; [|lia].
  unfold still_since. rewrite fold_left_app. cbn [fold_left]. unfold still_run at 1. cbn [snd]. by rewrite E.
Qed.

End Multicopter.


(** ** The order of the stages *)

(** What a vehicle with stages promises to the detector: both stages take the same time, and a
    landing needs that the vehicle may have landed, or that this was just decided to be so. *)
Class StagedVehicle (V : Type) `{!LandVehicle V} := {
  staged_factor f (v : V) b :
    exists t, lb_maybe_landed (set_hysteresis_factor f v b) = set_hysteresis_time_from false t (lb_maybe_landed b) /\
              lb_landed (set_hysteresis_factor f v b) = set_hysteresis_time_from false t (lb_landed b);
  staged_landed i b (v : V) :
    let '(rm, v1) := get_maybe_landed_state i b v in
    let b1 := b <| lb_maybe_landed := set_state_and_update rm (li_now i) (lb_maybe_landed b) |> in
    fst (get_landed_state i b1 v1) = true -> rm = true \/ hy_state (lb_maybe_landed b1) = true
}.

Lemma mc_staged i b b1 v v1 rm :
  mc_maybe_landed i b v = (rm, v1) -> lb_armed b1 = lb_armed b -> fst (mc_landed i b1 v1) = true ->
  rm = true \/ hy_state (lb_maybe_landed b1) = true.
Proof.
  unfold mc_maybe_landed, mc_landed. cbn [fst]. intros E ->. destruct (lb_armed b); [by right|].
  injection E as <- _. by left.
Qed.

#[export] Instance Multicopter_staged : StagedVehicle multicopter.
Proof.
  split; [intros f v b; by eexists|]. intros i b v. cbn [get_maybe_landed_state get_landed_state Multicopter].
  destruct (mc_maybe_landed i b v) as [rm v1] eqn:E. set (b1 := b <| lb_maybe_landed := _ |>). by apply (mc_staged i b b1 v).
Qed.

#[export] Instance Vtol_staged : StagedVehicle vtol.
Proof.
  split; [intros f v b; by eexists|]. intros i b v. cbn [get_maybe_landed_state get_landed_state Vtol].
  unfold vt_maybe_landed, vt_landed. destruct (in_fixed_wing_mode b) eqn:F.
  - set (b1 := b <| lb_maybe_landed := _ |>). assert (in_fixed_wing_mode b1 = true) as -> by exact F. cbn [fst]. by left.
  - destruct (mc_maybe_landed i b (vt_mc v)) as [rm m] eqn:E. set (b1 := b <| lb_maybe_landed := _ |>).
    assert (in_fixed_wing_mode b1 = false) as -> by exact F. pose proof (mc_staged i b b1 (vt_mc v) m rm E eq_refl) as M.
    change (vt_mc (v <| vt_mc := m |>)) with m. destruct (mc_landed i b1 m) as [rl m']. destruct (li_airspeed i) as [t a].
    cbn [fst] in *. destruct (_ && _); [done|]. exact M.
Qed.

(** A requested rise. *)
Lemma rise now h (h' := set_state_and_update true now h) :
  falls_at_once h ->
  hy_requested_state h' = true /\
  hy_last_time_to_change_state h' = (if hy_requested_state h then hy_last_time_to_change_state h else now) /\
  hy_state h' = hy_state h || (hy_time_from_false_us h <=? u64 (now - hy_last_time_to_change_state h')).
Proof.
  intros [_ S]. subst h'. destruct h as [lst tt tf st rq]. unfold set_state_and_update, hysteresis_update. cbn in *.
  destruct st, rq; cbn; try (by specialize (S eq_refl)); by repeat case_match.
Qed.

(** A landed vehicle may have landed, and the second stage never started after the third. *)
Definition begun (last : Z) (h : Hysteresis) : Prop :=
  falls_at_once h /\ (hy_requested_state h = true -> hy_state h = false -> 0 <= hy_last_time_to_change_state h <= last).

Definition ordered (last : Z) (m l : Hysteresis) : Prop :=
  0 <= last < 2 ^ 64 /\ begun last m /\ begun last l /\
  (hy_state m = false -> hy_state l = false /\
     (hy_requested_state l = true ->
      hy_requested_state m = true /\ hy_last_time_to_change_state m <= hy_last_time_to_change_state l)).

Lemma begun_step last now r h :
  begun last h -> 0 <= last <= now -> now < 2 ^ 64 -> begun now (set_state_and_update r now h).
Proof.
  intros [F W] L N. split; [by apply falls_update|]. destruct r.
  - destruct (rise now h F) as (_ & -> & E). rewrite E. intros _ [S _]%orb_false_iff.
    destruct (hy_requested_state h); [specialize (W eq_refl S)|]; lia.
  - destruct (stage_false now h F) as [_ ->]. done.
Qed.

Lemma ordered_step last now t rm rl m l :
  ordered last m l -> last <= now < 2 ^ 64 ->
  let m' := set_state_and_update rm now (set_hysteresis_time_from false t m) in
  let l' := set_state_and_update rl now (set_hysteresis_time_from false t l) in
  (rl = true -> rm = true \/ hy_state m' = true) -> ordered now m' l'.
Proof.
  intros (L & Bm & Bl & O) N m' l' R.
  set (m0 := set_hysteresis_time_from false t m) in *. set (l0 := set_hysteresis_time_from false t l) in *.
  assert (begun last m0) as Bm0 by exact Bm. assert (begun last l0) as Bl0 by exact Bl.
  split; [lia|]. split; [apply begun_step with last; by try lia|]. split; [apply begun_step with last; by try lia|].
  intros E. destruct rl; [|destruct (stage_false now l0 (proj1 Bl0)) as [E1 E2]; subst l'; by rewrite E1, E2].
  destruct (R eq_refl) as [->|?]; [|congruence].
  destruct (rise now m0 (proj1 Bm0)) as (Qm & Lm & Sm), (rise now l0 (proj1 Bl0)) as (_ & Ll & Sl).
  fold m' in Qm, Lm, Sm. fold l' in Ll, Sl. rewrite E in Sm. symmetry in Sm. apply orb_false_iff in Sm as [Sm Tm].
  destruct (O Sm) as [S0 O']. assert (hy_last_time_to_change_state m' <= hy_last_time_to_change_state l' <= now
    /\ 0 <= hy_last_time_to_change_state m') as [Le L0].
  { rewrite Lm, Ll. change (hy_requested_state m0) with (hy_requested_state m). change (hy_requested_state l0) with (hy_requested_state l).
    change (hy_last_time_to_change_state m0) with (hy_last_time_to_change_state m).
    change (hy_last_time_to_change_state l0) with (hy_last_time_to_change_state l). destruct Bm as [_ Wm], Bl as [_ Wl].
    destruct (hy_requested_state l).
    - destruct (O' eq_refl) as [Q ?]. rewrite Q in *. specialize (Wm eq_refl Sm). specialize (Wl eq_refl S0). lia.
    - destruct (hy_requested_state m); [specialize (Wm eq_refl Sm)|]; lia. }
  split; [|split; [done|lia]]. rewrite Sl. apply orb_false_iff. split; [exact S0|]. revert Tm.
  rewrite !wrap_small by (unfold fits; lia). change (hy_time_from_false_us m0) with t. change (hy_time_from_false_us l0) with t. lia.
Qed.

Section Ordered.
Context {V : Type} `{!LandVehicle V} `{!StagedVehicle V} (max : Z).

Definition order_inv (last : Z) (b : land_base) : Prop := ordered last (lb_maybe_landed b) (lb_landed b).

Lemma inputs_stages i (d : detector V) :
  lb_maybe_landed (ld_base (inputs i d)) = lb_maybe_landed (ld_base d) /\ lb_landed (ld_base (inputs i d)) = lb_landed (ld_base d).
Proof.
  unfold inputs, read_topics. set (d1 := read_params i d).
  assert (ld_base d1 = ld_base d) as <- by (subst d1; unfold read_params; by destruct (_ || _)). clearbody d1.
  unfold read_motion. destruct (li_angular_velocity i) as [[t w]|]; [destruct (fgt _ _)|]; done.
Qed.

Lemma detect_ordered last i b (v : V) :
  order_inv last b -> last <= li_now i < 2 ^ 64 -> order_inv (li_now i) (fst (detect i b v)).
Proof.
  intros I N. unfold detect. destruct (staged_factor (factor b) v b) as (t & Em & El).
  set (b1 := set_hysteresis_factor (factor b) v b) in *. clearbody b1.
  unfold detect_contact. destruct (get_ground_contact_state i _ v) as [rc v1].
  set (b3 := _ <| lb_ground_contact := _ |>). assert (lb_maybe_landed b3 = lb_maybe_landed b1) as Em3 by reflexivity.
  assert (lb_landed b3 = lb_landed b1) as El3 by reflexivity. clearbody b3. rewrite Em in Em3. rewrite El in El3.
  unfold detect_maybe. pose proof (staged_landed i b3 v1) as S. destruct (get_maybe_landed_state i b3 v1) as [rm v2].
  cbv zeta in S. set (b4 := b3 <| lb_maybe_landed := _ |>) in *.
  assert (lb_maybe_landed b4 = set_state_and_update rm (li_now i) (lb_maybe_landed b3)) as Em4 by reflexivity.
  assert (lb_landed b4 = lb_landed b3) as El4 by reflexivity. clearbody b4. unfold detect_landed.
  destruct (get_landed_state i b4 v2) as [rl v3]. cbn [fst] in *.
  change (ordered (li_now i) (lb_maybe_landed b4) (set_state_and_update rl (li_now i) (lb_landed b4))).
  rewrite El4, El3. rewrite Em4, Em3 in *. by apply (ordered_step last).
Qed.

Definition vehicle_runs (l : list land_in) (d : detector V) : detector V := fold_left (fun d i => after max i d) l d.

Lemma runs_ordered l : forall last d,
  order_inv last (ld_base d) -> times_from last l -> exists last', order_inv last' (ld_base (vehicle_runs l d)).
Proof.
  unfold vehicle_runs. induction l as [|i l IH]; intros last d I N; [by exists last|]. destruct N as [Ni N].
  rewrite fold_left_cons. apply (IH (li_now i)); [|done].
  destruct (run_decided max i d) as [-> _]. unfold decided. apply detect_ordered with last; [|done].
  unfold order_inv. by destruct (inputs_stages i d) as [-> ->].
Qed.

(** C34 (invariant). On a vehicle with stages, a multicopter or a VTOL, every message that says landed says
    maybe_landed too, however it was armed, disarmed and moved since the construction, and
    although the delays of the two stages run on their own. *)
Theorem landed_maybe_landed imu l i (v : V) high low m (d := detector_new max imu land_base_new v high low) :
  times_from 0 (l ++ [i]) -> In m (fst (LandDetector.Run max i (vehicle_runs l d))) ->
  lm_landed m = true -> lm_maybe_landed m = true.
Proof.
  intros N I. destruct (published_states max i _ m I) as [-> ->]. intros E.
  assert (order_inv 0 (ld_base d)) as I0 by done.
  destruct (runs_ordered (l ++ [i]) 0 d I0 N) as (last & _ & _ & _ & O). revert O.
  unfold vehicle_runs at 1 2 3 4 5. rewrite fold_left_app. cbn [fold_left]. fold (vehicle_runs l d). intros O.
  destruct (hy_state (lb_maybe_landed _)) eqn:M; [done|]. destruct (O eq_refl) as [O' _]. congruence.
Qed.

End Ordered.

(** ** The flight time *)

Lemma u32_s32 x : u32 (s32 x) = u32 x.
Proof.
  unfold s32. destruct (_ <? _); unfold wrap; [by rewrite Z.mod_mod|].
  replace (x mod 2 ^ 32 - 2 ^ 32) with (x mod 2 ^ 32 + (-1) * 2 ^ 32) by lia. by rewrite Z_mod_plus_full, Z.mod_mod.
Qed.

(** Two parameters of 32 bits hold a time of 64. *)
Lemma stored_roundtrip t : fits 64 t -> stored_flight_time (s32 (Z.shiftr t 32)) (s32 t) = t.
Proof.
  intros F. unfold stored_flight_time. rewrite u32_s32. rewrite <- (u64_halves t F) at 3. f_equal.
  rewrite !Z.shiftl_mul_pow2 by lia. rewrite <- (u32_s32 (Z.shiftr t 32)). unfold wrap.
  rewrite Zmult_mod_idemp_l. change (2 ^ 64) with (2 ^ 32 * 2 ^ 32). by rewrite Z.mul_mod_distr_r by lia.
Qed.

Lemma stored_fits high low : fits 64 (stored_flight_time high low).
Proof.
  unfold stored_flight_time. apply fits_lor; [lia|apply wrap_fits; lia|]. apply (fits_weaken 32); [lia|apply wrap_fits; lia].
Qed.

(** A log of flights as a pilot would keep it, from the arming and the published messages. *)
Record flight_log := mkLog { fl_landed : bool; fl_takeoff : option Z; fl_armed : bool; fl_flights : list (Z * Z) }.

Definition log_message (now : Z) (msgs : list land_detected) (s : flight_log) : flight_log :=
  match msgs with
  | m :: _ => mkLog (lm_landed m)
      (match fl_takeoff s with None => if negb (lm_landed m) && fl_landed s then Some now else None | t => t end)
      (fl_armed s) (fl_flights s)
  | [] => s
  end.

Definition log_disarm (now : Z) (armed : bool) (s : flight_log) : flight_log :=
  match fl_takeoff s with
  | Some t => if negb armed && fl_armed s then mkLog (fl_landed s) None armed ((t, now) :: fl_flights s)
              else mkLog (fl_landed s) (Some t) armed (fl_flights s)
  | None => mkLog (fl_landed s) None armed (fl_flights s)
  end.

Definition flown (s : flight_log) : Z := foldr (fun '(t0, t1) n => (t1 - t0) + n) 0 (fl_flights s).

(** A vehicle sets the times of the stages and does not arm or disarm. *)
Class QuietVehicle (V : Type) `{!LandVehicle V} := {
  quiet_factor f (v : V) b : lb_armed (set_hysteresis_factor f v b) = lb_armed b
}.
#[export] Instance Multicopter_quiet : QuietVehicle multicopter.
Proof. by split. Qed.
#[export] Instance Vtol_quiet : QuietVehicle vtol.
Proof. by split. Qed.
#[export] Instance Fixedwing_quiet : QuietVehicle fixedwing.
Proof. by split. Qed.
#[export] Instance Rover_quiet : QuietVehicle rover.
Proof. by split. Qed.
#[export] Instance Airship_quiet : QuietVehicle airship.
Proof. by split. Qed.

Section FlightTime.
Context {V : Type} `{!LandVehicle V} `{!QuietVehicle V} (max : Z).

Definition stored (d : detector V) : Z := stored_flight_time (ld_flight_time_high d) (ld_flight_time_low d).

Definition log_step (s : detector V * flight_log) (i : land_in) : detector V * flight_log :=
  (after max i (fst s),
   log_disarm (li_now i) (default (fl_armed (snd s)) (li_armed i))
     (log_message (li_now i) (fst (LandDetector.Run max i (fst s))) (snd s))).

(** The members that keep the flight time agree with the log. *)
Definition log_inv (start : Z) (d : detector V) (s : flight_log) : Prop :=
  lm_landed (ld_land_detected d) = fl_landed s /\ ld_takeoff_time d = default 0 (fl_takeoff s) /\
  (forall t, fl_takeoff s = Some t -> t <> 0) /\
  ld_previous_armed d = fl_armed s /\ lb_armed (ld_base d) = fl_armed s /\
  stored d = u64 (start + flown s) /\ (ld_total_flight_time d = stored d \/ lm_timestamp (ld_land_detected d) = 0).

(** The same after the parameters were read. *)
Definition log_ready (start : Z) (armed : bool) (d : detector V) (s : flight_log) : Prop :=
  lm_landed (ld_land_detected d) = fl_landed s /\ ld_takeoff_time d = default 0 (fl_takeoff s) /\
  (forall t, fl_takeoff s = Some t -> t <> 0) /\
  ld_previous_armed d = fl_armed s /\ lb_armed (ld_base d) = armed /\
  stored d = u64 (start + flown s) /\ ld_total_flight_time d = stored d.

Lemma params_ready start i d s : log_inv start d s -> log_ready start (fl_armed s) (read_params i d) s.
Proof.
  intros (L & K & P & A & A' & S & T). unfold read_params. destruct (_ || _) eqn:E; [done|].
  split_and!; try done. destruct T as [|T]; [done|]. rewrite T, orb_true_r in E. done.
Qed.

Lemma topics_ready start i d s :
  log_ready start (fl_armed s) d s -> log_ready start (default (fl_armed s) (li_armed i)) (read_topics i d) s.
Proof.
  intros (L & K & P & A & A' & S & T). unfold read_topics, read_motion. rewrite <- A'.
  destruct (li_angular_velocity i) as [[t w]|]; [destruct (fgt _ _)|]; done.
Qed.

Lemma message_ready start armed i d s :
  log_ready start armed d s -> 0 < li_now i ->
  log_ready start armed (snd (publish_land i d)) (log_message (li_now i) (fst (publish_land i d)) s).
Proof.
  intros (L & K & P & A & A' & S & T) N. unfold publish_land. destruct (must_publish i d); [|done]. cbn [fst snd log_message].
  split; [done|]. rewrite K, L. destruct (fl_takeoff s) as [t|] eqn:F; cbn [default].
  - specialize (P t eq_refl). split_and!; try done.
    + cbn. unfold RecordSettersUsingExistingGetters.const. destruct (Z.eqb_spec t 0); [done|]. by rewrite andb_false_r.
    + by intros ? [= ->].
  - split_and!; try done; cbn; unfold RecordSettersUsingExistingGetters.const.
    + rewrite andb_true_r. by destruct (_ && _).
    + destruct (_ && _); [|done]. intros ? [= <-]. lia.
Qed.

Lemma detect_armed i b (v : V) : lb_armed (fst (detect i b v)) = lb_armed b.
Proof.
  unfold detect. rewrite <- (quiet_factor (factor b) v b). set (b1 := set_hysteresis_factor (factor b) v b). clearbody b1.
  unfold detect_contact. destruct (get_ground_contact_state i _ v) as [rc v1].
  unfold detect_maybe. destruct (get_maybe_landed_state i _ v1) as [rm v2].
  unfold detect_landed. by destruct (get_landed_state i _ v2) as [rl v3].
Qed.

Lemma rest_ready start armed i d s : log_ready start armed d s -> log_ready start armed (UpdateVehicleAtRest max i d) s.
Proof.
  destruct (rest_keeps max i d) as (Eb & _ & El & Ek & Et & Ep & Eh & Ew). unfold log_ready, stored. by rewrite Eb, El, Ek, Et, Ep, Eh, Ew.
Qed.

Lemma store_logged start armed i d s :
  log_ready start armed d s -> 0 < li_now i < 2 ^ 64 ->
  log_inv start (store_flight_time i d) (log_disarm (li_now i) armed s).
Proof.
  intros (L & K & P & A & A' & S & T) N. unfold store_flight_time, log_disarm. rewrite A, A'.
  destruct (fl_takeoff s) as [t|] eqn:F.
  - assert (ld_takeoff_time d = t) as -> by exact K. specialize (P t eq_refl). rewrite (proj2 (Z.eqb_neq t 0) P). cbn [negb andb].
    destruct (negb armed && fl_armed s).
    + assert (u64 (ld_total_flight_time d + (li_now i - t)) = u64 (start + (li_now i - t + flown s))) as E.
      { rewrite T, S. unfold wrap. rewrite Zplus_mod_idemp_l. f_equal. lia. }
      assert (fits 64 (u64 (ld_total_flight_time d + (li_now i - t)))) as Ft by (apply wrap_fits; lia).
      generalize dependent (u64 (ld_total_flight_time d + (li_now i - t))). intros total E Ft.
      pose proof (stored_roundtrip total Ft) as R. split; [exact L|]. split; [done|]. split; [done|]. split; [done|]. split; [exact A'|].
      split; [exact (eq_trans R E)|]. left. exact (eq_sym R).
    + split_and!; try done; [by intros ? [= <-]|by left].
  - assert (ld_takeoff_time d = 0) as E by exact K. rewrite E. cbn [negb Z.eqb andb]. split_and!; try done. by left.
Qed.

Lemma log_inv_step start d s i :
  log_inv start d s -> 0 < li_now i < 2 ^ 64 -> log_inv start (fst (log_step (d, s) i)) (snd (log_step (d, s) i)).
Proof.
  intros I N. apply (params_ready start i), (topics_ready start i) in I. unfold log_step, after, LandDetector.Run. cbn [fst snd].
  fold (inputs i d) in *. set (armed := default (fl_armed s) (li_armed i)) in *.
  pose proof (detect_armed i (ld_base (inputs i d)) (ld_vehicle (inputs i d))) as A.
  destruct (detect i (ld_base (inputs i d)) (ld_vehicle (inputs i d))) as [b v]. cbn [fst] in A.
  assert (log_ready start armed ((inputs i d) <| ld_base := b |> <| ld_vehicle := v |>) s) as I1.
  { destruct I as (? & ? & ? & ? & E & ? & ?). split_and!; try done. change (lb_armed b = armed). congruence. }
  apply (rest_ready _ _ i) in I1. set (d1 := UpdateVehicleAtRest _ _ _) in *. clearbody d1.
  apply (message_ready _ _ i) in I1; [|lia]. destruct (publish_land i d1) as [o d2]. cbn [fst snd] in *.
  assert (fl_armed (log_message (li_now i) o s) = fl_armed s) as Ea by (by destruct o).
  by apply store_logged.
Qed.

(** C20 (refinement). The flight time in storage refines a log: for every vehicle, after any runs from the
    construction, the two parameters hold what they held before plus the time from takeoff to
    disarming of every flight, modulo 2^64.  A takeoff is the first published change from
    landed to not landed since the last flight was stored. *)
Theorem flight_time_exact imu l b (v : V) high low (d := detector_new max imu b v high low) :
  lb_armed b = false -> Forall (fun i => 0 < li_now i < 2 ^ 64) l ->
  let '(d', s) := fold_left log_step l (d, mkLog true None false []) in
  stored d' = u64 (stored_flight_time high low + flown s).
Proof.
  intros A N. assert (log_inv (stored_flight_time high low) d (mkLog true None false [])) as I.
  { split_and!; try done; [|by right]. unfold flown. cbn. rewrite Z.add_0_r, wrap_small; [done|]. apply stored_fits. }
  clearbody d. revert I. generalize (mkLog true None false []). revert d.
  induction l as [|i l IH]; intros d s I; [by destruct I as (_ & _ & _ & _ & _ & ? & _)|].
  apply Forall_cons in N as [Ni N]. rewrite fold_left_cons.
  pose proof (log_inv_step _ d s i I Ni) as I'. destruct (log_step (d, s) i) as [d' s']. by apply IH.
Qed.

End FlightTime.

(** ** A flight *)

Definition quad_land_params : land_params :=
  mkLandParams (flit 7 10) (flit 8 100) (flit 12 100) 0 (flit 1 2) (flit 3 10) f1 (f32_of_Z 20) (flit 3 2) (flit 1 2)
    (f32_of_Z 2) (f32_of_Z 8) (f32_of_Z 8) (f32_of_Z 5) (f32_of_Z 3).

(** One run: whether armed, the throttle and the commanded descent. *)
Definition land_run (t : Z) (armed : bool) (throttle vz : f32) : land_in :=
  mkLandIn t false quad_land_params (Some armed) (Some (V3 f0 f0 (f32_of_Z (-10)))) (Some (t, V3 f0 f0 f0))
    (Some (mkLocal t true true f0 f0 f0 false f0 0)) (Some (VEHICLE_TYPE_ROTARY_WING, NAVIGATION_STATE_POSCTL))
    (Some throttle) (Some true) None (Some TAKEOFF_STATE_FLIGHT) (Some vz) (0, f0) None ∅.

Definition climb (t : Z) : land_in := land_run t true (flit 7 10) (f32_of_Z (-1)).
Definition touch_down (t : Z) : land_in := land_run t true f0 f1.

Definition in_the_air : detector multicopter := land_runs 10 [climb 5000000] (MulticopterLandDetector 10 ∅ 0 0).
Definition touch_downs : list land_in :=
  map touch_down (map (fun k => 9000000 + 50000 * k) [0; 1; 2; 3; 4; 5; 6; 7; 8; 9; 10; 11; 12; 13; 14; 15; 16; 17; 18; 19; 20]).

Lemma touch_down_in_flight l : Forall (in_flight 333333) (map touch_down l).
Proof.
  induction l as [|t l IH]; [done|]. apply Forall_cons. split; [|exact IH]. split; [discriminate|].
  split; [split; vm_compute; discriminate|]. eexists. split; [reflexivity|]. split; [reflexivity|].
  unfold recent. cbn [li_now touch_down land_run lp_timestamp]. by rewrite Z.sub_diag.
Qed.

Lemma landed_after_trigger_time_witness :
  exists m t, In m (fst (LandDetector.Run 10 (touch_down 10050000) (land_runs 10 touch_downs in_the_air))) /\ lm_landed m = true /\
    still_since 10 (touch_downs ++ [touch_down 10050000]) in_the_air = Some t /\ 3 * 333333 <= 10050000 - t.
Proof.
  eexists. assert (forall m, In m (fst (LandDetector.Run 10 (touch_down 10050000) (land_runs 10 touch_downs in_the_air))) ->
    lm_landed m = true -> exists t, still_since 10 (touch_downs ++ [touch_down 10050000]) in_the_air = Some t /\
    3 * 333333 <= 10050000 - t) as H.
  { intros m. apply (landed_after_trigger_time 10 333333 touch_downs (touch_down 10050000) 5000000 in_the_air m).
    - split; [lia|]. split; [vm_compute; reflexivity|]. split; [split; vm_compute; discriminate|].
      repeat apply Forall_cons_2; [..|apply Forall_nil_2];
        (split; [split; [vm_compute; reflexivity|vm_compute; discriminate]|vm_compute; reflexivity]).
    - lia.
    - apply Forall_app. split; [apply touch_down_in_flight|apply (touch_down_in_flight [10050000])].
    - cbn. lia. }
  destruct (H _ ltac:(vm_compute; left; reflexivity) eq_refl) as (t & E & L). exists t.
  split; [vm_compute; left; reflexivity|]. split; [reflexivity|]. by split.
Defined.

(** The vehicle of the witness above takes off, flies and lands. *)
Lemma landed_maybe_landed_witness :
  exists m, In m (fst (LandDetector.Run 10 (touch_down 10050000) (land_runs 10 touch_downs in_the_air))) /\
    lm_landed m = true /\ lm_maybe_landed m = true.
Proof.
  eexists. split; [vm_compute; left; reflexivity|]. split; [reflexivity|].
  apply (landed_maybe_landed 10 ∅ (climb 5000000 :: touch_downs) (touch_down 10050000) multicopter_members 0 0);
    [cbn; lia| |reflexivity].
  vm_compute. left. reflexivity.
Defined.

(** A flight of eight seconds, after 100 seconds in earlier ones. *)
Lemma flight_time_exact_witness :
  let '(d, s) := fold_left (log_step 10) [climb 5000000; land_run 13000000 false f0 f1]
                   (MulticopterLandDetector 10 ∅ 0 100000000, mkLog true None false []) in
  fl_flights s = [(5000000, 13000000)] /\ stored d = u64 (stored_flight_time 0 100000000 + flown s).
Proof.
  pose proof (flight_time_exact 10 ∅ [climb 5000000; land_run 13000000 false f0 f1] land_base_new multicopter_members
    0 100000000 eq_refl ltac:(repeat constructor)) as H.
  change (detector_new 10 ∅ land_base_new multicopter_members 0 100000000) with (MulticopterLandDetector 10 ∅ 0 100000000) in H.
  destruct (fold_left _ _ _) as [d s] eqn:E. split; [|exact H].
  apply (f_equal (fun x => fl_flights (snd x))) in E. cbn [snd] in E. rewrite <- E. vm_compute. reflexivity.
Defined.

End LandDetectorSpec.
