(* ===== verification/LandingSpec.v ===== *)
(** * From touch-down to disarming

    The land detector and the commander's automatic disarming, pass by pass: a multicopter that
    flies is disarmed by them only after it was still on the ground for the trigger time of the
    detector and the delay of the commander together ([landing_disarm_delayed]). *)
From coqutil Require Import Datatypes.RecordSettersUsingExistingGetters.
From S2P Require Import Prelude Float32 Takeoff NavState ArmState Commander CommanderLoop CommanderSpec CommanderClaims.
From S2P Require Import LandDetector LandDetectorSpec.
Import NavState ArmState Commander CommanderLoop CommanderClaims LandDetector LandDetectorSpec.
Local Open Scope Z_scope.

Module LandingSpec.

(** ** A pass of both *)

Record landing_in := mkLanding { la_detector : land_in; la_now : Z; la_checks : sensor_checks }.

Section Landing.
Context (max : Z) (p : com_params) (T : Z).
Implicit Types (x : landing_in) (d : detector multicopter) (c : commander).

Abbreviation D := (seconds (com_disarm_land p)).

(** The detector runs, then the commander takes its message, if there is one, and checks for
    the disarming. *)
Definition read_message x (o : list land_detected) c : commander :=
  match o with
  | m :: _ => step (la_now x) (la_checks x) p (ev_land_detector (lm_landed m) (lm_maybe_landed m)) c
  | [] => c
  end.
Definition landing_pass x (s : detector multicopter * commander) : detector multicopter * commander :=
  let '(o, d) := LandDetector.Run max (la_detector x) (fst s) in
  (d, step (la_now x) (la_checks x) p ev_auto_disarm (read_message x o (snd s))).
Definition landing_passes (l : list landing_in) (s : detector multicopter * commander) : detector multicopter * commander :=
  fold_left (fun s x => landing_pass x s) l s.

(** ** The message *)

Definition landed_known (d : detector multicopter) c : Prop :=
  lm_landed (ld_land_detected d) = cm_landed c.

(** What a run publishes is what it decided. *)
Lemma inputs_message i d : ld_land_detected (inputs (V := multicopter) i d) = ld_land_detected d.
Proof.
  unfold inputs, read_topics. set (d1 := read_params i d).
  assert (ld_land_detected d1 = ld_land_detected d) as <- by (subst d1; unfold read_params; by destruct (_ || _)).
  clearbody d1. unfold read_motion. destruct (li_angular_velocity i) as [[t w]|]; [destruct (fgt _ _)|]; done.
Qed.

Lemma store_message i d : ld_land_detected (store_flight_time (V := multicopter) i d) = ld_land_detected d.
Proof. unfold store_flight_time. by destruct (_ && _ && _). Qed.

Lemma publish_message i d :
  let '(o, d') := publish_land (V := multicopter) i d in
  lm_landed (ld_land_detected d') = hy_state (lb_landed (ld_base d')) /\
  lm_landed (ld_land_detected d') = match o with m :: _ => lm_landed m | [] => lm_landed (ld_land_detected d) end.
Proof.
  unfold publish_land. destruct (must_publish i d) eqn:M; [done|]. split; [|done].
  unfold must_publish in M. rewrite !orb_false_iff in M. destruct M as ((((((_ & M) & _) & _) & _) & _) & _).
  cbn [message lm_landed] in M. by destruct (lm_landed _), (hy_state _).
Qed.

(** ** The commander *)

(** Flying, and nothing else is about to disarm. *)
Definition waiting c : Prop :=
  armed (cm_armed c) = true /\ cm_have_taken_off_since_arming c = true /\
  manual_lockdown (cm_armed c) = false /\ lockdown (cm_armed c) = false /\
  hy_state (cm_auto_disarm_killed c) = false /\
  hy_state (cm_auto_disarm_landed c) = false /\ falls_at_once (cm_auto_disarm_landed c).

Lemma message_waiting x o c :
  waiting c ->
  waiting (read_message x o c) /\ cm_auto_disarm_landed (read_message x o c) = cm_auto_disarm_landed c /\
  cm_landed (read_message x o c) = match o with m :: _ => lm_landed m | [] => cm_landed c end.
Proof.
  intros W. destruct o as [|m o]; [done|]. cbn [read_message step]. unfold land_detector_stage.
  destruct W as (A & H & W). cbn [cm_armed cm_nav]. change (armed (cm_armed _)) with (armed (cm_armed c)). rewrite A.
  destruct (negb (cm_landed c) && lm_landed m); [done|]. destruct (cm_landed c && negb (lm_landed m)); done.
Qed.

(** The delay of the commander, as one more stage. *)
Definition disarm_delay now c : Hysteresis :=
  set_state_and_update (cm_landed c) now (set_hysteresis_time_from false D (cm_auto_disarm_landed c)).

Lemma disarm_waits now k c :
  fgt (com_disarm_land p) f0 = true -> waiting c -> hy_state (disarm_delay now c) = false ->
  let c' := step now k p ev_auto_disarm c in
  waiting c' /\ cm_auto_disarm_landed c' = disarm_delay now c /\ cm_landed c' = cm_landed c.
Proof.
  intros L (A & H & Km & Kl & Hk & Hl & F) E. cbv zeta. cbn [step]. unfold auto_disarm_stage. rewrite A.
  unfold auto_disarm_landing. rewrite L, H. cbn [orb andb].
  set (c1 := c <| cm_auto_disarm_landed := _ |>). assert (cm_auto_disarm_landed c1 = disarm_delay now c) as E1 by reflexivity.
  assert (waiting c1 /\ cm_landed c1 = cm_landed c) as [W1 L1].
  { split; [|done]. split_and!; try done. rewrite E1. by apply falls_update, falls_time. }
  clearbody c1. rewrite E1, E. unfold auto_disarm_kill, to_be_disarmed.
  destruct W1 as (A1 & H1 & Km1 & Kl1 & Hk1 & Hl1 & F1). rewrite Km1, Kl1, andb_false_r. cbn [orb].
  assert (hy_state (set_state_and_update false now (cm_auto_disarm_killed c1)) = false) as K1.
  { destruct (cm_auto_disarm_killed c1) as [? ? ? st ?]. cbn in Hk1. by subst st. }
  set (c2 := c1 <| cm_auto_disarm_killed := _ |>). assert (hy_state (cm_auto_disarm_killed c2) = false) as K2 by exact K1.
  assert (cm_auto_disarm_landed c2 = cm_auto_disarm_landed c1 /\ cm_landed c2 = cm_landed c1 /\ cm_armed c2 = cm_armed c1 /\
    cm_have_taken_off_since_arming c2 = cm_have_taken_off_since_arming c1) as (Z1 & Z2 & Z3 & Z4) by done.
  clearbody c2. rewrite K2. unfold waiting. rewrite Z1, Z2, Z3, Z4. split_and!; done.
Qed.

(** ** Both together *)

Definition landing_inv (since : option Z) (last : Z) (s : detector multicopter * commander) : Prop :=
  flight_inv T since last (fst s) /\ landed_known (fst s) (snd s) /\ waiting (snd s) /\
  (hy_requested_state (cm_auto_disarm_landed (snd s)) = true ->
     exists t, since = Some t /\ stage (t + 3 * T) D last (cm_auto_disarm_landed (snd s))).

Definition still_for (t now : Z) (since : option Z) : Prop := exists t0, since = Some t0 /\ t <= now - t0.

Lemma flight_inv_later since last last' d :
  flight_inv T since last d -> last <= last' < 2 ^ 64 -> flight_inv T since last' d.
Proof.
  intros (A & P & (L & B & Fc & Fm & Fl & C & M & K)) N. split; [done|]. split; [done|].
  assert (forall b h, stage b T last h -> stage b T last' h) as Later.
  { intros b h (? & ? & S). split; [done|]. split; [lia|]. destruct (hy_state h); lia. }
  split; [lia|]. split; [intros t E; specialize (B t E); lia|]. split; [done|]. split; [done|]. split; [done|].
  split; [|split].
  - intros Q. destruct (C Q) as (t & ? & ?). exists t. auto.
  - intros Q. destruct (M Q) as (t & ? & ? & ?). exists t. auto.
  - intros Q. destruct (K Q) as (t & ? & ? & ?). exists t. auto.
Qed.

(** A message that was published if the state has changed. *)
Definition tells (o : list land_detected) d d' : Prop :=
  lm_landed (ld_land_detected d') = hy_state (lb_landed (ld_base d')) /\
  lm_landed (ld_land_detected d') = match o with m :: _ => lm_landed m | [] => lm_landed (ld_land_detected d) end.

Lemma run_tells i d : tells (fst (LandDetector.Run max i d)) d (after max i d).
Proof.
  unfold after, LandDetector.Run. fold (inputs i d). pose proof (inputs_message i d) as E.
  generalize dependent (inputs i d). intros d0 E. destruct (detect i (ld_base d0) (ld_vehicle d0)) as [b v].
  set (d1 := d0 <| ld_base := b |> <| ld_vehicle := v |>). assert (ld_land_detected d1 = ld_land_detected d) as E1 by exact E.
  clearbody d1. destruct (rest_keeps max i d1) as (_ & _ & E2 & _). rewrite E1 in E2.
  generalize dependent (UpdateVehicleAtRest max i d1). intros d2 E2. pose proof (publish_message i d2) as P.
  destruct (publish_land i d2) as [o d3]. cbn [fst snd]. destruct (store_keeps i d3) as [Eb _]. unfold tells.
  by rewrite Eb, store_message, <- E2.
Qed.

(** What a pass does after the detector: it waits on, or the vehicle was still for both times. *)
Lemma landing_core since since' last now x o d d' c :
  fgt (com_disarm_land p) f0 = true -> 0 <= T ->
  landing_inv since last (d, c) -> flight_inv T since' now d' -> tells o d d' ->
  (forall t t', since = Some t -> since' = Some t' -> t' = t) ->
  last <= now <= la_now x -> la_now x < 2 ^ 64 ->
  landing_inv since' (la_now x) (d', step (la_now x) (la_checks x) p ev_auto_disarm (read_message x o c))
  \/ still_for (3 * T + D) (la_now x) since'.
Proof.
  intros C T0 (_ & Kn & W & Q) I' [R1 R2] Keep N1 N2. cbn [fst snd] in *. unfold landed_known in *. cbn [fst snd] in *.
  destruct (message_waiting x o c W) as (W1 & H1 & L1). set (c1 := read_message x o c) in *.
  assert (cm_landed c1 = hy_state (lb_landed (ld_base d'))) as Lc.
  { rewrite L1, <- R1, R2. by destruct o. }
  clearbody c1. pose proof I' as (A' & P' & Ch).
  assert (cm_landed c1 = true -> exists t, since' = Some t /\ 0 <= t /\ t + 3 * T <= now) as U.
  { rewrite Lc. intros E. destruct (chain_landed _ _ _ _ _ _ Ch E) as (t & Et & Lt). exists t.
    destruct Ch as (_ & B & _). specialize (B t Et). split; [done|lia]. }
  pose proof W1 as (_ & _ & _ & _ & _ & _ & Wf).
  destruct (stage_step D (3 * T) since' last (la_now x) (cm_landed c1) (set_hysteresis_time_from false D (cm_auto_disarm_landed c1)))
    as [Fh Sh]; [by apply falls_time|done|lia| | |].
  { intros E. destruct (U E) as (t & ? & ?). exists t. split; [done|lia]. }
  { intros Rq E. cbn in Rq. rewrite H1 in Rq. destruct (Q Rq) as (t & Et & S). exists t. rewrite H1. split; [|exact S].
    destruct (U E) as (t' & Et' & _). by rewrite Et', (Keep t t' Et Et'). }
  fold (disarm_delay (la_now x) c1) in Fh, Sh. destruct (hy_state (disarm_delay (la_now x) c1)) eqn:E.
  - right. destruct (Sh (proj2 Fh E)) as (_ & t & Et & _ & S). exists t. split; [done|].
    pose proof (stage_up _ _ _ _ Fh S E). lia.
  - left. destruct (disarm_waits (la_now x) (la_checks x) c1 C W1 E) as (W' & H' & L').
    split; [apply flight_inv_later with now; [done|lia]|]. cbn [fst snd].
    split; [unfold landed_known; congruence|]. split; [done|]. rewrite H'. intros Rq. destruct (Sh Rq) as (_ & t & ? & _ & ?).
    by exists t.
Qed.

Lemma landing_pass_eq x d c :
  landing_pass x (d, c) = (after max (la_detector x) d, step (la_now x) (la_checks x) p ev_auto_disarm
    (read_message x (fst (LandDetector.Run max (la_detector x) d)) c)).
Proof. unfold landing_pass, after. cbn [fst snd]. by destruct (LandDetector.Run max (la_detector x) d). Qed.

Lemma still_keeps i d since t t' : since = Some t -> still_step max i d since = Some t' -> t' = t.
Proof. intros ->. unfold still_step. by destruct (still _); intros [= ->]. Qed.

Lemma landing_step since last x d c :
  fgt (com_disarm_land p) f0 = true -> 0 <= T ->
  landing_inv since last (d, c) -> in_flight T (la_detector x) ->
  last <= li_now (la_detector x) <= la_now x -> la_now x < 2 ^ 64 ->
  landing_inv (still_step max (la_detector x) d since) (la_now x) (landing_pass x (d, c))
  \/ still_for (3 * T + D) (la_now x) (still_step max (la_detector x) d since).
Proof.
  intros C T0 I F N1 N2. rewrite landing_pass_eq.
  apply (landing_core since _ last (li_now (la_detector x)) x _ d); try done.
  - apply flight_step with last; [apply I|done..|lia].
  - apply run_tells.
  - intros t t'. apply still_keeps.
Qed.

(** ** Passes *)

Abbreviation detections := (map la_detector).

Lemma still_fst l d : fst (fold_left (still_run max) l (d, None)) = land_runs max l d.
Proof.
  induction l as [|i l IH] using rev_ind; [done|]. unfold land_runs in *. rewrite !fold_left_app, !fold_left_cons.
  cbn [fold_left]. unfold still_run at 1. cbn [fst]. by rewrite IH.
Qed.

Lemma still_since_snoc l i d :
  still_since max (l ++ [i]) d = still_step max i (land_runs max l d) (still_since max l d).
Proof.
  unfold still_since. rewrite fold_left_app, fold_left_cons. cbn [fold_left]. unfold still_run at 1. cbn [snd]. by rewrite still_fst.
Qed.

Lemma passes_snoc l x s : landing_passes (l ++ [x]) s = landing_pass x (landing_passes l s).
Proof. unfold landing_passes. by rewrite fold_left_app, fold_left_cons. Qed.

Lemma passes_detector l d c : fst (landing_passes l (d, c)) = land_runs max (detections l) d.
Proof.
  induction l as [|x l IH] using rev_ind; [done|]. rewrite passes_snoc, map_app. unfold land_runs in *.
  rewrite fold_left_app. cbn [map]. rewrite fold_left_cons. cbn [fold_left]. rewrite <- IH.
  destruct (landing_passes l (d, c)) as [d' c']. by rewrite landing_pass_eq.
Qed.

(** The detector runs, then the commander, pass after pass. *)
Fixpoint passes_from (t0 : Z) (l : list landing_in) : Prop :=
  match l with
  | [] => True
  | x :: l => t0 <= li_now (la_detector x) <= la_now x /\ la_now x < 2 ^ 64 /\ passes_from (la_now x) l
  end.

(** The time of the last pass. *)
Definition last_pass (t0 : Z) (l : list landing_in) : Z := fold_left (fun _ x => la_now x) l t0.

Lemma passes_from_snoc l : forall t0 x, passes_from t0 (l ++ [x]) ->
  passes_from t0 l /\ last_pass t0 l <= li_now (la_detector x) <= la_now x /\ la_now x < 2 ^ 64.
Proof.
  induction l as [|y l IH]; intros t0 x N.
  - destruct N as (N1 & N2 & _). done.
  - destruct N as (N1 & N2 & N). destruct (IH _ _ N) as (N3 & N4). unfold last_pass. rewrite fold_left_cons. done.
Qed.

(** In the air, with the commander told so and no disarming begun. *)
Definition flying_both (t0 : Z) d c : Prop :=
  airborne T t0 d /\ landed_known d c /\ waiting c /\ hy_requested_state (cm_auto_disarm_landed c) = false.

Lemma landing_passes_inv l t0 d c :
  fgt (com_disarm_land p) f0 = true -> 0 <= T -> flying_both t0 d c ->
  Forall (in_flight T) (detections l) -> passes_from t0 l ->
  landing_inv (still_since max (detections l) d) (last_pass t0 l) (landing_passes l (d, c)) \/
  exists l1 x l2, l = l1 ++ x :: l2 /\ still_for (3 * T + D) (la_now x) (still_since max (detections (l1 ++ [x])) d).
Proof.
  intros C T0 (A & K & W & Q). induction l as [|x l IH] using rev_ind; intros F N.
  - left. split; [by apply airborne_inv|]. split; [done|]. split; [done|]. cbn. congruence.
  - destruct (passes_from_snoc _ _ _ N) as (N1 & N2). rewrite map_app in F. apply Forall_app in F as [F Fx].
    apply Forall_inv in Fx. destruct (IH F N1) as [I|(l1 & y & l2 & -> & S)].
    2: { right. exists l1, y, (l2 ++ [x]). by rewrite <- app_assoc. }
    pose proof (passes_detector l d c) as Ed. rewrite passes_snoc, map_app. cbn [map]. rewrite still_since_snoc.
    destruct (landing_passes l (d, c)) as [d' c'] eqn:Es. cbn [fst] in Ed. rewrite <- Ed.
    assert (last_pass t0 (l ++ [x]) = la_now x) as -> by (unfold last_pass; by rewrite fold_left_app).
    destruct (landing_step _ _ x d' c' C T0 I Fx ltac:(lia) ltac:(lia)) as [I'|S]; [by left|].
    right. exists l, x, []. split; [done|]. rewrite map_app. cbn [map]. by rewrite still_since_snoc, <- Ed.
Qed.

(** C18 (safety). A multicopter that flies is disarmed by its landing only after the trigger
    time of the detector and the delay COM_DISARM_LAND together.  The delay is positive; the
    vehicle is armed, in the air with no stage of a landing begun, and nothing else is about
    to disarm it; over the passes of both the detector is not told of a disarming and always
    has a recent position with a valid vertical velocity.  If the commander has disarmed it,
    then at one of the passes it had been still ([still]: low throttle, vertical velocity
    within its limit, no horizontal velocity above its limit measured, the ground close or
    its distance not checked), as every run of the detector saw it, for the three stage
    times plus the delay.  Without a vertical velocity the detector falls back on eight
    seconds of minimum thrust, and nothing is claimed. *)
Theorem landing_disarm_delayed l t0 d c :
  fgt (com_disarm_land p) f0 = true -> 0 <= T -> flying_both t0 d c ->
  Forall (in_flight T) (detections l) -> passes_from t0 l ->
  armed (cm_armed (snd (landing_passes l (d, c)))) = false ->
  exists l1 x l2, l = l1 ++ x :: l2 /\ still_for (3 * T + D) (la_now x) (still_since max (detections (l1 ++ [x])) d).
Proof.
  intros C T0 Fl F N A. destruct (landing_passes_inv l t0 d c C T0 Fl F N) as [(_ & _ & (A' & _) & _)|S]; [congruence|done].
Qed.

End Landing.

(** ** A landing *)

(** COM_DISARM_LAND is 2 s. *)
Definition landing_params : com_params := quad_params <| com_disarm_land := f32_of_Z 2 |>.

(** Passes every 50 ms, the commander 10 ms after the detector. *)
Definition landing_at (t : Z) : landing_in := mkLanding (touch_down t) (t + 10000) good_checks.
Definition landing_times : list Z := map (fun k => 13000000 + 50000 * Z.of_nat k) (seq 0 70).

Lemma landing_disarm_delayed_witness :
  armed (cm_armed (snd (landing_passes 10 landing_params (map landing_at landing_times) (in_the_air, flying)))) = false /\
  exists l1 x l2, map landing_at landing_times = l1 ++ x :: l2 /\
    still_for (3 * 333333 + seconds (com_disarm_land landing_params)) (la_now x)
      (still_since 10 (map la_detector (l1 ++ [x])) in_the_air).
Proof.
  assert (armed (cm_armed (snd (landing_passes 10 landing_params (map landing_at landing_times) (in_the_air, flying)))) = false)
    as A by (vm_compute; reflexivity).
  split; [exact A|]. apply (landing_disarm_delayed 10 landing_params 333333 (map landing_at landing_times) 12500000 in_the_air flying).
  - vm_compute. reflexivity.
  - lia.
  - split; [|split; [vm_compute; reflexivity|split; [|vm_compute; reflexivity]]].
    + split; [lia|]. split; [vm_compute; reflexivity|]. split; [split; vm_compute; discriminate|].
      repeat apply Forall_cons_2; [..|apply Forall_nil_2];
        (split; [split; [vm_compute; reflexivity|vm_compute; discriminate]|vm_compute; reflexivity]).
    + split_and!; try (vm_compute; reflexivity). split; [vm_compute; reflexivity|vm_compute; discriminate].
  - rewrite map_map. apply (touch_down_in_flight landing_times).
  - vm_compute. repeat split; discriminate.
  - exact A.
Defined.


End LandingSpec.
